(* ===== verification/_CoqProject ===== *)
-Q . S2P
Prelude.v
Bitmap.v
PhysBitmap.v
Ports.v
Time.v
Strings.v
Unicode.v
Utf8Stream.v
Ntfs.v
NtfsRecord.v
Checksum.v
Tcp.v
Net.v
RangeCoder.v
Unpack.v
Coff.v
Fat.v
Guard.v
Partition.v
Paging.v
Tasks.v
Xfs.v
Crc.v
Devices.v
Iso.v
Layout.v
Exfat.v
Ipv4Output.v
Ext.v
NtfsInfo.v
Geometry.v
Blit.v
Window.v
Mouse.v
Font.v
DrawChar.v
ImageNames.v
Image.v
ImageFat.v
ImageFiles.v
Exports.v
