(* ===== verification/Prelude.v ===== *)
(** * KolibriOS hybrid kernel: verified model of the Rust utility cuts

    KolibriOS is an x86 assembly kernel.  Its leaf routines are being replaced, one
    at a time, by Rust functions of the crate [src/rust_kernel/kolibri_utils]; every
    cut keeps the register contract of the routine it replaces, and an assembly
    trampoline calls it with all tables and globals passed as arguments.  The
    components therefore do not call one another much: they share memory (page map,
    port table, disk buffers, sockets), and the kernel around them calls each of them.
    This library models the cuts from their Rust source and proves what each of them
    promises to the kernel.

    ** How the model reads

    - A machine integer is a [Z] in its range; wrap-around is written out ([u8],
      [u32], [+ₘ], [-ₘ], [*ₘ], [<<ₘ]), and [x as i32] is [as_i32].
    - Memory is the list of its bytes, a pointer is an offset from its base.  A
      function that writes returns the new memory, so aliasing between its arguments
      is real.  [ld8], [ld32], [st8], ... give [Fault] outside the memory: undefined
      behaviour on a raw pointer, a panic on a slice.
    - [run] is the result of a call: [Done], [Fault], or [Fuel] for a loop that did
      not finish.  A [while] or [loop] of the source is [loop fuel body]; its body is
      one turn.  Fuel is never an assumption of a theorem about a bounded routine: the
      model gives a scan one turn more than the memory has bytes (or than its counter
      says), and the theorem shows the result is [Done].  The routines without a
      bound of their own take the fuel as an argument.
    - Loop bodies are named [<function>_body]; other names are the source's.

    ** The files

    The theorems that state a property of the program carry the number it has in the
    manifest; the number is not repeated here.

    - [Prelude]: integers, the run monad, loops, byte memory, bit arithmetic, and the
      lemmas and tactics all files share ([unwrap], [unwrap_small], [run_step]).
      [Layout]: disjoint regions of one memory, runs of byte stores and the frame of a
      write ([writes]).
    - [Bitmap]: a byte buffer as a set of bits.  Used by [PhysBitmap] and [Ports].
    - [PhysBitmap] ([phys_bitmap.rs], [release_bitmap_page.rs]): the physical page
      allocator.  Its theorems follow every sequence of operations: pages are conserved
      and never handed out twice; then the exact behaviour of the three operations.
    - [Ports] ([io_access.rs], [port_area.rs]): the I/O permission map and the
      reservation table of system call 46: refinement of the byte-level code to a list
      of reservations, the security property and the round trip.
    - [Time] ([time.rs], [ntfs_get_time.rs], [fs_get_time.rs], [fs_read_cmos.rs]): the
      calendar and the on-disk time formats: round trips and the clock.
    - [Strings] ([string.rs], [memmove.rs]): C strings and the forward move.
    - [Unicode] ([unicode.rs], [utf8to16.rs], [utf16_to_8.rs], [casefold.rs]) and
      [Utf8Stream] ([utf16_to_8.rs], [cp866_to_utf8_string.rs]): register-level codecs
      against arithmetic reference encodings, and conversion within a byte budget.
    - [Ntfs] ([ntfs_mcb.rs], [ntfs_create_mcb.rs]): run lists.  [NtfsRecord]
      ([ntfs_usa.rs], [ntfs_bootsec.rs]): torn writes and volume recognition.
    - [Checksum] ([checksum.rs]), [Tcp] ([tcp.rs]), [Net] ([ipv4_route.rs],
      [net_ptr_to_num4.rs], [ipv4_find_fragment_slot.rs], [socket_check.rs]): the
      internet checksum, timers and flags, routing and lookups.
    - [RangeCoder] and [Unpack] ([unpack.rs]): the KPCK/LZMA unpacker inverts a
      reference range encoder bit by bit, unpacks what a reference packer of packets
      wrote, and stops on every input.
    - [Coff] ([coff_reloc.rs], [rebase_coff.rs], [fix_coff_symbols.rs],
      [get_coff_sym.rs], [coff_get_align.rs], ...): driver linking.
    - [Fat] ([fat_name.rs], [fat_get_sector.rs]): short names and their candidates.
    - [Guard] ([userspace.rs], [fs_operation_safe.rs], [app_header.rs]): the buffer
      check in front of the file system call and executable headers.
    - [Partition] ([partition.rs]): partition tables.  [Paging] ([get_pg_addr.rs],
      [v86_get_lin_addr.rs], [usb_td_to_virt.rs]): address translation.  [Tasks]
      ([pid_to_slot.rs], [hotkey.rs]): process and hot key tables.
    - [Xfs] ([xfs_extent.rs], [xfs_hash_lookup.rs], [xfs_node_hash.rs], ...): packed
      extents and directory hashes.
    - [Crc] ([crc.rs]): the CRC of the partition table as a polynomial remainder.
    - [Devices] ([ahci_find_cmdslot.rs], [ahci_is_sig_known.rs], [ahci_port_wait.rs], [pci_make_config_cmd.rs],
      [swap_bytes_in_words.rs]): the controller helpers.
    - [Iso] ([iso9660_copy_name.rs], [iso9660_compare.rs]): names of ISO 9660
      directories, on the text interface of [Utf8Stream].
    - [Exfat] ([exfat_find_lfn.rs], [exfat_checksum.rs], [exfat_get_sector.rs]):
      lookups in exFAT directories behind a directory interface, and the set checksum.
    - [Ipv4Output] ([ipv4_output.rs], [ipv4_output_oracle.rs]): the header writers and
      the output leaf, as emitted and as accepted by a receiver; the crate's own oracle
      is the specification the leaf refines.
    - [Ext] ([get_inode_location.rs], [ext_read_all_times.rs], [ext_write_time.rs],
      [ext_set_file_info.rs]) and [NtfsInfo] ([ntfs_set_file_info.rs]): inode location,
      times and the two attribute writers, whose assembly callbacks are classes.
    - [Geometry] ([geometry.rs]): rectangles, and the clipping of a blit, as sets of
      pixels.  [Blit] ([blit_32.rs]): system call 73 on top of it; what the frame buffer
      shows.  [Window] ([window.rs]): window boxes and client areas.  [Mouse]
      ([mouse.rs]): acceleration and events.  [Font] ([font.rs]): text smoothing, used by
      [DrawChar] ([draw_char.rs]): glyphs, plain, smoothed and scaled.
    - The host tool [src/tools/kolibri_img]: [ImageNames] (its text: white space, UTF-8,
      8.3 names), [Image] (boot sector, directory entries, allocation table, commands),
      [ImageFat] (what is written to a chain of clusters is read back; freeing stops) and
      [ImageFiles] (the commands refine operations on a map from names to contents).
    - [Exports] ([ffi.rs]): the exports that do more than forward a call: guards, slots
      written back, pairs packed into one result, and the crate's second copy of the
      UTF-16 loop, shown to be the first.

    [Strings], [Tasks], [Devices], [Paging], [Font] and [Exports] have their theorems as lemmas of
    the library; they are not in the manifest's list.

    ** Bounds and fuel

    The unpacker's loops stop on any input because each consumes source bytes or output
    room.  [usb_td_to_virt] follows a linked list without a bound of its own and takes
    fuel, like [socket_check]; so do the directory walk of [exfat_find_lfn] and the poll
    of [ahci_port_wait], whose ends depend on callbacks and on the device.  Binary
    searches have 34 turns, one more than a 32-bit length can be halved.  The backward
    walks over a FAT name read below the buffer at most as far as the memory reaches,
    which is their fuel.  The image tool gives up on a chain of clusters after a million;
    its fuel is two more.

    ** What is not modelled

    The assembly kernel and its trampolines, the exports of [ffi.rs] that only forward
    a call, the differential oracles and tests of the crate, port and device I/O, the files and
    messages of the host around [kolibri_img] (its [inspect] and [cow] do nothing else),
    and the tool [binutil].  Pointer forms ([*_ptr]) that only forward their arguments are
    the same call and have no definition of their own. *)

From stdpp Require Import base list gmap fin_sets sets.
From Stdlib Require Import ZArith Lia.

#[global] Open Scope Z_scope.

(** ** Machine integers

    A [w]-bit machine integer is a [Z] in [[0, 2^w)]; every operation that can
    leave this range says how it wraps. *)

Definition wrap (w z : Z) : Z := z mod 2 ^ w.

Abbreviation u8 := (wrap 8).
Abbreviation u16 := (wrap 16).
Abbreviation u32 := (wrap 32).
Abbreviation u64 := (wrap 64).

(** [x as i32] and friends: two's complement reading of a [w]-bit pattern. *)
Definition as_signed (w z : Z) : Z := if z <? 2 ^ (w - 1) then z else z - 2 ^ w.

Abbreviation as_i8 := (as_signed 8).
Abbreviation as_i16 := (as_signed 16).
Abbreviation as_i32 := (as_signed 32).

Declare Scope mach_scope.
Delimit Scope mach_scope with mach.

(** [x.wrapping_add(y)], [x.wrapping_sub(y)], [x.wrapping_mul(y)] on [u32]. *)
Notation "x +ₘ y" := (u32 (x + y)) (at level 50, left associativity) : mach_scope.
Notation "x -ₘ y" := (u32 (x - y)) (at level 50, left associativity) : mach_scope.
Notation "x *ₘ y" := (u32 (x * y)) (at level 40, left associativity) : mach_scope.
(** [x << k] on [u32] drops the bits shifted out; [x >> k] is [Z.shiftr]. *)
Notation "x <<ₘ k" := (u32 (Z.shiftl x k)) (at level 40, left associativity) : mach_scope.
#[global] Open Scope mach_scope.

Definition bool_to_Z (b : bool) : Z := if b then 1 else 0.

(** [x.trailing_zeros()] on a non-zero word; [w] on zero. *)
Fixpoint pos_tz (p : positive) : Z :=
  match p with
  | xO q => 1 + pos_tz q
  | _ => 0
  end.
Definition trailing_zeros (w z : Z) : Z :=
  match z with
  | Zpos p => pos_tz p
  | _ => w
  end.

(** ** The run monad

    [Done a] is a normal return; [Fault] is an access outside the memory a
    function was given (undefined behaviour on a raw pointer, a panic on a
    slice); [Fuel] marks a loop that did not finish within its fuel. *)
Inductive run (A : Type) : Type :=
| Done (a : A)
| Fault
| Fuel.
Arguments Done {A} a.
Arguments Fault {A}.
Arguments Fuel {A}.

#[global] Instance run_ret : MRet run := @Done.
#[global] Instance run_bind : MBind run := fun A B f c =>
  match c with
  | Done a => f a
  | Fault => Fault
  | Fuel => Fuel
  end.

#[global] Instance run_fmap : FMap run := fun A B f c =>
  match c with
  | Done a => Done (f a)
  | Fault => Fault
  | Fuel => Fuel
  end.

#[global] Instance run_eq_dec {A} `{EqDecision A} : EqDecision (run A).
Proof. solve_decision. Defined.

Lemma bind_Done {A B} (c : run A) (f : A -> run B) (b : B) :
  (c ≫= f) = Done b <-> exists a, c = Done a /\ f a = Done b.
Proof. destruct c; cbn; naive_solver. Qed.

Lemma done_bind {A B} (a : A) (f : A -> run B) : Done a ≫= f = f a.
Proof. done. Qed.

(** A loop whose body either continues with a new state or returns. *)
Fixpoint loop {S R : Type} (fuel : nat) (body : S -> run (S + R)) (s : S) : run R :=
  match fuel with
  | O => Fuel
  | Datatypes.S n =>
      r ← body s;
      match r with
      | inl s' => loop n body s'
      | inr r => Done r
      end
  end.

Lemma loop_S {S R} n (body : S -> run (S + R)) s :
  loop (Datatypes.S n) body s =
    r ← body s; match r with inl s' => loop n body s' | inr r => Done r end.
Proof. done. Qed.

(** Total correctness: an invariant, a measure that decreases, enough fuel. *)
Lemma loop_total {S R} (I : S -> Prop) (m : S -> nat) (Q : R -> Prop)
    (body : S -> run (S + R)) :
  (forall s, I s -> exists r, body s = Done r /\
     match r with inl s' => I s' /\ (m s' < m s)%nat | inr r => Q r end) ->
  forall fuel s, I s -> (m s < fuel)%nat ->
  exists r, loop fuel body s = Done r /\ Q r.
Proof.
  intros Hb fuel. induction fuel as [|n IH]; intros s HI Hm; [lia|].
  destruct (Hb s HI) as (r & E & HQ). cbn. rewrite E. cbn.
  destruct r as [s'|r]; [|by eauto].
  destruct HQ as [HI' Hlt]. apply IH; [done|lia].
Qed.

(** Partial correctness: whatever the fuel, a returned value satisfies [Q]. *)
Lemma loop_partial {S R} (I : S -> Prop) (Q : R -> Prop) (body : S -> run (S + R)) :
  (forall s r, I s -> body s = Done r ->
     match r with inl s' => I s' | inr r => Q r end) ->
  forall fuel s r, I s -> loop fuel body s = Done r -> Q r.
Proof.
  intros Hb fuel. induction fuel as [|n IH]; intros s r HI H; [done|].
  cbn in H. apply bind_Done in H as ([s'|r'] & E & H).
  - eapply IH; [|exact H]. by apply (Hb s (inl s')).
  - injection H as <-. by apply (Hb s (inr r')).
Qed.

(** Two bodies that differ in what they return. *)
Lemma loop_map {S R R'} (g : R -> R') (body : S -> run (S + R)) (body' : S -> run (S + R')) :
  (forall s, body' s = (fun r => match r with inl s => inl s | inr r => inr (g r) end) <$> body s) ->
  forall fuel s, loop fuel body' s = g <$> loop fuel body s.
Proof.
  intros H fuel. induction fuel as [|n IH]; intros s; [done|]. rewrite !loop_S, H.
  destruct (body s) as [[s'|r]| |]; cbn; try done.
Qed.

(** Scanning loops: the state of step [i] is [st i]; the first index that satisfies
    [P] ends the loop with its result, index [n] ends it with [none]. *)
Definition first_from (P : nat -> bool) (a n : nat) : option nat := find P (seq a (n - a)).

Lemma first_from_spec P a n :
  match first_from P a n with
  | Some j => (a <= j < n)%nat /\ P j = true /\ forall l, (a <= l < j)%nat -> P l = false
  | None => forall l, (a <= l < n)%nat -> P l = false
  end.
Proof.
  unfold first_from. remember (n - a)%nat as k eqn:Hk. revert a Hk. induction k as [|k IH]; intros a Hk; cbn.
  - intros. lia.
  - destruct (P a) eqn:E; [split_and!; [lia..|done|intros; lia]|].
    specialize (IH (S a) ltac:(lia)). destruct (find P (seq (S a) k)) as [j|].
    + destruct IH as (? & ? & Hl). split_and!; [lia..|done|]. intros l Hla.
      destruct (decide (l = a)) as [->|]; [done|]. apply Hl. lia.
    + intros l Hla. destruct (decide (l = a)) as [->|]; [done|]. apply IH. lia.
Qed.

Lemma scan_loop {S R} (step : S -> run (S + R)) (st : nat -> S) (n a fuel : nat) (P : nat -> bool) res none :
  (forall i, (a <= i < n)%nat ->
     step (st i) = Done (if P i then inr (res i) else inl (st (Datatypes.S i)))) ->
  step (st n) = Done (inr none) -> (a <= n)%nat -> (n - a < fuel)%nat ->
  loop fuel step (st a) = Done (match first_from P a n with Some j => res j | None => none end).
Proof.
  intros Hs Hn Hi Hf. unfold first_from. remember (n - a)%nat as k eqn:Hk.
  revert a fuel Hs Hi Hf Hk. induction k as [|k IH]; intros a [|fuel] Hs Hi Hf Hk; try lia; cbn.
  - replace a with n by lia. by rewrite Hn.
  - rewrite Hs by lia. cbn. destruct (P a) eqn:E; [done|]. apply IH; [intros; apply Hs|..]; lia.
Qed.

(** The same for a loop that tests its end after the step: index [n] is never tried. *)
Lemma scan_last {S R} (step : S -> run (S + R)) (st : nat -> S) (n a fuel : nat) (P : nat -> bool) res none :
  (forall i, (a <= i < n)%nat ->
     step (st i) = Done (if P i then inr (res i)
                         else if (Datatypes.S i =? n)%nat then inr none else inl (st (Datatypes.S i)))) ->
  (a < n)%nat -> (n - a <= fuel)%nat ->
  loop fuel step (st a) = Done (match first_from P a n with Some j => res j | None => none end).
Proof.
  intros Hs Hn Hf. unfold first_from. remember (n - a)%nat as k eqn:Hk.
  revert a fuel Hs Hn Hf Hk. induction k as [|k IH]; intros a [|fuel] Hs Hn Hf Hk; try lia.
  rewrite loop_S, Hs by lia. cbn [seq find]. destruct (P a) eqn:E; [done|]. destruct (Nat.eqb_spec (Datatypes.S a) n).
  - by replace k with O by lia.
  - apply IH; [intros; apply Hs|..]; lia.
Qed.

(** ** Byte memory

    The memory a function is handed (a slice, or the object behind a raw
    pointer) is the list of its bytes; addresses are offsets from its base. *)

Definition is_byte (b : Z) : Prop := 0 <= b < 256.
Abbreviation bytes := (Forall is_byte).

Definition ld8 (m : list Z) (a : Z) : run Z :=
  if a <? 0 then Fault
  else match m !! Z.to_nat a with Some b => Done b | None => Fault end.

Definition st8 (m : list Z) (a v : Z) : run (list Z) :=
  if (0 <=? a) && (a <? Z.of_nat (length m))
  then Done (<[Z.to_nat a := v]> m) else Fault.

(** Little-endian assembly of bytes. *)
Definition le2 (b0 b1 : Z) : Z := b0 + 256 * b1.
Definition le4 (b0 b1 b2 b3 : Z) : Z := b0 + 256 * (b1 + 256 * (b2 + 256 * b3)).

(** Byte [k] of a word. *)
Definition byte_of (z k : Z) : Z := u8 (Z.shiftr z (8 * k)).

Definition ld16 (m : list Z) (a : Z) : run Z :=
  b0 ← ld8 m a; b1 ← ld8 m (a + 1); Done (le2 b0 b1).
Definition ld32 (m : list Z) (a : Z) : run Z :=
  b0 ← ld8 m a; b1 ← ld8 m (a + 1);
  b2 ← ld8 m (a + 2); b3 ← ld8 m (a + 3); Done (le4 b0 b1 b2 b3).
Definition st16 (m : list Z) (a v : Z) : run (list Z) :=
  m ← st8 m a (byte_of v 0); st8 m (a + 1) (byte_of v 1).
Definition st32 (m : list Z) (a v : Z) : run (list Z) :=
  m ← st8 m a (byte_of v 0); m ← st8 m (a + 1) (byte_of v 1);
  m ← st8 m (a + 2) (byte_of v 2); st8 m (a + 3) (byte_of v 3).

(** Byte at an offset, zero outside: the specification-side view. *)
Definition byte_at (m : list Z) (a : Z) : Z :=
  if a <? 0 then 0 else default 0 (m !! Z.to_nat a).

Definition mlen (m : list Z) : Z := Z.of_nat (length m).

Lemma ld8_ok m a : 0 <= a < mlen m -> ld8 m a = Done (byte_at m a).
Proof.
  intros [H1 H2]. unfold ld8, byte_at, mlen in *.
  replace (a <? 0) with false by lia.
  destruct (m !! Z.to_nat a) eqn:E; [done|].
  apply lookup_ge_None in E. lia.
Qed.

Lemma ld8_Done m a b : ld8 m a = Done b <-> 0 <= a < mlen m /\ b = byte_at m a.
Proof.
  unfold ld8, byte_at, mlen. destruct (a <? 0) eqn:E; [naive_solver lia|].
  destruct (m !! Z.to_nat a) eqn:E'; cbn.
  - apply lookup_lt_Some in E'. naive_solver lia.
  - apply lookup_ge_None in E'. naive_solver lia.
Qed.

Lemma st8_ok m a v : 0 <= a < mlen m -> st8 m a v = Done (<[Z.to_nat a := v]> m).
Proof.
  intros H. unfold st8, mlen in *.
  by replace ((0 <=? a) && (a <? Z.of_nat (length m))) with true by lia.
Qed.

Lemma mlen_insert m i v : mlen (<[i := v]> m) = mlen m.
Proof. unfold mlen. by rewrite length_insert. Qed.

Lemma byte_at_insert m a a' v : 0 <= a < mlen m ->
  byte_at (<[Z.to_nat a := v]> m) a' = if a' =? a then v else byte_at m a'.
Proof.
  intros H. unfold byte_at, mlen in *. destruct (a' =? a) eqn:E.
  - replace a' with a by lia. replace (a <? 0) with false by lia.
    rewrite list_lookup_insert_eq by lia. done.
  - destruct (a' <? 0) eqn:E'; [done|]. rewrite list_lookup_insert_ne by lia. done.
Qed.

Lemma byte_at_lookup (m : list Z) i x : m !! i = Some x -> byte_at m (Z.of_nat i) = x.
Proof.
  intros H. unfold byte_at. assert (0 <= Z.of_nat i) by lia.
  replace (Z.of_nat i <? 0) with false by lia. by rewrite Nat2Z.id, H.
Qed.

Lemma byte_at_range m a : bytes m -> is_byte (byte_at m a).
Proof.
  intros H. unfold byte_at. destruct (a <? 0); [unfold is_byte; lia|].
  destruct (m !! Z.to_nat a) eqn:E; cbn; [|unfold is_byte; lia].
  eapply Forall_lookup_1 in E; eauto.
Qed.

Lemma wrap_range w z : 0 <= w -> 0 <= wrap w z < 2 ^ w.
Proof. intros. apply Z.mod_pos_bound. lia. Qed.

Lemma wrap_small w z : 0 <= z < 2 ^ w -> wrap w z = z.
Proof. apply Z.mod_small. Qed.

Lemma byte_of_range z k : is_byte (byte_of z k).
Proof. apply (wrap_range 8). lia. Qed.

Lemma bytes_insert m i v : bytes m -> is_byte v -> bytes (<[i := v]> m).
Proof. intros; by apply Forall_insert. Qed.

(** The memory after [n] bytes of [v] were stored at [a]. *)
Definition write32 (m : list Z) (a v : Z) : list Z :=
  <[Z.to_nat (a + 3) := byte_of v 3]> (<[Z.to_nat (a + 2) := byte_of v 2]>
    (<[Z.to_nat (a + 1) := byte_of v 1]> (<[Z.to_nat a := byte_of v 0]> m))).

Definition word_at (m : list Z) (a : Z) : Z :=
  le4 (byte_at m a) (byte_at m (a + 1)) (byte_at m (a + 2)) (byte_at m (a + 3)).

Lemma ld32_ok m a : 0 <= a -> a + 4 <= mlen m -> ld32 m a = Done (word_at m a).
Proof. intros. unfold ld32. rewrite !ld8_ok by lia. done. Qed.

Lemma ld32_Done m a w : ld32 m a = Done w <-> 0 <= a /\ a + 4 <= mlen m /\ w = word_at m a.
Proof.
  split.
  - unfold ld32. intros H.
    repeat (apply bind_Done in H as (? & ?%ld8_Done & H)).
    injection H as <-. unfold word_at. naive_solver lia.
  - intros (?&?&->). by apply ld32_ok.
Qed.

Lemma st32_ok m a v : 0 <= a -> a + 4 <= mlen m -> st32 m a v = Done (write32 m a v).
Proof.
  intros. unfold st32, write32.
  repeat (rewrite st8_ok by (rewrite ?mlen_insert; lia); cbn [mbind run_bind]). done.
Qed.

Lemma mlen_write32 m a v : mlen (write32 m a v) = mlen m.
Proof. unfold write32. by rewrite !mlen_insert. Qed.

Lemma bytes_write32 m a v : bytes m -> bytes (write32 m a v).
Proof. intros. unfold write32. repeat apply bytes_insert; auto using byte_of_range. Qed.

Lemma byte_at_write32 m a v i : 0 <= a -> a + 4 <= mlen m ->
  byte_at (write32 m a v) i =
  if (a <=? i) && (i <? a + 4) then byte_of v (i - a) else byte_at m i.
Proof.
  intros. unfold write32.
  repeat (rewrite byte_at_insert by (rewrite ?mlen_insert; lia)).
  repeat case_match; try lia; f_equal; lia.
Qed.

Lemma le4_split v : 0 <= v < 2 ^ 32 ->
  le4 (byte_of v 0) (byte_of v 1) (byte_of v 2) (byte_of v 3) = v.
Proof.
  intros H. unfold le4, byte_of, wrap. rewrite !Z.shiftr_div_pow2 by lia.
  change (2 ^ (8 * 0)) with 1. change (2 ^ (8 * 1)) with 256.
  change (2 ^ (8 * 2)) with 65536. change (2 ^ (8 * 3)) with 16777216.
  change (2 ^ 8) with 256. change (2 ^ 32) with 4294967296 in H.
  Z.div_mod_to_equations. lia.
Qed.

Lemma word_at_write32 m a v : 0 <= a -> a + 4 <= mlen m -> 0 <= v < 2 ^ 32 ->
  word_at (write32 m a v) a = v.
Proof.
  intros. unfold word_at. rewrite !byte_at_write32 by lia.
  replace ((a <=? a) && (a <? a + 4)) with true by lia.
  replace ((a <=? a + 1) && (a + 1 <? a + 4)) with true by lia.
  replace ((a <=? a + 2) && (a + 2 <? a + 4)) with true by lia.
  replace ((a <=? a + 3) && (a + 3 <? a + 4)) with true by lia.
  rewrite <- (le4_split v) at 5 by done. f_equal; f_equal; lia.
Qed.

Lemma word_at_write32_other m a v b : 0 <= a -> a + 4 <= mlen m ->
  b + 4 <= a \/ a + 4 <= b -> word_at (write32 m a v) b = word_at m b.
Proof.
  intros. unfold word_at. rewrite !byte_at_write32 by lia.
  repeat match goal with |- context [if ?c then _ else _] =>
    replace c with false by lia end. done.
Qed.

Lemma word_at_range m a : bytes m -> 0 <= word_at m a < 2 ^ 32.
Proof.
  intros H. unfold word_at, le4.
  pose proof (byte_at_range m a H). pose proof (byte_at_range m (a + 1) H).
  pose proof (byte_at_range m (a + 2) H). pose proof (byte_at_range m (a + 3) H).
  unfold is_byte in *. lia.
Qed.

(** [m'] is [m] with the [n] bytes at [to] replaced by [f 0, f 1, ...]. *)
Definition updated (m m' : list Z) (to n : Z) (f : Z -> Z) : Prop :=
  mlen m' = mlen m /\
  forall a, byte_at m' a = if (to <=? a) && (a <? to + n) then f (a - to) else byte_at m a.

Lemma updated_refl m to f : updated m m to 0 f.
Proof. split; [done|]. intros a. by replace ((to <=? a) && (a <? to + 0)) with false by lia. Qed.

Lemma updated_st8 m m' to n f v : 0 <= to -> 0 <= n -> to + n < mlen m ->
  updated m m' to n f -> v = f n ->
  exists m'', st8 m' (to + n) v = Done m'' /\ updated m m'' to (n + 1) f.
Proof.
  intros Hto Hn Hl [Hlen Hb] ->. rewrite st8_ok by lia. eexists. split; [done|].
  split; [by rewrite mlen_insert|]. intros a.
  rewrite byte_at_insert, Hb by lia. repeat case_match; try lia; try done; f_equal; lia.
Qed.

Lemma byte_of_le4 b0 b1 b2 b3 k : is_byte b0 -> is_byte b1 -> is_byte b2 -> is_byte b3 ->
  0 <= k < 4 ->
  byte_of (le4 b0 b1 b2 b3) k =
  if k =? 0 then b0 else if k =? 1 then b1 else if k =? 2 then b2 else b3.
Proof.
  unfold is_byte, byte_of, le4, wrap. intros.
  assert (k = 0 \/ k = 1 \/ k = 2 \/ k = 3) as [->|[->|[->| ->]]] by lia;
    rewrite Z.shiftr_div_pow2 by lia; cbn; Z.div_mod_to_equations; lia.
Qed.

(** The two windows do not share a byte. *)
Definition disjoint (a1 n1 a2 n2 : Z) : Prop := a1 + n1 <= a2 \/ a2 + n2 <= a1.

Lemma updated_outside m m' to n f a : updated m m' to n f ->
  a < to \/ to + n <= a -> byte_at m' a = byte_at m a.
Proof. intros [_ H] Ha. rewrite H. by replace ((to <=? a) && (a <? to + n)) with false by lia. Qed.

(** Two memories with the same bytes are the same memory. *)
Lemma mem_ext m1 m2 : mlen m1 = mlen m2 ->
  (forall a, 0 <= a < mlen m1 -> byte_at m1 a = byte_at m2 a) -> m1 = m2.
Proof.
  unfold mlen. intros Hl H. apply list_eq. intros i.
  destruct (decide (i < length m1)%nat) as [Hi|Hi].
  - specialize (H (Z.of_nat i)). unfold byte_at in H.
    replace (Z.of_nat i <? 0) with false in H by lia. rewrite Nat2Z.id in H.
    destruct (lookup_lt_is_Some_2 m1 i) as [x Hx]; [lia|].
    destruct (lookup_lt_is_Some_2 m2 i) as [y Hy]; [lia|].
    rewrite Hx, Hy in *. cbn in H. f_equal. apply H. lia.
  - rewrite !lookup_ge_None_2 by lia. done.
Qed.

(** ** Total outcomes on arbitrary input

    [ends c Q]: whatever the input, [c] stops; it may fault, and a result satisfies
    [Q]. *)
Definition ends {A} (c : run A) (Q : A -> Prop) : Prop :=
  match c with
  | Done a => Q a
  | Fault => True
  | Fuel => False
  end.

Lemma ends_bind {A B} (c : run A) (f : A -> run B) (P : A -> Prop) (Q : B -> Prop) :
  ends c P -> (forall a, P a -> ends (f a) Q) -> ends (c ≫= f) Q.
Proof. destruct c; cbn; auto. Qed.

Lemma ends_weaken {A} (c : run A) (P Q : A -> Prop) : ends c P -> (forall a, P a -> Q a) -> ends c Q.
Proof. destruct c; cbn; auto. Qed.

Lemma ends_loop {S R} (I : S -> Prop) (m : S -> nat) (Q : R -> Prop) (body : S -> run (S + R)) :
  (forall s, I s -> ends (body s) (fun r =>
     match r with inl s' => I s' /\ (m s' < m s)%nat | inr r => Q r end)) ->
  forall fuel s, I s -> (m s < fuel)%nat -> ends (loop fuel body s) Q.
Proof.
  intros Hb fuel. induction fuel as [|n IH]; intros s HI Hm; [lia|]. rewrite loop_S.
  eapply ends_bind; [by apply Hb|]. intros [s'|r] H; [|exact H]. destruct H as [HI' Hlt]. apply IH; [done|lia].
Qed.

Lemma ends_ld8 m a : ends (ld8 m a) (fun b => 0 <= a < mlen m /\ b = byte_at m a).
Proof. destruct (ld8 m a) as [b| |] eqn:E; [by apply ld8_Done|done|]. unfold ld8 in E. by repeat case_match. Qed.

Lemma ends_st8 m a v : ends (st8 m a v) (fun m' => 0 <= a < mlen m /\ m' = <[Z.to_nat a := v]> m).
Proof. unfold st8, mlen. case_match; cbn; [|done]. split; [lia|done]. Qed.

Lemma ends_ld32 m a : ends (ld32 m a) (fun w => w = word_at m a).
Proof.
  unfold ld32. do 4 (eapply ends_bind; [apply ends_ld8|]; cbn beta; intros ? (_ & ->)). done.
Qed.

(** Bytes outside [[a, a + n)] are unchanged. *)
Definition outside (m m' : list Z) (a n : Z) : Prop :=
  mlen m' = mlen m /\ forall i, i < a \/ a + n <= i -> byte_at m' i = byte_at m i.

Lemma outside_refl m a n : outside m m a n.
Proof. done. Qed.

Lemma outside_st8 m m' a n b v : outside m m' a n -> 0 <= b < mlen m' -> a <= b < a + n ->
  outside m (<[Z.to_nat b := v]> m') a n.
Proof.
  intros [Hl Ho] Hb Hab. split; [by rewrite mlen_insert|]. intros i Hi.
  rewrite byte_at_insert by done. replace (i =? b) with false by lia. by apply Ho.
Qed.

Lemma outside_trans m1 m2 m3 a n b k : outside m1 m2 a n -> outside m2 m3 b k -> 0 <= n -> 0 <= k ->
  forall c l, c <= a -> a + n <= c + l -> c <= b -> b + k <= c + l -> outside m1 m3 c l.
Proof. intros [Hl Ho] [Hl' Ho'] ? ? c l ? ? ? ?. split; [congruence|]. intros i Hi. by rewrite Ho', Ho by lia. Qed.

(** ** Bit-width reasoning *)

Lemma testbit_range_false w z i : 0 <= z < 2 ^ w -> 0 <= w <= i -> Z.testbit z i = false.
Proof.
  intros Hz Hi. destruct (decide (z = 0)) as [->|]; [apply Z.testbit_0_l|].
  apply Z.bits_above_log2; [lia|]. apply Z.log2_lt_pow2; [lia|].
  pose proof (Z.pow_le_mono_r 2 w i). lia.
Qed.

Lemma bits_range w z : 0 <= z -> 0 <= w ->
  (forall i, w <= i -> Z.testbit z i = false) -> 0 <= z < 2 ^ w.
Proof.
  intros Hz Hw H. split; [done|].
  destruct (decide (z = 0)) as [->|]; [apply Z.pow_pos_nonneg; lia|].
  apply Z.log2_lt_pow2; [lia|]. destruct (decide (Z.log2 z < w)); [done|].
  assert (Z.testbit z (Z.log2 z) = true) as Hb by (apply Z.bit_log2; lia).
  rewrite H in Hb; [done|lia].
Qed.

Lemma lor_range w a b : 0 <= w -> 0 <= a < 2 ^ w -> 0 <= b < 2 ^ w -> 0 <= Z.lor a b < 2 ^ w.
Proof.
  intros Hw Ha Hb. apply bits_range; [apply Z.lor_nonneg; lia|done|].
  intros i Hi. rewrite Z.lor_spec, !(testbit_range_false w) by lia. done.
Qed.

Lemma lxor_range w a b : 0 <= w -> 0 <= a < 2 ^ w -> 0 <= b < 2 ^ w -> 0 <= Z.lxor a b < 2 ^ w.
Proof.
  intros Hw Ha Hb. apply bits_range; [apply Z.lxor_nonneg; lia|done|].
  intros i Hi. rewrite Z.lxor_spec, !(testbit_range_false w) by lia. done.
Qed.

Lemma land_range w a b : 0 <= w -> 0 <= a < 2 ^ w -> 0 <= b -> 0 <= Z.land a b < 2 ^ w.
Proof.
  intros Hw Ha Hb. apply bits_range; [apply Z.land_nonneg; lia|done|].
  intros i Hi. rewrite Z.land_spec, (testbit_range_false w) by lia. done.
Qed.

Lemma land_ones_wrap a w : 0 <= w -> Z.land a (2 ^ w - 1) = wrap w a.
Proof. intros. unfold wrap. rewrite <- Z.land_ones by done. f_equal. rewrite Z.ones_equiv. lia. Qed.

(** [x & !(2^k - 1)]: rounding a [w]-bit value down to a multiple of [2^k]. *)
Definition align_down (k z : Z) : Z := z / 2 ^ k * 2 ^ k.

Lemma land_align w k z : 0 <= k <= w -> 0 <= z < 2 ^ w ->
  Z.land z (2 ^ w - 2 ^ k) = align_down k z.
Proof.
  intros Hk Hz. unfold align_down. apply Z.bits_inj'. intros i Hi.
  replace (2 ^ w - 2 ^ k) with ((2 ^ (w - k) - 1) * 2 ^ k)
    by (rewrite Z.mul_sub_distr_r, <- Z.pow_add_r by lia; f_equal; f_equal; lia).
  rewrite Z.land_spec. destruct (decide (i < k)).
  - rewrite !Z.mul_pow2_bits_low by lia. apply andb_false_r.
  - rewrite !Z.mul_pow2_bits by lia. rewrite Z.div_pow2_bits by lia.
    replace (i - k + k) with i by lia.
    destruct (decide (i < w)).
    + rewrite Z.sub_1_r, <- Z.ones_equiv, Z.ones_spec_low by lia. apply andb_true_r.
    + rewrite (testbit_range_false w) by lia. done.
Qed.

(** A signed value survives the trip through its [w]-bit pattern. *)
Lemma as_signed_wrap w z : 0 < w -> - 2 ^ (w - 1) <= z < 2 ^ (w - 1) ->
  as_signed w (wrap w z) = z.
Proof.
  intros Hw Hz. unfold as_signed, wrap.
  assert (2 ^ w = 2 * 2 ^ (w - 1)) as Hp.
  { rewrite <- (Z.pow_succ_r 2 (w - 1)) by lia. f_equal. lia. }
  destruct (decide (0 <= z)).
  - rewrite Z.mod_small by lia. by replace (z <? 2 ^ (w - 1)) with true by lia.
  - assert (z mod 2 ^ w = z + 2 ^ w) as ->.
    { rewrite <- (Z.mod_add z 1) by lia. rewrite Z.mod_small; lia. }
    replace (z + 2 ^ w <? 2 ^ (w - 1)) with false by lia. lia.
Qed.

Lemma as_signed_small w z : 0 <= z < 2 ^ (w - 1) -> as_signed w z = z.
Proof. intros. unfold as_signed. by replace (z <? 2 ^ (w - 1)) with true by lia. Qed.

(** ** Bounded checks by computation *)

Fixpoint forall_from (n : nat) (a : Z) (P : Z -> bool) : bool :=
  match n with
  | O => true
  | S k => P a && forall_from k (a + 1) P
  end.

(** [P] holds on [[a, b)]. *)
Definition forall_range (a b : Z) (P : Z -> bool) : bool := forall_from (Z.to_nat (b - a)) a P.

Lemma forall_range_spec a b (P : Z -> bool) : forall_range a b P = true ->
  forall x, a <= x < b -> P x = true.
Proof.
  unfold forall_range. intros H x Hx.
  assert (a <= x < a + Z.of_nat (Z.to_nat (b - a))) as Hx' by lia. clear Hx.
  remember (Z.to_nat (b - a)) as n eqn:E. clear E. revert a H Hx'.
  induction n as [|n IH]; intros a' H Hx'; [lia|].
  cbn [forall_from] in H. apply andb_true_iff in H as [H1 H2].
  destruct (decide (x = a')) as [->|]; [done|]. apply (IH (a' + 1)); [done|lia].
Qed.

(** Hypotheses [c = Done _] about binds, taken apart. *)
Ltac run_inv := repeat match goal with
  | H : mbind _ _ = Done _ |- _ =>
      let x := fresh "x" in let Hx := fresh "Hx" in
      apply bind_Done in H as (x & Hx & H)
  end.

Ltac run_step := cbn [mbind run_bind mret run_ret fmap run_fmap].

Create HintDb wrap.

(** Wrapping is a congruence. *)
Lemma wrap_add_l w a b : wrap w (wrap w a + b) = wrap w (a + b).
Proof. unfold wrap. apply Zplus_mod_idemp_l. Qed.
Lemma wrap_add_r w a b : wrap w (a + wrap w b) = wrap w (a + b).
Proof. unfold wrap. apply Zplus_mod_idemp_r. Qed.
Lemma wrap_mul_l w a b : wrap w (wrap w a * b) = wrap w (a * b).
Proof. unfold wrap. apply Zmult_mod_idemp_l. Qed.
Lemma wrap_mul_r w a b : wrap w (a * wrap w b) = wrap w (a * b).
Proof. unfold wrap. apply Zmult_mod_idemp_r. Qed.
Lemma wrap_sub_l w a b : wrap w (wrap w a - b) = wrap w (a - b).
Proof. unfold wrap. apply Zminus_mod_idemp_l. Qed.
Lemma wrap_sub_r w a b : wrap w (a - wrap w b) = wrap w (a - b).
Proof. unfold wrap. apply Zminus_mod_idemp_r. Qed.
Lemma wrap_wrap w a : 0 <= w -> wrap w (wrap w a) = wrap w a.
Proof. intros. unfold wrap. apply Zmod_mod. Qed.

#[export] Hint Rewrite wrap_add_l wrap_add_r wrap_mul_l wrap_mul_r wrap_sub_l wrap_sub_r : wrap.

(** Collapse nested wrap-arounds to one at the root. *)
Ltac unwrap := autorewrite with wrap.

(** Drop wrap-arounds that do not happen, from the inside out. *)
Ltac unwrap_small := repeat match goal with
  | |- context [wrap ?w ?z] =>
      lazymatch z with
      | context [wrap _ _] => fail
      | _ => rewrite (wrap_small w z) by lia
      end
  end.

(** [(hi << k) | lo] with [lo] below [2^k] is a sum. *)
Lemma lor_shiftl_add hi lo k : 0 <= k -> 0 <= lo < 2 ^ k ->
  Z.lor (Z.shiftl hi k) lo = hi * 2 ^ k + lo.
Proof.
  intros Hk Hlo. apply Z.bits_inj'. intros i Hi. rewrite Z.lor_spec, Z.shiftl_spec by done.
  destruct (decide (i < k)).
  - rewrite Z.testbit_neg_r by lia. cbn.
    rewrite <- (Z.mod_pow2_bits_low (hi * 2 ^ k + lo) k) by lia.
    rewrite Z.add_comm, Z.mod_add by lia. by rewrite Z.mod_pow2_bits_low by lia.
  - rewrite (testbit_range_false k lo) by lia. rewrite orb_false_r.
    replace i with (i - k + k) at 2 by lia. rewrite <- Z.div_pow2_bits by lia.
    rewrite Z.add_comm, Z.div_add, Z.div_small by lia. done.
Qed.

(** The low and high halves of a 64-bit value, and subtraction with borrow. *)
Lemma sub_borrow_halves a b :
  0 <= b <= a -> a < 2 ^ 64 ->
  let eax := u32 (a mod 2 ^ 32 - b mod 2 ^ 32) in
  let edx := u32 (u32 (a / 2 ^ 32 - b / 2 ^ 32) - bool_to_Z (a mod 2 ^ 32 <? b mod 2 ^ 32)) in
  eax = (a - b) mod 2 ^ 32 /\ edx = (a - b) / 2 ^ 32.
Proof.
  intros Hb Ha. cbn zeta. split; [unfold wrap; by rewrite <- Zminus_mod|].
  rewrite wrap_sub_l. change (2 ^ 32) with 4294967296. change (2 ^ 64) with 18446744073709551616 in Ha.
  destruct (a mod 4294967296 <? b mod 4294967296) eqn:E; cbn [bool_to_Z];
    rewrite wrap_small; change (2 ^ 32) with 4294967296; Z.div_mod_to_equations; lia.
Qed.

(** [x & mask] for a literal all-ones mask. *)
Lemma land_mask z k mask : mask = 2 ^ k - 1 -> 0 <= k -> Z.land z mask = wrap k z.
Proof. intros -> ?. by apply land_ones_wrap. Qed.

(** Replacing the low [k] bits. *)
Lemma lor_mul_add hi lo k : 0 <= k -> 0 <= lo < 2 ^ k -> Z.lor (hi * 2 ^ k) lo = hi * 2 ^ k + lo.
Proof. intros. by rewrite <- lor_shiftl_add, Z.shiftl_mul_pow2 by done. Qed.

Lemma set_low w k x v mask : mask = 2 ^ w - 2 ^ k -> 0 <= k <= w -> 0 <= x < 2 ^ w ->
  0 <= v < 2 ^ k -> Z.lor (Z.land x mask) v = x / 2 ^ k * 2 ^ k + v.
Proof. intros -> ? ? ?. rewrite (land_align w k) by done. apply lor_mul_add; lia. Qed.

(** The low bytes of a number are those of its low word. *)
Lemma byte_of_u32 z k : 0 <= k < 4 -> byte_of (u32 z) k = byte_of z k.
Proof.
  intros Hk. unfold byte_of, wrap. rewrite !Z.shiftr_div_pow2 by lia. assert (0 <= 8 * k /\ 8 * k + 8 <= 32) by lia.
  apply Z.bits_inj'. intros i Hi. destruct (Z.ltb_spec i 8).
  - rewrite !Z.mod_pow2_bits_low, !Z.div_pow2_bits, Z.mod_pow2_bits_low by lia. done.
  - by rewrite !Z.mod_pow2_bits_high by lia.
Qed.

(** Joining two values that occupy disjoint bit ranges, half by half. *)
Lemma lor_halves a b c d k : 0 <= k -> 0 <= b < 2 ^ k -> 0 <= d < 2 ^ k ->
  Z.lor (a * 2 ^ k + b) (c * 2 ^ k + d) = Z.lor a c * 2 ^ k + Z.lor b d.
Proof.
  intros Hk Hb Hd. rewrite <- !lor_mul_add by (try apply lor_range; done).
  rewrite <- !Z.shiftl_mul_pow2 by done. rewrite Z.shiftl_lor.
  rewrite !Z.lor_assoc. f_equal. rewrite <- !Z.lor_assoc. f_equal. apply Z.lor_comm.
Qed.

(** ** Shifts as arithmetic *)

Lemma shl32_eq x k : 0 <= k -> x <<ₘ k = x * 2 ^ k mod 2 ^ 32.
Proof. intros. unfold wrap. by rewrite Z.shiftl_mul_pow2. Qed.

Lemma shr_eq x k : 0 <= k -> Z.shiftr x k = x / 2 ^ k.
Proof. intros. by rewrite Z.shiftr_div_pow2. Qed.

(** A byte below [2^k] joined with a multiple of [2^k]. *)
Lemma lor_tag x hi k : 0 <= k -> 0 <= x < 2 ^ k -> Z.lor x (hi * 2 ^ k) = hi * 2 ^ k + x.
Proof. intros. rewrite Z.lor_comm. by apply lor_mul_add. Qed.

Lemma shl_fold a k : 0 <= a -> 0 <= k -> a * 2 ^ k < 2 ^ 32 -> a <<ₘ k = a * 2 ^ k.
Proof. intros. rewrite shl32_eq by done. apply Z.mod_small. nia. Qed.

Lemma high_bit x : 0 <= x < 2 ^ 32 -> negb (Z.land x 0x80000000 =? 0) = (2 ^ 31 <=? x).
Proof.
  intros Hx. change 0x80000000 with (2 ^ 32 - 2 ^ 31). rewrite (land_align 32 31) by lia.
  unfold align_down. destruct (2 ^ 31 <=? x) eqn:E.
  - replace (x / 2 ^ 31) with 1 by (Z.div_mod_to_equations; lia). done.
  - rewrite Z.div_small by lia. done.
Qed.

Lemma mjoin_cons {A} (x : list A) l : mjoin (x :: l) = x ++ mjoin l.
Proof. done. Qed.

(** ** Stored byte strings *)

Lemma pow256_S n : 256 ^ Z.of_nat (S n) = 256 * 256 ^ Z.of_nat n.
Proof. rewrite Nat2Z.inj_succ, Z.pow_succ_r by lia. done. Qed.

Lemma mlen_cons b (t : list Z) : mlen (b :: t) = mlen t + 1.
Proof. unfold mlen. cbn [length]. lia. Qed.

Lemma mlen_nonneg (t : list Z) : 0 <= mlen t.
Proof. unfold mlen. lia. Qed.

Lemma mlen_app (a b : list Z) : mlen (a ++ b) = mlen a + mlen b.
Proof. unfold mlen. rewrite length_app. lia. Qed.

Lemma byte_at_app a b i : 0 <= i ->
  byte_at (a ++ b) i = if i <? mlen a then byte_at a i else byte_at b (i - mlen a).
Proof.
  intros Hi. unfold byte_at, mlen. replace (i <? 0) with false by lia. case_match.
  - by rewrite lookup_app_l by lia.
  - replace (i - Z.of_nat (length a) <? 0) with false by lia.
    rewrite lookup_app_r by lia. do 2 f_equal. lia.
Qed.

Lemma byte_at_cons x l i : byte_at (x :: l) i = if i =? 0 then x else byte_at l (i - 1).
Proof.
  unfold byte_at. destruct (i <? 0) eqn:E.
  - replace (i =? 0) with false by lia. by replace (i - 1 <? 0) with true by lia.
  - destruct (i =? 0) eqn:E0; [by replace i with 0 by lia|].
    replace (i - 1 <? 0) with false by lia. by replace (Z.to_nat i) with (S (Z.to_nat (i - 1))) by lia.
Qed.

(** The element of a list at the end of a prefix. *)
Lemma byte_at_mid A x B : byte_at (A ++ x :: B) (mlen A) = x.
Proof.
  rewrite byte_at_app by apply mlen_nonneg. replace (mlen A <? mlen A) with false by lia.
  rewrite byte_at_cons. by replace (mlen A - mlen A) with 0 by lia.
Qed.

(** [bs] is stored at [a]. *)
Definition stored (m : list Z) (a : Z) (bs : list Z) : Prop :=
  0 <= a /\ a + mlen bs <= mlen m /\ forall i, 0 <= i < mlen bs -> byte_at m (a + i) = byte_at bs i.

Lemma stored_ld8 m a bs i : stored m a bs -> 0 <= i < mlen bs -> ld8 m (a + i) = Done (byte_at bs i).
Proof. intros (? & ? & H) Hi. rewrite ld8_ok by lia. by rewrite H. Qed.

Lemma updated_stored m m' a bs : updated m m' a (mlen bs) (byte_at bs) -> 0 <= a ->
  a + mlen bs <= mlen m -> stored m' a bs.
Proof.
  intros [Hl Hb] Ha Hfit. split_and!; [done|lia|]. intros i Hi. rewrite Hb.
  replace ((a <=? a + i) && (a + i <? a + mlen bs)) with true by lia. f_equal. lia.
Qed.

Lemma stored_frame m m' a bs to n f : stored m a bs -> updated m m' to n f ->
  disjoint a (mlen bs) to n -> stored m' a bs.
Proof.
  intros (Ha & Hfit & H) Hu Hd. split_and!; [done|by destruct Hu as [-> _]|].
  intros i Hi. rewrite <- H by done. eapply updated_outside; [done|]. unfold disjoint in Hd. lia.
Qed.

Lemma stored_drop m a bs : stored m a bs -> drop (Z.to_nat a) m = bs ++ drop (Z.to_nat a + length bs) m.
Proof.
  intros (Ha & Hfit & H). unfold mlen in *. rewrite <- (take_drop (length bs) (drop (Z.to_nat a) m)) at 1.
  rewrite drop_drop. f_equal. apply list_eq. intros i.
  destruct (decide (i < length bs)%nat) as [Hi|Hi].
  - rewrite lookup_take_lt, lookup_drop by done. specialize (H (Z.of_nat i) ltac:(lia)).
    unfold byte_at in H. replace (a + Z.of_nat i <? 0) with false in H by lia.
    replace (Z.of_nat i <? 0) with false in H by lia.
    replace (Z.to_nat (a + Z.of_nat i)) with (Z.to_nat a + i)%nat in H by lia. rewrite Nat2Z.id in H.
    destruct (lookup_lt_is_Some_2 m (Z.to_nat a + i)) as [x Ex]; [lia|].
    destruct (lookup_lt_is_Some_2 bs i) as [y Ey]; [lia|]. rewrite Ex, Ey in *. cbn in H. by subst.
  - rewrite lookup_take_ge, (lookup_ge_None_2 bs) by lia. done.
Qed.

Lemma bytes_updated m m' a n f : bytes m -> updated m m' a n f ->
  (forall i, 0 <= i < n -> is_byte (f i)) -> bytes m'.
Proof.
  intros Hm [Hl Hb] Hf. apply Forall_lookup_2. intros i x Hi.
  specialize (Hb (Z.of_nat i)). rewrite (byte_at_lookup _ _ _ Hi) in Hb. subst x.
  case_match; [apply Hf; lia|]. by apply byte_at_range.
Qed.

Lemma bytes_of_byte_at m : (forall a, is_byte (byte_at m a)) -> bytes m.
Proof. intros H. apply Forall_lookup_2. intros i x Hi. rewrite <- (byte_at_lookup _ _ _ Hi). apply H. Qed.

Lemma updated_app m m1 m2 dest bs bs' : 0 <= dest ->
  updated m m1 dest (mlen bs) (byte_at bs) ->
  updated m1 m2 (dest + mlen bs) (mlen bs') (byte_at bs') ->
  updated m m2 dest (mlen (bs ++ bs')) (byte_at (bs ++ bs')).
Proof.
  intros Hd [Hl1 H1] [Hl2 H2]. split; [by rewrite Hl2|]. intros a. rewrite H2, H1, mlen_app.
  pose proof (mlen_nonneg bs). pose proof (mlen_nonneg bs').
  repeat case_match; try lia; try done.
  - rewrite byte_at_app by lia. replace (a - dest <? mlen bs) with false by lia. f_equal. lia.
  - rewrite byte_at_app by lia. by replace (a - dest <? mlen bs) with true by lia.
Qed.

Lemma stored_app m a bs bs' : stored m a (bs ++ bs') ->
  stored m a bs /\ stored m (a + mlen bs) bs'.
Proof.
  intros (Ha & Hfit & H). rewrite mlen_app in *. pose proof (mlen_nonneg bs). pose proof (mlen_nonneg bs').
  split; split_and!; try lia; intros i Hi.
  - rewrite H, byte_at_app by lia. by replace (i <? mlen bs) with true by lia.
  - replace (a + mlen bs + i) with (a + (mlen bs + i)) by lia. rewrite H, byte_at_app by lia.
    replace (mlen bs + i <? mlen bs) with false by lia. f_equal. lia.
Qed.

Lemma stored_join m a bs bs' : stored m a bs -> stored m (a + mlen bs) bs' -> stored m a (bs ++ bs').
Proof.
  intros (Ha & Hf & H) (Ha' & Hf' & H'). unfold stored. rewrite mlen_app. split_and!; [done|lia|]. intros i Hi.
  rewrite byte_at_app by lia. destruct (i <? mlen bs) eqn:Ei; [apply H; lia|]. rewrite <- H' by lia. f_equal. lia.
Qed.

Lemma byte_at_fmap f l i : 0 <= i < mlen l -> byte_at (f <$> l) i = f (byte_at l i).
Proof.
  intros Hi. unfold byte_at, mlen in *. replace (i <? 0) with false by lia.
  rewrite list_lookup_fmap. destruct (lookup_lt_is_Some_2 l (Z.to_nat i)) as [x ->]; [lia|]. done.
Qed.

(** ** Copies *)

(** A copy out of memory into a local array: the bytes of a window. *)
Definition copy_out (m : list Z) (p n : Z) : run (list Z) :=
  if (0 <=? p) && (p + n <=? mlen m) then Done (take (Z.to_nat n) (drop (Z.to_nat p) m)) else Fault.

Lemma copy_out_ok m p n : 0 <= p -> 0 <= n -> p + n <= mlen m ->
  exists l, copy_out m p n = Done l /\ mlen l = n /\ forall i, 0 <= i < n -> byte_at l i = byte_at m (p + i).
Proof.
  intros Hp Hn Hfit. unfold copy_out. replace ((0 <=? p) && (p + n <=? mlen m)) with true by lia. eexists. split; [done|].
  unfold mlen in *. split; [rewrite length_take, length_drop; lia|]. intros i Hi. unfold byte_at.
  replace (i <? 0) with false by lia. replace (p + i <? 0) with false by lia.
  rewrite lookup_take_lt, lookup_drop by lia. do 2 f_equal. lia.
Qed.

(** ** Big-endian words *)

(** [movbe], [from_be_bytes]: the four bytes at [a], the most significant first. *)
Definition ld32be (m : list Z) (a : Z) : run Z :=
  b0 ← ld8 m a; b1 ← ld8 m (a + 1);
  b2 ← ld8 m (a + 2); b3 ← ld8 m (a + 3); Done (le4 b3 b2 b1 b0).

Definition be_word_at (m : list Z) (a : Z) : Z :=
  le4 (byte_at m (a + 3)) (byte_at m (a + 2)) (byte_at m (a + 1)) (byte_at m a).

Lemma ld32be_ok m a : 0 <= a -> a + 4 <= mlen m -> ld32be m a = Done (be_word_at m a).
Proof. intros. unfold ld32be. rewrite !ld8_ok by lia. done. Qed.

Lemma be_word_range m a : bytes m -> 0 <= be_word_at m a < 2 ^ 32.
Proof.
  intros H. unfold be_word_at, le4.
  pose proof (byte_at_range m a H). pose proof (byte_at_range m (a + 1) H).
  pose proof (byte_at_range m (a + 2) H). pose proof (byte_at_range m (a + 3) H).
  unfold is_byte in *. lia.
Qed.

(** ** Half-words *)

Definition word16_at (m : list Z) (a : Z) : Z := le2 (byte_at m a) (byte_at m (a + 1)).

Lemma ld16_ok m a : 0 <= a -> a + 2 <= mlen m -> ld16 m a = Done (word16_at m a).
Proof. intros. unfold ld16. rewrite !ld8_ok by lia. done. Qed.

Lemma word16_range m a : bytes m -> 0 <= word16_at m a < 65536.
Proof.
  intros H. unfold word16_at, le2. pose proof (byte_at_range m a H). pose proof (byte_at_range m (a + 1) H).
  unfold is_byte in *. lia.
Qed.

(** Storing half of a word that was read elsewhere moves its two bytes. *)
Lemma byte_of_le2 b0 b1 : is_byte b0 -> is_byte b1 ->
  byte_of (le2 b0 b1) 0 = b0 /\ byte_of (le2 b0 b1) 1 = b1.
Proof.
  unfold is_byte, byte_of, le2, wrap. intros. rewrite !shr_eq by lia.
  change (2 ^ 8) with 256. change (2 ^ (8 * 0)) with 1. change (2 ^ (8 * 1)) with 256.
  Z.div_mod_to_equations. lia.
Qed.

(** [w.swap_bytes()] on [u16]. *)
Definition swap_bytes16 (w : Z) : Z := Z.lor (u16 (Z.shiftl w 8)) (Z.shiftr w 8).

Lemma swap16_le2 b0 b1 : is_byte b0 -> is_byte b1 -> swap_bytes16 (le2 b0 b1) = le2 b1 b0.
Proof.
  unfold is_byte, swap_bytes16, le2. intros. unfold wrap. rewrite Z.shiftl_mul_pow2, shr_eq by lia.
  replace ((b0 + 256 * b1) * 2 ^ 8 mod 2 ^ 16) with (b0 * 2 ^ 8)
    by (change (2 ^ 8) with 256; change (2 ^ 16) with 65536; Z.div_mod_to_equations; lia).
  replace ((b0 + 256 * b1) / 2 ^ 8) with b1 by (change (2 ^ 8) with 256; Z.div_mod_to_equations; lia).
  rewrite lor_mul_add by lia. lia.
Qed.

Lemma st16_ok m a v : 0 <= a -> a + 2 <= mlen m ->
  exists m', st16 m a v = Done m' /\ updated m m' a 2 (fun i => byte_of v i).
Proof.
  intros Ha Hfit. unfold st16.
  destruct (updated_st8 m m a 0 (fun i => byte_of v i) (byte_of v 0)) as (m1 & E1 & H1);
    [lia..|apply updated_refl|done|]. rewrite Z.add_0_r in E1. rewrite E1. cbn [mbind run_bind].
  destruct (updated_st8 m m1 a 1 (fun i => byte_of v i) (byte_of v 1)) as (m2 & E2 & H2);
    [lia..|done|done|]. by exists m2.
Qed.

Lemma bytes_check m : forallb (fun x => (0 <=? x) && (x <? 256)) m = true -> bytes m.
Proof.
  intros H. apply Forall_forall. intros x Hx. rewrite forallb_forall in H.
  apply list_elem_of_In, H in Hx. unfold is_byte. lia.
Qed.
