(* ===== verification/Bitmap.v ===== *)
(** * Bitmaps in byte memory

    The bit view of a byte buffer, shared by the physical page map
    ([PhysBitmap]) and the TSS I/O permission map ([Ports]): bit [i] lives in
    byte [i / 8] at position [i mod 8].  [bit_set m] collects the set bits, so
    that counting and ranges are set reasoning. *)

From stdpp Require Import base list gmap fin_sets sets.
From Stdlib Require Import ZArith Lia.
From S2P Require Import Prelude.

Definition bit (m : list Z) (i : Z) : bool :=
  Z.testbit (byte_at m (i / 8)) (i mod 8).

Definition bit_set (m : list Z) : gset Z :=
  list_to_set (filter (fun i => bit m i = true) (seqZ 0 (8 * mlen m))).

Lemma byte_at_out m a : a < 0 \/ mlen m <= a -> byte_at m a = 0.
Proof.
  unfold byte_at, mlen. intros [H|H]; [by replace (a <? 0) with true by lia|].
  destruct (a <? 0) eqn:E; [done|]. by rewrite lookup_ge_None_2 by lia.
Qed.

Lemma bit_out m i : i < 0 \/ 8 * mlen m <= i -> bit m i = false.
Proof.
  intros H. unfold bit. rewrite byte_at_out; [apply Z.testbit_0_l|].
  Z.div_mod_to_equations. lia.
Qed.

Lemma elem_of_bit_set m i : i ∈ bit_set m <-> bit m i = true.
Proof.
  unfold bit_set. rewrite elem_of_list_to_set, list_elem_of_filter, elem_of_seqZ.
  split; [naive_solver|]. intros H. split; [done|].
  destruct (decide (0 <= i < 0 + 8 * mlen m)) as [|Hn]; [done|].
  rewrite bit_out in H by lia. done.
Qed.

(** Membership in [bit_set] decides equality of the sets. *)
Lemma bit_set_ext m (X : gset Z) :
  (forall i, bit m i = true <-> i ∈ X) -> bit_set m = X.
Proof. intros H. apply set_eq. intros i. by rewrite elem_of_bit_set. Qed.

Lemma bit_set_range m i : i ∈ bit_set m -> 0 <= i < 8 * mlen m.
Proof.
  rewrite elem_of_bit_set. intros H.
  destruct (decide (0 <= i < 8 * mlen m)); [done|]. rewrite bit_out in H by lia. done.
Qed.

Lemma testbit_byte_step b r k : is_byte b -> 0 <= k ->
  Z.testbit (b + 256 * r) k = if k <? 8 then Z.testbit b k else Z.testbit r (k - 8).
Proof.
  intros Hb Hk. unfold is_byte in Hb.
  replace (b + 256 * r) with (b + r * 2 ^ 8) by (change (2 ^ 8) with 256; lia).
  destruct (k <? 8) eqn:E.
  - rewrite <- (Z.mod_pow2_bits_low _ 8) by lia.
    rewrite Z.mod_add by lia. by rewrite Z.mod_pow2_bits_low by lia.
  - replace k with (k - 8 + 8) at 1 by lia. rewrite <- Z.div_pow2_bits by lia.
    rewrite Z.div_add by lia. f_equal. rewrite Z.div_small; lia.
Qed.

(** Bit [k] of a loaded dword is bit [8 * a + k] of the memory. *)
Lemma testbit_word_at m a k : bytes m -> 0 <= k < 32 ->
  Z.testbit (word_at m a) k = bit m (8 * a + k).
Proof.
  intros Hm Hk. unfold word_at, le4, bit.
  assert (forall a k', 0 <= k' < 8 ->
    (8 * a + k') / 8 = a /\ (8 * a + k') mod 8 = k') as Hdm
    by (intros; Z.div_mod_to_equations; lia).
  repeat (rewrite testbit_byte_step by (try (by apply byte_at_range); lia); case_match).
  - destruct (Hdm a k) as [-> ->]; [lia|done].
  - replace (8 * a + k) with (8 * (a + 1) + (k - 8)) by lia.
    destruct (Hdm (a + 1) (k - 8)) as [-> ->]; [lia|done].
  - replace (8 * a + k) with (8 * (a + 2) + (k - 8 - 8)) by lia.
    destruct (Hdm (a + 2) (k - 8 - 8)) as [-> ->]; [lia|done].
  - replace (8 * a + k) with (8 * (a + 3) + (k - 8 - 8 - 8)) by lia.
    destruct (Hdm (a + 3) (k - 8 - 8 - 8)) as [-> ->]; [lia|done].
Qed.

Lemma testbit_byte_of v k j : 0 <= k -> 0 <= j < 8 ->
  Z.testbit (byte_of v k) j = Z.testbit v (8 * k + j).
Proof.
  intros. unfold byte_of, wrap. rewrite Z.mod_pow2_bits_low by lia.
  rewrite Z.shiftr_spec by lia. f_equal. lia.
Qed.

(** Storing a dword replaces exactly its 32 bits. *)
Lemma bit_write32 m a v i : 0 <= a -> a + 4 <= mlen m ->
  bit (write32 m a v) i =
  if (8 * a <=? i) && (i <? 8 * a + 32) then Z.testbit v (i - 8 * a) else bit m i.
Proof.
  intros. unfold bit. rewrite byte_at_write32 by lia.
  destruct ((a <=? i / 8) && (i / 8 <? a + 4)) eqn:E1;
  destruct ((8 * a <=? i) && (i <? 8 * a + 32)) eqn:E2;
    try (Z.div_mod_to_equations; lia); [|done].
  rewrite testbit_byte_of by (Z.div_mod_to_equations; lia).
  f_equal. Z.div_mod_to_equations. lia.
Qed.

(** Storing a byte replaces exactly its 8 bits. *)
Lemma bit_insert m a v i : 0 <= a < mlen m ->
  bit (<[Z.to_nat a := v]> m) i =
  if i / 8 =? a then Z.testbit v (i mod 8) else bit m i.
Proof. intros. unfold bit. rewrite byte_at_insert by lia. by case_match. Qed.

(** ** Bit-test-and-set / bit-test-and-reset on a byte *)

Lemma bts_byte b k j : 0 <= k -> 0 <= j ->
  Z.testbit (Z.lor b (Z.shiftl 1 k)) j = (Z.testbit b j || (j =? k)).
Proof.
  intros. rewrite Z.lor_spec, Z.shiftl_spec by lia. f_equal.
  destruct (j =? k) eqn:E; [by replace (j - k) with 0 by lia|].
  destruct (decide (j < k)); [apply Z.testbit_neg_r; lia|].
  apply (testbit_range_false 1); lia.
Qed.

(** [!(1 << b)] on a [w]-bit word. *)
Lemma testbit_not_bit w b k : 0 <= b < w -> 0 <= k < w ->
  Z.testbit (2 ^ w - 1 - Z.shiftl 1 b) k = negb (k =? b).
Proof.
  intros Hb Hk. rewrite Z.shiftl_1_l.
  rewrite Z.sub_1_r, <- Z.ones_equiv, Z.sub_nocarry_ldiff.
  - rewrite Z.ldiff_spec, Z.ones_spec_low by lia. cbn. f_equal.
    rewrite Z.pow2_bits_eqb by lia. apply Z.eqb_sym.
  - apply Z.bits_inj'. intros i Hi. rewrite Z.ldiff_spec, Z.testbit_0_l.
    rewrite Z.pow2_bits_eqb by lia. destruct (b =? i) eqn:E; [|done].
    rewrite Z.ones_spec_low by lia. done.
Qed.

Lemma btr_word w z b k : 0 <= b < w -> 0 <= k < w ->
  Z.testbit (Z.land z (2 ^ w - 1 - Z.shiftl 1 b)) k = (Z.testbit z k && negb (k =? b)).
Proof. intros. by rewrite Z.land_spec, testbit_not_bit. Qed.

Lemma shiftl1_byte k : 0 <= k < 8 -> is_byte (Z.shiftl 1 k).
Proof.
  intros. rewrite Z.shiftl_mul_pow2 by lia.
  pose proof (Z.pow_le_mono_r 2 k 7). pose proof (Z.pow_pos_nonneg 2 k). 
  unfold is_byte. change (2 ^ 7) with 128 in *. lia.
Qed.

(** The memory with bit [i] set / cleared, as [bts] / [btr] leave it. *)
Definition set_bit (m : list Z) (i : Z) : list Z :=
  <[Z.to_nat (i / 8) := Z.lor (byte_at m (i / 8)) (Z.shiftl 1 (i mod 8))]> m.
Definition clear_bit (m : list Z) (i : Z) : list Z :=
  <[Z.to_nat (i / 8) := Z.land (byte_at m (i / 8)) (255 - Z.shiftl 1 (i mod 8))]> m.

Lemma bit_set_bit m i j : 0 <= i < 8 * mlen m ->
  bit (set_bit m i) j = (bit m j || (j =? i)).
Proof.
  intros. unfold set_bit. rewrite bit_insert by (Z.div_mod_to_equations; lia).
  destruct (j / 8 =? i / 8) eqn:E.
  - rewrite bts_byte by (Z.div_mod_to_equations; lia). unfold bit.
    replace (i / 8) with (j / 8) by lia. f_equal.
    apply eq_true_iff_eq. Z.div_mod_to_equations. lia.
  - replace (j =? i) with false by (Z.div_mod_to_equations; lia). by rewrite orb_false_r.
Qed.

Lemma bit_clear_bit m i j : 0 <= i < 8 * mlen m ->
  bit (clear_bit m i) j = (bit m j && negb (j =? i)).
Proof.
  intros. unfold clear_bit. rewrite bit_insert by (Z.div_mod_to_equations; lia).
  destruct (j / 8 =? i / 8) eqn:E.
  - rewrite (btr_word 8) by (Z.div_mod_to_equations; lia). unfold bit.
    replace (i / 8) with (j / 8) by lia. f_equal. f_equal.
    apply eq_true_iff_eq. Z.div_mod_to_equations. lia.
  - replace (j =? i) with false by (Z.div_mod_to_equations; lia). by rewrite andb_true_r.
Qed.

Lemma bytes_set_bit m i : bytes m -> bytes (set_bit m i).
Proof.
  intros. apply bytes_insert; [done|].
  apply (lor_range 8); [lia|by apply byte_at_range|]. apply shiftl1_byte. Z.div_mod_to_equations. lia.
Qed.

Lemma bytes_clear_bit m i : bytes m -> bytes (clear_bit m i).
Proof.
  intros. apply bytes_insert; [done|]. apply (land_range 8); [lia|by apply byte_at_range|].
  pose proof (shiftl1_byte (i mod 8)) as Hb. unfold is_byte in Hb.
  assert (0 <= i mod 8 < 8) by (Z.div_mod_to_equations; lia). lia.
Qed.

Lemma mlen_set_bit m i : mlen (set_bit m i) = mlen m.
Proof. apply mlen_insert. Qed.
Lemma mlen_clear_bit m i : mlen (clear_bit m i) = mlen m.
Proof. apply mlen_insert. Qed.

Lemma bit_set_set_bit m i : 0 <= i < 8 * mlen m -> bit_set (set_bit m i) = {[i]} ∪ bit_set m.
Proof.
  intros. apply bit_set_ext. intros j.
  rewrite bit_set_bit, elem_of_union, elem_of_singleton, elem_of_bit_set by done.
  destruct (bit m j); cbn; [naive_solver|]. rewrite Z.eqb_eq. naive_solver.
Qed.

Lemma bit_set_clear_bit m i : 0 <= i < 8 * mlen m -> bit_set (clear_bit m i) = bit_set m ∖ {[i]}.
Proof.
  intros. apply bit_set_ext. intros j.
  rewrite bit_clear_bit, elem_of_difference, elem_of_singleton, elem_of_bit_set by done.
  destruct (bit m j); cbn; [|naive_solver]. rewrite negb_true_iff, Z.eqb_neq. naive_solver.
Qed.

(** [x.trailing_zeros()] of a non-zero word names its lowest set bit. *)
Lemma trailing_zeros_spec w z : 0 < z ->
  let k := trailing_zeros w z in
  0 <= k /\ Z.testbit z k = true /\ forall j, 0 <= j < k -> Z.testbit z j = false.
Proof.
  destruct z as [|p|p]; [lia| |lia]. intros _. cbn [trailing_zeros].
  induction p as [p IH|p IH|]; cbn [pos_tz]; try (split; [lia|split; [done|lia]]).
  destruct IH as (H1 & H2 & H3). rewrite Pos2Z.inj_xO. split; [lia|]. split.
  - replace (1 + pos_tz p) with (Z.succ (pos_tz p)) by lia.
    by rewrite Z.double_bits_succ.
  - intros j Hj. destruct (decide (j = 0)) as [->|]; [apply Z.testbit_even_0|].
    replace j with (Z.succ (j - 1)) by lia. rewrite Z.double_bits_succ. apply H3. lia.
Qed.

Lemma trailing_zeros_lt w z : 0 < z < 2 ^ w -> 0 <= w -> trailing_zeros w z < w.
Proof.
  intros Hz Hw. destruct (trailing_zeros_spec w z) as (H1 & H2 & _); [lia|].
  destruct (decide (trailing_zeros w z < w)); [done|].
  rewrite (testbit_range_false w) in H2; [done|lia|lia].
Qed.

(** ** Index arithmetic of the bit operations: [i >> 3], [i & 7], [(b >> k) & 1] *)

Lemma shr3 z : Z.shiftr z 3 = z / 8.
Proof. by rewrite Z.shiftr_div_pow2 by lia. Qed.
Lemma and7 z : Z.land z 7 = z mod 8.
Proof. apply (land_ones_wrap z 3). lia. Qed.

Lemma and1_testbit z k : 0 <= k -> (Z.land (Z.shiftr z k) 1 =? 0) = negb (Z.testbit z k).
Proof.
  intros. rewrite (land_ones_wrap _ 1 ltac:(lia)). unfold wrap. change (2 ^ 1) with 2.
  rewrite <- (Z.add_0_l k) at 2. rewrite <- Z.shiftr_spec by lia.
  rewrite Z.bit0_odd, Zmod_odd. by destruct (Z.odd _).
Qed.

