(* ===== verification/PhysBitmap.v ===== *)
(** * Physical page bitmap allocator

    Model of [phys_bitmap.rs] and [release_bitmap_page.rs]: the page map
    ([sys_pgmap], one bit per 4 KiB page, 1 = free), the scan cursor
    [page_start], its bound [page_end] (both byte offsets from the map) and the
    counter [pages_free].  The specification is the set of free page indices
    ([bit_set] of the map); [alloc_step] runs the operations as a state machine
    with the pages handed out so far as ghost state. *)

From stdpp Require Import base list gmap fin_sets sets relations.
From Stdlib Require Import ZArith Lia.
From S2P Require Import Prelude Bitmap.

(** ** Model *)

Record pgmap := PgMap {
  map : list Z;
  page_start : Z;
  page_end : Z;
  pages_free : Z;
}.

Definition bitmap_bts_free_delta (page_index : Z) (map : list Z) : run (Z * list Z) :=
  let byte_index := Z.shiftr page_index 3 in
  let bit := Z.land page_index 7 in
  old_byte ← ld8 map byte_index;
  let old := Z.land (Z.shiftr old_byte bit) 1 in
  map ← st8 map byte_index (Z.lor old_byte (u8 (Z.shiftl 1 bit)));
  Done (bool_to_Z (old =? 0), map).

Definition release_bitmap_page_without_cursor_update (page_index : Z) (map : list Z)
  : run (Z * list Z) :=
  let byte_index := Z.shiftr page_index 3 in
  let bit := Z.land page_index 7 in
  old_byte ← ld8 map byte_index;
  let old := Z.land (Z.shiftr old_byte bit) 1 in
  map ← st8 map byte_index (Z.lor old_byte (u8 (Z.shiftl 1 bit)));
  Done (bool_to_Z (old =? 0), map).

Definition release_bitmap_page_mode_b (page_index : Z) (s : pgmap) : run (Z * pgmap) :=
  '(delta, map') ← bitmap_bts_free_delta page_index (map s);
  let pf := if negb (delta =? 0) then pages_free s +ₘ delta else pages_free s in
  Done (delta, PgMap map' (page_start s) (page_end s) pf).

(** One turn of the [while ebx < end] scan. *)
Definition alloc_page_body (s : pgmap) (ebx : Z) : run (Z + (Z * pgmap)) :=
  if negb (ebx <? page_end s) then Done (inr (0, s)) else
  word ← ld32 (map s) ebx;
  if negb (word =? 0) then
    let bit := trailing_zeros 32 word in
    let pf := pages_free s -ₘ 1 in
    if pf =? 0 then Done (inr (0, PgMap (map s) (page_start s) (page_end s) 1)) else
    let new_word := Z.land word (2 ^ 32 - 1 - (1 <<ₘ bit)) in
    map' ← st32 (map s) ebx new_word;
    let page_index := bit +ₘ (ebx *ₘ 8) in
    Done (inr (page_index <<ₘ 12, PgMap map' ebx (page_end s) pf))
  else Done (inl (ebx +ₘ 4)).

Definition alloc_page (s : pgmap) : run (Z * pgmap) :=
  if as_i32 (pages_free s) <=? 1 then
    Done (0, PgMap (map s) (page_start s) (page_end s) 1)
  else loop (S (length (map s))) (alloc_page_body s) (page_start s).

Definition free_page (phys : Z) (s : pgmap) : run pgmap :=
  let page_index := Z.shiftr phys 12 in
  '(delta, map') ← bitmap_bts_free_delta page_index (map s);
  let pf := if negb (delta =? 0) then pages_free s +ₘ 1 else pages_free s in
  let dword_off := Z.land (Z.shiftr page_index 3) (2 ^ 32 - 1 - 3) in
  let cursor := page_start s in
  let ps := if dword_off <? cursor then dword_off else cursor in
  Done (PgMap map' ps (page_end s) pf).

(** The [while i < need_bytes] zeroing of a found run. *)
Definition zero_body (edi need_bytes : Z) (st : list Z * Z) : run (list Z * Z + list Z) :=
  let '(m, i) := st in
  if negb (i <? need_bytes) then Done (inr m) else
  m ← st8 m (edi + i) 0;
  Done (inl (m, i +ₘ 1)).

(** The inner [loop] that counts [0xFF] bytes from [edi]: state [(cur, edx)];
    it either breaks with the next [ecx] or returns from [alloc_pages]. *)
Definition run_body (s : pgmap) (need_bytes edi : Z) (st : Z * Z)
  : run (Z * Z + (Z + Z * pgmap)) :=
  let '(cur, edx) := st in
  if page_end s <=? cur then Done (inr (inr (0, s))) else
  b ← ld8 (map s) cur;
  if negb (b =? 255) then Done (inr (inl (cur +ₘ 1))) else
  let edx := edx -ₘ 1 in
  if edx =? 0 then
    map' ← loop (S (Z.to_nat need_bytes)) (zero_body edi need_bytes) (map s, 0);
    let charge := need_bytes <<ₘ 3 in
    Done (inr (inr (edi <<ₘ 15,
      PgMap map' (page_start s) (page_end s) (pages_free s -ₘ charge))))
  else Done (inl (cur +ₘ 1, edx)).

(** One turn of the outer [while ecx < end]. *)
Definition alloc_pages_body (s : pgmap) (need_bytes ecx : Z) : run (Z + Z * pgmap) :=
  if negb (ecx <? page_end s) then Done (inr (0, s)) else
  loop (S (length (map s))) (run_body s need_bytes ecx) (ecx, need_bytes).

Definition alloc_pages (count : Z) (s : pgmap) : run (Z * pgmap) :=
  let need_bytes := Z.shiftr (count +ₘ 7) 3 in
  let pf := pages_free s in
  if as_i32 (u32 (as_i32 pf - 9)) <? 0 then Done (0, s) else
  let avail := Z.shiftr (pf -ₘ 9) 3 in
  if as_i32 avail <? as_i32 need_bytes then Done (0, s) else
  if need_bytes =? 0 then Done (0, s) else
  loop (S (length (map s))) (alloc_pages_body s need_bytes) (page_start s).

(** ** Specification *)

(** The free pages and the pages a map covers. *)
Abbreviation free_pages s := (bit_set (map s)).

(** Well-formed allocator: a byte map of whole dwords ending at [page_end], at
    most 2^17 bytes (4 GiB of pages), an aligned cursor inside it, and a counter
    that is the number of free pages, never below the reserve of one page. *)
Record wf (s : pgmap) : Prop := {
  wf_bytes : bytes (map s);
  wf_end : page_end s = mlen (map s);
  wf_size : mlen (map s) <= 2 ^ 17;
  wf_align : (4 | mlen (map s));
  wf_start : 0 <= page_start s <= mlen (map s);
  wf_start_align : (4 | page_start s);
  wf_count : pages_free s = Z.of_nat (size (free_pages s));
  wf_reserve : 1 <= pages_free s;
}.

(** No free page lies below the cursor. *)
Definition cursor_ok (s : pgmap) : Prop :=
  forall i, i ∈ free_pages s -> 8 * page_start s <= i.

(** ** Lemmas *)

Lemma size_bit_set m : Z.of_nat (size (bit_set m)) <= 8 * mlen m.
Proof.
  unfold bit_set. rewrite size_list_to_set by (apply NoDup_filter, NoDup_seqZ).
  pose proof (length_filter (fun i => bit m i = true) (seqZ 0 (8 * mlen m))).
  rewrite length_seqZ in *. unfold mlen in *. lia.
Qed.

Lemma wf_pages_free s : wf s -> 1 <= pages_free s <= 2 ^ 20.
Proof.
  intros [? ? Hs ? ? ? Hc Hr]. pose proof (size_bit_set (map s)).
  change (2 ^ 20) with (8 * 2 ^ 17). lia.
Qed.

(** [bts]: the bit is set and [delta] says whether it was clear. *)
Lemma bts_free_delta_ok i m : 0 <= i < 8 * mlen m ->
  bitmap_bts_free_delta i m = Done (bool_to_Z (negb (bit m i)), set_bit m i).
Proof.
  intros Hi. unfold bitmap_bts_free_delta.
  assert (0 <= i mod 8 < 8) by (Z.div_mod_to_equations; lia).
  rewrite shr3, and7, ld8_ok by (Z.div_mod_to_equations; lia). cbn [mbind run_bind].
  rewrite st8_ok by (Z.div_mod_to_equations; lia). cbn [mbind run_bind].
  rewrite and1_testbit by lia. unfold set_bit.
  rewrite (wrap_small 8) by (apply shiftl1_byte; lia). done.
Qed.

Lemma release_is_bts i m :
  release_bitmap_page_without_cursor_update i m = bitmap_bts_free_delta i m.
Proof. done. Qed.

Lemma size_add_page (X : gset Z) i :
  Z.of_nat (size ({[i]} ∪ X)) = Z.of_nat (size X) + bool_to_Z (negb (bool_decide (i ∈ X))).
Proof.
  case_bool_decide; cbn.
  - replace ({[i]} ∪ X) with X by set_solver. lia.
  - rewrite size_union, size_singleton by set_solver. lia.
Qed.

Lemma size_remove_page (X : gset Z) i : i ∈ X ->
  Z.of_nat (size (X ∖ {[i]})) = Z.of_nat (size X) - 1.
Proof.
  intros. rewrite size_difference, size_singleton by set_solver.
  assert (size X ≠ 0%nat); [|lia]. intros ?%size_empty_inv. set_solver.
Qed.

Lemma bit_decide m i : bit m i = bool_decide (i ∈ bit_set m).
Proof. case_bool_decide as H; rewrite elem_of_bit_set in H; by destruct (bit m i). Qed.

Lemma word_zero_bits m a : bytes m -> word_at m a = 0 ->
  forall i, 8 * a <= i < 8 * a + 32 -> bit m i = false.
Proof.
  intros Hm Hw i Hi. replace i with (8 * a + (i - 8 * a)) by lia.
  rewrite <- testbit_word_at, Hw by (done || lia). apply Z.testbit_0_l.
Qed.

(** [bsf] / [btr] on a non-zero dword clears the lowest free page of the dword. *)
Lemma take_lowest m a : bytes m -> 0 <= a -> a + 4 <= mlen m -> word_at m a <> 0 ->
  let b := trailing_zeros 32 (word_at m a) in
  0 <= b < 32 /\ (8 * a + b) ∈ bit_set m /\
  (forall i, 8 * a <= i < 8 * a + b -> i ∉ bit_set m) /\
  bit_set (write32 m a (Z.land (word_at m a) (2 ^ 32 - 1 - (1 <<ₘ b))))
    = bit_set m ∖ {[8 * a + b]}.
Proof.
  intros Hm Ha1 Ha2 Hw b. pose proof (word_at_range m a Hm) as Hr.
  destruct (trailing_zeros_spec 32 (word_at m a)) as (Hb0 & Hb1 & Hb2); [lia|].
  pose proof (trailing_zeros_lt 32 (word_at m a) ltac:(lia) ltac:(lia)) as Hb3.
  fold b in Hb0, Hb1, Hb2, Hb3. split; [lia|].
  rewrite elem_of_bit_set, <- testbit_word_at by (done || lia). split; [done|]. split.
  { intros i Hi. rewrite elem_of_bit_set.
    replace i with (8 * a + (i - 8 * a)) by lia.
    rewrite <- testbit_word_at, Hb2 by (done || lia). done. }
  assert (1 <<ₘ b = Z.shiftl 1 b) as ->.
  { apply wrap_small. rewrite Z.shiftl_1_l. split; [apply Z.pow_nonneg; lia|].
    apply Z.pow_lt_mono_r; lia. }
  apply bit_set_ext. intros i.
  rewrite bit_write32, elem_of_difference, elem_of_singleton, elem_of_bit_set by lia.
  destruct ((8 * a <=? i) && (i <? 8 * a + 32)) eqn:E.
  - rewrite (btr_word 32), testbit_word_at by (done || lia).
    replace (8 * a + (i - 8 * a)) with i by lia.
    rewrite andb_true_iff, negb_true_iff, Z.eqb_neq. naive_solver lia.
  - naive_solver lia.
Qed.

(** Whatever pages leave the map, the counter that is charged for them keeps the
    allocator well formed. *)
Lemma wf_update s m' ps pf : wf s ->
  bytes m' -> mlen m' = mlen (map s) -> 0 <= ps <= mlen (map s) -> (4 | ps) ->
  pf = Z.of_nat (size (bit_set m')) -> 1 <= pf ->
  wf (PgMap m' ps (page_end s) pf).
Proof. intros [] **. constructor; cbn; congruence || lia. Qed.

(** [p] is the first free page at or after the cursor. *)
Definition lowest_free (s : pgmap) (p : Z) : Prop :=
  p ∈ free_pages s /\ 8 * page_start s <= p /\
  forall q, q ∈ free_pages s -> 8 * page_start s <= q -> p <= q.

Definition alloc_page_post (s : pgmap) (r : Z) (s' : pgmap) : Prop :=
  (r = 0 /\ s' = s /\ (pages_free s = 1 \/ forall q, q ∈ free_pages s -> q < 8 * page_start s)) \/
  (1 < pages_free s /\ exists p, lowest_free s p /\ r = 4096 * p /\ wf s' /\
   page_start s' = p / 32 * 4 /\ page_end s' = page_end s /\
   free_pages s' = free_pages s ∖ {[p]}).

Lemma alloc_page_body_ok s ebx : wf s -> 1 < pages_free s ->
  page_start s <= ebx <= page_end s -> (4 | ebx) ->
  (forall q, q ∈ free_pages s -> 8 * page_start s <= q -> 8 * ebx <= q) ->
  exists r, alloc_page_body s ebx = Done r /\
  match r with
  | inl ebx' => ebx' = ebx + 4 /\ ebx' <= page_end s /\
      forall q, q ∈ free_pages s -> 8 * page_start s <= q -> 8 * ebx' <= q
  | inr (r, s') => alloc_page_post s r s'
  end.
Proof.
  intros Hwf Hpf Hebx Hal Hinv. pose proof (wf_pages_free s Hwf) as Hpf'.
  pose proof Hwf as [Hb He Hs Ha Hst Hsa Hc Hr]. unfold alloc_page_body.
  destruct (ebx <? page_end s) eqn:E; cbn [negb].
  2: { eexists. split; [done|]. left. split; [done|]. split; [done|]. right.
       intros q Hq. pose proof (bit_set_range _ _ Hq).
       destruct (decide (8 * page_start s <= q)); [|lia]. specialize (Hinv q Hq). lia. }
  assert (ebx + 4 <= page_end s) as Hebx4.
  { destruct Hal as [k ->], Ha as [k' Hk']. lia. }
  rewrite ld32_ok by lia. cbn [mbind run_bind].
  destruct (word_at (map s) ebx =? 0) eqn:Ew; cbn [negb].
  { eexists. split; [done|]. rewrite (wrap_small 32) by lia. split; [done|]. split; [lia|].
    intros q Hq Hq'. specialize (Hinv q Hq Hq').
    destruct (decide (q < 8 * ebx + 32)); [|lia].
    apply elem_of_bit_set in Hq. rewrite (word_zero_bits _ ebx) in Hq; [done|done|lia|lia]. }
  destruct (take_lowest (map s) ebx) as (Hb0 & Hin & Hlow & Hset); [done|lia|lia|lia|].
  set (b := trailing_zeros 32 (word_at (map s) ebx)) in *.
  rewrite (wrap_small 32 (pages_free s - 1)) by lia.
  replace (pages_free s - 1 =? 0) with false by lia.
  rewrite st32_ok by lia. cbn [mbind run_bind]. eexists. split; [done|].
  rewrite (wrap_small 32 (ebx * 8)) by lia. rewrite (wrap_small 32 (b + ebx * 8)) by lia.
  rewrite Z.shiftl_mul_pow2 by lia. rewrite wrap_small by lia.
  right. split; [done|]. exists (8 * ebx + b).
  assert (Z.of_nat (size (free_pages s ∖ {[8 * ebx + b]})) = pages_free s - 1) as Hsz
    by (rewrite size_remove_page by done; lia).
  unfold lowest_free. split_and!; cbn; try done; try lia.
  - intros q Hq Hq'. specialize (Hinv q Hq Hq').
    destruct (decide (q < 8 * ebx + b)); [|lia]. exfalso. apply (Hlow q); [lia|done].
  - apply (wf_update s); rewrite ?Hset, ?mlen_write32; try done; try lia.
    by apply bytes_write32.
  - destruct Hal as [k ->]. Z.div_mod_to_equations. lia.
Qed.

Lemma alloc_page_ok s : wf s -> exists r s', alloc_page s = Done (r, s') /\ alloc_page_post s r s'.
Proof.
  intros Hwf. pose proof (wf_pages_free s Hwf). pose proof Hwf as [Hb He Hs Ha Hst Hsa Hc Hr].
  unfold alloc_page. rewrite as_signed_small by lia.
  destruct (pages_free s <=? 1) eqn:E.
  { do 2 eexists. split; [done|]. left. split; [done|]. split; [|lia].
    replace 1 with (pages_free s) by lia. by destruct s. }
  destruct (loop_total
    (fun ebx => page_start s <= ebx <= page_end s /\ (4 | ebx) /\
      forall q, q ∈ free_pages s -> 8 * page_start s <= q -> 8 * ebx <= q)
    (fun ebx => Z.to_nat (page_end s - ebx))
    (fun '(r, s') => alloc_page_post s r s') (alloc_page_body s)) with
    (fuel := S (length (map s))) (s := page_start s) as ([r s'] & Hrun & Hpost).
  - intros ebx (H1 & H2 & H3).
    destruct (alloc_page_body_ok s ebx) as (r & Hr' & Hp); [done|lia|done|done|done|].
    exists r. split; [done|]. destruct r as [ebx'|[r s']]; [|done].
    destruct Hp as (-> & Hle & Hq). split; [|lia].
    split; [lia|]. split; [|done]. by apply Z.divide_add_r; [|exists 1].
  - split; [lia|]. split; [done|]. done.
  - unfold mlen in *. lia.
  - eauto.
Qed.

Lemma free_page_ok phys s : wf s -> 0 <= phys < 2 ^ 32 -> phys / 4096 < 8 * mlen (map s) ->
  let p := phys / 4096 in
  exists s', free_page phys s = Done s' /\ wf s' /\
    free_pages s' = {[p]} ∪ free_pages s /\
    page_start s' = Z.min (page_start s) (p / 32 * 4) /\ page_end s' = page_end s.
Proof.
  intros Hwf Hp1 Hp2 p. pose proof Hwf as [Hb He Hs Ha Hst Hsa Hc Hr].
  pose proof (wf_pages_free s Hwf) as Hpf.
  assert (Z.shiftr phys 12 = p) as Hsh by (by rewrite Z.shiftr_div_pow2 by lia).
  assert (0 <= p < 8 * mlen (map s)) as Hrange by (unfold p in *; Z.div_mod_to_equations; lia).
  unfold free_page. rewrite Hsh, bts_free_delta_ok by done. cbn [mbind run_bind].
  eexists. split; [done|]. pose proof (bit_set_set_bit _ _ Hrange) as Hset.
  pose proof (size_add_page (free_pages s) p) as Hsz. rewrite <- bit_decide in Hsz.
  rewrite shr3, (land_align 32 2) by (Z.div_mod_to_equations; lia).
  assert (align_down 2 (p / 8) = p / 32 * 4) as ->.
  { unfold align_down. change (2 ^ 2) with 4. rewrite Z.div_div by lia. done. }
  assert (0 <= p / 32 * 4 <= mlen (map s)) by (Z.div_mod_to_equations; lia).
  split_and!; cbn; try done; try (destruct (_ <? _) eqn:E; lia).
  apply (wf_update s); rewrite ?mlen_set_bit, ?Hset; try done.
  - by apply bytes_set_bit.
  - destruct (_ <? _); lia.
  - destruct (_ <? _); [by exists (p / 32)|done].
  - destruct (bit (map s) p); cbn in *; [lia|]. rewrite wrap_small by lia. lia.
  - destruct (bit (map s) p); cbn in *; [lia|]. rewrite wrap_small by lia. lia.
Qed.

Lemma mode_b_ok p s : wf s -> 0 <= p < 8 * mlen (map s) ->
  exists s', release_bitmap_page_mode_b p s = Done (bool_to_Z (negb (bit (map s) p)), s') /\
    wf s' /\ free_pages s' = {[p]} ∪ free_pages s /\
    page_start s' = page_start s /\ page_end s' = page_end s.
Proof.
  intros Hwf Hp. pose proof Hwf as [Hb He Hs Ha Hst Hsa Hc Hr].
  pose proof (wf_pages_free s Hwf) as Hpf.
  unfold release_bitmap_page_mode_b. rewrite bts_free_delta_ok by done. cbn [mbind run_bind].
  eexists. split; [done|]. pose proof (bit_set_set_bit _ _ Hp) as Hset.
  pose proof (size_add_page (free_pages s) p) as Hsz. rewrite <- bit_decide in Hsz.
  split_and!; cbn; try done.
  apply (wf_update s); rewrite ?mlen_set_bit, ?Hset; try done.
  - by apply bytes_set_bit.
  - destruct (bit (map s) p); cbn in *; [lia|]. rewrite wrap_small by lia. lia.
  - destruct (bit (map s) p); cbn in *; [lia|]. rewrite wrap_small by lia. lia.
Qed.

(** *** Contiguous runs *)

(** [n] whole map bytes from [e] are free, inside the scanned window. *)
Definition fits (s : pgmap) (e n : Z) : Prop :=
  page_start s <= e /\ e + n <= page_end s /\
  forall a, e <= a < e + n -> byte_at (map s) a = 255.

Definition page_range (a n : Z) : gset Z := list_to_set (seqZ a n).

Lemma elem_of_page_range a n i : i ∈ page_range a n <-> a <= i < a + n.
Proof. unfold page_range. by rewrite elem_of_list_to_set, elem_of_seqZ. Qed.

Lemma size_page_range a n : 0 <= n -> Z.of_nat (size (page_range a n)) = n.
Proof.
  intros. unfold page_range. rewrite size_list_to_set by apply NoDup_seqZ.
  rewrite length_seqZ. lia.
Qed.

Lemma fits_free s e n i : fits s e n -> 8 * e <= i < 8 * (e + n) -> i ∈ free_pages s.
Proof.
  intros (_ & _ & H) Hi. rewrite elem_of_bit_set. unfold bit.
  rewrite H by (Z.div_mod_to_equations; lia).
  apply (Z.ones_spec_low 8). Z.div_mod_to_equations. lia.
Qed.

(** The zeroing loop clears exactly the bytes of the run. *)
Lemma zero_loop_ok m e n : bytes m -> 0 <= e -> 0 <= n < 2 ^ 31 -> e + n <= mlen m ->
  exists m', loop (S (Z.to_nat n)) (zero_body e n) (m, 0) = Done m' /\
    bytes m' /\ mlen m' = mlen m /\ bit_set m' = bit_set m ∖ page_range (8 * e) (8 * n).
Proof.
  intros Hm He Hn Hen.
  destruct (loop_total
    (fun '(m', i) => 0 <= i <= n /\ bytes m' /\ mlen m' = mlen m /\
      bit_set m' = bit_set m ∖ page_range (8 * e) (8 * i))
    (fun '(m', i) => Z.to_nat (n - i))
    (fun m' => bytes m' /\ mlen m' = mlen m /\
      bit_set m' = bit_set m ∖ page_range (8 * e) (8 * n)) (zero_body e n))
    with (fuel := S (Z.to_nat n)) (s := (m, 0)) as (m' & Hrun & HQ); [| | lia | eauto].
  - intros [m' i] (Hi & Hb & Hl & Hs). unfold zero_body.
    destruct (i <? n) eqn:E; cbn [negb].
    2: { eexists. split; [done|]. replace n with i by lia. done. }
    rewrite st8_ok by lia. cbn [mbind run_bind]. eexists. split; [done|].
    rewrite wrap_small by lia. split; [|lia].
    split_and!; try lia.
    + apply bytes_insert; [done|unfold is_byte; lia].
    + by rewrite mlen_insert.
    + apply bit_set_ext. intros j. rewrite bit_insert by lia.
      rewrite elem_of_difference, elem_of_page_range.
      assert (bit m' j = true <-> j ∈ bit_set m ∖ page_range (8 * e) (8 * i)) as Hj
        by (by rewrite <- Hs, elem_of_bit_set).
      rewrite elem_of_difference, elem_of_page_range in Hj.
      destruct (j / 8 =? e + i) eqn:E'.
      * rewrite Z.testbit_0_l. split; [done|]. intros [_ Hf]. exfalso. apply Hf.
        Z.div_mod_to_equations. lia.
      * rewrite Hj. assert (8 * e <= j < 8 * e + 8 * (i + 1) <-> 8 * e <= j < 8 * e + 8 * i)
          by (Z.div_mod_to_equations; lia). tauto.
  - split; [lia|]. split_and!; [done|done|]. apply set_eq. intros j.
    rewrite elem_of_difference, elem_of_page_range. intuition lia.
Qed.

Definition alloc_pages_done (s : pgmap) (n r : Z) (s' : pgmap) : Prop :=
  exists e, fits s e n /\ (forall e', e' < e -> ~ fits s e' n) /\ r = 4096 * (8 * e) /\
    wf s' /\ page_start s' = page_start s /\ page_end s' = page_end s /\
    free_pages s' = free_pages s ∖ page_range (8 * e) (8 * n).

Lemma alloc_pages_take s e n : wf s -> fits s e n -> 1 <= n -> 8 * n + 9 <= pages_free s ->
  (forall e', e' < e -> ~ fits s e' n) ->
  exists m', loop (S (Z.to_nat n)) (zero_body e n) (map s, 0) = Done m' /\
    alloc_pages_done s n (e <<ₘ 15)
      (PgMap m' (page_start s) (page_end s) (pages_free s -ₘ (n <<ₘ 3))).
Proof.
  intros Hwf Hf Hn Hpf Hfirst. pose proof Hwf as [Hb He Hs Ha Hst Hsa Hc Hr].
  pose proof (wf_pages_free s Hwf). pose proof Hf as (Hf1 & Hf2 & Hf3).
  destruct (zero_loop_ok (map s) e n) as (m' & Hrun & Hb' & Hl & Hset); [done|lia|lia|lia|].
  exists m'. split; [done|]. exists e. split_and!; try done.
  - rewrite Z.shiftl_mul_pow2 by lia. rewrite wrap_small by lia. lia.
  - rewrite Z.shiftl_mul_pow2 by lia. rewrite (wrap_small 32 (n * 2 ^ 3)) by lia.
    rewrite wrap_small by lia.
    assert (Z.of_nat (size (free_pages s ∖ page_range (8 * e) (8 * n))) = pages_free s - 8 * n).
    { assert (page_range (8 * e) (8 * n) ⊆ free_pages s) as Hsub.
      { intros i Hi%elem_of_page_range. apply (fits_free s e n); [done|lia]. }
      rewrite size_difference by done. pose proof (size_page_range (8 * e) (8 * n)).
      pose proof (subseteq_size _ _ Hsub). lia. }
    apply (wf_update s); rewrite ?Hset; try done; lia.
Qed.

Lemma run_loop_ok s n e : wf s -> 1 <= n -> 8 * n + 9 <= pages_free s ->
  page_start s <= e < page_end s -> (forall e', e' < e -> ~ fits s e' n) ->
  exists r, loop (S (length (map s))) (run_body s n e) (e, n) = Done r /\
  match r with
  | inl ecx => e < ecx <= page_end s /\ forall e', e' < ecx -> ~ fits s e' n
  | inr (r, s') => (r = 0 /\ s' = s /\ forall e', ~ fits s e' n) \/ alloc_pages_done s n r s'
  end.
Proof.
  intros Hwf Hn Hpf He Hno. pose proof Hwf as [Hb Hend Hs Ha Hst Hsa Hc Hr].
  pose proof (wf_pages_free s Hwf).
  apply (loop_total
    (fun '(cur, edx) => e <= cur <= page_end s /\ edx = n - (cur - e) /\ 1 <= edx /\
       forall a, e <= a < cur -> byte_at (map s) a = 255)
    (fun '(cur, edx) => Z.to_nat (page_end s - cur))
    (fun r : Z + Z * pgmap => match r with
     | inl ecx => e < ecx <= page_end s /\ forall e', e' < ecx -> ~ fits s e' n
     | inr (r, s') => (r = 0 /\ s' = s /\ forall e', ~ fits s e' n) \/ alloc_pages_done s n r s'
     end)).
  - intros [cur edx] (Hcur & -> & Hedx & Hff). unfold run_body.
    destruct (page_end s <=? cur) eqn:E.
    { eexists. split; [done|]. left. split_and!; try done. intros e' Hf.
      destruct (decide (e' < e)); [by apply (Hno e')|].
      destruct Hf as (_ & ? & _). lia. }
    rewrite ld8_ok by lia. cbn [mbind run_bind].
    destruct (byte_at (map s) cur =? 255) eqn:Eb; cbn [negb].
    2: { eexists. split; [done|]. cbn beta iota. rewrite wrap_small by lia. split; [lia|].
         intros e' He' Hf. destruct (decide (e' < e)); [by apply (Hno e')|].
         destruct Hf as (_ & _ & Hf). specialize (Hf cur). lia. }
    rewrite (wrap_small 32 (n - (cur - e) - 1)) by lia.
    destruct (n - (cur - e) - 1 =? 0) eqn:En.
    + destruct (alloc_pages_take s e n) as (m' & Hrun & Hdone); [done| |lia|lia|done|].
      { split; [lia|]. split; [lia|]. intros a Ha'.
        destruct (decide (a = cur)) as [->|]; [lia|]. apply Hff. lia. }
      rewrite Hrun. cbn [mbind run_bind]. eexists. split; [done|]. by right.
    + eexists. split; [done|]. rewrite wrap_small by lia. split; [|lia].
      split_and!; try lia. intros a Ha'.
      destruct (decide (a = cur)) as [->|]; [lia|]. apply Hff. lia.
  - split; [lia|]. split_and!; try lia.
  - unfold mlen in *. lia.
Qed.

Definition need_bytes (count : Z) : Z := Z.shiftr (count +ₘ 7) 3.

Definition alloc_pages_post (count : Z) (s : pgmap) (r : Z) (s' : pgmap) : Prop :=
  let n := need_bytes count in
  (r = 0 /\ s' = s /\ (n = 0 \/ pages_free s < 8 * n + 9 \/ forall e, ~ fits s e n)) \/
  (1 <= n /\ 8 * n + 9 <= pages_free s /\ alloc_pages_done s n r s').

Lemma need_bytes_range count : 0 <= need_bytes count < 2 ^ 29.
Proof.
  unfold need_bytes. pose proof (wrap_range 32 (count + 7) ltac:(lia)).
  rewrite shr3. Z.div_mod_to_equations. lia.
Qed.

Lemma alloc_pages_ok count s : wf s ->
  exists r s', alloc_pages count s = Done (r, s') /\ alloc_pages_post count s r s'.
Proof.
  intros Hwf. pose proof Hwf as [Hb Hend Hs Ha Hst Hsa Hc Hr].
  pose proof (wf_pages_free s Hwf). pose proof (need_bytes_range count) as Hn.
  unfold alloc_pages, alloc_pages_post. fold (need_bytes count).
  set (n := need_bytes count) in *.
  rewrite (as_signed_small 32 (pages_free s)), (as_signed_wrap 32) by lia.
  destruct (pages_free s - 9 <? 0) eqn:E1; [do 2 eexists; split; [done|]; left; split_and!; [done|done|lia]|].
  rewrite (wrap_small 32) by lia. rewrite shr3.
  rewrite !as_signed_small by (Z.div_mod_to_equations; lia).
  destruct ((pages_free s - 9) / 8 <? n) eqn:E2.
  { do 2 eexists; split; [done|]; left. split_and!; try done. right; left.
    Z.div_mod_to_equations; lia. }
  destruct (n =? 0) eqn:E3; [do 2 eexists; split; [done|]; left; split_and!; [done|done|lia]|].
  assert (8 * n + 9 <= pages_free s) by (Z.div_mod_to_equations; lia).
  destruct (loop_total
    (fun ecx => page_start s <= ecx <= page_end s /\ forall e, e < ecx -> ~ fits s e n)
    (fun ecx => Z.to_nat (page_end s - ecx))
    (fun '(r, s') => (r = 0 /\ s' = s /\ forall e', ~ fits s e' n) \/ alloc_pages_done s n r s')
    (alloc_pages_body s n)) with (fuel := S (length (map s))) (s := page_start s)
    as ([r s'] & Hrun & HQ).
  - intros ecx [H1 H2]. unfold alloc_pages_body.
    destruct (ecx <? page_end s) eqn:E; cbn [negb].
    2: { eexists; split; [done|]. left. split_and!; try done. intros e Hf.
         apply (H2 e); [|done]. destruct Hf as (? & ? & _). lia. }
    destruct (run_loop_ok s n ecx) as (r & Hrun & Hr'); [done|lia|lia|lia|done|].
    exists r. split; [done|]. destruct r as [ecx'|[r s']]; [|done]. split; [|lia].
    split; [lia|]. apply Hr'.
  - split; [lia|]. intros e He (? & _). lia.
  - unfold mlen in *. lia.
  - exists r, s'. split; [done|]. destruct HQ as [(-> & -> & HQ)|HQ]; [left; eauto|right].
    split_and!; [lia|lia|done].
Qed.

(** ** The allocator as a state machine

    [held] is the set of pages handed out and not yet given back.  A client only
    frees pages it holds. *)
Inductive alloc_step : pgmap * gset Z -> pgmap * gset Z -> Prop :=
| step_alloc_page s held r s' :
    alloc_page s = Done (r, s') -> r <> 0 ->
    alloc_step (s, held) (s', {[r / 4096]} ∪ held)
| step_alloc_page_fail s held s' :
    alloc_page s = Done (0, s') -> alloc_step (s, held) (s', held)
| step_alloc_pages count s held r s' :
    alloc_pages count s = Done (r, s') -> r <> 0 ->
    alloc_step (s, held) (s', page_range (r / 4096) (8 * need_bytes count) ∪ held)
| step_alloc_pages_fail count s held s' :
    alloc_pages count s = Done (0, s') -> alloc_step (s, held) (s', held)
| step_free_page phys s held s' :
    0 <= phys < 2 ^ 32 -> phys / 4096 ∈ held -> free_page phys s = Done s' ->
    alloc_step (s, held) (s', held ∖ {[phys / 4096]})
| step_release p s held d s' :
    p ∈ held -> release_bitmap_page_mode_b p s = Done (d, s') ->
    alloc_step (s, held) (s', held ∖ {[p]}).

(** Free and held pages partition the managed pages [all]; page 0 is not managed
    (its address would read as failure). *)
Definition alloc_inv (all : gset Z) (c : pgmap * gset Z) : Prop :=
  wf c.1 /\ c.2 ## free_pages c.1 /\ c.2 ∪ free_pages c.1 = all /\ 0 ∉ all /\
  forall p, p ∈ all -> 0 <= p < 8 * mlen (map c.1).

Lemma wf_mlen s s' : wf s -> wf s' -> page_end s' = page_end s -> mlen (map s') = mlen (map s).
Proof. intros [] [] ?. congruence. Qed.

Lemma alloc_step_inv all c c' : alloc_inv all c -> alloc_step c c' -> alloc_inv all c'.
Proof.
  intros (Hwf & Hdisj & Hall & H0 & Hrng) Hstep.
  inversion Hstep as [s held r s' Ha Hr|s held s' Ha|count s held r s' Ha Hr
    |count s held s' Ha|phys s held s' Hp Hin Ha|p s held d s' Hin Ha];
    subst c c'; cbn [fst snd] in *.
  - destruct (alloc_page_ok s Hwf) as (r2 & s2 & Ha2 & Hpost). rewrite Ha in Ha2.
    injection Ha2 as <- <-.
    destruct Hpost as [(-> & _)|(_ & p & (Hp & _) & -> & Hwf' & _ & He & Hf)]; [done|].
    unfold alloc_inv; cbn [fst snd].
    replace (4096 * p / 4096) with p by (Z.div_mod_to_equations; lia).
    rewrite Hf, (wf_mlen s s') by done. split_and!; try done; [set_solver|].
    rewrite <- Hall. apply set_eq; intros x. destruct (decide (x = p)); set_solver.
  - destruct (alloc_page_ok s Hwf) as (r2 & s2 & Ha2 & Hpost). rewrite Ha in Ha2.
    injection Ha2 as <- <-.
    destruct Hpost as [(_ & -> & _)|(_ & p & (Hp & _) & Hz & _)]; [done|].
    assert (p = 0) as -> by lia. set_solver.
  - destruct (alloc_pages_ok count s Hwf) as (r2 & s2 & Ha2 & Hpost). rewrite Ha in Ha2.
    injection Ha2 as <- <-.
    destruct Hpost as [(-> & _)|(Hn & _ & e & Hfit & _ & -> & Hwf' & _ & He & Hf)]; [done|].
    unfold alloc_inv; cbn [fst snd].
    replace (4096 * (8 * e) / 4096) with (8 * e) by (Z.div_mod_to_equations; lia).
    assert (page_range (8 * e) (8 * need_bytes count) ⊆ free_pages s) as Hsub.
    { intros i Hi%elem_of_page_range. eapply fits_free; [exact Hfit|lia]. }
    rewrite Hf, (wf_mlen s s') by done. split_and!; try done; [set_solver|].
    rewrite <- Hall. apply set_eq; intros x.
    destruct (decide (x ∈ page_range (8 * e) (8 * need_bytes count))); set_solver.
  - destruct (alloc_pages_ok count s Hwf) as (r2 & s2 & Ha2 & Hpost). rewrite Ha in Ha2.
    injection Ha2 as <- <-.
    destruct Hpost as [(_ & -> & _)|(Hn & _ & e & Hfit & _ & Hz & _)]; [done|].
    assert (e = 0) as -> by lia. exfalso. apply H0. rewrite <- Hall.
    apply elem_of_union_r. eapply fits_free; [exact Hfit|lia].
  - assert (phys / 4096 ∈ all) as Hpa by set_solver.
    destruct (free_page_ok phys s Hwf Hp) as (s2 & Ha2 & Hwf' & Hf & _ & He); [by apply Hrng|].
    rewrite Ha in Ha2. injection Ha2 as <-. unfold alloc_inv; cbn [fst snd].
    rewrite Hf, (wf_mlen s s') by done. split_and!; try done; [set_solver|].
    rewrite <- Hall. apply set_eq; intros x. destruct (decide (x = phys / 4096)); set_solver.
  - assert (p ∈ all) as Hpa by set_solver.
    destruct (mode_b_ok p s Hwf) as (s2 & Ha2 & Hwf' & Hf & _ & He); [by apply Hrng|].
    rewrite Ha in Ha2. injection Ha2 as _ <-. unfold alloc_inv; cbn [fst snd].
    rewrite Hf, (wf_mlen s s') by done. split_and!; try done; [set_solver|].
    rewrite <- Hall. apply set_eq; intros x. destruct (decide (x = p)); set_solver.
Qed.

Lemma alloc_steps_inv all c c' : alloc_inv all c -> rtc alloc_step c c' -> alloc_inv all c'.
Proof. intros Hi Hs. induction Hs; eauto using alloc_step_inv. Qed.

Lemma cursor_ok_lowest s p : cursor_ok s -> lowest_free s p ->
  p ∈ free_pages s /\ forall q, q ∈ free_pages s -> p <= q.
Proof. intros Hc (Hp & _ & Hl). split; [done|]. intros q Hq. apply Hl; [done|by apply Hc]. Qed.

Lemma two_pages_some (X : gset Z) : (1 < size X)%nat -> exists p, p ∈ X.
Proof.
  intros H. destruct (decide (X = ∅)) as [->|Hne]; [by rewrite size_empty in H; lia|].
  by apply set_choose_L.
Qed.

(** ** Theorems *)

(** C1: along any sequence of allocations, frees and releases, free and held
    pages stay disjoint and together stay exactly the managed pages: no page is
    lost, duplicated or invented, and the map stays well formed, with
    [pages_free] equal to the number of free pages. *)
Theorem allocator_conserves_pages all s held s' held' :
  alloc_inv all (s, held) -> rtc alloc_step (s, held) (s', held') ->
  wf s' /\ pages_free s' = Z.of_nat (size (free_pages s')) /\
  held' ## free_pages s' /\ held' ∪ free_pages s' = all.
Proof.
  intros Hi Hs. destruct (alloc_steps_inv _ _ _ Hi Hs) as (Hwf & Hd & Ha & _).
  split_and!; try done. apply Hwf.
Qed.

(** C2: in every reachable state both allocators return (no access outside the
    map, no runaway scan), and what they hand out was not handed out before. *)
Theorem no_page_handed_out_twice all s held s' held' count :
  alloc_inv all (s, held) -> rtc alloc_step (s, held) (s', held') ->
  (exists r s'', alloc_page s' = Done (r, s'') /\ (r <> 0 -> r / 4096 ∉ held')) /\
  (exists r s'', alloc_pages count s' = Done (r, s'') /\
     (r <> 0 -> held' ## page_range (r / 4096) (8 * need_bytes count))).
Proof.
  intros Hi Hs. destruct (alloc_steps_inv _ _ _ Hi Hs) as (Hwf & Hd & Ha & H0 & _).
  cbn [fst snd] in *. split.
  - destruct (alloc_page_ok s' Hwf) as (r & s2 & E & Hpost). exists r, s2. split; [done|].
    intros Hr. destruct Hpost as [(-> & _)|(_ & p & (Hp & _) & -> & _)]; [done|].
    replace (4096 * p / 4096) with p by (Z.div_mod_to_equations; lia). set_solver.
  - destruct (alloc_pages_ok count s' Hwf) as (r & s2 & E & Hpost). exists r, s2. split; [done|].
    intros Hr. destruct Hpost as [(-> & _)|(_ & _ & e & Hfit & _ & -> & _)]; [done|].
    replace (4096 * (8 * e) / 4096) with (8 * e) by (Z.div_mod_to_equations; lia).
    intros x Hx Hy%elem_of_page_range. apply (Hd x Hx). eapply fits_free; [exact Hfit|lia].
Qed.

(** While more than the one reserved page is free and the cursor is honest,
    [alloc_page] succeeds and hands out the lowest free page of the whole map;
    only that page leaves the free set, and the cursor stays honest. *)
Theorem alloc_page_serves_lowest s :
  wf s -> cursor_ok s -> 1 < pages_free s ->
  exists p s', alloc_page s = Done (4096 * p, s') /\
    p ∈ free_pages s /\ (forall q, q ∈ free_pages s -> p <= q) /\
    free_pages s' = free_pages s ∖ {[p]} /\ wf s' /\ cursor_ok s'.
Proof.
  intros Hwf Hcur Hpf.
  destruct (alloc_page_ok s Hwf) as (r & s' & E & [(-> & -> & Hno)|(_ & p & Hlow & -> & Hwf' & Hps & _ & Hf)]).
  - exfalso. destruct Hno as [|Hno]; [lia|].
    destruct (two_pages_some (free_pages s)) as [q Hq].
    { pose proof (wf_count s Hwf). lia. }
    specialize (Hno q Hq). specialize (Hcur q Hq). lia.
  - destruct (cursor_ok_lowest s p Hcur Hlow) as [Hp Hmin].
    exists p, s'. split_and!; try done. intros q Hq. rewrite Hf in Hq.
    assert (p <= q) by (apply Hmin; set_solver). rewrite Hps. Z.div_mod_to_equations. lia.
Qed.

(** [free_page] of any page of the map returns it to the free set exactly
    once (a second free changes nothing), keeps [pages_free] exact and pulls the
    cursor down far enough that the scan cannot miss the page. *)
Theorem free_page_returns_page phys s :
  wf s -> cursor_ok s -> 0 <= phys < 2 ^ 32 -> phys / 4096 < 8 * mlen (map s) ->
  exists s', free_page phys s = Done s' /\ wf s' /\ cursor_ok s' /\
    free_pages s' = {[phys / 4096]} ∪ free_pages s /\
    pages_free s' = pages_free s + bool_to_Z (negb (bool_decide (phys / 4096 ∈ free_pages s))).
Proof.
  intros Hwf Hcur Hp1 Hp2.
  destruct (free_page_ok phys s Hwf Hp1 Hp2) as (s' & E & Hwf' & Hf & Hps & _).
  exists s'. split_and!; try done.
  - intros i Hi. rewrite Hf in Hi. rewrite Hps.
    apply elem_of_union in Hi as [->%elem_of_singleton|Hi%Hcur]; [|lia].
    Z.div_mod_to_equations. lia.
  - rewrite (wf_count s' Hwf'), (wf_count s Hwf), Hf. apply size_add_page.
Qed.


(** ** Witnesses *)

(** 64 pages, page 0 in use. *)
Definition demo : pgmap := PgMap [254; 255; 255; 255; 255; 255; 255; 255] 0 8 63.

Lemma demo_wf : wf demo.
Proof.
  constructor; cbn; try lia; try done.
  - repeat constructor; lia.
  - by exists 2.
  - by exists 0.
Qed.

Lemma demo_inv : alloc_inv (bit_set (map demo)) (demo, ∅).
Proof.
  split; [apply demo_wf|]. split_and!; cbn [fst snd].
  - set_solver.
  - set_solver.
  - rewrite elem_of_bit_set. vm_compute. done.
  - intros p Hp%bit_set_range. done.
Qed.

Lemma allocator_conserves_pages_witness :
  exists s' held', rtc alloc_step (demo, ∅) (s', held') /\ held' = {[1]} ∪ ∅ /\
  held' ∪ free_pages s' = bit_set (map demo).
Proof.
  destruct (alloc_page demo) as [[r s']| |] eqn:E; [|vm_compute in E; done..].
  assert (rtc alloc_step (demo, ∅) (s', {[r / 4096]} ∪ ∅)) as Hs.
  { apply rtc_once. apply step_alloc_page; [done|]. vm_compute in E. by injection E as <- _. }
  exists s', ({[r / 4096]} ∪ ∅). split; [done|]. split.
  - vm_compute in E. by injection E as <- _.
  - apply (allocator_conserves_pages _ demo ∅); [apply demo_inv|done].
Defined.

Lemma no_page_handed_out_twice_witness :
  exists r s'', alloc_page demo = Done (r, s'') /\ (r <> 0 -> r / 4096 ∉ (∅ : gset Z)).
Proof.
  apply (no_page_handed_out_twice (bit_set (map demo)) demo ∅ demo ∅ 8);
    [apply demo_inv|apply rtc_refl].
Defined.

Lemma alloc_page_serves_lowest_witness :
  exists p s', alloc_page demo = Done (4096 * p, s') /\ p ∈ free_pages demo.
Proof.
  destruct (alloc_page_serves_lowest demo) as (p & s' & E & Hp & _); [apply demo_wf| |done|eauto].
  intros i Hi%bit_set_range. cbn. lia.
Defined.

Lemma free_page_returns_page_witness :
  exists s', free_page 0 demo = Done s' /\ free_pages s' = {[0]} ∪ free_pages demo.
Proof.
  destruct (free_page_returns_page 0 demo) as (s' & E & _ & _ & Hf & _);
    [apply demo_wf| |done|done|eauto].
  intros i Hi%bit_set_range. cbn. lia.
Defined.

