(* ===== verification/Ports.v ===== *)
(** * I/O port reservation (syscall 46)

    Model of [io_access.rs] (the TSS I/O permission bitmap) and
    [port_area.rs] (the [RESERVED_PORTS] table and the reserve / free
    operations over it).  The table is kept as the byte memory the code works
    on; [entries] reads it as the list of reservations it stores, and the
    specification is stated on that list. *)

From stdpp Require Import base list gmap fin_sets sets relations.
From Stdlib Require Import ZArith Lia.
From S2P Require Import Prelude Bitmap.

(** ** Model *)

Definition IO_MAP_BYTES : Z := 8192.
Definition IO_MAP_BITS : Z := IO_MAP_BYTES *ₘ 8.

Definition set_io_access_rights (port clear_access : Z) (io_map : list Z) : run (list Z) :=
  let byte_index := Z.shiftr port 3 in
  let bit := Z.land port 7 in
  let mask := u8 (Z.shiftl 1 bit) in
  cur ← ld8 io_map byte_index;
  if clear_access =? 0 then st8 io_map byte_index (Z.land cur (255 - mask))
  else st8 io_map byte_index (Z.lor cur mask).

Definition io_map_bit (io_map : list Z) (port : Z) : run Z :=
  let byte_index := Z.shiftr port 3 in
  let bit := Z.land port 7 in
  b ← ld8 io_map byte_index;
  Done (Z.land (Z.shiftr b bit) 1).

Definition ENTRY_SIZE : Z := 16.
Definition MAX_RESERVED : Z := 255.
Definition OFF_TID : Z := 0.
Definition OFF_START : Z := 4.
Definition OFF_END : Z := 8.

(** Byte offset of entry [index_1based] in the table. *)
Definition entry_ptr (index_1based : Z) : Z := index_1based * ENTRY_SIZE.

Definition io_map_set_bit (port clear_access : Z) (io_map : list Z) : run (list Z) :=
  let byte_index := Z.shiftr port 3 in
  let bit := Z.land port 7 in
  let mask := u8 (Z.shiftl 1 bit) in
  cur ← ld8 io_map byte_index;
  if clear_access =? 0 then st8 io_map byte_index (Z.land cur (255 - mask))
  else st8 io_map byte_index (Z.lor cur mask).

Definition range_body (clear_access end_ : Z) (st : list Z * Z) : run (list Z * Z + list Z) :=
  let '(io_map, port) := st in
  io_map ← io_map_set_bit port clear_access io_map;
  if port =? end_ then Done (inr io_map) else Done (inl (io_map, port +ₘ 1)).

Definition enable_range (start end_ : Z) (io_map : list Z) : run (list Z) :=
  loop (S (Z.to_nat (end_ - start))) (range_body 0 end_) (io_map, start).

Definition disable_range (start end_ : Z) (io_map : list Z) : run (list Z) :=
  loop (S (Z.to_nat (end_ - start))) (range_body 1 end_) (io_map, start).

Record port_state := PortState {
  reserved_ports : list Z;
  io_map : list Z;
}.

(** The walk [eax = count .. 1] over the table; [true] is the overlap error. *)
Definition overlap_body (start end_ : Z) (table : list Z) (eax : Z) : run (Z + bool) :=
  let ent := entry_ptr eax in
  old_end ← ld32 table (ent + OFF_END);
  hit ← (if start <=? old_end then
           old_start ← ld32 table (ent + OFF_START);
           Done (old_start <=? end_)
         else Done false);
  if (hit : bool) then Done (inr true) else
  let eax := eax -ₘ 1 in
  if eax =? 0 then Done (inr false) else Done (inl eax).

Definition reserve_port_area (start end_ tid : Z) (s : port_state) : run (Z * port_state) :=
  if end_ <? start then Done (1, s) else
  if 65536 <=? end_ then Done (1, s) else
  count ← ld32 (reserved_ports s) 0;
  err ← (if negb (count =? 0) then
           if MAX_RESERVED <=? count then Done true
           else loop (S (Z.to_nat count)) (overlap_body start end_ (reserved_ports s)) count
         else Done false);
  if (err : bool) then Done (1, s) else
  io ← enable_range start end_ (io_map s);
  let new_count := count +ₘ 1 in
  t ← st32 (reserved_ports s) 0 new_count;
  let ent := entry_ptr new_count in
  t ← st32 t (ent + OFF_TID) tid;
  t ← st32 t (ent + OFF_START) start;
  t ← st32 t (ent + OFF_END) end_;
  Done (0, PortState t io).

(** The forward byte copy that closes the gap of a freed entry. *)
Definition compact_body (edi bytes : Z) (st : list Z * Z) : run (list Z * Z + list Z) :=
  let '(t, i) := st in
  if negb (i <? bytes) then Done (inr t) else
  b ← ld8 t (edi + ENTRY_SIZE + i);
  t ← st8 t (edi + i) b;
  Done (inl (t, i + 1)).

Definition free_body (start end_ tid : Z) (s : port_state) (eax : Z)
  : run (Z + Z * port_state) :=
  let table := reserved_ports s in
  let edi := entry_ptr eax in
  ent_tid ← ld32 table (edi + OFF_TID);
  hit ← (if ent_tid =? tid then
           ent_start ← ld32 table (edi + OFF_START);
           if ent_start =? start then
             ent_end ← ld32 table (edi + OFF_END);
             Done (ent_end =? end_)
           else Done false
         else Done false);
  if (hit : bool) then
    let bytes := (256 -ₘ eax) * ENTRY_SIZE in
    t ← loop (S (Z.to_nat bytes)) (compact_body edi bytes) (table, 0);
    count ← ld32 t 0;
    t ← st32 t 0 (count -ₘ 1);
    io ← disable_range start end_ (io_map s);
    Done (inr (0, PortState t io))
  else
    let eax := eax -ₘ 1 in
    if eax =? 0 then Done (inr (1, s)) else Done (inl eax).

Definition free_port_area (start end_ tid : Z) (s : port_state) : run (Z * port_state) :=
  eax ← ld32 (reserved_ports s) 0;
  if eax =? 0 then Done (1, s) else
  loop (S (Z.to_nat eax)) (free_body start end_ tid s) eax.

Definition r_f_port_area (op start end_ tid : Z) (s : port_state) : run (Z * port_state) :=
  if negb (op =? 0) then free_port_area start end_ tid s
  else reserve_port_area start end_ tid s.

(** ** Specification *)

(** A reservation: owner thread and inclusive port range. *)
Record reservation := Reservation { r_tid : Z; r_start : Z; r_end : Z }.

#[global] Instance reservation_eq_dec : EqDecision reservation.
Proof. solve_decision. Defined.

Definition covers (r : reservation) (p : Z) : Prop := r_start r <= p <= r_end r.
Definition overlaps (r : reservation) (start end_ : Z) : Prop :=
  start <= r_end r /\ r_start r <= end_.

#[global] Instance overlaps_dec r a b : Decision (overlaps r a b).
Proof. unfold overlaps. apply _. Defined.

(** The reservations stored in a table. *)
Definition entry (t : list Z) (i : Z) : reservation :=
  Reservation (word_at t (entry_ptr i + OFF_TID)) (word_at t (entry_ptr i + OFF_START))
    (word_at t (entry_ptr i + OFF_END)).
Definition entries (t : list Z) : list reservation := entry t <$> seqZ 1 (word_at t 0).

(** A port is open exactly when somebody holds a reservation of it; reservations
    are ranges below 65536 that do not overlap; the table has room for the
    compaction of any of its 255 entries. *)
Record pwf (s : port_state) : Prop := {
  pwf_table : bytes (reserved_ports s);
  pwf_room : 4112 <= mlen (reserved_ports s);
  pwf_count : word_at (reserved_ports s) 0 <= MAX_RESERVED;
  pwf_io : bytes (io_map s);
  pwf_io_len : mlen (io_map s) = IO_MAP_BYTES;
  pwf_ranges : forall r, r ∈ entries (reserved_ports s) ->
    0 <= r_start r <= r_end r /\ r_end r < 65536;
  pwf_disjoint : forall i j r r', entries (reserved_ports s) !! i = Some r ->
    entries (reserved_ports s) !! j = Some r' -> i <> j ->
    ~ overlaps r (r_start r') (r_end r');
  pwf_open : forall p, 0 <= p < 65536 ->
    (bit (io_map s) p = false <-> exists r, r ∈ entries (reserved_ports s) /\ covers r p);
}.

(** ** Lemmas *)

Lemma io_map_set_bit_ok port c m : 0 <= port < 8 * mlen m ->
  io_map_set_bit port c m = Done (if c =? 0 then clear_bit m port else set_bit m port).
Proof.
  intros Hp. unfold io_map_set_bit.
  assert (0 <= port mod 8 < 8) by (Z.div_mod_to_equations; lia).
  rewrite shr3, and7, ld8_ok by (Z.div_mod_to_equations; lia). cbn [mbind run_bind].
  rewrite (wrap_small 8) by (apply shiftl1_byte; lia).
  destruct (c =? 0); rewrite st8_ok by (Z.div_mod_to_equations; lia); done.
Qed.

(** The range loops write exactly the bits of the range. *)
Lemma range_loop_ok c a b m : 0 <= a <= b -> b < 8 * mlen m -> 8 * mlen m <= 2 ^ 31 -> bytes m ->
  exists m', loop (S (Z.to_nat (b - a))) (range_body c b) (m, a) = Done m' /\
    bytes m' /\ mlen m' = mlen m /\
    forall p, bit m' p = if (a <=? p) && (p <=? b) then negb (c =? 0) else bit m p.
Proof.
  intros Hab Hb Hm Hby.
  apply (loop_total
    (fun '(m', q) => a <= q <= b /\ bytes m' /\ mlen m' = mlen m /\
      forall p, bit m' p = if (a <=? p) && (p <? q) then negb (c =? 0) else bit m p)
    (fun '(m', q) => Z.to_nat (b - q))); [| |lia].
  - intros [m' q] (Hq & Hby' & Hl & Hbit). unfold range_body.
    rewrite io_map_set_bit_ok by lia. cbn [mbind run_bind].
    assert (forall p, bit (if c =? 0 then clear_bit m' q else set_bit m' q) p =
      if (a <=? p) && (p <? q + 1) then negb (c =? 0) else bit m p) as Hbit'.
    { intros p. destruct (c =? 0) eqn:Ec; [rewrite bit_clear_bit by lia|rewrite bit_set_bit by lia];
        rewrite Hbit; cbn [negb];
        destruct ((a <=? p) && (p <? q)) eqn:E1;
        destruct ((a <=? p) && (p <? q + 1)) eqn:E2; destruct (p =? q) eqn:E3;
        rewrite ?andb_true_r, ?andb_false_r, ?orb_true_r, ?orb_false_r; done || lia. }
    assert (bytes (if c =? 0 then clear_bit m' q else set_bit m' q)).
    { destruct (c =? 0); auto using bytes_clear_bit, bytes_set_bit. }
    assert (mlen (if c =? 0 then clear_bit m' q else set_bit m' q) = mlen m).
    { destruct (c =? 0); by rewrite ?mlen_clear_bit, ?mlen_set_bit. }
    destruct (q =? b) eqn:E; eexists; (split; [done|]).
    + split_and!; try done. intros p. rewrite Hbit'. by replace (p <? q + 1) with (p <=? b) by lia.
    + rewrite wrap_small by lia. split; [|lia]. split_and!; try done; lia.
  - split; [lia|]. split_and!; try done. intros p.
    by replace ((a <=? p) && (p <? a)) with false by lia.
Qed.

Lemma length_entries t : bytes t -> Z.of_nat (length (entries t)) = word_at t 0.
Proof.
  intros Hb. unfold entries. rewrite length_fmap, length_seqZ.
  pose proof (word_at_range t 0 Hb). lia.
Qed.

Lemma lookup_entries t i r : bytes t ->
  entries t !! i = Some r <-> Z.of_nat i < word_at t 0 /\ r = entry t (Z.of_nat i + 1).
Proof.
  intros Hb. unfold entries. rewrite list_lookup_fmap. split.
  - intros (x & [-> ?]%lookup_seqZ & ->)%fmap_Some. split; [lia|]. f_equal. lia.
  - intros [? ->]. rewrite lookup_seqZ_lt by lia. cbn. f_equal. f_equal. lia.
Qed.

Lemma elem_of_entries t r : bytes t ->
  r ∈ entries t <-> exists i, 1 <= i <= word_at t 0 /\ r = entry t i.
Proof.
  intros Hb. rewrite list_elem_of_lookup. split.
  - intros [i [? ->]%lookup_entries]; [|done]. exists (Z.of_nat i + 1). split; [lia|done].
  - intros (i & ? & ->). exists (Z.to_nat (i - 1)). apply lookup_entries; [done|].
    split; [lia|]. f_equal. lia.
Qed.

Lemma entry_range t i : bytes t -> 0 <= r_tid (entry t i) < 2 ^ 32 /\
  0 <= r_start (entry t i) < 2 ^ 32 /\ 0 <= r_end (entry t i) < 2 ^ 32.
Proof. intros. cbn. split_and!; by apply word_at_range. Qed.

(** The overlap walk answers whether some stored reservation meets the range. *)
Lemma overlap_loop_ok start end_ t n : bytes t -> 1 <= n <= word_at t 0 ->
  word_at t 0 <= 255 -> 4112 <= mlen t ->
  exists e, loop (S (Z.to_nat n)) (overlap_body start end_ t) n = Done e /\
    (e = true <-> exists i, 1 <= i <= n /\ overlaps (entry t i) start end_).
Proof.
  intros Hb Hn Hc Hl.
  apply (loop_total
    (fun k => 1 <= k <= n /\ forall i, k < i <= n -> ~ overlaps (entry t i) start end_)
    (fun k => Z.to_nat k)); [| |lia].
  2: split; [lia|]; intros; lia.
  intros k (Hk & Hno). unfold overlap_body, entry_ptr, ENTRY_SIZE, OFF_END, OFF_START.
  rewrite !ld32_ok by lia. cbn [mbind run_bind].
  assert (overlaps (entry t k) start end_ <->
    start <= word_at t (k * 16 + 8) /\ word_at t (k * 16 + 4) <= end_) as Hov by done.
  assert (forall b : bool, b = ((start <=? word_at t (k * 16 + 8)) && (word_at t (k * 16 + 4) <=? end_)) ->
    exists r, (if b then Done (inr true) else
      let eax := k -ₘ 1 in if eax =? 0 then Done (inr false) else Done (inl eax)) = Done r /\
    match r with
    | inl k' => (1 <= k' <= n /\ forall i, k' < i <= n -> ~ overlaps (entry t i) start end_) /\
        (Z.to_nat k' < Z.to_nat k)%nat
    | inr e => e = true <-> exists i, 1 <= i <= n /\ overlaps (entry t i) start end_
    end) as Hgo.
  { intros b Hbe. destruct b.
    - eexists. split; [done|]. split; [|done]. intros _. exists k. split; [lia|]. apply Hov. lia.
    - assert (~ overlaps (entry t k) start end_) as Hnk by (rewrite Hov; lia).
      cbn zeta. rewrite wrap_small by lia.
      assert (forall i, k <= i <= n -> ~ overlaps (entry t i) start end_) as Hno'.
      { intros i Hi. destruct (decide (i = k)) as [->|]; [done|]. apply Hno. lia. }
      destruct (k - 1 =? 0) eqn:E; eexists; (split; [done|]).
      + split; [done|]. intros (i & Hi & Ho). exfalso. apply (Hno' i); [lia|done].
      + split; [|lia]. split; [lia|]. intros i Hi. apply Hno'. lia. }
  destruct (start <=? word_at t (k * 16 + 8)) eqn:E1; cbn [mbind run_bind];
    [by apply Hgo|by apply (Hgo false)].
Qed.

(** Closing the gap of entry [k] shifts the bytes of the later entries down. *)
Lemma compact_loop_ok t edi n : bytes t -> 0 <= edi -> 0 <= n -> edi + 16 + n <= mlen t ->
  exists t', loop (S (Z.to_nat n)) (compact_body edi n) (t, 0) = Done t' /\
    bytes t' /\ mlen t' = mlen t /\
    forall a, byte_at t' a = if (edi <=? a) && (a <? edi + n) then byte_at t (a + 16) else byte_at t a.
Proof.
  intros Hb He Hn Hl.
  apply (loop_total
    (fun '(t', i) => 0 <= i <= n /\ bytes t' /\ mlen t' = mlen t /\ forall a,
      byte_at t' a = if (edi <=? a) && (a <? edi + i) then byte_at t (a + 16) else byte_at t a)
    (fun '(t', i) => Z.to_nat (n - i))); [| |lia].
  - intros [t' i] (Hi & Hb' & Hl' & Ha). unfold compact_body, ENTRY_SIZE.
    destruct (i <? n) eqn:E; cbn [negb].
    2: { eexists. split; [done|]. by replace n with i by lia. }
    rewrite ld8_ok by lia. cbn [mbind run_bind]. rewrite st8_ok by lia. cbn [mbind run_bind].
    eexists. split; [done|]. split; [|lia]. split; [lia|]. split_and!.
    + apply bytes_insert; [done|]. by apply byte_at_range.
    + by rewrite mlen_insert.
    + intros a. rewrite byte_at_insert, !Ha by lia.
      repeat case_match; try lia; f_equal; lia.
  - split; [lia|]. split_and!; try done. intros a.
    by replace ((edi <=? a) && (a <? edi + 0)) with false by lia.
Qed.

Lemma entry_shift t t' j d : (forall a, entry_ptr j <= a < entry_ptr j + 16 ->
  byte_at t' a = byte_at t (a + 16 * d)) -> entry t' j = entry t (j + d).
Proof.
  intros H. unfold entry, word_at, entry_ptr, ENTRY_SIZE, OFF_TID, OFF_START, OFF_END in *.
  f_equal; f_equal; rewrite H by lia; f_equal; lia.
Qed.

Lemma entries_ext t n l : bytes t -> word_at t 0 = n -> Z.of_nat (length l) = n ->
  (forall i, (i < length l)%nat -> l !! i = Some (entry t (Z.of_nat i + 1))) -> entries t = l.
Proof.
  intros Hb Hn Hl H. apply list_eq. intros i.
  destruct (decide (i < length l)%nat).
  - rewrite H by done. apply lookup_entries; [done|]. split; [lia|done].
  - pose proof (length_entries t Hb). rewrite !lookup_ge_None_2 by lia. done.
Qed.

(** Bytes of the table after a reservation was appended. *)
Definition append_entry (t : list Z) (n : Z) (r : reservation) : list Z :=
  write32 (write32 (write32 (write32 t 0 n) (entry_ptr n + OFF_TID) (r_tid r))
    (entry_ptr n + OFF_START) (r_start r)) (entry_ptr n + OFF_END) (r_end r).

Definition u32_reservation (r : reservation) : Prop :=
  0 <= r_tid r < 2 ^ 32 /\ 0 <= r_start r < 2 ^ 32 /\ 0 <= r_end r < 2 ^ 32.

Lemma entries_append t r : bytes t -> 4112 <= mlen t -> word_at t 0 < 255 -> u32_reservation r ->
  let t' := append_entry t (word_at t 0 + 1) r in
  bytes t' /\ mlen t' = mlen t /\ word_at t' 0 = word_at t 0 + 1 /\
  entries t' = entries t ++ [r].
Proof.
  intros Hb Hl Hc (H1 & H2 & H3) t'. pose proof (word_at_range t 0 Hb) as Hr.
  pose proof (length_entries t Hb) as Hlen.
  assert (bytes t') as Hb' by (by repeat apply bytes_write32).
  assert (word_at t' 0 = word_at t 0 + 1) as Hw.
  { unfold t', append_entry, entry_ptr, ENTRY_SIZE, OFF_TID, OFF_START, OFF_END.
    rewrite !word_at_write32_other, word_at_write32 by (rewrite ?mlen_write32; lia). done. }
  split; [done|]. split; [by unfold t', append_entry; rewrite !mlen_write32|]. split; [done|].
  apply (entries_ext _ (word_at t 0 + 1)); [done|done|rewrite length_app; cbn; lia|].
  intros i Hi. rewrite length_app in Hi. cbn in Hi.
  destruct (decide (Z.of_nat i = word_at t 0)) as [Ei|Ei].
  - rewrite lookup_app_r by lia. replace (i - length (entries t))%nat with 0%nat by lia. cbn.
    f_equal. destruct r as [a b c]. unfold entry, t', append_entry. cbn in *. rewrite Ei.
    unfold entry_ptr, ENTRY_SIZE, OFF_TID, OFF_START, OFF_END.
    f_equal; repeat (rewrite word_at_write32_other by (rewrite ?mlen_write32; lia));
      rewrite word_at_write32 by (rewrite ?mlen_write32; lia); done.
  - rewrite lookup_app_l by lia.
    destruct (entries t !! i) as [x|] eqn:Ex;
      [|apply lookup_ge_None in Ex; lia].
    apply lookup_entries in Ex as [? ->]; [|done]. f_equal.
    unfold entry, t', append_entry, entry_ptr, ENTRY_SIZE, OFF_TID, OFF_START, OFF_END.
    f_equal; rewrite !word_at_write32_other by (rewrite ?mlen_write32; lia); done.
Qed.

(** Bytes of the table after entry [k] was removed. *)
Lemma entries_remove t t' k : bytes t -> bytes t' -> 4112 <= mlen t -> mlen t' = mlen t ->
  1 <= k <= word_at t 0 -> word_at t 0 <= 255 ->
  (forall a, byte_at t' a = if (entry_ptr k <=? a) && (a <? entry_ptr k + (256 - k) * 16)
     then byte_at t (a + 16) else byte_at t a) ->
  let t2 := write32 t' 0 (word_at t 0 - 1) in
  bytes t2 /\ mlen t2 = mlen t /\ word_at t' 0 = word_at t 0 /\ word_at t2 0 = word_at t 0 - 1 /\
  entries t2 = take (Z.to_nat (k - 1)) (entries t) ++ drop (Z.to_nat k) (entries t).
Proof.
  intros Hb Hb' Hl Hl' Hk Hc Ha t2.
  pose proof (word_at_range t 0 Hb). pose proof (length_entries t Hb) as Hlen.
  assert (bytes t2) as Hb2 by (by apply bytes_write32).
  assert (mlen t2 = mlen t) as Hl2 by (unfold t2; by rewrite mlen_write32).
  assert (word_at t' 0 = word_at t 0) as Hw'.
  { unfold word_at. rewrite !Ha. unfold entry_ptr, ENTRY_SIZE. repeat case_match; lia || done. }
  assert (word_at t2 0 = word_at t 0 - 1) as Hw2 by (apply word_at_write32; lia).
  assert (forall a, 4 <= a -> byte_at t2 a = byte_at t' a) as Ht2.
  { intros a Ha4. unfold t2. rewrite byte_at_write32 by lia.
    by replace ((0 <=? a) && (a <? 0 + 4)) with false by lia. }
  split_and!; try done.
  apply (entries_ext _ (word_at t 0 - 1)); [done|done|rewrite length_app, length_take, length_drop; lia|].
  intros i Hi. rewrite length_app, length_take, length_drop in Hi.
  assert (forall j, 1 <= j <= word_at t 0 ->
    entries t !! Z.to_nat (j - 1) = Some (entry t j)) as Hlk.
  { intros j Hj. apply lookup_entries; [done|]. split; [lia|]. f_equal. lia. }
  destruct (decide (Z.of_nat i + 1 < k)).
  - rewrite lookup_app_l by (rewrite length_take; lia). rewrite lookup_take_lt by lia.
    specialize (Hlk (Z.of_nat i + 1) ltac:(lia)). replace (Z.to_nat _) with i in Hlk by lia.
    rewrite Hlk. f_equal. symmetry. replace (Z.of_nat i + 1) with (Z.of_nat i + 1 + 0) at 2 by lia.
    apply entry_shift. intros a Ha'. unfold entry_ptr, ENTRY_SIZE in *.
    rewrite Ht2, Ha by lia. case_match; [lia|]. f_equal. lia.
  - rewrite lookup_app_r by (rewrite length_take; lia). rewrite length_take, lookup_drop.
    specialize (Hlk (Z.of_nat i + 2) ltac:(lia)).
    replace (Z.to_nat k + _)%nat with (Z.to_nat (Z.of_nat i + 2 - 1)) by lia.
    rewrite Hlk. f_equal. symmetry. replace (Z.of_nat i + 2) with (Z.of_nat i + 1 + 1) by lia.
    apply entry_shift. intros a Ha'. unfold entry_ptr, ENTRY_SIZE in *.
    rewrite Ht2, Ha by lia. case_match; [done|lia].
Qed.

(** *** The abstract operations on reservation lists *)

(** Reserve: refuse a bad or overlapping range or a full table, else append. *)
Definition abs_reserve (l : list reservation) (r : reservation) : option (list reservation) :=
  if decide (r_start r <= r_end r < 65536 /\ (length l < 255)%nat /\
             Forall (fun x => ~ overlaps x (r_start r) (r_end r)) l)
  then Some (l ++ [r]) else None.

(** Free: remove the reservation that was made with exactly these arguments. *)
Definition abs_free (l : list reservation) (r : reservation) : option (list reservation) :=
  match list_find (fun x => x = r) l with
  | Some (i, _) => Some (take i l ++ drop (S i) l)
  | None => None
  end.

Lemma abs_reserve_Some l r l' : abs_reserve l r = Some l' <->
  r_start r <= r_end r < 65536 /\ (length l < 255)%nat /\
  Forall (fun x => ~ overlaps x (r_start r) (r_end r)) l /\ l' = l ++ [r].
Proof. unfold abs_reserve. case_decide; naive_solver. Qed.

(** The concrete state after a successful reservation is well formed. *)
Lemma pwf_append s t io r : pwf s -> u32_reservation r -> r_start r <= r_end r < 65536 ->
  Forall (fun x => ~ overlaps x (r_start r) (r_end r)) (entries (reserved_ports s)) ->
  bytes t -> mlen t = mlen (reserved_ports s) -> word_at t 0 <= 255 ->
  entries t = entries (reserved_ports s) ++ [r] ->
  bytes io -> mlen io = mlen (io_map s) ->
  (forall p, bit io p = if (r_start r <=? p) && (p <=? r_end r) then false else bit (io_map s) p) ->
  pwf (PortState t io).
Proof.
  intros [] Hr Hse Hno Hb Hl Hc He Hio Hiol Hbit. rewrite Forall_forall in Hno.
  constructor; cbn; try done; try congruence.
  - intros x. rewrite He, elem_of_app, list_elem_of_singleton.
    intros [?| ->]; [by apply pwf_ranges0|]. destruct Hr. lia.
  - intros i j x y. rewrite He, !lookup_app_Some.
    intros [Hi|[Hi1 Hi2]] [Hj|[Hj1 Hj2]] Hij.
    + by eapply pwf_disjoint0.
    + apply list_lookup_singleton_Some in Hj2 as [_ <-]. apply Hno. by eapply list_elem_of_lookup_2.
    + apply list_lookup_singleton_Some in Hi2 as [_ <-].
      assert (~ overlaps y (r_start r) (r_end r)) as Hy by (apply Hno; by eapply list_elem_of_lookup_2).
      unfold overlaps in *. lia.
    + apply list_lookup_singleton_Some in Hi2 as [Hi2 _], Hj2 as [Hj2 _]. lia.
  - intros p Hp. rewrite Hbit, He. destruct ((r_start r <=? p) && (p <=? r_end r)) eqn:E.
    + split; [|done]. intros _. exists r. split; [set_solver|]. unfold covers. lia.
    + rewrite (pwf_open0 p Hp). split.
      * intros (x & Hx & Hcov). exists x. split; [set_solver|done].
      * intros (x & [Hx| ->%list_elem_of_singleton]%elem_of_app & Hcov); [by eauto|].
        unfold covers in Hcov. lia.
Qed.

(** The concrete state after a successful free is well formed. *)
Lemma pwf_remove s t io k r : pwf s -> entries (reserved_ports s) !! k = Some r ->
  bytes t -> mlen t = mlen (reserved_ports s) -> word_at t 0 <= 255 ->
  entries t = take k (entries (reserved_ports s)) ++ drop (S k) (entries (reserved_ports s)) ->
  bytes io -> mlen io = mlen (io_map s) ->
  (forall p, bit io p = if (r_start r <=? p) && (p <=? r_end r) then true else bit (io_map s) p) ->
  pwf (PortState t io).
Proof.
  intros [] Hk Hb Hl Hc He Hio Hiol Hbit.
  assert (forall i x, entries t !! i = Some x -> exists i', i' <> k /\
    entries (reserved_ports s) !! i' = Some x /\ (i' = if decide (i < k)%nat then i else S i)) as Hold.
  { intros i x. rewrite He, lookup_app_Some. pose proof (lookup_lt_Some _ _ _ Hk).
    intros [Hi|[Hi1 Hi2]].
    - apply lookup_take_Some in Hi as [Hi Hik]. exists i.
      split_and!; [lia|done|case_decide; lia].
    - rewrite length_take in *. rewrite lookup_drop in Hi2. exists (S i).
      replace (S k + _)%nat with (S i) in Hi2 by lia.
      split_and!; [lia|done|case_decide; lia]. }
  constructor; cbn; try done; try congruence.
  - intros x [i Hi]%list_elem_of_lookup. apply Hold in Hi as (i' & _ & Hi & _).
    apply pwf_ranges0. by eapply list_elem_of_lookup_2.
  - intros i j x y Hi Hj Hij. apply Hold in Hi as (i' & _ & Hi & Ei), Hj as (j' & _ & Hj & Ej).
    apply (pwf_disjoint0 i' j'); [done|done|]. repeat case_decide; lia.
  - intros p Hp. rewrite Hbit. destruct ((r_start r <=? p) && (p <=? r_end r)) eqn:E.
    + split; [done|]. intros (x & [i Hi]%list_elem_of_lookup & Hcov).
      apply Hold in Hi as (i' & Hne & Hi & _). exfalso.
      apply (pwf_disjoint0 i' k x r); [done|done|done|]. unfold overlaps, covers in *. lia.
    + rewrite (pwf_open0 p Hp). split.
      * intros (x & [i Hi]%list_elem_of_lookup & Hcov). exists x. split; [|done].
        rewrite He, elem_of_app. destruct (decide (i = k)) as [->|].
        { unfold covers in Hcov. assert (x = r) as -> by congruence. lia. }
        destruct (decide (i < k)%nat).
        -- left. apply list_elem_of_lookup. exists i. by rewrite lookup_take_lt by lia.
        -- right. apply list_elem_of_lookup. exists (i - S k)%nat. rewrite lookup_drop.
           by replace (S k + (i - S k))%nat with i by lia.
      * intros (x & [i Hi]%list_elem_of_lookup & Hcov).
        apply Hold in Hi as (i' & _ & Hi & _). exists x. split; [|done].
        by eapply list_elem_of_lookup_2.
Qed.

(** [reserve_port_area] implements [abs_reserve]. *)
Lemma reserve_ok start end_ tid s : pwf s -> u32_reservation (Reservation tid start end_) ->
  exists ret s', reserve_port_area start end_ tid s = Done (ret, s') /\ pwf s' /\
  match abs_reserve (entries (reserved_ports s)) (Reservation tid start end_) with
  | Some l => ret = 0 /\ entries (reserved_ports s') = l
  | None => ret = 1 /\ s' = s
  end.
Proof.
  intros Hwf Hr. pose proof Hwf as [Hb Hroom Hc Hio Hiol Hrng Hdis Hopen].
  set (r := Reservation tid start end_) in *. set (t := reserved_ports s) in *.
  pose proof (length_entries t Hb) as Hlen. pose proof (word_at_range t 0 Hb) as Hw.
  unfold MAX_RESERVED in Hc.
  assert (forall ret s', ret = 1 -> s' = s -> abs_reserve (entries t) r = None ->
    pwf s' /\ match abs_reserve (entries t) r with
    | Some l => ret = 0 /\ entries (reserved_ports s') = l
    | None => ret = 1 /\ s' = s end) as Hrefuse by (by intros ? ? -> -> ->).
  unfold reserve_port_area. fold t.
  destruct (end_ <? start) eqn:E1.
  { do 2 eexists; split; [done|]. apply Hrefuse; [done|done|].
    unfold abs_reserve. case_decide as Hd; [|done]. cbn in Hd. lia. }
  destruct (65536 <=? end_) eqn:E2.
  { do 2 eexists; split; [done|]. apply Hrefuse; [done|done|].
    unfold abs_reserve. case_decide as Hd; [|done]. cbn in Hd. lia. }
  rewrite ld32_ok by lia. cbn [mbind run_bind].
  assert (exists e : bool, (if negb (word_at t 0 =? 0) then
      if MAX_RESERVED <=? word_at t 0 then Done true
      else loop (S (Z.to_nat (word_at t 0))) (overlap_body start end_ t) (word_at t 0)
    else Done false) = Done e /\
    (e = false <-> abs_reserve (entries t) r <> None)) as (e & -> & He).
  { destruct (word_at t 0 =? 0) eqn:E0; cbn [negb].
    { exists false. split; [done|]. split; [|done]. intros _. unfold abs_reserve.
      destruct (entries t) eqn:El; [|cbn in Hlen; lia].
      rewrite decide_True; [done|].
      unfold r; cbn [r_start r_end length]. split_and!; [lia|lia|lia|done]. }
    unfold MAX_RESERVED. destruct (255 <=? word_at t 0) eqn:E3.
    { exists true. split; [done|]. split; [done|]. unfold abs_reserve. case_decide as Hd; [lia|done]. }
    destruct (overlap_loop_ok start end_ t (word_at t 0)) as (e & Hrun & He); [done|lia|lia|lia|].
    exists e. split; [done|]. unfold abs_reserve. rewrite <- not_true_iff_false, He.
    case_decide as Hd; cbn in Hd.
    - split; [done|]. intros _ (i & Hi & Ho). destruct Hd as (_ & _ & Hd).
      rewrite Forall_forall in Hd. apply (Hd (entry t i)); [|done].
      apply elem_of_entries; [done|]. eauto.
    - split; [|done]. intros Hno. exfalso. apply Hd.
      unfold r; cbn [r_start r_end]. split_and!; [lia|lia|lia|].
      apply Forall_forall. intros x (i & Hi & ->)%elem_of_entries Ho; [|done]. apply Hno. eauto. }
  cbn [mbind run_bind]. destruct e.
  { do 2 eexists; split; [done|]. apply Hrefuse; [done|done|].
    destruct (abs_reserve (entries t) r) eqn:Ea; [|done]. exfalso. by assert (true = false) by (apply He; done). }
  destruct (abs_reserve (entries t) r) as [l|] eqn:Ea; [|exfalso; by apply He].
  apply abs_reserve_Some in Ea as (H1 & H2 & H3 & ->). cbn [r_start r_end r] in H1.
  destruct (range_loop_ok 0 start end_ (io_map s)) as (io & Hrun & Hio1 & Hio2 & Hio3);
    [destruct Hr as (?&?&?); cbn in *; lia|unfold IO_MAP_BYTES in *; lia|unfold IO_MAP_BYTES in *; lia|done|].
  unfold enable_range. rewrite Hrun. cbn [mbind run_bind]. rewrite (wrap_small 32) by lia.
  unfold entry_ptr, ENTRY_SIZE, OFF_TID, OFF_START, OFF_END.
  repeat (rewrite st32_ok by (rewrite ?mlen_write32; lia); cbn [mbind run_bind]).
  destruct (entries_append t r) as (G1 & G2 & G3 & G4); [done|done|lia|done|].
  do 2 eexists. split; [done|]. split; [|split; [done|exact G4]].
  apply (pwf_append s (append_entry t (word_at t 0 + 1) r) io r); try done; lia.
Qed.

Lemma find_at_unique {A} `{EqDecision A} (l : list A) i x :
  l !! i = Some x -> (forall j, l !! j = Some x -> j = i) ->
  list_find (fun y => y = x) l = Some (i, x).
Proof.
  intros Hi Hu. apply list_find_Some. split_and!; [done|done|].
  intros j y Hj Hlt ->. specialize (Hu j Hj). lia.
Qed.

(** [free_port_area] implements [abs_free]. *)
Lemma free_ok start end_ tid s : pwf s -> u32_reservation (Reservation tid start end_) ->
  exists ret s', free_port_area start end_ tid s = Done (ret, s') /\ pwf s' /\
  match abs_free (entries (reserved_ports s)) (Reservation tid start end_) with
  | Some l => ret = 0 /\ entries (reserved_ports s') = l
  | None => ret = 1 /\ s' = s
  end.
Proof.
  intros Hwf Hr. pose proof Hwf as [Hb Hroom Hc Hio Hiol Hrng Hdis Hopen].
  set (r := Reservation tid start end_) in *. set (t := reserved_ports s) in *.
  pose proof (length_entries t Hb) as Hlen. pose proof (word_at_range t 0 Hb) as Hw.
  unfold MAX_RESERVED in Hc. unfold free_port_area. fold t. rewrite ld32_ok by lia. cbn [mbind run_bind].
  assert ((forall i, 1 <= i <= word_at t 0 -> entry t i <> r) -> abs_free (entries t) r = None) as Hmiss.
  { intros Hno. unfold abs_free. destruct (list_find _ _) as [[i x]|] eqn:E; [|done].
    apply list_find_Some in E as (Hi & -> & _). apply lookup_entries in Hi as [? Hi]; [|done].
    exfalso. apply (Hno (Z.of_nat i + 1)); [lia|done]. }
  destruct (word_at t 0 =? 0) eqn:E0.
  { do 2 eexists; split; [done|]. split; [done|]. rewrite Hmiss; [done|]. intros; lia. }
  destruct (loop_total
    (fun k => 1 <= k <= word_at t 0 /\ forall i, k < i <= word_at t 0 -> entry t i <> r)
    (fun k => Z.to_nat k)
    (fun '(ret, s') => pwf s' /\ match abs_free (entries t) r with
       | Some l => ret = 0 /\ entries (reserved_ports s') = l
       | None => ret = 1 /\ s' = s end)
    (free_body start end_ tid s)) with (fuel := S (Z.to_nat (word_at t 0))) (s := word_at t 0)
    as ([ret s'] & Hrun & HQ); [| |lia|by eauto].
  2: split; [lia|]; intros; lia.
  intros k (Hk & Hno). unfold free_body. fold t.
  unfold entry_ptr, ENTRY_SIZE, OFF_TID, OFF_START, OFF_END.
  rewrite !ld32_ok by lia. cbn [mbind run_bind].
  assert (entry t k = r <-> word_at t (k * 16 + 0) = tid /\ word_at t (k * 16 + 4) = start /\
    word_at t (k * 16 + 8) = end_) as Heq.
  { split; [|intros (E1 & E2 & E3); unfold r; rewrite <- E1, <- E2, <- E3; done].
    intros E. unfold entry, r in E. by injection E. }
  assert (exists hit : bool, (if word_at t (k * 16 + 0) =? tid then
     if word_at t (k * 16 + 4) =? start then Done (word_at t (k * 16 + 8) =? end_) else Done false
     else Done false) = Done hit /\ (hit = true <-> entry t k = r)) as (hit & -> & Hhit).
  { repeat case_match; eexists; (split; [done|]); rewrite Heq; lia. }
  cbn [mbind run_bind]. destruct hit.
  2: { rewrite wrap_small by lia.
    assert (forall i, k <= i <= word_at t 0 -> entry t i <> r) as Hno'.
    { intros i Hi. destruct (decide (i = k)) as [->|]; [|apply Hno; lia].
      intros E%Hhit. done. }
    destruct (k - 1 =? 0) eqn:E; eexists; (split; [done|]).
    - split; [done|]. rewrite Hmiss; [done|]. intros i Hi. apply Hno'. lia.
    - split; [|lia]. split; [lia|]. intros i Hi. apply Hno'. lia. }
  assert (entry t k = r) as Hk' by (by apply Hhit). rewrite (wrap_small 32) by lia.
  destruct (compact_loop_ok t (k * 16) ((256 - k) * 16)) as (t' & Hrun & Hb' & Hl' & Ha');
    [done|lia|lia|lia|]. rewrite Hrun. cbn [mbind run_bind].
  destruct (entries_remove t t' k) as (G1 & G2 & G3 & G4 & G5); try done.
  rewrite ld32_ok, G3 by lia. cbn [mbind run_bind]. rewrite (wrap_small 32) by lia.
  rewrite st32_ok by lia. cbn [mbind run_bind].
  assert (entries t !! Z.to_nat (k - 1) = Some r) as Hlk.
  { apply lookup_entries; [done|]. split; [lia|]. rewrite <- Hk'. f_equal. lia. }
  destruct (Hrng r) as [Hr1 Hr2]; [by eapply list_elem_of_lookup_2|]. cbn [r_start r_end r] in Hr1, Hr2.
  destruct (range_loop_ok 1 start end_ (io_map s)) as (io & Hrio & Hio1 & Hio2 & Hio3);
    [lia|unfold IO_MAP_BYTES in *; lia|unfold IO_MAP_BYTES in *; lia|done|].
  unfold disable_range. rewrite Hrio. cbn [mbind run_bind]. eexists. split; [done|].
  replace (Z.to_nat k) with (S (Z.to_nat (k - 1))) in G5 by lia.
  split; [apply (pwf_remove s _ _ (Z.to_nat (k - 1)) r); try done; lia|].
  unfold abs_free. rewrite (find_at_unique _ (Z.to_nat (k - 1)) r); [by split| done |].
  intros j Hj. destruct (decide (j = Z.to_nat (k - 1))); [done|]. exfalso.
  apply (Hdis _ _ _ _ Hj Hlk); [done|]. unfold overlaps. cbn. lia.
Qed.

(** One call of the syscall leaf with 32-bit arguments. *)
Definition port_call (s s' : port_state) : Prop :=
  exists op start end_ tid ret, u32_reservation (Reservation tid start end_) /\
    r_f_port_area op start end_ tid s = Done (ret, s').

Definition abs_port_area (op : Z) (l : list reservation) (r : reservation) :=
  if op =? 0 then abs_reserve l r else abs_free l r.

Lemma port_area_ok op start end_ tid s : pwf s -> u32_reservation (Reservation tid start end_) ->
  exists ret s', r_f_port_area op start end_ tid s = Done (ret, s') /\ pwf s' /\
  match abs_port_area op (entries (reserved_ports s)) (Reservation tid start end_) with
  | Some l => ret = 0 /\ entries (reserved_ports s') = l
  | None => ret = 1 /\ s' = s
  end.
Proof.
  intros. unfold r_f_port_area, abs_port_area.
  destruct (op =? 0); cbn [negb]; [by apply reserve_ok|by apply free_ok].
Qed.

Lemma port_calls_pwf s s' : pwf s -> rtc port_call s s' -> pwf s'.
Proof.
  intros Hwf Hs. induction Hs as [|s1 s2 s3 (op & a & b & tid & ret & Hr & E) _ IH]; [done|].
  apply IH. destruct (port_area_ok op a b tid s1 Hwf Hr) as (ret' & s' & E' & Hwf' & _).
  rewrite E in E'. by injection E' as _ <-.
Qed.

Lemma io_map_bit_ok m p : 0 <= p < 8 * mlen m -> io_map_bit m p = Done (bool_to_Z (bit m p)).
Proof.
  intros Hp. unfold io_map_bit.
  assert (0 <= p mod 8) by (Z.div_mod_to_equations; lia).
  rewrite shr3, and7, ld8_ok by (Z.div_mod_to_equations; lia). cbn [mbind run_bind].
  unfold bit. pose proof (and1_testbit (byte_at m (p / 8)) (p mod 8)) as Ha.
  pose proof (land_ones_wrap (Z.shiftr (byte_at m (p / 8)) (p mod 8)) 1 ltac:(lia)) as Hl.
  change (2 ^ 1 - 1) with 1 in Hl. pose proof (wrap_range 1 (Z.shiftr (byte_at m (p / 8)) (p mod 8))).
  f_equal. destruct (Z.testbit _ _); cbn in *; lia.
Qed.

Lemma byte_at_replicate n v a : byte_at (replicate n v) a = if (0 <=? a) && (a <? Z.of_nat n) then v else 0.
Proof.
  unfold byte_at. destruct (a <? 0) eqn:E; [by replace (0 <=? a) with false by lia|].
  destruct ((0 <=? a) && (a <? Z.of_nat n)) eqn:E'.
  - by rewrite lookup_replicate_2 by lia.
  - rewrite lookup_ge_None_2; [done|]. rewrite length_replicate. lia.
Qed.

(** Boot state: no reservation, every port denied. *)
Definition boot_ports : port_state := PortState (replicate (Z.to_nat 4112) 0) (replicate (Z.to_nat 8192) 255).

Lemma boot_ports_pwf : pwf boot_ports.
Proof.
  assert (word_at (replicate (Z.to_nat 4112) 0) 0 = 0) as Hw.
  { unfold word_at. rewrite !byte_at_replicate. done. }
  assert (entries (replicate (Z.to_nat 4112) 0) = []) as He by (unfold entries; by rewrite Hw).
  constructor; cbn [reserved_ports io_map boot_ports]; rewrite ?He, ?Hw.
  - apply Forall_replicate. unfold is_byte. lia.
  - unfold mlen. rewrite length_replicate. lia.
  - unfold MAX_RESERVED. lia.
  - apply Forall_replicate. unfold is_byte. lia.
  - unfold mlen. rewrite length_replicate. unfold IO_MAP_BYTES. lia.
  - intros r Hr%elem_of_nil. done.
  - intros i j r r' Hi. done.
  - intros p Hp. split; [|intros (r & Hr%elem_of_nil & _); done].
    unfold bit. rewrite byte_at_replicate, Z2Nat.id by lia.
    assert (0 <= p / 8 < 8192) by (Z.div_mod_to_equations; lia).
    replace ((0 <=? p / 8) && (p / 8 <? 8192)) with true by lia.
    rewrite (Z.ones_spec_low 8) by (Z.div_mod_to_equations; lia). done.
Qed.

(** Equal reservation lists give equal port permissions. *)
Lemma pwf_bits_determined s s' p : pwf s -> pwf s' ->
  entries (reserved_ports s) = entries (reserved_ports s') -> 0 <= p < 65536 ->
  bit (io_map s) p = bit (io_map s') p.
Proof.
  intros [] [] He Hp. specialize (pwf_open0 p Hp). specialize (pwf_open1 p Hp).
  rewrite He in pwf_open0. destruct (bit (io_map s) p), (bit (io_map s') p); intuition done.
Qed.

(** ** Theorems *)

(** C4: the byte-level reserve / free code refines the list operations: on a
    well-formed state every call returns, keeps the state well formed, answers 0
    exactly when the list operation succeeds, and then stores its result; on
    refusal (1) nothing changes. *)
Theorem port_area_refines op start end_ tid s :
  pwf s -> 0 <= tid < 2 ^ 32 -> 0 <= start < 2 ^ 32 -> 0 <= end_ < 2 ^ 32 ->
  exists ret s', r_f_port_area op start end_ tid s = Done (ret, s') /\ pwf s' /\
  match (if op =? 0 then abs_reserve else abs_free)
          (entries (reserved_ports s)) (Reservation tid start end_) with
  | Some l => ret = 0 /\ entries (reserved_ports s') = l
  | None => ret = 1 /\ s' = s
  end.
Proof.
  intros Hwf H1 H2 H3.
  destruct (port_area_ok op start end_ tid s Hwf) as (ret & s' & E & Hwf' & Hm); [done|].
  exists ret, s'. split_and!; [done|done|]. unfold abs_port_area in Hm. by destruct (op =? 0).
Qed.

(** C5: after any sequence of calls from a well-formed state, a port is
    accessible ([io_map] bit 0) exactly when one reservation covers it, and no
    port is ever covered by two. *)
Theorem port_access_iff_reserved s s' p :
  pwf s -> rtc port_call s s' -> 0 <= p < 65536 ->
  (io_map_bit (io_map s') p = Done 0 <->
     exists r, r ∈ entries (reserved_ports s') /\ covers r p) /\
  (forall i j r r', entries (reserved_ports s') !! i = Some r ->
     entries (reserved_ports s') !! j = Some r' -> covers r p -> covers r' p -> i = j).
Proof.
  intros Hwf Hs Hp. pose proof (port_calls_pwf _ _ Hwf Hs) as [].
  rewrite io_map_bit_ok by (unfold IO_MAP_BYTES in *; lia). split.
  - rewrite <- (pwf_open0 p Hp). destruct (bit (io_map s') p); cbn; split; congruence.
  - intros i j r r' Hi Hj H1 H2. destruct (decide (i = j)); [done|]. exfalso.
    apply (pwf_disjoint0 i j r r'); [done|done|done|]. unfold overlaps, covers in *. lia.
Qed.

(** C6: freeing what was just reserved succeeds and restores both the
    reservation list and every port permission. *)
Theorem reserve_free_roundtrip start end_ tid s s1 op :
  pwf s -> 0 <= tid < 2 ^ 32 -> 0 <= start < 2 ^ 32 -> 0 <= end_ < 2 ^ 32 -> op <> 0 ->
  r_f_port_area 0 start end_ tid s = Done (0, s1) ->
  exists s2, r_f_port_area op start end_ tid s1 = Done (0, s2) /\
    entries (reserved_ports s2) = entries (reserved_ports s) /\
    forall p, 0 <= p < 65536 -> bit (io_map s2) p = bit (io_map s) p.
Proof.
  intros Hwf H1 H2 H3 Hop E.
  destruct (port_area_ok 0 start end_ tid s Hwf) as (ret & s' & E' & Hwf1 & Hm); [done|].
  rewrite E in E'. injection E' as <- <-. unfold abs_port_area in Hm. cbn in Hm.
  destruct (abs_reserve _ _) as [l|] eqn:Ea; [|by destruct Hm].
  apply abs_reserve_Some in Ea as (Hrg & _ & Hno & ->). destruct Hm as [_ He].
  set (r := Reservation tid start end_) in *. set (l := entries (reserved_ports s)) in *.
  destruct (port_area_ok op start end_ tid s1 Hwf1) as (ret & s2 & E2 & Hwf2 & Hm); [done|].
  unfold abs_port_area in Hm. replace (op =? 0) with false in Hm by lia.
  unfold abs_free in Hm. fold r in Hm. rewrite He in Hm.
  rewrite (find_at_unique _ (length l) r) in Hm.
  - rewrite take_app_length, drop_ge, app_nil_r in Hm by (rewrite length_app; cbn; lia).
    destruct Hm as [-> Hm]. exists s2. split_and!; [done|done|].
    intros p Hp. by apply pwf_bits_determined.
  - by rewrite lookup_app_r, Nat.sub_diag by lia.
  - intros j [Hj|[Hj Hj']]%lookup_app_Some.
    + exfalso. rewrite Forall_forall in Hno. apply (Hno r); [by eapply list_elem_of_lookup_2|].
      unfold overlaps. lia.
    + apply list_lookup_singleton_Some in Hj' as [Hj' _]. lia.
Qed.

(** ** Witnesses *)

Lemma port_area_refines_witness :
  exists ret s', r_f_port_area 0 96 100 7 boot_ports = Done (ret, s') /\ pwf s'.
Proof.
  destruct (port_area_refines 0 96 100 7 boot_ports) as (ret & s' & E & Hwf & _);
    [apply boot_ports_pwf|lia|lia|lia|eauto].
Defined.

Lemma port_access_iff_reserved_witness :
  io_map_bit (io_map boot_ports) 96 = Done 0 <->
  exists r, r ∈ entries (reserved_ports boot_ports) /\ covers r 96.
Proof.
  apply (port_access_iff_reserved boot_ports boot_ports 96);
    [apply boot_ports_pwf|apply rtc_refl|lia].
Defined.

Lemma reserve_free_roundtrip_witness :
  exists s1 s2, r_f_port_area 0 96 100 7 boot_ports = Done (0, s1) /\
    r_f_port_area 1 96 100 7 s1 = Done (0, s2) /\ entries (reserved_ports s2) = [].
Proof.
  destruct (r_f_port_area 0 96 100 7 boot_ports) as [[ret s1]| |] eqn:E;
    [|vm_compute in E; done..].
  assert (ret = 0) as -> by (vm_compute in E; by injection E).
  destruct (reserve_free_roundtrip 96 100 7 boot_ports s1 1) as (s2 & E2 & He & _);
    [apply boot_ports_pwf|lia|lia|lia|done|done|].
  exists s1, s2. split_and!; [done|done|]. rewrite He. vm_compute. done.
Defined.
