(* ===== verification/Time.v ===== *)
(** * Filesystem calendar

    Model of [time.rs]: BDFE date/time blocks, the KolibriOS second count since
    2001-01-01 ([fs_calculate_time], [fs_time2bdfe]) and the on-disk time
    formats converted through it (NTFS FILETIME, XFS bigtime, ext4 Unix time,
    FAT packed date and time), of [ntfs_get_time.rs], and of the CMOS readers
    [fs_get_time.rs] and [fs_read_cmos.rs].  The on-disk formats that map
    seconds one to one share the interface [EpochCodec]. *)

From stdpp Require Import base list.
From Stdlib Require Import ZArith Lia.
From S2P Require Import Prelude.

(** ** Model *)

Definition NTFS_FILETIME_BIAS_LO : Z := 3365781504.
Definition NTFS_FILETIME_BIAS_HI : Z := 29389701.
Definition NTFS_FILETIME_PER_SEC : Z := 10000000.
Definition XFS_NANOSEC_PER_SEC : Z := 1000000000.
Definition XFS_BIGTIME_TO_KOS_OFFSET_NS_LO : Z := 0x11350000.
Definition XFS_BIGTIME_TO_KOS_OFFSET_NS_HI : Z := 0x2B610A37.
Definition XFS_BIGTIME_TO_KOS_OFFSET_NS : Z :=
  Z.lor (Z.shiftl XFS_BIGTIME_TO_KOS_OFFSET_NS_HI 32) XFS_BIGTIME_TO_KOS_OFFSET_NS_LO.
Definition UNIXTIME_TO_KOS_OFFSET : Z := 978307200.

Record BdfeTime := mkBdfe {
  sec : Z;
  min : Z;
  hour : Z;
  day : Z;
  month : Z;
  year : Z;
}.

Definition to_bytes (t : BdfeTime) : list Z :=
  [sec t; min t; hour t; 0; day t; month t; u8 (year t); u8 (Z.shiftr (year t) 8)].

Definition from_bytes (b : list Z) : run BdfeTime :=
  b0 ← ld8 b 0; b1 ← ld8 b 1; b2 ← ld8 b 2; b4 ← ld8 b 4; b5 ← ld8 b 5; y ← ld16 b 6;
  Done (mkBdfe b0 b1 b2 b4 b5 y).

(** [months] followed by [months2]. *)
Definition materialize_month_tables : list Z :=
  [31; 28; 31; 30; 31; 30; 31; 31; 30; 31; 30; 31;
   31; 29; 31; 30; 31; 30; 31; 31; 30; 31; 30; 31].

(** A table read guarded by [idx < 24]. *)
Definition table_len (idx : Z) : Z := default 0 (materialize_month_tables !! Z.to_nat idx).

Definition month_sum_body (table_base : Z) (st : Z * Z) : run (Z * Z + Z) :=
  let '(month_idx, month_sum) := st in
  let month_idx := month_idx - 1 in
  if month_idx <? 0 then Done (inr month_sum) else
  let idx := table_base + month_idx in
  let day_len := if idx <? 24 then table_len idx else 0 in
  Done (inl (month_idx, month_sum +ₘ day_len)).

Definition fs_calculate_time (t : BdfeTime) : run Z :=
  let years := if year t <? 2001 then 0 else year t -ₘ 2001 in
  let table_base := if Z.land (years + 1) 3 =? 0 then 12 else 0 in
  month_sum ← loop (S (Z.to_nat (month t))) (month_sum_body table_base) (month t - 1, 0);
  let days := ((years *ₘ 365) +ₘ Z.shiftr years 2) +ₘ month_sum in
  let days := (days -ₘ 1) +ₘ day t in
  let total := (days *ₘ 24) +ₘ hour t in
  let total := (total *ₘ 60) +ₘ min t in
  let total := (total *ₘ 60) +ₘ sec t in
  Done total.

Definition fs_calculate_time_ptr (block : list Z) : run Z :=
  t ← from_bytes block; fs_calculate_time t.

(** [sub dl, [ecx]] / [dec dh] / [jns] on the 16-bit day-of-year. *)
Definition month_peel_body (table_base : Z) (st : Z * Z) : run (Z * Z + Z * Z) :=
  let '(month, dx) := st in
  let month := month +ₘ 1 in
  let idx := table_base + (month - 1) in
  let mlen := if idx <? 24 then table_len idx else 0 in
  let new_dl := u8 (u8 dx - u8 mlen) in
  let borrow := u8 dx <? u8 mlen in
  if negb borrow then Done (inl (month, Z.lor (Z.land dx 0xff00) new_dl)) else
  let dh := u8 (Z.shiftr dx 8) in
  let new_dh := u8 (dh - 1) in
  let dx := Z.lor (u16 (Z.shiftl new_dh 8)) new_dl in
  if 0 <=? as_i8 new_dh then Done (inl (month, dx)) else
  Done (inr (month, u8 (u8 (new_dl + u8 mlen) + 1))).

Definition fs_time2bdfe (secs : Z) : run BdfeTime :=
  let eax := secs in
  let sec := u8 (eax mod 60) in
  let eax := eax / 60 in
  let min := u8 (eax mod 60) in
  let eax := eax / 60 in
  let hour := u8 (eax mod 24) in
  let eax := eax / 24 in
  let edx := eax mod 365 in
  let eax := eax / 365 in
  let ebx := eax +ₘ 2001 in
  let leaps := Z.shiftr eax 2 in
  let subbed := edx -ₘ leaps in
  let '(ebx, edx) :=
    if as_i32 subbed <? 0 then
      let ebx := ebx -ₘ 1 in
      let edx := subbed +ₘ 365 in
      (ebx, if Z.land ebx 3 =? 0 then edx +ₘ 1 else edx)
    else (ebx, subbed) in
  let table_base := if Z.land ebx 3 =? 0 then 12 else 0 in
  '(month, day) ← loop 512 (month_peel_body table_base) (0, Z.land edx 0xffff);
  Done (mkBdfe sec min hour day (u8 month) (u16 ebx)).

Definition fs_time2bdfe_ptr (secs : Z) : run (list Z) :=
  t ← fs_time2bdfe secs; Done (to_bytes t).

(** [overflowing_sub] on [u32]. *)
Definition overflowing_sub32 (a b : Z) : Z * bool := (a -ₘ b, a <? b).

Definition ntfs_filetime_to_secs (filetime_lo filetime_hi : Z) : Z :=
  let '(eax, borrow) := overflowing_sub32 filetime_lo NTFS_FILETIME_BIAS_LO in
  let edx := (filetime_hi -ₘ NTFS_FILETIME_BIAS_HI) -ₘ bool_to_Z borrow in
  let edx := if NTFS_FILETIME_PER_SEC <=? edx then 0 else edx in
  let dividend := Z.lor (Z.shiftl edx 32) eax in
  u32 (dividend / NTFS_FILETIME_PER_SEC).

Definition ntfs_datetime_to_bdfe (lo hi : Z) : run BdfeTime :=
  fs_time2bdfe (ntfs_filetime_to_secs lo hi).

Definition ntfs_datetime_to_bdfe_ptr (lo hi : Z) : run (list Z) :=
  t ← ntfs_datetime_to_bdfe lo hi; Done (to_bytes t).

Definition pack_filetime (lo hi : Z) : Z := Z.lor (Z.shiftl hi 32) lo.

Definition filetime_from_secs_2001 (secs : Z) : Z * Z :=
  let product := u64 (secs * NTFS_FILETIME_PER_SEC) in
  let bias := pack_filetime NTFS_FILETIME_BIAS_LO NTFS_FILETIME_BIAS_HI in
  let ft := u64 (product + bias) in
  (u32 ft, u32 (Z.shiftr ft 32)).

Definition ntfs_calculate_time (t : BdfeTime) : run (Z * Z) :=
  s ← fs_calculate_time t; Done (filetime_from_secs_2001 s).

Definition ntfs_calculate_time_ptr (block : list Z) : run (Z * Z) :=
  t ← from_bytes block; ntfs_calculate_time t.

Definition ntfs_get_time_pack (kos_secs : Z) : Z * Z := filetime_from_secs_2001 kos_secs.

Definition xfs_bigtime_to_secs (bigtime_lo bigtime_hi : Z) : Z :=
  if Z.lor (Z.shiftl bigtime_hi 32) bigtime_lo <? XFS_BIGTIME_TO_KOS_OFFSET_NS then 0 else
  let '(eax, borrow) := overflowing_sub32 bigtime_lo XFS_BIGTIME_TO_KOS_OFFSET_NS_LO in
  let edx := (bigtime_hi -ₘ XFS_BIGTIME_TO_KOS_OFFSET_NS_HI) -ₘ bool_to_Z borrow in
  let '(eax, edx) :=
    if XFS_NANOSEC_PER_SEC <=? edx then (2 ^ 32 - 1, XFS_NANOSEC_PER_SEC - 1) else (eax, edx) in
  let dividend := Z.lor (Z.shiftl edx 32) eax in
  u32 (dividend / XFS_NANOSEC_PER_SEC).

Definition xfs_conv_bigtime_to_kos_epoch (lo hi : Z) : run BdfeTime :=
  fs_time2bdfe (xfs_bigtime_to_secs lo hi).

Definition xfs_conv_bigtime_to_kos_epoch_ptr (lo hi : Z) : run (list Z) :=
  t ← xfs_conv_bigtime_to_kos_epoch lo hi; Done (to_bytes t).

Definition xfs_conv_time_to_kos_epoch (secs : Z) : run BdfeTime := fs_time2bdfe secs.

Definition xfs_conv_time_to_kos_epoch_ptr (secs : Z) : run (list Z) :=
  t ← xfs_conv_time_to_kos_epoch secs; Done (to_bytes t).

Definition bigtime_from_secs_2001 (secs : Z) : Z * Z :=
  let bt := u64 (XFS_BIGTIME_TO_KOS_OFFSET_NS + u64 (secs * XFS_NANOSEC_PER_SEC)) in
  (u32 bt, u32 (Z.shiftr bt 32)).

Definition be_bytes32 (v : Z) : list Z := [byte_of v 3; byte_of v 2; byte_of v 1; byte_of v 0].

Definition pack_bigtime_be (lo hi : Z) : list Z := be_bytes32 hi ++ be_bytes32 lo.

Definition ext_unix_to_secs (i_time extra : Z) : Z :=
  let edx := Z.land extra 3 in
  let edx := if as_i32 i_time <? 0 then edx -ₘ 1 else edx in
  let '(eax, borrow) := overflowing_sub32 i_time UNIXTIME_TO_KOS_OFFSET in
  let edx := edx -ₘ bool_to_Z borrow in
  if as_i32 edx <? 0 then 0 else
  if negb (edx =? 0) then 2 ^ 32 - 1 else eax.

Definition ext_read_time (i_time extra : Z) : run BdfeTime :=
  fs_time2bdfe (ext_unix_to_secs i_time extra).

Definition ext_read_time_ptr (i_time extra : Z) : run (list Z) :=
  t ← ext_read_time i_time extra; Done (to_bytes t).

Definition fat_time_to_bdfe (fat_time : Z) : Z :=
  let hours := Z.shiftr fat_time 11 in
  let seconds := Z.land fat_time 0x1F <<ₘ 1 in
  let minutes := Z.land (Z.shiftr fat_time 5) 0x3F in
  Z.lor (Z.lor (hours <<ₘ 16) (minutes <<ₘ 8)) seconds.

Definition fat_date_to_bdfe (fat_date : Z) : Z :=
  let ecx := fat_date in
  let edx := fat_date in
  let eax := Z.shiftr fat_date 9 in
  let year := u16 (u16 eax + 1980) in
  let eax := year <<ₘ 16 in
  let day := u8 (Z.land edx 0x1F) in
  let eax := Z.lor (Z.land eax 0xFFFFFF00) day in
  let month := u8 (Z.land (Z.shiftr ecx 5) 0xF) in
  Z.lor (Z.land eax 0xFFFF00FF) (month <<ₘ 8).

Definition bdfe_to_fat_time (bdfe_time : Z) : Z :=
  let edx := bdfe_time in
  let eax := Z.shiftr bdfe_time 16 in
  let dh := Z.land (u8 (Z.land (Z.shiftr edx 8) 0xFF)) 0x3F in
  let eax := eax <<ₘ 6 in
  let eax := Z.lor eax dh in
  let dl := u8 (Z.land edx 0xFF) in
  let dl := Z.shiftr dl 1 in
  let dl := Z.land dl 0x1F in
  let eax := eax <<ₘ 5 in
  Z.lor eax dl.

Definition bdfe_to_fat_date (bdfe_date : Z) : Z :=
  let edx := bdfe_date in
  let eax := Z.shiftr bdfe_date 16 in
  let ax := u16 (u16 eax - 1980) in
  let eax := ax in
  let dh := Z.land (u8 (Z.land (Z.shiftr edx 8) 0xFF)) 0xF in
  let eax := eax <<ₘ 4 in
  let eax := Z.lor eax dh in
  let dl := Z.land (u8 (Z.land edx 0xFF)) 0x1F in
  let eax := eax <<ₘ 5 in
  Z.lor eax dl.

(** *** CMOS clock *)

Definition fs_read_cmos_bcd (raw : Z) : Z :=
  let ax := Z.land raw 0x7F in
  let ax := u16 (Z.shiftl ax 4) in
  let ax := Z.lor (Z.land ax 0xFF00) (Z.shiftr (Z.land ax 0x00FF) 4) in
  let ah := u8 (Z.shiftr ax 8) in
  let al := u8 (Z.land ax 0xFF) in
  let sum := u16 (u16 (ah * 10) + al) in
  sum mod 100.

Definition rotate_right32 (x k : Z) : Z := Z.lor (Z.shiftr x k) (x <<ₘ (32 - k)).

Definition bdfe_from_cmos_fields (day month year2 sec min hour : Z) : run BdfeTime :=
  let eax := Z.lor (Z.land 0 0xFFFF0000) day in
  let eax := rotate_right32 eax 8 in
  let eax := Z.lor (Z.land eax 0xFFFF0000) month in
  let eax := rotate_right32 eax 8 in
  let eax := Z.lor (Z.land eax 0xFFFF0000) year2 in
  let eax := eax +ₘ 2000 in
  let eax := rotate_right32 eax 16 in
  let date_part := [byte_of eax 0; byte_of eax 1; byte_of eax 2; byte_of eax 3] in
  let eax := Z.lor (Z.land 0 0xFFFF0000) sec in
  let eax := rotate_right32 eax 8 in
  let eax := Z.lor (Z.land eax 0xFFFF0000) min in
  let eax := rotate_right32 eax 8 in
  let eax := Z.lor (Z.land eax 0xFFFF0000) hour in
  let eax := rotate_right32 eax 16 in
  let time_part := [byte_of eax 0; byte_of eax 1; byte_of eax 2; byte_of eax 3] in
  from_bytes (time_part ++ date_part).

Section Cmos.
(** The FASM port readers, called back by register number. *)
Context (raw_read : Z -> Z) (read_cmos : Z -> Z).

Definition fs_read_cmos (reg : Z) : Z := fs_read_cmos_bcd (u8 (raw_read reg)).

Definition bdfe_from_cmos_reader : run BdfeTime :=
  let read reg := Z.land (read_cmos reg) 0xFFFF in
  bdfe_from_cmos_fields (read 7) (read 8) (read 9) (read 0) (read 2) (read 4).

Definition fs_get_time : run Z :=
  t ← bdfe_from_cmos_reader; fs_calculate_time t.
End Cmos.

Definition merge_upper_eax (original_eax decoded_ax : Z) : Z :=
  Z.lor (Z.land original_eax 0xFFFF0000) decoded_ax.

(** ** Specification *)

(** The calendar of the filesystem code: every fourth year is a leap year. *)
Definition leap (y : Z) : bool := y mod 4 =? 0.

Definition days_in_month (y m : Z) : Z :=
  if m =? 2 then (if leap y then 29 else 28)
  else if (m =? 4) || (m =? 6) || (m =? 9) || (m =? 11) then 30 else 31.

Definition days_in_year (y : Z) : Z := if leap y then 366 else 365.

(** Days before month [m] of year [y]. *)
Fixpoint days_before (y : Z) (n : nat) : Z :=
  match n with
  | O => 0
  | S k => days_before y k + days_in_month y (Z.of_nat k + 1)
  end.

(** Days from 2001-01-01 to a date. *)
Definition day_number (y m d : Z) : Z :=
  365 * (y - 2001) + (y - 2001) / 4 + days_before y (Z.to_nat (m - 1)) + (d - 1).

Definition valid_date (y m d : Z) : Prop :=
  2001 <= y /\ 1 <= m <= 12 /\ 1 <= d <= days_in_month y m.

Definition valid_bdfe (t : BdfeTime) : Prop :=
  valid_date (year t) (month t) (day t) /\
  0 <= hour t < 24 /\ 0 <= min t < 60 /\ 0 <= sec t < 60.

Definition secs_of (t : BdfeTime) : Z :=
  ((day_number (year t) (month t) (day t) * 24 + hour t) * 60 + min t) * 60 + sec t.

(** ** Lemmas *)

Definition table_base (y : Z) : Z := if leap y then 12 else 0.

Lemma land3 z : Z.land z 3 = z mod 4.
Proof. apply (land_ones_wrap z 2). lia. Qed.

Lemma days_leap y y' n : leap y = leap y' -> days_before y n = days_before y' n.
Proof.
  intros H. induction n; cbn [days_before]; [done|]. rewrite IHn. f_equal.
  unfold days_in_month. by rewrite H.
Qed.

(** A representative year of each kind, to check the month tables by computation. *)
Definition rep_year (b : bool) : Z := if b then 2004 else 2001.

Lemma days_rep y n : days_before y n = days_before (rep_year (leap y)) n.
Proof. apply days_leap. by destruct (leap y). Qed.
Lemma dim_rep y m : days_in_month y m = days_in_month (rep_year (leap y)) m.
Proof. unfold days_in_month. by destruct (leap y). Qed.

Definition check_sum (b : bool) (m : Z) : bool :=
  bool_decide (loop (S (Z.to_nat m)) (month_sum_body (if b then 12 else 0)) (m - 1, 0)
    = Done (days_before (rep_year b) (Z.to_nat (m - 1)))).

Lemma month_sum_ok y m : 1 <= m <= 12 ->
  loop (S (Z.to_nat m)) (month_sum_body (table_base y)) (m - 1, 0)
    = Done (days_before y (Z.to_nat (m - 1))).
Proof.
  intros Hm. rewrite days_rep. unfold table_base. assert (1 <= m < 13) as Hm' by lia.
  assert (forall_range 1 13 (check_sum true) && forall_range 1 13 (check_sum false) = true)
    as [H1 H2]%andb_true_iff by (vm_compute; done).
  destruct (leap y);
    [apply (forall_range_spec _ _ _ H1) in Hm'|apply (forall_range_spec _ _ _ H2) in Hm'];
    by apply bool_decide_eq_true in Hm'.
Qed.

(** The month peel on every day of a year. *)
Definition check_peel (b : bool) (m d : Z) : bool :=
  (days_in_month (rep_year b) m <? d) ||
  bool_decide (loop 512 (month_peel_body (if b then 12 else 0))
      (0, days_before (rep_year b) (Z.to_nat (m - 1)) + (d - 1)) = Done (m, d)).

Lemma month_peel_ok y m d : 1 <= m <= 12 -> 1 <= d <= days_in_month y m ->
  loop 512 (month_peel_body (table_base y)) (0, days_before y (Z.to_nat (m - 1)) + (d - 1))
    = Done (m, d).
Proof.
  intros Hm Hd. rewrite days_rep. rewrite dim_rep in Hd. unfold table_base.
  assert (forall_range 1 13 (fun m => forall_range 1 32 (check_peel true m)) &&
          forall_range 1 13 (fun m => forall_range 1 32 (check_peel false m)) = true)
    as [H1 H2]%andb_true_iff by (vm_compute; done).
  assert (1 <= d < 32) as Hd31.
  { unfold days_in_month in Hd. repeat case_match; lia. }
  destruct (leap y);
    [pose proof (forall_range_spec _ _ _ H1 m ltac:(lia)) as Hc|pose proof (forall_range_spec _ _ _ H2 m ltac:(lia)) as Hc];
    apply (forall_range_spec _ _ _ Hc) in Hd31; unfold check_peel in Hd31;
    apply orb_true_iff in Hd31 as [|Hd31]; (lia || by apply bool_decide_eq_true in Hd31).
Qed.

Definition check_bound (b : bool) (m : Z) : bool :=
  (0 <=? days_before (rep_year b) (Z.to_nat (m - 1))) &&
  (days_before (rep_year b) (Z.to_nat (m - 1)) + days_in_month (rep_year b) m <=?
   days_in_year (rep_year b)).

Lemma days_before_bound y m : 1 <= m <= 12 ->
  0 <= days_before y (Z.to_nat (m - 1)) /\
  days_before y (Z.to_nat (m - 1)) + days_in_month y m <= days_in_year y.
Proof.
  intros Hm. rewrite days_rep, dim_rep. assert (1 <= m < 13) as Hm' by lia.
  assert (forall_range 1 13 (check_bound true) && forall_range 1 13 (check_bound false) = true)
    as [H1 H2]%andb_true_iff by (vm_compute; done).
  replace (days_in_year y) with (days_in_year (rep_year (leap y)))
    by (unfold days_in_year; by destruct (leap y)).
  destruct (leap y);
    [apply (forall_range_spec _ _ _ H1) in Hm'|apply (forall_range_spec _ _ _ H2) in Hm'];
    unfold check_bound in Hm'; lia.
Qed.

(** Every day of the year has a month and a day of month. *)
Definition check_split (b : bool) (n : Z) : bool :=
  existsb (fun m => (days_before (rep_year b) (Z.to_nat (m - 1)) <=? n) &&
    (n <? days_before (rep_year b) (Z.to_nat (m - 1)) + days_in_month (rep_year b) m)) (seqZ 1 12).

Lemma day_split y n : 0 <= n < days_in_year y -> exists m d, 1 <= m <= 12 /\
  1 <= d <= days_in_month y m /\ n = days_before y (Z.to_nat (m - 1)) + (d - 1).
Proof.
  intros Hn.
  assert (forall_range 0 366 (check_split true) && forall_range 0 365 (check_split false) = true)
    as [H1 H2]%andb_true_iff by (vm_compute; done).
  assert (check_split (leap y) n = true) as Hs.
  { unfold days_in_year in Hn. destruct (leap y);
      [apply (forall_range_spec _ _ _ H1)|apply (forall_range_spec _ _ _ H2)]; lia. }
  unfold check_split in Hs. apply existsb_exists in Hs as (m & Hm & Hb).
  apply list_elem_of_In, elem_of_seqZ in Hm. rewrite <- days_rep, <- dim_rep in Hb.
  exists m, (n - days_before y (Z.to_nat (m - 1)) + 1). lia.
Qed.

Lemma calc_time_ok t : valid_bdfe t -> year t < 65536 -> secs_of t < 2 ^ 32 ->
  fs_calculate_time t = Done (secs_of t).
Proof.
  intros ((Hy & Hm & Hd) & Hh & Hmi & Hs) Hy16 Hsecs. unfold fs_calculate_time.
  replace (year t <? 2001) with false by lia. rewrite (wrap_small 32 (year t - 2001)) by lia.
  replace (if Z.land (year t - 2001 + 1) 3 =? 0 then 12 else 0) with (table_base (year t)).
  2: { unfold table_base, leap. rewrite land3.
       destruct (year t mod 4 =? 0) eqn:E1; destruct ((year t - 2001 + 1) mod 4 =? 0) eqn:E2;
         Z.div_mod_to_equations; lia. }
  rewrite month_sum_ok by done. run_step. f_equal. rewrite (wrap_add_l 32 _ (day t)).
  rewrite Z.shiftr_div_pow2 by lia. change (2 ^ 2) with 4.
  destruct (days_before_bound (year t) (month t) Hm) as [Hb1 Hb2].
  unfold secs_of, day_number in *.
  assert (0 <= (year t - 2001) / 4) by (Z.div_mod_to_equations; lia).
  unwrap_small. lia.
Qed.

Lemma year_split y n : 2001 <= y <= 2140 -> 0 <= n < days_in_year y ->
  let d := 365 * (y - 2001) + (y - 2001) / 4 + n in
  let subbed := u32 (d mod 365 - Z.shiftr (d / 365) 2) in
  if as_i32 subbed <? 0 then
    y = (d / 365 +ₘ 2001) -ₘ 1 /\ n = (if leap y then (subbed +ₘ 365) +ₘ 1 else subbed +ₘ 365)
  else y = (d / 365 +ₘ 2001) /\ n = subbed.
Proof.
  intros Hy Hn. assert (exists Y, y = Y + 2001) as [Y ->] by (exists (y - 2001); lia).
  replace (Y + 2001 - 2001) with Y by lia. intros d subbed. unfold days_in_year, leap in *.
  assert (Z.shiftr (d / 365) 2 = d / 365 / 4) as Hshr by (by rewrite Z.shiftr_div_pow2 by lia).
  assert (0 <= Y / 4 <= 34) by (Z.div_mod_to_equations; lia).
  assert (d / 365 = Y \/ d / 365 = Y + 1) as [Hq|Hq].
  { subst d. destruct (_ =? 0); Z.div_mod_to_equations; lia. }
  - assert (d mod 365 = Y / 4 + n) as Hr by (subst d; Z.div_mod_to_equations; lia).
    unfold subbed. rewrite Hshr, Hq, Hr. replace (Y / 4 + n - Y / 4) with n by lia.
    assert (n <= 366) by (destruct (_ =? 0); lia). rewrite (wrap_small 32 n) by lia.
    rewrite as_signed_small by lia. replace (n <? 0) with false by lia.
    rewrite wrap_small by lia. lia.
  - assert (d mod 365 = Y / 4 + n - 365) as Hr by (subst d; Z.div_mod_to_equations; lia).
    assert ((Y + 1) / 4 = Y / 4 + if (Y + 2001) mod 4 =? 0 then 1 else 0) as Hl.
    { destruct (_ =? 0) eqn:E; Z.div_mod_to_equations; lia. }
    unfold subbed. rewrite Hshr, Hq, Hr, Hl.
    rewrite as_signed_wrap by (destruct (_ =? 0); lia).
    destruct ((Y + 2001) mod 4 =? 0).
    all: replace (_ <? 0) with true by lia; rewrite (wrap_add_l 32 _ 365), ?(wrap_add_l 32 _ 1); unwrap_small; lia.
Qed.

Lemma valid_year_bound t : valid_bdfe t -> secs_of t < 2 ^ 32 -> year t <= 2140.
Proof.
  intros ((Hy & Hm & Hd) & Hh & Hmi & Hs) Hsecs.
  destruct (days_before_bound (year t) (month t) Hm) as [Hb1 Hb2].
  unfold secs_of, day_number in Hsecs. Z.div_mod_to_equations. lia.
Qed.

Lemma time2bdfe_ok t : valid_bdfe t -> secs_of t < 2 ^ 32 -> fs_time2bdfe (secs_of t) = Done t.
Proof.
  intros Hv Hsecs. pose proof (valid_year_bound t Hv Hsecs) as Hyb.
  destruct Hv as ((Hy & Hm & Hd) & Hh & Hmi & Hs).
  destruct (days_before_bound (year t) (month t) Hm) as [Hb1 Hb2].
  set (n := days_before (year t) (Z.to_nat (month t - 1)) + (day t - 1)).
  assert (0 <= n < days_in_year (year t)) as Hn by lia.
  set (d := 365 * (year t - 2001) + (year t - 2001) / 4 + n).
  assert (secs_of t = ((d * 24 + hour t) * 60 + min t) * 60 + sec t) as Hsec
    by (unfold secs_of, day_number, d, n; lia).
  assert (0 <= d) by (unfold d; Z.div_mod_to_equations; lia).
  pose proof (year_split (year t) n ltac:(lia) Hn) as Hsplit. cbn zeta in Hsplit. fold d in Hsplit.
  unfold fs_time2bdfe. rewrite Hsec. clear Hsec.
  assert ((((d * 24 + hour t) * 60 + min t) * 60 + sec t) mod 60 = sec t /\
    (((d * 24 + hour t) * 60 + min t) * 60 + sec t) / 60 = (d * 24 + hour t) * 60 + min t)
    as [-> ->] by (Z.div_mod_to_equations; lia).
  assert (((d * 24 + hour t) * 60 + min t) mod 60 = min t /\
    ((d * 24 + hour t) * 60 + min t) / 60 = d * 24 + hour t)
    as [-> ->] by (Z.div_mod_to_equations; lia).
  assert ((d * 24 + hour t) mod 24 = hour t /\ (d * 24 + hour t) / 24 = d)
    as [-> ->] by (Z.div_mod_to_equations; lia).
  rewrite (wrap_small 8 (sec t)), (wrap_small 8 (min t)), (wrap_small 8 (hour t)) by lia.
  cbn zeta. set (subbed := d mod 365 -ₘ Z.shiftr (d / 365) 2) in *.
  assert (Z.land n 0xffff = n) as Hn16.
  { change 0xffff with (2 ^ 16 - 1). rewrite land_ones_wrap by lia. apply wrap_small.
    unfold days_in_year in Hn. destruct (leap _); lia. }
  assert (loop 512 (month_peel_body (table_base (year t))) (0, n) = Done (month t, day t)) as Hpeel
    by (by apply month_peel_ok).
  assert (forall z, z = year t -> (if Z.land z 3 =? 0 then 12 else 0) = table_base (year t)) as Htb
    by (intros z ->; rewrite land3; done).
  destruct (as_i32 subbed <? 0).
  - destruct Hsplit as [Hy' Hn']. rewrite <- Hy', Htb by done.
    replace (if Z.land (year t) 3 =? 0 then _ else _) with n
      by (etransitivity; [exact Hn'|]; unfold leap; by rewrite land3).
    rewrite Hn16, Hpeel. run_step. rewrite !wrap_small by lia. by destruct t.
  - destruct Hsplit as [Hy' Hn']. rewrite <- Hy', <- Hn'.
    rewrite Htb, Hn16, Hpeel by done. run_step. rewrite !wrap_small by lia. by destruct t.
Qed.

(** Every 32-bit second count is the count of a valid date. *)
Lemma secs_of_surj s : 0 <= s < 2 ^ 32 -> exists t, valid_bdfe t /\ secs_of t = s.
Proof.
  intros Hs. set (d := s / 86400).
  assert (0 <= d <= 49710) by (unfold d; Z.div_mod_to_equations; lia).
  assert (exists y n, 2001 <= y /\ 0 <= n < days_in_year y /\
    d = 365 * (y - 2001) + (y - 2001) / 4 + n) as (y & n & Hy & Hn & Hd).
  { set (y := (4 * d + 3) / 1461 + 2001). exists y, (d - (365 * (y - 2001) + (y - 2001) / 4)).
    assert ((y - 2001) = (4 * d + 3) / 1461) as E by (unfold y; lia).
    split; [Z.div_mod_to_equations; lia|]. split; [|lia].
    unfold days_in_year, leap. rewrite E.
    assert (y mod 4 = ((4 * d + 3) / 1461 + 1) mod 4) as ->
      by (unfold y; Z.div_mod_to_equations; lia).
    destruct (_ =? 0) eqn:E'; Z.div_mod_to_equations; lia. }
  destruct (day_split y n Hn) as (m & dd & Hm & Hdd & Hn').
  exists (mkBdfe (s mod 60) (s / 60 mod 60) (s / 3600 mod 24) dd m y).
  unfold valid_bdfe, valid_date, secs_of, day_number. cbn. split.
  - split_and!; try lia; Z.div_mod_to_equations; lia.
  - replace (365 * (y - 2001) + (y - 2001) / 4 + days_before y (Z.to_nat (m - 1)) + (dd - 1)) with d by lia.
    unfold d. Z.div_mod_to_equations. lia.
Qed.

(** *** On-disk second counts *)

(** A 64-bit on-disk time, as two dwords, that can hold every KolibriOS second
    count: decoding what was encoded gives the count back. *)
Class EpochCodec (enc : Z -> Z * Z) (dec : Z -> Z -> Z) : Prop := {
  codec_roundtrip : forall s, 0 <= s < 2 ^ 32 -> dec (enc s).1 (enc s).2 = s;
}.

Lemma codec_date_roundtrip enc dec `{!EpochCodec enc dec} t :
  valid_bdfe t -> secs_of t < 2 ^ 32 ->
  (s ← fs_calculate_time t; Done (enc s)) = Done (enc (secs_of t)) /\
  fs_time2bdfe (dec (enc (secs_of t)).1 (enc (secs_of t)).2) = Done t.
Proof.
  intros Hv Hs. pose proof (valid_year_bound t Hv Hs) as Hy. split.
  - rewrite calc_time_ok by (done || lia). done.
  - rewrite codec_roundtrip; [by apply time2bdfe_ok|]. split; [|done].
    destruct Hv as ((H1 & Hm & Hd) & ? & ? & ?).
    destruct (days_before_bound (year t) (month t) Hm) as [? _].
    unfold secs_of, day_number. Z.div_mod_to_equations. lia.
Qed.

Lemma halves_sum x : 0 <= x < 2 ^ 64 ->
  u32 x = x mod 2 ^ 32 /\ u32 (Z.shiftr x 32) = x / 2 ^ 32.
Proof.
  intros Hx. split; [done|]. rewrite Z.shiftr_div_pow2 by lia. apply wrap_small.
  Z.div_mod_to_equations. lia.
Qed.

Lemma filetime_bias :
  pack_filetime NTFS_FILETIME_BIAS_LO NTFS_FILETIME_BIAS_HI = 126227808000000000.
Proof. reflexivity. Qed.

#[global] Instance ntfs_codec : EpochCodec filetime_from_secs_2001 ntfs_filetime_to_secs.
Proof.
  constructor. intros s Hs. unfold filetime_from_secs_2001. rewrite filetime_bias.
  unfold NTFS_FILETIME_PER_SEC. rewrite (wrap_small 64 (s * 10000000)) by lia.
  rewrite (wrap_small 64) by lia. set (ft := s * 10000000 + 126227808000000000).
  destruct (halves_sum ft) as [E1 E2]; [lia|]. cbn [fst snd]. rewrite E1, E2.
  destruct (sub_borrow_halves ft 126227808000000000) as [Ea Ed]; [lia|lia|].
  unfold ntfs_filetime_to_secs, overflowing_sub32.
  change NTFS_FILETIME_BIAS_LO with (126227808000000000 mod 2 ^ 32).
  change NTFS_FILETIME_BIAS_HI with (126227808000000000 / 2 ^ 32).
  rewrite Ea, Ed. replace (ft - 126227808000000000) with (s * 10000000) by (unfold ft; lia).
  unfold NTFS_FILETIME_PER_SEC.
  replace (10000000 <=? s * 10000000 / 2 ^ 32) with false by (Z.div_mod_to_equations; lia).
  rewrite lor_shiftl_add by (try apply Z.mod_pos_bound; lia).
  rewrite Z.mul_comm, <- Z.div_mod by lia. rewrite Z.div_mul by lia. by apply wrap_small.
Qed.

Lemma bigtime_bias : XFS_BIGTIME_TO_KOS_OFFSET_NS = 3125790848000000000.
Proof. reflexivity. Qed.

(** The XFS conversion clamps at both ends of the 32-bit second range. *)
Lemma bigtime_secs_clamp x : 0 <= x < 2 ^ 64 ->
  xfs_bigtime_to_secs (x mod 2 ^ 32) (x / 2 ^ 32) =
  Z.max 0 (Z.min (2 ^ 32 - 1) ((x - 3125790848000000000) / 1000000000)).
Proof.
  intros Hx. unfold xfs_bigtime_to_secs. rewrite bigtime_bias.
  rewrite lor_shiftl_add by (try apply Z.mod_pos_bound; lia).
  rewrite (Z.mul_comm (x / 2 ^ 32)), <- Z.div_mod by lia.
  destruct (x <? 3125790848000000000) eqn:E; [Z.div_mod_to_equations; lia|].
  destruct (sub_borrow_halves x 3125790848000000000) as [Ea Ed]; [lia|lia|].
  unfold overflowing_sub32.
  change XFS_BIGTIME_TO_KOS_OFFSET_NS_LO with (3125790848000000000 mod 2 ^ 32).
  change XFS_BIGTIME_TO_KOS_OFFSET_NS_HI with (3125790848000000000 / 2 ^ 32).
  rewrite Ea, Ed. unfold XFS_NANOSEC_PER_SEC.
  set (y := x - 3125790848000000000) in *. assert (0 <= y < 2 ^ 64) by lia.
  destruct (1000000000 <=? y / 2 ^ 32) eqn:E'.
  - change (Z.lor _ _ / 1000000000) with (2 ^ 32 - 1). rewrite wrap_small by lia.
    Z.div_mod_to_equations. lia.
  - rewrite lor_shiftl_add by (try apply Z.mod_pos_bound; lia).
    rewrite (Z.mul_comm (y / 2 ^ 32)), <- Z.div_mod by lia.
    rewrite wrap_small by (Z.div_mod_to_equations; lia). Z.div_mod_to_equations. lia.
Qed.

#[global] Instance xfs_codec : EpochCodec bigtime_from_secs_2001 xfs_bigtime_to_secs.
Proof.
  constructor. intros s Hs. unfold bigtime_from_secs_2001. rewrite bigtime_bias.
  unfold XFS_NANOSEC_PER_SEC. rewrite (wrap_small 64 (s * 1000000000)) by lia.
  rewrite (wrap_small 64) by lia. set (bt := 3125790848000000000 + s * 1000000000).
  destruct (halves_sum bt) as [E1 E2]; [lia|]. cbn [fst snd]. rewrite E1, E2.
  rewrite bigtime_secs_clamp by lia. unfold bt.
  replace (3125790848000000000 + s * 1000000000 - 3125790848000000000) with (s * 1000000000) by lia.
  rewrite Z.div_mul by lia. lia.
Qed.

(** The signed 34-bit Unix time an ext4 inode stores. *)
Definition ext_unix (i_time extra : Z) : Z := as_i32 i_time + 2 ^ 32 * (extra mod 4).

Lemma ext_secs_clamp i_time extra : 0 <= i_time < 2 ^ 32 ->
  ext_unix_to_secs i_time extra =
  Z.max 0 (Z.min (2 ^ 32 - 1) (ext_unix i_time extra - UNIXTIME_TO_KOS_OFFSET)).
Proof.
  intros Hi. unfold ext_unix_to_secs, ext_unix, overflowing_sub32, UNIXTIME_TO_KOS_OFFSET.
  rewrite land3. assert (0 <= extra mod 4 < 4) by (apply Z.mod_pos_bound; lia).
  set (x := extra mod 4) in *. clearbody x.
  assert (i_time < 2 ^ 31 /\ as_i32 i_time = i_time \/
          2 ^ 31 <= i_time /\ as_i32 i_time = i_time - 2 ^ 32) as Hsi.
  { unfold as_signed. change (2 ^ (32 - 1)) with (2 ^ 31). destruct (_ <? _) eqn:E; lia. }
  set (si := as_i32 i_time) in *. clearbody si.
  assert ((if si <? 0 then x -ₘ 1 else x) -ₘ bool_to_Z (i_time <? 978307200) =
    x - bool_to_Z (si <? 0) -ₘ bool_to_Z (i_time <? 978307200)) as ->.
  { destruct (si <? 0); cbn [bool_to_Z]; [apply wrap_sub_l|]. f_equal. lia. }
  destruct (si <? 0) eqn:E1; destruct (i_time <? 978307200) eqn:E2; cbn [bool_to_Z];
    rewrite as_signed_wrap by lia; case_match; try lia;
    rewrite (wrap_small 32 (x - _ - _)) by lia; case_match; try lia;
    unfold wrap; Z.div_mod_to_equations; lia.
Qed.

(** *** FAT packed words and the CMOS clock, checked over their finite domains *)

Lemma fat_time_fields f : 0 <= f < 65536 ->
  fat_time_to_bdfe f = f / 2048 * 65536 + f / 32 mod 64 * 256 + f mod 32 * 2.
Proof.
  intros Hf. unfold fat_time_to_bdfe.
  assert (Z.shiftr f 11 = f / 2048) as -> by (by rewrite Z.shiftr_div_pow2 by lia).
  assert (Z.land f 0x1F = f mod 32) as -> by (apply (land_ones_wrap f 5); lia).
  assert (Z.land (Z.shiftr f 5) 0x3F = f / 32 mod 64) as ->.
  { rewrite Z.shiftr_div_pow2 by lia. apply (land_ones_wrap (f / 32) 6). lia. }
  assert (0 <= f / 2048 < 32 /\ 0 <= f mod 32 < 32 /\ 0 <= f / 32 mod 64 < 64)
    by (Z.div_mod_to_equations; lia).
  rewrite !(wrap_small 32) by (rewrite Z.shiftl_mul_pow2 by lia; lia).
  rewrite <- Z.lor_assoc, (lor_shiftl_add (f / 32 mod 64) _ 8), lor_shiftl_add;
    rewrite ?Z.shiftl_mul_pow2 by lia; lia.
Qed.

Lemma bdfe_time_fields h m s : 0 <= h < 32 -> 0 <= m < 64 -> 0 <= s < 64 ->
  bdfe_to_fat_time (h * 65536 + m * 256 + s) = h * 2048 + m * 32 + s / 2.
Proof.
  intros Hh Hm Hs. unfold bdfe_to_fat_time. set (x := h * 65536 + m * 256 + s).
  assert (Z.shiftr x 16 = h) as -> by (rewrite Z.shiftr_div_pow2 by lia; unfold x; Z.div_mod_to_equations; lia).
  assert (u8 (Z.land (Z.shiftr x 8) 0xFF) = m) as ->.
  { rewrite Z.shiftr_div_pow2 by lia. rewrite (land_mask _ 8), wrap_wrap by (done || lia).
    unfold wrap, x. Z.div_mod_to_equations. lia. }
  assert (u8 (Z.land x 0xFF) = s) as ->.
  { rewrite (land_mask _ 8), wrap_wrap by (done || lia).
    unfold wrap, x. Z.div_mod_to_equations. lia. }
  assert (Z.land m 0x3F = m) as -> by (rewrite (land_mask m 6) by (done || lia); apply wrap_small; lia).
  rewrite (Z.shiftr_div_pow2 s 1) by lia.
  assert (Z.land (s / 2 ^ 1) 0x1F = s / 2) as ->.
  { rewrite (land_mask _ 5) by (done || lia). apply wrap_small. Z.div_mod_to_equations. lia. }
  rewrite (wrap_small 32 (Z.shiftl h 6)) by (rewrite Z.shiftl_mul_pow2 by lia; lia).
  rewrite (lor_shiftl_add h m 6) by lia.
  rewrite (wrap_small 32) by (rewrite Z.shiftl_mul_pow2 by lia; lia).
  rewrite lor_shiftl_add by (Z.div_mod_to_equations; lia). lia.
Qed.

Lemma mask_split hi lo k n : 0 <= k -> 0 <= n -> 0 <= lo < 2 ^ n ->
  Z.land (hi * 2 ^ n + lo) (2 ^ (n + k) - 2 ^ n) = wrap k hi * 2 ^ n.
Proof.
  intros Hk Hn Hlo. apply Z.bits_inj'. intros i Hi. rewrite Z.land_spec.
  replace (2 ^ (n + k) - 2 ^ n) with ((2 ^ k - 1) * 2 ^ n) by (rewrite Z.pow_add_r by lia; lia).
  destruct (decide (i < n)).
  - rewrite !Z.mul_pow2_bits_low by lia. apply andb_false_r.
  - rewrite !Z.mul_pow2_bits by lia. rewrite Z.sub_1_r, <- Z.ones_equiv.
    assert (Z.testbit (hi * 2 ^ n + lo) i = Z.testbit hi (i - n)) as ->.
    { rewrite <- lor_shiftl_add by lia. rewrite Z.lor_spec, Z.shiftl_spec by lia.
      rewrite (testbit_range_false n lo) by lia. apply orb_false_r. }
    unfold wrap. destruct (decide (i - n < k)).
    + rewrite Z.ones_spec_low, Z.mod_pow2_bits_low by lia. apply andb_true_r.
    + rewrite Z.ones_spec_high, Z.mod_pow2_bits_high by lia. apply andb_false_r.
Qed.

Lemma fat_date_fields f : 0 <= f < 65536 ->
  fat_date_to_bdfe f = (f / 512 + 1980) * 65536 + f / 32 mod 16 * 256 + f mod 32.
Proof.
  intros Hf. unfold fat_date_to_bdfe.
  assert (0 <= f / 512 < 128 /\ 0 <= f mod 32 < 32 /\ 0 <= f / 32 mod 16 < 16) as (Hy & Hd & Hm)
    by (Z.div_mod_to_equations; lia).
  assert (u16 (Z.shiftr f 9) = f / 512) as ->.
  { rewrite Z.shiftr_div_pow2 by lia. apply wrap_small. change (2 ^ 9) with 512. lia. }
  assert (u8 (Z.land f 0x1F) = f mod 32) as ->.
  { rewrite (land_mask f 5) by (done || lia). apply wrap_small. unfold wrap. change (2 ^ 5) with 32. lia. }
  assert (u8 (Z.land (Z.shiftr f 5) 0xF) = f / 32 mod 16) as ->.
  { rewrite Z.shiftr_div_pow2 by lia. rewrite (land_mask _ 4) by (done || lia). apply wrap_small.
    unfold wrap. change (2 ^ 4) with 16. change (2 ^ 5) with 32. lia. }
  rewrite (wrap_small 16) by lia.
  set (y := f / 512 + 1980) in *. assert (1980 <= y < 2108) by lia. clearbody y.
  rewrite (wrap_small 32 (Z.shiftl y 16)) by (rewrite Z.shiftl_mul_pow2 by lia; lia).
  rewrite (wrap_small 32 (Z.shiftl _ 8)) by (rewrite Z.shiftl_mul_pow2 by lia; lia).
  assert (Z.land (Z.shiftl y 16) 0xFFFFFF00 = Z.shiftl y 16) as ->.
  { rewrite Z.shiftl_mul_pow2 by lia.
    replace (y * 2 ^ 16) with (y * 2 ^ 8 * 2 ^ 8 + 0) at 1 by lia.
    change 0xFFFFFF00 with (2 ^ (8 + 24) - 2 ^ 8). rewrite mask_split by lia.
    rewrite wrap_small by lia. lia. }
  rewrite (lor_shiftl_add y (f mod 32) 16) by lia.
  assert (Z.land (y * 2 ^ 16 + f mod 32) 0xFFFF00FF = y * 2 ^ 16 + f mod 32) as ->.
  { change 0xFFFF00FF with (Z.lor (2 ^ (16 + 16) - 2 ^ 16) (2 ^ 8 - 1)).
    rewrite Z.land_lor_distr_r, mask_split, land_ones_wrap by lia.
    unfold wrap. rewrite Z.mod_small by lia.
    replace (y * 2 ^ 16 + f mod 32) with (f mod 32 + y * 2 ^ 8 * 2 ^ 8) at 1 by lia.
    rewrite Z.mod_add, (Z.mod_small (f mod 32)) by lia.
    rewrite <- (Z.shiftl_mul_pow2 y 16), lor_shiftl_add by lia. rewrite Z.shiftl_mul_pow2 by lia. done. }
  rewrite <- (lor_shiftl_add y (f mod 32) 16) by lia. rewrite <- Z.lor_assoc.
  rewrite (Z.lor_comm (f mod 32)), (lor_shiftl_add (f / 32 mod 16) _ 8) by lia.
  rewrite lor_shiftl_add by lia. lia.
Qed.

Lemma bdfe_date_fields y m d : 1980 <= y < 2108 -> 0 <= m < 16 -> 0 <= d < 32 ->
  bdfe_to_fat_date (y * 65536 + m * 256 + d) = (y - 1980) * 512 + m * 32 + d.
Proof.
  intros Hy Hm Hd. unfold bdfe_to_fat_date. set (x := y * 65536 + m * 256 + d).
  assert (Z.shiftr x 16 = y) as -> by (rewrite Z.shiftr_div_pow2 by lia; unfold x; Z.div_mod_to_equations; lia).
  rewrite (wrap_small 16 y), (wrap_small 16) by lia.
  assert (u8 (Z.land (Z.shiftr x 8) 0xFF) = m) as ->.
  { rewrite Z.shiftr_div_pow2 by lia. rewrite (land_mask _ 8), wrap_wrap by (done || lia).
    unfold wrap, x. Z.div_mod_to_equations. lia. }
  assert (u8 (Z.land x 0xFF) = d) as ->.
  { rewrite (land_mask _ 8), wrap_wrap by (done || lia).
    unfold wrap, x. Z.div_mod_to_equations. lia. }
  assert (Z.land m 0xF = m) as -> by (rewrite (land_mask m 4) by (done || lia); apply wrap_small; lia).
  assert (Z.land d 0x1F = d) as -> by (rewrite (land_mask d 5) by (done || lia); apply wrap_small; lia).
  rewrite (wrap_small 32 (Z.shiftl _ 4)) by (rewrite Z.shiftl_mul_pow2 by lia; lia).
  rewrite (lor_shiftl_add _ m 4) by lia.
  rewrite (wrap_small 32) by (rewrite Z.shiftl_mul_pow2 by lia; lia).
  rewrite lor_shiftl_add by lia. lia.
Qed.

Lemma bcd_checked : forall_range 0 10 (fun tens => forall_range 0 10 (fun ones =>
  fs_read_cmos_bcd (16 * tens + ones) =? 10 * (tens mod 8) + ones)) = true.
Proof. vm_compute. reflexivity. Qed.

Lemma rotr_low a k : 0 <= k <= 32 -> 0 <= a < 2 ^ 32 ->
  rotate_right32 a k = a / 2 ^ k + (a mod 2 ^ k) * 2 ^ (32 - k).
Proof.
  intros Hk Ha. unfold rotate_right32.
  assert (0 < 2 ^ k) by (apply Z.pow_pos_nonneg; lia).
  assert (2 ^ 32 = 2 ^ (32 - k) * 2 ^ k) as E32 by (rewrite <- Z.pow_add_r by lia; f_equal; lia).
  rewrite Z.shiftr_div_pow2 by lia.
  assert (a <<ₘ (32 - k) = Z.shiftl (a mod 2 ^ k) (32 - k)) as ->.
  { rewrite !Z.shiftl_mul_pow2 by lia. unfold wrap. rewrite E32, (Z.mul_comm (2 ^ (32 - k)) (2 ^ k)).
    rewrite Z.mul_mod_distr_r; [done| |]; [lia|]. apply Z.pow_nonzero; lia. }
  rewrite Z.lor_comm, lor_shiftl_add; [lia|lia|]. split; [apply Z.div_pos; lia|].
  apply Z.div_lt_upper_bound; [lia|]. rewrite Z.mul_comm, <- E32. lia.
Qed.

Lemma cmos_merge hi lo v : 0 <= hi < 2 ^ 16 -> 0 <= lo < 2 ^ 16 -> 0 <= v < 2 ^ 16 ->
  Z.lor (Z.land (hi * 2 ^ 16 + lo) 0xFFFF0000) v = hi * 2 ^ 16 + v.
Proof.
  intros Hh Hl Hv. change 0xFFFF0000 with (2 ^ (16 + 16) - 2 ^ 16). rewrite mask_split by lia.
  rewrite wrap_small, <- Z.shiftl_mul_pow2, lor_shiftl_add by lia.
  by rewrite Z.shiftl_mul_pow2 by lia.
Qed.

(** The [ror] packing puts the three values side by side. *)
Lemma cmos_pack a b c k : is_byte a -> is_byte b -> 0 <= c -> 0 <= k -> c + k < 2 ^ 16 ->
  let x := rotate_right32 (Z.lor (Z.land 0 0xFFFF0000) a) 8 in
  let x := rotate_right32 (Z.lor (Z.land x 0xFFFF0000) b) 8 in
  let x := Z.lor (Z.land x 0xFFFF0000) c in
  rotate_right32 (u32 (x + k)) 16 = a + 256 * b + 65536 * (c + k).
Proof.
  unfold is_byte. intros Ha Hb Hc Hk Hck. cbn zeta. rewrite Z.land_0_l, Z.lor_0_l.
  rewrite (rotr_low a 8) by lia. rewrite Z.div_small, Z.mod_small by lia.
  replace (0 + a * 2 ^ (32 - 8)) with ((a * 256) * 2 ^ 16 + 0) by lia.
  rewrite (cmos_merge (a * 256) 0 b) by lia.
  rewrite (rotr_low _ 8) by lia.
  replace ((a * 256 * 2 ^ 16 + b) / 2 ^ 8) with (a * 2 ^ 16) by (Z.div_mod_to_equations; lia).
  replace ((a * 256 * 2 ^ 16 + b) mod 2 ^ 8) with b by (Z.div_mod_to_equations; lia).
  replace (a * 2 ^ 16 + b * 2 ^ (32 - 8)) with ((a + b * 256) * 2 ^ 16 + 0) by lia.
  rewrite (cmos_merge (a + b * 256) 0 c) by lia. rewrite wrap_small by lia.
  rewrite (rotr_low _ 16) by lia.
  replace (((a + b * 256) * 2 ^ 16 + c + k) / 2 ^ 16) with (a + b * 256) by (Z.div_mod_to_equations; lia).
  replace (((a + b * 256) * 2 ^ 16 + c + k) mod 2 ^ 16) with (c + k) by (Z.div_mod_to_equations; lia).
  lia.
Qed.

Lemma byte_of_pack a b c : is_byte a -> is_byte b -> 0 <= c < 65536 ->
  let x := a + 256 * b + 65536 * c in
  byte_of x 0 = a /\ byte_of x 1 = b /\ byte_of x 2 = c mod 256 /\ byte_of x 3 = c / 256.
Proof.
  intros Ha Hb Hc x. unfold is_byte, byte_of, wrap in *. rewrite !Z.shiftr_div_pow2 by lia.
  change (2 ^ (8 * 0)) with 1. change (2 ^ (8 * 1)) with 256. change (2 ^ (8 * 2)) with 65536.
  change (2 ^ (8 * 3)) with 16777216. change (2 ^ 8) with 256.
  unfold x. split_and!; Z.div_mod_to_equations; lia.
Qed.

Lemma from_bytes_list b0 b1 b2 b3 b4 b5 b6 b7 :
  from_bytes [b0; b1; b2; b3; b4; b5; b6; b7] = Done (mkBdfe b0 b1 b2 b4 b5 (le2 b6 b7)).
Proof. reflexivity. Qed.

Lemma cmos_fields_ok d m y s mi h :
  is_byte d -> is_byte m -> 0 <= y < 60000 -> is_byte s -> is_byte mi -> is_byte h ->
  bdfe_from_cmos_fields d m y s mi h = Done (mkBdfe s mi h d m (2000 + y)).
Proof.
  intros Hd Hm Hy Hs Hmi Hh. unfold bdfe_from_cmos_fields. unfold is_byte in *.
  pose proof (cmos_pack d m y 2000) as E1. cbn zeta in E1. rewrite E1 by (unfold is_byte; lia). clear E1.
  pose proof (cmos_pack s mi h 0) as E2. cbn zeta in E2. rewrite !Z.add_0_r in E2.
  rewrite (wrap_small 32) in E2; [rewrite E2 by (unfold is_byte; lia); clear E2|].
  2: { rewrite Z.land_0_l, Z.lor_0_l. rewrite (rotr_low s 8) by lia.
       rewrite Z.div_small, Z.mod_small by lia.
       replace (0 + s * 2 ^ (32 - 8)) with ((s * 256) * 2 ^ 16 + 0) by lia.
       rewrite (cmos_merge (s * 256) 0 mi), (rotr_low _ 8) by lia.
       replace ((s * 256 * 2 ^ 16 + mi) / 2 ^ 8) with (s * 2 ^ 16) by (Z.div_mod_to_equations; lia).
       replace ((s * 256 * 2 ^ 16 + mi) mod 2 ^ 8) with mi by (Z.div_mod_to_equations; lia).
       replace (s * 2 ^ 16 + mi * 2 ^ (32 - 8)) with ((s + mi * 256) * 2 ^ 16 + 0) by lia.
       rewrite (cmos_merge (s + mi * 256) 0 h) by lia. lia. }
  destruct (byte_of_pack d m (y + 2000)) as (-> & -> & -> & ->); [done|done|lia|].
  destruct (byte_of_pack s mi h) as (-> & -> & -> & ->); [done|done|lia|].
  rewrite (Z.mod_small h) by lia. cbn [app].
  rewrite from_bytes_list. unfold le2. do 2 f_equal. Z.div_mod_to_equations. lia.
Qed.

Lemma from_to_bytes t : 0 <= year t < 65536 -> from_bytes (to_bytes t) = Done t.
Proof.
  intros Hy. unfold to_bytes. rewrite from_bytes_list. destruct t as [s mi h d m y]. cbn in *.
  unfold le2, wrap. do 2 f_equal.
  rewrite Z.shiftr_div_pow2 by lia. change (2 ^ 8) with 256. Z.div_mod_to_equations. lia.
Qed.

(** ** Theorems *)


(** Every valid date the 32-bit count can reach survives the trip through
    its 8-byte block and the second count. *)
Theorem date_secs_date t : valid_bdfe t -> secs_of t < 2 ^ 32 ->
  (s ← fs_calculate_time_ptr (to_bytes t); fs_time2bdfe s) = Done t /\
  fs_time2bdfe_ptr (secs_of t) = Done (to_bytes t).
Proof.
  intros Hv Hs. pose proof (valid_year_bound t Hv Hs) as Hy.
  unfold fs_calculate_time_ptr, fs_time2bdfe_ptr.
  rewrite from_to_bytes by (destruct Hv as ((? & _) & _); lia). run_step.
  rewrite calc_time_ok by (done || lia). run_step. rewrite time2bdfe_ok by done. done.
Qed.

(** Timestamps survive the disk: a valid date written as NTFS FILETIME or
    XFS bigtime reads back as the same date. *)
Theorem disk_time_roundtrip t : valid_bdfe t -> secs_of t < 2 ^ 32 ->
  (exists lo hi, ntfs_calculate_time t = Done (lo, hi) /\
     ntfs_datetime_to_bdfe lo hi = Done t /\ ntfs_get_time_pack (secs_of t) = (lo, hi)) /\
  (let '(lo, hi) := bigtime_from_secs_2001 (secs_of t) in
   xfs_conv_bigtime_to_kos_epoch lo hi = Done t).
Proof.
  intros Hv Hs. split.
  - destruct (codec_date_roundtrip filetime_from_secs_2001 ntfs_filetime_to_secs t Hv Hs) as [E1 E2].
    destruct (filetime_from_secs_2001 (secs_of t)) as [lo hi] eqn:E.
    exists lo, hi. split_and!; [exact E1|exact E2|exact E].
  - destruct (codec_date_roundtrip bigtime_from_secs_2001 xfs_bigtime_to_secs t Hv Hs) as [_ E2].
    by destruct (bigtime_from_secs_2001 (secs_of t)).
Qed.

(** Out-of-range times saturate.  For every inode time (32 bits plus the
    ext4 epoch bits) and every 64-bit XFS bigtime the conversion yields a valid
    date whose second count is the true one clamped to [[0, 2^32)]. *)
Theorem disk_time_clamps i_time extra x : 0 <= i_time < 2 ^ 32 -> 0 <= x < 2 ^ 64 ->
  (exists t, ext_read_time i_time extra = Done t /\ valid_bdfe t /\
    secs_of t = Z.max 0 (Z.min (2 ^ 32 - 1) (ext_unix i_time extra - 978307200))) /\
  (exists t, xfs_conv_bigtime_to_kos_epoch (x mod 2 ^ 32) (x / 2 ^ 32) = Done t /\ valid_bdfe t /\
    secs_of t = Z.max 0 (Z.min (2 ^ 32 - 1) ((x - 3125790848000000000) / 1000000000))).
Proof.
  intros Hi Hx. unfold ext_read_time, xfs_conv_bigtime_to_kos_epoch.
  rewrite ext_secs_clamp, bigtime_secs_clamp by done. unfold UNIXTIME_TO_KOS_OFFSET. split.
  - destruct (secs_of_surj (Z.max 0 (Z.min (2 ^ 32 - 1) (ext_unix i_time extra - 978307200))))
      as (t & Hv & E); [lia|]. exists t. rewrite <- E. split_and!; [|done|done].
    apply time2bdfe_ok; [done|lia].
  - destruct (secs_of_surj (Z.max 0 (Z.min (2 ^ 32 - 1) ((x - 3125790848000000000) / 1000000000))))
      as (t & Hv & E); [lia|]. exists t. rewrite <- E. split_and!; [|done|done].
    apply time2bdfe_ok; [done|lia].
Qed.

(** The FAT directory words round-trip: every packed date and every packed
    time is restored by decoding to BDFE and packing again, and a BDFE time loses
    only the odd second. *)
Theorem fat_words_roundtrip f : 0 <= f < 65536 ->
  bdfe_to_fat_time (fat_time_to_bdfe f) = f /\ bdfe_to_fat_date (fat_date_to_bdfe f) = f /\
  forall h m s, 0 <= h < 24 -> 0 <= m < 60 -> 0 <= s < 60 ->
    fat_time_to_bdfe (bdfe_to_fat_time (h * 65536 + m * 256 + s)) = h * 65536 + m * 256 + s / 2 * 2.
Proof.
  intros Hf. split_and!.
  - rewrite fat_time_fields by done.
    rewrite bdfe_time_fields by (Z.div_mod_to_equations; lia). Z.div_mod_to_equations; lia.
  - rewrite fat_date_fields by done.
    rewrite bdfe_date_fields by (Z.div_mod_to_equations; lia). Z.div_mod_to_equations; lia.
  - intros h m s Hh Hm Hs. rewrite bdfe_time_fields by lia.
    rewrite fat_time_fields by (Z.div_mod_to_equations; lia). Z.div_mod_to_equations; lia.
Qed.

(** Reading the clock.  When the CMOS callback delivers the fields of a
    valid date of this century, [fs_get_time] is the second count of that date;
    and the BCD decoder is exact only up to 79, because the code masks bit 7 of
    the raw byte: tens digits 8 and 9 decode as 0 and 1. *)
Theorem cmos_clock_read (read_cmos : Z -> Z) yy m d h mi s tens ones :
  1 <= yy <= 99 -> valid_bdfe (mkBdfe s mi h d m (2000 + yy)) ->
  read_cmos 7 = d -> read_cmos 8 = m -> read_cmos 9 = yy ->
  read_cmos 0 = s -> read_cmos 2 = mi -> read_cmos 4 = h ->
  0 <= tens < 10 -> 0 <= ones < 10 ->
  fs_get_time read_cmos = Done (secs_of (mkBdfe s mi h d m (2000 + yy))) /\
  fs_read_cmos_bcd (16 * tens + ones) = 10 * (tens mod 8) + ones.
Proof.
  intros Hyy Hv E7 E8 E9 E0 E2 E4 Ht Ho. split.
  - destruct Hv as ((Hy & Hm & Hd) & Hh & Hmi & Hs). cbn [year month day hour min sec] in Hy, Hm, Hd, Hh, Hmi, Hs.
    assert (d <= 31) by (unfold days_in_month in Hd; repeat case_match; lia).
    unfold fs_get_time, bdfe_from_cmos_reader. rewrite E7, E8, E9, E0, E2, E4.
    rewrite !(land_mask _ 16 0xFFFF), !wrap_small by (done || lia).
    rewrite cmos_fields_ok by (unfold is_byte; lia). run_step. apply calc_time_ok.
    + split; [|cbn; lia]. unfold valid_date. cbn. lia.
    + cbn. lia.
    + unfold secs_of, day_number. cbn [year month day hour min sec].
      destruct (days_before_bound (2000 + yy) m Hm) as [? Hb].
      assert (days_in_year (2000 + yy) <= 366) by (unfold days_in_year; destruct (leap _); lia).
      assert ((2000 + yy - 2001) / 4 <= 25) by (Z.div_mod_to_equations; lia). lia.
  - pose proof (forall_range_spec _ _ _ bcd_checked tens ltac:(lia)) as H.
    pose proof (forall_range_spec _ _ _ H ones ltac:(lia)) as H'. by apply Z.eqb_eq in H'.
Qed.

(** ** Witnesses *)

(** 2024-02-29 23:59:58, a leap day. *)
Definition leap_day : BdfeTime := mkBdfe 58 59 23 29 2 2024.

Lemma leap_day_valid : valid_bdfe leap_day /\ secs_of leap_day < 2 ^ 32.
Proof. vm_compute. repeat split; discriminate. Qed.


Lemma date_secs_date_witness :
  (s ← fs_calculate_time_ptr (to_bytes leap_day); fs_time2bdfe s) = Done leap_day.
Proof. apply (date_secs_date leap_day); apply leap_day_valid. Defined.

Lemma disk_time_roundtrip_witness :
  exists lo hi, ntfs_calculate_time leap_day = Done (lo, hi) /\
    ntfs_datetime_to_bdfe lo hi = Done leap_day.
Proof.
  destruct (disk_time_roundtrip leap_day) as [(lo & hi & E1 & E2 & _) _];
    [apply leap_day_valid|apply leap_day_valid|eauto].
Defined.

Lemma disk_time_clamps_witness :
  exists t, ext_read_time 4294967295 0 = Done t /\ secs_of t = 0.
Proof.
  destruct (disk_time_clamps 4294967295 0 0) as [(t & E & _ & Es) _]; [lia|lia|].
  exists t. split; [done|]. rewrite Es. reflexivity.
Defined.

Lemma fat_words_roundtrip_witness : bdfe_to_fat_date (fat_date_to_bdfe 22621) = 22621.
Proof. apply (fat_words_roundtrip 22621). lia. Defined.

Lemma cmos_clock_read_witness :
  fs_read_cmos_bcd 0x85 = 5 /\
  fs_get_time (fun r => if r =? 7 then 29 else if r =? 8 then 2 else if r =? 9 then 24
    else if r =? 0 then 58 else if r =? 2 then 59 else 23) = Done (secs_of leap_day).
Proof.
  destruct (cmos_clock_read (fun r => if r =? 7 then 29 else if r =? 8 then 2 else if r =? 9 then 24
    else if r =? 0 then 58 else if r =? 2 then 59 else 23) 24 2 29 23 59 58 8 5) as [E1 E2];
    try reflexivity; try lia; [apply leap_day_valid|]. split; [exact E2|exact E1].
Defined.
