(* ===== verification/Strings.v ===== *)
(** * C strings and the forward block copy

    [string.rs] and [memmove.rs].  All functions work in one flat memory [m],
    a pointer is an address in it; 32-bit pointers and counters wrap.  A loop is
    given one more step than there are bytes in memory (scans), or than its
    counter says (counted loops).  [is_cstr m s n] says that a string of [n]
    bytes before its NUL is stored at [s]. *)

From stdpp Require Import base list.
From Stdlib Require Import ZArith Lia.
From S2P Require Import Prelude.

(** ** Definitions *)

Definition not32 (x : Z) : Z := 2 ^ 32 - 1 - x.

Definition strlen_body (m : list Z) (st : Z * Z) : run (Z * Z + Z) :=
  let '(ecx, edi) := st in
  b ← ld8 m edi;
  let edi := edi +ₘ 1 in
  let ecx := ecx -ₘ 1 in
  if b =? 0 then Done (inr ecx) else Done (inl (ecx, edi)).

Definition strlen (m : list Z) (s : Z) : run Z :=
  ecx ← loop (S (length m)) (strlen_body m) (0 -ₘ 1, s);
  let ecx := ecx +ₘ 1 in
  Done (not32 ecx).

(** State: memory, [i], [saw_nul]. *)
Definition strncpy_body (s1 s2 n : Z) (st : list Z * Z * bool)
    : run (list Z * Z * bool + list Z) :=
  let '(m, i, saw_nul) := st in
  if i <? n then
    '(b, saw_nul) ←
      (if saw_nul then Done (0, saw_nul)
       else c ← ld8 m (s2 + i); Done (c, if c =? 0 then true else saw_nul));
    m ← st8 m (s1 + i) b;
    Done (inl (m, i +ₘ 1, saw_nul))
  else Done (inr m).

Definition strncpy (m : list Z) (s1 s2 n : Z) : run (list Z * Z) :=
  m ← loop (S (Z.to_nat n)) (strncpy_body s1 s2 n) (m, 0, false);
  Done (m, s1).

Definition strrchr_scan_body (m : list Z) (st : Z * Z) : run (Z * Z + Z * Z) :=
  let '(p, len) := st in
  b ← ld8 m p;
  let p := p +ₘ 1 in
  let len := len +ₘ 1 in
  if b =? 0 then Done (inr (p, len)) else Done (inl (p, len)).

Definition strrchr_back_body (m : list Z) (needle : Z) (st : Z * Z) : run (Z * Z + Z) :=
  let '(p, ecx) := st in
  if ecx =? 0 then Done (inr 0)
  else
    b ← ld8 m p;
    if b =? needle then Done (inr p)
    else
      let ecx := ecx -ₘ 1 in
      if ecx =? 0 then Done (inr 0) else Done (inl (p -ₘ 1, ecx)).

Definition strrchr (m : list Z) (s c : Z) : run Z :=
  let needle := u8 c in
  '(p, len) ← loop (S (length m)) (strrchr_scan_body m) (s, 0);
  let p := p -ₘ 1 in
  loop (S (Z.to_nat len)) (strrchr_back_body m needle) (p, len).

Definition strchr_body (m : list Z) (needle : Z) (p : Z) : run (Z + Z) :=
  b ← ld8 m p;
  if b =? needle then Done (inr p)
  else if b =? 0 then Done (inr 0)
  else Done (inl (p + 1)).

Definition strchr (m : list Z) (s c : Z) : run Z :=
  loop (S (length m)) (strchr_body m (u8 c)) s.

Definition strncmp_body (m : list Z) (st : Z * Z * Z) : run (Z * Z * Z + Z) :=
  let '(p1, p2, n) := st in
  a ← ld8 m p1;
  b ← ld8 m p2;
  if negb (a =? b) then Done (inr (if b <? a then 1 else -1))
  else if a =? 0 then Done (inr 0)
  else
    let n := n -ₘ 1 in
    if n =? 0 then Done (inr 0) else Done (inl (p1 + 1, p2 + 1, n)).

Definition strncmp (m : list Z) (s1 s2 n : Z) : run Z :=
  if n =? 0 then Done 0
  else loop (S (Z.to_nat n)) (strncmp_body m) (s1, s2, n).

(** State: memory, [esi], [edi], remaining count. *)
Definition movsd_body (st : list Z * Z * Z * Z)
    : run (list Z * Z * Z * Z + list Z * Z * Z) :=
  let '(m, esi, edi, n_dwords) := st in
  if n_dwords =? 0 then Done (inr (m, esi, edi))
  else
    v ← ld32 m esi;
    m ← st32 m edi v;
    Done (inl (m, esi + 4, edi + 4, n_dwords -ₘ 1)).

Definition movsb_body (st : list Z * Z * Z * Z)
    : run (list Z * Z * Z * Z + list Z) :=
  let '(m, esi, edi, ecx) := st in
  if ecx =? 0 then Done (inr m)
  else
    b ← ld8 m esi;
    m ← st8 m edi b;
    Done (inl (m, esi + 1, edi + 1, ecx -ₘ 1)).

Definition memmove (m : list Z) (from to nbytes : Z) : run (list Z) :=
  if as_i32 nbytes <=? 0 then Done m
  else if negb (Z.land nbytes (not32 3) =? 0) then
    '(m, esi, edi) ←
      loop (S (Z.to_nat (Z.shiftr nbytes 2))) movsd_body (m, from, to, Z.shiftr nbytes 2);
    let ecx := Z.land nbytes 3 in
    if ecx =? 0 then Done m
    else loop (S (Z.to_nat ecx)) movsb_body (m, esi, edi, ecx)
  else loop (S (Z.to_nat nbytes)) movsb_body (m, from, to, nbytes).

(** ** Specification vocabulary *)

(** A string of [n] non-NUL bytes, then a NUL, at address [s]. *)
Definition is_cstr (m : list Z) (s n : Z) : Prop :=
  0 <= s /\ 0 <= n /\ s + n < mlen m /\ byte_at m (s + n) = 0 /\
  forall i, 0 <= i < n -> byte_at m (s + i) <> 0.

Definition is_cstrb (m : list Z) (s n : Z) : bool :=
  (0 <=? s) && (0 <=? n) && (s + n <? mlen m) && (byte_at m (s + n) =? 0) &&
  forall_range 0 n (fun i => negb (byte_at m (s + i) =? 0)).

Lemma is_cstrb_ok m s n : is_cstrb m s n = true -> is_cstr m s n.
Proof.
  unfold is_cstrb. rewrite !andb_true_iff. intros ((((?&?)&?)&?)&Hr).
  split_and!; [lia..|]. intros i Hi. apply (forall_range_spec _ _ _ Hr) in Hi. lia.
Qed.

(** Every address of memory is a 32-bit pointer. *)
Definition addressable (m : list Z) : Prop := mlen m < 2 ^ 32.

(** ** String scans *)

Lemma strlen_ok m s n : addressable m -> is_cstr m s n -> strlen m s = Done n.
Proof.
  intros Ha (Hs & Hn & Hl & H0 & Hnz). unfold addressable in Ha. unfold strlen.
  destruct (loop_total
    (fun st => exists i, 0 <= i <= n /\ st = (u32 (-1 - i), s + i))
    (fun st => Z.to_nat (s + n - snd st))
    (fun ecx => ecx = u32 (-2 - n)) (strlen_body m)) with
    (fuel := S (length m)) (s := (0 -ₘ 1, s)) as (r & -> & ->).
  - intros ? (i & Hi & ->). unfold strlen_body. rewrite ld8_ok by lia. run_step.
    unwrap. destruct (decide (i = n)) as [->|].
    + rewrite H0. cbn [Z.eqb]. eexists. split; [done|]. cbn. f_equal. lia.
    + specialize (Hnz i). replace (byte_at m (s + i) =? 0) with false by lia.
      rewrite (wrap_small 32 (s + i + 1)) by lia.
      eexists. split; [done|]. cbn. split; [|lia].
      exists (i + 1). split; [lia|]. apply f_equal2; [f_equal|]; lia.
  - exists 0. split; [lia|]. apply f_equal2; [done|lia].
  - cbn. unfold mlen in *. lia.
  - run_step. unwrap. f_equal. unfold not32.
    replace (-2 - n + 1) with (- (n + 1)) by lia. unfold wrap.
    rewrite <- (Z.mod_add _ 1) by lia. rewrite Z.mod_small by lia. lia.
Qed.

(** What [strchr] promises: the first match at or before the NUL. *)
Definition first_match (m : list Z) (s n c r : Z) : Prop :=
  (exists i, 0 <= i <= n /\ r = s + i /\ byte_at m r = c /\ forall j, 0 <= j < i -> byte_at m (s + j) <> c) \/
  (r = 0 /\ forall j, 0 <= j <= n -> byte_at m (s + j) <> c).

(** What [strrchr] promises: the last one. *)
Definition last_match (m : list Z) (s n c r : Z) : Prop :=
  (exists i, 0 <= i <= n /\ r = s + i /\ byte_at m r = c /\ forall j, i < j <= n -> byte_at m (s + j) <> c) \/
  (r = 0 /\ forall j, 0 <= j <= n -> byte_at m (s + j) <> c).

Lemma strchr_ok m s n c : addressable m -> is_cstr m s n ->
  exists r, strchr m s c = Done r /\ first_match m s n (u8 c) r.
Proof.
  intros Ha (Hs & Hn & Hl & H0 & Hnz). unfold strchr.
  apply (loop_total
    (fun p => exists i, 0 <= i <= n /\ p = s + i /\ forall j, 0 <= j < i -> byte_at m (s + j) <> u8 c)
    (fun p => Z.to_nat (s + n - p))).
  - intros ? (i & Hi & -> & Hne). unfold strchr_body. rewrite ld8_ok by lia. run_step.
    destruct (byte_at m (s + i) =? u8 c) eqn:E.
    { eexists. split; [done|]. left. exists i. split_and!; try done; lia. }
    destruct (decide (i = n)) as [->|].
    + rewrite H0 in *. cbn [Z.eqb]. eexists. split; [done|]. right. split; [done|].
      intros j Hj. destruct (decide (j = n)) as [->|]; [lia|]. apply Hne. lia.
    + specialize (Hnz i). replace (byte_at m (s + i) =? 0) with false by lia.
      eexists. split; [done|]. cbn. split; [|lia]. exists (i + 1).
      split_and!; [lia..|]. intros j Hj. destruct (decide (j = i)) as [->|]; [lia|].
      apply Hne. lia.
  - exists 0. split_and!; [lia..|]. intros; lia.
  - unfold mlen in *. lia.
Qed.

Lemma strrchr_scan_ok m s n : addressable m -> is_cstr m s n ->
  loop (S (length m)) (strrchr_scan_body m) (s, 0) = Done (u32 (s + n + 1), n + 1).
Proof.
  intros Ha (Hs & Hn & Hl & H0 & Hnz). unfold addressable in Ha.
  destruct (loop_total
    (fun st => exists i, 0 <= i <= n /\ st = (s + i, i))
    (fun st => Z.to_nat (n - snd st))
    (fun r => r = (u32 (s + n + 1), n + 1)) (strrchr_scan_body m)) with
    (fuel := S (length m)) (s := (s, 0)) as (r & -> & ->); [..|done].
  - intros ? (i & Hi & ->). unfold strrchr_scan_body. rewrite ld8_ok by lia. run_step.
    rewrite (wrap_small 32 (i + 1)) by lia. destruct (decide (i = n)) as [->|].
    + rewrite H0. cbn [Z.eqb]. by eexists.
    + specialize (Hnz i). replace (byte_at m (s + i) =? 0) with false by lia.
      rewrite wrap_small by lia. eexists. split; [done|]. cbn. split; [|lia].
      exists (i + 1). split; [lia|]. f_equal; lia.
  - exists 0. split; [lia|]. f_equal; lia.
  - cbn. unfold mlen in *. lia.
Qed.

Lemma strrchr_ok m s n c : addressable m -> is_cstr m s n ->
  exists r, strrchr m s c = Done r /\ last_match m s n (u8 c) r.
Proof.
  intros Ha Hc. unfold strrchr. rewrite (strrchr_scan_ok m s n) by done. run_step.
  destruct Hc as (Hs & Hn & Hl & H0 & Hnz). unfold addressable in Ha.
  unwrap. rewrite (wrap_small 32 (s + n + 1 - 1)) by lia.
  apply (loop_total
    (fun st => exists i, 0 <= i <= n /\ st = (s + i, i + 1) /\ forall j, i < j <= n -> byte_at m (s + j) <> u8 c)
    (fun st => Z.to_nat (snd st))).
  - intros ? (i & Hi & -> & Hne). unfold strrchr_back_body.
    replace (i + 1 =? 0) with false by lia. rewrite ld8_ok by lia. run_step.
    destruct (byte_at m (s + i) =? u8 c) eqn:E.
    { eexists. split; [done|]. left. exists i. split_and!; try done; lia. }
    rewrite (wrap_small 32 (i + 1 - 1)) by lia.
    destruct (decide (i = 0)) as [->|].
    + cbn [Z.eqb]. eexists. split; [done|]. right. split; [done|].
      intros j Hj. destruct (decide (j = 0)) as [->|]; [lia|]. apply Hne. lia.
    + replace (i + 1 - 1 =? 0) with false by lia. rewrite wrap_small by lia.
      eexists. split; [done|]. cbn. split; [|lia]. exists (i - 1).
      split_and!; [lia|lia|f_equal; lia|]. intros j Hj.
      destruct (decide (j = i)) as [->|]; [lia|]. apply Hne. lia.
  - exists n. split_and!; [lia..| |intros; lia]. f_equal; lia.
  - cbn. lia.
Qed.

(** ** Bounded copy and compare *)

(** Bytes [0..n) of the C string at [s], NUL-padded. *)
Definition padded (m : list Z) (s len i : Z) : Z :=
  if i <? len then byte_at m (s + i) else 0.

Lemma strncpy_ok m s1 s2 n len :
  is_cstr m s2 len -> 0 <= n < 2 ^ 32 -> 0 <= s1 -> s1 + n <= mlen m ->
  disjoint s1 n s2 (len + 1) ->
  exists m', strncpy m s1 s2 n = Done (m', s1) /\ updated m m' s1 n (padded m s2 len).
Proof.
  intros (Hs & Hl & Hm & H0 & Hnz) Hn Hs1 Hfit Hd. unfold strncpy.
  destruct (loop_total
    (fun st => let '(m', i, saw) := st in
       0 <= i <= n /\ saw = (len <? i) /\ updated m m' s1 i (padded m s2 len))
    (fun st => Z.to_nat (n - snd (fst st)))
    (fun m' => updated m m' s1 n (padded m s2 len)) (strncpy_body s1 s2 n)) with
    (fuel := S (Z.to_nat n)) (s := (m, 0, false)) as (m' & -> & Hu).
  - intros [[m' i] saw] (Hi & -> & Hu). unfold strncpy_body.
    destruct (i <? n) eqn:E; [|exists (inr m'); split; [done|]; by replace n with i by lia].
    assert (exists b saw', (if len <? i then Done (0, len <? i)
        else c ← ld8 m' (s2 + i); Done (c, if c =? 0 then true else len <? i)) = Done (b, saw')
        /\ b = padded m s2 len i /\ saw' = (len <? i + 1)) as (b & saw' & -> & Hb & ->).
    { unfold padded. destruct (len <? i) eqn:E'.
      - do 2 eexists. split_and!; [done| |lia]. by replace (i <? len) with false by lia.
      - rewrite ld8_ok by (destruct Hu as [-> _]; lia). run_step.
        rewrite (updated_outside _ _ _ _ _ _ Hu) by (unfold disjoint in Hd; lia).
        do 2 eexists. split_and!; [done| |].
        + destruct (i <? len) eqn:?; [done|]. by replace i with len by lia.
        + destruct (decide (i = len)) as [->|].
          * rewrite H0. cbn. lia.
          * specialize (Hnz i). replace (byte_at m (s2 + i) =? 0) with false by lia. lia. }
    run_step. destruct (updated_st8 m m' s1 i (padded m s2 len) b) as (m'' & -> & Hu'); try done; try lia.
    run_step. rewrite wrap_small by lia. eexists. split; [done|]. cbn. split_and!; try done; lia.
  - split_and!; [lia..|apply updated_refl].
  - cbn. lia.
  - eexists. split; [done|]. done.
Qed.

(** Lexicographic comparison of the strings cut at [n] bytes: the strings agree
    up to [k] and either end there, or the bound is reached, or they differ. *)
Definition compares (m : list Z) (s1 s2 n r : Z) : Prop :=
  exists k, 0 <= k <= n /\
    (forall i, 0 <= i < k -> byte_at m (s1 + i) = byte_at m (s2 + i) /\ byte_at m (s1 + i) <> 0) /\
    ((r = 0 /\ (k = n \/ byte_at m (s1 + k) = 0 /\ byte_at m (s2 + k) = 0)) \/
     (r = 1 /\ k < n /\ byte_at m (s2 + k) < byte_at m (s1 + k)) \/
     (r = -1 /\ k < n /\ byte_at m (s1 + k) < byte_at m (s2 + k))).

Lemma strncmp_ok m s1 s2 n l1 l2 :
  is_cstr m s1 l1 -> is_cstr m s2 l2 -> 0 <= n < 2 ^ 32 ->
  exists r, strncmp m s1 s2 n = Done r /\ compares m s1 s2 n r.
Proof.
  intros (Hs1 & Hl1 & Hm1 & H01 & Hn1) (Hs2 & Hl2 & Hm2 & H02 & Hn2) Hn. unfold strncmp.
  destruct (n =? 0) eqn:E0.
  { eexists. split; [done|]. exists 0. split_and!; [lia..|intros; lia|]. left. split; [done|left; lia]. }
  apply (loop_total
    (fun st => exists k, 0 <= k < n /\ st = (s1 + k, s2 + k, n - k) /\ k <= l1 /\ k <= l2 /\
       forall i, 0 <= i < k -> byte_at m (s1 + i) = byte_at m (s2 + i) /\ byte_at m (s1 + i) <> 0)
    (fun st => Z.to_nat (snd st))).
  - intros ? (k & Hk & -> & Hk1 & Hk2 & Heq). unfold strncmp_body. rewrite !ld8_ok by lia. run_step.
    destruct (byte_at m (s1 + k) =? byte_at m (s2 + k)) eqn:E; cbn [negb].
    2:{ eexists. split; [done|]. exists k. split_and!; [lia..|done|].
        destruct (byte_at m (s2 + k) <? byte_at m (s1 + k)) eqn:?; [right; left|right; right];
          split_and!; lia. }
    destruct (byte_at m (s1 + k) =? 0) eqn:E1.
    { eexists. split; [done|]. exists k. split_and!; [lia..|done|]. left. split; [done|right; lia]. }
    rewrite wrap_small by lia.
    assert (k <> l1) by (intros ->; lia). assert (k <> l2) by (intros ->; lia).
    assert (forall i, 0 <= i < k + 1 ->
      byte_at m (s1 + i) = byte_at m (s2 + i) /\ byte_at m (s1 + i) <> 0) as Heq'.
    { intros i Hi. destruct (decide (i = k)) as [->|]; [lia|apply Heq; lia]. }
    destruct (n - k - 1 =? 0) eqn:E2.
    + eexists. split; [done|]. exists (k + 1). split_and!; [lia..|done|]. left. split; [done|left; lia].
    + eexists. split; [done|]. cbn. split; [|lia]. exists (k + 1). split_and!; [lia..| | | |done]; try lia.
      apply f_equal2; [apply f_equal2|]; lia.
  - exists 0. split_and!; [lia..| | | |intros; lia]; try lia. apply f_equal2; [apply f_equal2|]; lia.
  - cbn. lia.
Qed.

(** ** Forward copy *)

(** The copies a forward pass gets right: leftwards, or onto other bytes. *)
Definition forward_safe (from to n : Z) : Prop := to <= from \/ from + n <= to.

Section Move.
Context (m : list Z) (from to n : Z).
Context (Hfrom : 0 <= from) (Hfit : from + n <= mlen m).
Context (Hto : 0 <= to) (Htofit : to + n <= mlen m).
Context (Hsafe : forward_safe from to n) (Hm : bytes m).

Definition moved (k : Z) (m' : list Z) : Prop :=
  updated m m' to k (fun i => byte_at m (from + i)).

Lemma moved_read k m' a : moved k m' -> 0 <= k -> from + k <= a < from + n ->
  byte_at m' a = byte_at m a.
Proof.
  intros Hmv Hk Ha. apply (updated_outside _ _ _ _ _ _ Hmv). unfold forward_safe in Hsafe. lia.
Qed.

Lemma movsb_step k m' : moved k m' -> 0 <= k < n ->
  exists m'', (b ← ld8 m' (from + k); st8 m' (to + k) b) = Done m'' /\ moved (k + 1) m''.
Proof.
  intros Hmv Hk. rewrite ld8_ok by (destruct Hmv as [-> _]; lia). run_step.
  rewrite (moved_read k) by (done || lia). by apply updated_st8; try lia.
Qed.

Lemma movsd_step k m' : moved k m' -> 0 <= k -> k + 4 <= n ->
  exists m'', (v ← ld32 m' (from + k); st32 m' (to + k) v) = Done m'' /\ moved (k + 4) m''.
Proof.
  intros Hmv Hk Hk4. pose proof Hmv as [Hlen Hb].
  rewrite ld32_ok by lia. run_step. rewrite st32_ok by lia.
  eexists. split; [done|]. split; [by rewrite mlen_write32|].
  intros a. rewrite byte_at_write32 by lia. unfold word_at.
  rewrite (moved_read k m' (from + k)), (moved_read k m' (from + k + 1)),
    (moved_read k m' (from + k + 2)), (moved_read k m' (from + k + 3)) by (done || lia).
  destruct ((to + k <=? a) && (a <? to + k + 4)) eqn:E.
  - rewrite byte_of_le4 by (lia || by apply byte_at_range).
    replace ((to <=? a) && (a <? to + (k + 4))) with true by lia.
    repeat case_match; try lia; (replace (from + (a - to)) with (from + k + (a - (to + k))) by lia);
      (f_equal; lia).
  - rewrite Hb. repeat case_match; try lia; done.
Qed.

Lemma movsb_loop k m' : moved k m' -> 0 <= k <= n -> n < 2 ^ 32 ->
  exists m'', loop (S (Z.to_nat (n - k))) movsb_body (m', from + k, to + k, n - k) = Done m''
    /\ moved n m''.
Proof.
  intros Hmv Hk Hn. apply (loop_total
    (fun st => exists k m', 0 <= k <= n /\ st = (m', from + k, to + k, n - k) /\ moved k m')
    (fun st => Z.to_nat (snd st))); [|by exists k, m'|cbn; lia].
  intros ? (k1 & m1 & Hk1 & -> & Hm1). unfold movsb_body.
  destruct (n - k1 =? 0) eqn:E; [exists (inr m1); split; [done|]; assert (n = k1) as <- by lia; done|].
  destruct (movsb_step k1 m1) as (m2 & E2 & Hm2); [done|lia|].
  run_inv. rewrite Hx. run_step. rewrite E2. run_step. rewrite wrap_small by lia.
  eexists. split; [done|]. cbn. split; [|lia]. exists (k1 + 1), m2. split_and!; [lia..| |done].
  apply f_equal2; [apply f_equal2; [apply f_equal2|]|]; done || lia.
Qed.

Lemma movsd_loop : 0 <= n < 2 ^ 32 ->
  exists m'', loop (S (Z.to_nat (n / 4))) movsd_body (m, from, to, n / 4)
    = Done (m'', from + n / 4 * 4, to + n / 4 * 4) /\ moved (n / 4 * 4) m''.
Proof.
  intros Hn. destruct (loop_total
    (fun st => exists k m', 0 <= k <= n / 4 /\
       st = (m', from + k * 4, to + k * 4, n / 4 - k) /\ moved (k * 4) m')
    (fun st => Z.to_nat (snd st))
    (fun r => exists m', r = (m', from + n / 4 * 4, to + n / 4 * 4) /\ moved (n / 4 * 4) m')
    movsd_body) with (fuel := S (Z.to_nat (n / 4))) (s := (m, from, to, n / 4))
    as (? & E & m' & -> & Hmv); [| |cbn; lia|by exists m'].
  - intros ? (k1 & m1 & Hk1 & -> & Hm1). unfold movsd_body.
    destruct (n / 4 - k1 =? 0) eqn:E.
    { eexists. split; [done|]. exists m1. by replace (n / 4) with k1 by lia. }
    destruct (movsd_step (k1 * 4) m1) as (m2 & E2 & Hm2);
      [done|lia|Z.div_mod_to_equations; lia|].
    run_inv. rewrite Hx. run_step. rewrite E2. run_step.
    rewrite wrap_small by (Z.div_mod_to_equations; lia).
    eexists. split; [done|]. cbn. split; [|lia]. exists (k1 + 1), m2.
    split_and!; [lia..| |by replace ((k1 + 1) * 4) with (k1 * 4 + 4) by lia].
    apply f_equal2; [apply f_equal2; [apply f_equal2|]|]; done || lia.
  - exists 0, m. split_and!; [lia|Z.div_mod_to_equations; lia| |apply updated_refl].
    apply f_equal2; [apply f_equal2; [apply f_equal2|]|]; done || lia.
Qed.

Lemma memmove_ok : 0 <= n < 2 ^ 31 ->
  exists m', memmove m from to n = Done m' /\ moved n m'.
Proof.
  intros Hn. unfold memmove. rewrite as_signed_small by lia.
  destruct (n <=? 0) eqn:E.
  { exists m. split; [done|]. replace n with 0 by lia. apply updated_refl. }
  change (not32 3) with (2 ^ 32 - 2 ^ 2). rewrite (land_align 32 2 n) by lia.
  unfold align_down. change (2 ^ 2) with 4. rewrite (land_mask n 2 3) by lia.
  rewrite Z.shiftr_div_pow2 by lia. change (2 ^ 2) with 4.
  destruct (n / 4 * 4 =? 0) eqn:E4; cbn [negb].
  - pose proof (movsb_loop 0 m) as H.
    replace (n - 0) with n in H by lia. replace (from + 0) with from in H by lia.
    replace (to + 0) with to in H by lia. apply H; [apply updated_refl|lia..].
  - destruct movsd_loop as (m2 & -> & Hm2); [lia|]. run_step. unfold wrap. change (2 ^ 2) with 4.
    destruct (n mod 4 =? 0) eqn:Em.
    + exists m2. split; [done|]. by assert (n / 4 * 4 = n) as <- by (Z.div_mod_to_equations; lia).
    + replace (n mod 4) with (n - n / 4 * 4) by (Z.div_mod_to_equations; lia).
      apply movsb_loop; [done|Z.div_mod_to_equations; lia|lia].
Qed.
End Move.

Lemma compares_swap m s1 s2 n r : compares m s1 s2 n r -> compares m s2 s1 n (- r).
Proof.
  intros (k & Hk & Heq & H). exists k. split_and!; [lia..| |].
  - intros i Hi. destruct (Heq i Hi) as [E ?]. by rewrite <- E.
  - destruct H as [(-> & H)|[(-> & H)|(-> & H)]]; [left|right; right|right; left];
      split; try done; tauto.
Qed.

(** A comparison has one result. *)
Lemma compares_unique m s1 s2 n r r' :
  compares m s1 s2 n r -> compares m s1 s2 n r' -> r = r'.
Proof.
  intros (k & Hk & Heq & H) (k' & Hk' & Heq' & H').
  destruct (Z.lt_trichotomy k k') as [L|[->|L]].
  - destruct (Heq' k) as [? ?]; lia.
  - lia.
  - destruct (Heq k') as [? ?]; lia.
Qed.

(** ** Theorems *)

(** On a string of [n] bytes stored at [s], [strlen] returns [n], [strchr]
    the address of the first and [strrchr] that of the last byte equal to the low
    byte of [c], the terminating NUL included, and NULL when there is none; all
    three return. *)
Theorem string_search m s n c : addressable m -> is_cstr m s n ->
  strlen m s = Done n /\
  (exists r, strchr m s c = Done r /\ first_match m s n (u8 c) r) /\
  (exists r, strrchr m s c = Done r /\ last_match m s n (u8 c) r).
Proof. intros. split_and!; [by apply strlen_ok|by apply strchr_ok|by apply strrchr_ok]. Qed.

(** [strncpy] writes exactly the [n] bytes of its window, the string followed
    by NUL padding, or its first [n] bytes when it is longer, returns [s1], and
    leaves every other byte of memory as it was. *)
Theorem strncpy_window m s1 s2 n len :
  is_cstr m s2 len -> 0 <= n < 2 ^ 32 -> 0 <= s1 -> s1 + n <= mlen m ->
  disjoint s1 n s2 (len + 1) ->
  exists m', strncpy m s1 s2 n = Done (m', s1) /\ mlen m' = mlen m /\
    forall a, byte_at m' a =
      if (s1 <=? a) && (a <? s1 + n)
      then (if a - s1 <? len then byte_at m (s2 + (a - s1)) else 0)
      else byte_at m a.
Proof.
  intros Hc Hn H0 Hfit Hd. destruct (strncpy_ok m s1 s2 n len) as (m' & E & Hl & Hu); try done.
  by exists m'.
Qed.

(** [strncmp] returns the lexicographic order, by unsigned bytes, of the two
    strings cut at [n] bytes, and comparing the other way round returns the
    opposite. *)
Theorem strncmp_orders m s1 s2 n l1 l2 :
  is_cstr m s1 l1 -> is_cstr m s2 l2 -> 0 <= n < 2 ^ 32 ->
  exists r, strncmp m s1 s2 n = Done r /\ compares m s1 s2 n r /\
    strncmp m s2 s1 n = Done (- r).
Proof.
  intros H1 H2 Hn. destruct (strncmp_ok m s1 s2 n l1 l2) as (r & E & Hr); try done.
  destruct (strncmp_ok m s2 s1 n l2 l1) as (r' & E' & Hr'); try done.
  exists r. split_and!; try done. rewrite E'. f_equal.
  apply (compares_unique _ _ _ _ _ _ Hr' (compares_swap _ _ _ _ _ Hr)).
Qed.

(** For a count that is positive as a signed number, and a destination that
    starts at or below the source or does not overlap it, [memmove]'s dword and
    tail passes together copy exactly the original [n] source bytes and touch
    nothing else; a count that is not positive changes nothing. *)
Theorem memmove_copies m from to n :
  bytes m -> 0 <= n < 2 ^ 32 ->
  (n < 2 ^ 31 -> 0 <= from /\ from + n <= mlen m /\ 0 <= to /\ to + n <= mlen m /\
     forward_safe from to n) ->
  exists m', memmove m from to n = Done m' /\ mlen m' = mlen m /\
    forall a, byte_at m' a =
      if (n <? 2 ^ 31) && (to <=? a) && (a <? to + n)
      then byte_at m (from + (a - to)) else byte_at m a.
Proof.
  intros Hm Hn H. destruct (n <? 2 ^ 31) eqn:E; cbn [andb].
  - destruct H as (?&?&?&?&?); [lia|].
    destruct (memmove_ok m from to n) as (m' & E' & Hl & Hu); try done; [lia|].
    by exists m'.
  - exists m. split_and!; try done. unfold memmove, as_signed.
    change (2 ^ (32 - 1)) with (2 ^ 31). rewrite E.
    by replace (n - 2 ^ 32 <=? 0) with true by lia.
Qed.

(** ** Witnesses *)

(** "abcab", a gap, "abd". *)
Definition sample : list Z := [255; 97; 98; 99; 97; 98; 0; 7; 7; 7; 97; 98; 100; 0; 1].

Lemma string_search_witness :
  strlen sample 1 = Done 5 /\ strchr sample 1 98 = Done 2 /\ strrchr sample 1 98 = Done 5.
Proof.
  destruct (string_search sample 1 5 98) as (H1 & (r & H2 & _) & (r' & H3 & _));
    [by unfold addressable|by apply is_cstrb_ok|].
  split_and!; [exact H1|vm_compute in H2 |- *; done|vm_compute in H3 |- *; done].
Defined.

Lemma strncpy_window_witness : exists m', strncpy sample 7 10 3 = Done (m', 7) /\
  byte_at m' 9 = 100.
Proof.
  destruct (strncpy_window sample 7 10 3 3) as (m' & E & _ & H);
    [by apply is_cstrb_ok|lia..|unfold mlen; cbn; lia|unfold disjoint; lia|].
  exists m'. split; [exact E|]. rewrite H. reflexivity.
Defined.

Lemma strncmp_orders_witness : exists r, strncmp sample 1 10 3 = Done r /\ r = -1.
Proof.
  destruct (strncmp_orders sample 1 10 3 5 3) as (r & E & _);
    [by apply is_cstrb_ok|by apply is_cstrb_ok|lia|].
  exists r. split; [exact E|]. vm_compute in E. by injection E.
Defined.

Lemma memmove_copies_witness : exists m', memmove sample 2 1 6 = Done m' /\ byte_at m' 5 = 0.
Proof.
  destruct (memmove_copies sample 2 1 6) as (m' & E & _ & H).
  - unfold sample. repeat constructor; unfold is_byte; lia.
  - lia.
  - intros _. unfold mlen, forward_safe. cbn. lia.
  - exists m'. split; [exact E|]. rewrite H. reflexivity.
Defined.
