(* ===== verification/Unicode.v ===== *)
(** * Character codes: UTF-8, UTF-16, CP866 and case folding

    [unicode.rs], [utf8to16.rs], [casefold.rs] and the single-character part of
    [utf16_to_8.rs].  Registers are 32-bit patterns, manipulated byte by byte as
    the code does ([set_al] replaces [AL] in [EAX]); the reference encodings
    [utf8_bytes] and [utf8_ref] are plain arithmetic. *)

From stdpp Require Import base list.
From Stdlib Require Import ZArith Lia.
From S2P Require Import Prelude.

(** ** Register pieces *)

(** [(eax & 0xffff_ff00) | al] *)
Definition set_al (eax al : Z) : Z := Z.lor (Z.land eax 0xffffff00) al.
(** [(eax & 0xffff_0000) | ax] *)
Definition set_ax (eax ax : Z) : Z := Z.lor (Z.land eax 0xffff0000) ax.
(** [x & 1 == 1] of a shifted byte: the carry of a left shift. *)
Definition bit_at (x k : Z) : bool := Z.land (Z.shiftr x k) 1 =? 1.
(** [al.wrapping_shl(k)] on a byte. *)
Definition shl8 (al k : Z) : Z := u8 (Z.shiftl al k).
Definition rotate_right (x k : Z) : Z := Z.lor (Z.shiftr x k) (x <<ₘ (32 - k)).

(** ** [unicode.rs]: UTF-8 decoding *)

Record Utf8DecodeStep := mkStep { codepoint : Z; consumed : Z }.

#[global] Instance Utf8DecodeStep_eq_dec : EqDecision Utf8DecodeStep.
Proof. solve_decision. Defined.

Definition error_step : Utf8DecodeStep := mkStep 0xFFFD 1.

Definition cont_ok (al_in : Z) : option Z :=
  let cf1 := bit_at al_in 7 in
  let al := shl8 al_in 1 in
  if negb cf1 then None
  else
    let cf2 := bit_at al 7 in
    let al := shl8 al 1 in
    if cf2 then None else Some al.

Definition read2 (input : list Z) (eax esi ecx : Z) : run Utf8DecodeStep :=
  if ecx <? 2 then Done error_step
  else
    let eax := eax <<ₘ 5 in
    c1 ← ld8 input (esi + 1);
    let eax := set_al eax c1 in
    match cont_ok c1 with
    | None => Done error_step
    | Some new_al =>
        let eax := set_al eax new_al in
        Done (mkStep (Z.shiftr eax 2) 2)
    end.

Definition read3 (input : list Z) (eax esi ecx : Z) : run Utf8DecodeStep :=
  if ecx <? 3 then Done error_step
  else
    let eax := eax <<ₘ 4 in
    c1 ← ld8 input (esi + 1);
    let eax := set_al eax c1 in
    match cont_ok c1 with
    | None => Done error_step
    | Some new_al =>
        let eax := set_al eax new_al in
        let eax := eax <<ₘ 6 in
        c2 ← ld8 input (esi + 2);
        let eax := set_al eax c2 in
        match cont_ok c2 with
        | None => Done error_step
        | Some new_al =>
            let eax := set_al eax new_al in
            Done (mkStep (Z.shiftr eax 2) 3)
        end
    end.

Definition read4 (input : list Z) (eax esi ecx : Z) : run Utf8DecodeStep :=
  if ecx <? 4 then Done error_step
  else
    let eax := eax <<ₘ 3 in
    c1 ← ld8 input (esi + 1);
    let eax := set_al eax c1 in
    match cont_ok c1 with
    | None => Done error_step
    | Some new_al =>
        let eax := set_al eax new_al in
        let eax := eax <<ₘ 6 in
        c2 ← ld8 input (esi + 2);
        let eax := set_al eax c2 in
        match cont_ok c2 with
        | None => Done error_step
        | Some new_al =>
            let eax := set_al eax new_al in
            let eax := eax <<ₘ 6 in
            c3 ← ld8 input (esi + 3);
            let eax := set_al eax c3 in
            match cont_ok c3 with
            | None => Done error_step
            | Some new_al =>
                let eax := set_al eax new_al in
                Done (mkStep (Z.shiftr eax 2) 4)
            end
        end
    end.

Definition utf8_decode (input : list Z) : run (option Utf8DecodeStep) :=
  if mlen input =? 0 then Done None
  else
    eax ← ld8 input 0;
    let esi := 0 in
    let ecx := mlen input in
    if Z.land (u8 eax) 0x80 =? 0 then Done (Some (mkStep eax 1))
    else
      let al := u8 eax in
      let cf := bit_at al 6 in
      let al := shl8 al 2 in
      let eax := set_al eax al in
      if negb cf then Done (Some error_step)
      else
        let cf := bit_at al 7 in
        let al := shl8 al 1 in
        let eax := set_al eax al in
        if negb cf then Some <$> read2 input eax esi ecx
        else
          let cf := bit_at al 7 in
          let al := shl8 al 1 in
          let eax := set_al eax al in
          if negb cf then Some <$> read3 input eax esi ecx
          else
            let cf := bit_at al 7 in
            let al := shl8 al 1 in
            let eax := set_al eax al in
            if negb cf then Some <$> read4 input eax esi ecx
            else Done (Some error_step).

(** ** [unicode.rs]: UTF-16 and CP866 *)

Definition utf16_encode (cp : Z) : Z :=
  if 0x110000 <=? cp then 0xFFFD
  else if 0x10000 <=? cp then
    let eax := cp - 0x10000 in
    let eax := eax <<ₘ 6 in
    let ax := Z.shiftr (u16 eax) 6 in
    let eax := set_ax eax ax in
    let eax := rotate_right eax 16 in
    Z.lor eax 0xDC00D800
  else if 0xE000 <=? cp then cp
  else if cp <? 0xD800 then cp
  else 0xFFFD.

Definition cp866_table : list Z := [0x01; 0x51; 0x04; 0x54; 0x07; 0x57; 0x0E; 0x5E].

Definition special_f0_table (idx : Z) : Z :=
  let i := Z.land idx 7 in
  let t := default 0 (cp866_table !! Z.to_nat i) in
  u16 (t + 0x400).

Definition cp866_decode (ch : Z) : Z :=
  let al := u8 ch in
  if al <? 0x80 then (if al =? 20 then 0x00B6 else al)
  else if al <? 0xB0 then u16 (al + (0x410 - 0x80))
  else if al <? 0xE0 then 95
  else if al <? 0xF0 then u16 (al + (0x440 - 0xE0))
  else if al <? 0xF8 then special_f0_table (al - 0xF0)
  else 95.

(** State: [ecx], [i]. *)
Definition special_40x_body (al : Z) (st : Z * Z) : run (Z * Z + Z) :=
  let '(ecx, i) := st in
  if i <? 8 then
    let ecx := u8 (ecx - 1) in
    t ← ld8 cp866_table i;
    if t =? al then Done (inr (u8 (0xF7 - ecx))) else Done (inl (ecx, i + 1))
  else Done (inr 95).

Definition special_40x (ax : Z) : run Z := loop 9 (special_40x_body (u8 ax)) (8, 0).

Definition cp866_encode (cp : Z) : run Z :=
  let ax := u16 cp in
  if ax <? 0x80 then Done (u8 ax)
  else if ax =? 0xB6 then Done 20
  else if ax <? 0x400 then Done 95
  else if ax <? 0x410 then special_40x ax
  else if ax <? 0x440 then Done (u8 (u8 ax + 0x70))
  else if ax <? 0x450 then Done (u8 (u8 ax + 0xA0))
  else if ax <? 0x460 then special_40x ax
  else Done 95.

(** ** [casefold.rs] *)

Definition cp866_to_upper (ch : Z) : Z :=
  if ch <? 97 then ch
  else if ch <=? 122 then u8 (ch - 32)
  else if ch <? 0xA0 then ch
  else if ch <? 0xB0 then u8 (ch - 32)
  else if ch <? 0xE0 then ch
  else if ch <? 0xF0 then u8 (ch - (0xE0 - 0x90))
  else if 0xF7 <? ch then ch
  else Z.land ch 0xFE.

Definition utf16_to_upper (ch : Z) : Z :=
  if ch <? 97 then ch
  else if ch <=? 122 then u16 (ch - 32)
  else if ch <? 0x0430 then ch
  else if ch <? 0x0450 then u16 (ch - 32)
  else if 0x0460 <=? ch then ch
  else u16 (ch - 80).

(** ** [utf8to16.rs]: the register-chained decoder *)

Record Utf8To16Result := mkU16 { u_eax : Z; u_consumed : Z }.

#[global] Instance Utf8To16Result_eq_dec : EqDecision Utf8To16Result.
Proof. solve_decision. Defined.

Definition shl_al_cf (al count : Z) : Z * bool :=
  let cf := bit_at al (8 - count) in (shl8 al count, cf).

Definition got (eax esi : Z) : Utf8To16Result := mkU16 (Z.land eax 0xffff00ff) esi.

(** Where the nested loops stand: before a lead byte, or gathering. *)
Inductive u8pos := Lead (esi eax : Z) | Gather (esi eax : Z).

Definition gather_body (input : list Z) (esi eax : Z) : run (u8pos + Utf8To16Result) :=
  let ax := u16 (Z.shiftl (u16 eax) 8) in
  let eax := set_ax eax ax in
  al2 ← ld8 input esi;
  let esi := esi + 1 in
  let eax := set_al eax al2 in
  if Z.land (u8 eax) 0x80 =? 0 then Done (inr (got eax esi))
  else
    let '(al3, cf_cont) := shl_al_cf (u8 eax) 2 in
    let eax := set_al eax al3 in
    if cf_cont : bool then Done (inl (Gather esi eax))
    else
      let ah := Z.shiftr (u8 (Z.shiftr eax 8)) 2 in
      let eax := Z.lor (Z.land eax 0xffff00ff) (ah <<ₘ 8) in
      let ax_in := u16 eax in
      let cf_ax := bit_at ax_in 13 in
      let ax_out := u16 (Z.shiftl ax_in 3) in
      let eax := set_ax eax ax_out in
      if negb cf_ax then
        let ax_fin := Z.shiftr (u16 eax) 5 in
        let eax := set_ax eax ax_fin in
        Done (inr (mkU16 eax esi))
      else
        let eax := eax <<ₘ 3 in
        al4 ← ld8 input esi;
        let esi := esi + 1 in
        let eax := set_al eax al4 in
        if Z.land (u8 eax) 0x80 =? 0 then Done (inr (got eax esi))
        else
          let '(al5, cf_again) := shl_al_cf (u8 eax) 2 in
          let eax := set_al eax al5 in
          if cf_again : bool then Done (inl (Gather esi eax))
          else Done (inr (mkU16 (Z.shiftr eax 2) esi)).

Definition utf8to16_body (input : list Z) (st : u8pos) : run (u8pos + Utf8To16Result) :=
  match st with
  | Lead esi eax =>
      al0 ← ld8 input esi;
      let esi := esi + 1 in
      let eax := set_al eax al0 in
      if Z.land (u8 eax) 0x80 =? 0 then Done (inr (got eax esi))
      else
        let '(al1, cf_lead) := shl_al_cf (u8 eax) 2 in
        let eax := set_al eax al1 in
        if negb cf_lead then Done (inl (Lead esi eax))
        else Done (inl (Gather esi eax))
  | Gather esi eax => gather_body input esi eax
  end.

Definition utf8to16 (input : list Z) (initial_eax : Z) : run Utf8To16Result :=
  loop (S (length input)) (utf8to16_body input) (Lead 0 initial_eax).

(** The pointer form reads memory [m] from [*esi_inout]; it returns the advanced
    pointer and [EAX]. *)
Definition utf8to16_ptr (m : list Z) (esi_inout initial_eax : Z) : run (Z * Z) :=
  r ← loop (S (length m)) (utf8to16_body m) (Lead esi_inout initial_eax);
  Done (u_consumed r, u_eax r).

(** ** [utf16_to_8.rs]: one code unit to UTF-8 *)

Record Utf16To8Result := mkU8 { r_eax : Z; r_ecx : Z; edi_delta : Z; r_sf : Z }.

#[global] Instance Utf16To8Result_eq_dec : EqDecision Utf16To8Result.
Proof. solve_decision. Defined.

Definition pack_sf_eax (sf eax : Z) : Z := Z.lor (sf <<ₘ 31) (Z.land eax 0x7FFFFFFF).
Definition unpack_sf_eax (packed : Z) : Z * Z := (Z.shiftr packed 31, Z.land packed 0x7FFFFFFF).
Definition trampoline_sf_from_packed (packed : Z) : bool := as_i32 packed <? 0.
Definition trampoline_eax_from_packed (packed : Z) : Z := Z.land packed 0x7FFFFFFF.

Definition dec_ecx (ecx : Z) : Z * bool :=
  let r := ecx -ₘ 1 in
  let sf := negb (Z.land r 0x80000000 =? 0) in
  (r, sf).

Definition encode_2byte (c : Z) : Z * list Z :=
  let eax := c <<ₘ 2 in
  let al := Z.shiftr (u8 eax) 2 in
  let eax := set_al eax al in
  let eax := Z.lor eax 0xC080 in
  let al := Z.land eax 0xFF in
  let ah := Z.land (Z.shiftr eax 8) 0xFF in
  let eax := Z.lor (Z.lor (Z.land eax 0xffff0000) (al <<ₘ 8)) ah in
  let b0 := u8 (Z.land eax 0xFF) in
  let b1 := u8 (Z.land (Z.shiftr eax 8) 0xFF) in
  (eax, [b0; b1]).

Definition swap_bytes (v : Z) : Z := le4 (byte_of v 3) (byte_of v 2) (byte_of v 1) (byte_of v 0).

Definition encode_3byte (c : Z) : Z * list Z :=
  let eax := c <<ₘ 4 in
  let ax := Z.shiftr (u16 eax) 2 in
  let eax := set_ax eax ax in
  let al := Z.shiftr (u8 eax) 2 in
  let eax := set_al eax al in
  let eax := Z.lor eax 0x00E08080 in
  let eax := swap_bytes eax in
  let eax := Z.shiftr eax 8 in
  let b0 := u8 (Z.land eax 0xFF) in
  let eax := Z.shiftr eax 8 in
  let b1 := u8 (Z.land eax 0xFF) in
  let b2 := u8 (Z.land (Z.shiftr eax 8) 0xFF) in
  (eax, [b0; b1; b2]).

Definition utf16_to_8 (m : list Z) (ax dest ecx_in : Z) : run (list Z * Utf16To8Result) :=
  let eax := ax in
  let '(ecx, sf) := dec_ecx ecx_in in
  if sf : bool then Done (m, mkU8 eax ecx 0 1)
  else if eax <? 0x80 then
    m ← st8 m dest (u8 eax);
    Done (m, mkU8 eax ecx 1 0)
  else
    let '(ecx, sf) := dec_ecx ecx in
    if sf : bool then Done (m, mkU8 eax ecx 0 1)
    else if eax <? 0x800 then
      let '(res, bs) := encode_2byte eax in
      m ← st8 m dest (byte_at bs 0);
      m ← st8 m (dest + 1) (byte_at bs 1);
      Done (m, mkU8 res ecx 2 0)
    else
      let '(ecx, sf) := dec_ecx ecx in
      if sf : bool then Done (m, mkU8 eax ecx 0 1)
      else
        let '(res, bs) := encode_3byte eax in
        m ← st8 m dest (byte_at bs 0);
        m ← st8 m (dest + 1) (byte_at bs 1);
        m ← st8 m (dest + 2) (byte_at bs 2);
        Done (m, mkU8 res ecx 3 0).

(** Returns memory, the advanced [*dest_inout], the new [*ecx_inout] and the
    packed result. *)
Definition utf16_to_8_ptr (m : list Z) (ch dest ecx_in : Z) : run (list Z * Z * Z * Z) :=
  '(m, r) ← utf16_to_8 m (u16 ch) dest ecx_in;
  let dest := if negb (edi_delta r =? 0) then dest + edi_delta r else dest in
  Done (m, dest, r_ecx r, pack_sf_eax (r_sf r) (r_eax r)).

(** ** Reference encodings *)

(** UTF-8 of a code unit, surrogates encoded like any other unit. *)
Definition utf8_bytes (c : Z) : list Z :=
  if c <? 0x80 then [c]
  else if c <? 0x800 then [0xC0 + c / 64; 0x80 + c mod 64]
  else [0xE0 + c / 4096; 0x80 + c / 64 mod 64; 0x80 + c mod 64].

(** Payload of a continuation byte. *)
Definition cont (b : Z) : option Z :=
  if (0x80 <=? b) && (b <? 0xC0) then Some (b - 0x80) else None.

(** Decoding of the first character, as UTF-8 defines it. *)
Definition utf8_ref (input : list Z) : option Utf8DecodeStep :=
  match input with
  | [] => None
  | b0 :: t => Some (default error_step (
      if b0 <? 0x80 then Some (mkStep b0 1)
      else if b0 <? 0xC0 then None
      else if b0 <? 0xE0 then
        b1 ← t !! 0%nat; x1 ← cont b1;
        Some (mkStep ((b0 - 0xC0) * 64 + x1) 2)
      else if b0 <? 0xF0 then
        b1 ← t !! 0%nat; b2 ← t !! 1%nat; x1 ← cont b1; x2 ← cont b2;
        Some (mkStep (((b0 - 0xE0) * 64 + x1) * 64 + x2) 3)
      else if b0 <? 0xF8 then
        b1 ← t !! 0%nat; b2 ← t !! 1%nat; b3 ← t !! 2%nat;
        x1 ← cont b1; x2 ← cont b2; x3 ← cont b3;
        Some (mkStep ((((b0 - 0xF0) * 64 + x1) * 64 + x2) * 64 + x3) 4)
      else None))
  end.

(** ** Register arithmetic *)

Lemma set_al_eq eax al : 0 <= eax < 2 ^ 32 -> 0 <= al < 256 ->
  set_al eax al = eax / 256 * 256 + al.
Proof. intros. by apply (set_low 32 8). Qed.

Lemma set_ax_eq eax ax : 0 <= eax < 2 ^ 32 -> 0 <= ax < 65536 ->
  set_ax eax ax = eax / 65536 * 65536 + ax.
Proof. intros. by apply (set_low 32 16). Qed.

Lemma shl8_eq al k : 0 <= k -> shl8 al k = al * 2 ^ k mod 256.
Proof. intros. unfold shl8, wrap. by rewrite Z.shiftl_mul_pow2. Qed.

(** Turn register operations on bounded values into division and remainder. *)
Ltac regs := rewrite ?shl8_eq, ?shl32_eq, ?shr_eq by lia; unfold wrap;
  repeat match goal with |- context [2 ^ ?k] =>
    let v := eval vm_compute in (2 ^ k) in change (2 ^ k) with v end.

(** ** UTF-8 decoding *)

Lemma cont_ok_eq b : is_byte b -> cont_ok b = (fun x => x * 4) <$> cont b.
Proof.
  intros Hb. apply (bool_decide_unpack _), Is_true_true. revert b Hb.
  apply (forall_range_spec 0 256 (fun b => bool_decide (cont_ok b = (fun x => x * 4) <$> cont b))).
  vm_compute. done.
Qed.

(** What the shifts of the lead byte leave in the flags and in [EAX]. *)
Definition lead_ok (b : Z) : bool :=
  let a1 := shl8 (u8 b) 2 in let e1 := set_al b a1 in
  let a2 := shl8 a1 1 in let e2 := set_al e1 a2 in
  let a3 := shl8 a2 1 in let e3 := set_al e2 a3 in
  let a4 := shl8 a3 1 in let e4 := set_al e3 a4 in
  eqb (Z.land (u8 b) 0x80 =? 0) (b <? 0x80) &&
  (if b <? 0x80 then true else
   eqb (negb (bit_at (u8 b) 6)) (b <? 0xC0) &&
   (if b <? 0xC0 then true else
    eqb (negb (bit_at a1 7)) (b <? 0xE0) &&
    (if b <? 0xE0 then e2 =? (b - 0xC0) * 8 else
     eqb (negb (bit_at a2 7)) (b <? 0xF0) &&
     (if b <? 0xF0 then e3 =? (b - 0xE0) * 16 else
      eqb (negb (bit_at a3 7)) (b <? 0xF8) &&
      (if b <? 0xF8 then e4 =? (b - 0xF0) * 32 else true))))).

Lemma lead_ok_all b : is_byte b -> lead_ok b = true.
Proof. apply (forall_range_spec 0 256). vm_compute. done. Qed.

Lemma utf8_decode_lead b t : is_byte b ->
  utf8_decode (b :: t) =
  (let n := mlen (b :: t) in
   if b <? 0x80 then Done (Some (mkStep b 1))
   else if b <? 0xC0 then Done (Some error_step)
   else if b <? 0xE0 then Some <$> read2 (b :: t) ((b - 0xC0) * 8) 0 n
   else if b <? 0xF0 then Some <$> read3 (b :: t) ((b - 0xE0) * 16) 0 n
   else if b <? 0xF8 then Some <$> read4 (b :: t) ((b - 0xF0) * 32) 0 n
   else Done (Some error_step)).
Proof.
  intros Hb. unfold utf8_decode.
  assert (0 < mlen (b :: t)) as Hn by (unfold mlen; cbn [length]; lia).
  replace (mlen (b :: t) =? 0) with false by lia.
  pose proof (lead_ok_all b Hb) as H. unfold lead_ok in H.
  change (ld8 (b :: t) 0) with (Done b). run_step. cbn zeta.
  repeat match type of H with
  | _ && _ = true => let H1 := fresh in apply andb_true_iff in H as [H1 H];
      apply eqb_prop in H1; rewrite H1
  | (if ?c then _ else _) = true => destruct c; [try done|]
  end; try done; apply Z.eqb_eq in H; by rewrite H.
Qed.

Lemma cont_range b x : cont b = Some x -> 0 <= x < 64.
Proof. unfold cont. case_match; [|done]. intros [= <-]. lia. Qed.

(** Folding one continuation byte into the accumulator. *)
Lemma fold_cont a c x : is_byte c -> 0 <= x < 64 -> 0 <= a < 2 ^ 24 ->
  set_al (set_al (a * 256) c) (x * 4) = (a * 64 + x) * 4.
Proof.
  unfold is_byte. intros. rewrite (set_al_eq (a * 256)) by lia.
  rewrite Z.div_mul by lia. rewrite set_al_eq by lia. Z.div_mod_to_equations. lia.
Qed.

Lemma shr2 a : Z.shiftr (a * 4) 2 = a.
Proof. rewrite shr_eq by lia. change (2 ^ 2) with 4. apply Z.div_mul. lia. Qed.

(** One continuation byte, checked and folded in. *)
Ltac fold_byte a x c := 
  rewrite (cont_ok_eq c) by done;
  destruct (cont c) as [x|] eqn:?; cbn [fmap option_fmap option_map]; [|done];
  let H := fresh in assert (0 <= x < 64) as H by (by eapply cont_range);
  rewrite (fold_cont a c x) by (done || lia).

Lemma read2_eq b t x : bytes t -> 0 <= x < 32 ->
  read2 (b :: t) (x * 8) 0 (mlen (b :: t)) =
  Done (default error_step (b1 ← t !! 0%nat; x1 ← cont b1; Some (mkStep (x * 64 + x1) 2))).
Proof.
  intros Ht Hx. unfold read2. destruct t as [|b1 t]; [done|].
  rewrite !mlen_cons. pose proof (mlen_nonneg t). replace (mlen t + 1 + 1 <? 2) with false by lia.
  inversion_clear Ht. change (ld8 (b :: b1 :: t) (0 + 1)) with (Done b1). run_step. cbn.
  rewrite shl_fold by lia. replace (x * 8 * 2 ^ 5) with (x * 256) by lia.
  fold_byte x x1 b1. cbn. by rewrite shr2.
Qed.

Lemma read3_eq b t x : bytes t -> 0 <= x < 16 ->
  read3 (b :: t) (x * 16) 0 (mlen (b :: t)) =
  Done (default error_step (b1 ← t !! 0%nat; b2 ← t !! 1%nat; x1 ← cont b1; x2 ← cont b2;
    Some (mkStep ((x * 64 + x1) * 64 + x2) 3))).
Proof.
  intros Ht Hx. unfold read3. destruct t as [|b1 [|b2 t]]; [done..|].
  rewrite !mlen_cons. pose proof (mlen_nonneg t). replace (mlen t + 1 + 1 + 1 <? 3) with false by lia.
  inversion_clear Ht as [|? ? ? Ht']. inversion_clear Ht'.
  change (ld8 (b :: b1 :: b2 :: t) (0 + 1)) with (Done b1).
  change (ld8 (b :: b1 :: b2 :: t) (0 + 2)) with (Done b2). run_step. cbn.
  rewrite shl_fold by lia. replace (x * 16 * 2 ^ 4) with (x * 256) by lia.
  fold_byte x x1 b1. cbn.
  rewrite shl_fold by lia. replace ((x * 64 + x1) * 4 * 2 ^ 6) with ((x * 64 + x1) * 256) by lia.
  fold_byte (x * 64 + x1) x2 b2. cbn. by rewrite shr2.
Qed.

Lemma read4_eq b t x : bytes t -> 0 <= x < 8 ->
  read4 (b :: t) (x * 32) 0 (mlen (b :: t)) =
  Done (default error_step (b1 ← t !! 0%nat; b2 ← t !! 1%nat; b3 ← t !! 2%nat;
    x1 ← cont b1; x2 ← cont b2; x3 ← cont b3;
    Some (mkStep (((x * 64 + x1) * 64 + x2) * 64 + x3) 4))).
Proof.
  intros Ht Hx. unfold read4. destruct t as [|b1 [|b2 [|b3 t]]]; [done..|].
  rewrite !mlen_cons. pose proof (mlen_nonneg t).
  replace (mlen t + 1 + 1 + 1 + 1 <? 4) with false by lia.
  inversion_clear Ht as [|? ? ? Ht']. inversion_clear Ht' as [|? ? ? Ht'']. inversion_clear Ht''.
  change (ld8 (b :: b1 :: b2 :: b3 :: t) (0 + 1)) with (Done b1).
  change (ld8 (b :: b1 :: b2 :: b3 :: t) (0 + 2)) with (Done b2).
  change (ld8 (b :: b1 :: b2 :: b3 :: t) (0 + 3)) with (Done b3). run_step. cbn.
  rewrite shl_fold by lia. replace (x * 32 * 2 ^ 3) with (x * 256) by lia.
  fold_byte x x1 b1. cbn.
  rewrite shl_fold by lia. replace ((x * 64 + x1) * 4 * 2 ^ 6) with ((x * 64 + x1) * 256) by lia.
  fold_byte (x * 64 + x1) x2 b2. cbn.
  rewrite shl_fold by lia.
  replace (((x * 64 + x1) * 64 + x2) * 4 * 2 ^ 6) with (((x * 64 + x1) * 64 + x2) * 256) by lia.
  fold_byte ((x * 64 + x1) * 64 + x2) x3 b3. cbn. by rewrite shr2.
Qed.

(** The shift-and-carry decoder computes the reference decoding. *)
Lemma utf8_decode_eq input : bytes input -> utf8_decode input = Done (utf8_ref input).
Proof.
  intros H. destruct input as [|b t]; [done|]. inversion_clear H as [|? ? Hb Ht].
  unfold is_byte in Hb. rewrite utf8_decode_lead by done. cbn zeta. unfold utf8_ref.
  repeat case_match; try done; [rewrite read2_eq|rewrite read3_eq|rewrite read4_eq]; done || lia.
Qed.

(** ** UTF-8 encoding *)

Lemma dec_ecx_eq e : 0 <= e <= 2 ^ 31 ->
  dec_ecx e = if e =? 0 then (2 ^ 32 - 1, true) else (e - 1, false).
Proof.
  intros H. unfold dec_ecx. destruct (e =? 0) eqn:E.
  - by replace e with 0 by lia.
  - rewrite wrap_small, high_bit by lia. f_equal. lia.
Qed.

Lemma shr_byte a b : 0 <= b < 256 -> Z.shiftr (b + 256 * a) 8 = a.
Proof. intros. rewrite shr_eq by lia. regs. Z.div_mod_to_equations. lia. Qed.

Lemma u8_low a b : 0 <= b < 256 -> u8 (Z.land (b + 256 * a) 0xFF) = b.
Proof.
  intros. rewrite (land_mask _ 8) by lia. rewrite wrap_wrap by lia. unfold wrap.
  change (2 ^ 8) with 256. Z.div_mod_to_equations. lia.
Qed.

Lemma encode_2byte_eq x y : 0 <= x < 32 -> 0 <= y < 64 ->
  encode_2byte (x * 64 + y) = ((0xC0 + x) + 256 * (0x80 + y), [0xC0 + x; 0x80 + y]).
Proof.
  intros Hx Hy. unfold encode_2byte.
  rewrite shl_fold by lia. replace ((x * 64 + y) * 2 ^ 2) with (x * 256 + y * 4) by lia.
  assert (Z.shiftr (u8 (x * 256 + y * 4)) 2 = y) as ->
    by (regs; Z.div_mod_to_equations; lia).
  rewrite set_al_eq by lia.
  assert ((x * 256 + y * 4) / 256 * 256 + y = x * 2 ^ 8 + y) as -> by (Z.div_mod_to_equations; lia).
  change 0xC080 with (3 * 2 ^ 6 * 2 ^ 8 + 1 * 2 ^ 7).
  rewrite lor_halves, !lor_tag by lia.
  replace ((3 * 2 ^ 6 + x) * 2 ^ 8 + (1 * 2 ^ 7 + y)) with ((0x80 + y) + 256 * (0xC0 + x)) by lia.
  cbn zeta. rewrite shr_byte by lia. rewrite !(land_mask _ 8 0xFF) by lia.
  rewrite (wrap_small 8 (0xC0 + x)) by lia.
  assert (u8 (0x80 + y + 256 * (0xC0 + x)) = 0x80 + y) as ->
    by (regs; Z.div_mod_to_equations; lia).
  change 0xffff0000 with (2 ^ 32 - 2 ^ 16). rewrite (land_align 32 16) by lia. unfold align_down.
  rewrite Z.div_small by lia. change (0 * 2 ^ 16) with 0. rewrite Z.lor_0_l.
  rewrite shl_fold, lor_mul_add by lia.
  replace ((0x80 + y) * 2 ^ 8 + (0xC0 + x)) with ((0xC0 + x) + 256 * (0x80 + y)) by lia.
  rewrite shr_byte by lia. rewrite !wrap_wrap by lia. rewrite (wrap_small 8 (0x80 + y)) by lia.
  assert (u8 (0xC0 + x + 256 * (0x80 + y)) = 0xC0 + x) as ->
    by (regs; Z.div_mod_to_equations; lia). done.
Qed.

Lemma swap_bytes_eq b0 b1 b2 : 0 <= b0 < 256 -> 0 <= b1 < 256 -> 0 <= b2 < 256 ->
  swap_bytes (b0 + 256 * (b1 + 256 * b2)) = 0 + 256 * (b2 + 256 * (b1 + 256 * b0)).
Proof.
  intros. unfold swap_bytes.
  replace (b0 + 256 * (b1 + 256 * b2)) with (le4 b0 b1 b2 0) by (unfold le4; lia).
  rewrite !byte_of_le4 by (unfold is_byte; lia). cbn [Z.eqb Pos.eqb]. unfold le4. lia.
Qed.

Lemma encode_3byte_eq x y z : 0 <= x < 16 -> 0 <= y < 64 -> 0 <= z < 64 ->
  encode_3byte (x * 4096 + y * 64 + z) =
  ((0x80 + y) + 256 * (0x80 + z), [0xE0 + x; 0x80 + y; 0x80 + z]).
Proof.
  intros Hx Hy Hz. unfold encode_3byte.
  rewrite shl_fold by lia.
  replace ((x * 4096 + y * 64 + z) * 2 ^ 4) with (x * 65536 + y * 1024 + z * 16) by lia.
  assert (Z.shiftr (u16 (x * 65536 + y * 1024 + z * 16)) 2 = y * 256 + z * 4) as ->
    by (regs; Z.div_mod_to_equations; lia).
  rewrite set_ax_eq by lia.
  assert ((x * 65536 + y * 1024 + z * 16) / 65536 * 65536 + (y * 256 + z * 4)
    = x * 65536 + y * 256 + z * 4) as -> by (Z.div_mod_to_equations; lia).
  assert (Z.shiftr (u8 (x * 65536 + y * 256 + z * 4)) 2 = z) as ->
    by (regs; Z.div_mod_to_equations; lia).
  rewrite set_al_eq by lia.
  assert ((x * 65536 + y * 256 + z * 4) / 256 * 256 + z = (x * 2 ^ 8 + y) * 2 ^ 8 + z) as ->
    by (Z.div_mod_to_equations; lia).
  change 0x00E08080 with ((7 * 2 ^ 5 * 2 ^ 8 + 1 * 2 ^ 7) * 2 ^ 8 + 1 * 2 ^ 7).
  rewrite !lor_halves, !lor_tag by lia.
  replace (((7 * 2 ^ 5 + x) * 2 ^ 8 + (1 * 2 ^ 7 + y)) * 2 ^ 8 + (1 * 2 ^ 7 + z))
    with ((0x80 + z) + 256 * ((0x80 + y) + 256 * (0xE0 + x))) by lia.
  rewrite swap_bytes_eq by lia. cbn zeta. rewrite (shr_byte _ 0) by lia.
  rewrite (u8_low _ (0xE0 + x)) by lia. rewrite (shr_byte _ (0xE0 + x)) by lia.
  rewrite (u8_low _ (0x80 + y)) by lia. rewrite (shr_byte _ (0x80 + y)) by lia.
  replace (0x80 + z) with (0x80 + z + 256 * 0) at 2 by lia. rewrite u8_low by lia. done.
Qed.

(** The encoding of [c] never needs more than three bytes. *)
Definition utf8_len (c : Z) : Z := mlen (utf8_bytes c).

Lemma utf8_len_eq c : utf8_len c = if c <? 0x80 then 1 else if c <? 0x800 then 2 else 3.
Proof. unfold utf8_len, utf8_bytes. repeat case_match; done. Qed.

(** [utf16_to_8] either stores the whole encoding or stores nothing. *)
Lemma utf16_to_8_fits m c dest ecx : 0 <= c < 65536 -> utf8_len c <= ecx <= 2 ^ 31 ->
  0 <= dest -> dest + utf8_len c <= mlen m ->
  exists m' res, utf16_to_8 m c dest ecx = Done (m', mkU8 res (ecx - utf8_len c) (utf8_len c) 0) /\
    updated m m' dest (utf8_len c) (byte_at (utf8_bytes c)).
Proof.
  rewrite utf8_len_eq. intros Hc Hecx Hd Hfit. unfold utf16_to_8, utf8_bytes in *.
  destruct (c <? 0x80) eqn:E1; [|destruct (c <? 0x800) eqn:E2].
  - rewrite dec_ecx_eq by lia. replace (ecx =? 0) with false by lia.
    rewrite (wrap_small 8 c) by lia.
    destruct (updated_st8 m m dest 0 (byte_at [c]) c) as (m1 & E & H1);
      [lia..|apply updated_refl|done|].
    rewrite Z.add_0_r in E. rewrite E. run_step. eauto.
  - rewrite !dec_ecx_eq by lia. replace (ecx =? 0) with false by lia.
    rewrite dec_ecx_eq by lia. replace (ecx - 1 =? 0) with false by lia.
    pose proof (encode_2byte_eq (c / 64) (c mod 64)) as He.
    replace (c / 64 * 64 + c mod 64) with c in He by (Z.div_mod_to_equations; lia).
    rewrite He by (Z.div_mod_to_equations; lia).
    set (bs := [0xC0 + c / 64; 0x80 + c mod 64]).
    destruct (updated_st8 m m dest 0 (byte_at bs) (0xC0 + c / 64))
      as (m1 & E & H1); [lia..|apply updated_refl|done|].
    destruct (updated_st8 m m1 dest 1 (byte_at bs) (0x80 + c mod 64))
      as (m2 & E' & H2); [lia..|done|done|].
    change (byte_at bs 0) with (0xC0 + c / 64). change (byte_at bs 1) with (0x80 + c mod 64).
    rewrite Z.add_0_r in E. rewrite E. run_step. rewrite E'. run_step.
    exists m2. eexists. split; [|done]. do 3 f_equal. lia.
  - rewrite !dec_ecx_eq by lia. replace (ecx =? 0) with false by lia.
    rewrite dec_ecx_eq by lia. replace (ecx - 1 =? 0) with false by lia.
    rewrite dec_ecx_eq by lia. replace (ecx - 1 - 1 =? 0) with false by lia.
    set (x := c / 4096). set (y := c / 64 mod 64). set (z := c mod 64).
    pose proof (encode_3byte_eq x y z) as He.
    replace (x * 4096 + y * 64 + z) with c in He by (unfold x, y, z; Z.div_mod_to_equations; lia).
    rewrite He by (unfold x, y, z; Z.div_mod_to_equations; lia).
    set (bs := [0xE0 + x; 0x80 + y; 0x80 + z]).
    destruct (updated_st8 m m dest 0 (byte_at bs) (0xE0 + x))
      as (m1 & E & H1); [lia..|apply updated_refl|done|].
    destruct (updated_st8 m m1 dest 1 (byte_at bs) (0x80 + y)) as (m2 & E' & H2); [lia..|done|done|].
    destruct (updated_st8 m m2 dest 2 (byte_at bs) (0x80 + z)) as (m3 & E'' & H3); [lia..|done|done|].
    change (byte_at bs 0) with (0xE0 + x). change (byte_at bs 1) with (0x80 + y).
    change (byte_at bs 2) with (0x80 + z).
    rewrite Z.add_0_r in E. rewrite E. run_step. rewrite E'. run_step. rewrite E''. run_step.
    exists m3. eexists. split; [|done]. do 3 f_equal. lia.
Qed.

Lemma utf16_to_8_refuses m c dest ecx : 0 <= c < 65536 -> 0 <= ecx < utf8_len c ->
  utf16_to_8 m c dest ecx = Done (m, mkU8 c (2 ^ 32 - 1) 0 1).
Proof.
  rewrite utf8_len_eq. intros Hc Hecx.
  assert (ecx < 3) by (destruct (c <? 0x80), (c <? 0x800); lia).
  unfold utf16_to_8. rewrite dec_ecx_eq by lia.
  destruct (ecx =? 0) eqn:E0; [done|].
  destruct (c <? 0x80) eqn:E1; [lia|]. rewrite dec_ecx_eq by lia.
  destruct (ecx - 1 =? 0) eqn:E2; [done|].
  destruct (c <? 0x800) eqn:E3; [lia|]. rewrite dec_ecx_eq by lia.
  by replace (ecx - 1 - 1 =? 0) with true by lia.
Qed.

(** ** The register-chained decoder inverts the encoder *)

Lemma sign_byte b : is_byte b -> (Z.land b 0x80 =? 0) = (b <? 0x80).
Proof.
  intros H. apply eqb_prop. revert b H.
  apply (forall_range_spec 0 256 (fun b => eqb (Z.land b 0x80 =? 0) (b <? 0x80))).
  vm_compute. done.
Qed.

Lemma shl_al_cf_eq b : is_byte b ->
  shl_al_cf b 2 = (b mod 64 * 4, (0xC0 <=? b) || ((0x40 <=? b) && (b <? 0x80))).
Proof.
  intros H. apply (bool_decide_unpack _), Is_true_true. revert b H.
  apply (forall_range_spec 0 256 (fun b => bool_decide (shl_al_cf b 2 =
    (b mod 64 * 4, (0xC0 <=? b) || ((0x40 <=? b) && (b <? 0x80)))))).
  vm_compute. done.
Qed.

Lemma u8_set_al eax al : 0 <= eax < 2 ^ 32 -> 0 <= al < 256 -> u8 (set_al eax al) = al.
Proof.
  intros. rewrite set_al_eq by done. unfold wrap. change (2 ^ 8) with 256.
  Z.div_mod_to_equations. lia.
Qed.

Lemma clear_ah x : 0 <= x < 2 ^ 32 -> Z.land x 0xffff00ff = x / 65536 * 65536 + x mod 256.
Proof.
  intros. change 0xffff00ff with (Z.lor (2 ^ 32 - 2 ^ 16) 0xff).
  rewrite Z.land_lor_distr_r, (land_align 32 16), (land_mask _ 8) by lia.
  unfold align_down, wrap. apply (lor_mul_add _ _ 16); [lia|].
  change (2 ^ 16) with 65536. change (2 ^ 8) with 256. Z.div_mod_to_equations. lia.
Qed.

Lemma lead_step m esi eax b : ld8 m esi = Done b -> is_byte b -> 0 <= eax < 2 ^ 32 ->
  0xC0 <= b ->
  utf8to16_body m (Lead esi eax) = Done (inl (Gather (esi + 1) (eax / 256 * 256 + b mod 64 * 4))).
Proof.
  unfold is_byte. intros E Hb He Hc. cbn [utf8to16_body]. rewrite E. run_step.
  rewrite u8_set_al, sign_byte by done. replace (b <? 0x80) with false by lia.
  rewrite shl_al_cf_eq by done. replace (0xC0 <=? b) with true by lia. cbn [orb negb].
  rewrite (set_al_eq eax b) by done. assert (0 <= b mod 64 < 64) by (apply Z.mod_pos_bound; lia).
  rewrite set_al_eq by (Z.div_mod_to_equations; lia). do 3 f_equal. Z.div_mod_to_equations. lia.
Qed.

(** A continuation byte carrying [y] stored below [h]. *)
Lemma put_cont h y : 0 <= y < 64 -> 0 <= h < 2 ^ 24 ->
  set_al (set_al (h * 256) (0x80 + y)) ((0x80 + y) mod 64 * 4) = h * 256 + y * 4.
Proof.
  intros. replace ((0x80 + y) mod 64) with y by (Z.div_mod_to_equations; lia).
  rewrite fold_cont by (unfold is_byte; lia). lia.
Qed.

Lemma shl_ax h g a : 0 <= h < 65536 -> 0 <= g < 256 -> 0 <= a < 64 ->
  let eax := h * 65536 + g * 256 + a * 4 in
  set_ax eax (u16 (Z.shiftl (u16 eax) 8)) = (h * 256 + a * 4) * 256.
Proof.
  intros ? ? ?. cbn zeta. rewrite Z.shiftl_mul_pow2 by lia.
  assert (u16 (u16 (h * 65536 + g * 256 + a * 4) * 2 ^ 8) = a * 4 * 256) as ->
    by (regs; Z.div_mod_to_equations; lia).
  rewrite set_ax_eq by lia. Z.div_mod_to_equations. lia.
Qed.

Lemma shr_ah h a y : 0 <= h < 65536 -> 0 <= a < 64 -> 0 <= y < 64 ->
  let eax := (h * 256 + a * 4) * 256 + y * 4 in
  Z.lor (Z.land eax 0xffff00ff) (Z.shiftr (u8 (Z.shiftr eax 8)) 2 <<ₘ 8)
  = h * 65536 + a * 256 + y * 4.
Proof.
  intros ? ? ?. cbn zeta.
  assert (Z.shiftr (u8 (Z.shiftr ((h * 256 + a * 4) * 256 + y * 4) 8)) 2 = a) as ->
    by (regs; Z.div_mod_to_equations; lia).
  rewrite clear_ah, shl_fold by lia.
  replace (((h * 256 + a * 4) * 256 + y * 4) mod 256) with (y * 4) by (Z.div_mod_to_equations; lia).
  replace (((h * 256 + a * 4) * 256 + y * 4) / 65536) with h by (Z.div_mod_to_equations; lia).
  replace (h * 65536 + y * 4) with (h * 2 ^ 8 * 2 ^ 8 + y * 4) by lia.
  replace (a * 2 ^ 8) with (a * 2 ^ 8 + 0) by lia. rewrite lor_halves, Z.lor_0_r by lia.
  rewrite lor_mul_add by lia. lia.
Qed.

Lemma shl_ax3 h a y : 0 <= h < 65536 -> 0 <= a < 64 -> 0 <= y < 64 ->
  let eax := h * 65536 + a * 256 + y * 4 in
  bit_at (u16 eax) 13 = (32 <=? a) /\
  set_ax eax (u16 (Z.shiftl (u16 eax) 3)) = h * 65536 + (a mod 32) * 2048 + y * 32.
Proof.
  intros ? ? ?. cbn zeta.
  assert (u16 (h * 65536 + a * 256 + y * 4) = a * 256 + y * 4) as ->
    by (regs; Z.div_mod_to_equations; lia).
  split.
  - unfold bit_at. rewrite (land_mask _ 1) by lia. rewrite shr_eq by lia. unfold wrap.
    change (2 ^ 13) with 8192. change (2 ^ 1) with 2. destruct (32 <=? a) eqn:?.
    + replace ((a * 256 + y * 4) / 8192) with 1 by (Z.div_mod_to_equations; lia). done.
    + replace ((a * 256 + y * 4) / 8192) with 0 by (Z.div_mod_to_equations; lia). done.
  - rewrite Z.shiftl_mul_pow2 by lia.
    assert (u16 ((a * 256 + y * 4) * 2 ^ 3) = (a mod 32) * 2048 + y * 32) as ->
      by (regs; Z.div_mod_to_equations; lia).
    rewrite set_ax_eq by (Z.div_mod_to_equations; lia). Z.div_mod_to_equations. lia.
Qed.

(** Flags of a continuation byte in [AL]. *)
Lemma cont_flags eax y : 0 <= eax < 2 ^ 32 -> 0 <= y < 64 ->
  (Z.land (u8 (set_al eax (0x80 + y))) 0x80 =? 0) = false /\
  shl_al_cf (u8 (set_al eax (0x80 + y))) 2 = ((0x80 + y) mod 64 * 4, false).
Proof.
  intros. rewrite u8_set_al, sign_byte, shl_al_cf_eq by (unfold is_byte; lia).
  replace (0xC0 <=? 0x80 + y) with false by lia. replace (0x80 + y <? 0x80) with false by lia.
  by rewrite andb_false_r.
Qed.

(** The gathering step on the continuation byte that ends a 2-byte sequence. *)
Lemma gather_step2 m esi h g x y : ld8 m esi = Done (0x80 + y) -> 0 <= y < 64 -> 0 <= x < 32 ->
  0 <= h < 65536 -> 0 <= g < 256 ->
  gather_body m esi (h * 65536 + g * 256 + x * 4) =
  Done (inr (mkU16 (h * 65536 + (x * 64 + y)) (esi + 1))).
Proof.
  intros E Hy Hx Hh Hg. unfold gather_body.
  rewrite shl_ax, E by lia. run_step.
  destruct (cont_flags ((h * 256 + x * 4) * 256) y) as [-> ->]; [lia..|].
  rewrite put_cont, shr_ah by lia.
  destruct (shl_ax3 h x y) as [-> ->]; [lia..|].
  replace (32 <=? x) with false by lia. cbn [negb].
  replace (x mod 32) with x by (Z.div_mod_to_equations; lia).
  assert (Z.shiftr (u16 (h * 65536 + x * 2048 + y * 32)) 5 = x * 64 + y) as ->
    by (regs; Z.div_mod_to_equations; lia).
  rewrite set_ax_eq by lia. do 3 f_equal. Z.div_mod_to_equations. lia.
Qed.

(** The gathering step on the two continuation bytes of a 3-byte sequence. *)
Lemma gather_step3 m esi h g x y z : ld8 m esi = Done (0x80 + y) ->
  ld8 m (esi + 1) = Done (0x80 + z) -> 0 <= y < 64 -> 0 <= z < 64 -> 0 <= x < 16 ->
  0 <= h < 65536 -> 0 <= g < 256 ->
  exists e, gather_body m esi (h * 65536 + g * 256 + (32 + x) * 4) =
    Done (inr (mkU16 e (esi + 2))) /\ u16 e = x * 4096 + y * 64 + z /\ 0 <= e < 2 ^ 32.
Proof.
  intros E E' Hy Hz Hx Hh Hg. unfold gather_body.
  rewrite shl_ax, E by lia. run_step.
  destruct (cont_flags ((h * 256 + (32 + x) * 4) * 256) y) as [-> ->]; [lia..|].
  rewrite put_cont, shr_ah by lia.
  destruct (shl_ax3 h (32 + x) y) as [-> ->]; [lia..|].
  replace (32 <=? 32 + x) with true by lia. cbn [negb].
  replace ((32 + x) mod 32) with x by (Z.div_mod_to_equations; lia).
  rewrite E'. run_step.
  assert ((h * 65536 + x * 2048 + y * 32) <<ₘ 3
    = (((h mod 8192) * 2048 + x * 64 + y) * 256)) as ->.
  { regs. change (2 ^ 32) with 4294967296. Z.div_mod_to_equations. lia. }
  assert (0 <= h mod 8192 < 8192) by (apply Z.mod_pos_bound; lia).
  set (h' := h mod 8192) in *.
  destruct (cont_flags ((h' * 2048 + x * 64 + y) * 256) z) as [-> ->]; [lia..|].
  rewrite put_cont by lia.
  replace ((h' * 2048 + x * 64 + y) * 256 + z * 4) with (((h' * 2048 + x * 64 + y) * 64 + z) * 4) by lia.
  rewrite shr2. eexists. split; [do 3 f_equal; lia|]. split; [|lia].
  regs. Z.div_mod_to_equations. lia.
Qed.

(** The stored encoding of a code unit is read back, whatever [EAX] held. *)
Lemma utf8to16_loop m a c eax n : stored m a (utf8_bytes c) -> 0 <= c < 65536 ->
  0 <= eax < 2 ^ 32 -> (2 <= n)%nat ->
  exists e, loop n (utf8to16_body m) (Lead a eax) = Done (mkU16 e (a + utf8_len c)) /\
    u16 e = c /\ 0 <= e < 2 ^ 32.
Proof.
  intros Hs Hc He Hn. rewrite utf8_len_eq. destruct n as [|[|n]]; [lia..|].
  pose proof (stored_ld8 _ _ _ 0 Hs) as L0. pose proof (stored_ld8 _ _ _ 1 Hs) as L1.
  pose proof (stored_ld8 _ _ _ 2 Hs) as L2. rewrite Z.add_0_r in L0.
  unfold utf8_bytes in L0, L1, L2.
  destruct (c <? 0x80) eqn:E1; [|destruct (c <? 0x800) eqn:E2].
  - clear L1 L2. specialize (L0 ltac:(by unfold mlen; cbn; lia)). change (byte_at [c] 0) with c in L0.
    cbn [loop utf8to16_body]. rewrite L0. run_step.
    rewrite u8_set_al, sign_byte by (unfold is_byte; lia). rewrite E1. run_step. unfold got.
    rewrite set_al_eq by lia. rewrite clear_ah by (Z.div_mod_to_equations; lia).
    eexists. split; [done|]. regs. Z.div_mod_to_equations. lia.
  - clear L2. specialize (L0 ltac:(by unfold mlen; cbn; lia)). specialize (L1 ltac:(by unfold mlen; cbn; lia)).
    change (byte_at _ 0) with (0xC0 + c / 64) in L0. change (byte_at _ 1) with (0x80 + c mod 64) in L1.
    assert (0 <= c / 64 < 32 /\ 0 <= c mod 64 < 64) as [? ?] by (Z.div_mod_to_equations; lia).
    cbn [loop]. rewrite (lead_step _ _ _ _ L0) by (unfold is_byte; lia). run_step.
    replace ((0xC0 + c / 64) mod 64) with (c / 64) by (Z.div_mod_to_equations; lia).
    replace (eax / 256 * 256) with (eax / 65536 * 65536 + eax / 256 mod 256 * 256)
      by (Z.div_mod_to_equations; lia).
    cbn [utf8to16_body]. rewrite (gather_step2 _ _ _ _ _ _ L1) by (Z.div_mod_to_equations; lia).
    run_step. eexists. split; [do 2 f_equal; lia|]. regs. Z.div_mod_to_equations. lia.
  - specialize (L0 ltac:(by unfold mlen; cbn; lia)). specialize (L1 ltac:(by unfold mlen; cbn; lia)). specialize (L2 ltac:(by unfold mlen; cbn; lia)).
    change (byte_at _ 0) with (0xE0 + c / 4096) in L0.
    change (byte_at _ 1) with (0x80 + c / 64 mod 64) in L1.
    change (byte_at _ 2) with (0x80 + c mod 64) in L2.
    assert (0 <= c / 4096 < 16 /\ 0 <= c / 64 mod 64 < 64 /\ 0 <= c mod 64 < 64) as (? & ? & ?)
      by (Z.div_mod_to_equations; lia).
    cbn [loop]. rewrite (lead_step _ _ _ _ L0) by (unfold is_byte; lia). run_step.
    replace ((0xE0 + c / 4096) mod 64) with (32 + c / 4096) by (Z.div_mod_to_equations; lia).
    replace (eax / 256 * 256) with (eax / 65536 * 65536 + eax / 256 mod 256 * 256)
      by (Z.div_mod_to_equations; lia).
    replace (a + 2) with (a + 1 + 1) in L2 by lia.
    destruct (gather_step3 _ _ (eax / 65536) (eax / 256 mod 256) (c / 4096) _ _ L1 L2)
      as (e & E & Eu & Er); [Z.div_mod_to_equations; lia..|].
    cbn [utf8to16_body]. rewrite E. run_step. exists e. split_and!; [|rewrite Eu|lia..].
    + do 2 f_equal. lia.
    + Z.div_mod_to_equations. lia.
Qed.

Lemma utf8to16_ptr_ok m a c eax : 0 <= c < 65536 -> stored m a (utf8_bytes c) -> 0 <= eax < 2 ^ 32 ->
  exists e, utf8to16_ptr m a eax = Done (a + utf8_len c, e) /\ u16 e = c /\ 0 <= e < 2 ^ 32.
Proof.
  intros Hc Hs He. unfold utf8to16_ptr.
  destruct (utf8to16_loop m a c eax (S (length m))) as (e & -> & ? & ?); try done; [|by eexists].
  destruct Hs as (? & Hl & _). change (mlen (utf8_bytes c)) with (utf8_len c) in Hl.
  rewrite utf8_len_eq in Hl. unfold mlen in *. destruct (c <? 0x80), (c <? 0x800); lia.
Qed.

(** The bounded decoder reads it back too. *)
Lemma utf8_ref_bytes c t : 0 <= c < 65536 -> utf8_ref (utf8_bytes c ++ t) = Some (mkStep c (utf8_len c)).
Proof.
  intros Hc. rewrite utf8_len_eq. unfold utf8_bytes.
  assert (forall x, 0 <= x < 64 -> cont (0x80 + x) = Some x) as Hcont.
  { intros x Hx. unfold cont. replace ((0x80 <=? 0x80 + x) && (0x80 + x <? 0xC0)) with true by lia.
    f_equal. lia. }
  destruct (c <? 0x80) eqn:E1; [|destruct (c <? 0x800) eqn:E2]; cbn -[Z.add Z.div Z.modulo cont Z.ltb].
  - by rewrite E1.
  - assert (0 <= c / 64 < 32 /\ 0 <= c mod 64 < 64) as [? ?] by (Z.div_mod_to_equations; lia).
    repeat match goal with |- context [0xC0 + c / 64 <? ?k] =>
      (replace (0xC0 + c / 64 <? k) with false by lia) || (replace (0xC0 + c / 64 <? k) with true by lia) end.
    rewrite Hcont by lia. cbn -[Z.add Z.div Z.modulo]. do 2 f_equal. Z.div_mod_to_equations; lia.
  - assert (0 <= c / 4096 < 16 /\ 0 <= c / 64 mod 64 < 64 /\ 0 <= c mod 64 < 64) as (? & ? & ?)
      by (Z.div_mod_to_equations; lia).
    repeat match goal with |- context [0xE0 + c / 4096 <? ?k] =>
      (replace (0xE0 + c / 4096 <? k) with false by lia) || (replace (0xE0 + c / 4096 <? k) with true by lia) end.
    rewrite !Hcont by lia. cbn -[Z.add Z.div Z.modulo]. do 2 f_equal. Z.div_mod_to_equations; lia.
Qed.

Lemma utf8_bytes_range c i : 0 <= c < 65536 -> is_byte (byte_at (utf8_bytes c) i).
Proof.
  intros. apply byte_at_range. unfold utf8_bytes, is_byte.
  repeat case_match; repeat constructor; Z.div_mod_to_equations; lia.
Qed.

(** ** UTF-16 *)

Lemma utf16_encode_pair cp : 0x10000 <= cp < 0x110000 ->
  let v := cp - 0x10000 in
  utf16_encode cp = (0xDC00 + v mod 1024) * 2 ^ 16 + (0xD800 + v / 1024).
Proof.
  intros Hcp. cbn zeta. unfold utf16_encode.
  replace (0x110000 <=? cp) with false by lia. replace (0x10000 <=? cp) with true by lia.
  remember (cp - 0x10000) as v eqn:Ev. assert (0 <= v < 0x100000) by lia. clear Ev Hcp cp.
  assert (0 <= v mod 1024 < 1024 /\ 0 <= v / 1024 < 1024) as [? ?] by (Z.div_mod_to_equations; lia).
  rewrite shl_fold by lia.
  assert (Z.shiftr (u16 (v * 2 ^ 6)) 6 = v mod 1024) as -> by (regs; Z.div_mod_to_equations; lia).
  rewrite set_ax_eq by lia.
  replace (v * 2 ^ 6 / 65536) with (v / 1024) by (Z.div_mod_to_equations; lia).
  unfold rotate_right. rewrite shr_eq by lia.
  replace ((v / 1024 * 65536 + v mod 1024) / 2 ^ 16) with (v / 1024) by (Z.div_mod_to_equations; lia).
  assert ((v / 1024 * 65536 + v mod 1024) <<ₘ (32 - 16) = v mod 1024 * 2 ^ 16) as ->.
  { regs. change (2 ^ (32 - 16)) with 65536. change (2 ^ 32) with 4294967296.
    Z.div_mod_to_equations. lia. }
  rewrite lor_tag by lia.
  change 0xDC00D800 with (55 * 2 ^ 10 * 2 ^ 16 + 54 * 2 ^ 10).
  rewrite lor_halves, !lor_tag by lia. lia.
Qed.

(** ** CP866 *)

Definition cp866_roundtrip_ok (b : Z) : bool :=
  bool_decide (cp866_encode (cp866_decode b) =
    Done (if (b <? 0xB0) || (0xE0 <=? b) && (b <? 0xF8) then b else 95)) &&
  (cp866_decode (cp866_to_upper b) =? utf16_to_upper (cp866_decode b)) &&
  (cp866_to_upper (cp866_to_upper b) =? cp866_to_upper b).

Lemma cp866_roundtrip_all b : is_byte b -> cp866_roundtrip_ok b = true.
Proof. apply (forall_range_spec 0 256). vm_compute. done. Qed.

Definition cp866_encode_ok (c : Z) : bool :=
  match cp866_encode c with
  | Done b => (b =? 95) || (cp866_decode b =? c) || (c =? 20)
  | _ => false
  end.

(** The CP866 repertoire lies in two small blocks. *)
Lemma cp866_encode_all c : 0 <= c < 65536 -> cp866_encode_ok c = true.
Proof.
  intros Hc. assert (0 <= c < 0xC0 \/ 0x400 <= c < 0x460 \/
    (0xC0 <= c < 0x400 \/ 0x460 <= c < 65536)) as [H|[H|H]] by lia.
  - revert c H Hc. intros c H _. revert c H. apply (forall_range_spec 0 0xC0). vm_compute. done.
  - revert c H Hc. intros c H _. revert c H. apply (forall_range_spec 0x400 0x460). vm_compute. done.
  - unfold cp866_encode_ok, cp866_encode. rewrite (wrap_small 16) by lia.
    assert ((c <? 0x80) = false /\ (c =? 0xB6) = false) as [-> ->] by lia.
    destruct (c <? 0x400) eqn:?; [done|].
    assert ((c <? 0x410) = false /\ (c <? 0x440) = false /\ (c <? 0x450) = false
      /\ (c <? 0x460) = false) as (-> & -> & -> & ->) by lia. done.
Qed.

(** ** Theorems *)

(** C8: a UTF-16 code unit written as UTF-8 by [utf16_to_8], with room in the
    budget, is read back by both decoders: by [utf8to16] whatever stale bits its
    register held on entry, and by [utf8_decode]; the pointers and the budget move
    by the length of the encoding, and no other byte of memory changes. *)
Theorem utf8_encode_decode m c dest ecx eax :
  bytes m -> 0 <= c < 65536 -> utf8_len c <= ecx <= 2 ^ 31 -> 0 <= dest ->
  dest + utf8_len c <= mlen m -> 0 <= eax < 2 ^ 32 ->
  exists m' res e,
    utf16_to_8 m c dest ecx = Done (m', mkU8 res (ecx - utf8_len c) (utf8_len c) 0) /\
    utf8to16_ptr m' dest eax = Done (dest + utf8_len c, e) /\ u16 e = c /\
    utf8_decode (drop (Z.to_nat dest) m') = Done (Some (mkStep c (utf8_len c))) /\
    (forall a, a < dest \/ dest + utf8_len c <= a -> byte_at m' a = byte_at m a).
Proof.
  intros Hm Hc Hecx Hd Hfit He.
  destruct (utf16_to_8_fits m c dest ecx) as (m' & res & E & Hu); [done..|].
  pose proof (updated_stored _ _ _ _ Hu Hd Hfit) as Hs.
  assert (bytes m') by (eapply bytes_updated; eauto using utf8_bytes_range).
  assert (2 <= S (length m'))%nat.
  { destruct Hu as [Hl _]. rewrite utf8_len_eq in *. unfold mlen in *.
    destruct (c <? 0x80), (c <? 0x800); lia. }
  destruct (utf8to16_loop m' dest c eax (S (length m'))) as (e & El & Eu & _); [done..|].
  exists m', res, e. split_and!; [done| |done| |].
  - unfold utf8to16_ptr. by rewrite El.
  - rewrite utf8_decode_eq by (by apply Forall_drop). rewrite (stored_drop _ _ _ Hs).
    by rewrite utf8_ref_bytes.
  - intros a Ha. by eapply updated_outside.
Qed.

(** On every byte string [utf8_decode] returns what the UTF-8 bit layout
    says: the value of a complete 1- to 4-byte sequence with its length, the
    replacement character with length 1 for anything else, nothing on empty input;
    so it always makes progress and never reads past the end. *)
Theorem utf8_decode_meets_ref input : bytes input ->
  utf8_decode input = Done (utf8_ref input) /\
  forall s, utf8_ref input = Some s -> 1 <= consumed s <= mlen input.
Proof.
  intros H. split; [by apply utf8_decode_eq|]. intros s Hs.
  destruct input as [|b t]; [done|]. unfold utf8_ref in Hs. injection Hs as <-.
  destruct t as [|b1 [|b2 [|b3 t]]]; rewrite ?mlen_cons;
    (try pose proof (mlen_nonneg t)); change (mlen []) with 0;
    repeat case_match; cbn;
    repeat match goal with |- context [cont ?b] => destruct (cont b); cbn end; lia.
Qed.

(** [utf16_encode] keeps a BMP scalar value, packs a supplementary one as a
    high surrogate in the low word and a low surrogate in the high word that
    together denote it, and answers U+FFFD for surrogates and values past
    U+10FFFF. *)
Theorem utf16_encode_correct cp : 0 <= cp < 2 ^ 32 ->
  let r := utf16_encode cp in
  let lo := r mod 2 ^ 16 in let hi := r / 2 ^ 16 in
  (cp < 0xD800 \/ 0xE000 <= cp < 0x10000 -> r = cp) /\
  (0x10000 <= cp < 0x110000 ->
     0xD800 <= lo < 0xDC00 /\ 0xDC00 <= hi < 0xE000 /\
     0x10000 + (lo - 0xD800) * 1024 + (hi - 0xDC00) = cp) /\
  (0xD800 <= cp < 0xE000 \/ 0x110000 <= cp -> r = 0xFFFD).
Proof.
  intros Hcp. cbn zeta. split_and!.
  - intros H. unfold utf16_encode. repeat case_match; lia.
  - intros H. rewrite utf16_encode_pair by done. change (2 ^ 16) with 65536.
    Z.div_mod_to_equations. lia.
  - intros H. unfold utf16_encode. repeat case_match; lia.
Qed.

(** CP866 text survives the trip through Unicode except for the bytes the
    table does not cover, which become ['_']; a code unit that encodes to anything
    but ['_'] decodes back to itself, the pilcrow alias of control code 20 apart;
    and upper-casing commutes with decoding and is idempotent. *)
Theorem cp866_unicode b c : is_byte b -> 0 <= c < 65536 ->
  cp866_encode (cp866_decode b) =
    Done (if (b <? 0xB0) || (0xE0 <=? b) && (b <? 0xF8) then b else 95) /\
  (exists b', cp866_encode c = Done b' /\ (b' = 95 \/ cp866_decode b' = c \/ c = 20)) /\
  cp866_decode (cp866_to_upper b) = utf16_to_upper (cp866_decode b) /\
  cp866_to_upper (cp866_to_upper b) = cp866_to_upper b.
Proof.
  intros Hb Hc. pose proof (cp866_roundtrip_all b Hb) as H. pose proof (cp866_encode_all c Hc) as H'.
  unfold cp866_roundtrip_ok in H. rewrite !andb_true_iff in H. destruct H as [[H1 H2] H3].
  apply bool_decide_eq_true in H1. unfold cp866_encode_ok in H'.
  split_and!; [done| |lia..].
  destruct (cp866_encode c) as [b'| |]; try done. exists b'. split; [done|lia].
Qed.

(** ** Witnesses *)

Lemma utf8_encode_decode_witness :
  exists m' res e, utf16_to_8 [0; 0; 0; 0; 7] 0x20AC 1 10 = Done (m', mkU8 res 7 3 0) /\
    utf8to16_ptr m' 1 0xDEADBEEF = Done (4, e) /\ u16 e = 0x20AC.
Proof.
  destruct (utf8_encode_decode [0; 0; 0; 0; 7] 0x20AC 1 10 0xDEADBEEF)
    as (m' & res & e & H1 & H2 & H3 & _).
  - repeat constructor; unfold is_byte; lia.
  - lia.
  - vm_compute. split; congruence.
  - lia.
  - vm_compute. congruence.
  - lia.
  - exists m', res, e. split_and!; [exact H1|exact H2|exact H3].
Defined.

Lemma utf8_decode_meets_ref_witness :
  utf8_decode [0xF0; 0x9F; 0x98; 0x80; 0x21] = Done (Some (mkStep 0x1F600 4)).
Proof.
  apply (utf8_decode_meets_ref [0xF0; 0x9F; 0x98; 0x80; 0x21]).
  repeat constructor; unfold is_byte; lia.
Defined.

Lemma utf16_encode_correct_witness :
  0x10000 + (utf16_encode 0x1F600 mod 2 ^ 16 - 0xD800) * 1024 +
    (utf16_encode 0x1F600 / 2 ^ 16 - 0xDC00) = 0x1F600.
Proof. apply (utf16_encode_correct 0x1F600); lia. Defined.

Lemma cp866_unicode_witness : cp866_encode (cp866_decode 0xF1) = Done 0xF1.
Proof. apply (cp866_unicode 0xF1 0x451); [unfold is_byte|]; lia. Defined.
