(* ===== verification/Utf8Stream.v ===== *)
(** * String conversion to UTF-8 with a byte budget

    The streaming loops [utf16_to_8_string] ([utf16_to_8.rs]) and
    [cp866_to_utf8_string] ([cp866_to_utf8_string.rs]).  Both fetch a character,
    encode it with [utf16_to_8] and stop on a NUL or when the budget in [ECX] is
    exhausted; the class [CharSource] is the interface between a loop body and
    the common proof.  Source and destination lie in one memory; the loops get one
    more step than there are bytes in it. *)

From stdpp Require Import base list.
From Stdlib Require Import ZArith Lia.
From S2P Require Import Prelude Unicode.

(** ** Definitions *)

(** Exit registers; [Utf16To8StringResult] and [Cp866ToUtf8StringResult]. *)
Record StringResult := mkSR {
  s_eax : Z; s_esi : Z; s_edi : Z; s_ecx : Z; s_sf : Z; s_zf : Z }.

Definition pack_sf_zf_eax (sf zf eax : Z) : Z :=
  Z.lor (Z.lor (sf <<ₘ 31) (zf <<ₘ 30)) (Z.land eax 0x3FFFFFFF).
Definition unpack_sf_zf_eax (packed : Z) : Z * Z * Z :=
  (Z.land (Z.shiftr packed 31) 1, Z.land (Z.shiftr packed 30) 1, Z.land packed 0x3FFFFFFF).
Definition trampoline_zf_from_packed (packed : Z) : bool :=
  (Z.land packed 0x3FFFFFFF =? 0) && negb (Z.land packed 0x40000000 =? 0).

Definition utf16_to_8_one (m : list Z) (ch dest ecx : Z) : run (list Z * Utf16To8Result) :=
  utf16_to_8 m ch dest ecx.

(** State: memory, [esi], [edi], [ecx], [eax]. *)
Definition utf16_string_body (st : list Z * Z * Z * Z * Z)
    : run (list Z * Z * Z * Z * Z + list Z * StringResult) :=
  let '(m, esi, edi, ecx, eax) := st in
  ax ← ld16 m esi;
  let esi := esi + 2 in
  let eax := set_ax eax ax in
  '(m, r) ← utf16_to_8_one m ax edi ecx;
  if negb (r_sf r =? 0) then
    Done (inr (m, mkSR eax (u32 esi)
      (if negb (edi_delta r =? 0) then u32 (edi + edi_delta r) else u32 edi) (r_ecx r) 1 0))
  else
    let ecx := r_ecx r in
    let edi := if negb (edi_delta r =? 0) then edi + edi_delta r else edi in
    if eax =? 0 then Done (inr (m, mkSR 0 (u32 esi) (u32 edi) ecx 0 1))
    else Done (inl (m, esi, edi, ecx, eax)).

Definition utf16_to_8_string (m : list Z) (src dest ecx_in : Z) : run (list Z * StringResult) :=
  loop (S (length m)) utf16_string_body (m, src, dest, ecx_in, 0).

(** Memory, the three out-parameters and the packed return value. *)
Definition utf16_to_8_string_ptr (m : list Z) (src dest ecx_in : Z) : run (list Z * Z * Z * Z * Z) :=
  '(m, r) ← utf16_to_8_string m src dest ecx_in;
  Done (m, s_esi r, s_edi r, s_ecx r, pack_sf_zf_eax (s_sf r) (s_zf r) (s_eax r)).

(** State: memory, [esi], [edi], [ecx]. *)
Definition cp866_string_body (st : list Z * Z * Z * Z)
    : run (list Z * Z * Z * Z + list Z * StringResult) :=
  let '(m, esi, edi, ecx) := st in
  al ← ld8 m esi;
  let esi := u32 (esi + 1) in
  let uni := cp866_decode al in
  '(m, r) ← utf16_to_8 m (u16 uni) edi ecx;
  let ecx := r_ecx r in
  let edi := if negb (edi_delta r =? 0) then u32 (edi + edi_delta r) else edi in
  if negb (r_sf r =? 0) then Done (inr (m, mkSR uni esi edi ecx 1 0))
  else if uni =? 0 then Done (inr (m, mkSR 0 esi edi ecx 0 1))
  else Done (inl (m, esi, edi, ecx)).

Definition cp866_to_utf8_string (m : list Z) (src dest ecx_in : Z) : run (list Z * StringResult) :=
  loop (S (length m)) cp866_string_body (m, src, dest, ecx_in).

Definition cp866_to_utf8_string_ptr (m : list Z) (src dest ecx_in : Z) : run (list Z * Z * Z * Z * Z) :=
  '(m, r) ← cp866_to_utf8_string m src dest ecx_in;
  Done (m, s_esi r, s_edi r, s_ecx r, pack_sf_zf_eax (s_sf r) (s_zf r) (s_eax r)).

(** ** Specification *)

(** The characters that fit the budget, in order: their bytes, and what is left
    of the text (empty when everything fitted). *)
Fixpoint encode_fit (units : list Z) (budget : Z) : list Z * list Z :=
  match units with
  | [] => ([], [])
  | c :: t =>
      if utf8_len c <=? budget then
        let '(bs, rest) := encode_fit t (budget - utf8_len c) in (utf8_bytes c ++ bs, rest)
      else ([], c :: t)
  end.

(** Characters of [width] bytes each; a character depends on its own bytes only. *)
Class Chars (width : Z) (char_at : list Z -> Z -> Z) : Prop := {
  width_pos : 0 < width;
  char_frame m m' esi : (forall a, esi <= a < esi + width -> byte_at m' a = byte_at m a) ->
    char_at m' esi = char_at m esi
}.

(** One character of a loop: where it is fetched from and what it does. *)
Class CharSource (St : Type) (body : St -> run (St + list Z * StringResult))
    (width : Z) (char_at : list Z -> Z -> Z)
    (at_ : St -> list Z -> Z -> Z -> Z -> Prop) : Prop := {
  source_chars :: Chars width char_at;
  char_range m esi : bytes m -> 0 <= char_at m esi < 65536;
  char_step st m esi edi ecx m' r : at_ st m esi edi ecx -> bytes m -> mlen m < 2 ^ 32 ->
    0 <= esi -> esi + width <= mlen m -> 0 <= edi -> edi + edi_delta r <= mlen m ->
    utf16_to_8 m (char_at m esi) edi ecx = Done (m', r) -> 0 <= edi_delta r ->
    if negb (r_sf r =? 0) then
      body st = Done (inr (m', mkSR (char_at m esi) (esi + width) (edi + edi_delta r) (r_ecx r) 1 0))
    else if char_at m esi =? 0 then
      body st = Done (inr (m', mkSR 0 (esi + width) (edi + edi_delta r) (r_ecx r) 0 1))
    else exists st', body st = Done (inl st') /\
      at_ st' m' (esi + width) (edi + edi_delta r) (r_ecx r)
}.

(** A NUL-terminated text of the source at [src]. *)
Definition text_at (width : Z) (char_at : list Z -> Z -> Z) (m : list Z) (src : Z) (us : list Z) : Prop :=
  0 <= src /\ src + width * mlen us <= mlen m /\
  forall i, 0 <= i < mlen us -> char_at m (src + width * i) = byte_at us i.

(** The last unit is the NUL and no other is. *)
Inductive terminated : list Z -> Prop :=
| term_nul : terminated [0]
| term_cons c t : c <> 0 -> terminated t -> terminated (c :: t).

(** Where the loops stop: at the NUL, or at a character that does not fit. *)
Inductive stops : list Z -> Z -> Prop :=
| stops_nul ecx : stops [0] ecx
| stops_full c t ecx : ecx < utf8_len c -> stops (c :: t) ecx
| stops_cons c t ecx : c <> 0 -> stops t (ecx - utf8_len c) -> stops (c :: t) ecx.

Lemma terminated_stops us : terminated us -> forall ecx, stops us ecx.
Proof. induction 1; intros ecx; by constructor. Qed.

Definition units : list Z -> Prop := Forall (fun c => 0 <= c < 65536).

Lemma utf8_len_pos c : 1 <= utf8_len c <= 3.
Proof. rewrite utf8_len_eq. repeat case_match; lia. Qed.

Lemma text_length us : mlen us <= mlen (mjoin (utf8_bytes <$> us)).
Proof.
  induction us as [|u us IH]; [done|]. rewrite fmap_cons, mjoin_cons, mlen_app, mlen_cons.
  change (mlen (utf8_bytes u)) with (utf8_len u). pose proof (utf8_len_pos u). lia.
Qed.

Section Text.
Context {width : Z} {char_at : list Z -> Z -> Z} `{CA : !Chars width char_at}.

Local Abbreviation text_at := (text_at width char_at).

Lemma text_at_cons m src c t : text_at m src (c :: t) ->
  char_at m src = c /\ text_at m (src + width) t /\ src + width <= mlen m.
Proof.
  pose proof width_pos as Hw. intros (H0 & Hl & H). rewrite mlen_cons in *.
  pose proof (mlen_nonneg t). split_and!; [..|nia].
  - specialize (H 0). rewrite Z.mul_0_r, Z.add_0_r in H. rewrite H by lia. done.
  - split_and!; [lia|nia|]. intros i Hi. specialize (H (i + 1)). rewrite byte_at_cons in H.
    replace (src + width + width * i) with (src + width * (i + 1)) by lia. rewrite H by lia.
    replace (i + 1 =? 0) with false by lia. f_equal. lia.
Qed.

Lemma text_at_frame m m' src us dest n f : text_at m src us -> updated m m' dest n f ->
  disjoint src (width * mlen us) dest n -> text_at m' src us.
Proof.
  pose proof width_pos as Hw. intros (H0 & Hl & H) Hu Hd. split_and!; [done| |].
  - destruct Hu as [-> _]. done.
  - intros i Hi. rewrite <- H by done. apply char_frame. intros a Ha.
    eapply updated_outside; [done|]. unfold disjoint in Hd. nia.
Qed.

End Text.

Section Encode.
Context {St : Type} {body : St -> run (St + list Z * StringResult)} {width : Z}.
Context {char_at : list Z -> Z -> Z} {at_ : St -> list Z -> Z -> Z -> Z -> Prop}.
Context `{CS : !CharSource St body width char_at at_}.

Local Abbreviation text_at := (text_at width char_at).

(** Exit registers for a text whose characters [rest] did not fit. *)
Definition exit_regs (src dest ecx : Z) (us bs rest : list Z) : StringResult :=
  match rest with
  | [] => mkSR 0 (src + width * mlen us) (dest + mlen bs) (ecx - mlen bs) 0 1
  | c :: t => mkSR c (src + width * (mlen us - mlen t)) (dest + mlen bs) (2 ^ 32 - 1) 1 0
  end.

(** A character that does not fit stops the loop before anything is stored. *)
Lemma encode_stop c t n st m src dest ecx : units (c :: t) -> text_at m src (c :: t) ->
  at_ st m src dest ecx -> bytes m -> mlen m < 2 ^ 32 -> 0 <= ecx <= 2 ^ 31 -> 0 <= dest ->
  dest + ecx <= mlen m -> (length (c :: t) <= n)%nat -> ecx < utf8_len c ->
  loop n body st = Done (m, exit_regs src dest ecx (c :: t) [] (c :: t)).
Proof.
  pose proof width_pos as Hw. intros Hus Htx Hat Hm Hlm Hecx Hd Hfit Hn Hlt.
  destruct (text_at_cons _ _ _ _ Htx) as (Hc & _ & Hfit1). inversion_clear Hus as [|? ? Hcr _].
  pose proof (char_step st m src dest ecx m (mkU8 c (2 ^ 32 - 1) 0 1) Hat Hm Hlm) as Hst.
  rewrite Hc in Hst. specialize (Hst (proj1 Htx)). cbn [edi_delta r_sf r_ecx Z.eqb negb] in Hst.
  rewrite utf16_to_8_refuses in Hst by lia. destruct n as [|n]; [cbn in Hn; lia|].
  cbn [loop]. rewrite Hst by (done || lia). run_step. unfold exit_regs. rewrite mlen_cons.
  do 3 f_equal; cbn; lia.
Qed.

Lemma encode_loop us ecx : stops us ecx -> forall n st m src dest,
  units us -> text_at m src us -> at_ st m src dest ecx -> bytes m -> mlen m < 2 ^ 32 ->
  0 <= ecx <= 2 ^ 31 -> 0 <= dest -> dest + ecx <= mlen m ->
  disjoint src (width * mlen us) dest ecx -> (length us <= n)%nat ->
  exists m', loop n body st =
    Done (m', exit_regs src dest ecx us (encode_fit us ecx).1 (encode_fit us ecx).2) /\
    updated m m' dest (mlen (encode_fit us ecx).1) (byte_at (encode_fit us ecx).1).
Proof.
  pose proof width_pos as Hw. intros Ht.
  induction Ht as [ecx|c t ecx Hlt|c t ecx Hc0 Ht IH]; intros n st m src dest Hus Htx Hat Hm Hlm Hecx Hd Hfit Hdj Hn.
  - destruct (utf8_len 0 <=? ecx) eqn:E; cbn [encode_fit]; rewrite E; cbn.
    2:{ exists m. split; [apply (encode_stop 0 [] n st m src dest ecx); done || lia|apply updated_refl]. }
    change (utf8_len 0) with 1 in E.
    destruct (text_at_cons _ _ _ _ Htx) as (Hc & _ & Hfit1).
    destruct (utf16_to_8_fits m 0 dest ecx) as (m' & res & Ee & Hu);
      [lia|change (utf8_len 0) with 1; lia|lia|change (utf8_len 0) with 1; lia|].
    change (utf8_len 0) with 1 in *.
    pose proof (char_step st m src dest ecx m' (mkU8 res (ecx - 1) 1 0) Hat Hm Hlm) as Hst.
    rewrite Hc in Hst. cbn [edi_delta r_sf r_ecx Z.eqb negb] in Hst. destruct n as [|n]; [cbn in Hn; lia|].
    exists m'. split; [|done]. cbn [loop]. rewrite Hst by (done || lia || apply Htx). run_step.
    unfold exit_regs. change (mlen [0]) with 1. by rewrite Z.mul_1_r.
  - cbn [encode_fit]. replace (utf8_len c <=? ecx) with false by lia.
    exists m. split; [apply (encode_stop c t n st m src dest ecx); done || lia|apply updated_refl].
  - cbn [encode_fit]. destruct (utf8_len c <=? ecx) eqn:E.
    2:{ exists m. split; [apply (encode_stop c t n st m src dest ecx); done || lia|apply updated_refl]. }
    pose proof (utf8_len_pos c) as Hlen. inversion_clear Hus as [|? ? Hcr Hus'].
    destruct (text_at_cons _ _ _ _ Htx) as (Hc & Htx' & Hfit1).
    destruct (utf16_to_8_fits m c dest ecx) as (m' & res & Ee & Hu); [lia..|].
    pose proof (char_step st m src dest ecx m'
      (mkU8 res (ecx - utf8_len c) (utf8_len c) 0) Hat Hm Hlm (proj1 Htx) Hfit1 Hd) as Hst.
    rewrite Hc in Hst. specialize (Hst ltac:(cbn; lia) Ee ltac:(cbn; lia)). cbn [edi_delta r_sf r_ecx Z.eqb negb] in Hst.
    replace (c =? 0) with false in Hst by lia. destruct Hst as (st' & Est & Hat').
    rewrite mlen_cons in Hdj. unfold disjoint in Hdj.
    destruct n as [|n]; [cbn in Hn; lia|].
    destruct (IH n st' m' (src + width) (dest + utf8_len c))
      as (m2 & E2 & Hu2); try done; try lia.
    + eapply text_at_frame; [done..|]. unfold disjoint. nia.
    + eapply bytes_updated; eauto using utf8_bytes_range.
    + destruct Hu as [-> _]. done.
    + destruct Hu as [-> _]. lia.
    + unfold disjoint. nia.
    + cbn in Hn. lia.
    + destruct (encode_fit t (ecx - utf8_len c)) as [bs rest]. cbn in E2, Hu2 |- *.
      exists m2. split; [|eapply updated_app; done].
      rewrite Est. run_step. rewrite E2. f_equal. f_equal. unfold exit_regs.
      rewrite mlen_app, mlen_cons. change (mlen (utf8_bytes c)) with (utf8_len c).
      destruct rest; f_equal; lia.
Qed.
End Encode.

(** ** The two sources *)

#[global] Instance utf16_source : CharSource (list Z * Z * Z * Z * Z) utf16_string_body 2 word16_at
  (fun st m esi edi ecx => exists eax, st = (m, esi, edi, ecx, eax) /\ 0 <= eax < 65536).
Proof.
  split.
  - split; [lia|]. intros m m' esi H. unfold word16_at. by rewrite !H by lia.
  - intros m esi Hm. unfold word16_at, le2. pose proof (byte_at_range m esi Hm).
    pose proof (byte_at_range m (esi + 1) Hm). unfold is_byte in *. lia.
  - intros st m esi edi ecx m' r (eax & -> & Heax) Hm Hlm Hesi Hfit Hedi Hroom E Hdelta.
    cbn [utf16_string_body]. unfold ld16. rewrite !ld8_ok by lia. run_step.
    change (le2 _ _) with (word16_at m esi).
    assert (0 <= word16_at m esi < 65536) as Hc.
    { unfold word16_at, le2. pose proof (byte_at_range m esi Hm).
      pose proof (byte_at_range m (esi + 1) Hm). unfold is_byte in *. lia. }
    rewrite set_ax_eq by lia. rewrite (Z.div_small eax) by lia. rewrite Z.mul_0_l, Z.add_0_l.
    unfold utf16_to_8_one. rewrite E. run_step.
    assert ((if negb (edi_delta r =? 0) then edi + edi_delta r else edi) = edi + edi_delta r) as ->
      by (destruct (edi_delta r =? 0) eqn:?; cbn; lia).
    assert ((if negb (edi_delta r =? 0) then u32 (edi + edi_delta r) else u32 edi) = edi + edi_delta r)
      as -> by (destruct (edi_delta r =? 0) eqn:?; cbn [negb]; rewrite wrap_small; lia).
    rewrite !wrap_small by lia. repeat case_match; try done. eexists. split; [done|]. by eexists.
Qed.

Lemma cp866_decode_range b : is_byte b -> 0 <= cp866_decode b < 65536.
Proof.
  intros H. assert ((0 <=? cp866_decode b) && (cp866_decode b <? 65536) = true); [|lia].
  revert b H. apply (forall_range_spec 0 256 (fun b => (0 <=? cp866_decode b) && (cp866_decode b <? 65536))).
  vm_compute. done.
Qed.

#[global] Instance cp866_source : CharSource (list Z * Z * Z * Z) cp866_string_body 1
  (fun m a => cp866_decode (byte_at m a)) (fun st m esi edi ecx => st = (m, esi, edi, ecx)).
Proof.
  split.
  - split; [lia|]. intros m m' esi H. by rewrite H by lia.
  - intros m esi Hm. apply cp866_decode_range. by apply byte_at_range.
  - intros st m esi edi ecx m' r -> Hm Hlm Hesi Hfit Hedi Hroom E Hdelta.
    cbn [cp866_string_body]. rewrite ld8_ok by lia. run_step.
    pose proof (cp866_decode_range (byte_at m esi) (byte_at_range _ _ Hm)).
    rewrite (wrap_small 16) by lia. rewrite E. run_step.
    assert ((if negb (edi_delta r =? 0) then u32 (edi + edi_delta r) else edi) = edi + edi_delta r)
      as -> by (destruct (edi_delta r =? 0) eqn:?; cbn [negb]; rewrite ?wrap_small; lia).
    rewrite !wrap_small by lia. repeat case_match; try done. by eexists.
Qed.

(** Reading a UTF-8 text back, one [utf8to16_ptr] call after another with the
    register left by the call before, up to the NUL. *)
Fixpoint read_units (n : nat) (m : list Z) (esi eax : Z) : run (list Z) :=
  match n with
  | O => Fuel
  | S n =>
      '(esi, eax) ← utf8to16_ptr m esi eax;
      if u16 eax =? 0 then Done [0]
      else us ← read_units n m esi eax; Done (u16 eax :: us)
  end.

Lemma read_units_ok us : terminated us -> forall m a ecx eax, units us ->
  (encode_fit us ecx).2 = [] -> stored m a (encode_fit us ecx).1 -> 0 <= eax < 2 ^ 32 ->
  read_units (length us) m a eax = Done us.
Proof.
  intros Ht. induction Ht as [|c t Hc0 Ht IH]; intros m a ecx eax Hus Hfit Hs He;
    inversion_clear Hus as [|? ? Hc Hus']; cbn [encode_fit] in Hfit, Hs;
    (destruct (utf8_len _ <=? ecx); [|done]).
  - destruct (utf8to16_ptr_ok m a 0 eax) as (e & E & Eu & _); try done.
    cbn [read_units length]. rewrite E. run_step. by rewrite Eu.
  - specialize (IH m (a + utf8_len c) (ecx - utf8_len c)).
    destruct (encode_fit t (ecx - utf8_len c)) as [bs rest]. cbn in Hfit, Hs, IH.
    apply stored_app in Hs as [Hs1 Hs2].
    destruct (utf8to16_ptr_ok m a c eax) as (e & E & Eu & He'); try done.
    cbn [read_units length]. rewrite E. run_step. rewrite Eu. replace (c =? 0) with false by lia.
    by rewrite (IH e).
Qed.

Lemma encode_fit_budget us : forall ecx, 0 <= ecx -> mlen (encode_fit us ecx).1 <= ecx.
Proof.
  induction us as [|c t IH]; intros ecx He; cbn [encode_fit]; [done|].
  destruct (utf8_len c <=? ecx) eqn:E; [|done].
  specialize (IH (ecx - utf8_len c) ltac:(lia)). destruct (encode_fit t _) as [bs rest].
  cbn in *. rewrite mlen_app. change (mlen (utf8_bytes c)) with (utf8_len c). lia.
Qed.

Lemma stored_text_at m src text : stored m src text ->
  text_at 1 (fun m a => cp866_decode (byte_at m a)) m src (cp866_decode <$> text).
Proof.
  intros (Ha & Hfit & H). unfold text_at.
  assert (mlen (cp866_decode <$> text) = mlen text) as -> by (unfold mlen; by rewrite length_fmap).
  split_and!; [done|lia|]. intros i Hi. by rewrite Z.mul_1_l, H, byte_at_fmap by done.
Qed.

(** ** Theorems *)

(** C9: [utf16_to_8_string] on a NUL-terminated UTF-16 text stores, byte for byte,
    the UTF-8 of the longest run of whole characters that fits the budget and
    changes nothing else; if the text fits, NUL included, it reports success
    (ZF) with the advanced pointers and the remaining budget, and reading the result
    back with [utf8to16] yields the text; otherwise it reports overflow (SF) at the
    first character that did not fit. *)
Theorem utf16_string_to_utf8 m src dest ecx us eax :
  terminated us -> units us -> text_at 2 word16_at m src us -> bytes m -> mlen m < 2 ^ 32 ->
  0 <= ecx <= 2 ^ 31 -> 0 <= dest -> dest + ecx <= mlen m ->
  disjoint src (2 * mlen us) dest ecx -> 0 <= eax < 2 ^ 32 ->
  let '(bs, rest) := encode_fit us ecx in
  exists m', utf16_to_8_string m src dest ecx = Done (m', exit_regs (width := 2) src dest ecx us bs rest) /\
    updated m m' dest (mlen bs) (byte_at bs) /\
    (rest = [] -> read_units (length us) m' dest eax = Done us).
Proof.
  intros Ht Hus Htx Hm Hlm Hecx Hd Hfit Hdj He.
  destruct (encode_loop (body := utf16_string_body) us ecx (terminated_stops us Ht ecx) (S (length m)) (m, src, dest, ecx, 0) m src dest)
    as (m' & E & Hu); try done.
  - eexists. split; [done|lia].
  - destruct Htx as (? & ? & _). unfold mlen in *. lia.
  - pose proof (read_units_ok us Ht m' dest ecx eax Hus) as Hr.
    assert (mlen (encode_fit us ecx).1 <= ecx) as Hb by (apply encode_fit_budget; lia).
    destruct (encode_fit us ecx) as [bs rest]. exists m'. split_and!; [done..|].
    intros ->. apply Hr; try done. eapply updated_stored; [done..|]. cbn [fst] in *. lia.
Qed.

(** [cp866_to_utf8_string] does the same for a CP866 string: the output is the
    UTF-8 of the decoded characters that fit, with the same success and overflow
    reports. *)
Theorem cp866_string_to_utf8 m src dest ecx text eax :
  let us := cp866_decode <$> text in
  terminated us -> stored m src text -> bytes m -> mlen m < 2 ^ 32 ->
  0 <= ecx <= 2 ^ 31 -> 0 <= dest -> dest + ecx <= mlen m ->
  disjoint src (mlen text) dest ecx -> 0 <= eax < 2 ^ 32 ->
  let '(bs, rest) := encode_fit us ecx in
  exists m', cp866_to_utf8_string m src dest ecx = Done (m', exit_regs (width := 1) src dest ecx us bs rest) /\
    updated m m' dest (mlen bs) (byte_at bs) /\
    (rest = [] -> read_units (length us) m' dest eax = Done us).
Proof.
  intros us Ht Hs Hm Hlm Hecx Hd Hfit Hdj He.
  assert (mlen us = mlen text) as Hl by (unfold mlen, us; by rewrite length_fmap).
  assert (text_at 1 (fun m a => cp866_decode (byte_at m a)) m src us) as Htx
    by (by apply stored_text_at).
  assert (units us) as Hus.
  { apply Forall_lookup_2. intros i c Hi. apply list_lookup_fmap_Some in Hi as (b & -> & Hb).
    apply cp866_decode_range. destruct Hs as (Hs0 & Hs1 & Hs2). specialize (Hs2 (Z.of_nat i)).
    apply lookup_lt_Some in Hb as Hb'. rewrite (byte_at_lookup _ _ _ Hb) in Hs2.
    rewrite <- Hs2 by (unfold mlen; lia). by apply byte_at_range. }
  destruct (encode_loop (body := cp866_string_body) us ecx (terminated_stops us Ht ecx) (S (length m)) (m, src, dest, ecx) m src dest)
    as (m' & E & Hu); try done.
  - rewrite Hl. by rewrite Z.mul_1_l.
  - destruct Htx as (? & ? & _). unfold mlen in *. lia.
  - pose proof (read_units_ok us Ht m' dest ecx eax Hus) as Hr.
    assert (mlen (encode_fit us ecx).1 <= ecx) as Hb by (apply encode_fit_budget; lia).
    destruct (encode_fit us ecx) as [bs rest]. exists m'. split_and!; [done..|].
    intros ->. apply Hr; try done. eapply updated_stored; [done..|]. cbn [fst] in *. lia.
Qed.

(** ** Witnesses *)

(** "A", euro sign, NUL at 0; room from 8. *)
Definition wide_memory : list Z := [0x41; 0; 0xAC; 0x20; 0; 0; 9; 9; 9; 9; 9; 9; 9; 9; 9; 9].

Lemma utf16_string_to_utf8_witness :
  exists m', utf16_to_8_string wide_memory 0 8 5 = Done (m', mkSR 0 6 13 0 0 1) /\
    read_units 3 m' 8 0 = Done [0x41; 0x20AC; 0].
Proof.
  pose proof (utf16_string_to_utf8 wide_memory 0 8 5 [0x41; 0x20AC; 0] 0) as H.
  destruct H as (m' & H1 & _ & H3).
  - repeat constructor; lia.
  - repeat constructor; lia.
  - split_and!; [lia|unfold mlen; cbn; lia|]. intros i Hi. unfold mlen in Hi. cbn in Hi.
    assert (i = 0 \/ i = 1 \/ i = 2) as [->|[->| ->]] by lia; reflexivity.
  - unfold wide_memory. repeat constructor; unfold is_byte; lia.
  - unfold mlen. cbn. lia.
  - lia.
  - lia.
  - unfold mlen. cbn. lia.
  - left. unfold mlen. cbn. lia.
  - lia.
  - exists m'. split; [exact H1|apply H3; reflexivity].
Defined.

Lemma cp866_string_to_utf8_witness :
  exists m', cp866_to_utf8_string [0x8F; 0x42; 0; 0; 0; 0; 0] 0 3 4 = Done (m', mkSR 0 3 7 0 0 1) /\
    read_units 3 m' 3 0 = Done [0x41F; 0x42; 0].
Proof.
  pose proof (cp866_string_to_utf8 [0x8F; 0x42; 0; 0; 0; 0; 0] 0 3 4 [0x8F; 0x42; 0] 0) as H.
  destruct H as (m' & H1 & _ & H3).
  - apply term_cons; [vm_compute; congruence|]. apply term_cons; [vm_compute; congruence|]. apply term_nul.
  - split_and!; [lia|unfold mlen; cbn; lia|]. intros i Hi. unfold mlen in Hi. cbn in Hi.
    assert (i = 0 \/ i = 1 \/ i = 2) as [->|[->| ->]] by lia; reflexivity.
  - repeat constructor; unfold is_byte; lia.
  - unfold mlen. cbn. lia.
  - lia.
  - lia.
  - unfold mlen. cbn. lia.
  - left. unfold mlen. cbn. lia.
  - lia.
  - exists m'. split; [exact H1|apply H3; reflexivity].
Defined.
