(* ===== verification/Ntfs.v ===== *)
(** * NTFS run lists, update sequence arrays and boot sectors

    [ntfs_mcb.rs] (decoding one data run), [ntfs_create_mcb.rs] (encoding one and
    making room for it in the file record), [ntfs_usa.rs] (torn-write protection of
    multi-sector records) and [ntfs_bootsec.rs] (volume recognition).  The pointer
    forms run in one memory that holds record, run list and output buffer; every
    counted loop gets one step more than its count. *)

From stdpp Require Import base list.
From Stdlib Require Import ZArith Lia.
From S2P Require Import Prelude.

(** ** [ntfs_mcb.rs] *)

Record McbDecodeResult := mkMcb { more : bool; mcb_consumed : Z }.

(** [v.to_le_bytes()] stored at [dst]. *)
Definition store_u64_le (m : list Z) (dst v : Z) : run (list Z) :=
  m ← st8 m dst (byte_of v 0);
  m ← st8 m (dst + 1) (byte_of v 1);
  m ← st8 m (dst + 2) (byte_of v 2);
  m ← st8 m (dst + 3) (byte_of v 3);
  m ← st8 m (dst + 4) (byte_of v 4);
  m ← st8 m (dst + 5) (byte_of v 5);
  m ← st8 m (dst + 6) (byte_of v 6);
  st8 m (dst + 7) (byte_of v 7).

(** [x |= (b as u64) << (8 * i)] *)
Definition or_byte (x b i : Z) : Z := Z.lor x (u64 (Z.shiftl b (8 * i))).
(** [(!0u64) << (8 * n)] *)
Definition sign_fill (n : Z) : Z := u64 (Z.shiftl (2 ^ 64 - 1) (8 * n)).

(** The length loop: copies the byte to the buffer as it assembles the value. *)
Definition mcb_len_body (length_len buffer : Z) (st : list Z * Z * Z * Z)
    : run (list Z * Z * Z * Z + list Z * Z * Z) :=
  let '(m, esi, run, i) := st in
  if i <? length_len then
    b ← ld8 m esi;
    let esi := esi + 1 in
    let run := or_byte run b i in
    m ← st8 m (buffer + i) b;
    Done (inl (m, esi, run, i + 1))
  else Done (inr (m, esi, run)).

Definition mcb_cluster_body (m : list Z) (cluster_len : Z) (st : Z * Z * Z)
    : run (Z * Z * Z + Z * Z) :=
  let '(esi, cluster, i) := st in
  if i <? cluster_len then
    b ← ld8 m esi;
    Done (inl (esi + 1, or_byte cluster b i, i + 1))
  else Done (inr (esi, cluster)).

(** Returns memory, the new [*esi_inout] and the result code. *)
Definition ntfs_decode_mcb_entry_ptr (m : list Z) (esi buffer : Z) : run (list Z * Z * Z) :=
  header ← ld8 m esi;
  let esi := esi + 1 in
  if header =? 0 then Done (m, esi, 0)
  else
    let length_len := Z.land header 0x0F in
    if 8 <? length_len then Done (m, esi, 0)
    else
      '(m, esi, run) ← loop 9 (mcb_len_body length_len buffer) (m, esi, 0, 0);
      last_len_byte ← ld8 m (esi - 1);
      if 0x80 <=? last_len_byte then Done (m, esi, 0)
      else
        m ← store_u64_le m buffer run;
        let cluster_len := Z.shiftr header 4 in
        if 8 <? cluster_len then Done (m, esi, 0)
        else
          '(esi, cluster) ← loop 9 (mcb_cluster_body m cluster_len) (esi, 0, 0);
          last_cluster_ref ← ld8 m (esi - 1);
          let cluster :=
            if (0x80 <=? last_cluster_ref) && (cluster_len <? 8)
            then Z.lor cluster (sign_fill cluster_len) else cluster in
          m ← store_u64_le m (buffer + 8) cluster;
          Done (m, esi, 1).

(** The slice form: [entry] and the 16-byte [buf] are separate objects. *)
Definition copy_len_body (entry : list Z) (length_len : Z) (st : list Z * Z)
    : run (list Z * Z + list Z) :=
  let '(buf, i) := st in
  if i <? length_len then
    b ← ld8 entry (1 + i);
    buf ← st8 buf i b;
    Done (inl (buf, i + 1))
  else Done (inr buf).

(** [acc |= (src[off + i] as u64) << (8 * i)] for [i < n]. *)
Definition gather_le_body (src : list Z) (off n : Z) (st : Z * Z) : run (Z * Z + Z) :=
  let '(acc, i) := st in
  if i <? n then
    b ← ld8 src (off + i);
    Done (inl (or_byte acc b i, i + 1))
  else Done (inr acc).

Definition ntfs_decode_mcb_entry (entry buf : list Z) : run (list Z * McbDecodeResult) :=
  if mlen entry =? 0 then Done (buf, mkMcb false 0)
  else
    header ← ld8 entry 0;
    if header =? 0 then Done (buf, mkMcb false 1)
    else
      let length_len := Z.land header 0x0F in
      if 8 <? length_len then Done (buf, mkMcb false 1)
      else if mlen entry <? 1 + length_len then Done (buf, mkMcb false 1)
      else
        buf ← loop 9 (copy_len_body entry length_len) (buf, 0);
        last_len_byte ← (if length_len =? 0 then Done header else ld8 entry length_len);
        if 0x80 <=? last_len_byte then Done (buf, mkMcb false (1 + length_len))
        else
          run ← loop 9 (gather_le_body buf 0 length_len) (0, 0);
          buf ← store_u64_le buf 0 run;
          let cluster_len := Z.shiftr header 4 in
          if 8 <? cluster_len then Done (buf, mkMcb false (1 + length_len))
          else
            let cluster_off := 1 + length_len in
            if mlen entry <? cluster_off + cluster_len
            then Done (buf, mkMcb false (1 + length_len))
            else
              cluster ← loop 9 (gather_le_body entry cluster_off cluster_len) (0, 0);
              last_cluster_ref ← (if cluster_len =? 0 then Done last_len_byte
                else ld8 entry (cluster_off + cluster_len - 1));
              let cluster :=
                if 0x80 <=? last_cluster_ref then
                  (if cluster_len <? 8 then Z.lor cluster (sign_fill cluster_len) else cluster)
                else cluster in
              buf ← store_u64_le buf 8 cluster;
              Done (buf, mkMcb true (1 + length_len + cluster_len)).

(** ** [ntfs_create_mcb.rs] *)

Definition OFF_SIZE_WITH_HEADER : Z := 4.
Definition OFF_RECORD_REAL_SIZE : Z := 0x18.
Definition OFF_RECORD_ALLOCATED_SIZE : Z := 0x1C.

Definition width_body (st : Z * Z) : run (Z * Z + Z) :=
  let '(eax, w) := st in
  let w := w +ₘ 1 in
  let eax := Z.shiftr eax 8 in
  if eax =? 0 then Done (inr w) else Done (inl (eax, w)).

Definition mcb_start_width (start : Z) : run Z :=
  let cf := negb (Z.land start 0x80000000 =? 0) in
  let eax := start <<ₘ 1 in
  let eax := if cf then 2 ^ 32 - 1 - eax else eax in
  loop 5 width_body (eax, 0).

Definition mcb_size_width (size : Z) : run Z := loop 5 width_body (size <<ₘ 1, 0).

Definition write_le_body (p n : Z) (st : list Z * Z * Z) : run (list Z * Z * Z + list Z) :=
  let '(m, x, i) := st in
  if i <? n then
    m ← st8 m (p + i) (u8 x);
    Done (inl (m, Z.shiftr x 8, i +ₘ 1))
  else Done (inr m).

Definition write_le_bytes_ptr (m : list Z) (p v n : Z) : run (list Z) :=
  loop 5 (write_le_body p n) (m, v, 0).

(** State: memory, [src], [dst], [i]. *)
Definition slide_body (count : Z) (st : list Z * Z * Z * Z) : run (list Z * Z * Z * Z + list Z) :=
  let '(m, src, dst, i) := st in
  if i <? count then
    v ← ld32 m src;
    m ← st32 m dst v;
    Done (inl (m, src - 4, dst - 4, i +ₘ 1))
  else Done (inr m).

Definition frs_slide_make_room_ptr (m : list Z) (frs dest new_real : Z) : run (list Z) :=
  let dest_off := dest -ₘ frs in
  let src := frs + (new_real -ₘ 12) in
  let dst := frs + (new_real -ₘ 4) in
  let count := (new_real -ₘ dest_off -ₘ 8) / 4 in
  loop (S (Z.to_nat count)) (slide_body count) (m, src, dst, 0).

(** The closing block of the encoder: header, size, start, terminator.  Returns
    memory and the advanced [edi]. *)
Definition mcb_emit (m : list Z) (dest start size start_w size_w : Z) : run (list Z * Z) :=
  let edi := dest in
  m ← st8 m edi (u8 (Z.lor (Z.land start_w 0x0F <<ₘ 4) (Z.land size_w 0x0F)));
  let edi := edi + 1 in
  m ← write_le_bytes_ptr m edi size size_w;
  let edi := edi + size_w in
  m ← write_le_bytes_ptr m edi start start_w;
  let edi := edi + start_w in
  m ← st8 m edi 0;
  Done (m, edi).

(** Returns memory, [*out_dest] and the need-[cld] flag. *)
Definition ntfs_create_mcb_entry_ptr (m : list Z) (start size dest attr frs : Z)
    : run (list Z * Z * Z) :=
  start_w ← mcb_start_width start;
  size_w ← mcb_size_width size;
  attr_size ← ld32 m (attr + OFF_SIZE_WITH_HEADER);
  let new_end := dest +ₘ start_w +ₘ 1 +ₘ size_w in
  let attr_end := attr +ₘ attr_size in
  let borrow := new_end <? attr_end in
  let need_extend := negb borrow in
  r ← (if need_extend then
         sw ← ld32 m (attr + OFF_SIZE_WITH_HEADER);
         let low := u16 (u16 sw + 8) in
         let new_sw := Z.lor (Z.land sw 0xFFFF0000) low in
         m ← st32 m (attr + OFF_SIZE_WITH_HEADER) new_sw;
         record_real ← ld32 m (frs + OFF_RECORD_REAL_SIZE);
         record_alloc ← ld32 m (frs + OFF_RECORD_ALLOCATED_SIZE);
         let new_real := record_real +ₘ 8 in
         if record_alloc <? new_real then Done (inr m)
         else
           m ← st32 m (frs + OFF_RECORD_REAL_SIZE) new_real;
           m ← frs_slide_make_room_ptr m frs dest new_real;
           Done (inl (m, 1))
       else Done (inl (m, 0)));
  match r with
  | inr m => Done (m, dest, 0)
  | inl (m, need_cld) =>
      '(m, edi) ← mcb_emit m dest start size start_w size_w;
      Done (m, edi, need_cld)
  end.

(** ** Little-endian values *)

Fixpoint le_val (bs : list Z) : Z :=
  match bs with
  | [] => 0
  | b :: t => b + 256 * le_val t
  end.

Fixpoint le_bytes (n : nat) (v : Z) : list Z :=
  match n with
  | O => []
  | S k => v mod 256 :: le_bytes k (v / 256)
  end.

Lemma length_le_bytes n v : length (le_bytes n v) = n.
Proof. revert v. induction n as [|n IH]; intros v; cbn; [done|by rewrite IH]. Qed.

Lemma mlen_le_bytes n v : mlen (le_bytes n v) = Z.of_nat n.
Proof. unfold mlen. by rewrite length_le_bytes. Qed.

Lemma bytes_le_bytes n v : bytes (le_bytes n v).
Proof.
  revert v. induction n as [|n IH]; intros v; constructor; [|apply IH].
  apply (Z.mod_pos_bound v 256). lia.
Qed.

Lemma le_val_le_bytes n : forall v, 0 <= v -> le_val (le_bytes n v) = v mod 256 ^ Z.of_nat n.
Proof.
  induction n as [|n IH]; intros v Hv; [by rewrite Z.mod_1_r|].
  cbn [le_bytes le_val]. rewrite IH by (apply Z.div_pos; lia).
  rewrite pow256_S. rewrite Z.rem_mul_r by (try apply Z.pow_pos_nonneg; lia). done.
Qed.

Lemma le_val_range bs : bytes bs -> 0 <= le_val bs < 256 ^ mlen bs.
Proof.
  induction 1 as [|b t Hb Ht IH]; [done|]. unfold mlen in *. cbn [length le_val].
  rewrite pow256_S. unfold is_byte in Hb. generalize dependent (256 ^ Z.of_nat (length t)).
  intros. lia.
Qed.

Lemma le_val_app a b : le_val (a ++ b) = le_val a + 256 ^ mlen a * le_val b.
Proof.
  induction a as [|x a IH].
  { cbn [app le_val]. change (256 ^ mlen []) with 1. lia. }
  cbn [app le_val]. rewrite IH.
  unfold mlen. cbn [length]. rewrite pow256_S. lia.
Qed.

Lemma byte_at_le_bytes n : forall v k, 0 <= k < Z.of_nat n -> byte_at (le_bytes n v) k = v / 256 ^ k mod 256.
Proof.
  induction n as [|n IH]; intros v k Hk; [lia|]. cbn [le_bytes]. rewrite byte_at_cons.
  destruct (k =? 0) eqn:E.
  - replace k with 0 by lia. by rewrite Z.div_1_r.
  - rewrite IH by lia. rewrite Z.div_div by (try apply Z.pow_pos_nonneg; lia).
    do 2 f_equal. rewrite <- (Z.pow_succ_r 256 (k - 1)) by lia. f_equal. lia.
Qed.

Lemma byte_of_eq v k : 0 <= k -> byte_of v k = v / 256 ^ k mod 256.
Proof.
  intros. unfold byte_of, wrap. rewrite shr_eq by lia. rewrite Z.pow_mul_r by lia. done.
Qed.

Lemma or_byte_eq x b i : 0 <= x < 256 ^ i -> is_byte b -> 0 <= i < 8 ->
  or_byte x b i = x + 256 ^ i * b.
Proof.
  unfold is_byte. intros Hx Hb Hi. unfold or_byte. rewrite Z.shiftl_mul_pow2 by lia.
  assert (2 ^ (8 * i) = 256 ^ i) as Hp by (by rewrite Z.pow_mul_r by lia).
  rewrite wrap_small.
  - rewrite lor_tag by lia. lia.
  - split; [nia|]. rewrite Hp.
    assert (256 ^ i <= 256 ^ 7) by (apply Z.pow_le_mono_r; lia). change (256 ^ 7) with (2 ^ 56) in *. nia.
Qed.

(** The first [i] bytes gathered so far, and one more. *)
Lemma le_val_take_S bs i : bytes bs -> 0 <= i < mlen bs -> i < 8 ->
  or_byte (le_val (take (Z.to_nat i) bs)) (byte_at bs i) i = le_val (take (Z.to_nat (i + 1)) bs).
Proof.
  intros Hb Hi H8.
  assert (mlen (take (Z.to_nat i) bs) = i) as Hl
    by (unfold mlen in *; rewrite length_take; lia).
  pose proof (le_val_range (take (Z.to_nat i) bs) (Forall_take _ _ _ Hb)) as Hr. rewrite Hl in Hr.
  rewrite or_byte_eq by (try apply byte_at_range; done || lia).
  replace (Z.to_nat (i + 1)) with (S (Z.to_nat i)) by lia.
  unfold byte_at. replace (i <? 0) with false by lia.
  destruct (lookup_lt_is_Some_2 bs (Z.to_nat i)) as [x Ex]; [unfold mlen in Hi; lia|].
  rewrite Ex, (take_S_r _ _ _ Ex), le_val_app, Hl. cbn. lia.
Qed.

Lemma take_all (bs : list Z) : take (Z.to_nat (mlen bs)) bs = bs.
Proof. unfold mlen. rewrite Nat2Z.id. by rewrite firstn_all. Qed.

(** ** The gathering loops *)

Lemma gather_le_ok src off bs : stored src off bs -> bytes bs -> mlen bs <= 8 ->
  loop 9 (gather_le_body src off (mlen bs)) (0, 0) = Done (le_val bs).
Proof.
  intros Hs Hb Hn. destruct (loop_total
    (fun st => exists i, 0 <= i <= mlen bs /\ st = (le_val (take (Z.to_nat i) bs), i))
    (fun st => Z.to_nat (mlen bs - st.2)) (fun r => r = le_val bs)
    (gather_le_body src off (mlen bs))) with (fuel := 9%nat) (s := (0, 0)) as (r & -> & ->); [..|done].
  - intros ? (i & Hi & ->). unfold gather_le_body. destruct (i <? mlen bs) eqn:E.
    + rewrite (stored_ld8 _ _ _ _ Hs) by lia. run_step. rewrite le_val_take_S by (done || lia).
      eexists. split; [done|]. cbn. split; [|lia]. exists (i + 1). split; [lia|done].
    + eexists. split; [done|]. replace i with (mlen bs) by lia. by rewrite take_all.
  - exists 0. split; [pose proof (mlen_nonneg bs); lia|done].
  - cbn [snd]. lia.
Qed.

Lemma mcb_cluster_ok m esi bs : stored m esi bs -> bytes bs -> mlen bs <= 8 ->
  loop 9 (mcb_cluster_body m (mlen bs)) (esi, 0, 0) = Done (esi + mlen bs, le_val bs).
Proof.
  intros Hs Hb Hn. destruct (loop_total
    (fun st => exists i, 0 <= i <= mlen bs /\ st = (esi + i, le_val (take (Z.to_nat i) bs), i))
    (fun st => Z.to_nat (mlen bs - st.2)) (fun r => r = (esi + mlen bs, le_val bs))
    (mcb_cluster_body m (mlen bs))) with (fuel := 9%nat) (s := (esi, 0, 0)) as (r & -> & ->); [..|done].
  - intros ? (i & Hi & ->). unfold mcb_cluster_body. destruct (i <? mlen bs) eqn:E.
    + rewrite (stored_ld8 _ _ _ _ Hs) by lia. run_step. rewrite le_val_take_S by (done || lia).
      eexists. split; [done|]. cbn. split; [|lia]. exists (i + 1). split; [lia|].
      apply f_equal2; [apply f_equal2|]; done || lia.
    + eexists. split; [done|]. replace i with (mlen bs) by lia. by rewrite take_all.
  - exists 0. split; [pose proof (mlen_nonneg bs); lia|].
    apply f_equal2; [apply f_equal2|]; done || lia.
  - cbn [snd]. lia.
Qed.

Lemma mcb_len_ok m esi buffer bs : stored m esi bs -> bytes bs -> mlen bs <= 8 ->
  0 <= buffer -> buffer + 16 <= mlen m -> disjoint esi (mlen bs) buffer 16 ->
  exists m', loop 9 (mcb_len_body (mlen bs) buffer) (m, esi, 0, 0) = Done (m', esi + mlen bs, le_val bs)
    /\ updated m m' buffer (mlen bs) (byte_at bs).
Proof.
  intros Hs Hb Hn Hbuf Hfit Hd. destruct (loop_total
    (fun st => exists i m', 0 <= i <= mlen bs /\
       st = (m', esi + i, le_val (take (Z.to_nat i) bs), i) /\ updated m m' buffer i (byte_at bs))
    (fun st => Z.to_nat (mlen bs - st.2))
    (fun r => exists m', r = (m', esi + mlen bs, le_val bs) /\ updated m m' buffer (mlen bs) (byte_at bs))
    (mcb_len_body (mlen bs) buffer)) with (fuel := 9%nat) (s := (m, esi, 0, 0))
    as (r & E & m' & -> & Hu); [..|by exists m'].
  - intros ? (i & m1 & Hi & -> & Hu). unfold mcb_len_body. destruct (i <? mlen bs) eqn:E.
    + assert (stored m1 esi bs) as Hs1
        by (eapply stored_frame; [done..|unfold disjoint in *; lia]).
      rewrite (stored_ld8 _ _ _ _ Hs1) by lia. run_step. rewrite le_val_take_S by (done || lia).
      destruct (updated_st8 m m1 buffer i (byte_at bs) (byte_at bs i)) as (m2 & -> & Hu2);
        [lia..|done|done|]. run_step.
      eexists. split; [done|]. cbn. split; [|lia]. exists (i + 1), m2. split_and!; [lia..| |done].
      apply f_equal2; [apply f_equal2; [apply f_equal2|]|]; done || lia.
    + eexists. split; [done|]. exists m1. replace i with (mlen bs) in * by lia. by rewrite take_all.
  - exists 0, m. pose proof (mlen_nonneg bs). split_and!; [lia..| |apply updated_refl].
    apply f_equal2; [apply f_equal2; [apply f_equal2|]|]; done || lia.
  - cbn [snd]. lia.
Qed.

Lemma copy_len_ok entry buf bs : stored entry 1 bs -> mlen bs <= 8 -> mlen buf = 16 ->
  exists buf', loop 9 (copy_len_body entry (mlen bs)) (buf, 0) = Done buf' /\
    updated buf buf' 0 (mlen bs) (byte_at bs).
Proof.
  intros Hs Hn Hbuf. apply (loop_total
    (fun st => exists i buf', 0 <= i <= mlen bs /\ st = (buf', i) /\ updated buf buf' 0 i (byte_at bs))
    (fun st => Z.to_nat (mlen bs - st.2))).
  - intros ? (i & b1 & Hi & -> & Hu). unfold copy_len_body. destruct (i <? mlen bs) eqn:E.
    + rewrite (stored_ld8 _ _ _ _ Hs) by lia. run_step.
      destruct (updated_st8 buf b1 0 i (byte_at bs) (byte_at bs i)) as (b2 & E2 & Hu2); [lia..|done|done|].
      rewrite Z.add_0_l in E2. rewrite E2. run_step.
      eexists. split; [done|]. cbn. split; [|lia]. exists (i + 1), b2. split_and!; done || lia.
    + eexists. split; [done|]. by replace (mlen bs) with i by lia.
  - exists 0, buf. pose proof (mlen_nonneg bs). split_and!; [lia..|done|apply updated_refl].
  - cbn [snd]. lia.
Qed.

Lemma store_u64_ok m dst v : 0 <= dst -> dst + 8 <= mlen m ->
  exists m', store_u64_le m dst v = Done m' /\ updated m m' dst 8 (byte_at (le_bytes 8 v)).
Proof.
  intros Hd Hfit. unfold store_u64_le.
  assert (forall k, 0 <= k < 8 -> byte_of v k = byte_at (le_bytes 8 v) k) as Hk.
  { intros k Hk. rewrite byte_at_le_bytes, byte_of_eq by lia. done. }
  pose proof (updated_refl m dst (byte_at (le_bytes 8 v))) as Hu.
  replace (st8 m dst (byte_of v 0)) with (st8 m (dst + 0) (byte_of v 0)) by (f_equal; lia).
  do 8 (match goal with H : updated m ?m1 dst ?n _ |- context [st8 ?m1 (dst + ?n') (byte_of v ?n')] =>
    destruct (updated_st8 m m1 dst n' (byte_at (le_bytes 8 v)) (byte_of v n')) as (? & -> & ?);
      [lia..|done|apply Hk; lia|]; cbn [Z.add Pos.add Pos.succ Pos.add_carry] in *; run_step end).
  eexists. split; [done|]. done.
Qed.

(** ** Decoding one run *)

Lemma sign_fill_or x n : 0 <= n < 8 -> 0 <= x < 256 ^ n -> Z.lor x (sign_fill n) = x + (2 ^ 64 - 256 ^ n).
Proof.
  intros Hn Hx. unfold sign_fill. rewrite Z.shiftl_mul_pow2 by lia.
  assert (2 ^ (8 * n) = 256 ^ n) as Hp by (by rewrite Z.pow_mul_r by lia).
  assert (0 < 256 ^ n) by (apply Z.pow_pos_nonneg; lia).
  assert (2 ^ 64 = 2 ^ (64 - 8 * n) * 2 ^ (8 * n)) as H64 by (rewrite <- Z.pow_add_r by lia; f_equal; lia).
  assert (0 < 2 ^ (64 - 8 * n)) by (apply Z.pow_pos_nonneg; lia).
  assert (u64 ((2 ^ 64 - 1) * 2 ^ (8 * n)) = (2 ^ (64 - 8 * n) - 1) * 2 ^ (8 * n)) as ->.
  { unfold wrap. replace ((2 ^ 64 - 1) * 2 ^ (8 * n))
      with ((2 ^ (64 - 8 * n) - 1) * 2 ^ (8 * n) + (2 ^ (8 * n) - 1) * 2 ^ 64) by lia.
    rewrite Z.mod_add by lia. apply Z.mod_small. nia. }
  rewrite lor_tag by lia. lia.
Qed.

(** What one entry [h :: rest] says, written on lists: the 16-byte buffer after
    the call, whether a run was decoded, and the bytes consumed. *)
Definition mcb_ref (h : Z) (rest buf : list Z) : list Z * McbDecodeResult :=
  let lw := h mod 16 in let cw := h / 16 in
  let lbs := take (Z.to_nat lw) rest in
  let cbs := take (Z.to_nat cw) (drop (Z.to_nat lw) rest) in
  let last_len := byte_at (h :: rest) lw in
  if (h =? 0) || (8 <? lw) then (buf, mkMcb false 1)
  else if 0x80 <=? last_len then (lbs ++ drop (length lbs) buf, mkMcb false (1 + lw))
  else if 8 <? cw then
    (le_bytes 8 (le_val lbs) ++ drop 8 buf, mkMcb false (1 + lw))
  else
    let last := byte_at (h :: rest) (lw + cw) in
    let cluster := if (0x80 <=? last) && (cw <? 8) then le_val cbs + (2 ^ 64 - 256 ^ cw) else le_val cbs in
    (le_bytes 8 (le_val lbs) ++ le_bytes 8 cluster, mkMcb true (1 + lw + cw)).

Lemma updated_over m m1 m2 a n k f g : updated m m1 a n f -> updated m1 m2 a k g -> n <= k ->
  updated m m2 a k g.
Proof.
  intros [Hl1 H1] [Hl2 H2] Hk. split; [by rewrite Hl2|]. intros i. rewrite H2, H1.
  repeat case_match; try lia; done.
Qed.

Lemma byte_at_drop l n i : 0 <= i -> byte_at (drop n l) i = byte_at l (Z.of_nat n + i).
Proof.
  intros. unfold byte_at. pose proof (Nat2Z.is_nonneg n).
  replace (i <? 0) with false by lia. replace (Z.of_nat n + i <? 0) with false by lia.
  rewrite lookup_drop. do 2 f_equal. lia.
Qed.

Lemma updated_widen m m' a bs buf : stored m a buf -> mlen bs <= mlen buf ->
  updated m m' a (mlen bs) (byte_at bs) ->
  updated m m' a (mlen buf) (byte_at (bs ++ drop (length bs) buf)).
Proof.
  intros (Ha & Hfit & H) Hl [Hlen Hu]. split; [done|]. intros i. rewrite Hu.
  pose proof (mlen_nonneg bs).
  destruct ((a <=? i) && (i <? a + mlen buf)) eqn:E.
  - rewrite byte_at_app by lia. destruct ((a <=? i) && (i <? a + mlen bs)) eqn:E'.
    + by replace (i - a <? mlen bs) with true by lia.
    + replace (i - a <? mlen bs) with false by lia. rewrite byte_at_drop by lia.
      rewrite <- H by (unfold mlen in *; lia). f_equal. unfold mlen in *. lia.
  - by replace ((a <=? i) && (i <? a + mlen bs)) with false by lia.
Qed.

Lemma updated_list buf buf' bs : mlen bs <= mlen buf -> updated buf buf' 0 (mlen bs) (byte_at bs) ->
  buf' = bs ++ drop (length bs) buf.
Proof.
  intros Hl Hu. assert (stored buf 0 buf) as Hs by (split_and!; [lia..|done]).
  destruct (updated_widen buf buf' 0 bs buf Hs Hl Hu) as [Hlen Hb]. apply mem_ext.
  - rewrite mlen_app. unfold mlen in *. rewrite length_drop. lia.
  - intros i Hi. rewrite Hb. replace ((0 <=? i) && (i <? 0 + mlen buf)) with true by lia. f_equal. lia.
Qed.

(** Parts of an entry stored as a whole. *)
Lemma stored_take m a bs n : stored m a bs -> stored m a (take n bs).
Proof. intros H. rewrite <- (take_drop n bs) in H. by apply stored_app in H as [? _]. Qed.

Lemma stored_skip m a bs n : stored m a bs -> (n <= length bs)%nat -> stored m (a + Z.of_nat n) (drop n bs).
Proof.
  intros H Hn. rewrite <- (take_drop n bs) in H. apply stored_app in H as [_ H].
  unfold mlen in H. by rewrite length_take, Nat.min_l in H.
Qed.

Section Entry.
Context (h : Z) (rest : list Z).
Context (Hh : is_byte h) (Hrest : bytes rest) (Hlen : 16 <= mlen rest).
Local Abbreviation lw := (h mod 16).
Local Abbreviation cw := (h / 16).
Local Abbreviation lbs := (take (Z.to_nat (h mod 16)) rest).
Local Abbreviation cbs := (take (Z.to_nat (h / 16)) (drop (Z.to_nat (h mod 16)) rest)).

Lemma widths : 0 <= lw < 16 /\ 0 <= cw < 16 /\ Z.land h 0x0F = lw /\ Z.shiftr h 4 = cw.
Proof.
  unfold is_byte in *. rewrite (land_mask _ 4), shr_eq by lia. unfold wrap.
  change (2 ^ 4) with 16. Z.div_mod_to_equations. lia.
Qed.

Lemma part_lens : lw <= 8 -> cw <= 8 -> mlen lbs = lw /\ mlen cbs = cw.
Proof.
  intros. destruct widths as (? & ? & _). unfold mlen in *.
  rewrite !length_take, length_drop. lia.
Qed.

Lemma lbs_len : mlen lbs = lw.
Proof. destruct widths as (? & ? & _). unfold mlen in *. rewrite length_take. lia. Qed.

Lemma lbs_bytes : bytes lbs.
Proof. by apply Forall_take. Qed.

Lemma cbs_bytes : bytes cbs.
Proof. by apply Forall_take, Forall_drop. Qed.

Lemma entry_parts m a : stored m a (h :: rest) -> lw <= 8 -> cw <= 8 ->
  ld8 m a = Done h /\ stored m (a + 1) lbs /\ stored m (a + 1 + lw) cbs.
Proof.
  intros Hs Hl Hc. destruct widths as (? & ? & _). split_and!.
  - rewrite <- (Z.add_0_r a). apply (stored_ld8 _ _ _ 0 Hs). rewrite mlen_cons. lia.
  - apply stored_take. apply (stored_skip _ _ _ 1 Hs). cbn. lia.
  - replace (a + 1 + lw) with (a + Z.of_nat (S (Z.to_nat lw))) by lia. apply stored_take.
    apply (stored_skip _ _ _ (S (Z.to_nat lw)) Hs). unfold mlen in *. cbn [length]. lia.
Qed.

(** The cluster value after the sign fill. *)
Lemma cluster_eq last : lw <= 8 -> cw <= 8 ->
  (if (0x80 <=? last) && (cw <? 8) then Z.lor (le_val cbs) (sign_fill cw) else le_val cbs) =
  (if (0x80 <=? last) && (cw <? 8) then le_val cbs + (2 ^ 64 - 256 ^ cw) else le_val cbs).
Proof.
  intros Hl Hc. destruct widths as (? & ? & _). case_match; [|done].
  apply sign_fill_or; [lia|]. pose proof (le_val_range cbs cbs_bytes) as Hr.
  destruct (part_lens Hl Hc) as [_ E]. by rewrite E in Hr.
Qed.

(** The pointer decoder computes [mcb_ref] in place. *)
Lemma decode_ptr_ok m esi buffer buf : stored m esi (h :: rest) -> stored m buffer buf ->
  mlen buf = 16 -> disjoint esi (1 + mlen rest) buffer 16 ->
  exists m', ntfs_decode_mcb_entry_ptr m esi buffer =
    Done (m', esi + mcb_consumed (mcb_ref h rest buf).2, bool_to_Z (more (mcb_ref h rest buf).2)) /\
    updated m m' buffer 16 (byte_at (mcb_ref h rest buf).1).
Proof.
  intros Hs Hbuf H16 Hd. destruct widths as (Hlw & Hcw & Eland & Eshr).
  assert (ld8 m esi = Done h) as Eh.
  { rewrite <- (Z.add_0_r esi). apply (stored_ld8 _ _ _ 0 Hs). rewrite mlen_cons. lia. }
  unfold ntfs_decode_mcb_entry_ptr, mcb_ref. rewrite Eh. run_step. rewrite Eland, Eshr.
  assert (updated m m buffer 16 (byte_at buf)) as Hid.
  { pose proof (updated_widen m m buffer [] buf Hbuf) as W. rewrite H16 in W.
    apply W; [by vm_compute|apply updated_refl]. }
  destruct (h =? 0); [by exists m|]. destruct (8 <? lw) eqn:E8; [by exists m|]. cbn [orb].
  destruct (mcb_len_ok m (esi + 1) buffer lbs) as (m1 & E1 & Hu1).
  { apply stored_take. apply (stored_skip _ _ _ 1 Hs). cbn. lia. }
  { apply lbs_bytes. }
  { rewrite lbs_len. lia. }
  { apply Hbuf. }
  { rewrite <- H16. apply Hbuf. }
  { rewrite lbs_len. unfold disjoint in *. lia. }
  rewrite lbs_len in E1, Hu1. rewrite E1. run_step.
  assert (stored m1 esi (h :: rest)) as Hs1.
  { eapply stored_frame; [done..|]. rewrite mlen_cons. unfold disjoint in *. lia. }
  replace (esi + 1 + lw - 1) with (esi + lw) by lia.
  rewrite (stored_ld8 _ _ _ _ Hs1) by (rewrite mlen_cons; lia). run_step.
  destruct (0x80 <=? byte_at (h :: rest) lw) eqn:Eneg.
  { exists m1. split; [cbn; do 3 f_equal; lia|].
    pose proof (updated_widen m m1 buffer lbs buf Hbuf) as W. rewrite H16, lbs_len in W.
    apply W; [lia|done]. }
  assert (mlen m1 = mlen m) as Hm1 by apply Hu1.
  pose proof Hbuf as (Hb0 & Hb16 & _). rewrite H16 in Hb16.
  destruct (store_u64_ok m1 buffer (le_val lbs)) as (m2 & E2 & Hu2); [lia..|].
  rewrite E2. run_step. assert (updated m m2 buffer 8 (byte_at (le_bytes 8 (le_val lbs)))) as Hu02
    by (eapply updated_over; [done..|lia]).
  destruct (8 <? cw) eqn:E8c.
  { exists m2. split; [cbn; do 3 f_equal; lia|].
    pose proof (updated_widen m m2 buffer (le_bytes 8 (le_val lbs)) buf) as W.
    rewrite H16, mlen_le_bytes in W. apply W; [done|lia|done]. }
  assert (stored m2 esi (h :: rest)) as Hs2.
  { eapply stored_frame; [exact Hs1|done|]. rewrite mlen_cons. unfold disjoint in *. lia. }
  destruct (part_lens ltac:(lia) ltac:(lia)) as [_ Hcl].
  assert (loop 9 (mcb_cluster_body m2 cw) (esi + 1 + lw, 0, 0) = Done (esi + 1 + lw + cw, le_val cbs)) as ->.
  { rewrite <- Hcl at 1. rewrite mcb_cluster_ok; [by rewrite Hcl|apply (entry_parts m2 esi); [done|lia..]|
      apply cbs_bytes|lia]. }
  run_step. replace (esi + 1 + lw + cw - 1) with (esi + (lw + cw)) by lia.
  rewrite (stored_ld8 _ _ _ _ Hs2) by (rewrite mlen_cons; lia). run_step.
  rewrite cluster_eq by lia.
  set (cl := if (0x80 <=? byte_at (h :: rest) (lw + cw)) && (cw <? 8) then _ else _).
  destruct (store_u64_ok m2 (buffer + 8) cl) as (m3 & E3 & Hu3); [lia|destruct Hu2; lia|].
  rewrite E3. run_step. exists m3. split; [cbn; do 3 f_equal; lia|].
  apply (updated_app m m2 m3 buffer (le_bytes 8 (le_val lbs)) (le_bytes 8 cl)); done.
Qed.

(** The slice decoder computes [mcb_ref] on a separate buffer. *)
Lemma decode_slice_ok buf : mlen buf = 16 ->
  ntfs_decode_mcb_entry (h :: rest) buf = Done (mcb_ref h rest buf).
Proof.
  intros H16. destruct widths as (Hlw & Hcw & Eland & Eshr).
  assert (stored (h :: rest) 0 (h :: rest)) as Hs by (split_and!; [lia..|done]).
  unfold ntfs_decode_mcb_entry, mcb_ref. rewrite mlen_cons.
  replace (mlen rest + 1 =? 0) with false by lia.
  change (ld8 (h :: rest) 0) with (Done h). run_step. rewrite Eland, Eshr.
  destruct (h =? 0); [done|]. destruct (8 <? lw) eqn:E8; [done|]. cbn [orb].
  replace (mlen rest + 1 <? 1 + lw) with false by lia.
  assert (stored (h :: rest) 1 lbs) as Hl1
    by (apply stored_take; apply (stored_skip _ _ _ 1 Hs); cbn; lia).
  destruct (copy_len_ok (h :: rest) buf lbs Hl1) as (b1 & E1 & Hu1); [rewrite lbs_len; lia|done|].
  pose proof (updated_list buf b1 lbs) as Eb1. rewrite lbs_len in E1, Hu1, Eb1. rewrite E1. run_step.
  assert ((if lw =? 0 then Done h else ld8 (h :: rest) lw) = Done (byte_at (h :: rest) lw)) as ->.
  { destruct (lw =? 0) eqn:E0; [by replace lw with 0 by lia|].
    apply (stored_ld8 _ _ _ lw Hs). rewrite mlen_cons. lia. }
  run_step. specialize (Eb1 ltac:(lia) Hu1).
  destruct (0x80 <=? byte_at (h :: rest) lw); [by rewrite Eb1|].
  assert (mlen b1 = 16) as Hb1 by (destruct Hu1; lia).
  assert (stored b1 0 lbs) as Hsb.
  { rewrite <- lbs_len in Hu1 at 1. apply (updated_stored buf b1 0 lbs Hu1); [lia|rewrite lbs_len; lia]. }
  pose proof (gather_le_ok b1 0 lbs Hsb lbs_bytes) as Eg. rewrite lbs_len in Eg. rewrite Eg by lia. run_step.
  destruct (store_u64_ok b1 0 (le_val lbs)) as (b2 & E2 & Hu2); [lia..|]. rewrite E2. run_step.
  pose proof (updated_list b1 b2 (le_bytes 8 (le_val lbs)) ltac:(rewrite mlen_le_bytes; lia) Hu2) as Eb2.
  rewrite length_le_bytes in Eb2.
  assert (drop 8 b1 = drop 8 buf) as Ed.
  { rewrite Eb1, drop_app_ge by (pose proof lbs_len; unfold mlen in *; lia). rewrite drop_drop. f_equal.
    pose proof lbs_len; unfold mlen in *; lia. }
  rewrite Ed in Eb2. destruct (8 <? cw) eqn:E8c; [by rewrite Eb2|].
  replace (mlen rest + 1 <? 1 + lw + cw) with false by lia.
  destruct (part_lens ltac:(lia) ltac:(lia)) as [_ Hcl].
  assert (stored (h :: rest) (1 + lw) cbs) as Hc1 by (apply (entry_parts (h :: rest) 0); [done|lia..]).
  pose proof (gather_le_ok _ _ _ Hc1 cbs_bytes) as Egc. rewrite Hcl in Egc. rewrite Egc by lia. run_step.
  assert ((if cw =? 0 then Done (byte_at (h :: rest) lw) else ld8 (h :: rest) (1 + lw + cw - 1))
    = Done (byte_at (h :: rest) (lw + cw))) as ->.
  { destruct (cw =? 0) eqn:E0; [do 2 f_equal; lia|]. replace (1 + lw + cw - 1) with (0 + (lw + cw)) by lia.
    apply (stored_ld8 _ _ _ _ Hs). rewrite mlen_cons. lia. }
  run_step.
  assert (forall c : bool, (if c then (if cw <? 8 then Z.lor (le_val cbs) (sign_fill cw) else le_val cbs)
    else le_val cbs) = if c && (cw <? 8) then Z.lor (le_val cbs) (sign_fill cw) else le_val cbs) as ->
    by (intros [|]; [by destruct (cw <? 8)|done]).
  rewrite cluster_eq by lia.
  set (cl := if (0x80 <=? byte_at (h :: rest) (lw + cw)) && (cw <? 8) then _ else _).
  destruct (store_u64_ok b2 8 cl) as (b3 & E3 & Hu3); [lia|destruct Hu2; lia|]. rewrite E3. run_step.
  do 2 f_equal.
  pose proof (updated_app b1 b2 b3 0 (le_bytes 8 (le_val lbs)) (le_bytes 8 cl) ltac:(lia) Hu2 Hu3) as Hu.
  apply updated_list in Hu; [|rewrite mlen_app, !mlen_le_bytes; lia].
  rewrite Hu, drop_ge, app_nil_r by (rewrite length_app, !length_le_bytes; unfold mlen in *; lia). done.
Qed.
End Entry.

(** ** Encoding one run *)

Lemma width_ok e : 0 <= e < 2 ^ 32 ->
  exists w, loop 5 width_body (e, 0) = Done w /\ 1 <= w <= 4 /\ e < 256 ^ w /\ (w = 1 \/ 256 ^ (w - 1) <= e).
Proof.
  intros He. apply (loop_total
    (fun st => exists i, 0 <= i <= 3 /\ st = (e / 256 ^ i, i) /\ (i = 0 \/ 256 ^ i <= e))
    (fun st => Z.to_nat (3 - st.2))).
  - intros ? (i & Hi & -> & Hlow). unfold width_body. rewrite wrap_small by lia.
    rewrite shr_eq by lia. change (2 ^ 8) with 256.
    assert (0 < 256 ^ i) by (apply Z.pow_pos_nonneg; lia).
    rewrite Z.div_div, <- (Z.mul_comm 256), <- (Z.pow_succ_r 256 i) by lia.
    change (Z.succ i) with (i + 1). assert (0 < 256 ^ (i + 1)) by (apply Z.pow_pos_nonneg; lia).
    destruct (e / 256 ^ (i + 1) =? 0) eqn:E.
    + eexists. split; [done|]. split_and!; [lia..| |].
      * apply Z.eqb_eq, Z.div_small_iff in E; lia.
      * replace (i + 1 - 1) with i by lia. lia.
    + eexists. split; [done|]. apply Z.eqb_neq in E.
      assert (256 ^ (i + 1) <= e).
      { destruct (decide (e < 256 ^ (i + 1))); [|lia]. rewrite Z.div_small in E; lia. }
      assert (i <> 3) by (intros ->; change (256 ^ (3 + 1)) with (2 ^ 32) in *; lia).
      cbn [snd]. split; [|lia]. exists (i + 1). split_and!; try done; lia.
  - exists 0. split_and!; try lia. by rewrite Z.div_1_r.
  - cbn. lia.
Qed.

(** [start] fits a signed field of [w] bytes. *)
Definition fits_signed (w s : Z) : Prop := - (128 * 256 ^ (w - 1)) <= s < 128 * 256 ^ (w - 1).

Lemma pow_widths w : 1 <= w <= 4 -> 256 ^ w = 256 * 256 ^ (w - 1).
Proof. intros. rewrite <- (Z.pow_succ_r 256 (w - 1)) by lia. f_equal. lia. Qed.

Lemma start_width_ok start : 0 <= start < 2 ^ 32 ->
  exists w, mcb_start_width start = Done w /\ 1 <= w <= 4 /\ fits_signed w (as_i32 start).
Proof.
  intros Hs. unfold mcb_start_width. rewrite high_bit by done.
  set (e := if 2 ^ 31 <=? start then 2 ^ 32 - 1 - (start <<ₘ 1) else start <<ₘ 1).
  assert (0 <= e < 2 ^ 32 /\ e = if 2 ^ 31 <=? start then 2 ^ 33 - 1 - 2 * start else 2 * start) as [He Ee].
  { unfold e. rewrite shl32_eq by lia. destruct (2 ^ 31 <=? start) eqn:E.
    - replace (start * 2 ^ 1 mod 2 ^ 32) with (2 * start - 2 ^ 32); [lia|].
      change (2 ^ 1) with 2. rewrite <- (Z.mod_add _ (-1)) by lia. rewrite Z.mod_small; lia.
    - rewrite Z.mod_small by lia. lia. }
  destruct (width_ok e He) as (w & E & Hw & Hlt & _). exists w. split_and!; [done|lia|lia|].
  rewrite pow_widths in Hlt by lia. unfold fits_signed, as_signed. change (2 ^ (32 - 1)) with (2 ^ 31).
  destruct (2 ^ 31 <=? start) eqn:E1; [replace (start <? 2 ^ 31) with false by lia|
      replace (start <? 2 ^ 31) with true by lia]; lia.
Qed.

Lemma size_width_ok size : 0 <= size < 2 ^ 31 ->
  exists w, mcb_size_width size = Done w /\ 1 <= w <= 4 /\ size < 128 * 256 ^ (w - 1).
Proof.
  intros Hs. unfold mcb_size_width. rewrite shl_fold by lia.
  destruct (width_ok (size * 2 ^ 1)) as (w & E & Hw & Hlt & _); [lia|].
  exists w. split_and!; [done|lia..|]. rewrite pow_widths in Hlt by lia. lia.
Qed.

Lemma write_le_ok m p v n : 0 <= n <= 4 -> 0 <= p -> p + n <= mlen m ->
  exists m', write_le_bytes_ptr m p v n = Done m' /\ updated m m' p n (byte_at (le_bytes (Z.to_nat n) v)).
Proof.
  intros Hn Hp Hfit. unfold write_le_bytes_ptr. apply (loop_total
    (fun st => exists i m', 0 <= i <= n /\ st = (m', v / 256 ^ i, i) /\
       updated m m' p i (byte_at (le_bytes (Z.to_nat n) v)))
    (fun st => Z.to_nat (n - st.2))).
  - intros ? (i & m1 & Hi & -> & Hu). unfold write_le_body. destruct (i <? n) eqn:E.
    + destruct (updated_st8 m m1 p i (byte_at (le_bytes (Z.to_nat n) v)) (u8 (v / 256 ^ i)))
        as (m2 & -> & Hu2); [lia..|done|by rewrite byte_at_le_bytes by lia|]. run_step.
      rewrite wrap_small by lia. eexists. split; [done|]. cbn [snd]. split; [|lia]. exists (i + 1), m2.
      split_and!; [lia..| |done]. rewrite shr_eq by lia. change (2 ^ 8) with 256.
      assert (0 < 256 ^ i) by (apply Z.pow_pos_nonneg; lia).
      rewrite Z.div_div by lia. rewrite <- (Z.mul_comm 256), <- (Z.pow_succ_r 256 i) by lia. done.
    + eexists. split; [done|]. by assert (i = n) as -> by lia.
  - exists 0, m. split_and!; [lia..| |apply updated_refl]. by rewrite Z.div_1_r.
  - cbn [snd]. lia.
Qed.

(** The bytes of an encoded run and the list terminator. *)
Definition mcb_bytes (start size sw zw : Z) : list Z :=
  [sw * 16 + zw] ++ le_bytes (Z.to_nat zw) size ++ le_bytes (Z.to_nat sw) start ++ [0].

Lemma mlen_mcb_bytes start size sw zw : 0 <= sw -> 0 <= zw ->
  mlen (mcb_bytes start size sw zw) = zw + sw + 2.
Proof. intros. unfold mcb_bytes. rewrite !mlen_app, !mlen_le_bytes. unfold mlen. cbn. lia. Qed.

(** Header, size, start and terminator, as the tail of the encoder stores them. *)
Lemma emit_ok m dest start size sw zw : 1 <= sw <= 4 -> 1 <= zw <= 4 -> 0 <= dest ->
  dest + zw + sw + 2 <= mlen m ->
  exists m', mcb_emit m dest start size sw zw = Done (m', dest + 1 + zw + sw) /\
    updated m m' dest (zw + sw + 2) (byte_at (mcb_bytes start size sw zw)).
Proof.
  intros Hsw Hzw Hd Hfit. unfold mcb_emit.
  rewrite !(land_mask _ 4) by lia. rewrite !(wrap_small 4) by lia.
  rewrite shl_fold, lor_mul_add by lia. rewrite (wrap_small 8) by lia. change (2 ^ 4) with 16.
  destruct (updated_st8 m m dest 0 (byte_at [sw * 16 + zw]) (sw * 16 + zw)) as (m1 & E1 & U1);
    [lia..|apply updated_refl|done|]. rewrite Z.add_0_r in E1. rewrite E1. run_step.
  assert (mlen m1 = mlen m) as L1 by apply U1.
  destruct (write_le_ok m1 (dest + 1) size zw) as (m2 & E2 & U2); [lia..|]. rewrite E2. run_step.
  assert (mlen m2 = mlen m1) as L2 by apply U2.
  destruct (write_le_ok m2 (dest + 1 + zw) start sw) as (m3 & E3 & U3); [lia..|]. rewrite E3. run_step.
  assert (mlen m3 = mlen m2) as L3 by apply U3.
  destruct (updated_st8 m3 m3 (dest + 1 + zw + sw) 0 (byte_at [0]) 0) as (m4 & E4 & U4);
    [lia..|apply updated_refl|done|]. rewrite Z.add_0_r in E4. rewrite E4. run_step.
  exists m4. split; [done|]. rewrite <- (mlen_mcb_bytes start size) by lia.
  assert (zw = mlen (le_bytes (Z.to_nat zw) size)) as Lz by (rewrite mlen_le_bytes; lia).
  assert (sw = mlen (le_bytes (Z.to_nat sw) start)) as Ls by (rewrite mlen_le_bytes; lia).
  unfold mcb_bytes. apply (updated_app m m1); [done|exact U1|]. change (mlen [_]) with 1.
  rewrite Lz in U2 at 1. rewrite Ls in U3 at 1.
  apply (updated_app m1 m2); [lia|exact U2|]. rewrite <- Lz.
  apply (updated_app m2 m3); [lia|exact U3|]. rewrite <- Ls. exact U4.
Qed.

Lemma mcb_bytes_range start size sw zw : 0 <= sw <= 4 -> 0 <= zw <= 4 -> bytes (mcb_bytes start size sw zw).
Proof.
  intros. unfold mcb_bytes. apply Forall_app; split; [|apply Forall_app; split; [|apply Forall_app; split]];
    try apply bytes_le_bytes; repeat constructor; lia.
Qed.

(** ** What the decoder makes of an encoded run *)

Lemma top_byte w v : 1 <= w <= 4 -> 0 <= v ->
  byte_at (le_bytes (Z.to_nat w) v) (w - 1) = v / 256 ^ (w - 1) mod 256.
Proof. intros. by rewrite byte_at_le_bytes by lia. Qed.

Definition as_i64 (v : Z) : Z := as_signed 64 v.

(** Sign extension of the low [w] bytes recovers a value that fits them. *)
Lemma sext_ok w start : 1 <= w <= 4 -> 0 <= start < 2 ^ 32 -> fits_signed w (as_i32 start) ->
  let v := start mod 256 ^ w in
  let c := if (0x80 <=? start / 256 ^ (w - 1) mod 256) && (w <? 8) then v + (2 ^ 64 - 256 ^ w) else v in
  0 <= c < 2 ^ 64 /\ as_i64 c = as_i32 start.
Proof.
  intros Hw Hs Hf. cbn zeta. replace (w <? 8) with true by lia. rewrite andb_true_r.
  unfold fits_signed, as_i64, as_signed in *. change (2 ^ (32 - 1)) with 2147483648 in *.
  change (2 ^ 32) with 4294967296 in *. change (2 ^ (64 - 1)) with 9223372036854775808.
  change (2 ^ 64) with 18446744073709551616.
  assert (w = 1 \/ w = 2 \/ w = 3 \/ w = 4) as [->|[->|[->| ->]]] by lia; cbn [Z.sub Z.add Z.opp Z.pos_sub
    Pos.pred_double Pos.add Pos.succ] in *;
    repeat match goal with |- context [256 ^ ?k] => let x := eval vm_compute in (256 ^ k) in
      change (256 ^ k) with x in * end;
    repeat match goal with H : context [256 ^ ?k] |- _ => let x := eval vm_compute in (256 ^ k) in
      change (256 ^ k) with x in * end;
    repeat case_match; Z.div_mod_to_equations; lia.
Qed.

Lemma mcb_ref_bytes start size sw zw tl buf :
  1 <= sw <= 4 -> 1 <= zw <= 4 -> 0 <= start < 2 ^ 32 -> 0 <= size < 128 * 256 ^ (zw - 1) ->
  fits_signed sw (as_i32 start) ->
  exists cl, mcb_ref (sw * 16 + zw) (le_bytes (Z.to_nat zw) size ++ le_bytes (Z.to_nat sw) start ++ tl) buf =
    (le_bytes 8 size ++ le_bytes 8 cl, mkMcb true (1 + zw + sw)) /\
    0 <= cl < 2 ^ 64 /\ as_i64 cl = as_i32 start.
Proof.
  intros Hsw Hzw Hstart Hsize Hfit. unfold mcb_ref.
  set (h := sw * 16 + zw). set (A := le_bytes (Z.to_nat zw) size). set (B := le_bytes (Z.to_nat sw) start).
  assert (h mod 16 = zw /\ h / 16 = sw) as [-> ->] by (unfold h; Z.div_mod_to_equations; lia).
  assert (length A = Z.to_nat zw /\ length B = Z.to_nat sw) as [LA LB] by (split; apply length_le_bytes).
  assert (mlen A = zw /\ mlen B = sw) as [MA MB] by (unfold mlen; lia).
  replace (h =? 0) with false by (unfold h; lia). replace (8 <? zw) with false by lia. cbn [orb].
  assert (byte_at (h :: A ++ B ++ tl) zw = size / 256 ^ (zw - 1) mod 256) as ->.
  { rewrite byte_at_cons. replace (zw =? 0) with false by lia. rewrite byte_at_app by lia.
    replace (zw - 1 <? mlen A) with true by lia. apply top_byte; lia. }
  assert (0 < 256 ^ (zw - 1)) by (apply Z.pow_pos_nonneg; lia).
  assert (size / 256 ^ (zw - 1) mod 256 < 128) as Hpos.
  { assert (0 <= size / 256 ^ (zw - 1) < 128) by (split; [apply Z.div_pos|apply Z.div_lt_upper_bound]; lia).
    rewrite Z.mod_small; lia. }
  replace (0x80 <=? size / 256 ^ (zw - 1) mod 256) with false by lia.
  replace (8 <? sw) with false by lia.
  assert (byte_at (h :: A ++ B ++ tl) (zw + sw) = start / 256 ^ (sw - 1) mod 256) as ->.
  { rewrite byte_at_cons. replace (zw + sw =? 0) with false by lia. rewrite byte_at_app by lia.
    replace (zw + sw - 1 <? mlen A) with false by lia. rewrite byte_at_app by lia.
    replace (zw + sw - 1 - mlen A <? mlen B) with true by lia.
    replace (zw + sw - 1 - mlen A) with (sw - 1) by lia. apply top_byte; lia. }
  assert (take (Z.to_nat zw) (A ++ B ++ tl) = A) as -> by (rewrite <- LA; by rewrite take_app_length).
  assert (drop (Z.to_nat zw) (A ++ B ++ tl) = B ++ tl) as -> by (rewrite <- LA; by rewrite drop_app_length).
  assert (take (Z.to_nat sw) (B ++ tl) = B) as -> by (rewrite <- LB; by rewrite take_app_length).
  assert (le_val A = size) as ->.
  { unfold A. rewrite le_val_le_bytes, Z2Nat.id by lia. apply Z.mod_small. rewrite pow_widths by lia. lia. }
  assert (le_val B = start mod 256 ^ sw) as -> by (unfold B; by rewrite le_val_le_bytes, Z2Nat.id by lia).
  eexists. split; [done|]. by apply sext_ok.
Qed.

(** ** Making room in the file record *)

Lemma slide_ok m frs dest new_real :
  0 <= frs -> frs + new_real <= mlen m -> mlen m < 2 ^ 32 -> frs <= dest -> dest + 8 <= frs + new_real ->
  12 <= new_real ->
  bytes m ->
  let count := (new_real - (dest - frs) - 8) / 4 in
  exists m', frs_slide_make_room_ptr m frs dest new_real = Done m' /\ mlen m' = mlen m /\
    forall a, byte_at m' a =
      if (frs + new_real - 4 * count <=? a) && (a <? frs + new_real) then byte_at m (a - 8) else byte_at m a.
Proof.
  intros H0 Hfit Hlm Hle Hroom H12 Hm. cbn zeta. unfold frs_slide_make_room_ptr. unwrap.
  rewrite !(wrap_small 32 (new_real - _)) by lia. unwrap.
  assert (u32 (new_real - (dest - frs) - 8) = new_real - (dest - frs) - 8) as -> by (apply wrap_small; lia).
  set (count := (new_real - (dest - frs) - 8) / 4).
  assert (0 <= count /\ 4 * count <= new_real - (dest - frs) - 8) as [Hc Hc4]
    by (unfold count; Z.div_mod_to_equations; lia).
  clearbody count. set (top := frs + new_real).
  apply (loop_total (fun st => exists i m', 0 <= i <= count /\
      st = (m', top - 12 - 4 * i, top - 4 - 4 * i, i) /\ mlen m' = mlen m /\
      forall a, byte_at m' a = if (top - 4 * i <=? a) && (a <? top) then byte_at m (a - 8) else byte_at m a)
    (fun st => Z.to_nat (count - st.2))).
  - intros ? (i & m1 & Hi & -> & Hl & Hb). unfold slide_body. destruct (i <? count) eqn:E.
    + rewrite ld32_ok by (unfold top; lia). run_step. rewrite st32_ok by (unfold top; lia). run_step.
      rewrite wrap_small by lia. eexists. split; [done|]. cbn [snd]. split; [|lia].
      eexists (i + 1), _. split_and!; [lia..| | |].
      * apply f_equal2; [apply f_equal2; [apply f_equal2; [done|]|]|]; lia.
      * by rewrite mlen_write32.
      * intros a. rewrite byte_at_write32 by (unfold top; lia). unfold word_at.
        assert (forall k, 0 <= k < 4 -> byte_at m1 (top - 12 - 4 * i + k) = byte_at m (top - 12 - 4 * i + k)) as Hsrc.
        { intros k Hk. rewrite Hb. by replace (top - 4 * i <=? top - 12 - 4 * i + k) with false by lia. }
        pose proof (Hsrc 0 ltac:(lia)) as S0. rewrite Z.add_0_r in S0. rewrite S0, !Hsrc by lia.
        destruct ((top - 4 - 4 * i <=? a) && (a <? top - 4 - 4 * i + 4)) eqn:Ea.
        -- rewrite byte_of_le4 by (lia || by apply byte_at_range).
           replace ((top - 4 * (i + 1) <=? a) && (a <? top)) with true by lia.
           repeat case_match; f_equal; lia.
        -- rewrite Hb. repeat case_match; try lia; done.
    + eexists. split; [done|]. assert (i = count) as -> by lia. by split.
  - exists 0, m. split_and!; [lia..| |done|].
    + apply f_equal2; [apply f_equal2; [apply f_equal2; [done|]|]|]; unfold top; lia.
    + intros a. by replace ((top - 4 * 0 <=? a) && (a <? top)) with false by lia.
  - cbn [snd]. lia.
Qed.

(** ** The encoder *)

(** A file record at [frs] with an attribute at [attr] whose run list ends at
    [dest], in a memory with a few bytes behind it. *)
Record frs_wf (m : list Z) (dest attr frs : Z) : Prop := {
  fw_bytes : bytes m;
  fw_mem : dest + 17 <= mlen m < 2 ^ 32;
  fw_order : 0 <= frs /\ frs + 0x20 <= attr /\ attr + 8 <= dest;
  fw_real : dest <= frs + word_at m (frs + OFF_RECORD_REAL_SIZE);
  fw_alloc : frs + word_at m (frs + OFF_RECORD_ALLOCATED_SIZE) <= mlen m;
  fw_attr : word_at m (attr + OFF_SIZE_WITH_HEADER) mod 65536 + 8 < 65536 /\
            attr + word_at m (attr + OFF_SIZE_WITH_HEADER) < 2 ^ 32
}.

Definition real_size (m : list Z) (frs : Z) : Z := word_at m (frs + OFF_RECORD_REAL_SIZE).
Definition alloc_size (m : list Z) (frs : Z) : Z := word_at m (frs + OFF_RECORD_ALLOCATED_SIZE).
Definition attr_len (m : list Z) (attr : Z) : Z := word_at m (attr + OFF_SIZE_WITH_HEADER).

(** The entry of [n] bytes and its terminator stay inside the attribute. *)
Definition entry_fits (m : list Z) (dest attr n : Z) : bool := dest + n <? attr + attr_len m attr.

Section Create.
Context (m : list Z) (start size dest attr frs sw zw : Z).
Context (Hwf : frs_wf m dest attr frs).
Context (Hsw : mcb_start_width start = Done sw) (Hzw : mcb_size_width size = Done zw).
Context (Hsr : 1 <= sw <= 4) (Hzr : 1 <= zw <= 4).

Lemma attr_bump : let v := attr_len m attr in
  Z.lor (Z.land v 0xFFFF0000) (u16 (u16 v + 8)) = v + 8.
Proof.
  destruct Hwf as [Hm _ _ _ _ [Ha1 _]]. cbn zeta. fold (attr_len m attr) in Ha1.
  assert (0 <= attr_len m attr < 2 ^ 32) by (by apply word_at_range).
  rewrite (set_low 32 16) by (done || lia || apply (wrap_range 16); lia).
  change (2 ^ 16) with 65536. unfold wrap. change (2 ^ 16) with 65536.
  rewrite (Z.mod_small (_ + 8)) by (Z.div_mod_to_equations; lia). Z.div_mod_to_equations. lia.
Qed.

(** The three ways through the body, up to where the entry is stored. *)
Lemma create_unfold : ntfs_create_mcb_entry_ptr m start size dest attr frs =
  if entry_fits m dest attr (zw + sw + 1) then
    '(m', edi) ← mcb_emit m dest start size sw zw; Done (m', edi, 0)
  else
    let m1 := write32 m (attr + 4) (attr_len m attr + 8) in
    if alloc_size m frs <? real_size m frs +ₘ 8 then Done (m1, dest, 0)
    else
      m2 ← frs_slide_make_room_ptr (write32 m1 (frs + 0x18) (real_size m frs +ₘ 8)) frs dest
        (real_size m frs +ₘ 8);
      '(m', edi) ← mcb_emit m2 dest start size sw zw; Done (m', edi, 1).
Proof.
  pose proof attr_bump as Hbump. cbn zeta in Hbump.
  destruct Hwf as [Hm [Hl1 Hl2] (Hf & Hfa & Had) Hr Hal [Ha1 Ha2]].
  fold (real_size m frs) in Hr. fold (alloc_size m frs) in Hal. fold (attr_len m attr) in Ha2.
  assert (0 <= real_size m frs < 2 ^ 32 /\ 0 <= alloc_size m frs < 2 ^ 32 /\ 0 <= attr_len m attr < 2 ^ 32)
    as (? & ? & ?) by (split_and!; by apply word_at_range).
  unfold ntfs_create_mcb_entry_ptr. rewrite Hsw, Hzw. run_step.
  unfold OFF_SIZE_WITH_HEADER, OFF_RECORD_REAL_SIZE, OFF_RECORD_ALLOCATED_SIZE in *.
  rewrite ld32_ok by lia. run_step. change (word_at m (attr + 4)) with (attr_len m attr) in *.
  rewrite (wrap_small 32 (dest + sw)), (wrap_small 32 (dest + sw + 1)), (wrap_small 32 (dest + sw + 1 + zw)),
    (wrap_small 32 (attr + attr_len m attr)) by lia.
  unfold entry_fits. replace (dest + (zw + sw + 1)) with (dest + sw + 1 + zw) by lia.
  destruct (dest + sw + 1 + zw <? attr + attr_len m attr) eqn:Efit; cbn [negb].
  { done. }
  rewrite Hbump, st32_ok by lia. run_step.
  assert (ld32 (write32 m (attr + 4) (attr_len m attr + 8)) (frs + 0x18) = Done (real_size m frs)) as ->.
  { rewrite ld32_ok by (rewrite ?mlen_write32; lia). by rewrite word_at_write32_other by lia. }
  assert (ld32 (write32 m (attr + 4) (attr_len m attr + 8)) (frs + 0x1C) = Done (alloc_size m frs)) as ->.
  { rewrite ld32_ok by (rewrite ?mlen_write32; lia). by rewrite word_at_write32_other by lia. }
  run_step. destruct (alloc_size m frs <? real_size m frs +ₘ 8); [done|].
  rewrite st32_ok by (rewrite ?mlen_write32; lia). run_step.
  destruct (frs_slide_make_room_ptr _ _ _ _); done.
Qed.

Lemma emit_here m' : mlen m' = mlen m ->
  exists m1, mcb_emit m' dest start size sw zw = Done (m1, dest + 1 + zw + sw) /\
    updated m' m1 dest (zw + sw + 2) (byte_at (mcb_bytes start size sw zw)).
Proof.
  intros Hl. destruct Hwf as [_ [? ?] (? & ? & ?) _ _ _]. apply emit_ok; lia.
Qed.

Lemma create_fits : entry_fits m dest attr (zw + sw + 1) = true ->
  exists m1, ntfs_create_mcb_entry_ptr m start size dest attr frs = Done (m1, dest + 1 + zw + sw, 0) /\
    updated m m1 dest (zw + sw + 2) (byte_at (mcb_bytes start size sw zw)).
Proof.
  intros E. rewrite create_unfold, E. destruct (emit_here m) as (m1 & -> & Hu); [done|].
  run_step. by exists m1.
Qed.

Lemma create_refused : entry_fits m dest attr (zw + sw + 1) = false -> alloc_size m frs < real_size m frs + 8 ->
  real_size m frs + 8 < 2 ^ 32 ->
  ntfs_create_mcb_entry_ptr m start size dest attr frs =
    Done (write32 m (attr + 4) (attr_len m attr + 8), dest, 0).
Proof.
  intros E Ha Hr. rewrite create_unfold, E. cbn zeta.
  assert (0 <= real_size m frs) by (apply word_at_range; by destruct Hwf).
  rewrite wrap_small by lia. by replace (alloc_size m frs <? real_size m frs + 8) with true by lia.
Qed.

Lemma create_extends : entry_fits m dest attr (zw + sw + 1) = false -> real_size m frs + 8 <= alloc_size m frs ->
  exists m1, ntfs_create_mcb_entry_ptr m start size dest attr frs = Done (m1, dest + 1 + zw + sw, 1) /\
    mlen m1 = mlen m /\ bytes m1 /\ stored m1 dest (mcb_bytes start size sw zw) /\
    attr_len m1 attr = attr_len m attr + 8 /\ real_size m1 frs = real_size m frs + 8 /\
    (forall a, dest + 3 <= a < frs + real_size m frs -> byte_at m1 (a + 8) = byte_at m a) /\
    (forall a, a < dest -> disjoint a 1 (attr + 4) 4 -> disjoint a 1 (frs + 0x18) 4 -> byte_at m1 a = byte_at m a).
Proof.
  intros E Ha. rewrite create_unfold, E. cbn zeta.
  destruct Hwf as [Hm [Hl1 Hl2] (Hf & Hfa & Had) Hr Hal [Ha1 Ha2]].
  fold (real_size m frs) in Hr. fold (alloc_size m frs) in Hal. fold (attr_len m attr) in Ha1, Ha2.
  assert (0 <= alloc_size m frs < 2 ^ 32 /\ 0 <= attr_len m attr < 2 ^ 32) as (? & ?)
    by (split_and!; by apply word_at_range).
  rewrite !(wrap_small 32 (real_size m frs + 8)) by lia.
  replace (alloc_size m frs <? real_size m frs + 8) with false by lia.
  set (ma := write32 m (attr + 4) (attr_len m attr + 8)).
  set (mb := write32 ma (frs + 0x18) (real_size m frs + 8)).
  assert (mlen ma = mlen m) as La by apply mlen_write32. assert (mlen mb = mlen m) as Lb by (rewrite <- La; apply mlen_write32).
  destruct (slide_ok mb frs dest (real_size m frs + 8)) as (m2 & -> & L2 & Hb2);
    [lia..|by apply bytes_write32, bytes_write32|]. run_step.
  destruct (emit_here m2) as (m1 & -> & Hu); [lia|]. run_step. exists m1.
  set (count := (real_size m frs + 8 - (dest - frs) - 8) / 4) in *.
  assert (frs + real_size m frs + 8 - 4 * count < dest + 12 /\ dest + 8 <= frs + real_size m frs + 8 - 4 * count)
    as [Hc1 Hc2] by (unfold count; Z.div_mod_to_equations; lia).
  assert (forall a, a < dest -> byte_at m1 a = byte_at mb a) as Hlow.
  { intros a Hlt. rewrite (updated_outside _ _ _ _ _ _ Hu) by lia. rewrite Hb2.
    by replace (frs + (real_size m frs + 8) - 4 * count <=? a) with false by lia. }
  assert (forall w, w + 4 <= dest -> word_at m1 w = word_at mb w) as Hloww
    by (intros w Hw; unfold word_at; by rewrite !Hlow by lia).
  assert (0 <= attr_len m attr + 8 < 2 ^ 32) by (destruct Hwf; Z.div_mod_to_equations; lia).
  split_and!; [done|destruct Hu; lia| | | | | |].
  - eapply bytes_updated; [|exact Hu|intros; apply byte_at_range, mcb_bytes_range; lia].
    apply bytes_of_byte_at. intros a. rewrite Hb2.
    case_match; apply byte_at_range; by apply bytes_write32, bytes_write32.
  - pose proof (mlen_mcb_bytes start size sw zw) as Lm. apply (updated_stored m2); rewrite ?Lm by lia; [exact Hu|lia..].
  - unfold attr_len at 1, OFF_SIZE_WITH_HEADER. rewrite Hloww by lia. unfold mb, ma.
    rewrite word_at_write32_other, word_at_write32 by (rewrite ?mlen_write32; lia). done.
  - unfold real_size at 1, OFF_RECORD_REAL_SIZE. rewrite Hloww by lia. unfold mb.
    rewrite word_at_write32 by lia. done.
  - intros a Hr'. rewrite (updated_outside _ _ _ _ _ _ Hu) by lia. rewrite Hb2.
    replace ((frs + (real_size m frs + 8) - 4 * count <=? a + 8) && (a + 8 <? frs + (real_size m frs + 8)))
      with true by lia.
    replace (a + 8 - 8) with a by lia. unfold mb, ma. rewrite !byte_at_write32 by (rewrite ?mlen_write32; lia).
    repeat case_match; try lia; done.
  - intros a Hlt D1 D2. rewrite Hlow by done. unfold mb, ma, disjoint in *.
    rewrite !byte_at_write32 by (rewrite ?mlen_write32; lia). repeat case_match; try lia; done.
Qed.

(** On both storing paths the entry ends up at [dest]. *)
Lemma create_stores : entry_fits m dest attr (zw + sw + 1) = true \/ real_size m frs + 8 <= alloc_size m frs ->
  exists m1 flag, ntfs_create_mcb_entry_ptr m start size dest attr frs = Done (m1, dest + 1 + zw + sw, flag) /\
    mlen m1 = mlen m /\ bytes m1 /\ stored m1 dest (mcb_bytes start size sw zw).
Proof.
  destruct (entry_fits m dest attr (zw + sw + 1)) eqn:E; intros H.
  - destruct (create_fits E) as (m1 & -> & Hu). exists m1, 0. split_and!; [done|by destruct Hu| |].
    { eapply bytes_updated; [by destruct Hwf|exact Hu|intros; apply byte_at_range, mcb_bytes_range; lia]. }
    pose proof (mlen_mcb_bytes start size sw zw) as Lm.
    destruct Hwf as [_ [? ?] (? & ? & ?) _ _ _].
    apply (updated_stored m); rewrite ?Lm by lia; [exact Hu|lia..].
  - destruct H as [?|H]; [done|]. destruct (create_extends E H) as (m1 & E1 & L1 & B1 & S1 & _).
    exists m1, 1. by rewrite E1.
Qed.
End Create.

(** The 17 bytes at an address, as header byte and rest. *)
Lemma window m a bs n : bytes m -> stored m a bs -> (length bs <= n)%nat -> a + Z.of_nat n <= mlen m ->
  exists tl, stored m a (bs ++ tl) /\ mlen (bs ++ tl) = Z.of_nat n /\ bytes (bs ++ tl).
Proof.
  intros Hm Hs Hn Hfit. destruct Hs as (Ha & Hl & H) eqn:E. clear E.
  exists (take (n - length bs) (drop (Z.to_nat a + length bs) m)).
  assert (take n (drop (Z.to_nat a) m) = bs ++ take (n - length bs) (drop (Z.to_nat a + length bs) m)) as Et.
  { rewrite (stored_drop m a bs) by done. by rewrite take_app_ge by lia. }
  assert (mlen (take n (drop (Z.to_nat a) m)) = Z.of_nat n) as Hlen
    by (unfold mlen in *; rewrite length_take, length_drop; lia).
  rewrite <- Et. split_and!; [|done|by apply Forall_take, Forall_drop]. split_and!; [done|lia|].
  intros i Hi. rewrite Hlen in Hi. unfold byte_at. replace (a + i <? 0) with false by lia.
  replace (i <? 0) with false by lia. rewrite lookup_take_lt, lookup_drop by lia. do 2 f_equal. lia.
Qed.

Lemma mcb_terminator start size sw zw : 0 <= sw -> 0 <= zw ->
  byte_at (mcb_bytes start size sw zw) (zw + sw + 1) = 0.
Proof.
  intros. unfold mcb_bytes. rewrite !app_assoc.
  match goal with |- byte_at (?x ++ [0]) _ = _ => set (X := x) end.
  assert (mlen X = zw + sw + 1) as L.
  { unfold X. rewrite !mlen_app, !mlen_le_bytes. change (mlen [_]) with 1. lia. }
  rewrite byte_at_app, L by lia. replace (zw + sw + 1 <? zw + sw + 1) with false by lia.
  by rewrite Z.sub_diag.
Qed.

(** Decoding where an encoded run is stored. *)
Lemma decode_stored m start size dest buffer sw zw :
  bytes m -> stored m dest (mcb_bytes start size sw zw) -> 1 <= sw <= 4 -> 1 <= zw <= 4 ->
  0 <= start < 2 ^ 32 -> 0 <= size < 128 * 256 ^ (zw - 1) -> fits_signed sw (as_i32 start) ->
  dest + 17 <= mlen m -> 0 <= buffer -> buffer + 16 <= mlen m -> disjoint dest 17 buffer 16 ->
  exists m2 cl, ntfs_decode_mcb_entry_ptr m dest buffer = Done (m2, dest + 1 + zw + sw, 1) /\
    updated m m2 buffer 16 (byte_at (le_bytes 8 size ++ le_bytes 8 cl)) /\
    0 <= cl < 2 ^ 64 /\ as_i64 cl = as_i32 start.
Proof.
  intros Hm Hs Hsw Hzw Hstart Hsize Hfit Hmem Hb0 Hb16 Hd.
  pose proof (mlen_mcb_bytes start size sw zw) as Lm.
  destruct (window m dest _ 17 Hm Hs) as (tl & Hw & Lw & Hbw); [unfold mlen in *; lia|lia|].
  destruct (window m buffer [] 16 Hm) as (buf & Hbuf & Lbuf & _);
    [split_and!; [lia|change (mlen []) with 0; lia|]|cbn; lia|lia|].
  { intros i Hi. change (mlen []) with 0 in Hi. lia. }
  unfold mcb_bytes in Hw, Lw, Hbw. rewrite <- !app_assoc in Hw, Lw, Hbw.
  change ([?x] ++ ?l) with (x :: l) in Hw, Lw, Hbw. cbn [app] in Hbuf, Lbuf.
  rewrite mlen_cons in Lw. apply Forall_cons in Hbw as [Hh Hrest].
  destruct (mcb_ref_bytes start size sw zw ([0] ++ tl) buf) as (cl & Er & Hcl & Ecl); [done..|].
  match type of Hw with stored _ _ (_ :: ?r) => assert (16 <= mlen r) as Hlen by lia end.
  destruct (decode_ptr_ok _ _ Hh Hrest Hlen m dest buffer buf Hw Hbuf Lbuf) as (m2 & E & Hu).
  { unfold disjoint in *. lia. }
  rewrite Er in E, Hu. cbn [fst snd more mcb_consumed bool_to_Z] in E, Hu.
  exists m2, cl. split_and!; [|exact Hu|lia..|exact Ecl]. rewrite E. do 3 f_equal. lia.
Qed.

(** ** Theorems: run lists *)

(** C10: a run (cluster delta [start], a signed number, and length [size]) encoded
    by [ntfs_create_mcb_entry_ptr], inside the attribute or after the record was
    extended, is decoded by [ntfs_decode_mcb_entry_ptr] to the same length and the
    same sign-extended delta, the decoder stopping where the encoder did, at a byte
    it reads as the end of the list. *)
Theorem mcb_roundtrip m start size dest attr frs buffer :
  frs_wf m dest attr frs -> 0 <= start < 2 ^ 32 -> 0 <= size < 2 ^ 31 ->
  (entry_fits m dest attr 9 = true \/ real_size m frs + 8 <= alloc_size m frs) ->
  0 <= buffer -> buffer + 16 <= mlen m -> disjoint dest 17 buffer 16 ->
  exists m1 out flag m2 cl,
    ntfs_create_mcb_entry_ptr m start size dest attr frs = Done (m1, out, flag) /\
    (ntfs_decode_mcb_entry_ptr m1 dest buffer = Done (m2, out, 1)) /\
    stored m2 buffer (le_bytes 8 size ++ le_bytes 8 cl) /\
    0 <= cl < 2 ^ 64 /\ as_i64 cl = as_i32 start /\
    ntfs_decode_mcb_entry_ptr m2 out buffer = Done (m2, out + 1, 0).
Proof.
  intros Hwf Hstart Hsize Hroom Hb0 Hb16 Hd.
  destruct (start_width_ok start Hstart) as (sw & Esw & Hsw & Hfs).
  destruct (size_width_ok size Hsize) as (zw & Ezw & Hzw & Hfz).
  destruct (create_stores m start size dest attr frs sw zw Hwf Esw Ezw Hsw Hzw) as (m1 & flag & E & L1 & Hm1 & Hs).
  { unfold entry_fits in *. destruct Hroom as [Hr|Hr]; [left|by right]. lia. }
  pose proof (mlen_mcb_bytes start size sw zw) as Lm. pose proof Hwf as [_ [Hmem _] _ _ _ _].
  destruct (decode_stored m1 start size dest buffer sw zw) as (m2 & cl & E2 & Hu & Hcl & Ecl);
    try done; try lia.
  exists m1, (dest + 1 + zw + sw), flag, m2, cl. split_and!; try done.
  - apply (updated_stored m1); [exact Hu|lia|]. rewrite mlen_app, !mlen_le_bytes. lia.
  - lia.
  - lia.
  - assert (stored m2 dest (mcb_bytes start size sw zw)) as Hs2
      by (eapply stored_frame; [exact Hs|exact Hu|rewrite Lm by lia; unfold disjoint in *; lia]).
    unfold ntfs_decode_mcb_entry_ptr.
    replace (dest + 1 + zw + sw) with (dest + (zw + sw + 1)) by lia.
    rewrite (stored_ld8 _ _ _ _ Hs2) by (rewrite Lm; lia). run_step.
    by rewrite mcb_terminator by lia.
Qed.

(** The slice decoder and the pointer decoder agree on every entry, malformed
    ones included: same more/end answer, same number of bytes consumed, and the
    pointer form leaves in memory exactly the 16-byte buffer the slice form
    returns, partially written when the entry is rejected half way. *)
Theorem mcb_decoders_agree m esi buffer entry buf :
  stored m esi entry -> bytes entry -> 17 <= mlen entry -> stored m buffer buf -> mlen buf = 16 ->
  disjoint esi (mlen entry) buffer 16 ->
  exists buf' r m',
    ntfs_decode_mcb_entry entry buf = Done (buf', r) /\
    ntfs_decode_mcb_entry_ptr m esi buffer = Done (m', esi + mcb_consumed r, bool_to_Z (more r)) /\
    updated m m' buffer 16 (byte_at buf').
Proof.
  intros Hs Hb Hl Hbuf H16 Hd. destruct entry as [|h rest]; [by vm_compute in Hl|].
  apply Forall_cons in Hb as [Hh Hrest]. rewrite mlen_cons in Hl, Hd.
  destruct (decode_ptr_ok h rest Hh Hrest ltac:(lia) m esi buffer buf) as (m' & E & Hu); try done.
  { unfold disjoint in *. lia. }
  exists (mcb_ref h rest buf).1, (mcb_ref h rest buf).2, m'. split_and!; [|exact E|exact Hu].
  rewrite decode_slice_ok by (done || lia). by destruct (mcb_ref h rest buf).
Qed.


(** ** Witnesses *)

(** A file record at 0 in 128 bytes: real size 72, allocated 96, the attribute at 32
    of length [alen], the run list ending at 56. *)
Definition frs_demo (alen : Z) : list Z :=
  replicate 24 0 ++ [72; 0; 0; 0; 96; 0; 0; 0] ++ replicate 4 0 ++ [alen; 0; 0; 0] ++ replicate 32 5 ++
  replicate 56 9.

Lemma frs_demo_wf alen : alen = 40 \/ alen = 24 -> frs_wf (frs_demo alen) 56 32 0.
Proof.
  intros [->| ->]; (split; [by apply bytes_check; vm_compute| | | | |];
    vm_compute; repeat split; congruence).
Qed.

Lemma mcb_roundtrip_witness : exists m1 out flag m2 cl,
  ntfs_create_mcb_entry_ptr (frs_demo 40) 0xFFFFFED4 70000 56 32 0 = Done (m1, out, flag) /\
  ntfs_decode_mcb_entry_ptr m1 56 100 = Done (m2, out, 1) /\ as_i64 cl = -300 /\
  stored m2 100 (le_bytes 8 70000 ++ le_bytes 8 cl).
Proof.
  destruct (mcb_roundtrip (frs_demo 40) 0xFFFFFED4 70000 56 32 0 100)
    as (m1 & out & flag & m2 & cl & H1 & H2 & H3 & _ & H5 & _).
  - apply frs_demo_wf. by left.
  - lia.
  - lia.
  - left. reflexivity.
  - lia.
  - vm_compute. congruence.
  - vm_compute. left. congruence.
  - exists m1, out, flag, m2, cl. split_and!; [exact H1|exact H2|exact H5|exact H3].
Defined.

Lemma mcb_decoders_agree_witness : exists buf' r m',
  ntfs_decode_mcb_entry (0x21 :: 5 :: 0x90 :: 0x01 :: replicate 13 0) (replicate 16 0) = Done (buf', r) /\
  ntfs_decode_mcb_entry_ptr ((0x21 :: 5 :: 0x90 :: 0x01 :: replicate 13 0) ++ replicate 16 0) 0 17
    = Done (m', mcb_consumed r, bool_to_Z (more r)).
Proof.
  destruct (mcb_decoders_agree ((0x21 :: 5 :: 0x90 :: 0x01 :: replicate 13 0) ++ replicate 16 0) 0 17
    (0x21 :: 5 :: 0x90 :: 0x01 :: replicate 13 0) (replicate 16 0)) as (buf' & r & m' & H1 & H2 & _).
  - split_and!; [lia|by vm_compute|]. intros i Hi. apply Z.eqb_eq. revert i Hi.
    apply (forall_range_spec 0 17 (fun i => byte_at _ (0 + i) =? byte_at _ i)). by vm_compute.
  - apply bytes_check. by vm_compute.
  - by vm_compute.
  - split_and!; [lia|by vm_compute|]. intros i Hi. apply Z.eqb_eq. revert i Hi.
    apply (forall_range_spec 0 16 (fun i => byte_at _ (17 + i) =? byte_at _ i)). by vm_compute.
  - reflexivity.
  - left. by vm_compute.
  - exists buf', r, m'. split; [exact H1|exact H2].
Defined.

