(* ===== verification/NtfsRecord.v ===== *)
(** * NTFS multi-sector records and boot sector

    [ntfs_usa.rs]: the update sequence array that detects torn multi-sector
    writes.  [ntfs_bootsec.rs]: the volume test, in its two formulations. *)

From stdpp Require Import base list.
From Stdlib Require Import ZArith Lia.
From S2P Require Import Prelude.

(** ** [ntfs_usa.rs] *)

Definition UPDATE_SEQUENCE_OFFSET : Z := 4.
Definition UPDATE_SEQUENCE_SIZE : Z := 6.
Definition SECTOR_END_WORD_OFF : Z := 0x1FE.
Definition SECTOR_SIZE : Z := 512.

Definition load_u16 (m : list Z) (p : Z) : run Z := ld16 m p.
Definition store_u16 (m : list Z) (p v : Z) : run (list Z) := st16 m p v.

(** State: memory, [usa], [end_word], [remaining]. *)
Definition usa_body (usn : Z) (st : list Z * Z * Z * Z) : run (list Z * Z * Z * Z + list Z * bool) :=
  let '(m, usa, end_word, remaining) := st in
  if 0 <? remaining then
    cur ← load_u16 m end_word;
    if negb (cur =? usn) then Done (inr (m, false))
    else
      orig ← load_u16 m usa;
      let usa := usa + 2 in
      m ← store_u16 m end_word orig;
      Done (inl (m, usa, end_word + SECTOR_SIZE, remaining - 1))
  else Done (inr (m, true)).

(** Returns memory and the [ok] field of the result. *)
Definition ntfs_restore_usa (m : list Z) (record size : Z) : run (list Z * bool) :=
  let sectors := Z.shiftr size 9 in
  let expected_usa := u16 (sectors +ₘ 1) in
  usa_size ← load_u16 m (record + UPDATE_SEQUENCE_SIZE);
  if negb (usa_size =? expected_usa) then Done (m, false)
  else
    usa_off ← load_u16 m (record + UPDATE_SEQUENCE_OFFSET);
    let usa := record + usa_off in
    usn ← load_u16 m usa;
    let usa := usa + 2 in
    loop (S (Z.to_nat sectors)) (usa_body usn) (m, usa, record + SECTOR_END_WORD_OFF, sectors).

Definition ntfs_restore_usa_ptr (m : list Z) (record size : Z) : run (list Z * Z) :=
  '(m, ok) ← ntfs_restore_usa m record size;
  Done (m, if ok : bool then 0 else 1).

(** ** [ntfs_bootsec.rs] *)

Definition NTFS_BOOTSEC_MIN_LEN : Z := 0x45.

Definition read_u16_le (buf : list Z) (off : Z) : run Z := ld16 buf off.
Definition read_u32_le (buf : list Z) (off : Z) : run Z := ld32 buf off.

Definition is_pow2_nonzero_u8 (b : Z) : bool :=
  if b =? 0 then false else Z.land b (u8 (b - 1)) =? 0.

Definition clusters_per_record_ok (v : Z) : bool :=
  if v <? -31 then false
  else if v <=? -9 then true
  else
    let mem := u8 v in
    let dec := v - 1 in
    if dec <? 0 then false else Z.land mem (u8 dec) =? 0.

Definition lcn_within_partition (boot : list Z) (lcn_off spc partition_sectors : Z) : run bool :=
  hi ← read_u32_le boot (lcn_off + 4);
  if negb (hi =? 0) then Done false
  else
    lcn_lo ← read_u32_le boot lcn_off;
    let product := u64 (spc * lcn_lo) in
    if negb (Z.shiftr product 32 =? 0) then Done false
    else Done (u32 product <=? partition_sectors).

(** One check of the chain: fail, or go on. *)
Definition check (c : run bool) (k : run bool) : run bool :=
  ok ← c; if ok : bool then k else Done false.

Definition oem_ok (boot : list Z) : run bool :=
  b3 ← ld8 boot 3; b4 ← ld8 boot 4; b5 ← ld8 boot 5; b6 ← ld8 boot 6;
  b7 ← ld8 boot 7; b8 ← ld8 boot 8; b9 ← ld8 boot 9; b10 ← ld8 boot 10;
  Done ((b3 =? 78) && (b4 =? 84) && (b5 =? 70) && (b6 =? 83) &&
        (b7 =? 32) && (b8 =? 32) && (b9 =? 32) && (b10 =? 32)).

Definition ntfs_test_bootsec (boot : list Z) (partition_sectors : Z) : run bool :=
  if mlen boot <? NTFS_BOOTSEC_MIN_LEN then Done false
  else
    check (oem_ok boot) (
    check (v ← read_u16_le boot 11; Done (v =? 0x200)) (
    spc ← ld8 boot 13;
    check (Done (is_pow2_nonzero_u8 spc)) (
    check (v ← read_u16_le boot 14; Done (v =? 0)) (
    check (v ← read_u32_le boot 16; Done (v =? 0)) (
    check (v ← ld8 boot 20; Done (v =? 0)) (
    check (v ← read_u16_le boot 22; Done (v =? 0)) (
    check (v ← read_u32_le boot 32; Done (v =? 0)) (
    check (v ← read_u32_le boot 0x2C; Done (v =? 0)) (
    check (v ← read_u32_le boot 0x28; Done (negb (partition_sectors <? v))) (
    check (lcn_within_partition boot 0x30 spc partition_sectors) (
    check (lcn_within_partition boot 0x38 spc partition_sectors) (
    check (v ← ld8 boot 0x40; Done (clusters_per_record_ok (as_i8 v))) (
    check (v ← ld8 boot 0x44; Done (clusters_per_record_ok (as_i8 v))) (
    Done true)))))))))))))).

Definition ntfs_test_bootsec_ptr (m : list Z) (boot partition_sectors : Z) : run Z :=
  if (boot <? 0) || (mlen m <? boot + NTFS_BOOTSEC_MIN_LEN) then Fault
  else
    let slice := take (Z.to_nat NTFS_BOOTSEC_MIN_LEN) (drop (Z.to_nat boot) m) in
    ok ← ntfs_test_bootsec slice partition_sectors;
    Done (if ok : bool then 0 else 1).

Definition write_u16_le (buf : list Z) (off v : Z) : run (list Z) := st16 buf off v.
Definition write_u32_le (buf : list Z) (off v : Z) : run (list Z) := st32 buf off v.

Definition make_valid_ntfs_bootsec (spc total_sectors mft_lcn mftmirr_lcn clusters_per_frs
    clusters_per_index : Z) : run (list Z) :=
  let b := replicate 512 0 in
  b ← st8 b 3 78; b ← st8 b 4 84; b ← st8 b 5 70; b ← st8 b 6 83;
  b ← st8 b 7 32; b ← st8 b 8 32; b ← st8 b 9 32; b ← st8 b 10 32;
  b ← write_u16_le b 11 0x200;
  b ← st8 b 13 spc;
  b ← write_u32_le b 0x28 total_sectors;
  b ← write_u32_le b 0x30 mft_lcn;
  b ← write_u32_le b 0x38 mftmirr_lcn;
  b ← st8 b 0x40 (u8 clusters_per_frs);
  st8 b 0x44 (u8 clusters_per_index).

Definition oracle_lcn_ok (boot : list Z) (off spc partition_sectors : Z) : run bool :=
  hi ← read_u32_le boot (off + 4);
  if negb (hi =? 0) then Done false
  else
    lcn_lo ← read_u32_le boot off;
    let wide := spc * lcn_lo in
    let edx := u32 (Z.shiftr wide 32) in
    let eax := u32 wide in
    if negb (edx =? 0) then Done false else Done (eax <=? partition_sectors).

Definition oracle_clusters_per_record (raw : Z) : bool :=
  let al := as_i8 raw in
  if al <? -31 then false
  else if al <=? -9 then true
  else
    let eax := al - 1 in
    if eax <? 0 then false else Z.land raw (u8 eax) =? 0.

Definition fasm_oracle_ntfs_test_bootsec (boot : list Z) (partition_sectors : Z) : run bool :=
  if mlen boot <? NTFS_BOOTSEC_MIN_LEN then Done false
  else
    oem_lo ← read_u32_le boot 3;
    oem_hi ← read_u32_le boot 7;
    check (Done (negb (negb (oem_lo =? le4 78 84 70 83) || negb (oem_hi =? le4 32 32 32 32)))) (
    check (v ← read_u16_le boot 11; Done (v =? 0x200)) (
    spc ← ld8 boot 13;
    let eax := u32 (spc - 1) in
    check (Done (negb (as_i32 eax <? 0))) (
    check (Done (Z.land (u8 eax) spc =? 0)) (
    check (v ← read_u16_le boot 14; Done (v =? 0)) (
    check (v ← read_u32_le boot 16; Done (v =? 0)) (
    check (v ← ld8 boot 20; Done (v =? 0)) (
    check (v ← read_u16_le boot 22; Done (v =? 0)) (
    check (v ← read_u32_le boot 32; Done (v =? 0)) (
    check (v ← read_u32_le boot 0x2C; Done (v =? 0)) (
    check (v ← read_u32_le boot 0x28; Done (negb (partition_sectors <? v))) (
    check (oracle_lcn_ok boot 0x30 spc partition_sectors) (
    check (oracle_lcn_ok boot 0x38 spc partition_sectors) (
    check (v ← ld8 boot 0x40; Done (oracle_clusters_per_record v)) (
    check (v ← ld8 boot 0x44; Done (oracle_clusters_per_record v)) (
    Done true))))))))))))))).

(** ** Torn writes *)

(** The saved word and the end word of sector [k]. *)
Definition saved_at (record usa_off k : Z) : Z := record + usa_off + 2 + 2 * k.
Definition end_at (record k : Z) : Z := record + SECTOR_END_WORD_OFF + SECTOR_SIZE * k.

(** A record with room for its array before the first end word. *)
Record usa_wf (m : list Z) (record size : Z) : Prop := {
  uw_bytes : bytes m;
  uw_record : 0 <= record /\ record + size <= mlen m;
  uw_size : 512 <= size < 2 ^ 25;
  uw_count : word16_at m (record + UPDATE_SEQUENCE_SIZE) = size / 512 + 1;
  uw_off : word16_at m (record + UPDATE_SEQUENCE_OFFSET) + 2 * (size / 512 + 1) <= SECTOR_END_WORD_OFF
}.

Definition usa_off (m : list Z) (record : Z) : Z := word16_at m (record + UPDATE_SEQUENCE_OFFSET).
Definition usn_of (m : list Z) (record : Z) : Z := word16_at m (record + usa_off m record).

(** [m'] is [m] with the end words of the first [k] sectors restored. *)
Definition restored (m : list Z) (record k : Z) (m' : list Z) : Prop :=
  mlen m' = mlen m /\
  (forall j b, 0 <= j < k -> b = 0 \/ b = 1 ->
     byte_at m' (end_at record j + b) = byte_at m (saved_at record (usa_off m record) j + b)) /\
  (forall a, (forall j, 0 <= j < k -> disjoint a 1 (end_at record j) 2) -> byte_at m' a = byte_at m a).

Lemma restored_step m record size k m' : usa_wf m record size -> restored m record k m' ->
  0 <= k < size / 512 ->
  exists m'', (orig ← load_u16 m' (saved_at record (usa_off m record) k);
               store_u16 m' (end_at record k) orig) = Done m'' /\ restored m record (k + 1) m''.
Proof.
  intros [Hb [Hr Hfit] Hs _ Hoff] (Hl & Hrest & Hsame) Hk. fold (usa_off m record) in Hoff.
  assert (0 <= usa_off m record) by (by apply word16_range).
  unfold saved_at, end_at, SECTOR_END_WORD_OFF, SECTOR_SIZE, disjoint, load_u16, store_u16 in *.
  assert (512 * (size / 512) <= size) by (Z.div_mod_to_equations; lia).
  rewrite ld16_ok by lia. run_step.
  destruct (st16_ok m' (record + 0x1FE + 512 * k) (word16_at m' (record + usa_off m record + 2 + 2 * k)))
    as (m'' & -> & [Hl'' Hu]); [lia..|]. exists m''. split; [done|].
  assert (forall a, a < record + 0x1FE -> byte_at m' a = byte_at m a) as Hlow
    by (intros a Ha; apply Hsame; intros; lia).
  unfold word16_at in Hu. rewrite !Hlow in Hu by lia.
  destruct (byte_of_le2 (byte_at m (record + usa_off m record + 2 + 2 * k))
    (byte_at m (record + usa_off m record + 2 + 2 * k + 1))) as [B0 B1]; [by apply byte_at_range..|].
  split_and!; [lia| |].
  - intros j b Hj Hbit. rewrite Hu. unfold end_at, SECTOR_END_WORD_OFF, SECTOR_SIZE, saved_at.
    destruct (decide (j = k)) as [->|].
    + replace ((record + 0x1FE + 512 * k <=? record + 0x1FE + 512 * k + b) &&
        (record + 0x1FE + 512 * k + b <? record + 0x1FE + 512 * k + 2)) with true by lia.
      replace (record + 0x1FE + 512 * k + b - (record + 0x1FE + 512 * k)) with b by lia.
      destruct Hbit as [->| ->]; [by rewrite B0, !Z.add_0_r|by rewrite B1].
    + replace ((record + 0x1FE + 512 * k <=? record + 0x1FE + 512 * j + b) &&
        (record + 0x1FE + 512 * j + b <? record + 0x1FE + 512 * k + 2)) with false by lia.
      apply Hrest; [lia|done].
  - intros a Ha. rewrite Hu. unfold end_at, SECTOR_END_WORD_OFF, SECTOR_SIZE, disjoint in *.
    pose proof (Ha k ltac:(lia)).
    replace ((record + 0x1FE + 512 * k <=? a) && (a <? record + 0x1FE + 512 * k + 2)) with false by lia.
    apply Hsame. intros j Hj. apply Ha. lia.
Qed.

(** The restore loop stops at the first sector whose end word is not the sequence
    number. *)
Lemma usa_loop_ok m record size : usa_wf m record size ->
  exists m' k, loop (S (Z.to_nat (size / 512))) (usa_body (usn_of m record))
      (m, record + usa_off m record + 2, record + 0x1FE, size / 512) = Done (m', k =? size / 512) /\
    0 <= k <= size / 512 /\ restored m record k m' /\
    (forall j, 0 <= j < k -> word16_at m (end_at record j) = usn_of m record) /\
    (k < size / 512 -> word16_at m (end_at record k) <> usn_of m record).
Proof.
  intros Hwf. pose proof Hwf as [Hb [Hr Hfit] Hs Hcount Hoff]. fold (usa_off m record) in Hoff.
  assert (0 <= usa_off m record) by (by apply word16_range).
  assert (1 <= size / 512 < 65536 /\ 512 * (size / 512) <= size) as [Hn Hn'] by (Z.div_mod_to_equations; lia).
  unfold SECTOR_END_WORD_OFF in Hoff.
  destruct (loop_total
    (fun st => exists k m', 0 <= k <= size / 512 /\
       st = (m', saved_at record (usa_off m record) k, end_at record k, size / 512 - k) /\
       restored m record k m' /\ forall j, 0 <= j < k -> word16_at m (end_at record j) = usn_of m record)
    (fun st => Z.to_nat st.2)
    (fun r => exists m' k, r = (m', k =? size / 512) /\ 0 <= k <= size / 512 /\ restored m record k m' /\
       (forall j, 0 <= j < k -> word16_at m (end_at record j) = usn_of m record) /\
       (k < size / 512 -> word16_at m (end_at record k) <> usn_of m record))
    (usa_body (usn_of m record))) with (fuel := S (Z.to_nat (size / 512)))
    (s := (m, record + usa_off m record + 2, record + 0x1FE, size / 512))
    as (r & -> & m' & k & -> & Hk); [| |cbn [snd]; lia|by exists m', k].
  - intros ? (k & m1 & Hk & -> & Hres & Hmatch). unfold usa_body.
    pose proof Hres as (Hl & _ & Hsame).
    destruct (0 <? size / 512 - k) eqn:E.
    2:{ eexists. split; [done|]. exists m1, k. replace (k =? size / 512) with true by lia.
        split_and!; try done; lia. }
    assert (0 <= end_at record k /\ end_at record k + 2 <= mlen m) as [? ?]
      by (unfold end_at, SECTOR_END_WORD_OFF, SECTOR_SIZE; lia).
    change (load_u16 m1 (end_at record k)) with (ld16 m1 (end_at record k)).
    rewrite (ld16_ok m1 (end_at record k)) by lia. run_step.
    assert (word16_at m1 (end_at record k) = word16_at m (end_at record k)) as ->.
    { unfold word16_at. rewrite !Hsame; [done|..]; intros j Hj; unfold disjoint, end_at, SECTOR_SIZE; lia. }
    destruct (word16_at m (end_at record k) =? usn_of m record) eqn:Eu; cbn [negb].
    2:{ eexists. split; [done|]. exists m1, k. replace (k =? size / 512) with false by lia.
        split_and!; try done; lia. }
    destruct (restored_step m record size k m1) as (m2 & E2 & Hres2); [done|done|lia|].
    run_inv. rewrite Hx. run_step. rewrite E2. run_step. eexists. split; [done|]. cbn [snd]. split; [|lia].
    exists (k + 1), m2. split_and!; [lia..| |done|].
    + unfold saved_at, end_at, SECTOR_SIZE, SECTOR_END_WORD_OFF. apply f_equal2; [apply f_equal2; [apply f_equal2; [done|]|]|]; lia.
    + intros j Hj. destruct (decide (j = k)) as [->|]; [lia|apply Hmatch; lia].
  - exists 0, m. split_and!; [lia..| | |intros; lia].
    + unfold saved_at, end_at, SECTOR_SIZE, SECTOR_END_WORD_OFF. apply f_equal2; [apply f_equal2; [apply f_equal2; [done|]|]|]; lia.
    + split_and!; [done|intros; lia|done].
Qed.

Lemma restore_ok m record size : usa_wf m record size ->
  exists m' k, ntfs_restore_usa m record size = Done (m', k =? size / 512) /\
    0 <= k <= size / 512 /\ restored m record k m' /\
    (forall j, 0 <= j < k -> word16_at m (end_at record j) = usn_of m record) /\
    (k < size / 512 -> word16_at m (end_at record k) <> usn_of m record).
Proof.
  intros Hwf. pose proof Hwf as [Hb [Hr Hfit] Hs Hcount Hoff]. fold (usa_off m record) in Hoff.
  assert (0 <= usa_off m record) by (by apply word16_range).
  assert (1 <= size / 512 < 65536 /\ 512 * (size / 512) <= size) as [Hn Hn'] by (Z.div_mod_to_equations; lia).
  unfold ntfs_restore_usa, load_u16 at 1 2 3. rewrite shr_eq by lia. change (2 ^ 9) with 512.
  unfold UPDATE_SEQUENCE_SIZE, UPDATE_SEQUENCE_OFFSET, SECTOR_END_WORD_OFF in *.
  rewrite (ld16_ok m (record + 6)), (ld16_ok m (record + 4)) by lia. run_step. rewrite Hcount.
  rewrite (wrap_small 32), (wrap_small 16), Z.eqb_refl by lia. cbn [negb].
  change (word16_at m (record + 4)) with (usa_off m record). rewrite ld16_ok by lia. run_step.
  fold (usn_of m record).
  by apply usa_loop_ok.
Qed.

(** What the writer left on disk for the record [orig]: every end word replaced by
    the sequence number, the replaced words kept in the array. *)
Definition protected (orig m : list Z) (record size : Z) : Prop :=
  mlen m = mlen orig /\
  (forall k, 0 <= k < size / 512 -> word16_at m (end_at record k) = usn_of m record /\
     forall b, b = 0 \/ b = 1 ->
       byte_at m (saved_at record (usa_off m record) k + b) = byte_at orig (end_at record k + b)) /\
  (forall a, disjoint a 1 (record + usa_off m record) (2 * (size / 512 + 1)) ->
     (forall k, 0 <= k < size / 512 -> disjoint a 1 (end_at record k) 2) -> byte_at m a = byte_at orig a).

Lemma restored_protected orig m record size m' : usa_wf m record size -> protected orig m record size ->
  restored m record (size / 512) m' ->
  forall a, disjoint a 1 (record + usa_off m record) (2 * (size / 512 + 1)) -> byte_at m' a = byte_at orig a.
Proof.
  intros Hwf (_ & Hp & Ho) (_ & Hr & Hs) a Ha.
  set (k := (a - (record + 0x1FE)) / 512).
  destruct (decide (0 <= k < size / 512 /\ end_at record k <= a < end_at record k + 2)) as [[Hk Hak]|Hn].
  - clearbody k. assert (exists b, (b = 0 \/ b = 1) /\ a = end_at record k + b) as (b & Hb & ->)
      by (exists (a - end_at record k); lia).
    rewrite Hr by done. by apply Hp.
  - assert (forall j, 0 <= j < size / 512 -> disjoint a 1 (end_at record j) 2) as Hd.
    { intros j Hj. unfold disjoint. destruct (decide (end_at record j <= a < end_at record j + 2)) as [Hin|]; [|lia].
      destruct Hn. assert (k = j) as ->; [|done].
      unfold k, end_at, SECTOR_END_WORD_OFF, SECTOR_SIZE in *. Z.div_mod_to_equations. lia. }
    rewrite Hs by done. by apply Ho.
Qed.

(** ** Volume test *)

Lemma ld16_Done m a : 0 <= a -> a + 2 <= mlen m -> read_u16_le m a = Done (word16_at m a).
Proof. apply ld16_ok. Qed.
Lemma ld32_at m a : 0 <= a -> a + 4 <= mlen m -> read_u32_le m a = Done (word_at m a).
Proof. apply ld32_ok. Qed.

Lemma check_and a b : check (Done a) (Done b) = Done (a && b).
Proof. by destruct a. Qed.

(** A 64-bit field. *)
Definition qword_at (m : list Z) (a : Z) : Z := word_at m a + 2 ^ 32 * word_at m (a + 4).

Definition is_pow2 (v : Z) : Prop := exists k, 0 <= k /\ v = 2 ^ k.

(** The rules of the boot sector in plain arithmetic. *)
Definition valid_bootsec (b : list Z) (part : Z) : Prop :=
  NTFS_BOOTSEC_MIN_LEN <= mlen b /\
  take 8 (drop 3 b) = [78; 84; 70; 83; 32; 32; 32; 32] /\
  word16_at b 11 = 512 /\
  is_pow2 (byte_at b 13) /\
  word16_at b 14 = 0 /\ word_at b 16 = 0 /\ byte_at b 20 = 0 /\ word16_at b 22 = 0 /\ word_at b 32 = 0 /\
  qword_at b 0x28 <= part /\
  byte_at b 13 * qword_at b 0x30 <= part /\ byte_at b 13 * qword_at b 0x38 <= part /\
  (let ok v := -31 <= v <= -9 \/ is_pow2 v in ok (as_i8 (byte_at b 0x40)) /\ ok (as_i8 (byte_at b 0x44))).

Definition pow2b (v : Z) : bool := (v =? 1) || (v =? 2) || (v =? 4) || (v =? 8) || (v =? 16) || (v =? 32) ||
  (v =? 64) || (v =? 128).

Lemma pow2b_spec v : v < 256 -> pow2b v = true <-> is_pow2 v.
Proof.
  unfold pow2b, is_pow2. intros Hv. split.
  - rewrite !orb_true_iff, !Z.eqb_eq. intros [[[[[[[->| ->]| ->]| ->]| ->]| ->]| ->]| ->];
      [exists 0|exists 1|exists 2|exists 3|exists 4|exists 5|exists 6|exists 7]; done.
  - intros (k & Hk & ->). assert (k < 8) by (apply (Z.pow_lt_mono_r_iff 2); lia).
    assert (k = 0 \/ k = 1 \/ k = 2 \/ k = 3 \/ k = 4 \/ k = 5 \/ k = 6 \/ k = 7) as Hc by lia.
    destruct Hc as [->|[->|[->|[->|[->|[->|[->| ->]]]]]]]; done.
Qed.

(** The bit tricks decide powers of two; both formulations. *)
Definition pow2_checks (b : Z) : bool :=
  eqb (is_pow2_nonzero_u8 b) (pow2b b) &&
  eqb (negb (as_i32 (u32 (b - 1)) <? 0) && (Z.land (u8 (u32 (b - 1))) b =? 0)) (pow2b b) &&
  eqb (clusters_per_record_ok (as_i8 b)) (((-31 <=? as_i8 b) && (as_i8 b <=? -9)) || pow2b (as_i8 b)) &&
  eqb (oracle_clusters_per_record b) (clusters_per_record_ok (as_i8 b)).

Lemma pow2_checks_all b : is_byte b -> pow2_checks b = true.
Proof. apply (forall_range_spec 0 256). vm_compute. done. Qed.

Section Bootsec.
Context (b : list Z) (part : Z) (Hb : bytes b) (Hp : 0 <= part < 2 ^ 32).
Context (Hlen : NTFS_BOOTSEC_MIN_LEN <= mlen b).

(** The location test on a 64-bit cluster number. *)
Lemma lcn_ok off : 0 <= off -> off + 8 <= mlen b -> 1 <= byte_at b 13 ->
  lcn_within_partition b off (byte_at b 13) part = Done (byte_at b 13 * qword_at b off <=? part) /\
  oracle_lcn_ok b off (byte_at b 13) part = Done (byte_at b 13 * qword_at b off <=? part).
Proof.
  intros Ho Hfit Hs. unfold lcn_within_partition, oracle_lcn_ok, qword_at.
  rewrite !ld32_at by lia. run_step.
  pose proof (word_at_range b off Hb). pose proof (word_at_range b (off + 4) Hb).
  pose proof (byte_at_range b 13 Hb) as Hspc. unfold is_byte in Hspc.
  destruct (word_at b (off + 4) =? 0) eqn:E; cbn [negb].
  2:{ split; f_equal; symmetry; apply Z.leb_gt; nia. }
  replace (word_at b (off + 4)) with 0 by lia. rewrite Z.mul_0_r, Z.add_0_r. run_step.
  set (p := byte_at b 13 * word_at b off). assert (0 <= p < 2 ^ 40) by (unfold p; nia).
  rewrite (wrap_small 64 p) by lia. rewrite !shr_eq by lia.
  rewrite (wrap_small 32 (p / 2 ^ 32)) by (Z.div_mod_to_equations; lia).
  destruct (p / 2 ^ 32 =? 0) eqn:E2; cbn [negb].
  - rewrite wrap_small by (Z.div_mod_to_equations; lia). done.
  - split; f_equal; symmetry; apply Z.leb_gt; Z.div_mod_to_equations; lia.
Qed.

Definition tail_checks (spc_ok : bool) : bool :=
  (word16_at b 11 =? 0x200) && (spc_ok && ((word16_at b 14 =? 0) && ((word_at b 16 =? 0) &&
  ((byte_at b 20 =? 0) && ((word16_at b 22 =? 0) && ((word_at b 32 =? 0) && ((word_at b 0x2C =? 0) &&
  (negb (part <? word_at b 0x28) && ((byte_at b 13 * qword_at b 0x30 <=? part) &&
  ((byte_at b 13 * qword_at b 0x38 <=? part) &&
  (clusters_per_record_ok (as_i8 (byte_at b 0x40)) && (clusters_per_record_ok (as_i8 (byte_at b 0x44)) &&
   true)))))))))))).

Definition oem_bytes : bool :=
  (byte_at b 3 =? 78) && (byte_at b 4 =? 84) && (byte_at b 5 =? 70) && (byte_at b 6 =? 83) &&
  (byte_at b 7 =? 32) && (byte_at b 8 =? 32) && (byte_at b 9 =? 32) && (byte_at b 10 =? 32).

Lemma spc_checks : let spc := byte_at b 13 in
  is_pow2_nonzero_u8 spc = pow2b spc /\
  negb (as_i32 (u32 (spc - 1)) <? 0) && (Z.land (u8 (u32 (spc - 1))) spc =? 0) = pow2b spc.
Proof.
  cbn zeta. pose proof (pow2_checks_all _ (byte_at_range b 13 Hb)) as H. unfold pow2_checks in H.
  rewrite !andb_true_iff in H. destruct H as [[[H1 H2] _] _]. split; by apply eqb_prop.
Qed.

Lemma oracle_clusters a : oracle_clusters_per_record (byte_at b a) = clusters_per_record_ok (as_i8 (byte_at b a)).
Proof.
  pose proof (pow2_checks_all _ (byte_at_range b a Hb)) as H. unfold pow2_checks in H.
  rewrite !andb_true_iff in H. destruct H as [_ H]. by apply eqb_prop.
Qed.

Lemma clusters_ok a : clusters_per_record_ok (as_i8 (byte_at b a)) = true <->
  -31 <= as_i8 (byte_at b a) <= -9 \/ is_pow2 (as_i8 (byte_at b a)).
Proof.
  pose proof (byte_at_range b a Hb) as Hr.
  pose proof (pow2_checks_all _ Hr) as H. unfold pow2_checks in H.
  rewrite !andb_true_iff in H. destruct H as [[_ H] _]. apply eqb_prop in H. rewrite H.
  assert (as_i8 (byte_at b a) < 256) as Hlt by (unfold as_signed, is_byte in *; case_match; lia).
  rewrite <- (pow2b_spec _ Hlt).
  rewrite orb_true_iff, andb_true_iff, !Z.leb_le. done.
Qed.

Lemma pow2b_pos v : pow2b v = true -> 1 <= v.
Proof. unfold pow2b. lia. Qed.

Lemma check_stop k : check (Done false) k = Done false.
Proof. done. Qed.

(** The chain of tests as a conjunction. *)
Lemma bootsec_eq : ntfs_test_bootsec b part = Done (oem_bytes && tail_checks (pow2b (byte_at b 13))).
Proof.
  unfold ntfs_test_bootsec, NTFS_BOOTSEC_MIN_LEN in *. replace (mlen b <? 0x45) with false by lia.
  unfold oem_ok. rewrite !ld8_ok by lia. run_step. rewrite !ld16_Done, !ld32_at by lia. run_step.
  destruct spc_checks as [-> _].
  destruct (pow2b (byte_at b 13)) eqn:E.
  - destruct (lcn_ok 0x30) as [-> _]; [lia..|by apply pow2b_pos|].
    destruct (lcn_ok 0x38) as [-> _]; [lia..|by apply pow2b_pos|].
    rewrite !check_and. done.
  - by rewrite check_stop, !check_and.
Qed.

Lemma le4_eqb b0 b1 b2 b3 c0 c1 c2 c3 : is_byte b0 -> is_byte b1 -> is_byte b2 -> is_byte b3 ->
  is_byte c0 -> is_byte c1 -> is_byte c2 -> is_byte c3 ->
  (le4 b0 b1 b2 b3 =? le4 c0 c1 c2 c3) = (b0 =? c0) && (b1 =? c1) && (b2 =? c2) && (b3 =? c3).
Proof.
  unfold is_byte, le4. intros. apply eq_true_iff_eq. rewrite !andb_true_iff, !Z.eqb_eq. lia.
Qed.

Lemma oracle_eq : fasm_oracle_ntfs_test_bootsec b part = Done (oem_bytes && tail_checks (pow2b (byte_at b 13))).
Proof.
  unfold fasm_oracle_ntfs_test_bootsec, NTFS_BOOTSEC_MIN_LEN in *. replace (mlen b <? 0x45) with false by lia.
  rewrite !ld16_Done, !ld32_at by lia. rewrite !ld8_ok by lia. run_step.
  rewrite !oracle_clusters. unfold word_at at 1 2.
  rewrite !le4_eqb by (try (by apply byte_at_range); unfold is_byte; lia).
  rewrite negb_orb, !negb_involutive. fold oem_bytes.
  replace ((byte_at b 3 =? 78) && (byte_at b (3 + 1) =? 84) && (byte_at b (3 + 2) =? 70) && (byte_at b (3 + 3) =? 83)
    && ((byte_at b 7 =? 32) && (byte_at b (7 + 1) =? 32) && (byte_at b (7 + 2) =? 32) && (byte_at b (7 + 3) =? 32)))
    with oem_bytes by (unfold oem_bytes; by rewrite !andb_assoc).
  pose proof spc_checks as [_ Hs]. cbn zeta in Hs.
  destruct (pow2b (byte_at b 13)) eqn:E.
  - apply andb_true_iff in Hs as [-> ->].
    destruct (lcn_ok 0x30) as [_ ->]; [lia..|by apply pow2b_pos|].
    destruct (lcn_ok 0x38) as [_ ->]; [lia..|by apply pow2b_pos|]. by rewrite !check_and.
  - apply andb_false_iff in Hs as [-> | ->]; [by rewrite check_stop, !check_and|].
    rewrite check_stop, !check_and. by rewrite andb_false_r.
Qed.

Lemma oem_spec : oem_bytes = true <-> take 8 (drop 3 b) = [78; 84; 70; 83; 32; 32; 32; 32].
Proof.
  assert (stored b 3 (take 8 (drop 3 b))) as Hs.
  { split_and!; [lia| |].
    - unfold mlen, NTFS_BOOTSEC_MIN_LEN in *. rewrite length_take, length_drop. lia.
    - intros i Hi. unfold mlen in Hi. rewrite length_take in Hi. unfold byte_at.
      replace (3 + i <? 0) with false by lia. replace (i <? 0) with false by lia.
      rewrite lookup_take_lt, lookup_drop by lia. do 2 f_equal. lia. }
  assert (mlen (take 8 (drop 3 b)) = 8) as Hl
    by (unfold mlen, NTFS_BOOTSEC_MIN_LEN in *; rewrite length_take, length_drop; lia).
  destruct Hs as (_ & _ & Hs). rewrite Hl in Hs. unfold oem_bytes. rewrite !andb_true_iff, !Z.eqb_eq.
  pose proof (Hs 0 ltac:(lia) : byte_at b 3 = _) as H0.
  pose proof (Hs 1 ltac:(lia) : byte_at b 4 = _) as H1.
  pose proof (Hs 2 ltac:(lia) : byte_at b 5 = _) as H2.
  pose proof (Hs 3 ltac:(lia) : byte_at b 6 = _) as H3.
  pose proof (Hs 4 ltac:(lia) : byte_at b 7 = _) as H4.
  pose proof (Hs 5 ltac:(lia) : byte_at b 8 = _) as H5.
  pose proof (Hs 6 ltac:(lia) : byte_at b 9 = _) as H6.
  pose proof (Hs 7 ltac:(lia) : byte_at b 10 = _) as H7.
  split.
  - intros H. apply mem_ext; [done|]. intros i Hi. rewrite Hl in Hi.
    assert (i = 0 \/ i = 1 \/ i = 2 \/ i = 3 \/ i = 4 \/ i = 5 \/ i = 6 \/ i = 7) as Hc by lia.
    destruct Hc as [->|[->|[->|[->|[->|[->|[->| ->]]]]]]];
      rewrite <- ?H0, <- ?H1, <- ?H2, <- ?H3, <- ?H4, <- ?H5, <- ?H6, <- ?H7; by intuition.
  - intros E. rewrite H0, H1, H2, H3, H4, H5, H6, H7, E. done.
Qed.
End Bootsec.

Lemma tail_spec b part : bytes b -> 0 <= part < 2 ^ 32 ->
  tail_checks b part (pow2b (byte_at b 13)) = true <->
  word16_at b 11 = 512 /\ is_pow2 (byte_at b 13) /\
  word16_at b 14 = 0 /\ word_at b 16 = 0 /\ byte_at b 20 = 0 /\ word16_at b 22 = 0 /\ word_at b 32 = 0 /\
  qword_at b 0x28 <= part /\
  byte_at b 13 * qword_at b 0x30 <= part /\ byte_at b 13 * qword_at b 0x38 <= part /\
  (let ok v := -31 <= v <= -9 \/ is_pow2 v in ok (as_i8 (byte_at b 0x40)) /\ ok (as_i8 (byte_at b 0x44))).
Proof.
  intros Hb Hp. unfold tail_checks. rewrite !andb_true_iff, !Z.eqb_eq, negb_true_iff, Z.ltb_ge, !Z.leb_le.
  pose proof (byte_at_range b 13 Hb) as Hr. unfold is_byte in Hr.
  rewrite (pow2b_spec (byte_at b 13)), !clusters_ok by (done || lia). cbn zeta.
  assert (qword_at b 0x28 <= part <-> word_at b 0x2C = 0 /\ word_at b 0x28 <= part) as ->.
  { unfold qword_at. change (0x28 + 4) with 0x2C.
    pose proof (word_at_range b 0x2C Hb). pose proof (word_at_range b 0x28 Hb). lia. }
  tauto.
Qed.

(** ** Theorems *)

(** C12: on a record as the writer protected it, [ntfs_restore_usa] succeeds and puts
    back every byte outside the update sequence array; if some sector's end word
    is not the sequence number (a torn write) it fails, with exactly the sectors
    before the first torn one restored; and a wrong array size is refused with
    nothing changed. *)
Theorem usa_detects_torn_writes m record size orig : usa_wf m record size ->
  (protected orig m record size ->
     exists m', ntfs_restore_usa m record size = Done (m', true) /\ mlen m' = mlen orig /\
       forall a, disjoint a 1 (record + usa_off m record) (2 * (size / 512 + 1)) -> byte_at m' a = byte_at orig a) /\
  (forall k, 0 <= k < size / 512 -> word16_at m (end_at record k) <> usn_of m record ->
     (forall j, 0 <= j < k -> word16_at m (end_at record j) = usn_of m record) ->
     exists m', ntfs_restore_usa m record size = Done (m', false) /\ restored m record k m') /\
  (forall n, u16 (Z.shiftr n 9 +ₘ 1) <> size / 512 + 1 -> ntfs_restore_usa m record n = Done (m, false)).
Proof.
  intros Hwf. destruct (restore_ok m record size Hwf) as (m' & k & E & Hk & Hres & Hmatch & Htorn).
  split_and!.
  - intros Hp. assert (k = size / 512) as ->.
    { destruct (decide (k = size / 512)); [done|]. destruct (Htorn ltac:(lia)). apply Hp. lia. }
    rewrite Z.eqb_refl in E. exists m'. split_and!; [done| |by apply (restored_protected orig m record size)].
    destruct Hres as [-> _]. apply Hp.
  - intros k' Hk' Hne Heq. assert (k = k') as ->.
    { destruct (Z.lt_trichotomy k k') as [L|[L|L]]; [|done|].
      - destruct (Htorn ltac:(lia)). apply Heq. lia.
      - destruct Hne. apply Hmatch. lia. }
    replace (k' =? size / 512) with false in E by lia. by exists m'.
  - intros n Hn. destruct Hwf as [_ [? ?] ? Hc _]. unfold ntfs_restore_usa, load_u16, UPDATE_SEQUENCE_SIZE in *.
    rewrite (ld16_ok m (record + 6)) by lia. run_step. rewrite Hc.
    by replace (size / 512 + 1 =? u16 (Z.shiftr n 9 +ₘ 1)) with false by lia.
Qed.

(** [ntfs_test_bootsec] and the second formulation kept beside it return on
    every buffer, agree, and accept exactly the sectors that satisfy the rules in
    plain arithmetic: OEM name, 512-byte sectors, a power-of-two cluster, zero FAT
    fields, 64-bit sector count and both 64-bit MFT locations (as sectors) inside
    the partition, record sizes a power of two or a shift between 9 and 31; the
    dword-wise tests cannot be fooled by overflow. *)
Theorem bootsec_valid_iff b part : bytes b -> 0 <= part < 2 ^ 32 ->
  exists ok, ntfs_test_bootsec b part = Done ok /\ fasm_oracle_ntfs_test_bootsec b part = Done ok /\
    (ok = true <-> valid_bootsec b part).
Proof.
  intros Hb Hp. unfold valid_bootsec. destruct (decide (NTFS_BOOTSEC_MIN_LEN <= mlen b)) as [Hl|Hl].
  - eexists. split_and!; [by apply bootsec_eq|by apply oracle_eq|].
    rewrite andb_true_iff, oem_spec, tail_spec by done. split.
    + intros [H1 H2]. exact (conj Hl (conj H1 H2)).
    + intros (_ & H1 & H2). exact (conj H1 H2).
  - exists false. unfold ntfs_test_bootsec, fasm_oracle_ntfs_test_bootsec.
    replace (mlen b <? NTFS_BOOTSEC_MIN_LEN) with true by lia. split_and!; [done..|]. split; [done|]. lia.
Qed.

(** ** Witnesses *)

(** A two-sector record: array at 8, sequence number 0xBEEF, saved words 1, 2. *)
Definition usa_demo : list Z :=
  [0; 0; 0; 0; 8; 0; 3; 0; 0xEF; 0xBE; 1; 0; 2; 0] ++ replicate 496 7 ++ [0xEF; 0xBE] ++
  replicate 510 7 ++ [0xEF; 0xBE].
Definition usa_orig : list Z :=
  [0; 0; 0; 0; 8; 0; 3; 0; 0xEF; 0xBE; 1; 0; 2; 0] ++ replicate 496 7 ++ [1; 0] ++ replicate 510 7 ++ [2; 0].

Lemma usa_demo_wf : usa_wf usa_demo 0 1024.
Proof.
  split; [|vm_compute; split; congruence|lia|done|by vm_compute].
  unfold usa_demo. repeat (apply Forall_app; split); try apply Forall_replicate;
    repeat constructor; unfold is_byte; lia.
Qed.

Definition same_byte (m m' : list Z) (a : Z) : bool :=
  (byte_at m a =? byte_at m' a) || ((510 <=? a) && (a <? 512)) || ((1022 <=? a) && (a <? 1024)).

Lemma usa_demo_protected : protected usa_orig usa_demo 0 1024.
Proof.
  split_and!; [done| |].
  - intros k Hk. assert (k = 0 \/ k = 1) as [->| ->] by (Z.div_mod_to_equations; lia).
    + split; [done|]. intros b [->| ->]; done.
    + split; [done|]. intros b [->| ->]; done.
  - intros a _ Ha. destruct (decide (0 <= a < 1024)) as [Hr|Hr].
    + assert (same_byte usa_demo usa_orig a = true) as H
        by (revert a Hr Ha; intros a Hr _; revert a Hr; apply (forall_range_spec 0 1024); by vm_compute).
      unfold same_byte in H. pose proof (Ha 0 ltac:(Z.div_mod_to_equations; lia)).
      pose proof (Ha 1 ltac:(Z.div_mod_to_equations; lia)).
      unfold disjoint, end_at, SECTOR_END_WORD_OFF, SECTOR_SIZE in *. lia.
    + unfold byte_at. destruct (a <? 0) eqn:?; [done|].
      rewrite !lookup_ge_None_2; [done|..]; vm_compute length; lia.
Qed.

Lemma usa_detects_torn_writes_witness : exists m', ntfs_restore_usa usa_demo 0 1024 = Done (m', true) /\
  byte_at m' 510 = 1 /\ byte_at m' 1022 = 2.
Proof.
  destruct (usa_detects_torn_writes usa_demo 0 1024 usa_orig usa_demo_wf) as ((m' & E & _ & H) & _).
  { exact usa_demo_protected. }
  exists m'. split; [exact E|]. rewrite !H by (vm_compute; right; congruence). split; reflexivity.
Defined.

Definition boot_demo : list Z := match make_valid_ntfs_bootsec 8 4096 4 256 (-10) 1 with Done b => b | _ => [] end.

Lemma bootsec_valid_iff_witness : ntfs_test_bootsec boot_demo 4096 = Done true /\
  ntfs_test_bootsec boot_demo 2047 = Done false.
Proof.
  assert (bytes boot_demo) as Hb by (apply bytes_check; by vm_compute).
  destruct (bootsec_valid_iff boot_demo 4096 Hb ltac:(lia)) as (ok & E & _).
  destruct (bootsec_valid_iff boot_demo 2047 Hb ltac:(lia)) as (ok' & E' & _).
  rewrite E, E'. vm_compute in E, E'. injection E as <-. injection E' as <-. split; reflexivity.
Defined.
