(* ===== verification/Checksum.v ===== *)
(** * Internet checksum

    [checksum.rs].  [checksum_1] adds big-endian 16-bit words into [EDX] with the
    byte-wise add-with-carry chain of the source: 8-byte groups in a loop, then a
    4-, a 2- and a 1-byte remnant.  [checksum_2] folds, complements and swaps.  The
    reference is a plain sum of network-order words modulo 65535. *)

From stdpp Require Import base list.
From Stdlib Require Import ZArith Lia.
From S2P Require Import Prelude.

(** ** Definitions *)

Definition add_dl (sum byte : Z) (carry_in : bool) : Z * bool :=
  let t := Z.land sum 0xff + byte + bool_to_Z carry_in in
  (Z.lor (Z.land sum 0xffffff00) (u8 t), 0xff <? t).

Definition adc_dh (sum byte : Z) (carry_in : bool) : Z * bool :=
  let t := Z.land (Z.shiftr sum 8) 0xff + byte + bool_to_Z carry_in in
  (Z.lor (Z.land sum 0xffff00ff) (u8 t <<ₘ 8), 0xff <? t).

Definition adc_edx (sum : Z) (carry_in : bool) : Z * bool :=
  if negb carry_in then (sum, false) else (sum +ₘ 1, 2 ^ 32 <=? sum + 1).

Definition rem_4 (m : list Z) (sum ptr : Z) (do_it : bool) : run (Z * Z) :=
  if negb do_it then Done (sum, ptr)
  else
    b1 ← ld8 m (ptr + 1); b0 ← ld8 m ptr; b3 ← ld8 m (ptr + 3); b2 ← ld8 m (ptr + 2);
    let '(sum, cf) := add_dl sum b1 false in
    let '(sum, cf) := adc_dh sum b0 cf in
    let '(sum, cf) := add_dl sum b3 cf in
    let '(sum, cf) := adc_dh sum b2 cf in
    let '(sum, _) := adc_edx sum cf in
    Done (sum, ptr + 4).

Definition rem_2 (m : list Z) (sum ptr : Z) (do_it : bool) : run (Z * Z) :=
  if negb do_it then Done (sum, ptr)
  else
    b1 ← ld8 m (ptr + 1); b0 ← ld8 m ptr;
    let '(sum, cf) := add_dl sum b1 false in
    let '(sum, cf) := adc_dh sum b0 cf in
    let '(sum, _) := adc_edx sum cf in
    Done (sum, ptr + 2).

Definition finish_odd (m : list Z) (sum ptr : Z) (do_it : bool) : run Z :=
  if negb do_it then Done sum
  else
    byte ← ld8 m ptr;
    let t := Z.land (Z.shiftr sum 8) 0xff + byte in
    let sum := Z.lor (Z.land sum 0xffff00ff) (u8 t <<ₘ 8) in
    let '(sum, _) := adc_edx sum (0xff <? t) in
    Done sum.

(** State: sum, carry, pointer, [ecx]. *)
Definition qword_body (m : list Z) (st : Z * bool * Z * Z) : run (Z * bool * Z * Z + Z * bool * Z) :=
  let '(sum, _, ptr, ecx) := st in
  b1 ← ld8 m (ptr + 1); b0 ← ld8 m ptr; b3 ← ld8 m (ptr + 3); b2 ← ld8 m (ptr + 2);
  b5 ← ld8 m (ptr + 5); b4 ← ld8 m (ptr + 4); b7 ← ld8 m (ptr + 7); b6 ← ld8 m (ptr + 6);
  let '(sum, cf) := add_dl sum b1 false in
  let '(sum, cf) := adc_dh sum b0 cf in
  let '(sum, cf) := add_dl sum b3 cf in
  let '(sum, cf) := adc_dh sum b2 cf in
  let '(sum, cf) := add_dl sum b5 cf in
  let '(sum, cf) := adc_dh sum b4 cf in
  let '(sum, cf) := add_dl sum b7 cf in
  let '(sum, cf) := adc_dh sum b6 cf in
  let '(sum, cf) := adc_edx sum cf in
  let ptr := ptr + 8 in
  let ecx := ecx - 1 in
  if ecx =? 0 then Done (inr (sum, cf, ptr)) else Done (inl (sum, cf, ptr, ecx)).

Definition checksum_1 (m : list Z) (sum data length : Z) : run Z :=
  let ptr := data in
  let len := length in
  let cf_odd := negb (Z.land len 1 =? 0) in
  let words := Z.shiftr len 1 in
  if words =? 0 then finish_odd m sum ptr cf_odd
  else
    let cf_2 := negb (Z.land words 1 =? 0) in
    let dwords := Z.shiftr words 1 in
    if dwords =? 0 then
      '(sum, ptr) ← rem_2 m sum ptr cf_2;
      finish_odd m sum ptr cf_odd
    else
      let cf_4 := negb (Z.land dwords 1 =? 0) in
      let qwords := Z.shiftr dwords 1 in
      '(sum, ptr) ←
        (if negb (qwords =? 0) then
           '(sum, cf, ptr) ← loop (S (Z.to_nat qwords)) (qword_body m) (sum, false, ptr, qwords);
           let '(sum, _) := adc_edx sum cf in
           Done (sum, ptr)
         else Done (sum, ptr));
      '(sum, ptr) ← rem_4 m sum ptr cf_4;
      '(sum, ptr) ← rem_2 m sum ptr cf_2;
      finish_odd m sum ptr cf_odd.

Definition checksum_2 (sum : Z) : Z :=
  let edx := Z.land sum 0xffff + Z.shiftr sum 16 in
  let dx := u16 (u16 edx + u16 (Z.shiftr edx 16)) in
  let was_zero := dx =? 0 in
  let dx := 2 ^ 16 - 1 - dx in
  let dx := if was_zero then u16 (dx - 1) else dx in
  Z.lor (u16 (Z.shiftl dx 8)) (Z.shiftr dx 8).

(** ** Reference *)

(** Sum of the network-order words of [n] bytes at [p]; a last odd byte is the high
    half of a word padded with zero. *)
Fixpoint net_sum (m : list Z) (p : Z) (n : nat) : Z :=
  match n with
  | O => 0
  | S k => net_sum m p k + byte_at m (p + Z.of_nat k) * (if Nat.even k then 256 else 1)
  end.

(** Congruence modulo 2^16 - 1, the arithmetic of end-around carries. *)
Definition cong (a b : Z) : Prop := exists q, a = b + 65535 * q.

#[global] Instance cong_equiv : Equivalence cong.
Proof.
  split.
  - intros a. exists 0. lia.
  - intros a b [q ->]. exists (- q). lia.
  - intros a b c [q ->] [r ->]. exists (q + r). lia.
Qed.

#[global] Instance cong_add : Proper (cong ==> cong ==> cong) Z.add.
Proof. intros a b [q ->] c d [r ->]. exists (q + r). lia. Qed.

Lemma cong_mod a b : cong a b -> a mod 65535 = b mod 65535.
Proof. intros [q ->]. rewrite Z.mul_comm. by apply Z.mod_add. Qed.

(** ** The carry chain *)

Lemma add_dl_eq sum b c : 0 <= sum < 2 ^ 32 -> is_byte b ->
  add_dl sum b c = (sum / 256 * 256 + (sum mod 256 + b + bool_to_Z c) mod 256,
                    256 <=? sum mod 256 + b + bool_to_Z c).
Proof.
  unfold is_byte. intros Hs Hb. unfold add_dl. rewrite (land_mask _ 8 0xff) by lia.
  rewrite (set_low 32 8) by (done || lia || apply (wrap_range 8); lia).
  unfold wrap. change (2 ^ 8) with 256. f_equal. lia.
Qed.

Lemma adc_dh_eq hi l b c : 0 <= hi < 2 ^ 24 -> 0 <= l < 256 -> is_byte b ->
  adc_dh (hi * 256 + l) b c =
    (hi / 256 * 65536 + (hi mod 256 + b + bool_to_Z c) mod 256 * 256 + l,
     256 <=? hi mod 256 + b + bool_to_Z c).
Proof.
  unfold is_byte. intros Hh Hl Hb. unfold adc_dh.
  rewrite shr_eq by lia. change (2 ^ 8) with 256.
  replace ((hi * 256 + l) / 256) with hi by (Z.div_mod_to_equations; lia).
  rewrite (land_mask hi 8 0xff) by lia. change (u8 hi) with (hi mod 256).
  set (t := hi mod 256 + b + bool_to_Z c). f_equal; [|lia].
  assert (0 <= u8 t < 256) as Ht by (apply (wrap_range 8); lia).
  rewrite shl_fold by lia.
  change 0xffff00ff with (Z.lor (2 ^ 32 - 2 ^ 16) 0xff).
  rewrite Z.land_lor_distr_r, (land_align 32 16), (land_mask _ 8) by lia.
  unfold align_down. change (2 ^ 16) with (2 ^ 8 * 2 ^ 8).
  rewrite (Z.lor_comm _ (u8 t * 2 ^ 8)), Z.lor_assoc.
  replace (u8 t * 2 ^ 8) with (u8 t * 2 ^ 8 + 0) by lia.
  rewrite Z.mul_assoc.
  replace ((hi * 256 + l) / (2 ^ 8 * 2 ^ 8) * 2 ^ 8 * 2 ^ 8)
    with ((hi / 256 * 2 ^ 8) * 2 ^ 8 + 0) by (change (2 ^ 8) with 256; Z.div_mod_to_equations; lia).
  rewrite lor_halves, lor_tag by lia. rewrite Z.lor_0_l, Z.add_0_r.
  assert (u8 (hi * 256 + l) = l) as -> by (unfold wrap; change (2 ^ 8) with 256; Z.div_mod_to_equations; lia).
  rewrite lor_mul_add by lia. unfold wrap. change (2 ^ 8) with 256. lia.
Qed.

(** One word through the chain. *)
Definition add_word (sum bh bl : Z) (c : bool) : Z * bool :=
  let '(sum, c) := add_dl sum bl c in adc_dh sum bh c.

Lemma add_word_ok sum bh bl c : 0 <= sum < 2 ^ 32 -> is_byte bh -> is_byte bl ->
  exists s' c', add_word sum bh bl c = (s', c') /\ 0 <= s' < 2 ^ 32 /\ s' / 65536 = sum / 65536 /\
    s' + 65536 * bool_to_Z c' = sum + (256 * bh + bl) + bool_to_Z c.
Proof.
  intros Hs Hbh Hbl. unfold add_word. rewrite add_dl_eq by done.
  assert (0 <= sum / 256 < 2 ^ 24) by (Z.div_mod_to_equations; lia).
  assert (0 <= (sum mod 256 + bl + bool_to_Z c) mod 256 < 256) by (apply Z.mod_pos_bound; lia).
  rewrite adc_dh_eq by done. do 2 eexists. split; [done|]. unfold is_byte in *.
  destruct c; cbn [bool_to_Z];
    (destruct (256 <=? sum mod 256 + bl + _) eqn:E1; cbn [bool_to_Z];
     (destruct (256 <=? sum / 256 mod 256 + bh + _) eqn:E2; cbn [bool_to_Z]));
    split_and!; Z.div_mod_to_equations; lia.
Qed.

Lemma add_word_cong sum bh bl c : 0 <= sum < 2 ^ 32 -> is_byte bh -> is_byte bl ->
  exists s' c', add_word sum bh bl c = (s', c') /\ 0 <= s' < 2 ^ 32 /\ s' / 65536 = sum / 65536 /\
    cong (s' + bool_to_Z c') (sum + bool_to_Z c + (256 * bh + bl)).
Proof.
  intros Hs H1 H2. destruct (add_word_ok sum bh bl c) as (s' & c' & E & Hr & Hh & Hv); try done.
  exists s', c'. split_and!; try done; try lia. exists (- bool_to_Z c'). lia.
Qed.

Lemma adc_edx_ok sum c : 0 <= sum < 2 ^ 32 -> sum / 65536 < 65535 ->
  adc_edx sum c = (sum + bool_to_Z c, false) /\ 0 <= sum + bool_to_Z c < 2 ^ 32 /\
  (sum + bool_to_Z c) / 65536 <= sum / 65536 + 1.
Proof.
  intros Hs Hh. unfold adc_edx. assert (sum < 2 ^ 32 - 65536) by (Z.div_mod_to_equations; lia).
  destruct c; cbn [negb bool_to_Z].
  - rewrite wrap_small by lia. split_and!; try lia; [f_equal; lia|Z.div_mod_to_equations; lia].
  - split_and!; try lia; [by rewrite Z.add_0_r|Z.div_mod_to_equations; lia].
Qed.

Lemma net_sum_2 m p k : Nat.even k = true ->
  net_sum m p (S (S k)) = net_sum m p k +
    (256 * byte_at m (p + Z.of_nat k) + byte_at m (p + Z.of_nat k + 1)).
Proof.
  intros He. cbn [net_sum]. rewrite He.
  assert (Nat.even (S k) = false) as -> by (rewrite Nat.even_succ, <- Nat.negb_even, He; done).
  replace (p + Z.of_nat (S k)) with (p + Z.of_nat k + 1) by lia. lia.
Qed.

(** Partial sums: [sum] stands for [seed] plus the first [k] bytes, after at most
    [g] increments of its high half. *)
Definition part (m : list Z) (seed p : Z) (k : nat) (g sum : Z) : Prop :=
  0 <= sum < 2 ^ 32 /\ sum / 65536 <= seed / 65536 + g /\ cong sum (seed + net_sum m p k).

Section Sum.
Context (m : list Z) (seed data : Z) (n : nat).
Context (Hm : bytes m) (Hd : 0 <= data) (Hfit : data + Z.of_nat n <= mlen m).
Context (Hseed : 0 <= seed < 2 ^ 32) (Hroom : seed / 65536 + Z.of_nat n / 8 + 4 <= 65535).

Lemma chain_ok k g sum (words : list (Z * Z)) :
  part m seed data k g sum -> seed / 65536 + g < 65535 ->
  Forall (fun w => is_byte w.1 /\ is_byte w.2) words ->
  exists s' c', fold_left (fun st w => add_word st.1 w.1 w.2 st.2) words (sum, false) = (s', c') /\
    0 <= s' < 2 ^ 32 /\ s' / 65536 = sum / 65536 /\
    cong (s' + bool_to_Z c') (sum + fold_left (fun a w => a + (256 * w.1 + w.2)) words 0).
Proof.
  intros (Hs & _ & _) _ Hw.
  assert (forall ws s c a, 0 <= s < 2 ^ 32 -> s / 65536 = sum / 65536 -> cong (s + bool_to_Z c) (sum + a) ->
    Forall (fun w => is_byte w.1 /\ is_byte w.2) ws ->
    exists s' c', fold_left (fun st w => add_word st.1 w.1 w.2 st.2) ws (s, c) = (s', c') /\
      0 <= s' < 2 ^ 32 /\ s' / 65536 = sum / 65536 /\
      cong (s' + bool_to_Z c') (sum + fold_left (fun a w => a + (256 * w.1 + w.2)) ws a)) as Hgen.
  { induction ws as [|[h l] ws IH]; intros s c a Hsr Hsh Hc Hf; [by exists s, c|].
    apply Forall_cons in Hf as [[Hh Hl] Hf]. cbn [fold_left fst snd].
    destruct (add_word_cong s h l c Hsr Hh Hl) as (s1 & c1 & -> & Hr1 & Hh1 & Hc1).
    apply IH; [done|lia| |done]. etransitivity; [exact Hc1|].
    destruct Hc as [q Hq]. exists q. lia. }
  apply Hgen; [done|done| |done]. exists 0. cbn. lia.
Qed.

(** A chain, and the carry into the whole register. *)
Lemma group_ok k g sum words total :
  part m seed data k g sum -> seed / 65536 + g < 65535 ->
  Forall (fun w => is_byte w.1 /\ is_byte w.2) words ->
  total = fold_left (fun a w => a + (256 * w.1 + w.2)) words 0 ->
  exists s' c', fold_left (fun st w => add_word st.1 w.1 w.2 st.2) words (sum, false) = (s', c') /\
    exists s'', adc_edx s' c' = (s'', false) /\
    0 <= s'' < 2 ^ 32 /\ s'' / 65536 <= seed / 65536 + (g + 1) /\
    cong s'' (seed + (net_sum m data k + total)).
Proof.
  intros Hp Hg Hw ->. destruct (chain_ok k g sum words Hp Hg Hw) as (s' & c' & E & Hr & Hh & Hc).
  destruct Hp as (Hs & Hgs & Hcs). exists s', c'. split; [done|].
  destruct (adc_edx_ok s' c') as (Ea & Hra & Hha); [done|lia|].
  exists (s' + bool_to_Z c'). split_and!; try done; try lia.
  etransitivity; [exact Hc|]. destruct Hcs as [q Hq]. exists q. lia.
Qed.

Lemma byte_here k : (k < n)%nat -> ld8 m (data + Z.of_nat k) = Done (byte_at m (data + Z.of_nat k)).
Proof. intros. apply ld8_ok. lia. Qed.

Lemma rem_2_ok k g sum b : part m seed data k g sum -> seed / 65536 + g < 65535 -> Nat.even k = true ->
  (b = true -> (k + 2 <= n)%nat) ->
  exists s', rem_2 m sum (data + Z.of_nat k) b = Done (s', data + Z.of_nat (if b then k + 2 else k)) /\
    part m seed data (if b then k + 2 else k) (g + 1) s'.
Proof.
  intros Hp Hg He Hb. destruct b.
  - specialize (Hb eq_refl). unfold rem_2. cbn [negb]. rewrite !ld8_ok by lia. run_step.
    set (a := data + Z.of_nat k) in *.
    destruct (group_ok k g sum [(byte_at m a, byte_at m (a + 1))] _ Hp Hg
      ltac:(repeat constructor; by apply byte_at_range) eq_refl) as (s1 & c1 & E1 & s2 & E2 & Hr & Hh & Hc).
    cbn [fold_left fst snd] in E1, Hc. unfold add_word in E1.
    destruct (add_dl sum (byte_at m (a + 1)) false) as [s0 c0]. rewrite E1, E2.
    exists s2. split; [do 2 f_equal; unfold a; lia|]. unfold part. split_and!; try done; try lia.
    replace (k + 2)%nat with (S (S k)) by lia. rewrite net_sum_2 by done. exact Hc.
  - exists sum. split; [done|]. destruct Hp as (? & ? & ?). unfold part. split_and!; done || lia.
Qed.

Lemma rem_4_ok k g sum b : part m seed data k g sum -> seed / 65536 + g < 65535 -> Nat.even k = true ->
  (b = true -> (k + 4 <= n)%nat) ->
  exists s', rem_4 m sum (data + Z.of_nat k) b = Done (s', data + Z.of_nat (if b then k + 4 else k)) /\
    part m seed data (if b then k + 4 else k) (g + 1) s'.
Proof.
  intros Hp Hg He Hb. destruct b.
  - specialize (Hb eq_refl). unfold rem_4. cbn [negb]. rewrite !ld8_ok by lia. run_step.
    set (a := data + Z.of_nat k) in *.
    destruct (group_ok k g sum [(byte_at m a, byte_at m (a + 1)); (byte_at m (a + 2), byte_at m (a + 3))] _ Hp Hg
      ltac:(repeat constructor; by apply byte_at_range) eq_refl) as (s1 & c1 & E1 & s2 & E2 & Hr & Hh & Hc).
    cbn [fold_left fst snd] in E1, Hc. unfold add_word in E1.
    destruct (add_dl sum (byte_at m (a + 1)) false) as [sa ca]. destruct (adc_dh sa _ ca) as [sb cb].
    cbn [fst snd] in E1. destruct (add_dl sb (byte_at m (a + 3)) cb) as [sc cc]. rewrite E1, E2.
    exists s2. split; [do 2 f_equal; unfold a; lia|]. unfold part. split_and!; try done; try lia.
    replace (k + 4)%nat with (S (S (S (S k)))) by lia.
    rewrite net_sum_2, net_sum_2 by (rewrite ?Nat.even_succ_succ; done).
    replace (data + Z.of_nat (S (S k))) with (a + 2) by (unfold a; lia). fold a.
    replace (a + 2 + 1) with (a + 3) by lia. etransitivity; [exact Hc|]. exists 0. lia.
  - exists sum. split; [done|]. destruct Hp as (? & ? & ?). unfold part. split_and!; done || lia.
Qed.

Lemma finish_odd_ok k g sum b : part m seed data k g sum -> seed / 65536 + g < 65535 -> Nat.even k = true ->
  (b = true -> (k + 1 <= n)%nat) ->
  exists s', finish_odd m sum (data + Z.of_nat k) b = Done s' /\ part m seed data (if b then k + 1 else k) (g + 1) s'.
Proof.
  intros Hp Hg He Hb. destruct b.
  - specialize (Hb eq_refl). unfold finish_odd. cbn [negb]. rewrite ld8_ok by lia. run_step.
    set (a := data + Z.of_nat k) in *. pose proof Hp as (Hs & _ & _).
    assert (Forall (fun w => is_byte w.1 /\ is_byte w.2) [(byte_at m a, 0)]) as Hw.
    { apply Forall_cons. split; [|by apply Forall_nil]. split; [by apply byte_at_range|unfold is_byte; cbn; lia]. }
    destruct (group_ok k g sum [(byte_at m a, 0)] _ Hp Hg Hw eq_refl) as (s1 & c1 & E1 & s2 & E2 & Hr & Hh & Hc).
    cbn [fold_left fst snd] in E1, Hc. unfold add_word in E1.
    rewrite add_dl_eq in E1 by (done || unfold is_byte; lia). cbn [bool_to_Z] in E1.
    rewrite !Z.add_0_r, Z.mod_mod in E1 by lia.
    replace (sum / 256 * 256 + sum mod 256) with sum in E1 by (Z.div_mod_to_equations; lia).
    replace (256 <=? sum mod 256) with false in E1 by (Z.div_mod_to_equations; lia).
    unfold adc_dh in E1. cbn [bool_to_Z] in E1. rewrite Z.add_0_r in E1. injection E1 as E1 E1'.
    rewrite E1, E1', E2. exists s2. split; [done|]. unfold part. split_and!; try done; try lia.
    replace (k + 1)%nat with (S k) by lia. cbn [net_sum]. rewrite He. fold a.
    etransitivity; [exact Hc|]. exists 0. lia.
  - exists sum. split; [done|]. destruct Hp as (? & ? & ?). unfold part. split_and!; done || lia.
Qed.

Lemma even_8 i : Nat.even (8 * i) = true.
Proof. rewrite Nat.even_mul. done. Qed.

Lemma qword_step i s : part m seed data (8 * i) (Z.of_nat i) s -> (8 * i + 8 <= n)%nat ->
  exists s', part m seed data (8 * S i) (Z.of_nat (S i)) s' /\ forall ecx cf,
    qword_body m (s, cf, data + Z.of_nat (8 * i), ecx) =
      Done (if ecx - 1 =? 0 then inr (s', false, data + Z.of_nat (8 * S i))
            else inl (s', false, data + Z.of_nat (8 * S i), ecx - 1)).
Proof.
  intros Hp Hi. pose proof (even_8 i) as He. set (a := data + Z.of_nat (8 * i)).
  assert (seed / 65536 + Z.of_nat i < 65535) as Hg by (Z.div_mod_to_equations; lia).
  destruct (group_ok (8 * i) (Z.of_nat i) s
    [(byte_at m a, byte_at m (a + 1)); (byte_at m (a + 2), byte_at m (a + 3));
     (byte_at m (a + 4), byte_at m (a + 5)); (byte_at m (a + 6), byte_at m (a + 7))] _ Hp Hg
    ltac:(repeat constructor; by apply byte_at_range) eq_refl) as (s1 & c1 & E1 & s2 & E2 & Hr & Hh & Hc).
  cbn [fold_left fst snd] in E1, Hc. unfold add_word in E1.
  exists s2. split.
  - unfold part. split_and!; try lia. replace (8 * S i)%nat with (S (S (S (S (S (S (S (S (8 * i))))))))) by lia.
    rewrite !net_sum_2 by (rewrite ?Nat.even_succ_succ; done).
    replace (data + Z.of_nat (S (S (8 * i)))) with (a + 2) by (unfold a; lia).
    replace (data + Z.of_nat (S (S (S (S (8 * i)))))) with (a + 4) by (unfold a; lia).
    replace (data + Z.of_nat (S (S (S (S (S (S (8 * i)))))))) with (a + 6) by (unfold a; lia). fold a.
    replace (a + 2 + 1) with (a + 3) by lia. replace (a + 4 + 1) with (a + 5) by lia.
    replace (a + 6 + 1) with (a + 7) by lia. etransitivity; [exact Hc|]. exists 0. lia.
  - intros ecx cf. unfold qword_body. rewrite !ld8_ok by (unfold a; lia). run_step.
    replace (data + Z.of_nat (8 * S i)) with (a + 8) by (unfold a; lia).
    do 7 (match goal with |- match ?t with _ => _ end = _ =>
      destruct t; cbn [fst snd] in E1 end).
    rewrite E1, E2. by destruct (ecx - 1 =? 0).
Qed.

Lemma qword_loop q : (0 < q)%nat -> (8 * q <= n)%nat ->
  exists s', part m seed data (8 * q) (Z.of_nat q) s' /\
    loop (S q) (qword_body m) (seed, false, data, Z.of_nat q) = Done (s', false, data + Z.of_nat (8 * q)).
Proof.
  intros Hq Hn. destruct (loop_total
    (fun st => exists i s, (i < q)%nat /\ st = (s, false, data + Z.of_nat (8 * i), Z.of_nat (q - i)) /\
       part m seed data (8 * i) (Z.of_nat i) s)
    (fun st => Z.to_nat st.2)
    (fun r => exists s', r = (s', false, data + Z.of_nat (8 * q)) /\ part m seed data (8 * q) (Z.of_nat q) s')
    (qword_body m)) with (fuel := S q) (s := (seed, false, data, Z.of_nat q)) as (r & E & s' & -> & Hp).
  - intros ? (i & s & Hi & -> & Hp). destruct (qword_step i s Hp) as (s' & Hp' & ->); [lia|].
    eexists. split; [done|]. destruct (Z.of_nat (q - i) - 1 =? 0) eqn:E.
    + apply Z.eqb_eq in E. exists s'. assert (S i = q) as <- by lia. done.
    + apply Z.eqb_neq in E. cbn [snd]. split; [|lia]. exists (S i), s'. split_and!; [lia| |done].
      apply f_equal2; [done|lia].
  - exists 0%nat, seed. split_and!; [lia| |].
    + apply f_equal2; [apply f_equal2; [done|lia]|lia].
    + unfold part. split_and!; try lia. exists 0. cbn. lia.
  - cbn [snd]. lia.
  - by exists s'.
Qed.

(** The three remnants after [q] groups. *)
Lemma tail_ok q s b4 b2 b1 : part m seed data (8 * q) (Z.of_nat q) s ->
  (8 * q + (if b4 : bool then 4 else 0) + (if b2 : bool then 2 else 0) + (if b1 : bool then 1 else 0) = n)%nat ->
  exists r, ('(s, p) ← rem_4 m s (data + Z.of_nat (8 * q)) b4;
             '(s, p) ← rem_2 m s p b2; finish_odd m s p b1) = Done r /\
    0 <= r < 2 ^ 32 /\ cong r (seed + net_sum m data n).
Proof.
  intros Hp Hn. assert (Z.of_nat q <= Z.of_nat n / 8) by (Z.div_mod_to_equations; lia).
  destruct (rem_4_ok (8 * q) (Z.of_nat q) s b4 Hp) as (s4 & -> & H4);
    [lia|apply even_8|destruct b4; [intros; lia|done]|]. run_step.
  assert (Nat.even (if b4 then 8 * q + 4 else 8 * q) = true) as He4
    by (destruct b4; rewrite ?Nat.even_add, even_8; done).
  destruct (rem_2_ok _ _ s4 b2 H4) as (s2 & -> & H2);
    [lia|done|destruct b4, b2; intros; lia|]. run_step.
  assert (Nat.even (if b2 then (if b4 then 8 * q + 4 else 8 * q) + 2 else if b4 then 8 * q + 4 else 8 * q) = true)
    as He2 by (destruct b2; rewrite ?Nat.even_add, ?He4; done).
  destruct (finish_odd_ok _ _ s2 b1 H2) as (s1 & -> & H1);
    [lia|done|destruct b4, b2, b1; intros; lia|].
  exists s1. destruct H1 as (Hr & _ & Hc). split_and!; try done; try lia.
  replace (if b1 then _ else _) with n in Hc by (destruct b4, b2, b1; lia). exact Hc.
Qed.

Lemma checksum_1_ok : exists r, checksum_1 m seed data (Z.of_nat n) = Done r /\
  0 <= r < 2 ^ 32 /\ cong r (seed + net_sum m data n).
Proof.
  set (q := (n / 8)%nat). set (b4 := Nat.odd (n / 4)). set (b2 := Nat.odd (n / 2)). set (b1 := Nat.odd n).
  assert (forall x, negb (Z.land (Z.of_nat x) 1 =? 0) = Nat.odd x) as Hodd.
  { intros x. rewrite (land_mask _ 1) by lia. unfold wrap. change (2 ^ 1) with 2.
    assert (Z.of_nat x mod 2 = Z.of_nat (Nat.b2n (Nat.odd x))) as ->
      by (pose proof (Nat.div2_odd x); destruct (Nat.odd x); cbn [Nat.b2n] in *; Z.div_mod_to_equations; lia).
    by destruct (Nat.odd x). }
  assert (forall x, Z.shiftr (Z.of_nat x) 1 = Z.of_nat (x / 2)) as Hshr.
  { intros x. rewrite shr_eq by lia. by rewrite Nat2Z.inj_div. }
  assert (n / 2 / 2 = n / 4 /\ n / 4 / 2 = q)%nat as [E4 E8] by (unfold q; rewrite !Nat.Div0.div_div; done).
  assert (part m seed data 0 0 seed) as H0 by (unfold part; split_and!; try lia; exists 0; cbn; lia).
  assert (8 * q + (if b4 then 4 else 0) + (if b2 then 2 else 0) + (if b1 then 1 else 0) = n)%nat as Hn.
  { unfold b4, b2, b1, q. pose proof (Nat.div2_odd n). pose proof (Nat.div2_odd (n / 2)).
    pose proof (Nat.div2_odd (n / 4)). rewrite Nat.div2_div in *. rewrite E4, E8 in *.
    destruct (Nat.odd n), (Nat.odd (n / 2)), (Nat.odd (n / 4)); cbn [Nat.b2n] in *; unfold q in *; lia. }
  unfold checksum_1. rewrite !Hshr, !Hodd, !E4, !E8. fold b4 b2 b1.
  destruct (Z.of_nat (n / 2) =? 0) eqn:Z2; [|destruct (Z.of_nat (n / 4) =? 0) eqn:Z4].
  - assert (n / 2 = 0)%nat as En by lia. assert (b2 = false /\ b4 = false /\ q = 0%nat) as (Eb2 & Eb4 & Eq).
    { unfold b2, b4. rewrite <- E4, En, <- E8, <- E4, En. done. }
    destruct (tail_ok 0 seed false false b1 H0) as (r & E & Hr); [rewrite Eb2, Eb4, Eq in Hn; lia|].
    exists r. split; [|done]. rewrite <- E. cbn. by rewrite Z.add_0_r.
  - assert (n / 4 = 0)%nat as En by lia. assert (b4 = false /\ q = 0%nat) as (Eb4 & Eq).
    { unfold b4. rewrite En, <- E8, En. done. }
    destruct (tail_ok 0 seed false b2 b1 H0) as (r & E & Hr); [rewrite Eb4, Eq in Hn; lia|].
    exists r. split; [|done]. rewrite <- E. cbn. by rewrite Z.add_0_r.
  - destruct (Z.of_nat q =? 0) eqn:Zq; cbn [negb].
    + run_step. assert (q = 0)%nat as Eq by lia.
      destruct (tail_ok 0 seed b4 b2 b1 H0) as (r & E & Hr); [rewrite Eq in Hn; lia|].
      exists r. split; [|done]. rewrite <- E. cbn [Nat.mul]. by rewrite Z.add_0_r.
    + destruct (qword_loop q) as (s & Hs & El); [lia|lia|].
      rewrite Nat2Z.id, El. run_step. destruct (tail_ok q s b4 b2 b1 Hs Hn) as (r & E & Hr). by exists r.
Qed.
End Sum.

(** The stored checksum as the network-order word the receiver adds. *)
Definition net_word (dx : Z) : Z := dx mod 256 * 256 + dx / 256.

Lemma checksum_2_ok sum : 0 <= sum < 2 ^ 32 ->
  let w := net_word (checksum_2 sum) in
  0 <= checksum_2 sum < 65536 /\
  (sum <> 0 -> cong (sum + w) 0) /\ (sum = 0 -> w = 0xFFFE).
Proof.
  intros Hs. cbn zeta. unfold checksum_2. rewrite (land_mask sum 16) by lia. rewrite !shr_eq by lia.
  change (u16 sum) with (sum mod 65536). change (2 ^ 16) with 65536.
  set (e := sum mod 65536 + sum / 65536). assert (0 <= e < 2 * 65536 - 1) as He
    by (unfold e; Z.div_mod_to_equations; lia).
  assert (u16 (u16 e + u16 (e / 65536)) = e mod 65536 + e / 65536) as ->.
  { rewrite (wrap_small 16 (e / 65536)) by (Z.div_mod_to_equations; lia).
    change (u16 e) with (e mod 65536). apply wrap_small. Z.div_mod_to_equations. lia. }
  set (d := e mod 65536 + e / 65536).
  assert (0 <= d < 65536 /\ (d = 0 <-> sum = 0) /\ exists q, sum = d + 65535 * q) as (Hd & Hz & q & Hq).
  { unfold d, e. split_and!; [Z.div_mod_to_equations; lia..|].
    exists (sum / 65536 + e / 65536). unfold e. Z.div_mod_to_equations. lia. }
  clearbody d. clear e He.
  set (x := if d =? 0 then u16 (65536 - 1 - d - 1) else 65536 - 1 - d).
  assert (x = if d =? 0 then 0xFFFE else 65535 - d) as Ex.
  { unfold x. destruct (d =? 0) eqn:E; [|lia]. replace d with 0 by lia. done. }
  assert (0 <= x < 65536) by (rewrite Ex; case_match; lia).
  assert (Z.lor (u16 (Z.shiftl x 8)) (x / 2 ^ 8) = x mod 256 * 256 + x / 256) as ->.
  { rewrite Z.shiftl_mul_pow2 by lia. unfold wrap. change (2 ^ 8) with 256. change (2 ^ 16) with 65536.
    replace (x * 256 mod 65536) with (x mod 256 * 2 ^ 8) by (change (2 ^ 8) with 256; Z.div_mod_to_equations; lia).
    apply (lor_mul_add _ _ 8); [lia|]. change (2 ^ 8) with 256. Z.div_mod_to_equations. lia. }
  assert (net_word (x mod 256 * 256 + x / 256) = x) as -> by (unfold net_word; Z.div_mod_to_equations; lia).
  split_and!; [Z.div_mod_to_equations; lia..| |].
  - intros Hn. replace (d =? 0) with false in Ex by lia. exists (q + 1). lia.
  - intros ->. replace (d =? 0) with true in Ex by lia. done.
Qed.

(** ** Theorem *)

(** C13: on a packet of any length, started from any partial sum (a pseudo-header)
    with room for the carries, the byte-wise chain of [checksum_1] returns the sum
    of the network-order words up to end-around carry, and the word [checksum_2]
    makes of it verifies: a receiver that adds it to the same words gets 0 modulo
    65535.  The one exception is a sum of exactly zero, for which [checksum_2]
    answers 0xFFFE, which does not verify. *)
Theorem internet_checksum_verifies m seed data n :
  bytes m -> 0 <= data -> data + Z.of_nat n <= mlen m -> 0 <= seed < 2 ^ 32 ->
  seed / 65536 + Z.of_nat n / 8 + 4 <= 65535 ->
  exists sum, checksum_1 m seed data (Z.of_nat n) = Done sum /\
    sum mod 65535 = (seed + net_sum m data n) mod 65535 /\
    let w := net_word (checksum_2 sum) in
    (sum <> 0 -> (seed + net_sum m data n + w) mod 65535 = 0) /\
    (sum = 0 -> (seed + net_sum m data n + w) mod 65535 = 65534).
Proof.
  intros Hm Hd Hfit Hs Hr. destruct (checksum_1_ok m seed data n Hm Hd Hfit Hs Hr) as (sum & E & Hsr & Hc).
  exists sum. split; [done|]. split; [by apply cong_mod|]. cbn zeta.
  destruct (checksum_2_ok sum Hsr) as (_ & Hnz & Hz). split.
  - intros Hne. change 0 with (0 mod 65535). apply cong_mod. rewrite <- Hc. by apply Hnz.
  - intros He. rewrite Hz by done. change 65534 with (0xFFFE mod 65535). apply cong_mod.
    rewrite <- Hc. subst. done.
Qed.

(** Five bytes after a pseudo-header sum. *)
Lemma internet_checksum_verifies_witness :
  exists sum, checksum_1 [1; 2; 3; 4; 5] 0x11223 0 5 = Done sum /\
    (0x11223 + net_sum [1; 2; 3; 4; 5] 0 5 + net_word (checksum_2 sum)) mod 65535 = 0.
Proof.
  destruct (internet_checksum_verifies [1; 2; 3; 4; 5] 0x11223 0 5) as (sum & E & _ & H & _).
  - by apply bytes_check.
  - lia.
  - by vm_compute.
  - lia.
  - by vm_compute.
  - exists sum. split; [exact E|]. apply H. intros ->. vm_compute in E. discriminate E.
Defined.
