(* ===== verification/Tcp.v ===== *)
(** * TCP timers and flags

    [tcp.rs]: the round-trip estimator, the persist timer and the header flags of
    a state, over the bytes of a [TCP_SOCKET] (offsets from the source). *)

From stdpp Require Import base list sets.
From Stdlib Require Import ZArith Lia.
From S2P Require Import Prelude.

(** ** Definitions *)

Definition TCP_OFF_T_STATE : Z := 114.
Definition TCP_OFF_T_RXTSHIFT : Z := 118.
Definition TCP_OFF_T_RTT : Z := 202.
Definition TCP_OFF_T_SRTT : Z := 210.
Definition TCP_OFF_T_RTTVAR : Z := 214.
Definition TCP_OFF_TIMER_FLAGS : Z := 254.
Definition TCP_OFF_TIMER_PERSIST : Z := 262.
Definition TCP_RTT_SHIFT : Z := 3.
Definition TCP_RTTVAR_SHIFT : Z := 2.
Definition TCP_TIME_PERS_MIN : Z := 8.
Definition TCP_TIME_PERS_MAX : Z := 94.
Definition TCP_MAX_RXTSHIFT : Z := 12.
Definition TIMER_FLAG_RETRANSMISSION : Z := 1.
Definition TIMER_FLAG_PERSIST : Z := 8.
Definition TH_FIN : Z := 1.
Definition TH_SYN : Z := 2.
Definition TH_RST : Z := 4.
Definition TH_ACK : Z := 16.
Definition TCPS_TIME_WAIT : Z := 10.

Definition tcpt_rangeset (value min max : Z) : Z :=
  if value <? min then min else if max <? value then max else value.

Definition add_ja_clamp (old delta : Z) : Z :=
  let sum := old +ₘ delta in
  let cf := 2 ^ 32 <=? old + delta in
  if cf || (sum =? 0) then 1 else sum.

Definition abs_cdq (eax : Z) : Z :=
  let edx := if as_i32 eax <? 0 then 0xFFFFFFFF else 0 in
  Z.lxor eax edx -ₘ edx.

Definition tcp_xmit_timer (m : list Z) (rtt socket : Z) : run (list Z) :=
  t_rtt ← ld32 m (socket + TCP_OFF_T_RTT);
  if t_rtt =? 0 then
    m ← st32 m (socket + TCP_OFF_T_SRTT) (rtt <<ₘ TCP_RTT_SHIFT);
    st32 m (socket + TCP_OFF_T_RTTVAR) (rtt <<ₘ (TCP_RTTVAR_SHIFT - 1))
  else
    srtt ← ld32 m (socket + TCP_OFF_T_SRTT);
    let eax := rtt in
    let eax := eax -ₘ Z.shiftr srtt TCP_RTT_SHIFT in
    let eax := eax -ₘ 1 in
    let new_srtt := add_ja_clamp srtt eax in
    m ← st32 m (socket + TCP_OFF_T_SRTT) new_srtt;
    let eax := abs_cdq eax in
    rttvar ← ld32 m (socket + TCP_OFF_T_RTTVAR);
    let eax := eax -ₘ Z.shiftr rttvar TCP_RTTVAR_SHIFT in
    let new_rttvar := add_ja_clamp rttvar eax in
    st32 m (socket + TCP_OFF_T_RTTVAR) new_rttvar.

Definition tcp_set_persist (m : list Z) (socket : Z) : run (list Z) :=
  flags ← ld32 m (socket + TCP_OFF_TIMER_FLAGS);
  if negb (Z.land flags TIMER_FLAG_RETRANSMISSION =? 0) then Done m
  else
    srtt ← ld32 m (socket + TCP_OFF_T_SRTT);
    rttvar ← ld32 m (socket + TCP_OFF_T_RTTVAR);
    let ebx := Z.shiftr (Z.shiftr srtt 2 +ₘ rttvar) 1 in
    shift ← ld8 m (socket + TCP_OFF_T_RXTSHIFT);
    let ebx := ebx <<ₘ (shift mod 32) in
    let persist := tcpt_rangeset ebx TCP_TIME_PERS_MIN TCP_TIME_PERS_MAX in
    m ← st32 m (socket + TCP_OFF_TIMER_PERSIST) persist;
    m ← st32 m (socket + TCP_OFF_TIMER_FLAGS) (Z.lor flags TIMER_FLAG_PERSIST);
    rxtshift ← ld8 m (socket + TCP_OFF_T_RXTSHIFT);
    if rxtshift <? TCP_MAX_RXTSHIFT
    then st8 m (socket + TCP_OFF_T_RXTSHIFT) (u8 (rxtshift + 1))
    else Done m.

Definition tcp_outflags_table : list Z :=
  [ Z.lor TH_RST TH_ACK; 0; TH_SYN; Z.lor TH_SYN TH_ACK; TH_ACK; TH_ACK; Z.lor TH_FIN TH_ACK;
    Z.lor TH_FIN TH_ACK; Z.lor TH_FIN TH_ACK; TH_ACK; TH_ACK ].

Definition tcp_outflags (m : list Z) (socket : Z) : run Z :=
  state ← ld32 m (socket + TCP_OFF_T_STATE);
  if TCPS_TIME_WAIT <? state then Done 0 else ld8 tcp_outflags_table state.

(** ** Specification *)

(** A socket whose fields lie in memory. *)
Definition socket_ok (m : list Z) (socket : Z) : Prop := bytes m /\ 0 <= socket /\ socket + 266 <= mlen m.

Definition t_rtt m s := word_at m (s + TCP_OFF_T_RTT).
Definition t_srtt m s := word_at m (s + TCP_OFF_T_SRTT).
Definition t_rttvar m s := word_at m (s + TCP_OFF_T_RTTVAR).
Definition timer_flags m s := word_at m (s + TCP_OFF_TIMER_FLAGS).
Definition timer_persist m s := word_at m (s + TCP_OFF_TIMER_PERSIST).
Definition t_rxtshift m s := byte_at m (s + TCP_OFF_T_RXTSHIFT).

(** Only the listed fields (address and size) may have changed. *)
Definition frame (fields : list (Z * Z)) (m m' : list Z) : Prop :=
  mlen m' = mlen m /\
  forall a, (forall f, f ∈ fields -> disjoint a 1 f.1 f.2) -> byte_at m' a = byte_at m a.

Ltac offsets := unfold t_rtt, t_srtt, t_rttvar, timer_flags, timer_persist, t_rxtshift, TCP_OFF_T_STATE,
  TCP_OFF_T_RXTSHIFT, TCP_OFF_T_RTT, TCP_OFF_T_SRTT, TCP_OFF_T_RTTVAR, TCP_OFF_TIMER_FLAGS,
  TCP_OFF_TIMER_PERSIST in *.

(** What one [add] / [ja] is on an estimator [old] and a signed correction [d]. *)
Definition clamp_step (old d : Z) : Z := if d <? 0 then 1 else Z.max 1 (old + d).

(** ** Lemmas *)

Lemma u32_neg d : - 2 ^ 32 <= d < 0 -> u32 d = d + 2 ^ 32.
Proof. intros. unfold wrap. rewrite <- (Z.mod_add d 1) by lia. rewrite Z.mod_small; lia. Qed.

Lemma add_ja_clamp_eq old d : 0 <= old < 2 ^ 31 -> - old <= d < 2 ^ 31 ->
  add_ja_clamp old (u32 d) = clamp_step old d.
Proof.
  intros Ho Hd. unfold add_ja_clamp, clamp_step. destruct (d <? 0) eqn:E.
  - rewrite u32_neg by lia. by replace (2 ^ 32 <=? old + (d + 2 ^ 32)) with true by lia.
  - rewrite (wrap_small 32 d), wrap_small by lia.
    replace (2 ^ 32 <=? old + d) with false by lia. destruct (old + d =? 0) eqn:E0; cbn [orb]; lia.
Qed.

(** Flipping every bit of a [w]-bit value. *)
Lemma lxor_ones w x : 0 <= w -> 0 <= x < 2 ^ w -> Z.lxor x (Z.ones w) = 2 ^ w - 1 - x.
Proof.
  intros Hw Hx. assert (Z.ldiff x (Z.ones w) = 0) as Hl.
  { rewrite Z.ldiff_ones_r, Z.shiftr_div_pow2, Z.div_small by lia. apply Z.shiftl_0_l. }
  replace (2 ^ w - 1 - x) with (Z.ones w - x) by (rewrite Z.ones_equiv; lia).
  rewrite Z.sub_nocarry_ldiff by done. apply Z.bits_inj'. intros i Hi.
  rewrite Z.lxor_spec, Z.ldiff_spec. assert (Z.testbit (Z.ldiff x (Z.ones w)) i = false) as Hb
    by (rewrite Hl; apply Z.testbit_0_l).
  rewrite Z.ldiff_spec in Hb. by destruct (Z.testbit x i), (Z.testbit (Z.ones w) i).
Qed.

Lemma abs_cdq_eq d : - 2 ^ 31 < d < 2 ^ 31 -> abs_cdq (u32 d) = Z.abs d.
Proof.
  intros Hd. unfold abs_cdq. rewrite as_signed_wrap by lia. destruct (d <? 0) eqn:E.
  - rewrite (u32_neg d) by lia. change 0xFFFFFFFF with (Z.ones 32). rewrite lxor_ones by lia.
    rewrite Z.ones_equiv. change (Z.pred (2 ^ 32)) with (2 ^ 32 - 1).
    rewrite u32_neg by lia. lia.
  - rewrite Z.lxor_0_r, (wrap_small 32 d), Z.sub_0_r, wrap_small by lia. lia.
Qed.

Lemma frame_refl fs m : frame fs m m.
Proof. by split. Qed.

(** One field update, as seen through [frame]. *)
Lemma frame_write32 fs m m' a v : frame fs m m' -> 0 <= a -> a + 4 <= mlen m -> (a, 4) ∈ fs ->
  frame fs m (write32 m' a v).
Proof.
  intros [Hl Hf] Ha Hfit Hin. split; [by rewrite mlen_write32|]. intros i Hi.
  rewrite byte_at_write32 by lia. specialize (Hi _ Hin) as Hd. unfold disjoint in Hd. cbn in Hd.
  replace ((a <=? i) && (i <? a + 4)) with false by lia. by apply Hf.
Qed.

Lemma frame_insert fs m m' a v : frame fs m m' -> 0 <= a < mlen m -> (a, 1) ∈ fs ->
  frame fs m (<[Z.to_nat a := v]> m').
Proof.
  intros [Hl Hf] Ha Hin. split; [by rewrite mlen_insert|]. intros i Hi.
  rewrite byte_at_insert by lia. specialize (Hi _ Hin) as Hd. unfold disjoint in Hd. cbn in Hd.
  replace (i =? a) with false by lia. by apply Hf.
Qed.

Lemma socket_write32 m s off v : socket_ok m s -> 0 <= off -> off + 4 <= 266 ->
  st32 m (s + off) v = Done (write32 m (s + off) v) /\ socket_ok (write32 m (s + off) v) s.
Proof.
  intros (Hm & Hs & Hfit) ? ?. split; [apply st32_ok; lia|].
  split_and!; [by apply bytes_write32|done|by rewrite mlen_write32].
Qed.

Lemma socket_ld32 m s off : socket_ok m s -> 0 <= off -> off + 4 <= 266 ->
  ld32 m (s + off) = Done (word_at m (s + off)).
Proof. intros (? & ? & ?) ? ?. apply ld32_ok; lia. Qed.

Lemma socket_word m s off : socket_ok m s -> 0 <= word_at m (s + off) < 2 ^ 32.
Proof. intros (? & _). by apply word_at_range. Qed.

Lemma word_at_write32_same m s off v : socket_ok m s -> 0 <= off -> off + 4 <= 266 ->
  0 <= v < 2 ^ 32 -> word_at (write32 m (s + off) v) (s + off) = v.
Proof. intros (? & ? & ?) ? ? ?. apply word_at_write32; lia. Qed.

Lemma word_at_write32_ne m s off off' v : socket_ok m s -> 0 <= off -> off + 4 <= 266 ->
  off' + 4 <= off \/ off + 4 <= off' -> word_at (write32 m (s + off) v) (s + off') = word_at m (s + off').
Proof. intros (? & ? & ?) ? ? ?. apply word_at_write32_other; lia. Qed.

Ltac sock := first [done | lia | eassumption].

Lemma add_ja_clamp_range a b : 0 <= add_ja_clamp a b < 2 ^ 32.
Proof. unfold add_ja_clamp. case_match; [lia|apply wrap_range; lia]. Qed.

(** Storing both estimators. *)
Lemma store_estimators m s v1 v2 : socket_ok m s -> 0 <= v1 < 2 ^ 32 -> 0 <= v2 < 2 ^ 32 ->
  exists m1 m', st32 m (s + 210) v1 = Done m1 /\ ld32 m1 (s + 214) = Done (word_at m (s + 214)) /\
    st32 m1 (s + 214) v2 = Done m' /\ frame [(s + 210, 4); (s + 214, 4)] m m' /\
    word_at m' (s + 210) = v1 /\ word_at m' (s + 214) = v2.
Proof.
  intros Hok ? ?. destruct (socket_write32 m s 210 v1 Hok) as [-> H1]; [lia..|].
  destruct (socket_write32 _ s 214 v2 H1) as [E2 _]; [lia..|]. pose proof Hok as (_ & ? & ?).
  eexists _, _. split; [done|]. rewrite E2, (socket_ld32 _ s 214 H1) by lia. split_and!; try done.
  - by rewrite word_at_write32_ne by sock.
  - do 2 (apply frame_write32; [|lia|lia|set_solver]). apply frame_refl.
  - by rewrite word_at_write32_ne, word_at_write32_same by sock.
  - by rewrite word_at_write32_same by sock.
Qed.

(** ** Theorems *)

(** [tcp_xmit_timer] touches only the two estimators.  The first sample sets
    [srtt] to [8 * rtt] and [rttvar] to [2 * rtt].  After that the correction is
    [d = rtt - srtt / 8 - 1] for [srtt] and [|d| - rttvar / 4] for [rttvar]; a
    correction that is not negative is added as in the smoothing rule, but a negative
    one does not lower the estimator by its amount: the carry test resets it to 1. *)
Theorem tcp_rtt_update m rtt s : socket_ok m s -> 0 <= rtt < 2 ^ 28 ->
  exists m', tcp_xmit_timer m rtt s = Done m' /\
    frame [(s + TCP_OFF_T_SRTT, 4); (s + TCP_OFF_T_RTTVAR, 4)] m m' /\
    (t_rtt m s = 0 -> t_srtt m' s = 8 * rtt /\ t_rttvar m' s = 2 * rtt) /\
    (t_rtt m s <> 0 -> 0 < t_srtt m s < 2 ^ 31 -> t_rttvar m s < 2 ^ 30 ->
       let d := rtt - t_srtt m s / 8 - 1 in
       t_srtt m' s = clamp_step (t_srtt m s) d /\
       t_rttvar m' s = clamp_step (t_rttvar m s) (Z.abs d - t_rttvar m s / 4)).
Proof.
  intros Hok Hr. unfold tcp_xmit_timer. offsets.
  rewrite (socket_ld32 m s 202) by sock. run_step. destruct (word_at m (s + 202) =? 0) eqn:E.
  - rewrite !shl_fold by (unfold TCP_RTT_SHIFT, TCP_RTTVAR_SHIFT; lia).
    destruct (store_estimators m s (rtt * 2 ^ TCP_RTT_SHIFT) (rtt * 2 ^ (TCP_RTTVAR_SHIFT - 1)) Hok)
      as (m1 & m' & -> & _ & E2 & Hf & Hsr & Hrv); [unfold TCP_RTT_SHIFT, TCP_RTTVAR_SHIFT; lia..|].
    exists m'. rewrite Hsr, Hrv. unfold TCP_RTT_SHIFT, TCP_RTTVAR_SHIFT.
    split_and!; [exact E2|done|intros; lia|intros; lia].
  - rewrite (socket_ld32 m s 210) by sock. run_step.
    set (sr := word_at m (s + 210)). set (rv := word_at m (s + 214)).
    set (eax := rtt -ₘ Z.shiftr sr TCP_RTT_SHIFT -ₘ 1).
    destruct (store_estimators m s (add_ja_clamp sr eax)
      (add_ja_clamp rv (abs_cdq eax -ₘ Z.shiftr rv TCP_RTTVAR_SHIFT)) Hok)
      as (m1 & m' & -> & El & E2 & Hf & Hsr' & Hrv'); [apply add_ja_clamp_range..|].
    run_step. rewrite El. run_step. exists m'. split_and!; [exact E2|done|lia|].
    intros _ Hsr Hrv. cbn zeta. rewrite Hsr', Hrv'.
    pose proof (socket_word m s 214 Hok) as Hrv0. fold rv in Hrv0.
    unfold eax, TCP_RTT_SHIFT, TCP_RTTVAR_SHIFT. rewrite !shr_eq by lia.
    change (2 ^ 3) with 8. change (2 ^ 2) with 4. set (d := rtt - sr / 8 - 1).
    assert (rtt -ₘ sr / 8 -ₘ 1 = u32 d) as -> by (unwrap; done).
    rewrite abs_cdq_eq by (unfold d; Z.div_mod_to_equations; lia).
    rewrite !add_ja_clamp_eq by (unfold d; Z.div_mod_to_equations; lia). done.
Qed.

(** A 300-byte memory whose socket at 10 has the given fields. *)
Definition sock_mem (rtt srtt rttvar flags shift : Z) : list Z :=
  <[128%nat := shift]> (write32 (write32 (write32 (write32 (replicate 300 0) 212 rtt) 220 srtt) 224 rttvar)
    264 flags).

(** A sample at the estimate: [srtt] falls from 800 to 1, not to 799. *)
Lemma tcp_rtt_update_witness :
  exists m', tcp_xmit_timer (sock_mem 1 800 40 0 0) 100 10 = Done m' /\ t_srtt m' 10 = 1 /\ t_rttvar m' 10 = 1.
Proof.
  destruct (tcp_rtt_update (sock_mem 1 800 40 0 0) 100 10) as (m' & E & _ & _ & H).
  - split_and!; [by apply bytes_check|lia|by vm_compute].
  - lia.
  - destruct H as [H1 H2]; [by vm_compute..|]. exists m'. split; [exact E|]. rewrite H1, H2. by split.
Defined.

(** The persist interval after [shift] doublings of half the retransmission estimate. *)
Definition persist_value (srtt rttvar shift : Z) : Z :=
  Z.max 8 (Z.min 94 ((srtt / 4 + rttvar) mod 2 ^ 32 / 2 * 2 ^ shift mod 2 ^ 32)).

Definition persist_fields (s : Z) : list (Z * Z) :=
  [(s + TCP_OFF_TIMER_PERSIST, 4); (s + TCP_OFF_TIMER_FLAGS, 4); (s + TCP_OFF_T_RXTSHIFT, 1)].

Lemma tcpt_rangeset_eq v a b : a <= b -> tcpt_rangeset v a b = Z.max a (Z.min b v).
Proof. intros. unfold tcpt_rangeset. repeat case_match; lia. Qed.

Lemma frame_trans fs m1 m2 m3 : frame fs m1 m2 -> frame fs m2 m3 -> frame fs m1 m3.
Proof. intros [Hl1 H1] [Hl2 H2]. split; [congruence|]. intros a Ha. by rewrite H2, H1. Qed.

Lemma frame_word fs m m' a : frame fs m m' -> (forall f, f ∈ fs -> disjoint a 4 f.1 f.2) ->
  word_at m' a = word_at m a.
Proof.
  intros [_ Hf] Ha. unfold word_at.
  rewrite !Hf; [done|..]; intros f Hin; specialize (Ha f Hin); unfold disjoint in *; lia.
Qed.

Lemma frame_socket s fs m m' : socket_ok m s -> frame fs m m' -> bytes m' -> socket_ok m' s.
Proof. intros (_ & ? & ?) [Hl _] ?. split_and!; [done|done|by rewrite Hl]. Qed.

(** Counting the doubling up, at most to 12. *)
Lemma bump_shift m s : socket_ok m s -> t_rxtshift m s <= 12 ->
  exists m', (rxtshift ← ld8 m (s + TCP_OFF_T_RXTSHIFT);
              if rxtshift <? TCP_MAX_RXTSHIFT
              then st8 m (s + TCP_OFF_T_RXTSHIFT) (u8 (rxtshift + 1)) else Done m) = Done m' /\
    socket_ok m' s /\ frame [(s + TCP_OFF_T_RXTSHIFT, 1)] m m' /\ t_rxtshift m' s = Z.min 12 (t_rxtshift m s + 1).
Proof.
  intros Hok Hsh. pose proof Hok as (Hm & Hs & Hfit). offsets. unfold TCP_MAX_RXTSHIFT.
  rewrite ld8_ok by lia. run_step. pose proof (byte_at_range m (s + 118) Hm) as Hb. unfold is_byte in Hb.
  destruct (byte_at m (s + 118) <? 12) eqn:E.
  - rewrite st8_ok by lia. eexists. split; [done|]. rewrite (wrap_small 8) by lia.
    split; [split_and!; [apply bytes_insert; [done|unfold is_byte; lia]|done|by rewrite mlen_insert]|].
    split; [apply frame_insert; [apply frame_refl|lia|set_solver]|].
    rewrite byte_at_insert, Z.eqb_refl by lia. lia.
  - exists m. split_and!; try done; try apply frame_refl; lia.
Qed.

(** Storing interval and flags. *)
Lemma store_persist m s v fl : socket_ok m s -> 0 <= v < 2 ^ 32 -> 0 <= fl < 2 ^ 32 ->
  exists m1 m2, st32 m (s + 262) v = Done m1 /\ st32 m1 (s + 254) fl = Done m2 /\ socket_ok m2 s /\
    frame [(s + 262, 4); (s + 254, 4)] m m2 /\ word_at m2 (s + 262) = v /\ word_at m2 (s + 254) = fl /\
    byte_at m2 (s + 118) = byte_at m (s + 118).
Proof.
  intros Hok Hv Hfl. pose proof Hok as (_ & ? & ?).
  destruct (socket_write32 m s 262 v Hok) as [E1 H1]; [lia..|].
  destruct (socket_write32 _ s 254 fl H1) as [E2 H2]; [lia..|]. eexists _, _.
  split; [done|]. split; [done|]. split; [done|]. split; [|split; [|split]].
  - do 2 (apply frame_write32; [|lia|lia|set_solver]). apply frame_refl.
  - by rewrite word_at_write32_ne, word_at_write32_same by sock.
  - by rewrite word_at_write32_same by sock.
  - rewrite !byte_at_write32 by (rewrite ?mlen_write32; lia).
    repeat match goal with |- context [if ?c then _ else _] => replace c with false by lia end. done.
Qed.

Lemma frame_weaken fs fs' m m' : (forall f, f ∈ fs -> f ∈ fs') -> frame fs m m' -> frame fs' m m'.
Proof. intros Hin [? H]. split; [done|]. intros a Ha. apply H. auto. Qed.

(** One call of [tcp_set_persist] with no retransmission pending. *)
Lemma tcp_set_persist_step m s : socket_ok m s -> Z.land (timer_flags m s) 1 = 0 -> t_rxtshift m s <= 12 ->
  exists m', tcp_set_persist m s = Done m' /\ frame (persist_fields s) m m' /\ socket_ok m' s /\
    timer_persist m' s = persist_value (t_srtt m s) (t_rttvar m s) (t_rxtshift m s) /\
    timer_flags m' s = Z.lor (timer_flags m s) 8 /\ t_rxtshift m' s = Z.min 12 (t_rxtshift m s + 1).
Proof.
  intros Hok Hfl Hsh. unfold tcp_set_persist, persist_fields. pose proof (bump_shift) as Hbump. offsets.
  pose proof Hok as (Hm & Hs & Hfit). rewrite (socket_ld32 m s 254) by sock. run_step.
  unfold TIMER_FLAG_RETRANSMISSION. rewrite Hfl. cbn [Z.eqb negb].
  rewrite (socket_ld32 m s 210), (socket_ld32 m s 214), ld8_ok by sock. run_step.
  rewrite tcpt_rangeset_eq by (unfold TCP_TIME_PERS_MIN, TCP_TIME_PERS_MAX; lia).
  set (v := Z.max _ _). set (fl := Z.lor _ _). set (sh := byte_at m (s + 118)) in *.
  pose proof (byte_at_range m (s + 118) Hm) as Hb. fold sh in Hb. unfold is_byte in Hb.
  assert (0 <= fl < 2 ^ 32) as Hflr by (apply lor_range; [lia|by apply socket_word|unfold TIMER_FLAG_PERSIST; lia]).
  assert (0 <= v < 2 ^ 32) as Hvr by (unfold v, TCP_TIME_PERS_MIN, TCP_TIME_PERS_MAX; lia).
  assert (v = persist_value (word_at m (s + 210)) (word_at m (s + 214)) sh) as Ev.
  { unfold v, persist_value, TCP_TIME_PERS_MIN, TCP_TIME_PERS_MAX. rewrite (Z.mod_small sh 32) by lia.
    rewrite shl32_eq, !shr_eq by lia. done. }
  destruct (store_persist m s v fl Hok Hvr Hflr) as (m1 & m2 & -> & E2 & H2 & Hf2 & Hv & Hfl2 & Hs2).
  run_step. rewrite E2. run_step.
  destruct (Hbump m2 s H2) as (m3 & -> & H3 & Hf3 & Hs3); [by rewrite Hs2|]. exists m3.
  assert (forall off, 0 <= off -> 122 <= off -> word_at m3 (s + off) = word_at m2 (s + off)) as Hw.
  { intros off ? ?. eapply frame_word; [exact Hf3|]. intros f ->%list_elem_of_singleton. right. cbn. lia. }
  split; [done|]. split; [|split; [done|split; [rewrite Hw by lia; congruence|split; [rewrite Hw by lia; done|by rewrite Hs3, Hs2]]]].
  eapply frame_trans; eapply frame_weaken; [|exact Hf2| |exact Hf3]; set_solver.
Qed.

(** [n] expiries of the persist timer, each re-arming it. *)
Fixpoint persist_arms (n : nat) (m : list Z) (s : Z) : run (list Z) :=
  match n with
  | O => Done m
  | S k => m ← persist_arms k m s; tcp_set_persist m s
  end.

(** With a retransmission pending [tcp_set_persist] changes nothing.  Otherwise
    [n] armings of a fresh socket run an exponential backoff: the interval set by the
    [k]-th (from 0) is half the retransmission estimate doubled [min k 12] times and
    clamped to 8..94, the persist flag is set and no other flag changes, the doubling
    count stops at 12, and nothing outside those fields is written. *)
Theorem tcp_persist_backoff m s n : socket_ok m s ->
  (Z.land (timer_flags m s) 1 <> 0 -> tcp_set_persist m s = Done m) /\
  (Z.land (timer_flags m s) 1 = 0 -> t_rxtshift m s = 0 ->
   exists m', persist_arms (S n) m s = Done m' /\ frame (persist_fields s) m m' /\
     timer_persist m' s = persist_value (t_srtt m s) (t_rttvar m s) (Z.min 12 (Z.of_nat n)) /\
     timer_flags m' s = Z.lor (timer_flags m s) 8 /\ t_rxtshift m' s = Z.min 12 (Z.of_nat (S n))).
Proof.
  intros Hok. split.
  - intros H. unfold tcp_set_persist. offsets. rewrite (socket_ld32 m s 254) by sock. run_step.
    unfold TIMER_FLAG_RETRANSMISSION. by destruct (Z.land _ 1 =? 0) eqn:E; [lia|].
  - intros Hfl Hsh.
    enough (exists m', persist_arms (S n) m s = Done m' /\ frame (persist_fields s) m m' /\ socket_ok m' s /\
      timer_persist m' s = persist_value (t_srtt m s) (t_rttvar m s) (Z.min 12 (Z.of_nat n)) /\
      timer_flags m' s = Z.lor (timer_flags m s) 8 /\ t_rxtshift m' s = Z.min 12 (Z.of_nat (S n)))
      by naive_solver.
    induction n as [|n (m1 & E1 & Hf1 & H1 & _ & Hfl1 & Hsh1)].
    + destruct (tcp_set_persist_step m s Hok Hfl) as (m' & E & ? & ? & Hp & ? & Hs); [lia|].
      exists m'. rewrite Hp, Hs, Hsh. split_and!; done || lia.
    + cbn [persist_arms] in *. rewrite E1. run_step.
      destruct (tcp_set_persist_step m1 s H1) as (m' & E & Hf & H' & Hp & Hfl' & Hs).
      * rewrite Hfl1, Z.land_lor_distr_l, Hfl. done.
      * lia.
      * assert (forall off, off = 210 \/ off = 214 -> word_at m1 (s + off) = word_at m (s + off)) as Hw.
        { intros off Ho. eapply frame_word; [exact Hf1|]. unfold persist_fields. offsets.
          intros f Hin. unfold disjoint. set_unfold.
          destruct_or! Hin; try done; subst f; cbn; lia. }
        exists m'. split; [done|]. split; [by eapply frame_trans|]. split; [done|].
        rewrite Hp, Hfl', Hs, Hfl1, Hsh1. offsets. rewrite !Hw by auto.
        split_and!; [f_equal; lia|by rewrite <- Z.lor_assoc|lia].
Qed.

(** Three armings of a socket whose estimate is 12: 12, 24 and 48. *)
Lemma tcp_persist_backoff_witness :
  exists m', persist_arms 3 (sock_mem 1 80 4 4 0) 10 = Done m' /\ timer_persist m' 10 = 48 /\
    timer_flags m' 10 = 12 /\ t_rxtshift m' 10 = 3.
Proof.
  destruct (tcp_persist_backoff (sock_mem 1 80 4 4 0) 10 2) as [_ H].
  - split_and!; [by apply bytes_check|lia|by vm_compute].
  - destruct H as (m' & E & _ & H1 & H2 & H3); [vm_compute; reflexivity..|].
    exists m'. split; [exact E|]. rewrite H1, H2, H3. split_and!; vm_compute; reflexivity.
Defined.

(** The flags of every state, by meaning: FIN once closing has begun, SYN in the two
    handshake states, RST when closed, ACK except in LISTEN and SYN_SENT. *)
Lemma tcp_outflags_spec m s : socket_ok m s ->
  let state := word_at m (s + TCP_OFF_T_STATE) in
  exists f, tcp_outflags m s = Done f /\
    (state <= 10 -> f = (if (6 <=? state) && (state <=? 8) then TH_FIN else 0)
       + (if (state =? 2) || (state =? 3) then TH_SYN else 0) + (if state =? 0 then TH_RST else 0)
       + (if (state =? 1) || (state =? 2) then 0 else TH_ACK)) /\
    (10 < state -> f = 0).
Proof.
  intros Hok. cbn zeta. unfold tcp_outflags. offsets. pose proof (socket_word m s 114 Hok) as Hr.
  rewrite (socket_ld32 m s 114) by sock. run_step. set (st := word_at m (s + 114)) in *.
  unfold TCPS_TIME_WAIT. destruct (10 <? st) eqn:E; [exists 0; split_and!; [done|lia|done]|].
  assert (st = 0 \/ st = 1 \/ st = 2 \/ st = 3 \/ st = 4 \/ st = 5 \/ st = 6 \/ st = 7 \/ st = 8 \/ st = 9 \/ st = 10)
    as Hst by lia.
  repeat destruct Hst as [->|Hst]; [..|rewrite Hst]; eexists; split_and!; done.
Qed.
