(* ===== verification/Net.v ===== *)
(** * Routing and table lookups of the network stack

    [ipv4_route.rs], [net_ptr_to_num4.rs], [ipv4_find_fragment_slot.rs] and
    [socket_check.rs]: scans over device-indexed dword tables, the fragment table and
    the socket list, all in one flat memory addressed from 0. *)

From stdpp Require Import base list sets.
From Stdlib Require Import ZArith Lia.
From S2P Require Import Prelude.

(** ** Definitions *)

(** *** [ipv4_route] *)

Definition NET_DEVICES_MAX : Z := 16.
Definition TABLE_BYTES : Z := 4 * NET_DEVICES_MAX.
Definition OFF_LINK_STATE : Z := 24.
Definition IPV4_BROADCAST : Z := 0xffffffff.

Record Ipv4RouteResult := mkRoute { dest_ip : Z; source_ip : Z; device_idx4 : Z }.

Definition read_u32 (m : list Z) (base idx4 : Z) : run Z := ld32 m (base + idx4).

Definition device_link_state (m : list Z) (net_device_list idx4 : Z) : run (option (Z * Z)) :=
  dev ← read_u32 m net_device_list idx4;
  if dev =? 0 then Done None
  else link ← ld32 m (dev + OFF_LINK_STATE); Done (Some (dev, link)).

Definition find_device_body (m : list Z) (device_ptr net_device_list : Z) (s : nat * Z) : run (nat * Z + option Z) :=
  let '(n, edi) := s in
  match n with
  | O => Done (inr None)
  | S n =>
      d ← read_u32 m net_device_list edi;
      if d =? device_ptr then Done (inr (Some edi)) else Done (inl (n, edi +ₘ 4))
  end.

Definition find_device_idx4 (m : list Z) (device_ptr net_device_list : Z) : run (option Z) :=
  if device_ptr =? 0 then Done None
  else loop 17 (find_device_body m device_ptr net_device_list) (Z.to_nat NET_DEVICES_MAX, 0).

(** A [while edi < TABLE_BYTES] scan that returns at the first hit. *)
Definition table_scan (probe : Z -> run bool) (from : Z) : run (option Z) :=
  loop 17 (fun edi =>
    if edi <? TABLE_BYTES then
      hit ← probe edi;
      if hit : bool then Done (inr (Some edi)) else Done (inl (edi +ₘ 4))
    else Done (inr None)) from.

Definition got_it (m : list Z) (dest_ip source_ip edi ipv4_address : Z) : run Ipv4RouteResult :=
  if source_ip =? 0 then
    source_ip ← read_u32 m ipv4_address edi; Done (mkRoute dest_ip source_ip edi)
  else Done (mkRoute dest_ip source_ip edi).

(** The loop tests of the two broadcast scans, the on-link scan and the gateway scan. *)
Definition up_free_probe (m : list Z) (ipv4_address : Z) (link_at : Z -> run (option Z)) (edi : Z) : run bool :=
  l ← link_at edi;
  match l with
  | Some link => if link =? 0 then Done false else a ← read_u32 m ipv4_address edi; Done (a =? 0)
  | None => Done false
  end.
Definition up_probe (link_at : Z -> run (option Z)) (edi : Z) : run bool :=
  l ← link_at edi;
  match l with Some link => Done (negb (link =? 0)) | None => Done false end.
Definition on_link_probe (m : list Z) (dest_ip ipv4_address ipv4_subnet edi : Z) : run bool :=
  addr ← read_u32 m ipv4_address edi;
  subnet ← read_u32 m ipv4_subnet edi;
  let masked_local := Z.land addr subnet in
  if negb (masked_local =? 0)
  then let masked_dest := Z.land dest_ip subnet in Done (masked_local =? masked_dest)
  else Done false.
Definition gateway_probe (m : list Z) (ipv4_gateway edi : Z) : run bool :=
  g ← read_u32 m ipv4_gateway edi; Done (negb (g =? 0)).

Definition ipv4_route_broadcast (m : list Z) (dest_ip source_ip ipv4_address : Z)
    (link_at : Z -> run (option Z)) : run Ipv4RouteResult :=
  r ← table_scan (up_free_probe m ipv4_address link_at) 4;
  match r with
  | Some edi => got_it m dest_ip source_ip edi ipv4_address
  | None =>
      r ← table_scan (up_probe link_at) 4;
      match r with
      | Some edi => got_it m dest_ip source_ip edi ipv4_address
      | None => got_it m dest_ip source_ip 0 ipv4_address
      end
  end.

Definition ipv4_route_got_device (m : list Z)
    (dest_ip device_ptr source_ip_in ipv4_address ipv4_subnet ipv4_gateway net_device_list : Z) :
    run Ipv4RouteResult :=
  d ← find_device_idx4 m device_ptr net_device_list;
  match d with
  | None => Done (mkRoute 0 source_ip_in 0xffffffff)
  | Some edi =>
      source_ip ← read_u32 m ipv4_address edi;
      if negb (dest_ip =? IPV4_BROADCAST) then
        a ← read_u32 m ipv4_address edi;
        s ← read_u32 m ipv4_subnet edi;
        let local := Z.land a s in
        s' ← read_u32 m ipv4_subnet edi;
        let remote := Z.land dest_ip s' in
        if negb (remote =? local) then
          dest_ip ← read_u32 m ipv4_gateway edi; Done (mkRoute dest_ip source_ip edi)
        else Done (mkRoute dest_ip source_ip edi)
      else Done (mkRoute dest_ip source_ip edi)
  end.

Definition ipv4_route_inner (m : list Z)
    (dest_ip device_ptr source_ip ipv4_address ipv4_subnet ipv4_gateway net_device_list : Z)
    (link_at : Z -> run (option Z)) : run Ipv4RouteResult :=
  if negb (device_ptr =? 0) then
    ipv4_route_got_device m dest_ip device_ptr source_ip ipv4_address ipv4_subnet ipv4_gateway net_device_list
  else if dest_ip =? IPV4_BROADCAST then
    ipv4_route_broadcast m dest_ip source_ip ipv4_address link_at
  else
    r ← table_scan (on_link_probe m dest_ip ipv4_address ipv4_subnet) 0;
    match r with
    | Some edi => got_it m dest_ip source_ip edi ipv4_address
    | None =>
        r ← table_scan (gateway_probe m ipv4_gateway) 4;
        match r with
        | Some edi =>
            dest_ip ← read_u32 m ipv4_gateway edi;
            got_it m dest_ip source_ip edi ipv4_address
        | None => got_it m dest_ip source_ip 0 ipv4_address
        end
    end.

Definition ipv4_route (m : list Z)
    (dest_ip device_ptr source_ip ipv4_address ipv4_subnet ipv4_gateway net_device_list : Z) :
    run Ipv4RouteResult :=
  ipv4_route_inner m dest_ip device_ptr source_ip ipv4_address ipv4_subnet ipv4_gateway net_device_list
    (fun idx4 =>
       r ← device_link_state m net_device_list idx4;
       Done (match r with Some (_, link) => Some link | None => None end)).

(** *** [net_ptr_to_num4] *)

Definition NET_PTR_TO_NUM4_MISS : Z := 0xFFFFFFFF.

Definition net_ptr_body (m : list Z) (device list_base max i : Z) : run (Z + Z) :=
  if i <? max then
    slot ← ld32 m (list_base + i * 4);
    if slot =? device then Done (inr (i *ₘ 4)) else Done (inl (i +ₘ 1))
  else Done (inr NET_PTR_TO_NUM4_MISS).

Definition net_ptr_to_num4 (m : list Z) (device list_base max : Z) : run Z :=
  if device =? 0 then Done NET_PTR_TO_NUM4_MISS
  else loop (S (Z.to_nat max)) (net_ptr_body m device list_base max) 0.

(** *** [ipv4_find_fragment_slot] *)

Definition FRAGMENT_SLOT_SIZE : Z := 16.
Definition IPV4_MAX_FRAGMENTS : Z := 64.
Definition OFF_SLOT_ID : Z := 2.
Definition OFF_SLOT_SRC_IP : Z := 4.
Definition OFF_SLOT_DST_IP : Z := 8.
Definition OFF_HDR_IDENTIFICATION : Z := 4.
Definition OFF_HDR_SRC_IP : Z := 12.
Definition OFF_HDR_DST_IP : Z := 16.

Definition fragment_body (id src_ip dst_ip count : Z) (load_slot : Z -> run (Z * Z * Z))
    (slot_addr : Z -> Z) (i : Z) : run (Z + Z) :=
  if i <? count then
    '(slot_id, slot_src, slot_dst) ← load_slot i;
    if (slot_id =? id) && (slot_src =? src_ip) && (slot_dst =? dst_ip)
    then Done (inr (slot_addr i)) else Done (inl (i +ₘ 1))
  else Done (inr 0xFFFFFFFF).

Definition ipv4_find_fragment_slot_from_keys (id src_ip dst_ip count : Z)
    (load_slot : Z -> run (Z * Z * Z)) (slot_addr : Z -> Z) : run Z :=
  loop (S (Z.to_nat count)) (fragment_body id src_ip dst_ip count load_slot slot_addr) 0.

Definition ipv4_find_fragment_slot (m : list Z) (packet fragments count : Z) : run Z :=
  id ← ld16 m (packet + OFF_HDR_IDENTIFICATION);
  src_ip ← ld32 m (packet + OFF_HDR_SRC_IP);
  dst_ip ← ld32 m (packet + OFF_HDR_DST_IP);
  let base := fragments in
  ipv4_find_fragment_slot_from_keys id src_ip dst_ip count
    (fun i =>
       let slot := fragments + i * FRAGMENT_SLOT_SIZE in
       a ← ld16 m (slot + OFF_SLOT_ID);
       b ← ld32 m (slot + OFF_SLOT_SRC_IP);
       c ← ld32 m (slot + OFF_SLOT_DST_IP); Done (a, b, c))
    (fun i => base +ₘ (i *ₘ FRAGMENT_SLOT_SIZE)).

(** *** [socket_check] *)

Definition OFF_NEXT_PTR : Z := 0.

Definition socket_body (candidate : Z) (load_next : Z -> run Z) (node : Z) : run (Z + Z) :=
  if node =? 0 then Done (inr node)
  else if node =? candidate then Done (inr node)
  else next ← load_next node; Done (inl next).

(** The walk has no bound of its own: [fuel] counts the nodes visited. *)
Definition socket_check_from_first (fuel : nat) (candidate node : Z) (load_next : Z -> run Z) : run Z :=
  if candidate =? 0 then Done 0 else loop fuel (socket_body candidate load_next) node.

Definition socket_check (fuel : nat) (m : list Z) (candidate net_sockets : Z) : run Z :=
  first ← ld32 m (net_sockets + OFF_NEXT_PTR);
  socket_check_from_first fuel candidate first (fun addr => ld32 m (addr + OFF_NEXT_PTR)).

(** ** Specification *)

(** Entry [i] of a dword table. *)
Definition entry (m : list Z) (base : Z) (i : nat) : Z := word_at m (base + 4 * Z.of_nat i).

Definition table_ok (m : list Z) (base : Z) : Prop := 0 <= base /\ base + 64 <= mlen m.

(** [i] is the first device from [a] on with property [P]; no device has it. *)
Definition first_dev (P : nat -> Prop) (a i : nat) : Prop :=
  (a <= i < 16)%nat /\ P i /\ forall j, (a <= j < i)%nat -> ~ P j.
Definition no_dev (P : nat -> Prop) (a : nat) : Prop := forall j, (a <= j < 16)%nat -> ~ P j.

(** What a scan found, as a proposition. *)
Definition found (P : nat -> Prop) (a : nat) (r : option nat) : Prop :=
  match r with Some i => first_dev P a i | None => no_dev P a end.

(** ** Lemmas *)

Lemma first_from_found P (Q : nat -> Prop) a : (forall i, P i = true <-> Q i) -> found Q a (first_from P a 16).
Proof.
  intros HPQ. pose proof (first_from_spec P a 16) as H. unfold found, first_dev, no_dev.
  destruct (first_from P a 16).
  - destruct H as (? & ? & H). split_and!; [lia..|by apply HPQ|]. intros j Hj Hq%HPQ. rewrite H in Hq; done.
  - intros j Hj Hq%HPQ. rewrite H in Hq; done.
Qed.

Lemma read_entry m base i : table_ok m base -> (i < 16)%nat ->
  read_u32 m base (4 * Z.of_nat i) = Done (entry m base i).
Proof. intros [? ?] ?. apply ld32_ok; lia. Qed.

Lemma table_scan_ok (probe : Z -> run bool) (P : nat -> bool) (Q : nat -> Prop) a :
  (forall i, (a <= i < 16)%nat -> probe (4 * Z.of_nat i) = Done (P i)) ->
  (forall i, P i = true <-> Q i) -> (a <= 16)%nat ->
  exists r, table_scan probe (4 * Z.of_nat a) = Done ((fun i => 4 * Z.of_nat i) <$> r) /\ found Q a r.
Proof.
  intros Hp HPQ Ha. exists (first_from P a 16). split; [|by apply first_from_found].
  unfold table_scan. rewrite (scan_loop _ (fun k => 4 * Z.of_nat k) 16 a 17 P
    (fun k => Some (4 * Z.of_nat k)) None); [by destruct (first_from P a 16)| | |done|lia].
  - intros i Hi. unfold TABLE_BYTES, NET_DEVICES_MAX. replace (_ <? _) with true by lia.
    rewrite Hp by lia. run_step. destruct (P i); [done|]. do 2 f_equal. rewrite wrap_small by lia. lia.
  - done.
Qed.

Lemma find_device_ok m device list : table_ok m list -> device <> 0 ->
  find_device_idx4 m device list = Done (match first_from (fun i => entry m list i =? device) 0 16 with
    | Some i => Some (4 * Z.of_nat i) | None => None end).
Proof.
  intros Ht Hd. unfold find_device_idx4. replace (device =? 0) with false by lia.
  apply (scan_loop _ (fun i => ((16 - i)%nat, 4 * Z.of_nat i)) 16 0 17 _ (fun i => Some (4 * Z.of_nat i)));
    [|done|lia|lia].
  intros i Hi. unfold find_device_body. replace (16 - i)%nat with (S (16 - S i)) by lia.
  rewrite read_entry by (done || lia). run_step. destruct (_ =? _); [done|].
  rewrite wrap_small by lia. do 4 f_equal. lia.
Qed.

Lemma net_ptr_ok m device list max : 0 <= list -> 0 <= max <= 2 ^ 30 -> list + 4 * max <= mlen m ->
  device <> 0 ->
  net_ptr_to_num4 m device list max =
    Done (match first_from (fun i => entry m list i =? device) 0 (Z.to_nat max) with
      | Some i => 4 * Z.of_nat i | None => NET_PTR_TO_NUM4_MISS end).
Proof.
  intros Hl Hmax Hfit Hd. unfold net_ptr_to_num4. replace (device =? 0) with false by lia.
  pose proof (first_from_spec (fun i => entry m list i =? device) 0 (Z.to_nat max)) as Hf.
  rewrite (scan_loop _ Z.of_nat (Z.to_nat max) 0 _ (fun i => entry m list i =? device)
    (fun i => 4 *ₘ Z.of_nat i) NET_PTR_TO_NUM4_MISS); [| | |lia|lia].
  - destruct (first_from _ _ _); [|done]. by rewrite wrap_small by lia.
  - intros i Hi. unfold net_ptr_body. replace (Z.of_nat i <? max) with true by lia.
    rewrite ld32_ok by lia. run_step. unfold entry. rewrite (Z.mul_comm (Z.of_nat i)).
    destruct (_ =? _); [done|]. do 2 f_equal. rewrite wrap_small by lia. lia.
  - unfold net_ptr_body. by rewrite Z2Nat.id, Z.ltb_irrefl by lia.
Qed.

Lemma got_it_ok m dest src i base : table_ok m base -> (i < 16)%nat ->
  got_it m dest src (4 * Z.of_nat i) base =
  Done (mkRoute dest (if src =? 0 then entry m base i else src) (4 * Z.of_nat i)).
Proof. intros. unfold got_it. case_match; [|done]. by rewrite read_entry. Qed.

(** ** Routing *)

Section Route.
Context (m : list Z) (A S G L : Z).
Hypothesis HA : table_ok m A.
Hypothesis HS : table_ok m S.
Hypothesis HG : table_ok m G.
Hypothesis HL : table_ok m L.

(** Device [i] and the destination share a configured subnet. *)
Definition on_link (dest : Z) (i : nat) : Prop :=
  Z.land (entry m A i) (entry m S i) <> 0 /\ Z.land (entry m A i) (entry m S i) = Z.land dest (entry m S i).
Definition has_gateway (i : nat) : Prop := entry m G i <> 0.
(** Device [i] is present and its link is up. *)
Definition link_up (i : nat) : Prop := entry m L i <> 0 /\ word_at m (entry m L i + OFF_LINK_STATE) <> 0.
Definition no_address (i : nat) : Prop := entry m A i = 0.

(** Leave through device [i] towards [dest], keeping a source that was given. *)
Definition via (dest src : Z) (i : nat) : Ipv4RouteResult :=
  mkRoute dest (if src =? 0 then entry m A i else src) (4 * Z.of_nat i).

Lemma on_link_scan dest :
  exists r, table_scan (on_link_probe m dest A S) 0 = Done ((fun i => 4 * Z.of_nat i) <$> r) /\ found (on_link dest) 0 r.
Proof.
  apply (table_scan_ok _ (fun i => negb (Z.land (entry m A i) (entry m S i) =? 0) &&
    (Z.land (entry m A i) (entry m S i) =? Z.land dest (entry m S i))) _ 0); [| |lia].
  - intros i Hi. unfold on_link_probe. rewrite !read_entry by (done || lia). run_step. by destruct (Z.land _ _ =? 0).
  - intros i. unfold on_link. rewrite andb_true_iff, negb_true_iff, Z.eqb_eq, Z.eqb_neq. done.
Qed.

Lemma gateway_scan :
  exists r, table_scan (gateway_probe m G) 4 = Done ((fun i => 4 * Z.of_nat i) <$> r) /\ found has_gateway 1 r.
Proof.
  apply (table_scan_ok _ (fun i => negb (entry m G i =? 0)) _ 1); [| |lia].
  - intros i Hi. unfold gateway_probe. by rewrite read_entry by (done || lia).
  - intros i. unfold has_gateway. rewrite negb_true_iff, Z.eqb_neq. done.
Qed.

(** Every present device structure lies in memory up to its link state. *)
Hypothesis HD : forall i, (i < 16)%nat -> entry m L i <> 0 ->
  0 <= entry m L i /\ entry m L i + 28 <= mlen m.

Definition link_of (i : nat) : option Z :=
  if entry m L i =? 0 then None else Some (word_at m (entry m L i + OFF_LINK_STATE)).

Lemma link_at_ok i : (i < 16)%nat ->
  (r ← device_link_state m L (4 * Z.of_nat i);
   Done (match r with Some (_, link) => Some link | None => None end)) = Done (link_of i).
Proof.
  intros Hi. unfold device_link_state, link_of. rewrite read_entry by done. run_step.
  destruct (entry m L i =? 0) eqn:E; [done|]. unfold OFF_LINK_STATE.
  destruct (HD i Hi) as [? ?]; [lia|]. by rewrite ld32_ok by lia.
Qed.

Lemma link_up_of i : link_up i <-> exists link, link_of i = Some link /\ link <> 0.
Proof.
  unfold link_up, link_of. destruct (entry m L i =? 0) eqn:E; split.
  - lia.
  - intros (? & ? & _). done.
  - intros [_ ?]. by eexists.
  - intros (? & [= <-] & ?). split; [lia|done].
Qed.

Definition link_at : Z -> run (option Z) := fun idx4 =>
  r ← device_link_state m L idx4; Done (match r with Some (_, link) => Some link | None => None end).

Lemma up_scan :
  exists r, table_scan (up_probe link_at) 4 = Done ((fun i => 4 * Z.of_nat i) <$> r) /\ found link_up 1 r.
Proof.
  apply (table_scan_ok _ (fun i => match link_of i with Some l => negb (l =? 0) | None => false end) _ 1); [| |lia].
  - intros i Hi. unfold up_probe, up_free_probe, link_at. rewrite link_at_ok by lia. run_step. by destruct (link_of i).
  - intros i. rewrite link_up_of. destruct (link_of i); [|naive_solver].
    rewrite negb_true_iff, Z.eqb_neq. naive_solver.
Qed.

Lemma up_free_scan :
  exists r, table_scan (up_free_probe m A link_at) 4 = Done ((fun i => 4 * Z.of_nat i) <$> r) /\ found (fun i => link_up i /\ no_address i) 1 r.
Proof.
  apply (table_scan_ok _ (fun i => match link_of i with
    | Some l => negb (l =? 0) && (entry m A i =? 0) | None => false end) _ 1); [| |lia].
  - intros i Hi. unfold up_probe, up_free_probe, link_at. rewrite link_at_ok by lia. run_step.
    destruct (link_of i) as [l|]; [|done]. destruct (l =? 0); [done|]. by rewrite read_entry by (done || lia).
  - intros i. rewrite link_up_of. unfold no_address. destruct (link_of i); [|naive_solver].
    rewrite andb_true_iff, negb_true_iff, Z.eqb_neq, Z.eqb_eq. naive_solver.
Qed.
End Route.

Lemma got_device_ok m dest dev src A Sn G L :
  table_ok m A -> table_ok m Sn -> table_ok m G -> table_ok m L -> dev <> 0 ->
  exists r, ipv4_route_got_device m dest dev src A Sn G L = Done r /\
    ((exists i, first_dev (fun i => entry m L i = dev) 0 i /\
        r = mkRoute (if (dest =? IPV4_BROADCAST) || (Z.land dest (entry m Sn i) =? Z.land (entry m A i) (entry m Sn i))
                     then dest else entry m G i) (entry m A i) (4 * Z.of_nat i)) \/
     (no_dev (fun i => entry m L i = dev) 0 /\ r = mkRoute 0 src 0xffffffff)).
Proof.
  intros HA HS HG HL Hd. unfold ipv4_route_got_device. rewrite find_device_ok by done. run_step.
  pose proof (first_from_found (fun i => entry m L i =? dev) (fun i => entry m L i = dev) 0
    (fun i => Z.eqb_eq _ _)) as Hf.
  destruct (first_from _ 0 16) as [i|]; [|by eauto].
  assert (i < 16)%nat by (destruct Hf; lia). rewrite !read_entry by done. run_step.
  destruct (dest =? IPV4_BROADCAST) eqn:E1; cbn [negb].
  - eexists. split; [done|]. left. exists i. by split.
  - destruct (Z.land dest _ =? _) eqn:E2; cbn [negb]; eexists; (split; [done|]); left; exists i; (split; [done|]); by rewrite ?E2.
Qed.

(** ** Theorems *)

(** C14: [ipv4_route] terminates on any tables and selects as documented.  Without a
    device: a unicast destination leaves, unchanged, through the first device on whose
    configured subnet it lies; failing that it is sent to the gateway of the first
    device (loopback excluded) that has one; failing that through loopback.  The
    limited broadcast leaves through the first non-loopback device whose link is up
    and that has no address, else the first whose link is up, else loopback.  A
    caller's source address is kept.  With a device: its table slot is used (0 and -1
    answer an unknown device), the source is the device's address, and an off-link
    unicast destination is replaced by the device's gateway. *)
Theorem ipv4_route_correct m dest dev src A Sn G L :
  table_ok m A -> table_ok m Sn -> table_ok m G -> table_ok m L ->
  (forall i, (i < 16)%nat -> entry m L i <> 0 -> 0 <= entry m L i /\ entry m L i + 28 <= mlen m) ->
  exists r, ipv4_route m dest dev src A Sn G L = Done r /\
    (dev = 0 -> dest <> IPV4_BROADCAST ->
       (exists i, first_dev (on_link m A Sn dest) 0 i /\ r = via m A dest src i) \/
       (no_dev (on_link m A Sn dest) 0 /\
          exists i, first_dev (has_gateway m G) 1 i /\ r = via m A (entry m G i) src i) \/
       (no_dev (on_link m A Sn dest) 0 /\ no_dev (has_gateway m G) 1 /\ r = via m A dest src 0)) /\
    (dev = 0 -> dest = IPV4_BROADCAST ->
       (exists i, first_dev (fun i => link_up m L i /\ no_address m A i) 1 i /\ r = via m A dest src i) \/
       (no_dev (fun i => link_up m L i /\ no_address m A i) 1 /\
          exists i, first_dev (link_up m L) 1 i /\ r = via m A dest src i) \/
       (no_dev (link_up m L) 1 /\ r = via m A dest src 0)) /\
    (dev <> 0 ->
       (exists i, first_dev (fun i => entry m L i = dev) 0 i /\
          r = mkRoute (if (dest =? IPV4_BROADCAST) ||
                          (Z.land dest (entry m Sn i) =? Z.land (entry m A i) (entry m Sn i))
                       then dest else entry m G i) (entry m A i) (4 * Z.of_nat i)) \/
       (no_dev (fun i => entry m L i = dev) 0 /\ r = mkRoute 0 src 0xffffffff)).
Proof.
  intros HA HS HG HL HD. unfold ipv4_route, ipv4_route_inner. destruct (dev =? 0) eqn:E; cbn [negb].
  2: { destruct (got_device_ok m dest dev src A Sn G L HA HS HG HL) as (r & -> & Hr); [lia|].
       exists r. split_and!; [done|lia|lia|done]. }
  pose proof (got_it_ok m dest src 0 A HA ltac:(lia)) as Hlo. change (4 * Z.of_nat 0) with 0 in Hlo.
  destruct (dest =? IPV4_BROADCAST) eqn:Eb.
  - match goal with |- context [ipv4_route_broadcast m dest src A ?f] => change f with (link_at m L) end.
    unfold ipv4_route_broadcast.
    destruct (up_free_scan m A L HA HL HD) as (r & -> & Hf); destruct r as [i|]; cbn [fmap option_fmap option_map]; run_step.
    { rewrite got_it_ok by (done || destruct Hf; lia). eexists. split_and!; [done|lia|naive_solver|lia]. }
    destruct (up_scan m L HL HD) as (r & -> & Hf2); destruct r as [i|]; cbn [fmap option_fmap option_map]; run_step.
    { rewrite got_it_ok by (done || destruct Hf2; lia). eexists. split_and!; [done|lia|naive_solver|lia]. }
    rewrite Hlo. eexists. split_and!; [done|lia|naive_solver|lia].
  - destruct (on_link_scan m A Sn HA HS dest) as (r & -> & Hf); destruct r as [i|]; cbn [fmap option_fmap option_map]; run_step.
    { rewrite got_it_ok by (done || destruct Hf; lia). eexists. split_and!; [done|naive_solver|lia|lia]. }
    destruct (gateway_scan m G HG) as (r & -> & Hf2); destruct r as [i|]; cbn [fmap option_fmap option_map]; run_step.
    { assert (i < 16)%nat by (destruct Hf2; lia). rewrite read_entry by done. run_step.
      rewrite got_it_ok by done. eexists. split_and!; [done|naive_solver|lia|lia]. }
    rewrite Hlo. eexists. split_and!; [done|naive_solver|lia|lia].
Qed.

(** Tables at 0, 64, 128 and 192; device 1 at 256 with its link up, address 10.0.0.10/24
    and gateway 10.0.0.1 (network byte order). *)
Definition net_mem : list Z :=
  write32 (write32 (write32 (write32 (write32 (replicate 300 0) 4 0x0A00000A) 68 0x00FFFFFF) 132 0x0100000A)
    196 256) 280 1.

(** 10.0.0.20 is on device 1's subnet. *)
Lemma ipv4_route_correct_witness :
  exists r, ipv4_route net_mem 0x1400000A 0 0 0 64 128 192 = Done r /\
    r = mkRoute 0x1400000A 0x0A00000A 4 /\
    ((exists i, first_dev (on_link net_mem 0 64 0x1400000A) 0 i /\ r = via net_mem 0 0x1400000A 0 i) \/
     (no_dev (on_link net_mem 0 64 0x1400000A) 0 /\
        exists i, first_dev (has_gateway net_mem 128) 1 i /\ r = via net_mem 0 (entry net_mem 128 i) 0 i) \/
     (no_dev (on_link net_mem 0 64 0x1400000A) 0 /\ no_dev (has_gateway net_mem 128) 1 /\
        r = via net_mem 0 0x1400000A 0 0)).
Proof.
  assert (forall b, b = 0 \/ b = 64 \/ b = 128 \/ b = 192 -> table_ok net_mem b) as Ht.
  { intros b [->|[->|[->| ->]]]; split; vm_compute; discriminate. }
  destruct (ipv4_route_correct net_mem 0x1400000A 0 0 0 64 128 192) as (r & E & H & _ & _).
  - apply Ht; lia.
  - apply Ht; lia.
  - apply Ht; lia.
  - apply Ht; lia.
  - intros i Hi He. do 16 (destruct i as [|i]; [vm_compute in He |- *; first [by destruct He | by split]|]). lia.
  - exists r. split; [exact E|]. split; [|apply H; [done|discriminate]].
    vm_compute in E. injection E as <-. reflexivity.
Defined.

(** ** Bounded lookups *)

(** Slot [i] of the fragment table holds this packet's key. *)
Definition slot_matches (m : list Z) (packet fragments : Z) (i : nat) : Prop :=
  let slot := fragments + 16 * Z.of_nat i in
  word16_at m (slot + 2) = word16_at m (packet + 4) /\
  word_at m (slot + 4) = word_at m (packet + 12) /\ word_at m (slot + 8) = word_at m (packet + 16).

(** The first index below [n] with property [P], or none. *)
Definition first_below (P : nat -> Prop) (n : nat) (r : option nat) : Prop :=
  match r with
  | Some i => (i < n)%nat /\ P i /\ forall j, (j < i)%nat -> ~ P j
  | None => forall j, (j < n)%nat -> ~ P j
  end.

Lemma first_from_below P (Q : nat -> Prop) n : (forall i, P i = true <-> Q i) -> first_below Q n (first_from P 0 n).
Proof.
  intros HPQ. pose proof (first_from_spec P 0 n) as H. unfold first_below. destruct (first_from P 0 n).
  - destruct H as (? & ? & H). split_and!; [lia|by apply HPQ|]. intros j Hj Hq%HPQ. rewrite H in Hq; done || lia.
  - intros j Hj Hq%HPQ. rewrite H in Hq; done || lia.
Qed.

Lemma fragment_ok m packet fragments count :
  0 <= packet -> packet + 20 <= mlen m -> 0 <= fragments -> 0 <= count -> fragments + 16 * count <= mlen m ->
  mlen m < 2 ^ 32 ->
  exists r, ipv4_find_fragment_slot m packet fragments count =
      Done (match r with Some i => fragments + 16 * Z.of_nat i | None => 0xFFFFFFFF end) /\
    first_below (slot_matches m packet fragments) (Z.to_nat count) r.
Proof.
  intros Hp Hpf Hf Hc Hfit Hm.
  set (P i := let slot := fragments + 16 * Z.of_nat i in
    (word16_at m (slot + 2) =? word16_at m (packet + 4)) && (word_at m (slot + 4) =? word_at m (packet + 12)) &&
    (word_at m (slot + 8) =? word_at m (packet + 16))).
  exists (first_from P 0 (Z.to_nat count)). split.
  - unfold ipv4_find_fragment_slot. unfold OFF_HDR_IDENTIFICATION, OFF_HDR_SRC_IP, OFF_HDR_DST_IP.
    rewrite ld16_ok, !ld32_ok by lia. run_step. unfold ipv4_find_fragment_slot_from_keys.
    pose proof (first_from_spec P 0 (Z.to_nat count)) as Hs.
    rewrite (scan_loop _ Z.of_nat (Z.to_nat count) 0 _ P
      (fun i => fragments +ₘ (16 *ₘ Z.of_nat i)) 0xFFFFFFFF); [| | |lia|lia].
    + destruct (first_from P 0 _); [|done]. unwrap. f_equal. rewrite wrap_small; lia.
    + intros i Hi. unfold fragment_body, FRAGMENT_SLOT_SIZE, OFF_SLOT_ID, OFF_SLOT_SRC_IP, OFF_SLOT_DST_IP.
      replace (Z.of_nat i <? count) with true by lia. rewrite ld16_ok, !ld32_ok by lia. run_step.
      rewrite (Z.mul_comm (Z.of_nat i) 16).
      match goal with |- context [if ?b then _ else _] => change b with (P i) end.
      destruct (P i); [done|]. do 2 f_equal. rewrite wrap_small by lia. lia.
    + unfold fragment_body. by rewrite Z2Nat.id, Z.ltb_irrefl by lia.
  - apply first_from_below. intros i. unfold P, slot_matches. cbn zeta. rewrite !andb_true_iff, !Z.eqb_eq. tauto.
Qed.

(** The two bounded lookups return exactly the first hit.  [net_ptr_to_num4]
    answers four times the first slot that holds the device, -1 for a null device or a
    miss, and the router's private copy of it ([find_device_idx4]) agrees on 16 slots.
    [ipv4_find_fragment_slot] answers the address of the first slot whose
    identification, source and destination equal the packet's, and -1 when none does. *)
Theorem net_lookups_first m device list packet fragments count max :
  0 <= list -> 0 <= max <= 2 ^ 30 -> list + 4 * max <= mlen m ->
  0 <= packet -> packet + 20 <= mlen m -> 0 <= fragments -> 0 <= count -> fragments + 16 * count <= mlen m ->
  mlen m < 2 ^ 32 ->
  (exists r, net_ptr_to_num4 m device list max =
       Done (match r with Some i => 4 * Z.of_nat i | None => NET_PTR_TO_NUM4_MISS end) /\
     first_below (fun i => device <> 0 /\ entry m list i = device) (Z.to_nat max) r /\
     (max = NET_DEVICES_MAX ->
        find_device_idx4 m device list = Done ((fun i => 4 * Z.of_nat i) <$> r))) /\
  (exists r, ipv4_find_fragment_slot m packet fragments count =
       Done (match r with Some i => fragments + 16 * Z.of_nat i | None => 0xFFFFFFFF end) /\
     first_below (slot_matches m packet fragments) (Z.to_nat count) r).
Proof.
  intros Hl Hmax Hfit Hp Hpf Hf Hc Hfc Hm. split; [|by apply fragment_ok].
  destruct (decide (device = 0)) as [->|Hd].
  - exists None. split_and!; [done|intros j Hj [? _]; done|done].
  - exists (first_from (fun i => entry m list i =? device) 0 (Z.to_nat max)). split_and!.
    + by apply net_ptr_ok.
    + apply first_from_below. intros i. rewrite Z.eqb_eq. tauto.
    + intros ->. rewrite find_device_ok; [|split; unfold NET_DEVICES_MAX in *; lia|done].
      done.
Qed.

(** Device 256 is found in slot 1; the fragment table at 208 is searched for the
    packet at 260. *)
Lemma net_lookups_first_witness :
  net_ptr_to_num4 net_mem 256 192 16 = Done 4 /\ find_device_idx4 net_mem 256 192 = Done (Some 4) /\
  exists r, ipv4_find_fragment_slot net_mem 260 208 2 = Done r /\ r = 208.
Proof.
  destruct (net_lookups_first net_mem 256 192 260 208 2 16) as [(r & E & _ & E') (s & Es & _)];
    [lia|lia|vm_compute; discriminate|lia|vm_compute; discriminate|lia|lia|vm_compute; discriminate|reflexivity|].
  split; [reflexivity|]. split; [|by exists 208].
  rewrite E' by reflexivity. assert (net_ptr_to_num4 net_mem 256 192 16 = Done 4) as E4 by reflexivity.
  rewrite E in E4. injection E4 as E4. destruct r; [|discriminate]. cbn. by rewrite E4.
Defined.

(** ** The socket list *)

(** From [a] the [NextPtr] links visit the readable nodes [l] and end in null. *)
Fixpoint chain (m : list Z) (a : Z) (l : list Z) : Prop :=
  match l with
  | [] => a = 0
  | x :: l' => a = x /\ x <> 0 /\ 0 <= x /\ x + 4 <= mlen m /\ chain m (word_at m x) l'
  end.

Abbreviation load_next m := (fun addr => ld32 m (addr + OFF_NEXT_PTR)).

Lemma socket_stop c ld a : a = 0 \/ a = c -> socket_body c ld a = Done (inr a).
Proof.
  intros [->| ->]; unfold socket_body; [done|]. rewrite Z.eqb_refl. by destruct (c =? 0).
Qed.

Lemma socket_next m c a : a <> 0 -> a <> c -> 0 <= a -> a + 4 <= mlen m ->
  socket_body c (load_next m) a = Done (inl (word_at m a)).
Proof.
  intros. unfold socket_body, OFF_NEXT_PTR. replace (a =? 0) with false by lia.
  replace (a =? c) with false by lia. by rewrite Z.add_0_r, ld32_ok by lia.
Qed.

Lemma socket_walk m c l : c <> 0 -> forall a fuel, chain m a l -> (length l < fuel)%nat ->
  loop fuel (socket_body c (load_next m)) a = Done (if decide (c ∈ l) then c else 0).
Proof.
  intros Hc. induction l as [|x l IH]; intros a [|fuel] Hch Hf; cbn [length] in Hf; try lia; cbn [loop].
  - rewrite socket_stop by auto. cbn in Hch. by subst a.
  - destruct Hch as (-> & Hx & Hx0 & Hfit & Hch). destruct (decide (x = c)) as [->|E].
    + rewrite socket_stop by auto. by rewrite decide_True by left.
    + rewrite socket_next by done. run_step. rewrite IH by (done || lia).
      destruct (decide (c ∈ l)) as [Hi|Hi]; [by rewrite decide_True by (by right)|].
      rewrite decide_False; [done|]. intros [?|?]%elem_of_cons; congruence.
Qed.

Lemma socket_spin m c (N : list Z) :
  (forall x, x ∈ N -> x <> 0 /\ x <> c /\ 0 <= x /\ x + 4 <= mlen m /\ word_at m x ∈ N) ->
  forall fuel a, a ∈ N -> loop fuel (socket_body c (load_next m)) a = Fuel.
Proof.
  intros HN fuel. induction fuel as [|fuel IH]; intros a Ha; [done|].
  destruct (HN a Ha) as (? & ? & ? & ? & Hn). cbn [loop]. rewrite socket_next by done. run_step. by apply IH.
Qed.

(** On a null-terminated socket list [socket_check] visits at most one node per
    socket and answers the candidate exactly when it is one of them, 0 otherwise (and
    for the null candidate).  It relies on that termination: started inside a closed
    cycle that does not contain the candidate it never returns. *)
Theorem socket_membership m head c : 0 <= head -> head + 4 <= mlen m ->
  (forall l fuel, chain m (word_at m head) l -> (length l < fuel)%nat ->
     socket_check fuel m c head = Done (if decide (c ∈ l) then c else 0)) /\
  (forall N : list Z, c <> 0 -> word_at m head ∈ N ->
     (forall x, x ∈ N -> x <> 0 /\ x <> c /\ 0 <= x /\ x + 4 <= mlen m /\ word_at m x ∈ N) ->
     forall fuel, socket_check fuel m c head = Fuel).
Proof.
  intros Hh Hfit. unfold socket_check, socket_check_from_first. unfold OFF_NEXT_PTR at 1 3.
  rewrite Z.add_0_r, ld32_ok by lia. run_step. split.
  - intros l fuel Hch Hf. destruct (c =? 0) eqn:E.
    + apply Z.eqb_eq in E as ->. by case_decide.
    + apply socket_walk; [lia|done|done].
  - intros N Hc Hin HN fuel. replace (c =? 0) with false by lia. by apply (socket_spin m c N).
Qed.

(** Head at 0, sockets at 8 and 16; and the same list closed into a cycle. *)
Lemma socket_membership_witness :
  let m := write32 (write32 (replicate 24 0) 0 8) 8 16 in
  socket_check 3 m 16 0 = Done 16 /\ forall fuel, socket_check fuel (write32 m 16 8) 20 0 = Fuel.
Proof.
  cbn zeta. split.
  - destruct (socket_membership (write32 (write32 (replicate 24 0) 0 8) 8 16) 0 16) as [H _];
      [lia|vm_compute; discriminate|].
    rewrite (H [8; 16] 3%nat); [reflexivity| |cbn; lia].
    vm_compute. repeat split; discriminate.
  - destruct (socket_membership (write32 (write32 (write32 (replicate 24 0) 0 8) 8 16) 16 8) 0 20) as [_ H];
      [lia|vm_compute; discriminate|].
    apply (H [8; 16]); [lia|vm_compute; left|]. intros x Hx.
    apply list_elem_of_In in Hx. destruct Hx as [<-|[<-|[]]]; (split_and!; [lia|lia|lia|vm_compute; discriminate|]);
      vm_compute; [right; left|left].
Defined.
