(* ===== verification/RangeCoder.v ===== *)
(** * The adaptive range decoder of the unpacker

    The bit-level part of [unpack.rs]: the range decoder, bit trees and direct bits.
    The stream is in memory [m]; the probability table [p] is a store of its own, a
    list of dwords.  The reference is an encoder over unbounded integers: [encode]
    narrows an interval decision by decision, and a stream is any number in the final
    interval.  [synced] says that what is left of a stream decodes to a given list of
    decisions; every decoding routine is proved against it. *)

From stdpp Require Import base list.
From Stdlib Require Import ZArith Lia.
From S2P Require Import Prelude.

(** ** Definitions *)

Definition K_TOP_VALUE : Z := 2 ^ 24.
Definition K_BIT_MODEL_TOTAL : Z := 2 ^ 11.
Definition K_NUM_MOVE_BITS : Z := 5.

Record Rd := mkRd { src : Z; code : Z; range : Z }.

(** Entry [i] of the probability table. *)
Definition ldp (p : list Z) (i : Z) : run Z := ld8 p i.
Definition stp (p : list Z) (i v : Z) : run (list Z) := st8 p i v.

Definition rd_init (m : list Z) (src : Z) : run Rd :=
  code ← ld32 m src; Done (mkRd (src + 4) code 0xFFFFFFFF).

Definition rd_norm (m : list Z) (rd : Rd) : run Rd :=
  if range rd <? K_TOP_VALUE then
    let r := range rd <<ₘ 8 in
    let c := code rd <<ₘ 8 in
    b ← ld8 m (src rd);
    Done (mkRd (src rd + 1) (Z.lor c b) r)
  else Done rd.

(** The decoder state that the calls thread: range decoder and probabilities. *)
Abbreviation dstate := (Rd * list Z)%type.

Definition decode_bit (m : list Z) (s : dstate) (prob : Z) : run (Z * dstate) :=
  let '(rd, p) := s in
  pr ← ldp p prob;
  let bound := Z.shiftr (range rd) 11 *ₘ pr in
  if code rd <? bound then
    p ← stp p prob (pr +ₘ Z.shiftr (K_BIT_MODEL_TOTAL -ₘ pr) K_NUM_MOVE_BITS);
    rd ← rd_norm m (mkRd (src rd) (code rd) bound);
    Done (0, (rd, p))
  else
    let r := range rd -ₘ bound in
    let c := code rd -ₘ bound in
    p ← stp p prob (pr -ₘ Z.shiftr pr K_NUM_MOVE_BITS);
    rd ← rd_norm m (mkRd (src rd) c r);
    Done (1, (rd, p)).

Definition tree_body (m : list Z) (probs : Z) (st : Z * Z * dstate) : run (Z * Z * dstate + Z * dstate) :=
  let '(symbol, n, s) := st in
  if n =? 0 then Done (inr (symbol, s))
  else
    '(bit, s) ← decode_bit m s (probs + symbol);
    Done (inl (Z.lor (symbol <<ₘ 1) bit, n -ₘ 1, s)).

Definition decode_bit_tree (m : list Z) (s : dstate) (probs levels : Z) : run (Z * dstate) :=
  '(symbol, s) ← loop (S (Z.to_nat levels)) (tree_body m probs) (1, levels, s);
  Done (symbol -ₘ (1 <<ₘ levels), s).

Definition rev_tree_body (m : list Z) (probs : Z) (st : Z * Z * Z * dstate)
    : run (Z * Z * Z * dstate + Z * dstate) :=
  let '(symbol, acc, n, s) := st in
  if n =? 0 then Done (inr (acc, s))
  else
    '(bit, s) ← decode_bit m s (probs + symbol);
    Done (inl (Z.lor (symbol <<ₘ 1) bit, Z.lor (Z.shiftr acc 1) (bit <<ₘ 31), n -ₘ 1, s)).

Definition decode_rev_bit_tree (m : list Z) (s : dstate) (probs levels : Z) : run (Z * dstate) :=
  '(acc, s) ← loop (S (Z.to_nat levels)) (rev_tree_body m probs) (1, 0, levels, s);
  Done (Z.shiftr acc (32 -ₘ levels), s).

Definition direct_body (m : list Z) (st : Z * Z * dstate) : run (Z * Z * dstate + Z * dstate) :=
  let '(result, n, s) := st in
  if n =? 0 then Done (inr (result, s))
  else
    let '(rd, p) := s in
    let range := Z.shiftr (range rd) 1 in
    let result := result <<ₘ 1 in
    let '(code, result) :=
      if range <=? code rd then (code rd -ₘ range, Z.lor result 1) else (code rd, result) in
    rd ← rd_norm m (mkRd (src rd) code range);
    Done (inl (result, n -ₘ 1, (rd, p))).

Definition decode_direct_bits (m : list Z) (s : dstate) (n : Z) : run (Z * dstate) :=
  loop (S (Z.to_nat n)) (direct_body m) (0, n, s).

(** ** Reference encoder *)

(** What the encoder tells the decoder: a bit under an adaptive probability, or a
    bit with even odds. *)
Inductive decision :=
| Ctx (slot bit : Z)
| Direct (bit : Z).

(** The part of an interval of length [range] that stands for a decision. *)
Definition part_of (d : decision) (range : Z) (p : list Z) : Z * Z :=
  match d with
  | Ctx slot bit =>
      let bound := range / 2048 * byte_at p slot in
      if bit =? 0 then (0, bound) else (bound, range - bound)
  | Direct bit => if bit =? 0 then (0, range / 2) else (range / 2, range / 2)
  end.

Definition adapt (d : decision) (p : list Z) : list Z :=
  match d with
  | Ctx slot bit =>
      let pr := byte_at p slot in
      <[Z.to_nat slot := if bit =? 0 then pr + (2048 - pr) / 32 else pr - pr / 32]> p
  | Direct _ => p
  end.

(** Low end, length and number of renormalisations (bytes) of the interval that
    stands for a list of decisions, in units of the last byte. *)
Fixpoint encode (ds : list decision) (range : Z) (p : list Z) : Z * Z * nat :=
  match ds with
  | [] => (0, range, 0%nat)
  | d :: ds =>
      let '(l, r) := part_of d range p in
      let '(r, s) := if r <? 2 ^ 24 then (r * 256, 1%nat) else (r, 0%nat) in
      let '(l', r', n) := encode ds r (adapt d p) in
      (l * 256 ^ Z.of_nat (s + n) + l', r', (s + n)%nat)
  end.

Fixpoint adapt_all (ds : list decision) (p : list Z) : list Z :=
  match ds with
  | [] => p
  | d :: ds => adapt_all ds (adapt d p)
  end.

(** ** Specification *)

Definition is_bit (b : Z) : Prop := b = 0 \/ b = 1.

Definition decision_ok (slots : Z) (d : decision) : Prop :=
  match d with
  | Ctx slot bit => 0 <= slot < slots /\ is_bit bit
  | Direct bit => is_bit bit
  end.

(** Probabilities never reach 0 or 1: no symbol ever gets an empty interval. *)
Definition prob_ok (p : Z) : Prop := 31 <= p <= 2017.
Abbreviation probs_ok := (Forall prob_ok).

(** The [n] bytes at [a] as a big-endian number. *)
Fixpoint be (m : list Z) (a : Z) (n : nat) : Z :=
  match n with
  | O => 0
  | S k => byte_at m a * 256 ^ Z.of_nat k + be m (a + 1) k
  end.

(** What is left of the stream decodes to [ds]; the stream lies in the window [e] and
    its last byte is the window's. *)
Definition synced (m : list Z) (s : dstate) (ds : list decision) (e : Z * Z) : Prop :=
  let '(rd, p) := s in
  let '(l, r, n) := encode ds (range rd) p in
  bytes m /\ probs_ok p /\ Forall (decision_ok (mlen p)) ds /\
  0 <= e.1 <= src rd /\ src rd + Z.of_nat n = e.2 /\ e.2 <= mlen m /\
  2 ^ 24 <= range rd < 2 ^ 32 /\ 0 <= code rd < range rd /\
  l <= code rd * 256 ^ Z.of_nat n + be m (src rd) n < l + r.

(** ** Lemmas *)

(** *** Probabilities and intervals *)

Lemma prob_at p i : probs_ok p -> 0 <= i < mlen p -> prob_ok (byte_at p i).
Proof.
  intros Hp Hi. unfold byte_at, mlen in *. replace (i <? 0) with false by lia.
  destruct (lookup_lt_is_Some_2 p (Z.to_nat i)) as [x Hx]; [lia|]. rewrite Hx. cbn.
  by eapply Forall_lookup_1 in Hx; [|exact Hp].
Qed.

Lemma adapt_ok d p : probs_ok p -> decision_ok (mlen p) d -> probs_ok (adapt d p).
Proof.
  intros Hp Hd. destruct d as [i b|b]; [|done]. cbn in Hd. destruct Hd as [Hi _].
  pose proof (prob_at p i Hp Hi) as Hpi. apply Forall_insert; [done|]. unfold prob_ok in *.
  case_match; Z.div_mod_to_equations; lia.
Qed.

Lemma mlen_adapt d p : mlen (adapt d p) = mlen p.
Proof. destruct d; [apply mlen_insert|done]. Qed.

(** A part lies inside the interval and one byte of renormalisation is enough. *)
Lemma part_range d range p : probs_ok p -> decision_ok (mlen p) d -> 2 ^ 24 <= range < 2 ^ 32 ->
  let '(l, r) := part_of d range p in 0 <= l /\ l + r <= range /\ 2 ^ 16 <= r.
Proof.
  intros Hp Hd Hr. destruct d as [i b|b]; cbn in *.
  - destruct Hd as [Hi _]. pose proof (prob_at p i Hp Hi) as Hpi. unfold prob_ok in Hpi.
    assert (2 ^ 13 <= range / 2048 /\ range / 2048 * 2048 <= range) as [? ?] by (Z.div_mod_to_equations; lia).
    destruct (b =? 0); split_and!; nia.
  - destruct (b =? 0); Z.div_mod_to_equations; lia.
Qed.

(** The length after renormalisation. *)
Definition renorm (r : Z) : Z * nat := if r <? 2 ^ 24 then (r * 256, 1%nat) else (r, 0%nat).

Lemma renorm_ok r : 2 ^ 16 <= r < 2 ^ 32 -> 2 ^ 24 <= (renorm r).1 < 2 ^ 32 /\ (renorm r).1 = r * 256 ^ Z.of_nat (renorm r).2.
Proof. intros. unfold renorm. destruct (r <? 2 ^ 24) eqn:E; cbn; lia. Qed.

Lemma encode_cons d ds range p :
  encode (d :: ds) range p =
  let '(l, r) := part_of d range p in
  let '(r, s) := renorm r in
  let '(l', r', n) := encode ds r (adapt d p) in
  (l * 256 ^ Z.of_nat (s + n) + l', r', (s + n)%nat).
Proof. done. Qed.

Lemma pow256_pos n : 0 < 256 ^ Z.of_nat n.
Proof. apply Z.pow_pos_nonneg; lia. Qed.

(** The final interval is a non-empty part of the first one. *)
Lemma encode_inside ds : forall range p, probs_ok p -> Forall (decision_ok (mlen p)) ds ->
  2 ^ 24 <= range < 2 ^ 32 ->
  let '(l, r, n) := encode ds range p in 0 <= l /\ 0 < r /\ l + r <= range * 256 ^ Z.of_nat n.
Proof.
  induction ds as [|d ds IH]; intros range p Hp Hd Hr; [cbn; lia|].
  apply Forall_cons in Hd as [Hd Hds]. rewrite encode_cons.
  pose proof (part_range d range p Hp Hd Hr) as Hpart. destruct (part_of d range p) as [l r].
  destruct Hpart as (? & ? & ?). destruct (renorm_ok r) as [Hrr Hre]; [lia|].
  destruct (renorm r) as [r1 s]. cbn [fst snd] in *.
  specialize (IH r1 (adapt d p) (adapt_ok d p Hp Hd)). rewrite mlen_adapt in IH. specialize (IH Hds Hrr).
  destruct (encode ds r1 _) as [[l' r'] n]. destruct IH as (? & ? & ?).
  rewrite Nat2Z.inj_add, Z.pow_add_r by lia. pose proof (pow256_pos s). pose proof (pow256_pos n).
  split_and!; [nia|lia|]. subst r1. nia.
Qed.

Lemma be_range m n : forall a, bytes m -> 0 <= be m a n < 256 ^ Z.of_nat n.
Proof.
  induction n as [|n IH]; intros a Hm; [cbn; lia|]. rewrite pow256_S. cbn [be].
  specialize (IH (a + 1) Hm). pose proof (byte_at_range m a Hm) as Hb. unfold is_byte in Hb. nia.
Qed.

Lemma be_add m k n : forall a, be m a (k + n) = be m a k * 256 ^ Z.of_nat n + be m (a + Z.of_nat k) n.
Proof.
  induction k as [|k IH]; intros a.
  - cbn [Nat.add be]. rewrite Z.mul_0_l, Z.add_0_l. f_equal. lia.
  - cbn [Nat.add be]. rewrite IH. replace (Z.of_nat (k + n)) with (Z.of_nat k + Z.of_nat n) by lia.
    rewrite Z.pow_add_r by lia. replace (a + 1 + Z.of_nat k) with (a + Z.of_nat (S k)) by lia. lia.
Qed.

(** *** One decision *)

Lemma rd_norm_ok m rd : bytes m -> 0 <= src rd -> 2 ^ 16 <= range rd < 2 ^ 32 -> 0 <= code rd < range rd ->
  let '(r, s) := renorm (range rd) in
  src rd + Z.of_nat s <= mlen m ->
  rd_norm m rd = Done (mkRd (src rd + Z.of_nat s) (code rd * 256 ^ Z.of_nat s + be m (src rd) s) r) /\
  0 <= code rd * 256 ^ Z.of_nat s + be m (src rd) s < r.
Proof.
  intros Hm Hs Hr Hc. unfold renorm, rd_norm, K_TOP_VALUE. destruct rd as [a c r]. cbn [src code range] in *.
  destruct (r <? 2 ^ 24) eqn:E.
  - intros Hfit. rewrite ld8_ok by lia. run_step. pose proof (byte_at_range m a Hm) as Hb. unfold is_byte in Hb.
    rewrite !shl_fold by lia. change (2 ^ 8) with 256. rewrite (lor_mul_add c _ 8) by lia.
    change (256 ^ Z.of_nat 1) with 256. change (2 ^ 8) with 256. cbn [be].
    change (256 ^ Z.of_nat 0) with 1. rewrite Z.mul_1_r, Z.add_0_r. split; [done|]. lia.
  - intros _. cbn [be]. change (256 ^ Z.of_nat 0) with 1. rewrite Z.mul_1_r, !Z.add_0_r. by split.
Qed.

Lemma synced_part m rd p d ds e : synced m (rd, p) (d :: ds) e ->
  let '(l, r) := part_of d (range rd) p in
  l <= code rd < l + r /\
  exists rd', rd_norm m (mkRd (src rd) (code rd - l) r) = Done rd' /\ synced m (rd', adapt d p) ds e.
Proof.
  unfold synced. rewrite encode_cons.
  pose proof (part_range d (range rd) p) as Hpart. destruct (part_of d (range rd) p) as [l r].
  pose proof (renorm_ok r) as Hren. pose proof (rd_norm_ok m (mkRd (src rd) (code rd - l) r)) as Hn.
  cbn [src code range] in Hn. destruct (renorm r) as [r1 s]. cbn [fst snd] in Hren.
  pose proof (encode_inside ds r1 (adapt d p)) as Hin. rewrite mlen_adapt in Hin.
  destruct (encode ds r1 (adapt d p)) as [[l' r'] n] eqn:Een.
  intros (Hm & Hp & Hds & Hs & He & Hfit & Hr & Hc & HV). apply Forall_cons in Hds as [Hd Hds].
  destruct Hpart as (Hl & Hlr & Hr16); [done..|]. destruct Hren as [Hr1 Hr1e]; [lia|].
  destruct Hin as (Hl' & Hr' & Hlr'); [by apply adapt_ok|done|done|].
  pose proof (be_range m (s + n) (src rd) Hm) as Hbe. pose proof (pow256_pos s) as Ps. pose proof (pow256_pos n) as Pn.
  rewrite Nat2Z.inj_add, Z.pow_add_r in HV, Hbe by lia.
  set (X := 256 ^ Z.of_nat s * 256 ^ Z.of_nat n) in *.
  assert (l' + r' <= r * X) by (unfold X; nia). assert (0 < X) by (unfold X; nia).
  assert (l <= code rd < l + r) as Hcode by nia. split; [done|].
  destruct Hn as [En Hcn]; [done|lia|lia|lia|lia|]. rewrite En. eexists. split; [done|].
  cbn [src code range]. rewrite Een. rewrite mlen_adapt. rewrite be_add in HV.
  split_and!; try done; try lia; [by apply adapt_ok|..]; unfold X in *; lia.
Qed.

Lemma decode_bit_ok m rd p i b ds e : synced m (rd, p) (Ctx i b :: ds) e ->
  exists rd', decode_bit m (rd, p) i = Done (b, (rd', adapt (Ctx i b) p)) /\
    synced m (rd', adapt (Ctx i b) p) ds e.
Proof.
  intros Hs. pose proof (synced_part _ _ _ _ _ _ Hs) as Hpart.
  pose proof Hs as Hs0. unfold synced in Hs0.
  destruct (encode _ _ _) as [[? ?] ?]. destruct Hs0 as (Hm & Hp & Hds & _ & _ & _ & Hr & Hc & _).
  apply Forall_cons in Hds as [[Hi Hb] _]. pose proof (prob_at p i Hp Hi) as Hpi.
  unfold part_of in Hpart. set (pr := byte_at p i) in *. unfold prob_ok in Hpi.
  assert (Z.shiftr (range rd) 11 *ₘ pr = range rd / 2048 * pr) as Ebound.
  { rewrite shr_eq by lia. change (2 ^ 11) with 2048. apply wrap_small.
    assert (range rd / 2048 < 2 ^ 21) by (apply Z.div_lt_upper_bound; lia).
    assert (0 <= range rd / 2048) by (apply Z.div_pos; lia). nia. }
  unfold decode_bit, ldp, stp. rewrite ld8_ok by done. run_step. fold pr. rewrite Ebound, !st8_ok by done.
  unfold K_BIT_MODEL_TOTAL, K_NUM_MOVE_BITS. rewrite !shr_eq by lia.
  assert (0 <= range rd / 2048 * pr <= range rd) as Hbr.
  { assert (range rd / 2048 * 2048 <= range rd) by (Z.div_mod_to_equations; lia).
    assert (0 <= range rd / 2048) by (apply Z.div_pos; lia). nia. }
  unfold adapt. fold pr. destruct Hb as [->| ->]; cbn [Z.eqb] in *.
  - destruct Hpart as (Hc' & rd' & En & Hs'). replace (_ <? _) with true by lia. run_step.
    rewrite Z.sub_0_r in En. rewrite En. run_step. exists rd'. unfold adapt in Hs'. cbn [Z.eqb] in Hs'. fold pr in Hs'.
    rewrite (wrap_small 32 (2 ^ 11 - pr)) by lia. change (2 ^ 5) with 32. change (2 ^ 11) with 2048.
    rewrite wrap_small by (Z.div_mod_to_equations; lia). by split.
  - destruct Hpart as (Hc' & rd' & En & Hs'). replace (_ <? _) with false by lia. run_step.
    rewrite (wrap_small 32 (range rd - _)), (wrap_small 32 (code rd - _)) by lia.
    rewrite En. run_step. exists rd'. unfold adapt in Hs'. cbn [Z.eqb] in Hs'. fold pr in Hs'.
    change (2 ^ 5) with 32. rewrite wrap_small by (Z.div_mod_to_equations; lia). by split.
Qed.

(** ** Decoding routines against the decisions they read *)

(** On any stream that starts with the decisions [d], [f] returns [v] and leaves the
    stream after them. *)
Definition decodes {A} (m : list Z) (d : list decision) (f : dstate -> run (A * dstate)) (v : A) : Prop :=
  forall s ds e, synced m s (d ++ ds) e -> exists s', f s = Done (v, s') /\ synced m s' ds e.

Lemma decodes_ret {A} m (v : A) : decodes m [] (fun s => Done (v, s)) v.
Proof. intros s ds e H. by exists s. Qed.

Lemma decodes_bind {A B} m d1 d2 f (g : A -> dstate -> run (B * dstate)) v w :
  decodes m d1 f v -> decodes m d2 (g v) w ->
  decodes m (d1 ++ d2) (fun s => '(x, s) ← f s; g x s) w.
Proof.
  intros Hf Hg s ds e H. rewrite <- app_assoc in H. destruct (Hf _ _ _ H) as (s1 & E1 & H1).
  destruct (Hg _ _ _ H1) as (s2 & E2 & H2). exists s2. rewrite E1. by split.
Qed.

Lemma decodes_bit m i b : decodes m [Ctx i b] (fun s => decode_bit m s i) b.
Proof.
  intros [rd p] ds e H. destruct (decode_bit_ok _ _ _ _ _ _ _ H) as (rd' & E & H'). by eexists.
Qed.

(** Bits of a value, most and least significant first. *)
Fixpoint bits_lsb (n : nat) (v : Z) : list Z :=
  match n with O => [] | S k => v mod 2 :: bits_lsb k (v / 2) end.
Definition bits_msb (n : nat) (v : Z) : list Z := rev (bits_lsb n v).

Fixpoint of_lsb (l : list Z) : Z := match l with [] => 0 | b :: l => b + 2 * of_lsb l end.
(** The walk down a bit tree from node [symbol]. *)
Definition walk (symbol : Z) (l : list Z) : Z := fold_left (fun a b => 2 * a + b) l symbol.

Abbreviation are_bits := (Forall is_bit).

Lemma bits_lsb_ok n : forall v, 0 <= v < 2 ^ Z.of_nat n ->
  are_bits (bits_lsb n v) /\ of_lsb (bits_lsb n v) = v /\ length (bits_lsb n v) = n.
Proof.
  induction n as [|n IH]; intros v Hv; [cbn in *; split_and!; [by constructor|lia|done]|].
  replace (Z.of_nat (S n)) with (Z.of_nat n + 1) in Hv by lia. rewrite Z.pow_add_r in Hv by lia.
  destruct (IH (v / 2)) as (H1 & H2 & H3); [Z.div_mod_to_equations; lia|]. cbn. rewrite H2, H3. split_and!.
  - constructor; [|done]. unfold is_bit. Z.div_mod_to_equations. lia.
  - Z.div_mod_to_equations. lia.
  - done.
Qed.

Lemma walk_rev l : forall symbol, walk symbol (rev l) = symbol * 2 ^ Z.of_nat (length l) + of_lsb l.
Proof.
  induction l as [|b l IH]; intros symbol; unfold walk in *; cbn [rev length of_lsb].
  - change (2 ^ Z.of_nat 0) with 1. cbn. lia.
  - rewrite fold_left_app, IH. cbn [fold_left]. replace (Z.of_nat (S (length l))) with (Z.of_nat (length l) + 1) by lia.
    rewrite Z.pow_add_r by lia. lia.
Qed.

Lemma bits_msb_ok n v : 0 <= v < 2 ^ Z.of_nat n ->
  are_bits (bits_msb n v) /\ length (bits_msb n v) = n /\
  forall symbol, walk symbol (bits_msb n v) = symbol * 2 ^ Z.of_nat n + v.
Proof.
  intros Hv. destruct (bits_lsb_ok n v Hv) as (H1 & H2 & H3). unfold bits_msb. split_and!.
  - by apply Forall_rev.
  - by rewrite length_rev.
  - intros symbol. by rewrite walk_rev, H2, H3.
Qed.

(** The decisions of a walk through the tree at [base]. *)
Fixpoint tree_ds (base symbol : Z) (l : list Z) : list decision :=
  match l with
  | [] => []
  | b :: l => Ctx (base + symbol) b :: tree_ds base (2 * symbol + b) l
  end.

Lemma shl_lor_bit symbol b : 0 <= symbol < 2 ^ 31 -> is_bit b -> Z.lor (symbol <<ₘ 1) b = 2 * symbol + b.
Proof.
  intros Hs [->| ->]; rewrite shl_fold, lor_mul_add by lia; lia.
Qed.

Lemma walk_grows l : forall symbol, 1 <= symbol -> are_bits l ->
  symbol * 2 ^ Z.of_nat (length l) <= walk symbol l < (symbol + 1) * 2 ^ Z.of_nat (length l).
Proof.
  induction l as [|b l IH]; intros symbol Hs Hl; unfold walk in *; cbn [fold_left length].
  - change (2 ^ Z.of_nat 0) with 1. lia.
  - apply Forall_cons in Hl as [Hb Hl]. replace (Z.of_nat (S (length l))) with (Z.of_nat (length l) + 1) by lia.
    rewrite Z.pow_add_r by lia. specialize (IH (2 * symbol + b) ltac:(destruct Hb; lia) Hl).
    destruct Hb as [->| ->]; lia.
Qed.

Lemma of_nat_S_eqb k : (Z.of_nat (S k) =? 0) = false.
Proof. apply Z.eqb_neq. lia. Qed.

Lemma of_nat_S_pred k : Z.of_nat (S k) < 2 ^ 32 -> Z.of_nat (S k) -ₘ 1 = Z.of_nat k.
Proof. intros. rewrite wrap_small; lia. Qed.

Lemma tree_loop m base l : forall symbol fuel, (length l < fuel)%nat -> are_bits l -> 1 <= symbol ->
  (symbol + 1) * 2 ^ Z.of_nat (length l) <= 2 ^ 31 ->
  decodes m (tree_ds base symbol l)
    (fun s => loop fuel (tree_body m base) (symbol, Z.of_nat (length l), s)) (walk symbol l).
Proof.
  induction l as [|b l IH]; intros symbol [|fuel] Hf Hl Hs Hb s ds e H; cbn [length] in *; try lia.
  - exists s. by split.
  - apply Forall_cons in Hl as [Hbit Hl]. cbn [tree_ds app] in H.
    destruct (decodes_bit m (base + symbol) b s _ e H) as (s1 & E1 & H1).
    cbn [loop tree_body]. rewrite of_nat_S_eqb, E1. run_step. assert (2 ^ Z.of_nat (S (length l)) = 2 * 2 ^ Z.of_nat (length l)) as E2
      by (rewrite <- Z.pow_succ_r by lia; f_equal; lia).
    assert (1 <= 2 ^ Z.of_nat (length l)) by (apply (Z.pow_le_mono_r 2 0); lia).
    rewrite shl_lor_bit by (done || nia). rewrite of_nat_S_pred.
    + apply (IH (2 * symbol + b) fuel); [lia|done|destruct Hbit; lia|destruct Hbit; nia|exact H1].
    + assert (Z.of_nat (length l) < 2 ^ Z.of_nat (length l)) by (apply Z.pow_gt_lin_r; lia).
      set (X := 2 ^ Z.of_nat (length l)) in *. assert (2 * X <= (symbol + 1) * (2 * X)) by nia. lia.
Qed.

(** A tree of [n] levels returns the value whose bits the decisions are. *)
Lemma decodes_tree m base n v : (n <= 8)%nat -> 0 <= v < 2 ^ Z.of_nat n ->
  decodes m (tree_ds base 1 (bits_msb n v)) (fun s => decode_bit_tree m s base (Z.of_nat n)) v.
Proof.
  intros Hn Hv s ds e H. destruct (bits_msb_ok n v Hv) as (Hb & Hlen & Hw).
  assert (2 ^ Z.of_nat n <= 2 ^ 8) by (apply Z.pow_le_mono_r; lia).
  destruct (tree_loop m base (bits_msb n v) 1 (S n)) with (s := s) (ds := ds) (e := e) as (s' & E & H');
    [lia|done|lia|rewrite Hlen; lia|done|].
  exists s'. split; [|done]. unfold decode_bit_tree. rewrite Nat2Z.id. rewrite Hlen in E. rewrite E. run_step.
  rewrite Hw, shl_fold by lia. rewrite wrap_small by lia. do 2 f_equal. lia.
Qed.

(** One turn of the reverse tree on an accumulator that holds [k] bits at its top. *)
Lemma rev_acc_step x k b : 0 <= k < 32 -> 0 <= x < 2 ^ k -> is_bit b ->
  Z.lor (Z.shiftr (x * 2 ^ (32 - k)) 1) (b <<ₘ 31) = (x + 2 ^ k * b) * 2 ^ (32 - (k + 1)) /\
  0 <= x + 2 ^ k * b < 2 ^ (k + 1).
Proof.
  intros Hk Hx Hb. assert (2 ^ (32 - k) = 2 * 2 ^ (31 - k)) as E
    by (rewrite <- Z.pow_succ_r by lia; f_equal; lia).
  assert (2 ^ (k + 1) = 2 * 2 ^ k) as E1 by (rewrite Z.pow_add_r by lia; lia).
  assert (2 ^ k * 2 ^ (31 - k) = 2 ^ 31) as E2 by (rewrite <- Z.pow_add_r by lia; f_equal; lia).
  assert (0 < 2 ^ (31 - k)) by (apply Z.pow_pos_nonneg; lia).
  split; [|destruct Hb; lia].
  rewrite shl_fold by (destruct Hb; lia). rewrite shr_eq, E by lia. change (2 ^ 1) with 2.
  replace (x * (2 * 2 ^ (31 - k))) with (x * 2 ^ (31 - k) * 2) by lia. rewrite Z.div_mul by lia.
  rewrite lor_tag by nia. replace (32 - (k + 1)) with (31 - k) by lia. rewrite <- E2. ring.
Qed.

Lemma rev_tree_loop m base l : forall symbol x k fuel, (length l < fuel)%nat -> are_bits l -> 1 <= symbol ->
  (symbol + 1) * 2 ^ Z.of_nat (length l) <= 2 ^ 31 -> 0 <= k -> k + Z.of_nat (length l) <= 32 ->
  0 <= x < 2 ^ k ->
  decodes m (tree_ds base symbol l)
    (fun s => loop fuel (rev_tree_body m base) (symbol, x * 2 ^ (32 - k), Z.of_nat (length l), s))
    ((x + 2 ^ k * of_lsb l) * 2 ^ (32 - (k + Z.of_nat (length l)))).
Proof.
  induction l as [|b l IH]; intros symbol x k [|fuel] Hf Hl Hs Hb Hk Hkl Hx s ds e H; cbn [length] in *; try lia.
  - exists s. split; [|done]. cbn [of_lsb]. change (Z.of_nat 0) with 0. by rewrite Z.mul_0_r, !Z.add_0_r.
  - apply Forall_cons in Hl as [Hbit Hl]. cbn [tree_ds app] in H.
    destruct (decodes_bit m (base + symbol) b s _ e H) as (s1 & E1 & H1).
    cbn [loop rev_tree_body]. rewrite of_nat_S_eqb, E1. run_step.
    assert (2 ^ Z.of_nat (S (length l)) = 2 * 2 ^ Z.of_nat (length l)) as E2
      by (rewrite <- Z.pow_succ_r by lia; f_equal; lia).
    assert (1 <= 2 ^ Z.of_nat (length l)) by (apply (Z.pow_le_mono_r 2 0); lia).
    destruct (rev_acc_step x k b) as [-> Hx']; [lia|done|done|].
    rewrite shl_lor_bit by (done || nia). rewrite of_nat_S_pred by lia.
    destruct (IH (2 * symbol + b) (x + 2 ^ k * b) (k + 1) fuel) with (s := s1) (ds := ds) (e := e) as (s' & E & H');
      [lia|done|destruct Hbit; lia|destruct Hbit; nia|lia|lia|done|done|].
    exists s'. rewrite E. split; [|done]. do 2 f_equal. rewrite Z.pow_add_r by lia. change (2 ^ 1) with 2.
    cbn [of_lsb]. f_equal; [lia|]. f_equal. lia.
Qed.

Lemma decodes_rev_tree m base n v : (1 <= n <= 8)%nat -> 0 <= v < 2 ^ Z.of_nat n ->
  decodes m (tree_ds base 1 (bits_lsb n v)) (fun s => decode_rev_bit_tree m s base (Z.of_nat n)) v.
Proof.
  intros Hn Hv s ds e H. destruct (bits_lsb_ok n v Hv) as (Hb & Hval & Hlen).
  assert (2 ^ Z.of_nat n <= 2 ^ 8) by (apply Z.pow_le_mono_r; lia).
  destruct (rev_tree_loop m base (bits_lsb n v) 1 0 0 (S n)) with (s := s) (ds := ds) (e := e) as (s' & E & H');
    [lia|done|lia|rewrite Hlen; lia|lia|lia|lia|done|].
  exists s'. split; [|done]. unfold decode_rev_bit_tree. rewrite Nat2Z.id. rewrite Hlen in E.
  change (0 * 2 ^ (32 - 0)) with 0 in E. rewrite E. run_step. rewrite Hval.
  rewrite (wrap_small 32 (32 - Z.of_nat n)), shr_eq by lia.
  rewrite Z.div_mul by (apply Z.pow_nonzero; lia). change (2 ^ 0) with 1. do 2 f_equal. lia.
Qed.

Lemma direct_step m (s : dstate) b ds e result n : synced m s (Direct b :: ds) e -> n <> 0 -> 0 <= result < 2 ^ 31 ->
  exists s', direct_body m (result, n, s) = Done (inl (2 * result + b, n -ₘ 1, s')) /\ synced m s' ds e.
Proof.
  destruct s as [rd p]. intros Hs Hn Hres. pose proof (synced_part _ _ _ _ _ _ Hs) as Hpart.
  unfold synced in Hs. destruct (encode _ _ _) as [[? ?] ?]. destruct Hs as (_ & _ & Hds & _ & _ & _ & Hr & Hc & _).
  apply Forall_cons in Hds as [Hb _]. unfold part_of in Hpart. cbn [adapt] in Hpart.
  unfold direct_body. replace (n =? 0) with false by lia. rewrite shr_eq by lia. change (2 ^ 1) with 2.
  destruct Hb as [->| ->]; cbn [Z.eqb] in Hpart; destruct Hpart as (Hc' & rd' & En & Hs').
  - replace (_ <=? _) with false by lia. rewrite Z.sub_0_r in En. rewrite En. run_step. exists (rd', p).
    rewrite shl_fold by lia. split; [|done]. do 4 f_equal. lia.
  - replace (_ <=? _) with true by lia. rewrite (wrap_small 32 (code rd - _)) by (Z.div_mod_to_equations; lia).
    rewrite En. run_step. exists (rd', p). rewrite shl_lor_bit by (done || (by right)). by split.
Qed.

Definition direct_ds (l : list Z) : list decision := Direct <$> l.

Lemma direct_loop m l : forall result fuel, (length l < fuel)%nat -> are_bits l -> 0 <= result ->
  (result + 1) * 2 ^ Z.of_nat (length l) <= 2 ^ 31 ->
  decodes m (direct_ds l) (fun s => loop fuel (direct_body m) (result, Z.of_nat (length l), s)) (walk result l).
Proof.
  induction l as [|b l IH]; intros result [|fuel] Hf Hl Hr Hb s ds e H; cbn [length] in *; try lia.
  - exists s. by split.
  - apply Forall_cons in Hl as [Hbit Hl]. cbn in H.
    assert (2 ^ Z.of_nat (S (length l)) = 2 * 2 ^ Z.of_nat (length l)) as E2
      by (rewrite <- Z.pow_succ_r by lia; f_equal; lia).
    assert (Z.of_nat (length l) < 2 ^ Z.of_nat (length l)) by (apply Z.pow_gt_lin_r; lia).
    destruct (direct_step m s b _ e result (Z.of_nat (S (length l))) H) as (s1 & E1 & H1); [lia|nia|].
    cbn [loop]. rewrite E1. run_step. rewrite of_nat_S_pred by nia.
    apply (IH (2 * result + b) fuel); [lia|done|destruct Hbit; lia|destruct Hbit; nia|exact H1].
Qed.

Lemma decodes_direct m n v : (n <= 30)%nat -> 0 <= v < 2 ^ Z.of_nat n ->
  decodes m (direct_ds (bits_msb n v)) (fun s => decode_direct_bits m s (Z.of_nat n)) v.
Proof.
  intros Hn Hv s ds e H. destruct (bits_msb_ok n v Hv) as (Hb & Hlen & Hw).
  assert (2 ^ Z.of_nat n <= 2 ^ 30) by (apply Z.pow_le_mono_r; lia).
  destruct (direct_loop m (bits_msb n v) 0 (S n)) with (s := s) (ds := ds) (e := e) as (s' & E & H');
    [lia|done|lia|rewrite Hlen; lia|done|].
  exists s'. split; [|done]. unfold decode_direct_bits. rewrite Nat2Z.id, Hlen in *. rewrite E. rewrite Hw. do 2 f_equal.
Qed.

(** Writes outside the window do not disturb the stream. *)
Lemma be_frame m m' n : forall a, (forall i, a <= i < a + Z.of_nat n -> byte_at m' i = byte_at m i) ->
  be m' a n = be m a n.
Proof.
  induction n as [|n IH]; intros a H; [done|]. cbn [be]. rewrite H, IH by (intros; try apply H; lia). done.
Qed.

Lemma synced_frame m m' s ds e : synced m s ds e -> bytes m' -> mlen m' = mlen m ->
  (forall i, e.1 <= i < e.2 -> byte_at m' i = byte_at m i) -> synced m' s ds e.
Proof.
  destruct s as [rd p]. unfold synced. destruct (encode _ _ _) as [[l r] n].
  intros (Hm & Hp & Hds & Hs & He & Hfit & Hr & Hc & HV) Hm' Hl Hf.
  rewrite Hl, (be_frame m m') by (intros; apply Hf; lia). done.
Qed.

Lemma synced_window m s ds e : synced m s ds e -> bytes m /\ 0 <= e.1 <= e.2 /\ e.2 <= mlen m.
Proof.
  destruct s as [rd p]. unfold synced. destruct (encode _ _ _) as [[l r] n].
  intros (Hm & Hp & Hds & Hs & He & Hfit & _). split_and!; done || lia.
Qed.

Lemma synced_decisions m s ds e : synced m s ds e -> Forall (decision_ok (mlen s.2)) ds.
Proof.
  destruct s as [rd p]. unfold synced. destruct (encode _ _ _) as [[l r] n]. by intros (_ & _ & H & _).
Qed.

(** ** Whole streams *)

Fixpoint be_bytes (n : nat) (V : Z) : list Z :=
  match n with O => [] | S k => V / 256 ^ Z.of_nat k mod 256 :: be_bytes k V end.

(** A number as the packer stores it: the first dword little-endian, the [n] bytes
    that the renormalisations fetch big-endian. *)
Definition stream (V : Z) (n : nat) : list Z :=
  let c := V / 256 ^ Z.of_nat n in
  [byte_of c 0; byte_of c 1; byte_of c 2; byte_of c 3] ++ be_bytes n V.

(** [V] stands for the decisions: it lies in their interval. *)
Definition stands_for (V : Z) (n : nat) (ds : list decision) (p : list Z) : Prop :=
  let '(l, r, n') := encode ds 0xFFFFFFFF p in n = n' /\ l <= V < l + r.

Lemma length_be_bytes n V : length (be_bytes n V) = n.
Proof. induction n; cbn; congruence. Qed.

Lemma mlen_stream V n : mlen (stream V n) = 4 + Z.of_nat n.
Proof. unfold stream. rewrite mlen_app. unfold mlen. rewrite length_be_bytes. done. Qed.

Lemma be_stored m n V : forall a, stored m a (be_bytes n V) -> be m a n = V mod 256 ^ Z.of_nat n.
Proof.
  induction n as [|n IH]; intros a Hs; [cbn; by rewrite Z.mod_1_r|].
  cbn [be be_bytes] in *. apply (stored_app m a [_] (be_bytes n V)) in Hs as [Hh Ht].
  change (mlen [_]) with 1 in Ht. rewrite IH by done. destruct Hh as (_ & _ & Hb).
  specialize (Hb 0 ltac:(unfold mlen; cbn [length]; lia)). rewrite Z.add_0_r in Hb.
  rewrite Hb, byte_at_cons. cbn [Z.eqb]. rewrite pow256_S.
  pose proof (pow256_pos n). rewrite (Z.mul_comm 256), Z.rem_mul_r by lia. lia.
Qed.

Lemma synced_init m a V n ds p : bytes m -> probs_ok p -> Forall (decision_ok (mlen p)) ds ->
  stored m a (stream V n) -> stands_for V n ds p ->
  exists rd, rd_init m a = Done rd /\ synced m (rd, p) ds (a + 4, a + 4 + Z.of_nat n).
Proof.
  intros Hm Hp Hd Hs HV. unfold stands_for in HV. pose proof (encode_inside ds 0xFFFFFFFF p Hp Hd) as Hin.
  pose proof Hs as (Ha & Hfit & _). rewrite mlen_stream in Hfit.
  unfold rd_init. rewrite ld32_ok by lia. run_step. eexists. split; [done|]. unfold synced. cbn [src code range fst snd].
  destruct (encode ds _ p) as [[l r] n']. destruct HV as [<- HV]. destruct Hin as (Hl & Hr & Hlr); [lia|].
  pose proof (pow256_pos n) as Hpos. apply stored_app in Hs as [Hh Ht]. change (mlen [_; _; _; _]) with 4 in Ht.
  rewrite (be_stored _ _ _ _ Ht). set (c := V / 256 ^ Z.of_nat n) in *.
  assert (0 <= c < 0xFFFFFFFF) as Hc by (unfold c; split; [apply Z.div_pos; lia|apply Z.div_lt_upper_bound; lia]).
  assert (word_at m a = c) as ->.
  { unfold word_at. destruct Hh as (_ & _ & Hb). pose proof (Hb 0 ltac:(unfold mlen; cbn [length]; lia)) as H0. rewrite Z.add_0_r in H0.
    rewrite H0, !Hb by (unfold mlen; cbn [length]; lia). apply le4_split. lia. }
  split_and!; try done; try lia. 1,2: rewrite (Z.div_mod V (256 ^ Z.of_nat n)) in HV by lia; fold c in HV; lia.
Qed.

Lemma range_coder_exists ds p : probs_ok p -> Forall (decision_ok (mlen p)) ds -> exists V n, stands_for V n ds p.
Proof.
  intros Hp Hd. unfold stands_for. pose proof (encode_inside ds 0xFFFFFFFF p Hp Hd) as Hin.
  destruct (encode ds _ p) as [[l r] n]. exists l, n. split; [done|lia].
Qed.

(** Reading a known schedule of decisions. *)
Fixpoint read_all (m : list Z) (ds : list decision) (s : dstate) : run (list Z * dstate) :=
  match ds with
  | [] => Done ([], s)
  | d :: ds =>
      '(b, s) ← match d with
                | Ctx slot _ => decode_bit m s slot
                | Direct _ => decode_direct_bits m s 1
                end;
      '(bs, s) ← read_all m ds s;
      Done (b :: bs, s)
  end.

Definition bit_of (d : decision) : Z := match d with Ctx _ b => b | Direct b => b end.

Lemma read_all_ok m ds : forall s e, synced m s ds e ->
  exists s', read_all m ds s = Done (bit_of <$> ds, s') /\ synced m s' [] e.
Proof.
  induction ds as [|d ds IH]; intros s e H; [by exists s|]. cbn [read_all fmap list_fmap].
  assert (exists s1, (match d with Ctx slot _ => decode_bit m s slot | Direct _ => decode_direct_bits m s 1 end) =
    Done (bit_of d, s1) /\ synced m s1 ds e) as (s1 & E1 & H1).
  { destruct d as [i b|b]; [by apply (decodes_bit m i b s ds e)|].
    assert (is_bit b) as Hb.
    { destruct s as [rd p]. unfold synced in H. destruct (encode _ _ _) as [[? ?] ?].
      destruct H as (_ & _ & Hds & _). by apply Forall_cons in Hds as [? _]. }
    apply (decodes_direct m 1 b); [lia|destruct Hb; lia|]. cbn. unfold bits_msb. cbn.
    replace (b mod 2) with b by (destruct Hb; subst; done). done. }
  rewrite E1. run_step. destruct (IH s1 e H1) as (s2 & E2 & H2). rewrite E2. run_step. by exists s2.
Qed.

(** C15: the range decoder inverts the range encoder.  For every schedule of
    decisions, under any probability table without certain bits, every number in the
    encoder's final interval, stored as the packer stores it, makes the decoder read
    exactly the encoded bits and stop exactly at the end of the stream, without an
    access outside it; and the interval is never empty, so such a stream exists. *)
Theorem range_coder_roundtrip ds p : probs_ok p -> Forall (decision_ok (mlen p)) ds ->
  (exists V n, stands_for V n ds p) /\
  forall m a V n, bytes m -> stored m a (stream V n) -> stands_for V n ds p ->
    exists rd s, rd_init m a = Done rd /\ read_all m ds (rd, p) = Done (bit_of <$> ds, s) /\
      src s.1 = a + 4 + Z.of_nat n /\ probs_ok s.2.
Proof.
  intros Hp Hd. split.
  - by apply range_coder_exists.
  - intros m a V n Hm Hs HV. destruct (synced_init m a V n ds p Hm Hp Hd Hs HV) as (rd & E & H).
    destruct (read_all_ok m ds _ _ H) as ([rd' p'] & E2 & H2). exists rd, (rd', p'). split_and!; [done|done|..];
      cbn in H2 |- *; [lia|apply H2].
Qed.

(** Six decisions over a table of four even probabilities. *)
Definition demo_ds : list decision := [Ctx 0 1; Ctx 1 0; Direct 1; Ctx 0 1; Ctx 3 1; Direct 0].
Definition demo_V : Z := let '(l, r, n) := encode demo_ds 0xFFFFFFFF (replicate 4 1024) in l + r - 1.

Lemma range_coder_roundtrip_witness :
  exists rd s, rd_init (stream demo_V 0) 0 = Done rd /\
    read_all (stream demo_V 0) demo_ds (rd, replicate 4 1024) = Done ([1; 0; 1; 1; 1; 0], s).
Proof.
  destruct (range_coder_roundtrip demo_ds (replicate 4 1024)) as [_ H].
  - repeat constructor; unfold prob_ok; lia.
  - unfold demo_ds. repeat (apply Forall_cons_2; [cbn; unfold is_bit, mlen; cbn; lia|]). apply Forall_nil_2.
  - destruct (H (stream demo_V 0) 0 demo_V 0%nat) as (rd & s & E1 & E2 & _).
    + apply bytes_check. vm_compute. reflexivity.
    + split_and!; [lia|vm_compute; discriminate|]. intros i Hi. by rewrite Z.add_0_l.
    + split; [reflexivity|]. vm_compute. split; [discriminate|reflexivity].
    + exists rd, s. split; [exact E1|exact E2].
Defined.

(** ** Any input: every routine stops, and returns bits and bounded symbols *)

Lemma ends_norm m rd : ends (rd_norm m rd) (fun _ => True).
Proof. unfold rd_norm. case_match; [|done]. eapply ends_bind; [apply ends_ld8|]. by intros. Qed.

Lemma ends_bit m s i : ends (decode_bit m s i) (fun r => is_bit r.1 /\ mlen r.2.2 = mlen s.2).
Proof.
  destruct s as [rd p]. unfold decode_bit, ldp, stp. eapply ends_bind; [apply ends_ld8|]. intros pr [Hi _].
  case_match; (eapply ends_bind; [apply ends_st8|]; intros p' [_ ->]; eapply ends_bind; [apply ends_norm|];
    intros rd' _; cbn; rewrite mlen_insert; unfold is_bit; auto).
Qed.

Lemma ends_tree m s base n : 0 <= n <= 8 ->
  ends (decode_bit_tree m s base n) (fun r => 0 <= r.1 < 2 ^ n /\ mlen r.2.2 = mlen s.2).
Proof.
  intros Hn. unfold decode_bit_tree. assert (2 ^ n <= 2 ^ 8) by (apply Z.pow_le_mono_r; lia).
  assert (0 < 2 ^ n) by (apply Z.pow_pos_nonneg; lia).
  eapply (ends_bind _ _ (fun r => 2 ^ n <= r.1 < 2 * 2 ^ n /\ mlen r.2.2 = mlen s.2)).
  - apply (ends_loop (fun st : Z * Z * dstate => 0 <= st.1.2 <= n /\ 2 ^ (n - st.1.2) <= st.1.1 < 2 * 2 ^ (n - st.1.2) /\
      mlen st.2.2 = mlen s.2) (fun st => Z.to_nat st.1.2)).
    + intros [[symbol k] s1] (Hk & Hsym & Hl). cbn [fst snd] in *. unfold tree_body. destruct (k =? 0) eqn:E.
      * apply Z.eqb_eq in E as ->. rewrite Z.sub_0_r in Hsym. by split.
      * eapply ends_bind; [apply ends_bit|]. intros [b s2] [Hb Hl2]. cbn [fst snd] in *.
        assert (2 ^ (n - k) <= 2 ^ 8) by (apply Z.pow_le_mono_r; lia).
        assert (0 < 2 ^ (n - k)) by (apply Z.pow_pos_nonneg; lia).
        rewrite shl_lor_bit by (done || lia). rewrite wrap_small by lia. cbn [fst snd ends]. split; [|lia].
        split; [lia|]. split; [|congruence]. replace (n - (k - 1)) with (n - k + 1) by lia.
        rewrite Z.pow_add_r by lia. destruct Hb; lia.
    + cbn [fst snd]. rewrite Z.sub_diag. split_and!; [lia|lia|cbn; lia|cbn; lia|done].
    + cbn [fst snd]. lia.
  - intros [symbol s1] [Hs Hl]. cbn [fst snd ends] in *. rewrite shl_fold by lia. rewrite wrap_small by lia. by split; [lia|].
Qed.

Lemma ends_rev_tree m s base n : 0 <= n < 2 ^ 32 ->
  ends (decode_rev_bit_tree m s base n) (fun r => mlen r.2.2 = mlen s.2).
Proof.
  intros Hn. unfold decode_rev_bit_tree. eapply (ends_bind _ _ (fun r => mlen r.2.2 = mlen s.2)).
  - apply (ends_loop (fun st : Z * Z * Z * dstate => 0 <= st.1.2 <= n /\ mlen st.2.2 = mlen s.2) (fun st => Z.to_nat st.1.2)).
    + intros [[[symbol acc] k] s1] (Hk & Hl). cbn [fst snd] in *. unfold rev_tree_body. destruct (k =? 0) eqn:E; [done|].
      eapply ends_bind; [apply ends_bit|]. intros [b s2] [Hb Hl2]. cbn [fst snd ends] in *.
      rewrite wrap_small by lia. split; [split; [lia|congruence]|lia].
    + cbn. lia.
    + cbn. lia.
  - by intros [acc s1] Hl.
Qed.

Lemma ends_direct m s n : 0 <= n < 2 ^ 32 -> ends (decode_direct_bits m s n) (fun r => mlen r.2.2 = mlen s.2).
Proof.
  intros Hn. unfold decode_direct_bits.
  apply (ends_loop (fun st : Z * Z * dstate => 0 <= st.1.2 <= n /\ mlen st.2.2 = mlen s.2) (fun st => Z.to_nat st.1.2)).
  - intros [[result k] [rd p]] (Hk & Hl). cbn [fst snd] in *. unfold direct_body. destruct (k =? 0) eqn:E; [done|].
    case_match. eapply ends_bind; [apply ends_norm|]. intros rd' _. cbn [fst snd ends].
    rewrite (wrap_small 32 (k - 1)) by lia. split; [split; [lia|done]|lia].
  - cbn. lia.
  - cbn. lia.
Qed.
