(* ===== verification/Unpack.v ===== *)
(** * The KPCK unpacker: LZMA decoding and call filters

    The symbol level of [unpack.rs] on top of [RangeCoder]: literals, lengths,
    distances, match copying, the main loop, the two E8/E9 filters and the entry
    point.  Packed data and output share one memory; the probability table is a store
    of its own.  The reference is the LZ77 meaning of a list of [op]erations and the
    decisions an encoder makes for them. *)

From stdpp Require Import base list.
From Stdlib Require Import ZArith Lia.
From S2P Require Import Prelude RangeCoder.

(** ** Definitions *)

Definition LZMA_BASE_SIZE : Z := 1846.
Definition LZMA_LIT_SIZE : Z := 768.
Definition LC_LP : Z := 3.
Definition PROB_SLOTS : Z := LZMA_BASE_SIZE + Z.shiftl LZMA_LIT_SIZE LC_LP.

Definition PB : Z := 2.
Definition POS_STATE_MASK : Z := Z.shiftl 1 PB - 1.
Definition LC : Z := 3.
Definition K_NUM_POS_BITS_MAX : Z := 4.
Definition K_NUM_STATES : Z := 12.
Definition K_NUM_LIT_STATES : Z := 7.
Definition K_START_POS_MODEL_INDEX : Z := 4.
Definition K_END_POS_MODEL_INDEX : Z := 14.
Definition K_NUM_FULL_DISTANCES : Z := Z.shiftl 1 (K_END_POS_MODEL_INDEX / 2).
Definition K_NUM_POS_SLOT_BITS : Z := 6.
Definition K_NUM_LEN_TO_POS_STATES : Z := 4.
Definition K_NUM_ALIGN_BITS : Z := 4.
Definition K_ALIGN_TABLE_SIZE : Z := Z.shiftl 1 K_NUM_ALIGN_BITS.
Definition K_MATCH_MIN_LEN : Z := 2.
Definition K_LEN_NUM_LOW_BITS : Z := 3.
Definition K_LEN_NUM_LOW_SYMBOLS : Z := Z.shiftl 1 K_LEN_NUM_LOW_BITS.
Definition K_LEN_NUM_MID_BITS : Z := 3.
Definition K_LEN_NUM_MID_SYMBOLS : Z := Z.shiftl 1 K_LEN_NUM_MID_BITS.
Definition K_LEN_NUM_HIGH_BITS : Z := 8.

Definition IS_MATCH : Z := 0.
Definition IS_REP : Z := IS_MATCH + Z.shiftl K_NUM_STATES K_NUM_POS_BITS_MAX.
Definition IS_REP_G0 : Z := IS_REP + K_NUM_STATES.
Definition IS_REP_G1 : Z := IS_REP_G0 + K_NUM_STATES.
Definition IS_REP_G2 : Z := IS_REP_G1 + K_NUM_STATES.
Definition IS_REP_0_LONG : Z := IS_REP_G2 + K_NUM_STATES.
Definition POS_SLOT : Z := IS_REP_0_LONG + Z.shiftl K_NUM_STATES K_NUM_POS_BITS_MAX.
Definition SPEC_POS : Z := POS_SLOT + Z.shiftl K_NUM_LEN_TO_POS_STATES K_NUM_POS_SLOT_BITS.
Definition ALIGN : Z := SPEC_POS + K_NUM_FULL_DISTANCES - K_END_POS_MODEL_INDEX.
Definition L_ENCODER : Z := ALIGN + K_ALIGN_TABLE_SIZE.
Definition K_NUM_LEN_PROBS : Z := 2 + Z.shiftl 16 3 + Z.shiftl 16 3 + 256.
Definition REP_L_ENCODER : Z := L_ENCODER + K_NUM_LEN_PROBS.
Definition LITERAL : Z := REP_L_ENCODER + K_NUM_LEN_PROBS.
Definition LEN_CHOICE : Z := 0.
Definition LEN_CHOICE2 : Z := 1.
Definition LEN_LOW : Z := 2.
Definition LEN_MID : Z := LEN_LOW + Z.shiftl 16 3.
Definition LEN_HIGH : Z := LEN_MID + Z.shiftl 16 3.

Definition decode_len (m : list Z) (s : dstate) (enc pos_state : Z) : run (Z * dstate) :=
  '(b, s) ← decode_bit m s (enc + LEN_CHOICE);
  if b =? 0 then
    decode_bit_tree m s (enc + (LEN_LOW + (pos_state <<ₘ K_LEN_NUM_LOW_BITS))) K_LEN_NUM_LOW_BITS
  else
    '(b, s) ← decode_bit m s (enc + LEN_CHOICE2);
    if b =? 0 then
      '(v, s) ← decode_bit_tree m s (enc + (LEN_MID + (pos_state <<ₘ K_LEN_NUM_MID_BITS))) K_LEN_NUM_MID_BITS;
      Done (K_LEN_NUM_LOW_SYMBOLS +ₘ v, s)
    else
      '(v, s) ← decode_bit_tree m s (enc + LEN_HIGH) K_LEN_NUM_HIGH_BITS;
      Done (K_LEN_NUM_LOW_SYMBOLS +ₘ K_LEN_NUM_MID_SYMBOLS +ₘ v, s).

(** [while symbol < 0x100]; a symbol below 256 doubles at every turn. *)
Definition literal_body (m : list Z) (probs : Z) (st : Z * dstate) : run (Z * dstate + Z * dstate) :=
  let '(symbol, s) := st in
  if symbol <? 0x100 then
    '(bit, s) ← decode_bit m s (probs + symbol);
    Done (inl (Z.lor (symbol <<ₘ 1) bit, s))
  else Done (inr (symbol, s)).

Definition decode_literal (m : list Z) (s : dstate) (probs : Z) : run (Z * dstate) :=
  '(symbol, s) ← loop 9 (literal_body m probs) (1, s);
  Done (u8 symbol, s).

Definition matched_body (m : list Z) (probs : Z) (st : Z * Z * dstate)
    : run (Z * Z * dstate + Z * dstate) :=
  let '(symbol, match_byte, s) := st in
  let match_bit := Z.land (Z.shiftr match_byte 7) 1 in
  let match_byte := u8 (Z.shiftl match_byte 1) in
  let slot := 0x100 + Z.shiftl match_bit 8 + symbol in
  '(bit, s) ← decode_bit m s (probs + slot);
  let symbol := Z.lor (symbol <<ₘ 1) bit in
  if 0x100 <=? symbol then Done (inr (u8 symbol, s))
  else if negb (match_bit =? Z.land symbol 1) then
    '(symbol, s) ← loop 9 (literal_body m probs) (symbol, s);
    Done (inr (u8 symbol, s))
  else Done (inl (symbol, match_byte, s)).

Definition decode_literal_matched (m : list Z) (s : dstate) (probs match_byte : Z) : run (Z * dstate) :=
  loop 9 (matched_body m probs) (1, match_byte, s).

Definition copy_body (st : list Z * Z * Z * Z) : run (list Z * Z * Z * Z + list Z) :=
  let '(m, d, s, n) := st in
  if n =? 0 then Done (inr m)
  else
    b ← ld8 m s; m ← st8 m d b;
    Done (inl (m, d + 1, s + 1, n -ₘ 1)).

Definition copy_match (m : list Z) (edi rep0 len : Z) : run (list Z) :=
  loop (S (Z.to_nat len)) copy_body (m, edi, edi - rep0, len).

(** The local variables of the main loop. *)
Record vars := mkVars { edi : Z; state : Z; prev : Z; rep0 : Z; rep1 : Z; rep2 : Z; rep3 : Z }.

Abbreviation lzstate := (list Z * vars * dstate)%type.

Definition fill_body (st : list Z * Z) : run (list Z * Z + list Z) :=
  let '(p, i) := st in
  if i <? PROB_SLOTS then
    p ← stp p i (K_BIT_MODEL_TOTAL / 2); Done (inl (p, i + 1))
  else Done (inr p).

(** [is_match] = 0. *)
Definition literal_step (m : list Z) (v : vars) (s : dstate) : run lzstate :=
  let lit_off := Z.shiftr (prev v) (8 - LC) *ₘ LZMA_LIT_SIZE in
  let lit := LITERAL + lit_off in
  '(al, s) ← (if state v <? K_NUM_LIT_STATES then decode_literal m s lit
              else match_b ← ld8 m (edi v - rep0 v); decode_literal_matched m s lit match_b);
  m ← st8 m (edi v) al;
  let state' :=
    if state v <? 4 then 0 else if state v <? 10 then state v -ₘ 3 else state v -ₘ 6 in
  Done (m, mkVars (edi v + 1) state' al (rep0 v) (rep1 v) (rep2 v) (rep3 v), s).

(** The distance after the position slot. *)
Definition decode_distance (m : list Z) (s : dstate) (slot : Z) : run (Z * dstate) :=
  if K_START_POS_MODEL_INDEX <=? slot then
    let dist := Z.lor 2 (Z.land slot 1) <<ₘ (Z.shiftr slot 1 - 1) in
    if slot <? K_END_POS_MODEL_INDEX then
      '(extra, s) ← decode_rev_bit_tree m s (SPEC_POS + dist - slot) (Z.shiftr slot 1 - 1);
      Done (dist +ₘ extra, s)
    else
      '(direct, s) ← decode_direct_bits m s (Z.shiftr slot 1 - 1 - K_NUM_ALIGN_BITS);
      let dist := dist +ₘ (direct <<ₘ K_NUM_ALIGN_BITS) in
      '(align, s) ← decode_rev_bit_tree m s ALIGN K_NUM_ALIGN_BITS;
      Done (dist +ₘ align, s)
  else Done (slot, s).

(** Copy, advance, remember the last byte. *)
Definition copy_step (m : list Z) (v : vars) (s : dstate) (len : Z) : run lzstate :=
  m ← copy_match m (edi v) (rep0 v) len;
  let edi' := edi v + len in
  prev' ← ld8 m (edi' - 1);
  Done (m, mkVars edi' (state v) prev' (rep0 v) (rep1 v) (rep2 v) (rep3 v), s).

(** A new match; [None] is the end marker's [break]. *)
Definition match_step (m : list Z) (v : vars) (pos_state : Z) (s : dstate) : run (lzstate + dstate) :=
  let old0 := rep0 v in let old1 := rep1 v in let old2 := rep2 v in
  let state' := if state v <? 7 then 7 else 10 in
  '(len, s) ← decode_len m s L_ENCODER pos_state;
  let pos_slot_index :=
    if len <? K_NUM_LEN_TO_POS_STATES - 1 then len else K_NUM_LEN_TO_POS_STATES - 1 in
  '(slot, s) ← decode_bit_tree m s (POS_SLOT + (pos_slot_index <<ₘ K_NUM_POS_SLOT_BITS)) K_NUM_POS_SLOT_BITS;
  '(dist, s) ← decode_distance m s slot;
  let rep0' := dist +ₘ 1 in
  if rep0' =? 0 then Done (inr s)
  else
    let len := len +ₘ K_MATCH_MIN_LEN in
    r ← copy_step m (mkVars (edi v) state' (prev v) rep0' old0 old1 old2) s len;
    Done (inl r).

(** A repeated match. *)
Definition rep_step (m : list Z) (v : vars) (pos_state : Z) (s : dstate) : run lzstate :=
  '(g0, s) ← decode_bit m s (IS_REP_G0 + state v);
  '(r, s) ←
    (if g0 =? 0 then
       '(long, s) ← decode_bit m s (IS_REP_0_LONG + (state v <<ₘ K_NUM_POS_BITS_MAX) + pos_state);
       if long =? 0 then Done (None, s)
       else Done (Some (rep0 v, rep1 v, rep2 v, rep3 v), s)
     else
       '(g1, s) ← decode_bit m s (IS_REP_G1 + state v);
       if g1 =? 0 then Done (Some (rep1 v, rep0 v, rep2 v, rep3 v), s)
       else
         '(g2, s) ← decode_bit m s (IS_REP_G2 + state v);
         if g2 =? 0 then Done (Some (rep2 v, rep0 v, rep1 v, rep3 v), s)
         else Done (Some (rep3 v, rep0 v, rep1 v, rep2 v), s));
  match r with
  | None =>
      let state' := if state v <? 7 then 9 else 11 in
      al ← ld8 m (edi v - rep0 v);
      m ← st8 m (edi v) al;
      Done (m, mkVars (edi v + 1) state' al (rep0 v) (rep1 v) (rep2 v) (rep3 v), s)
  | Some (r0, r1, r2, r3) =>
      let state' := if state v <? 7 then 8 else 11 in
      '(len, s) ← decode_len m s REP_L_ENCODER pos_state;
      let len := len +ₘ K_MATCH_MIN_LEN in
      copy_step m (mkVars (edi v) state' (prev v) r0 r1 r2 r3) s len
  end.

Definition lzma_body (limit : Z) (st : lzstate) : run (lzstate + list Z * dstate) :=
  let '(m, v, s) := st in
  if edi v <? limit then
    let pos_state := Z.land (u32 (edi v)) POS_STATE_MASK in
    let is_match := IS_MATCH + (state v <<ₘ K_NUM_POS_BITS_MAX) + pos_state in
    '(b, s) ← decode_bit m s is_match;
    if b =? 0 then r ← literal_step m v s; Done (inl r)
    else
      '(b, s) ← decode_bit m s (IS_REP + state v);
      if b =? 0 then
        r ← match_step m v pos_state s;
        match r with
        | inl r => Done (inl r)
        | inr s => Done (inr (m, s))
        end
      else r ← rep_step m v pos_state s; Done (inl r)
  else Done (inr (m, s)).

(** Every turn stores at least one byte: [dest_len + 1] turns are enough. *)
Definition lzma_unpack (m : list Z) (src0 dest dest_len : Z) (p : list Z) : run (list Z * list Z * Z) :=
  rd ← rd_init m src0;
  p ← loop (S (Z.to_nat PROB_SLOTS)) fill_body (p, 0);
  let limit := dest + dest_len in
  '(m, (rd, p)) ← loop (S (Z.to_nat dest_len)) (lzma_body limit) (m, mkVars dest 0 0 1 1 1 1, (rd, p));
  Done (m, p, src rd).

(** *** Call filters *)

Definition rotate_right16 (x : Z) : Z := Z.lor (Z.shiftr x 16) (x <<ₘ 16).

Definition fasm_load_rel32 (raw_le : Z) : Z :=
  let eax := Z.lor (Z.land raw_le 0xFFFF0000) (Z.shiftr (Z.land raw_le 0xFFFF) 8) in
  let eax := rotate_right16 eax in
  Z.lor (Z.lor (Z.land eax 0xFFFF0000) (Z.land eax 0xFF <<ₘ 8)) (Z.land (Z.shiftr eax 8) 0xFF).

Definition patch_rel32 (m : list Z) (esi dest : Z) : run (list Z * Z) :=
  raw ← ld32 m esi;
  let esi := esi + 4 in
  let eax := fasm_load_rel32 raw in
  let eax := eax -ₘ u32 esi in
  let eax := eax +ₘ u32 dest in
  let p := esi - 4 in
  m ← st8 m p (byte_of eax 0);
  m ← st8 m (p + 1) (byte_of eax 1);
  m ← st8 m (p + 2) (byte_of eax 2);
  m ← st8 m (p + 3) (byte_of eax 3);
  Done (m, esi).

(** The common tail of the loops: compare the next byte with [dl], patch, count. *)
Definition patch_if (dl dest : Z) (m : list Z) (esi left_ : Z) : run (list Z * Z * Z + list Z) :=
  c ← ld8 m esi;
  if negb (c =? dl) then Done (inl (m, esi, left_))
  else
    '(m, esi) ← patch_rel32 m esi dest;
    let left_ := left_ -ₘ 1 in
    if left_ =? 0 then Done (inr m) else Done (inl (m, esi, left_)).

Definition c1_body (dl dest : Z) (st : list Z * Z * Z) : run (list Z * Z * Z + list Z) :=
  let '(m, esi, left_) := st in
  al ← ld8 m esi;
  let esi := esi + 1 in
  let t := u8 (al - 0xE8) in
  if 1 <? t then Done (inl (m, esi, left_)) else patch_if dl dest m esi left_.

(** The scan is not bounded by the output length, only by [count] patches: it gets one
    turn per byte of memory. *)
Definition apply_e8_c1 (m : list Z) (src dest : Z) : run (list Z * Z) :=
  count ← ld32 m src;
  let src := src + 4 in
  if count =? 0 then Done (m, src)
  else
    dl ← ld8 m src;
    m ← loop (S (length m)) (c1_body dl dest) (m, dest, count);
    Done (m, src).

(** The inner loop on [0x0F] prefixes: [inl] on a two-byte Jcc, [inr al] otherwise. *)
Definition prefix_body (m : list Z) (st : Z * Z) : run (Z * Z + (Z + Z * Z)) :=
  let '(al, esi) := st in
  if negb (al =? 0x0F) then Done (inr (inr (al, esi)))
  else
    al ← ld8 m esi;
    let esi := esi + 1 in
    if al <? 0x80 then Done (inl (al, esi))
    else if al <? 0x90 then Done (inr (inl esi))
    else Done (inr (inr (al, esi))).

Definition ctr1_body (dl dest : Z) (st : list Z * Z * Z) : run (list Z * Z * Z + list Z) :=
  let '(m, esi, left_) := st in
  al ← ld8 m esi;
  let esi := esi + 1 in
  r ← loop (S (length m)) (prefix_body m) (al, esi);
  match r with
  | inl esi => patch_if dl dest m esi left_
  | inr (al, esi) =>
      let t := u8 (al - 0xE8) in
      if 1 <? t then Done (inl (m, esi, left_)) else patch_if dl dest m esi left_
  end.

Definition apply_e8_ctr1 (m : list Z) (src dest : Z) : run (list Z * Z) :=
  count ← ld32 m src;
  let src := src + 4 in
  if count =? 0 then Done (m, src)
  else
    dl ← ld8 m src;
    m ← loop (S (length m)) (ctr1_body dl dest) (m, dest, count);
    Done (m, src).

Definition unpack (m : list Z) (packed unpacked : Z) (p : list Z) : run (list Z * list Z) :=
  flags ← ld32 m (packed + 8);
  let fl := u8 flags in
  if Z.land fl 0xC0 =? 0xC0 then Done (m, p)
  else if negb (Z.land fl 0x3F =? 1) then Done (m, p)
  else
    dest_len ← ld32 m (packed + 4);
    '(m, p, src) ← lzma_unpack m (packed + 12) unpacked dest_len p;
    if negb (Z.land fl 0x80 =? 0) then '(m, _) ← apply_e8_ctr1 m src unpacked; Done (m, p)
    else if negb (Z.land fl 0x40 =? 0) then '(m, _) ← apply_e8_c1 m src unpacked; Done (m, p)
    else Done (m, p).

(** ** Specification *)

(** An LZ77 operation; a [Rep] names one of the four last distances. *)
Inductive op :=
| Lit (b : Z)
| Match (dist len : Z)
| ShortRep
| Rep (k len : Z).

(** What the operations act on: the output so far, the context state and the last
    four distances. *)
Record lz := mkLz { out : list Z; st : Z; d0 : Z; d1 : Z; d2 : Z; d3 : Z }.

Definition lz_init : lz := mkLz [] 0 1 1 1 1.

(** The byte [dist] back from the end. *)
Definition back (o : list Z) (dist : Z) : Z := byte_at o (mlen o - dist).

(** [n] bytes, each the one [dist] back: overlapping copies repeat. *)
Fixpoint lz_copy (o : list Z) (dist : Z) (n : nat) : list Z :=
  match n with
  | O => o
  | S n => lz_copy (o ++ [back o dist]) dist n
  end.

(** The distances after choosing the [k]-th: it moves to the front. *)
Definition front (x : lz) (k : Z) : Z * Z * Z * Z :=
  if k =? 0 then (d0 x, d1 x, d2 x, d3 x)
  else if k =? 1 then (d1 x, d0 x, d2 x, d3 x)
  else if k =? 2 then (d2 x, d0 x, d1 x, d3 x)
  else (d3 x, d0 x, d1 x, d2 x).

Definition after_literal (st : Z) : Z := if st <? 4 then 0 else if st <? 10 then st - 3 else st - 6.

Definition lz_step (x : lz) (o : op) : lz :=
  match o with
  | Lit b => mkLz (out x ++ [b]) (after_literal (st x)) (d0 x) (d1 x) (d2 x) (d3 x)
  | Match dist len =>
      mkLz (lz_copy (out x) dist (Z.to_nat len)) (if st x <? 7 then 7 else 10) dist (d0 x) (d1 x) (d2 x)
  | ShortRep => mkLz (lz_copy (out x) (d0 x) 1) (if st x <? 7 then 9 else 11) (d0 x) (d1 x) (d2 x) (d3 x)
  | Rep k len =>
      let '(a, b, c, d) := front x k in
      mkLz (lz_copy (out x) a (Z.to_nat len)) (if st x <? 7 then 8 else 11) a b c d
  end.

Definition lz_run (x : lz) (os : list op) : lz := fold_left lz_step os x.

(** Operations an encoder may use: lengths the length coder has, distances inside
    the output so far. *)
Definition op_ok (x : lz) (o : op) : Prop :=
  match o with
  | Lit b => is_byte b
  | Match dist len => 1 <= dist <= mlen (out x) /\ 2 <= len <= 273
  | ShortRep => 1 <= d0 x <= mlen (out x)
  | Rep k len => 0 <= k <= 3 /\ 1 <= (front x k).1.1.1 <= mlen (out x) /\ 2 <= len <= 273
  end.

Fixpoint ops_ok (x : lz) (os : list op) : Prop :=
  match os with [] => True | o :: os => op_ok x o /\ ops_ok (lz_step x o) os end.

(** *** The decisions of an encoder *)

Definition len_ds (enc pos_state v : Z) : list decision :=
  if v <? 8 then Ctx enc 0 :: tree_ds (enc + (2 + 8 * pos_state)) 1 (bits_msb 3 v)
  else if v <? 16 then Ctx enc 1 :: Ctx (enc + 1) 0 :: tree_ds (enc + (130 + 8 * pos_state)) 1 (bits_msb 3 (v - 8))
  else Ctx enc 1 :: Ctx (enc + 1) 1 :: tree_ds (enc + 258) 1 (bits_msb 8 (v - 16)).

(** A literal after a match follows the bits of the byte at the last distance as
    long as it agrees with them. *)
Fixpoint matched_ds (base symbol mb : Z) (l : list Z) : list decision :=
  match l with
  | [] => []
  | b :: l =>
      let mbit := mb / 128 in
      Ctx (base + (256 + 256 * mbit + symbol)) b ::
      if mbit =? b then matched_ds base (2 * symbol + b) (2 * mb mod 256) l
      else tree_ds base (2 * symbol + b) l
  end.

Definition last_byte (o : list Z) : Z := back o 1.

Definition literal_ds (x : lz) (b : Z) : list decision :=
  let base := LITERAL + last_byte (out x) / 32 * 768 in
  if st x <? 7 then tree_ds base 1 (bits_msb 8 b)
  else matched_ds base 1 (back (out x) (d0 x)) (bits_msb 8 b).

(** A distance less one, as a position slot and the bits below its two top bits. *)
Definition slot_of (d : Z) : Z :=
  if d <? 4 then d else 2 * Z.log2 d + d / 2 ^ (Z.log2 d - 1) mod 2.
Definition slot_base (slot : Z) : Z := (2 + slot mod 2) * 2 ^ (slot / 2 - 1).

Definition dist_ds (d : Z) : list decision :=
  let slot := slot_of d in
  let extra := d - slot_base slot in
  if slot <? 4 then []
  else if slot <? 14 then tree_ds (SPEC_POS + slot_base slot - slot) 1 (bits_lsb (Z.to_nat (slot / 2 - 1)) extra)
  else direct_ds (bits_msb (Z.to_nat (slot / 2 - 5)) (extra / 16)) ++ tree_ds ALIGN 1 (bits_lsb 4 (extra mod 16)).

(** All decisions of an operation for output address [a]. *)
Definition op_ds (a : Z) (x : lz) (o : op) : list decision :=
  let pos_state := a mod 4 in
  let is_match := 16 * st x + pos_state in
  match o with
  | Lit b => Ctx is_match 0 :: literal_ds x b
  | Match dist len =>
      Ctx is_match 1 :: Ctx (IS_REP + st x) 0 ::
      len_ds L_ENCODER pos_state (len - 2) ++
      tree_ds (POS_SLOT + 64 * Z.min (len - 2) 3) 1 (bits_msb 6 (slot_of (dist - 1))) ++
      dist_ds (dist - 1)
  | ShortRep =>
      [Ctx is_match 1; Ctx (IS_REP + st x) 1; Ctx (IS_REP_G0 + st x) 0;
       Ctx (IS_REP_0_LONG + 16 * st x + pos_state) 0]
  | Rep k len =>
      Ctx is_match 1 :: Ctx (IS_REP + st x) 1 ::
      (if k =? 0 then [Ctx (IS_REP_G0 + st x) 0; Ctx (IS_REP_0_LONG + 16 * st x + pos_state) 1]
       else if k =? 1 then [Ctx (IS_REP_G0 + st x) 1; Ctx (IS_REP_G1 + st x) 0]
       else if k =? 2 then [Ctx (IS_REP_G0 + st x) 1; Ctx (IS_REP_G1 + st x) 1; Ctx (IS_REP_G2 + st x) 0]
       else [Ctx (IS_REP_G0 + st x) 1; Ctx (IS_REP_G1 + st x) 1; Ctx (IS_REP_G2 + st x) 1]) ++
      len_ds REP_L_ENCODER pos_state (len - 2)
  end.

Fixpoint ops_ds (dest : Z) (x : lz) (os : list op) : list decision :=
  match os with
  | [] => []
  | o :: os => op_ds (dest + mlen (out x)) x o ++ ops_ds dest (lz_step x o) os
  end.

(** ** Literals *)

Lemma literal_loop m base l : forall symbol fuel, (length l < fuel)%nat -> are_bits l -> 1 <= symbol ->
  256 <= symbol * 2 ^ Z.of_nat (length l) -> (symbol + 1) * 2 ^ Z.of_nat (length l) <= 512 ->
  decodes m (tree_ds base symbol l) (fun s => loop fuel (literal_body m base) (symbol, s)) (walk symbol l).
Proof.
  induction l as [|b l IH]; intros symbol [|fuel] Hf Hl Hs Hlo Hhi s ds e H; cbn [length] in *; try lia.
  - change (2 ^ Z.of_nat 0) with 1 in *. exists s. cbn [loop literal_body].
    replace (symbol <? 256) with false by lia. by split.
  - apply Forall_cons in Hl as [Hbit Hl]. cbn [tree_ds app] in H.
    destruct (decodes_bit m (base + symbol) b s _ e H) as (s1 & E1 & H1).
    assert (2 ^ Z.of_nat (S (length l)) = 2 * 2 ^ Z.of_nat (length l)) as E2
      by (rewrite <- Z.pow_succ_r by lia; f_equal; lia).
    assert (1 <= 2 ^ Z.of_nat (length l)) by (apply (Z.pow_le_mono_r 2 0); lia).
    cbn [loop literal_body]. replace (symbol <? 256) with true by nia. rewrite E1. run_step.
    rewrite shl_lor_bit by (done || nia).
    apply (IH (2 * symbol + b) fuel); [lia|done|destruct Hbit; lia|destruct Hbit; nia|destruct Hbit; nia|exact H1].
Qed.

Lemma decodes_literal m base b : is_byte b ->
  decodes m (tree_ds base 1 (bits_msb 8 b)) (fun s => decode_literal m s base) b.
Proof.
  intros Hb s ds e H. unfold is_byte in Hb. destruct (bits_msb_ok 8 b) as (Hbits & Hlen & Hw); [cbn; lia|].
  destruct (literal_loop m base (bits_msb 8 b) 1 9) with (s := s) (ds := ds) (e := e) as (s' & E & H');
    [lia|done|lia|rewrite Hlen; cbn; lia|rewrite Hlen; cbn; lia|done|].
  exists s'. split; [|done]. unfold decode_literal. rewrite E. run_step. rewrite Hw.
  change (2 ^ Z.of_nat 8) with 256. do 2 f_equal. unfold wrap. change (2 ^ 8) with 256. Z.div_mod_to_equations. lia.
Qed.

(** The bits of the match byte, as the loop takes them. *)
Lemma top_bit mb : is_byte mb ->
  Z.land (Z.shiftr mb 7) 1 = mb / 128 /\ is_bit (mb / 128) /\ u8 (Z.shiftl mb 1) = 2 * mb mod 256 /\
  is_byte (2 * mb mod 256).
Proof.
  intros Hb. unfold is_byte in *. assert (0 <= mb / 128 <= 1) by (Z.div_mod_to_equations; lia). split_and!.
  - rewrite (land_mask _ 1), shr_eq by lia. apply wrap_small. change (2 ^ 7) with 128. lia.
  - unfold is_bit. lia.
  - rewrite Z.shiftl_mul_pow2 by lia. unfold wrap. change (2 ^ 8) with 256. f_equal. lia.
  - Z.div_mod_to_equations. lia.
  - Z.div_mod_to_equations. lia.
Qed.

Lemma low_bit symbol b : is_bit b -> Z.land (2 * symbol + b) 1 = b.
Proof.
  intros Hb. rewrite (land_mask _ 1) by lia. unfold wrap. change (2 ^ 1) with 2.
  destruct Hb as [->| ->]; Z.div_mod_to_equations; lia.
Qed.

Lemma matched_loop m base l : forall symbol mb fuel, l <> [] -> (length l <= 8)%nat -> (length l < fuel)%nat ->
  are_bits l -> 1 <= symbol -> is_byte mb ->
  256 <= symbol * 2 ^ Z.of_nat (length l) -> (symbol + 1) * 2 ^ Z.of_nat (length l) <= 512 ->
  decodes m (matched_ds base symbol mb l)
    (fun s => loop fuel (matched_body m base) (symbol, mb, s)) (u8 (walk symbol l)).
Proof.
  induction l as [|b l IH]; intros symbol mb [|fuel] Hne Hle Hf Hl Hs Hmb Hlo Hhi s ds e H; cbn [length] in *;
    try lia; [done|].
  apply Forall_cons in Hl as [Hbit Hl]. cbn [matched_ds app] in H.
  destruct (top_bit mb Hmb) as (Et & Htb & Em & Hmb').
  destruct (decodes_bit m _ b s _ e H) as (s1 & E1 & H1).
  assert (2 ^ Z.of_nat (S (length l)) = 2 * 2 ^ Z.of_nat (length l)) as E2
    by (rewrite <- Z.pow_succ_r by lia; f_equal; lia).
  assert (1 <= 2 ^ Z.of_nat (length l)) by (apply (Z.pow_le_mono_r 2 0); lia).
  rewrite loop_S. cbn [matched_body]. rewrite Et, Em.
  replace (256 + Z.shiftl (mb / 128) 8 + symbol) with (256 + 256 * (mb / 128) + symbol)
    by (rewrite Z.shiftl_mul_pow2 by lia; lia).
  rewrite E1. run_step. rewrite shl_lor_bit by (done || nia). rewrite low_bit by done.
  destruct l as [|b' l].
  - cbn [length] in *. change (2 ^ Z.of_nat 0) with 1 in *. replace (256 <=? 2 * symbol + b) with true by (destruct Hbit; lia).
    exists s1. split; [done|]. by destruct (mb / 128 =? b).
  - assert (2 <= 2 ^ Z.of_nat (length (b' :: l))) by (apply (Z.pow_le_mono_r 2 1); cbn [length]; lia).
    replace (256 <=? 2 * symbol + b) with false by (destruct Hbit; nia).
    destruct (mb / 128 =? b) eqn:Eb; cbn [negb].
    + apply (IH (2 * symbol + b)); [done|cbn in *; lia|cbn in *; lia|done|destruct Hbit; lia|done|
        destruct Hbit; nia|destruct Hbit; nia|exact H1].
    + destruct (literal_loop m base (b' :: l) (2 * symbol + b) 9) with (s := s1) (ds := ds) (e := e) as (s' & E & H');
        [lia|done|destruct Hbit; lia|destruct Hbit; nia|destruct Hbit; nia|exact H1|].
      rewrite E. run_step. by exists s'.
Qed.

Lemma decodes_literal_matched m base mb b : is_byte b -> is_byte mb ->
  decodes m (matched_ds base 1 mb (bits_msb 8 b)) (fun s => decode_literal_matched m s base mb) b.
Proof.
  intros Hb Hmb s ds e H. unfold is_byte in Hb. destruct (bits_msb_ok 8 b) as (Hbits & Hlen & Hw); [cbn; lia|].
  destruct (matched_loop m base (bits_msb 8 b) 1 mb 9) with (s := s) (ds := ds) (e := e) as (s' & E & H');
    [intros E; by rewrite E in Hlen|lia|lia|done|lia|done|rewrite Hlen; cbn; lia|rewrite Hlen; cbn; lia|done|].
  exists s'. split; [|done]. unfold decode_literal_matched. rewrite E, Hw. change (2 ^ Z.of_nat 8) with 256.
  do 2 f_equal. unfold wrap. change (2 ^ 8) with 256. Z.div_mod_to_equations. lia.
Qed.

(** ** Lengths and distances *)

Lemma shl_small x k : 0 <= x -> 0 <= k -> x * 2 ^ k < 2 ^ 32 -> x <<ₘ k = x * 2 ^ k.
Proof. apply shl_fold. Qed.

Lemma decodes_len m enc pos_state v : 0 <= pos_state < 4 -> 0 <= v < 272 ->
  decodes m (len_ds enc pos_state v) (fun s => decode_len m s enc pos_state) v.
Proof.
  intros Hp Hv s ds e H. unfold decode_len, len_ds, LEN_CHOICE, LEN_CHOICE2, LEN_HIGH, LEN_MID, LEN_LOW,
    K_LEN_NUM_LOW_SYMBOLS, K_LEN_NUM_MID_SYMBOLS, K_LEN_NUM_LOW_BITS, K_LEN_NUM_MID_BITS, K_LEN_NUM_HIGH_BITS in *.
  rewrite !shl_fold by lia. change (2 ^ 3) with 8. rewrite Z.add_0_r.
  change (Z.shiftl 1 3) with 8. change (Z.shiftl 16 3) with 128. rewrite (Z.mul_comm pos_state).
  destruct (v <? 8) eqn:E8; [|destruct (v <? 16) eqn:E16]; cbn [app] in H.
  - destruct (decodes_bit m enc 0 s _ e H) as (s1 & -> & H1). run_step.
    change (0 =? 0) with true. apply (decodes_tree m _ 3 v); [lia|cbn; lia|exact H1].
  - destruct (decodes_bit m enc 1 s _ e H) as (s1 & -> & H1). run_step. change (1 =? 0) with false.
    destruct (decodes_bit m (enc + 1) 0 s1 _ e H1) as (s2 & -> & H2). run_step. change (0 =? 0) with true.
    destruct (decodes_tree m (enc + (130 + 8 * pos_state)) 3 (v - 8) ltac:(lia) ltac:(cbn; lia) _ _ _ H2)
      as (s3 & E3 & H3). change (Z.of_nat 3) with 3 in E3. change (2 + 128) with 130. rewrite E3. run_step.
    exists s3. rewrite wrap_small by lia. split; [|done]. do 2 f_equal. lia.
  - destruct (decodes_bit m enc 1 s _ e H) as (s1 & -> & H1). run_step. change (1 =? 0) with false.
    destruct (decodes_bit m (enc + 1) 1 s1 _ e H1) as (s2 & -> & H2). run_step. change (1 =? 0) with false.
    destruct (decodes_tree m (enc + 258) 8 (v - 16) ltac:(lia) ltac:(cbn; lia) _ _ _ H2) as (s3 & E3 & H3).
    change (Z.of_nat 8) with 8 in E3. change (2 + 128 + 128) with 258. rewrite E3. run_step.
    exists s3. rewrite (wrap_small 32 (8 + 8)), wrap_small by lia. split; [|done]. do 2 f_equal. lia.
Qed.

(** The slot of a distance names its two top bits. *)
Lemma slot_facts d : 4 <= d < 2 ^ 32 ->
  let slot := slot_of d in
  4 <= slot < 64 /\ 0 <= d - slot_base slot < 2 ^ (slot / 2 - 1) /\ 0 <= slot_base slot < 2 ^ 32 /\ 1 <= slot / 2 - 1 <= 30.
Proof.
  intros Hd. cbn zeta. unfold slot_of. replace (d <? 4) with false by lia. set (k := Z.log2 d).
  destruct (Z.log2_spec d) as [Hlo Hhi]; [lia|]. fold k in Hlo, Hhi.
  assert (2 <= k) by (apply (Z.log2_le_mono 4); lia).
  assert (k <= 31) by (enough (k < 32) by lia; apply Z.log2_lt_pow2; lia).
  set (X := 2 ^ (k - 1)). assert (0 < X) by (apply Z.pow_pos_nonneg; lia).
  assert (2 ^ k = 2 * X) as Ek by (unfold X; rewrite <- Z.pow_succ_r by lia; f_equal; lia).
  rewrite Z.pow_succ_r, Ek in Hhi by lia. rewrite Ek in Hlo.
  assert (2 <= d / X < 4) by (split; [apply Z.div_le_lower_bound; lia|apply Z.div_lt_upper_bound; lia]).
  set (b := d / X mod 2). assert (d / X = 2 + b /\ 0 <= b <= 1) as [Eb Hb] by (unfold b; Z.div_mod_to_equations; lia).
  assert ((2 * k + b) / 2 = k) as -> by (Z.div_mod_to_equations; lia).
  unfold slot_base. assert ((2 * k + b) / 2 = k) as -> by (Z.div_mod_to_equations; lia).
  assert ((2 * k + b) mod 2 = b) as -> by (Z.div_mod_to_equations; lia). fold X. rewrite <- Eb.
  assert (2 ^ (k - 1) <= 2 ^ 30) by (apply Z.pow_le_mono_r; lia). fold X in H2.
  pose proof (Z.div_mod d X ltac:(lia)). pose proof (Z.mod_pos_bound d X ltac:(lia)).
  split_and!; lia || nia.
Qed.

Lemma lor2_bit b : 0 <= b <= 1 -> Z.lor 2 b = 2 + b.
Proof. intros. assert (b = 0 \/ b = 1) as [->| ->] by lia; done. Qed.

Lemma decodes_distance m d : 0 <= d < 2 ^ 32 ->
  decodes m (dist_ds d) (fun s => decode_distance m s (slot_of d)) d.
Proof.
  intros Hd s ds e H. unfold decode_distance, dist_ds, K_START_POS_MODEL_INDEX, K_END_POS_MODEL_INDEX,
    K_NUM_ALIGN_BITS in *.
  destruct (d <? 4) eqn:E4.
  - assert (slot_of d = d) as Es by (unfold slot_of; by rewrite E4). rewrite Es in *. rewrite E4 in H.
    replace (4 <=? d) with false by lia. by exists s.
  - destruct (slot_facts d ltac:(lia)) as (Hs & Hx & Hb & Hn). cbn zeta in *.
    set (slot := slot_of d) in *. set (x := d - slot_base slot) in *.
    replace (slot <? 4) with false in H by lia. replace (4 <=? slot) with true by lia.
    assert (Z.lor 2 (Z.land slot 1) <<ₘ (Z.shiftr slot 1 - 1) = slot_base slot) as ->.
    { rewrite (land_mask slot 1), shr_eq by lia. unfold wrap at 2. change (2 ^ 1) with 2.
      rewrite lor2_bit by (Z.div_mod_to_equations; lia). unfold slot_base in *.
      apply shl_fold; [Z.div_mod_to_equations; lia|lia|lia]. }
    rewrite shr_eq by lia. change (2 ^ 1) with 2. destruct (slot <? 14) eqn:E14.
    + set (n := Z.to_nat (slot / 2 - 1)) in *. assert (slot / 2 - 1 = Z.of_nat n) as En by lia. rewrite En in *.
      assert (n <= 8)%nat by (assert (slot / 2 < 7) by (apply Z.div_lt_upper_bound; lia); lia).
      destruct (decodes_rev_tree m (SPEC_POS + slot_base slot - slot) n x ltac:(lia) Hx _ _ _ H) as (s1 & -> & H1).
      run_step. exists s1. rewrite wrap_small by lia. split; [|done]. do 2 f_equal. lia.
    + rewrite <- app_assoc in H. set (n := Z.to_nat (slot / 2 - 5)) in *.
      assert (6 < slot / 2) by (enough (7 <= slot / 2) by lia; apply Z.div_le_lower_bound; lia).
      assert (slot / 2 - 1 - 4 = Z.of_nat n) as En by lia. rewrite En.
      assert (2 ^ (slot / 2 - 1) = 16 * 2 ^ Z.of_nat n) as Ep.
      { replace (slot / 2 - 1) with (4 + Z.of_nat n) by lia. rewrite Z.pow_add_r by lia. lia. }
      assert (0 <= x / 16 < 2 ^ Z.of_nat n) as Hx16
        by (split; [apply Z.div_pos; lia|apply Z.div_lt_upper_bound; lia]).
      destruct (decodes_direct m n (x / 16) ltac:(lia) Hx16 _ _ _ H) as (s1 & -> & H1). run_step.
      destruct (decodes_rev_tree m ALIGN 4 (x mod 16) ltac:(lia) ltac:(cbn; Z.div_mod_to_equations; lia) _ _ _ H1)
        as (s2 & E2 & H2). change (Z.of_nat 4) with 4 in E2. rewrite E2. run_step. exists s2. split; [|done].
      assert (16 * (x / 16) <= x) by (Z.div_mod_to_equations; lia).
      assert (2 ^ (slot / 2 - 1) <= 2 ^ 30) by (apply Z.pow_le_mono_r; lia).
      rewrite (shl_fold (x / 16) 4) by lia. change (2 ^ 4) with 16.
      rewrite (wrap_small 32 (slot_base slot + _)) by lia.
      assert (slot_base slot + x / 16 * 16 + x mod 16 = d) as -> by (Z.div_mod_to_equations; lia).
      by rewrite wrap_small.
Qed.

(** ** One operation *)

(** The output [o] is in memory at [dest]; all the rest of [m0] is untouched. *)
Definition placed (m0 m : list Z) (dest : Z) (o : list Z) : Prop := updated m0 m dest (mlen o) (byte_at o).

Lemma placed_snoc m0 m dest o b : placed m0 m dest o -> 0 <= dest -> dest + mlen o < mlen m0 ->
  exists m', st8 m (dest + mlen o) b = Done m' /\ placed m0 m' dest (o ++ [b]).
Proof.
  intros Hp Hd Hfit. pose proof (mlen_nonneg o). pose proof Hp as [Hl _].
  destruct (updated_st8 m m (dest + mlen o) 0 (byte_at [b]) b) as (m' & E & Hu);
    [lia|lia|lia|apply updated_refl|done|].
  rewrite Z.add_0_r in E. exists m'. split; [done|]. unfold placed. by eapply updated_app.
Qed.

Lemma placed_bytes m0 m dest o : placed m0 m dest o -> bytes m0 -> bytes o -> bytes m.
Proof. intros Hp Hm Ho. eapply bytes_updated; [exact Hm|exact Hp|]. intros. by apply byte_at_range. Qed.

Lemma placed_back m0 m dest o dist : placed m0 m dest o -> 0 <= dest -> dest + mlen o <= mlen m0 ->
  1 <= dist <= mlen o -> ld8 m (dest + mlen o - dist) = Done (back o dist).
Proof.
  intros [Hl Hb] Hd Hfit Hdist. rewrite ld8_ok by lia. rewrite Hb.
  replace ((dest <=? dest + mlen o - dist) && (dest + mlen o - dist <? dest + mlen o)) with true by lia.
  unfold back. do 2 f_equal. lia.
Qed.

Lemma mlen_snoc o (b : Z) : mlen (o ++ [b]) = mlen o + 1.
Proof. rewrite mlen_app. done. Qed.

Lemma mlen_lz_copy n : forall o dist, mlen (lz_copy o dist n) = mlen o + Z.of_nat n.
Proof. induction n as [|n IH]; intros o dist; cbn [lz_copy]; [lia|]. rewrite IH, mlen_snoc. lia. Qed.

Lemma bytes_lz_copy n : forall o dist, bytes o -> bytes (lz_copy o dist n).
Proof.
  induction n as [|n IH]; intros o dist Ho; cbn [lz_copy]; [done|]. apply IH. apply Forall_app. split; [done|].
  apply Forall_singleton. by apply byte_at_range.
Qed.

Lemma copy_match_ok m0 dest dist n : forall m o, placed m0 m dest o -> 0 <= dest ->
  1 <= dist <= mlen o -> dest + mlen o + Z.of_nat n <= mlen m0 -> Z.of_nat n < 2 ^ 32 ->
  exists m', copy_match m (dest + mlen o) dist (Z.of_nat n) = Done m' /\ placed m0 m' dest (lz_copy o dist n).
Proof.
  intros m o Hp Hd Hdist Hfit Hn. unfold copy_match. rewrite Nat2Z.id.
  revert m o Hp Hdist Hfit. induction n as [|n IH]; intros m o Hp Hdist Hfit.
  - exists m. by split.
  - rewrite loop_S. cbn [copy_body]. rewrite of_nat_S_eqb.
    rewrite (placed_back m0 m dest o dist) by (done || lia). run_step.
    destruct (placed_snoc m0 m dest o (back o dist) Hp) as (m1 & -> & Hp1); [lia|lia|]. run_step.
    rewrite of_nat_S_pred by lia.
    replace (dest + mlen o - dist + 1) with (dest + mlen (o ++ [back o dist]) - dist) by (rewrite mlen_snoc; lia).
    replace (dest + mlen o + 1) with (dest + mlen (o ++ [back o dist])) by (rewrite mlen_snoc; lia).
    apply IH; [lia|done|rewrite mlen_snoc; lia|rewrite mlen_snoc; lia].
Qed.

(** What every reachable state satisfies. *)
Definition lz_wf (x : lz) : Prop :=
  0 <= st x < 12 /\ bytes (out x) /\ (7 <= st x -> 1 <= d0 x <= mlen (out x)).

Lemma lz_step_wf x o : lz_wf x -> op_ok x o -> lz_wf (lz_step x o) /\ mlen (out x) < mlen (out (lz_step x o)).
Proof.
  intros (Hst & Hb & Hd) Ho. destruct o as [b|dist len| |k len]; cbn [lz_step op_ok] in *.
  - unfold lz_wf. cbn. rewrite mlen_snoc. split; [|lia]. split_and!; unfold after_literal; repeat case_match; try lia.
    all: apply Forall_app; split; [done|by apply Forall_singleton].
  - unfold lz_wf. cbn. rewrite mlen_lz_copy. split; [|lia].
    split_and!; try lia; [case_match; lia|case_match; lia|by apply bytes_lz_copy].
  - unfold lz_wf. cbn [out st d0]. rewrite mlen_lz_copy. split; [|lia].
    split_and!; try lia; [case_match; lia|case_match; lia|by apply bytes_lz_copy].
  - destruct (front x k) as [[[a b] c] d]. cbn [fst] in Ho. unfold lz_wf. cbn [out st d0]. rewrite mlen_lz_copy. split; [|lia].
    split_and!; try lia; [case_match; lia|case_match; lia|by apply bytes_lz_copy].
Qed.

(** The local variables that go with a specification state. *)
Definition vars_of (dest : Z) (x : lz) : vars :=
  mkVars (dest + mlen (out x)) (st x) (last_byte (out x)) (d0 x) (d1 x) (d2 x) (d3 x).

Section Decode.
Context (m0 : list Z) (dest dest_len : Z) (w : Z * Z).
Hypothesis Hm0 : bytes m0.
Hypothesis Hdest : 0 <= dest.
Hypothesis Hfit : dest + dest_len <= mlen m0.
Hypothesis Hsize : mlen m0 < 2 ^ 32.
(** The packed stream and the output do not overlap. *)
Hypothesis Hapart : dest + dest_len <= w.1 \/ w.2 <= dest.

Lemma synced_placed m m' s ds o : synced m s ds w -> placed m0 m dest o -> bytes o ->
  forall o', placed m0 m' dest o' -> bytes o' -> mlen o <= dest_len -> mlen o' <= dest_len -> synced m' s ds w.
Proof.
  intros Hs Hp Ho o' Hp' Ho' Hl Hl'. pose proof Hp as [L1 B1]. pose proof Hp' as [L2 B2].
  apply (synced_frame m m'); [done|by eapply placed_bytes|congruence|]. intros i Hi. rewrite B1, B2.
  by repeat match goal with |- context [if ?c then _ else _] => replace c with false by lia end.
Qed.

Lemma last_snoc o b : last_byte (o ++ [b]) = b.
Proof.
  unfold last_byte, back. rewrite mlen_snoc, byte_at_app by (pose proof (mlen_nonneg o); lia).
  replace (mlen o + 1 - 1 <? mlen o) with false by lia. replace (mlen o + 1 - 1 - mlen o) with 0 by lia. done.
Qed.

Lemma literal_step_ok x b m s ds : lz_wf x -> is_byte b -> placed m0 m dest (out x) -> mlen (out x) < dest_len ->
  synced m s (literal_ds x b ++ ds) w ->
  exists m' s', literal_step m (vars_of dest x) s = Done (m', vars_of dest (lz_step x (Lit b)), s') /\
    placed m0 m' dest (out x ++ [b]) /\ synced m' s' ds w.
Proof.
  intros (Hst & Hbo & Hd) Hb Hp Hl Hs. unfold literal_step, vars_of. cbn [prev state edi rep0 rep1 rep2 rep3].
  pose proof (byte_at_range (out x) (mlen (out x) - 1) Hbo) as Hlast. fold (back (out x) 1) in Hlast.
  fold (last_byte (out x)) in Hlast. unfold is_byte in Hlast. unfold literal_ds in Hs.
  assert (Z.shiftr (last_byte (out x)) (8 - LC) *ₘ LZMA_LIT_SIZE = last_byte (out x) / 32 * 768) as ->.
  { unfold LC, LZMA_LIT_SIZE. rewrite shr_eq by lia. change (2 ^ (8 - 3)) with 32. apply wrap_small.
    Z.div_mod_to_equations. lia. }
  set (base := LITERAL + last_byte (out x) / 32 * 768) in *.
  assert (exists s1, (if st x <? K_NUM_LIT_STATES then decode_literal m s base
      else match_b ← ld8 m (dest + mlen (out x) - d0 x); decode_literal_matched m s base match_b) = Done (b, s1) /\
      synced m s1 ds w) as (s1 & -> & H1).
  { unfold K_NUM_LIT_STATES. destruct (st x <? 7) eqn:E.
    - by apply (decodes_literal m base b Hb s ds w).
    - rewrite (placed_back m0 m dest _ (d0 x)) by (done || lia). run_step.
      apply (decodes_literal_matched m base (back (out x) (d0 x)) b Hb); [|done]. by apply byte_at_range. }
  run_step. destruct (placed_snoc m0 m dest (out x) b Hp) as (m1 & -> & Hp1); [lia|lia|]. run_step.
  exists m1, s1. split_and!; [|done|].
  - cbn [lz_step out st d0 d1 d2 d3]. rewrite mlen_snoc, last_snoc. do 3 f_equal. f_equal; [lia|].
    unfold after_literal. repeat case_match; try done; rewrite wrap_small; lia.
  - eapply (synced_placed m m1 s1 ds (out x)); try done; [|lia|rewrite mlen_snoc; lia].
    apply Forall_app. split; [done|by apply Forall_singleton].
Qed.

(** The end of every match: copy, advance, remember the last byte. *)
Lemma copy_step_ok x a b c d st' pv len m s ds : lz_wf x -> placed m0 m dest (out x) ->
  1 <= a <= mlen (out x) -> 1 <= len < 2 ^ 32 -> mlen (out x) + len <= dest_len -> synced m s ds w ->
  let x' := mkLz (lz_copy (out x) a (Z.to_nat len)) st' a b c d in
  exists m', copy_step m (mkVars (dest + mlen (out x)) st' pv a b c d) s len = Done (m', vars_of dest x', s) /\
    placed m0 m' dest (out x') /\ synced m' s ds w.
Proof.
  intros (_ & Hbo & _) Hp Ha Hlen Hl Hs x'. unfold copy_step. cbn [prev state edi rep0 rep1 rep2 rep3].
  destruct (copy_match_ok m0 dest a (Z.to_nat len) m (out x) Hp Hdest Ha) as (m1 & E & Hp1); [lia|lia|].
  rewrite Z2Nat.id in E by lia. rewrite E. run_step.
  assert (mlen (out x') = mlen (out x) + len) as Hl' by (cbn [out x']; rewrite mlen_lz_copy; lia).
  replace (dest + mlen (out x) + len - 1) with (dest + mlen (out x') - 1) by lia.
  rewrite (placed_back m0 m1 dest (out x') 1) by (done || (pose proof (mlen_nonneg (out x)); lia)). run_step.
  exists m1. split_and!; [|done|].
  - unfold vars_of. fold (last_byte (out x')). rewrite Hl'. do 3 f_equal. cbn [st d0 d1 d2 d3 x']. f_equal. lia.
  - apply (synced_placed m m1 s ds (out x) Hs Hp Hbo (out x') Hp1); [by apply bytes_lz_copy|lia|rewrite Hl'; lia].
Qed.

Lemma match_step_ok x dist len pos_state m s ds : lz_wf x -> op_ok x (Match dist len) -> 0 <= pos_state < 4 ->
  placed m0 m dest (out x) -> mlen (out (lz_step x (Match dist len))) <= dest_len ->
  synced m s ((len_ds L_ENCODER pos_state (len - 2) ++
      tree_ds (POS_SLOT + 64 * Z.min (len - 2) 3) 1 (bits_msb 6 (slot_of (dist - 1))) ++ dist_ds (dist - 1)) ++ ds) w ->
  exists m' s', match_step m (vars_of dest x) pos_state s =
      Done (inl (m', vars_of dest (lz_step x (Match dist len)), s')) /\
    placed m0 m' dest (out (lz_step x (Match dist len))) /\ synced m' s' ds w.
Proof.
  intros Hwf [Hdist Hlen] Hps Hp Hl Hs. unfold match_step. cbn [vars_of prev state edi rep0 rep1 rep2 rep3].
  pose proof Hwf as (Hst & _ & _). rewrite <- !app_assoc in Hs.
  assert (0 <= dist - 1 < 2 ^ 32) as Hd by (cbn in Hl; rewrite mlen_lz_copy in Hl; lia).
  assert (0 <= slot_of (dist - 1) < 2 ^ 6) as Hslot.
  { destruct (decide (dist - 1 < 4)) as [E|E]; [|destruct (slot_facts (dist - 1)); lia].
    unfold slot_of. replace (dist - 1 <? 4) with true by lia. lia. }
  destruct (decodes_len m L_ENCODER pos_state (len - 2) Hps ltac:(lia) s _ w Hs) as (s1 & -> & H1). run_step.
  unfold K_NUM_LEN_TO_POS_STATES, K_NUM_POS_SLOT_BITS.
  assert ((if len - 2 <? 4 - 1 then len - 2 else 4 - 1) <<ₘ 6 = 64 * Z.min (len - 2) 3) as ->.
  { destruct (len - 2 <? 4 - 1) eqn:E; rewrite shl_fold; lia. }
  destruct (decodes_tree m _ 6 (slot_of (dist - 1)) ltac:(lia) Hslot s1 _ w H1) as (s2 & E2 & H2).
  change (Z.of_nat 6) with 6 in E2. rewrite E2. run_step.
  destruct (decodes_distance m (dist - 1) Hd s2 _ w H2) as (s3 & -> & H3). run_step.
  rewrite (wrap_small 32 (dist - 1 + 1)) by (cbn in Hl; rewrite mlen_lz_copy in Hl; lia).
  replace (dist - 1 + 1) with dist by lia. replace (dist =? 0) with false by lia.
  unfold K_MATCH_MIN_LEN. rewrite wrap_small by lia. replace (len - 2 + 2) with len by lia.
  cbn [lz_step out] in Hl |- *. rewrite mlen_lz_copy in Hl.
  destruct (copy_step_ok x dist (d0 x) (d1 x) (d2 x) (if st x <? 7 then 7 else 10) (last_byte (out x)) len m s3 ds Hwf Hp)
    as (m' & -> & Hp' & H'); [lia|lia|lia|done|].
  run_step. exists m', s3. by split_and!.
Qed.

Lemma front_step (x : lz) k m s ds : 0 <= k <= 3 -> 0 <= st x < 12 -> forall pos_state, 0 <= pos_state < 4 ->
  synced m s ((if k =? 0 then [Ctx (IS_REP_G0 + st x) 0; Ctx (IS_REP_0_LONG + 16 * st x + pos_state) 1]
       else if k =? 1 then [Ctx (IS_REP_G0 + st x) 1; Ctx (IS_REP_G1 + st x) 0]
       else if k =? 2 then [Ctx (IS_REP_G0 + st x) 1; Ctx (IS_REP_G1 + st x) 1; Ctx (IS_REP_G2 + st x) 0]
       else [Ctx (IS_REP_G0 + st x) 1; Ctx (IS_REP_G1 + st x) 1; Ctx (IS_REP_G2 + st x) 1]) ++ ds) w ->
  exists s', synced m s' ds w /\ forall B (K : option (Z * Z * Z * Z) -> dstate -> run B),
    ('(g0, s) ← decode_bit m s (IS_REP_G0 + st x);
     '(r, s) ←
      (if g0 =? 0 then
         '(long, s) ← decode_bit m s (IS_REP_0_LONG + (st x <<ₘ K_NUM_POS_BITS_MAX) + pos_state);
         if long =? 0 then Done (None, s) else Done (Some (d0 x, d1 x, d2 x, d3 x), s)
       else
         '(g1, s) ← decode_bit m s (IS_REP_G1 + st x);
         if g1 =? 0 then Done (Some (d1 x, d0 x, d2 x, d3 x), s)
         else
           '(g2, s) ← decode_bit m s (IS_REP_G2 + st x);
           if g2 =? 0 then Done (Some (d2 x, d0 x, d1 x, d3 x), s)
           else Done (Some (d3 x, d0 x, d1 x, d2 x), s));
     K r s) = K (Some (front x k)) s'.
Proof.
  intros Hk Hst ps Hps Hs. unfold K_NUM_POS_BITS_MAX. rewrite shl_fold by lia. change (2 ^ 4) with 16.
  rewrite (Z.mul_comm (st x)). unfold front.
  assert (k = 0 \/ k = 1 \/ k = 2 \/ k = 3) as Hk' by lia.
  destruct Hk' as [->|[->|[->| ->]]]; cbn [Z.eqb Pos.eqb app] in Hs |- *;
    destruct (decodes_bit m _ _ s _ w Hs) as (s1 & -> & H1); run_step; cbn [Z.eqb];
    destruct (decodes_bit m _ _ s1 _ w H1) as (s2 & -> & H2); run_step; cbn [Z.eqb];
    try (destruct (decodes_bit m _ _ s2 _ w H2) as (s3 & -> & H3); run_step; cbn [Z.eqb]); by eexists.
Qed.

Lemma rep_step_ok x k len pos_state m s ds : lz_wf x -> op_ok x (Rep k len) -> 0 <= pos_state < 4 ->
  placed m0 m dest (out x) -> mlen (out (lz_step x (Rep k len))) <= dest_len ->
  synced m s (((if k =? 0 then [Ctx (IS_REP_G0 + st x) 0; Ctx (IS_REP_0_LONG + 16 * st x + pos_state) 1]
       else if k =? 1 then [Ctx (IS_REP_G0 + st x) 1; Ctx (IS_REP_G1 + st x) 0]
       else if k =? 2 then [Ctx (IS_REP_G0 + st x) 1; Ctx (IS_REP_G1 + st x) 1; Ctx (IS_REP_G2 + st x) 0]
       else [Ctx (IS_REP_G0 + st x) 1; Ctx (IS_REP_G1 + st x) 1; Ctx (IS_REP_G2 + st x) 1]) ++
      len_ds REP_L_ENCODER pos_state (len - 2)) ++ ds) w ->
  exists m' s', rep_step m (vars_of dest x) pos_state s = Done (m', vars_of dest (lz_step x (Rep k len)), s') /\
    placed m0 m' dest (out (lz_step x (Rep k len))) /\ synced m' s' ds w.
Proof.
  intros Hwf (Hk & Hdist & Hlen) Hps Hp Hl Hs. pose proof Hwf as (Hst & _ & _). rewrite <- app_assoc in Hs.
  destruct (front_step x k m s _ Hk Hst pos_state Hps Hs) as (s1 & H1 & HK).
  unfold rep_step. cbn [vars_of prev state edi rep0 rep1 rep2 rep3]. rewrite HK. clear HK.
  cbn [lz_step] in *. destruct (front x k) as [[[a b] c] d]. cbn [fst out] in *.
  destruct (decodes_len m REP_L_ENCODER pos_state (len - 2) Hps ltac:(lia) s1 _ w H1) as (s2 & -> & H2). run_step.
  unfold K_MATCH_MIN_LEN. rewrite wrap_small by lia. replace (len - 2 + 2) with len by lia.
  rewrite mlen_lz_copy in Hl.
  destruct (copy_step_ok x a b c d (if st x <? 7 then 8 else 11) (last_byte (out x)) len m s2 ds Hwf Hp)
    as (m' & -> & Hp' & H'); [lia|lia|lia|done|].
  exists m', s2. by split_and!.
Qed.

Lemma short_rep_ok x pos_state m s ds : lz_wf x -> op_ok x ShortRep -> 0 <= pos_state < 4 ->
  placed m0 m dest (out x) -> mlen (out x) < dest_len ->
  synced m s ([Ctx (IS_REP_G0 + st x) 0; Ctx (IS_REP_0_LONG + 16 * st x + pos_state) 0] ++ ds) w ->
  exists m' s', rep_step m (vars_of dest x) pos_state s = Done (m', vars_of dest (lz_step x ShortRep), s') /\
    placed m0 m' dest (out (lz_step x ShortRep)) /\ synced m' s' ds w.
Proof.
  intros (Hst & Hbo & _) Hd Hps Hp Hl Hs. unfold rep_step. cbn [vars_of prev state edi rep0 rep1 rep2 rep3].
  unfold K_NUM_POS_BITS_MAX. rewrite shl_fold by lia. change (2 ^ 4) with 16. rewrite (Z.mul_comm (st x)).
  cbn [app] in Hs. destruct (decodes_bit m _ _ s _ w Hs) as (s1 & -> & H1). run_step. cbn [Z.eqb].
  destruct (decodes_bit m _ _ s1 _ w H1) as (s2 & -> & H2). run_step. cbn [Z.eqb].
  cbn [op_ok lz_step lz_copy out] in *. rewrite (placed_back m0 m dest (out x) (d0 x)) by (done || lia). run_step.
  destruct (placed_snoc m0 m dest (out x) (back (out x) (d0 x)) Hp) as (m1 & -> & Hp1); [lia|lia|]. run_step.
  exists m1, s2. split_and!; [|done|].
  - unfold vars_of. cbn [out st d0 d1 d2 d3]. rewrite mlen_snoc, last_snoc. do 3 f_equal. f_equal. lia.
  - apply (synced_placed m m1 s2 ds (out x) H2 Hp Hbo (out x ++ [back (out x) (d0 x)]) Hp1); [|lia|rewrite mlen_snoc; lia].
    apply Forall_app. split; [done|]. apply Forall_singleton. by apply byte_at_range.
Qed.

(** A turn of the main loop decodes one operation. *)
Lemma lzma_body_ok x o m s ds : lz_wf x -> op_ok x o -> placed m0 m dest (out x) ->
  mlen (out (lz_step x o)) <= dest_len -> synced m s (op_ds (dest + mlen (out x)) x o ++ ds) w ->
  exists m' s', lzma_body (dest + dest_len) (m, vars_of dest x, s) = Done (inl (m', vars_of dest (lz_step x o), s')) /\
    placed m0 m' dest (out (lz_step x o)) /\ synced m' s' ds w.
Proof.
  intros Hwf Ho Hp Hl Hs. destruct (lz_step_wf x o Hwf Ho) as [_ Hgrow]. pose proof Hwf as (Hst & _ & _).
  pose proof (mlen_nonneg (out x)). cbn [lzma_body edi state vars_of].
  replace (dest + mlen (out x) <? dest + dest_len) with true by lia.
  assert (Z.land (u32 (dest + mlen (out x))) POS_STATE_MASK = (dest + mlen (out x)) mod 4) as ->.
  { change POS_STATE_MASK with (2 ^ 2 - 1). by rewrite (wrap_small 32), land_ones_wrap by lia. }
  set (ps := (dest + mlen (out x)) mod 4) in *. assert (0 <= ps < 4) as Hps by (apply Z.mod_pos_bound; lia).
  unfold K_NUM_POS_BITS_MAX, IS_MATCH. rewrite shl_fold by lia. change (2 ^ 4) with 16.
  rewrite Z.add_0_l, (Z.mul_comm (st x)). unfold op_ds in Hs. fold ps in Hs.
  destruct o as [b|dist len| |k len]; cbn [app] in Hs;
    destruct (decodes_bit m _ _ s _ w Hs) as (s1 & -> & H1); run_step; cbn [Z.eqb].
  - fold (vars_of dest x). destruct (literal_step_ok x b m s1 ds) as (m' & s' & -> & ?); try done; [lia|].
    run_step. by exists m', s'.
  - destruct (decodes_bit m _ _ s1 _ w H1) as (s2 & -> & H2); run_step; cbn [Z.eqb]. fold (vars_of dest x).
    destruct (match_step_ok x dist len ps m s2 ds) as (m' & s' & -> & ?); try done. run_step. by exists m', s'.
  - destruct (decodes_bit m _ _ s1 _ w H1) as (s2 & -> & H2); run_step; cbn [Z.eqb]. fold (vars_of dest x).
    destruct (short_rep_ok x ps m s2 ds) as (m' & s' & -> & ?); try done; [lia|]. run_step. by exists m', s'.
  - destruct (decodes_bit m _ _ s1 _ w H1) as (s2 & -> & H2); run_step; cbn [Z.eqb]. fold (vars_of dest x).
    destruct (rep_step_ok x k len ps m s2 ds) as (m' & s' & -> & ?); try done. run_step. by exists m', s'.
Qed.

Lemma mlen_run os : forall x, lz_wf x -> ops_ok x os -> mlen (out x) <= mlen (out (lz_run x os)).
Proof.
  induction os as [|o os IH]; intros x Hx Hok; [cbn; lia|]. destruct Hok as [Ho Hos].
  destruct (lz_step_wf x o Hx Ho) as [Hx' Hlt]. specialize (IH _ Hx' Hos). cbn [lz_run fold_left]. unfold lz_run in IH. lia.
Qed.

(** The main loop decodes a list of operations that fills the output exactly. *)
Lemma lzma_loop os : forall x m s fuel, lz_wf x -> ops_ok x os -> placed m0 m dest (out x) ->
  mlen (out (lz_run x os)) = dest_len -> synced m s (ops_ds dest x os) w ->
  dest_len - mlen (out x) < Z.of_nat fuel ->
  exists m' s', loop fuel (lzma_body (dest + dest_len)) (m, vars_of dest x, s) = Done (m', s') /\
    placed m0 m' dest (out (lz_run x os)) /\ synced m' s' [] w.
Proof.
  induction os as [|o os IH]; intros x m s fuel Hx Hok Hp Hlen Hs Hf.
  - cbn in Hlen. destruct fuel as [|fuel]; [lia|]. rewrite loop_S. cbn [lzma_body edi vars_of].
    replace (dest + mlen (out x) <? dest + dest_len) with false by lia. run_step. by exists m, s.
  - destruct Hok as [Ho Hos]. destruct (lz_step_wf x o Hx Ho) as [Hx' Hlt]. cbn [ops_ds] in Hs.
    pose proof (mlen_run os _ Hx' Hos) as Hmono. cbn [lz_run fold_left] in Hlen |- *. unfold lz_run in Hmono.
    destruct (lzma_body_ok x o m s (ops_ds dest (lz_step x o) os) Hx Ho Hp) as (m1 & s1 & E & Hp1 & H1); [lia|done|].
    destruct fuel as [|fuel]; [lia|]. rewrite loop_S, E. run_step.
    apply (IH (lz_step x o) m1 s1 fuel); try done. lia.
Qed.
End Decode.

(** ** The probability table is large enough *)

Lemma tree_ds_ok slots base l : forall symbol, are_bits l -> 1 <= symbol -> 0 <= base ->
  (forall k, length l = S k -> base + (symbol + 1) * 2 ^ Z.of_nat k <= slots) ->
  Forall (decision_ok slots) (tree_ds base symbol l).
Proof.
  induction l as [|b l IH]; intros symbol Hl Hs Hb Hfit; [by constructor|].
  apply Forall_cons in Hl as [Hbit Hl]. specialize (Hfit (length l) eq_refl) as Hf.
  assert (1 <= 2 ^ Z.of_nat (length l)) by (apply (Z.pow_le_mono_r 2 0); lia).
  cbn [tree_ds]. apply Forall_cons. split; [split; [nia|done]|].
  apply IH; [done|destruct Hbit; lia|done|]. intros k Hk. rewrite Hk in Hf.
  replace (Z.of_nat (S k)) with (Z.of_nat k + 1) in Hf by lia. rewrite Z.pow_add_r in Hf by lia.
  assert (0 <= 2 ^ Z.of_nat k) by (apply Z.pow_nonneg; lia). destruct Hbit as [->| ->]; nia.
Qed.

Lemma tree_ok slots base n l : are_bits l -> length l = n -> 0 <= base -> (1 <= n)%nat ->
  base + 2 ^ Z.of_nat n <= slots -> Forall (decision_ok slots) (tree_ds base 1 l).
Proof.
  intros Hl Hlen Hb Hn Hfit. apply tree_ds_ok; [done|lia|done|]. intros k Hk. rewrite Hlen in Hk. rewrite Hk in Hfit.
  replace (Z.of_nat (S k)) with (Z.of_nat k + 1) in Hfit by lia. rewrite Z.pow_add_r in Hfit by lia. lia.
Qed.

Lemma matched_ds_ok slots base l : forall symbol mb, are_bits l -> 1 <= symbol -> 0 <= base -> is_byte mb ->
  (symbol + 1) * 2 ^ Z.of_nat (length l) <= 512 -> base + 768 <= slots ->
  Forall (decision_ok slots) (matched_ds base symbol mb l).
Proof.
  induction l as [|b l IH]; intros symbol mb Hl Hs Hb Hmb Hsym Hfit; [by constructor|].
  apply Forall_cons in Hl as [Hbit Hl]. destruct (top_bit mb Hmb) as (_ & Htb & _ & Hmb').
  cbn [length] in Hsym. assert (2 ^ Z.of_nat (S (length l)) = 2 * 2 ^ Z.of_nat (length l)) as E2
    by (rewrite <- Z.pow_succ_r by lia; f_equal; lia). rewrite E2 in Hsym.
  assert (1 <= 2 ^ Z.of_nat (length l)) by (apply (Z.pow_le_mono_r 2 0); lia).
  cbn [matched_ds]. apply Forall_cons. split.
  - split; [|done]. assert (symbol < 256) by nia. destruct Htb as [->| ->]; lia.
  - destruct (mb / 128 =? b).
    + apply IH; [done|destruct Hbit; lia|done|done|destruct Hbit; nia|done].
    + apply tree_ds_ok; [done|destruct Hbit; lia|done|]. intros k Hk. rewrite Hk in *.
      replace (Z.of_nat (S k)) with (Z.of_nat k + 1) in * by lia. rewrite Z.pow_add_r in * by lia.
      assert (0 <= 2 ^ Z.of_nat k) by (apply Z.pow_nonneg; lia). destruct Hbit as [->| ->]; nia.
Qed.

Lemma len_ds_ok slots enc ps v : 0 <= enc -> 0 <= ps < 4 -> 0 <= v < 272 -> enc + 514 <= slots ->
  Forall (decision_ok slots) (len_ds enc ps v).
Proof.
  intros He Hps Hv Hs. unfold len_ds.
  assert (forall i b, 0 <= i <= 1 -> is_bit b -> decision_ok slots (Ctx (enc + i) b)) as Hc by (intros; split; done || lia).
  destruct (v <? 8) eqn:E8; [|destruct (v <? 16) eqn:E16].
  - destruct (bits_msb_ok 3 v) as (? & ? & _); [cbn; lia|]. apply Forall_cons_2; [split; [lia|by left]|].
    eapply tree_ok; try done; cbn; lia.
  - destruct (bits_msb_ok 3 (v - 8)) as (? & ? & _); [cbn; lia|]. apply Forall_cons_2; [split; [lia|by right]|].
    apply Forall_cons_2; [split; [lia|by left]|]. eapply tree_ok; try done; cbn; lia.
  - destruct (bits_msb_ok 8 (v - 16)) as (? & ? & _); [cbn; lia|]. apply Forall_cons_2; [split; [lia|by right]|].
    apply Forall_cons_2; [split; [lia|by right]|]. eapply tree_ok; try done; cbn; lia.
Qed.


Lemma layout_ok : PROB_SLOTS = 7990 /\ LITERAL = 1846 /\ REP_L_ENCODER = 1332 /\ L_ENCODER = 818 /\
  ALIGN = 802 /\ SPEC_POS = 688 /\ POS_SLOT = 432 /\ IS_REP_0_LONG = 240 /\
  IS_REP_G2 = 228 /\ IS_REP_G1 = 216 /\ IS_REP_G0 = 204 /\ IS_REP = 192.
Proof. by vm_compute. Qed.

Lemma dist_ds_ok d : 0 <= d < 2 ^ 32 -> Forall (decision_ok PROB_SLOTS) (dist_ds d).
Proof.
  intros Hd. unfold dist_ds. destruct layout_ok as (-> & _ & _ & _ & -> & -> & _).
  destruct (slot_of d <? 4) eqn:E4; [by constructor|].
  destruct (decide (d < 4)) as [H4|H4].
  { exfalso. unfold slot_of in E4. replace (d <? 4) with true in E4 by lia. lia. }
  destruct (slot_facts d ltac:(lia)) as (Hs & Hx & Hb & Hn). cbn zeta in *.
  set (slot := slot_of d) in *. set (x := d - slot_base slot) in *. destruct (slot <? 14) eqn:E14.
  - assert (slot / 2 - 1 = Z.of_nat (Z.to_nat (slot / 2 - 1))) as En by lia. rewrite En in Hx.
    destruct (bits_lsb_ok _ x Hx) as (Hbits & _ & Hlen). rewrite En in Hn.
    eapply tree_ok; [done|exact Hlen| |lia|]; rewrite <- En in *; unfold slot_base;
      assert (slot = 4 \/ slot = 5 \/ slot = 6 \/ slot = 7 \/ slot = 8 \/ slot = 9 \/ slot = 10 \/ slot = 11 \/
        slot = 12 \/ slot = 13) as Hcase by lia;
      repeat destruct Hcase as [->|Hcase]; try rewrite Hcase; vm_compute; discriminate.
  - apply Forall_app. split.
    + unfold direct_ds. apply Forall_fmap. assert (6 < slot / 2)
        by (enough (7 <= slot / 2) by lia; apply Z.div_le_lower_bound; lia).
      destruct (bits_msb_ok (Z.to_nat (slot / 2 - 5)) (x / 16)) as (Hbits & _); [|by eapply Forall_impl].
      split; [apply Z.div_pos; lia|apply Z.div_lt_upper_bound; [lia|]].
      replace (Z.of_nat (Z.to_nat (slot / 2 - 5))) with (slot / 2 - 5) by lia.
      replace (16 * 2 ^ (slot / 2 - 5)) with (2 ^ (slot / 2 - 1)); [lia|].
      change 16 with (2 ^ 4). rewrite <- Z.pow_add_r by lia. f_equal. lia.
    + destruct (bits_lsb_ok 4 (x mod 16)) as (Hbits & _ & Hlen); [cbn; Z.div_mod_to_equations; lia|].
      eapply tree_ok; [done|exact Hlen|lia|lia|cbn; lia].
Qed.

Lemma ctx_ok i b : 0 <= i < 7990 -> is_bit b -> decision_ok PROB_SLOTS (Ctx i b).
Proof. destruct layout_ok as (-> & _). by split. Qed.

Ltac contexts := repeat first
  [ apply Forall_cons_2; [apply ctx_ok; [lia|unfold is_bit; lia]|] | apply Forall_nil_2 | apply Forall_app_2 ].

Lemma op_ds_ok a x o : lz_wf x -> op_ok x o -> mlen (out x) < 2 ^ 32 -> Forall (decision_ok PROB_SLOTS) (op_ds a x o).
Proof.
  intros (Hst & Hbo & Hd0) Ho Hlen. assert (0 <= a mod 4 < 4) as Ha by (apply Z.mod_pos_bound; lia).
  destruct layout_ok as (Ep & EL & ER & EE & EA & ES & EP & E0L & E2 & E1 & E0 & EI).
  unfold op_ds. rewrite ?ER, ?EE, ?EP, ?E0L, ?E2, ?E1, ?E0, ?EI. destruct o as [b|dist len| |k len]; cbn [op_ok] in Ho.
  - apply Forall_cons_2; [apply ctx_ok; [lia|by left]|]. unfold literal_ds. rewrite EL.
    pose proof (byte_at_range (out x) (mlen (out x) - 1) Hbo) as Hlast. fold (back (out x) 1) (last_byte (out x)) in Hlast.
    unfold is_byte in Hlast, Ho. destruct (bits_msb_ok 8 b) as (Hbits & Hl8 & _); [cbn; lia|].
    assert (0 <= last_byte (out x) / 32 < 8) by (Z.div_mod_to_equations; lia).
    destruct (st x <? 7); rewrite ?Ep.
    + eapply tree_ok; [done|exact Hl8|lia|lia|cbn; lia].
    + apply matched_ds_ok; [done|lia|lia|by apply byte_at_range|rewrite Hl8; cbn; lia|lia].
  - contexts.
    + apply len_ds_ok; rewrite ?Ep; lia.
    + destruct Ho as [Hdist Hl]. assert (0 <= slot_of (dist - 1) < 2 ^ Z.of_nat 6) as Hslot.
      { change (2 ^ Z.of_nat 6) with 64. destruct (decide (dist - 1 < 4)) as [E|E]; [|destruct (slot_facts (dist - 1)); lia].
        unfold slot_of. replace (dist - 1 <? 4) with true by lia. lia. }
      destruct (bits_msb_ok 6 (slot_of (dist - 1)) Hslot) as (Hbits & Hl6 & _).
      eapply tree_ok; [done|exact Hl6|lia|lia|cbn; rewrite Ep; lia].
    + apply dist_ds_ok. lia.
  - contexts.
  - apply Forall_cons_2; [apply ctx_ok; [lia|by right]|]. apply Forall_cons_2; [apply ctx_ok; [lia|by right]|].
    apply Forall_app_2; [|apply len_ds_ok; rewrite ?Ep; lia]. repeat case_match; contexts.
Qed.

Lemma ops_ds_ok dest os : forall x, lz_wf x -> ops_ok x os -> mlen (out (lz_run x os)) < 2 ^ 32 ->
  Forall (decision_ok PROB_SLOTS) (ops_ds dest x os).
Proof.
  induction os as [|o os IH]; intros x Hx Hok Hlen; [by constructor|]. destruct Hok as [Ho Hos].
  destruct (lz_step_wf x o Hx Ho) as [Hx' Hlt]. cbn [ops_ds lz_run fold_left] in *.
  pose proof (mlen_run os _ Hx' Hos) as Hmono. unfold lz_run in Hmono.
  apply Forall_app_2; [apply op_ds_ok; [done|done|lia]|by apply IH].
Qed.

(** ** The whole call *)

Definition fresh_probs : list Z := replicate (Z.to_nat PROB_SLOTS) 1024.

Lemma fill_ok p : mlen p = PROB_SLOTS -> loop (S (Z.to_nat PROB_SLOTS)) fill_body (p, 0) = Done fresh_probs.
Proof.
  intros Hlen. destruct layout_ok as (Ep & _).
  destruct (loop_total (fun s : list Z * Z => mlen s.1 = PROB_SLOTS /\ 0 <= s.2 <= PROB_SLOTS /\
      forall a, 0 <= a < s.2 -> byte_at s.1 a = 1024) (fun s => Z.to_nat (PROB_SLOTS - s.2))
    (fun r => r = fresh_probs) fill_body) with (fuel := S (Z.to_nat PROB_SLOTS)) (s := (p, 0)) as (r & E & ->).
  - intros [q i] (Hq & Hi & Hall). cbn [fst snd] in *. unfold fill_body, stp.
    destruct (i <? PROB_SLOTS) eqn:Ei.
    + rewrite st8_ok by lia. run_step. eexists. split; [done|]. cbn [fst snd]. split; [|lia].
      split_and!; [by rewrite mlen_insert|lia|lia|]. intros a Ha. rewrite byte_at_insert by lia.
      destruct (a =? i) eqn:Ea; [done|]. apply Hall. lia.
    + eexists. split; [done|]. cbn. unfold fresh_probs. apply mem_ext.
      { rewrite Hq. unfold mlen. rewrite length_replicate. lia. }
      intros a Ha. rewrite Hall by lia. unfold byte_at. replace (a <? 0) with false by lia.
      rewrite lookup_replicate_2 by lia. done.
  - split_and!; cbn; [done|lia|lia|lia].
  - cbn [snd]. lia.
  - done.
Qed.

Lemma fresh_probs_ok : probs_ok fresh_probs /\ mlen fresh_probs = PROB_SLOTS.
Proof.
  destruct layout_ok as (Ep & _). split.
  - apply Forall_replicate. unfold prob_ok. lia.
  - unfold mlen, fresh_probs. rewrite length_replicate. lia.
Qed.

Lemma lz_init_wf : lz_wf lz_init.
Proof. split_and!; cbn; [lia|lia|by constructor|lia]. Qed.

Lemma placed_init m dest : placed m m dest [].
Proof. apply updated_refl. Qed.

Lemma lzma_unpack_ok os m src dest p V n : let o := out (lz_run lz_init os) in
  bytes m -> mlen m < 2 ^ 32 -> mlen p = PROB_SLOTS -> ops_ok lz_init os ->
  0 <= dest -> dest + mlen o <= mlen m -> (dest + mlen o <= src + 4 \/ src + 4 + Z.of_nat n <= dest) ->
  stored m src (stream V n) -> stands_for V n (ops_ds dest lz_init os) fresh_probs ->
  exists m' p', lzma_unpack m src dest (mlen o) p = Done (m', p', src + 4 + Z.of_nat n) /\ placed m m' dest o.
Proof.
  intros o Hm Hsize Hp Hok Hd Hfit Hapart Hst HV. unfold lzma_unpack.
  destruct fresh_probs_ok as [Hfp Hfl].
  destruct (synced_init m src V n (ops_ds dest lz_init os) fresh_probs Hm Hfp) as (rd & -> & Hs); [|done|done|].
  { rewrite Hfl. apply ops_ds_ok; [apply lz_init_wf|done|]. fold o. lia. }
  run_step. rewrite fill_ok by done. run_step.
  destruct (lzma_loop m dest (mlen o) (src + 4, src + 4 + Z.of_nat n) Hm Hd Hfit Hsize Hapart os lz_init m
    (rd, fresh_probs) (S (Z.to_nat (mlen o)))) as (m' & [rd' p'] & E & Hp' & H');
    [apply lz_init_wf|done|apply placed_init|done|done|
     change (mlen (out lz_init)) with 0; pose proof (mlen_nonneg o); lia|].
  unfold vars_of, lz_init in E. cbn [out st d0 d1 d2 d3] in E. change (last_byte []) with 0 in E.
  change (mlen []) with 0 in E. rewrite Z.add_0_r in E. rewrite E. run_step. exists m', p'. split; [|done].
  do 2 f_equal. unfold synced in H'. cbn in H'. lia.
Qed.

(** C16: the unpacker inverts the packer.  Take any list of LZ77 operations (literals,
    matches, short and long repeats) whose distances stay inside the output and any
    number in the interval the reference encoder computes for their decisions (there
    is one).  If that stream follows a header with method 1 and the output's length,
    and the output does not overlap it, [unpack] terminates and leaves exactly the
    expansion of the operations in the destination and every other byte untouched. *)
Theorem unpack_inverts_packing os m packed unpacked p : let o := out (lz_run lz_init os) in
  ops_ok lz_init os -> mlen o < 2 ^ 32 ->
  (exists V n, stands_for V n (ops_ds unpacked lz_init os) fresh_probs) /\
  forall V n, bytes m -> mlen m < 2 ^ 32 -> mlen p = PROB_SLOTS -> 0 <= packed ->
    0 <= unpacked -> unpacked + mlen o <= mlen m ->
    (unpacked + mlen o <= packed + 16 \/ packed + 16 + Z.of_nat n <= unpacked) ->
    word_at m (packed + 4) = mlen o -> word_at m (packed + 8) mod 256 = 1 ->
    stored m (packed + 12) (stream V n) -> stands_for V n (ops_ds unpacked lz_init os) fresh_probs ->
    exists m' p', unpack m packed unpacked p = Done (m', p') /\ updated m m' unpacked (mlen o) (byte_at o).
Proof.
  intros o Hok Hlen. destruct fresh_probs_ok as [Hfp Hfl]. split.
  - apply range_coder_exists; [done|]. rewrite Hfl. apply ops_ds_ok; [apply lz_init_wf|done|done].
  - intros V n Hm Hsize Hp Hpk Hu Hfit Hapart Hw4 Hw8 Hst HV. pose proof Hst as (_ & Hpf & _).
    rewrite mlen_stream in Hpf. unfold unpack. rewrite !ld32_ok by lia. run_step.
    assert (u8 (word_at m (packed + 8)) = 1) as -> by exact Hw8. change (Z.land 1 192 =? 192) with false.
    change (negb (Z.land 1 63 =? 1)) with false. cbn iota. rewrite Hw4.
    destruct (lzma_unpack_ok os m (packed + 12) unpacked p V n) as (m' & p' & E & Hpl); try done; [fold o; lia|].
    fold o in E. rewrite E. run_step. change (negb (Z.land 1 128 =? 0)) with false.
    change (negb (Z.land 1 64 =? 0)) with false. by exists m', p'.
Qed.

(** "ABABABAB", a short repeat, a repeat at the second last distance, "Z" after it. *)
Definition demo_ops : list op := [Lit 65; Lit 66; Match 2 6; Match 1 2; ShortRep; Rep 1 3; Lit 90].
Definition demo_out : list Z := out (lz_run lz_init demo_ops).
Definition demo_V : Z := let '(l, r, n) := encode (ops_ds 64 lz_init demo_ops) 0xFFFFFFFF fresh_probs in l.
Definition demo_n : nat := let '(l, r, n) := encode (ops_ds 64 lz_init demo_ops) 0xFFFFFFFF fresh_probs in n.
Definition demo_header : list Z := [75; 80; 67; 75; 15; 0; 0; 0; 1; 0; 0; 0].
Definition demo_mem : list Z := demo_header ++ stream demo_V demo_n ++ replicate 80 0.

Lemma stored_mid a b c : stored (a ++ b ++ c) (mlen a) b.
Proof.
  pose proof (mlen_nonneg a). pose proof (mlen_nonneg b). pose proof (mlen_nonneg c).
  split_and!; [lia|rewrite !mlen_app; lia|]. intros i Hi.
  rewrite byte_at_app by lia. replace (mlen a + i <? mlen a) with false by lia.
  replace (mlen a + i - mlen a) with i by lia. rewrite byte_at_app by lia.
  by replace (i <? mlen b) with true by lia.
Qed.

Lemma unpack_inverts_packing_witness :
  demo_out = [65; 66; 65; 66; 65; 66; 65; 66; 66; 66; 66; 66; 66; 66; 90] /\
  exists m' p', unpack demo_mem 0 64 fresh_probs = Done (m', p') /\
    updated demo_mem m' 64 (mlen demo_out) (byte_at demo_out).
Proof.
  split; [vm_compute; reflexivity|].
  destruct (unpack_inverts_packing demo_ops demo_mem 0 64 fresh_probs) as [_ H].
  - cbn. unfold is_byte. repeat split; vm_compute; discriminate.
  - vm_compute. reflexivity.
  - apply (H demo_V demo_n).
    + apply bytes_check. vm_compute. reflexivity.
    + vm_compute. reflexivity.
    + apply fresh_probs_ok.
    + lia.
    + lia.
    + vm_compute. discriminate.
    + right. vm_compute. discriminate.
    + vm_compute. reflexivity.
    + vm_compute. reflexivity.
    + apply (stored_mid demo_header).
    + vm_compute. repeat split; discriminate.
Defined.

(** ** Any input *)

Lemma ends_len m s enc ps : ends (decode_len m s enc ps) (fun r => 0 <= r.1 < 272 /\ mlen r.2.2 = mlen s.2).
Proof.
  unfold decode_len, K_LEN_NUM_LOW_SYMBOLS, K_LEN_NUM_MID_SYMBOLS, K_LEN_NUM_LOW_BITS, K_LEN_NUM_MID_BITS, K_LEN_NUM_HIGH_BITS.
  eapply ends_bind; [apply ends_bit|]. intros [b s1] [_ H1]. cbn [fst snd] in *. case_match.
  - eapply ends_weaken; [apply ends_tree; lia|]. intros [v s2] [Hv H2]. cbn [fst snd] in *.
    change (2 ^ 3) with 8 in Hv. split; [lia|congruence].
  - eapply ends_bind; [apply ends_bit|]. intros [b2 s2] [_ H2]. cbn [fst snd] in *.
    change (Z.shiftl 1 3) with 8. case_match.
    + eapply ends_bind; [apply ends_tree; lia|]. intros [v s3] [Hv H3]. cbn [fst snd ends] in *.
      change (2 ^ 3) with 8 in Hv. rewrite wrap_small by lia. split; [lia|congruence].
    + eapply ends_bind; [apply ends_tree; lia|]. intros [v s3] [Hv H3]. cbn [fst snd ends] in *.
      change (2 ^ 8) with 256 in Hv. rewrite (wrap_small 32 (8 + 8)), wrap_small by lia. split; [lia|congruence].
Qed.

(** A symbol below 256 gains a bit per turn. *)
Lemma log2_double symbol b : 1 <= symbol -> is_bit b -> Z.log2 (2 * symbol + b) = Z.log2 symbol + 1.
Proof.
  intros Hs [->| ->]; [rewrite Z.add_0_r, Z.log2_double by lia; lia|rewrite Z.log2_succ_double by lia; lia].
Qed.

Lemma ends_literal_loop m base s symbol : 1 <= symbol < 512 ->
  ends (loop 9 (literal_body m base) (symbol, s)) (fun r => mlen r.2.2 = mlen s.2).
Proof.
  intros Hs. apply (ends_loop (fun st : Z * dstate => 1 <= st.1 < 512 /\ mlen st.2.2 = mlen s.2)
    (fun st => Z.to_nat (8 - Z.log2 st.1))).
  - intros [sy s1] [Hsy Hl]. cbn [fst snd] in *. unfold literal_body. destruct (sy <? 256) eqn:E; [|done].
    eapply ends_bind; [apply ends_bit|]. intros [b s2] [Hb Hl2]. cbn [fst snd ends] in *.
    rewrite shl_lor_bit by (done || lia). rewrite log2_double by (done || lia).
    assert (Z.log2 sy < 8) by (apply Z.log2_lt_pow2; lia). pose proof (Z.log2_nonneg sy).
    split; [split; [destruct Hb; lia|congruence]|lia].
  - done.
  - cbn [fst]. pose proof (Z.log2_nonneg symbol). lia.
Qed.

Lemma ends_literal m s base : ends (decode_literal m s base) (fun r => mlen r.2.2 = mlen s.2).
Proof.
  unfold decode_literal. eapply ends_bind; [apply ends_literal_loop; lia|]. by intros [sy s1] H.
Qed.

Lemma ends_literal_matched m s base mb : ends (decode_literal_matched m s base mb) (fun r => mlen r.2.2 = mlen s.2).
Proof.
  unfold decode_literal_matched.
  apply (ends_loop (fun st : Z * Z * dstate => 1 <= st.1.1 < 256 /\ mlen st.2.2 = mlen s.2)
    (fun st => Z.to_nat (8 - Z.log2 st.1.1))).
  - intros [[sy mb'] s1] [Hsy Hl]. cbn [fst snd] in *. cbn [matched_body].
    eapply ends_bind; [apply ends_bit|]. intros [b s2] [Hb Hl2]. cbn [fst snd] in *.
    rewrite shl_lor_bit by (done || lia). assert (Z.log2 sy < 8) by (apply Z.log2_lt_pow2; lia).
    pose proof (Z.log2_nonneg sy). destruct (256 <=? 2 * sy + b) eqn:E; [cbn; congruence|].
    case_match.
    + eapply ends_bind; [apply ends_literal_loop; destruct Hb; lia|]. intros [sy2 s3] H3. cbn [fst snd ends] in *. congruence.
    + cbn [fst snd ends]. rewrite log2_double by (done || lia).
      split; [split; [destruct Hb; lia|congruence]|lia].
  - done.
  - cbn [fst]. change (Z.log2 1) with 0. lia.
Qed.

Lemma ends_copy m d dist len : 0 <= len < 2 ^ 32 -> ends (copy_match m d dist len) (fun m' => outside m m' d len).
Proof.
  intros Hlen. unfold copy_match.
  apply (ends_loop (fun st : list Z * Z * Z * Z => outside m st.1.1.1 d len /\ 0 <= st.2 <= len /\ st.1.1.2 = d + (len - st.2))
    (fun st => Z.to_nat st.2)).
  - intros [[[m1 a] s] n] (Ho & Hn & Ea). cbn [fst snd] in *. subst a. cbn [copy_body]. destruct (n =? 0) eqn:E; [done|].
    eapply ends_bind; [apply ends_ld8|]. intros b _. eapply ends_bind; [apply ends_st8|]. intros m2 [Ha ->].
    cbn [fst snd ends]. rewrite wrap_small by lia. split; [|lia]. split_and!; [|lia|lia|lia].
    apply outside_st8; [done|done|lia].
  - cbn [fst snd]. split_and!; [apply outside_refl|lia|lia|lia].
  - cbn [snd]. lia.
Qed.

(** What one operation does on any stream: it writes at least one and at most 273
    bytes, from the current end on. *)
Definition advances (m : list Z) (v : vars) (s : dstate) (r : lzstate) : Prop :=
  let '(m', v', s') := r in
  outside m m' (edi v) 273 /\ edi v < edi v' <= edi v + 273 /\ mlen s'.2 = mlen s.2.

Lemma ends_copy_step m v s len : 2 <= len <= 273 -> ends (copy_step m v s len) (advances m v s).
Proof.
  intros Hlen. unfold copy_step. eapply ends_bind; [apply ends_copy; lia|]. intros m1 Ho.
  eapply ends_bind; [apply ends_ld8|]. intros b _. cbn [ends advances edi]. split; [|split; [lia|done]].
  eapply outside_trans; [apply (outside_refl m (edi v) 0)|exact Ho|lia..].
Qed.

Lemma ends_store_step m v b : forall (s s' : dstate) st' p', mlen s'.2 = mlen s.2 ->
  ends (m ← st8 m (edi v) b; Done (m, mkVars (edi v + 1) st' p' (rep0 v) (rep1 v) (rep2 v) (rep3 v), s')) (advances m v s).
Proof.
  intros s s' st' p' Hl. eapply ends_bind; [apply ends_st8|]. intros m1 [Ha ->]. cbn [ends advances edi].
  split; [|split; [lia|done]]. apply outside_st8; [apply outside_refl|done|lia].
Qed.

Lemma ends_literal_step m v s : ends (literal_step m v s) (advances m v s).
Proof.
  unfold literal_step. eapply (ends_bind _ _ (fun r => mlen r.2.2 = mlen s.2)).
  - case_match; [apply ends_literal|]. eapply ends_bind; [apply ends_ld8|]. intros. apply ends_literal_matched.
  - intros [b s1] H1. cbn [snd] in H1. by apply ends_store_step.
Qed.

Lemma ends_distance m s slot : 0 <= slot < 64 -> ends (decode_distance m s slot) (fun r => mlen r.2.2 = mlen s.2).
Proof.
  intros Hs. unfold decode_distance, K_NUM_ALIGN_BITS, K_START_POS_MODEL_INDEX. destruct (4 <=? slot) eqn:E4; [|done].
  rewrite shr_eq by lia. change (2 ^ 1) with 2. assert (2 <= slot / 2 < 32) by (Z.div_mod_to_equations; lia).
  case_match eqn:E14.
  - eapply ends_bind; [apply ends_rev_tree; lia|]. by intros [x s1] H1.
  - unfold K_END_POS_MODEL_INDEX in E14. assert (7 <= slot / 2) by (Z.div_mod_to_equations; lia).
    eapply ends_bind; [apply ends_direct; lia|]. intros [x s1] H1. cbn [snd] in H1.
    eapply ends_bind; [apply ends_rev_tree; lia|]. intros [y s2] H2. cbn [fst snd ends] in *. congruence.
Qed.

Lemma ends_match_step m v ps s : ends (match_step m v ps s) (fun r =>
  match r with inl r => advances m v s r | inr s' => mlen s'.2 = mlen s.2 end).
Proof.
  unfold match_step. eapply ends_bind; [apply ends_len|]. intros [len s1] [Hlen H1]. cbn [fst snd] in *.
  unfold K_NUM_POS_SLOT_BITS. eapply ends_bind; [apply ends_tree; lia|]. intros [slot s2] [Hslot H2]. cbn [fst snd] in *.
  change (2 ^ 6) with 64 in Hslot. eapply ends_bind; [by apply ends_distance|]. intros [dist s3] H3. cbn [fst snd] in *.
  case_match; [cbn; congruence|]. unfold K_MATCH_MIN_LEN. rewrite (wrap_small 32 (len + 2)) by lia.
  eapply ends_bind; [apply (ends_copy_step _ _ s3); lia|]. intros [[m' v'] s'] (Ho & He & Hl). cbn [ends advances edi] in *.
  split_and!; [done|lia|lia|congruence].
Qed.

Lemma ends_rep_step m v ps s : ends (rep_step m v ps s) (advances m v s).
Proof.
  unfold rep_step. eapply ends_bind; [apply ends_bit|]. intros [g0 s1] [_ H1]. cbn [fst snd] in *.
  eapply (ends_bind _ _ (fun r => mlen r.2.2 = mlen s.2)).
  - case_match; (eapply ends_bind; [apply ends_bit|]; intros [g1 s2] [_ H2]; cbn [fst snd] in *).
    + case_match; cbn; congruence.
    + case_match; [cbn; congruence|]. eapply ends_bind; [apply ends_bit|]. intros [g2 s3] [_ H3]. cbn [fst snd] in *.
      case_match; cbn; congruence.
  - intros [[[[[r0 r1] r2] r3]|] s2] H2; cbn [snd] in H2.
    + eapply ends_bind; [apply ends_len|]. intros [len s3] [Hlen H3]. cbn [fst snd] in *.
      unfold K_MATCH_MIN_LEN. rewrite wrap_small by lia.
      eapply ends_weaken; [apply (ends_copy_step _ _ s3); lia|]. intros [[m' v'] s'] (Ho & He & Hl). cbn [advances edi] in *.
      split_and!; [done|lia|lia|congruence].
    + eapply ends_bind; [apply ends_ld8|]. intros b _. by apply ends_store_step.
Qed.

Lemma ends_lzma_body limit m v s : ends (lzma_body limit (m, v, s)) (fun r =>
  match r with
  | inl r => edi v < limit /\ advances m v s r
  | inr (m', s') => m' = m /\ mlen s'.2 = mlen s.2
  end).
Proof.
  cbn [lzma_body]. destruct (edi v <? limit) eqn:E; [|by split]. assert (edi v < limit) as Hlt by lia.
  assert (forall (s1 : dstate) r, mlen s1.2 = mlen s.2 -> advances m v s1 r -> edi v < limit /\ advances m v s r) as Hw.
  { intros s1 [[m' v'] s'] Hl (Ho & He & Hl'). split; [done|]. split_and!; [done|lia|lia|congruence]. }
  eapply ends_bind; [apply ends_bit|]. intros [b s1] [_ H1]. cbn [fst snd] in *. case_match.
  - eapply ends_bind; [apply ends_literal_step|]. intros r Hr. by apply (Hw s1).
  - eapply ends_bind; [apply ends_bit|]. intros [b2 s2] [_ H2]. cbn [fst snd] in *.
    assert (mlen s2.2 = mlen s.2) as H2' by congruence. case_match.
    + eapply ends_bind; [apply ends_match_step|]. intros [r|s3] Hr; cbn [ends].
      * by apply (Hw s2).
      * split; [done|congruence].
    + eapply ends_bind; [apply ends_rep_step|]. intros r Hr. by apply (Hw s2).
Qed.

Lemma ends_fill p : ends (loop (S (Z.to_nat PROB_SLOTS)) fill_body (p, 0)) (fun p' => mlen p' = mlen p).
Proof.
  apply (ends_loop (fun st : list Z * Z => mlen st.1 = mlen p /\ 0 <= st.2 <= PROB_SLOTS)
    (fun st => Z.to_nat (PROB_SLOTS - st.2))).
  - intros [q i] [Hq Hi]. cbn [fst snd] in *. unfold fill_body, stp. destruct (i <? PROB_SLOTS) eqn:E; [|done].
    eapply ends_bind; [apply ends_st8|]. intros q' [_ ->]. cbn [fst snd ends]. rewrite mlen_insert. lia.
  - cbn. destruct layout_ok as (-> & _). lia.
  - cbn [snd]. lia.
Qed.

Lemma ends_lzma m src dest dest_len p : 0 <= dest_len ->
  ends (lzma_unpack m src dest dest_len p)
    (fun r => outside m r.1.1 dest (dest_len + 272) /\ mlen r.1.2 = mlen p).
Proof.
  intros Hd. unfold lzma_unpack. eapply (ends_bind _ _ (fun _ => True)).
  { unfold rd_init. eapply ends_bind; [apply ends_ld32|]. by intros. }
  intros rd _. eapply ends_bind; [apply ends_fill|]. intros p1 Hp1.
  eapply (ends_bind _ _ (fun r => outside m r.1 dest (dest_len + 272) /\ mlen r.2.2 = mlen p)).
  - apply (ends_loop (fun st : lzstate => outside m st.1.1 dest (dest_len + 272) /\
        dest <= edi st.1.2 /\ mlen st.2.2 = mlen p) (fun st => Z.to_nat (dest + dest_len - edi st.1.2))).
    + intros [[m1 v] s] (Ho & He & Hl). cbn [fst snd] in *. eapply ends_weaken; [apply ends_lzma_body|].
      intros [[[m2 v2] s2]|[m2 s2]].
      * intros (Hlt & Ho2 & He2 & Hl2). cbn [fst snd]. split_and!; [|lia|congruence|lia].
        eapply outside_trans; [exact Ho|exact Ho2|lia..].
      * intros [-> Hl2]. split; [done|]. cbn [snd]. congruence.
    + cbn [fst snd edi]. split_and!; [apply outside_refl|lia|done].
    + cbn [fst snd edi]. lia.
  - intros [m1 [rd1 p2]] [Ho Hl]. by split.
Qed.

(** Filters: scans that advance through memory until their count is used up. *)
Lemma ends_patch m esi dest : ends (patch_rel32 m esi dest) (fun r => mlen r.1 = mlen m /\ r.2 = esi + 4 /\ 0 <= esi /\ esi + 4 <= mlen m).
Proof.
  unfold patch_rel32. destruct (decide (0 <= esi /\ esi + 4 <= mlen m)) as [[H1 H2]|H].
  - rewrite ld32_ok by lia. run_step.
    do 4 (eapply ends_bind; [apply ends_st8|]; cbn beta; intros ? (_ & ->)).
    cbn [ends fst snd]. by rewrite !mlen_insert.
  - destruct (ld32 m esi) eqn:E; [exfalso; by apply ld32_Done in E as (? & ? & _); lia|done|].
    exfalso. pose proof (ends_ld32 m esi) as H'. by rewrite E in H'.
Qed.

Lemma ends_patch_if dl dest m esi left_ (n : Z) : 0 <= esi <= mlen m -> mlen m = n ->
  ends (patch_if dl dest m esi left_) (fun r => match r with
    | inl st => mlen st.1.1 = n /\ esi <= st.1.2 <= n
    | inr m' => mlen m' = n end).
Proof.
  intros He Hn. unfold patch_if. eapply ends_bind; [apply ends_ld8|]. intros c _. case_match; [cbn; lia|].
  eapply ends_bind; [apply ends_patch|]. intros [m1 e1] (Hl & He1 & Hr1 & Hr2). cbn [fst snd] in *.
  subst e1. case_match; cbn; lia.
Qed.

Lemma ends_c1 m src dest : 0 <= dest -> ends (apply_e8_c1 m src dest) (fun r => mlen r.1 = mlen m).
Proof.
  intros Hd. unfold apply_e8_c1. eapply ends_bind; [apply ends_ld32|]. intros count _. case_match; [done|].
  eapply ends_bind; [apply ends_ld8|]. intros dl _. eapply (ends_bind _ _ (fun m' => mlen m' = mlen m)); [|by intros].
  apply (ends_loop (fun st : list Z * Z * Z => mlen st.1.1 = mlen m /\ 0 <= st.1.2) (fun st => Z.to_nat (mlen m - st.1.2))).
  - intros [[m1 esi] left_] [Hl He]. cbn [fst snd] in *. cbn [c1_body].
    eapply ends_bind; [apply ends_ld8|]. intros al [Hr _]. case_match; [cbn; lia|].
    eapply ends_weaken; [apply (ends_patch_if _ _ m1 _ _ (mlen m)); lia|].
    intros [[[m2 e2] l2]|m2]; cbn [fst snd]; [|done]. lia.
  - done.
  - cbn [fst snd]. unfold mlen. lia.
Qed.

Lemma ends_prefix m al esi : 0 <= esi <= mlen m ->
  ends (loop (S (length m)) (prefix_body m) (al, esi))
    (fun r => match r with inl e => esi <= e <= mlen m | inr (_, e) => esi <= e <= mlen m end).
Proof.
  intros He. apply (ends_loop (fun st : Z * Z => esi <= st.2 <= mlen m) (fun st => Z.to_nat (mlen m - st.2))).
  - intros [a e] Hr. cbn [snd] in *. cbn [prefix_body]. case_match; [done|].
    eapply ends_bind; [apply ends_ld8|]. intros a2 [Hr2 _]. repeat case_match; cbn; lia.
  - cbn. lia.
  - cbn [snd]. unfold mlen. lia.
Qed.

Lemma ends_ctr1 m src dest : 0 <= dest -> ends (apply_e8_ctr1 m src dest) (fun r => mlen r.1 = mlen m).
Proof.
  intros Hd. unfold apply_e8_ctr1. eapply ends_bind; [apply ends_ld32|]. intros count _. case_match; [done|].
  eapply ends_bind; [apply ends_ld8|]. intros dl _. eapply (ends_bind _ _ (fun m' => mlen m' = mlen m)); [|by intros].
  apply (ends_loop (fun st : list Z * Z * Z => mlen st.1.1 = mlen m /\ 0 <= st.1.2) (fun st => Z.to_nat (mlen m - st.1.2))).
  - intros [[m1 esi] left_] [Hl He]. cbn [fst snd] in *. cbn [ctr1_body].
    eapply ends_bind; [apply ends_ld8|]. intros al [Hr _].
    eapply ends_bind; [apply ends_prefix; lia|]. intros [e|[al2 e]] Hre.
    + eapply ends_weaken; [apply (ends_patch_if _ _ m1 _ _ (mlen m)); lia|].
      intros [[[m2 e2] l2]|m2]; cbn [fst snd]; [|done]. lia.
    + case_match; [cbn; lia|]. eapply ends_weaken; [apply (ends_patch_if _ _ m1 _ _ (mlen m)); lia|].
      intros [[[m2 e2] l2]|m2]; cbn [fst snd]; [|done]. lia.
  - done.
  - cbn [fst snd]. unfold mlen. lia.
Qed.

(** C17: on arbitrary, even hostile, input [unpack] always stops: every loop ends, in
    a result or in a fault on an access outside memory.  A method it does not know
    changes nothing.  Without a call filter, nothing outside the destination is
    written, except that the last match may run over its end: at most 272 bytes past
    [dest_len] (matches are not clipped). *)
Theorem unpack_stops m packed unpacked p : bytes m -> 0 <= unpacked ->
  unpack m packed unpacked p <> Fuel /\
  forall m' p', unpack m packed unpacked p = Done (m', p') ->
    mlen m' = mlen m /\ mlen p' = mlen p /\
    (let fl := word_at m (packed + 8) mod 256 in
     (192 <= fl \/ fl mod 64 <> 1 -> m' = m /\ p' = p) /\
     (fl = 1 -> outside m m' unpacked (word_at m (packed + 4) + 272))).
Proof.
  intros Hm Hu.
  assert (ends (unpack m packed unpacked p) (fun r => mlen r.1 = mlen m /\ mlen r.2 = mlen p /\
    (let fl := word_at m (packed + 8) mod 256 in
     (192 <= fl \/ fl mod 64 <> 1 -> r.1 = m /\ r.2 = p) /\
     (fl = 1 -> outside m r.1 unpacked (word_at m (packed + 4) + 272))))) as H.
  2: { split; [intros E; by rewrite E in H|]. intros m' p' E. by rewrite E in H. }
  unfold unpack. eapply ends_bind; [apply ends_ld32|]. intros flags ->.
  change (u8 (word_at m (packed + 8))) with (word_at m (packed + 8) mod 256). cbn zeta.
  set (fl := word_at m (packed + 8) mod 256). assert (0 <= fl < 256) as Hfl by (apply Z.mod_pos_bound; lia).
  assert (Z.land fl 192 = fl / 64 * 64) as Ehi.
  { change 192 with (2 ^ 8 - 2 ^ 6). rewrite (land_align 8 6) by lia. done. }
  assert (Z.land fl 63 = fl mod 64) as Elo by (apply (land_mask fl 6); lia).
  rewrite Ehi, Elo. destruct (fl / 64 * 64 =? 192) eqn:E1.
  { cbn. assert (192 <= fl) by (Z.div_mod_to_equations; lia). split_and!; [done|done|done|lia]. }
  destruct (fl mod 64 =? 1) eqn:E2; cbn [negb].
  2: { cbn. split_and!; [done|done|done|]. intros E. rewrite E in E2. done. }
  assert (fl < 192) by (Z.div_mod_to_equations; lia).
  eapply ends_bind; [apply ends_ld32|]. intros dest_len ->.
  eapply ends_bind; [apply ends_lzma; apply word_at_range; done|]. intros [[m1 p1] src] [Ho Hp]. cbn [fst snd] in *.
  pose proof Ho as [Hl _].
  destruct (Z.land fl 128 =? 0) eqn:E7; cbn [negb]; [destruct (Z.land fl 64 =? 0) eqn:E6; cbn [negb]|].
  - cbn. split_and!; [done|done|lia|done].
  - eapply ends_bind; [by apply ends_c1|]. intros [m2 s2] H2. cbn [fst snd ends] in *.
    split_and!; [congruence|done|lia|]. intros E. rewrite E in E6. done.
  - eapply ends_bind; [by apply ends_ctr1|]. intros [m2 s2] H2. cbn [fst snd ends] in *.
    split_and!; [congruence|done|lia|]. intros E. rewrite E in E7. done.
Qed.

(** A two-byte output whose last match is 273 bytes long: the byte 272 past its end is
    written. *)
Definition over_ops : list op := [Lit 7; Match 1 273].
Definition over_mem : list Z :=
  let '(V, r, n) := encode (ops_ds 64 lz_init over_ops) 0xFFFFFFFF fresh_probs in
  [75; 80; 67; 75; 2; 0; 0; 0; 1; 0; 0; 0] ++ stream V n ++ replicate 400 0.

Lemma unpack_stops_witness :
  exists m' p', unpack over_mem 0 64 fresh_probs = Done (m', p') /\
    byte_at m' (64 + 2 + 271) = 7 /\ outside over_mem m' 64 (2 + 272).
Proof.
  assert ((match unpack over_mem 0 64 fresh_probs with Done (m', _) => byte_at m' (64 + 2 + 271) =? 7 | _ => false end) = true)
    as Hb by (vm_compute; reflexivity).
  destruct (unpack_stops over_mem 0 64 fresh_probs) as [_ H].
  - apply bytes_check. vm_compute. reflexivity.
  - lia.
  - destruct (unpack over_mem 0 64 fresh_probs) as [[m' p']| |] eqn:E; [|discriminate Hb|discriminate Hb].
    exists m', p'. split; [reflexivity|]. split; [by apply Z.eqb_eq|].
    destruct (H m' p' eq_refl) as (_ & _ & _ & Ho).
    assert (word_at over_mem (0 + 4) = 2) as Ew by (vm_compute; reflexivity). rewrite Ew in Ho.
    apply Ho. vm_compute. reflexivity.
Defined.
