(* ===== verification/Coff.v ===== *)
(** * The COFF loader

    [fix_coff_symbols.rs], [coff_reloc.rs], [rebase_coff.rs], [get_coff_sym.rs],
    [get_proc_ex.rs] and [coff_get_align.rs]: resolving the symbols of an object file,
    patching its relocations, moving the linked image, and the lookups by name.  The
    file, its tables and the image it describes are one memory; patch addresses are
    32-bit and wrap. *)

From stdpp Require Import base list sets.
From Stdlib Require Import ZArith Lia.
From S2P Require Import Prelude.

(** ** Definitions *)

Definition COFF_HEADER_SIZE : Z := 20.
Definition OFF_N_SECTIONS : Z := 2.
Definition COFF_SECTION_SIZE : Z := 40.
Definition OFF_SEC_VIRTUAL_ADDRESS : Z := 12.
Definition OFF_SEC_PTR_RELOC : Z := 24.
Definition OFF_SEC_NUM_RELOC : Z := 32.
Definition COFF_RELOC_SIZE : Z := 10.
Definition OFF_RELOC_VA : Z := 0.
Definition OFF_RELOC_SYM_INDEX : Z := 4.
Definition OFF_RELOC_TYPE : Z := 8.
Definition COFF_SYM_SIZE : Z := 18.
Definition COFF_SYM_NAME_LEN : Z := 8.
Definition OFF_SYM_VALUE : Z := 8.
Definition OFF_SYM_SECTION : Z := 12.
Definition RELOC_TYPE_DIR32 : Z := 6.
Definition RELOC_TYPE_REL32 : Z := 20.

(** *** Relocations *)

Definition patch_add_u32 (m : list Z) (addr addend : Z) : run (list Z) :=
  cur ← ld32 m addr; st32 m addr (cur +ₘ addend).

(** The inner loop of [fix_coff_relocs]. *)
Definition reloc_body (sym delta sec_va : Z) (st : list Z * Z * Z) : run (list Z * Z * Z + list Z) :=
  let '(m, reloc, num_reloc) := st in
  if num_reloc =? 0 then Done (inr m)
  else
    sym_index ← ld32 m (reloc + OFF_RELOC_SYM_INDEX);
    let sym_ptr := sym + sym_index * COFF_SYM_SIZE in
    value ← ld32 m (sym_ptr + OFF_SYM_VALUE);
    rtype ← ld16 m (reloc + OFF_RELOC_TYPE);
    m ← (if rtype =? RELOC_TYPE_DIR32 then
           eax ← ld32 m (reloc + OFF_RELOC_VA);
           let eax := eax +ₘ sec_va in
           let eax := eax +ₘ delta in
           patch_add_u32 m eax value
         else if rtype =? RELOC_TYPE_REL32 then
           eax ← ld32 m (reloc + OFF_RELOC_VA);
           let eax := eax +ₘ sec_va in
           let value := value -ₘ eax -ₘ 4 in
           let eax := eax +ₘ delta in
           patch_add_u32 m eax value
         else Done m);
    Done (inl (m, reloc + COFF_RELOC_SIZE, num_reloc -ₘ 1)).

(** The loop over the section headers; [inner] is the loop over one section. *)
Definition section_body (coff : Z) (inner : Z -> list Z * Z * Z -> run (list Z * Z * Z + list Z))
    (st : list Z * Z * Z) : run (list Z * Z * Z + list Z) :=
  let '(m, sec, n_sec) := st in
  if n_sec =? 0 then Done (inr m)
  else
    ptr_reloc ← ld32 m (sec + OFF_SEC_PTR_RELOC);
    num_reloc ← ld16 m (sec + OFF_SEC_NUM_RELOC);
    sec_va ← ld32 m (sec + OFF_SEC_VIRTUAL_ADDRESS);
    m ← loop (S (Z.to_nat num_reloc)) (inner sec_va) (m, coff + ptr_reloc, num_reloc);
    Done (inl (m, sec + COFF_SECTION_SIZE, n_sec -ₘ 1)).

Definition fix_coff_relocs (m : list Z) (coff sym delta : Z) : run (list Z) :=
  n_sec ← ld16 m (coff + OFF_N_SECTIONS);
  loop (S (Z.to_nat n_sec)) (section_body coff (reloc_body sym delta)) (m, coff + COFF_HEADER_SIZE, n_sec).

(** The inner loop of [rebase_coff]. *)
Definition rebase_body (delta sec_va : Z) (st : list Z * Z * Z) : run (list Z * Z * Z + list Z) :=
  let '(m, reloc, num_reloc) := st in
  if num_reloc =? 0 then Done (inr m)
  else
    rtype ← ld16 m (reloc + OFF_RELOC_TYPE);
    m ← (if rtype =? RELOC_TYPE_DIR32 then
           eax ← ld32 m (reloc + OFF_RELOC_VA);
           let eax := eax +ₘ sec_va in
           patch_add_u32 m (eax +ₘ delta) delta
         else Done m);
    Done (inl (m, reloc + COFF_RELOC_SIZE, num_reloc -ₘ 1)).

Definition rebase_coff (m : list Z) (coff sym delta : Z) : run (list Z) :=
  n_sec ← ld16 m (coff + OFF_N_SECTIONS);
  loop (S (Z.to_nat n_sec)) (section_body coff (rebase_body delta)) (m, coff + COFF_HEADER_SIZE, n_sec).

(** *** Symbols *)

Definition section_ptr (sec section_num : Z) : Z :=
  let idx := section_num -ₘ 1 in sec + idx * COFF_SECTION_SIZE.

(** The callback is an argument, as in the source; it sees memory but does not write. *)
Definition symbol_body (sec strings imports : Z) (get_proc_ex : list Z -> Z -> Z -> run Z)
    (st : list Z * Z * Z * Z) : run (list Z * Z * Z * Z + list Z * Z) :=
  let '(m, symbols, sym_count, retval) := st in
  if sym_count =? 0 then Done (inr (m, retval))
  else
    let sym := symbols in
    section ← ld16 m (sym + OFF_SYM_SECTION);
    '(m, retval) ←
      (if section =? 0 then
         name_dword ← ld32 m sym;
         name_ptr ← (if name_dword =? 0 then off ← ld32 m (sym + 4); Done (strings + off) else Done sym);
         resolved ← get_proc_ex m name_ptr imports;
         m ← st32 m (sym + OFF_SYM_VALUE) resolved;
         Done (m, if resolved =? 0 then 0 else retval)
       else if negb (section =? 0xFFFF) && negb (section =? 0xFFFE) then
         let sec_ptr := section_ptr sec section in
         va ← ld32 m (sec_ptr + OFF_SEC_VIRTUAL_ADDRESS);
         cur ← ld32 m (sym + OFF_SYM_VALUE);
         m ← st32 m (sym + OFF_SYM_VALUE) (cur +ₘ va);
         Done (m, retval)
       else Done (m, retval));
    Done (inl (m, symbols + COFF_SYM_SIZE, sym_count -ₘ 1, retval)).

Definition fix_coff_symbols (m : list Z) (sec symbols sym_count strings imports : Z)
    (get_proc_ex : list Z -> Z -> Z -> run Z) : run (list Z * Z) :=
  loop (S (Z.to_nat sym_count)) (symbol_body sec strings imports get_proc_ex) (m, symbols, sym_count, 1).

(** *** Lookups by name *)

Definition name_body (m : list Z) (a b n i : Z) : run (Z + bool) :=
  ca ← ld8 m (a + i);
  cb ← ld8 m (b + i);
  if negb (ca =? cb) then Done (inr false)
  else if ca =? 0 then Done (inr true)
  else
    let i := i +ₘ 1 in
    if i =? n then Done (inr true) else Done (inl i).

Definition name_eq_n_ptr (m : list Z) (a b n : Z) : run bool :=
  if n =? 0 then Done true else loop (S (Z.to_nat n)) (name_body m a b n) 0.

(** A count of 0 wraps: the do-while then has [2^32] turns. *)
Definition coff_sym_body (m : list Z) (sz_sym : Z) (st : Z * Z) : run (Z * Z + Z) :=
  let '(p_sym, count) := st in
  eq ← name_eq_n_ptr m p_sym sz_sym COFF_SYM_NAME_LEN;
  if (eq : bool) then v ← ld32 m (p_sym + OFF_SYM_VALUE); Done (inr v)
  else
    let p_sym := p_sym + COFF_SYM_SIZE in
    let count := count -ₘ 1 in
    if count =? 0 then Done (inr 0) else Done (inl (p_sym, count)).

Definition get_coff_sym (m : list Z) (p_sym count sz_sym : Z) : run Z :=
  loop (S (Z.to_nat (count -ₘ 1))) (coff_sym_body m sz_sym) (p_sym, count).

Definition OS_BASE : Z := 0x80000000.
Definition OFF_NUMBER_OF_NAMES : Z := 24.
Definition OFF_ADDRESS_OF_FUNCTIONS : Z := 28.
Definition OFF_ADDRESS_OF_NAMES : Z := 32.
Definition NAME_CMP_LEN : Z := 256.

Definition read_rva_entry (m : list Z) (os_base table_rva index : Z) : run Z :=
  ld32 m (os_base +ₘ table_rva +ₘ (index *ₘ 4)).

Definition proc_body (m : list Z) (proc_name os_base names_rva funcs_rva number_of_names esi : Z) : run (Z + Z) :=
  name_rva ← read_rva_entry m os_base names_rva esi;
  let name_ptr := os_base +ₘ name_rva in
  eq ← name_eq_n_ptr m name_ptr proc_name NAME_CMP_LEN;
  if (eq : bool) then
    func_rva ← read_rva_entry m os_base funcs_rva esi;
    Done (inr (os_base +ₘ func_rva))
  else
    let esi := esi +ₘ 1 in
    if number_of_names <=? esi then Done (inr 0) else Done (inl esi).

Definition get_proc_ex_with_base (m : list Z) (proc_name imports os_base : Z) : run Z :=
  if imports =? 0 then Done 0
  else
    number_of_names ← ld32 m (imports + OFF_NUMBER_OF_NAMES);
    names_rva ← ld32 m (imports + OFF_ADDRESS_OF_NAMES);
    funcs_rva ← ld32 m (imports + OFF_ADDRESS_OF_FUNCTIONS);
    loop (S (Z.to_nat number_of_names)) (proc_body m proc_name os_base names_rva funcs_rva number_of_names) 0.

Definition get_proc_ex (m : list Z) (proc_name imports : Z) : run Z :=
  get_proc_ex_with_base m proc_name imports OS_BASE.

(** *** Alignment *)

Definition OFF_CHARACTERISTICS : Z := 36.
Definition ALIGN_EXP_DEFAULT : Z := 12.

Definition coff_get_align_from_characteristics (characteristics : Z) : Z :=
  let cl := Z.shiftr (Z.land (Z.shiftr characteristics 16) 0xff) 4 in
  let cl :=
    if cl =? 0 then ALIGN_EXP_DEFAULT
    else
      let cl := cl -ₘ 1 in
      if ALIGN_EXP_DEFAULT <? cl then ALIGN_EXP_DEFAULT else cl in
  (1 <<ₘ cl) - 1.

Definition coff_get_align_ptr (m : list Z) (section : Z) : run Z :=
  characteristics ← ld32 m (section + OFF_CHARACTERISTICS);
  Done (coff_get_align_from_characteristics characteristics).

(** ** The tables as lists *)

(** The addresses of [n] records of [stride] bytes from [p]. *)
Fixpoint records (p stride : Z) (n : nat) : list Z :=
  match n with
  | O => []
  | S n => p :: records (p + stride) stride n
  end.

(** Where a relocation applies at the image's own base, its symbol and its type. *)
Record reloc : Type := Reloc { r_place : Z; r_sym : Z; r_type : Z }.

Definition reloc_at (m : list Z) (sec_va a : Z) : reloc :=
  Reloc (word_at m (a + OFF_RELOC_VA) +ₘ sec_va) (word_at m (a + OFF_RELOC_SYM_INDEX)) (word16_at m (a + OFF_RELOC_TYPE)).

Definition reloc_addrs (m : list Z) (coff sec : Z) : list Z :=
  records (coff + word_at m (sec + OFF_SEC_PTR_RELOC)) COFF_RELOC_SIZE (Z.to_nat (word16_at m (sec + OFF_SEC_NUM_RELOC))).

Definition section_relocs (m : list Z) (coff sec : Z) : list reloc :=
  reloc_at m (word_at m (sec + OFF_SEC_VIRTUAL_ADDRESS)) <$> reloc_addrs m coff sec.

Definition sections (m : list Z) (coff : Z) : list Z :=
  records (coff + COFF_HEADER_SIZE) COFF_SECTION_SIZE (Z.to_nat (word16_at m (coff + OFF_N_SECTIONS))).

(** All relocations of the object file, in the order they are applied. *)
Definition relocs (m : list Z) (coff : Z) : list reloc := mjoin (section_relocs m coff <$> sections m coff).

(** Only two types patch; both at the place moved by [delta]. *)
Definition patching (r : reloc) : bool := (r_type r =? RELOC_TYPE_DIR32) || (r_type r =? RELOC_TYPE_REL32).
Definition target (delta : Z) (r : reloc) : Z := r_place r +ₘ delta.
Definition sym_value (m : list Z) (sym : Z) (r : reloc) : Z := word_at m (sym + r_sym r * COFF_SYM_SIZE + OFF_SYM_VALUE).

(** A window of [n] bytes at [t] that holds a record of [k] bytes at [a]. *)
Definition holds_record (t n k a : Z) : bool := (t <=? a) && (a + k <=? t + n).

(** The file of [n] bytes at [coff] holds its tables, and every patch is in memory and
    outside the file. *)
Definition linkable (m : list Z) (coff sym delta n : Z) : bool :=
  (0 <=? coff) && (coff + n <=? mlen m) && holds_record coff n COFF_HEADER_SIZE coff &&
  forallb (fun sec => holds_record coff n COFF_SECTION_SIZE sec &&
                      forallb (holds_record coff n COFF_RELOC_SIZE) (reloc_addrs m coff sec)) (sections m coff) &&
  forallb (fun r => holds_record coff n COFF_SYM_SIZE (sym + r_sym r * COFF_SYM_SIZE) &&
    (negb (patching r) ||
     (target delta r + 4 <=? mlen m) && ((target delta r + 4 <=? coff) || (coff + n <=? target delta r)))) (relocs m coff).

(** The value the linked word gains when image and symbols are moved by [delta]. *)
Definition linked (m : list Z) (sym delta : Z) (r : reloc) : Z :=
  let S := sym_value m sym r + delta in
  if r_type r =? RELOC_TYPE_DIR32 then S
  else if r_type r =? RELOC_TYPE_REL32 then S - (r_place r + delta + 4)
  else 0.

(** ** Patch lists *)

Abbreviation patch := (Z * Z)%type.

Definition patch_one (m : list Z) (p : patch) : list Z := write32 m p.1 (word_at m p.1 +ₘ p.2).
Definition patch_all (m : list Z) (ps : list patch) : list Z := foldl patch_one m ps.

(** What a list of patches adds to the word at [a]. *)
Definition gain (a : Z) (ps : list patch) : Z := foldr (fun p acc => if p.1 =? a then p.2 + acc else acc) 0 ps.

Definition fix_patches (m : list Z) (sym delta : Z) (r : reloc) : list patch :=
  if r_type r =? RELOC_TYPE_DIR32 then [(target delta r, sym_value m sym r)]
  else if r_type r =? RELOC_TYPE_REL32 then [(target delta r, sym_value m sym r -ₘ r_place r -ₘ 4)]
  else [].

Definition rebase_patches (delta : Z) (r : reloc) : list patch :=
  if r_type r =? RELOC_TYPE_DIR32 then [(target delta r, delta)] else [].

(** Every patch is a word in memory that avoids the window. *)
Definition avoids (m : list Z) (t n : Z) (ps : list patch) : Prop :=
  Forall (fun p => 0 <= p.1 /\ p.1 + 4 <= mlen m /\ (p.1 + 4 <= t \/ t + n <= p.1)) ps.

(** The same memory but for bytes outside the window. *)
Definition agree (m m' : list Z) (t n : Z) : Prop :=
  mlen m' = mlen m /\ bytes m' /\ forall i, t <= i < t + n -> byte_at m' i = byte_at m i.

Lemma patch_one_byte m p i : 0 <= p.1 -> p.1 + 4 <= mlen m -> i < p.1 \/ p.1 + 4 <= i ->
  byte_at (patch_one m p) i = byte_at m i.
Proof. intros. unfold patch_one. rewrite byte_at_write32 by lia. by replace ((p.1 <=? i) && (i <? p.1 + 4)) with false by lia. Qed.

Lemma patch_all_mlen ps m : mlen (patch_all m ps) = mlen m.
Proof.
  revert m. induction ps as [|p ps IH]; intros m; [done|]. cbn. rewrite IH. apply mlen_write32.
Qed.

Lemma patch_all_bytes ps m : bytes m -> bytes (patch_all m ps).
Proof. revert m. induction ps as [|p ps IH]; intros m Hm; [done|]. apply IH, bytes_write32, Hm. Qed.

Lemma patch_all_byte ps m i : Forall (fun p => 0 <= p.1 /\ p.1 + 4 <= mlen m /\ (i < p.1 \/ p.1 + 4 <= i)) ps ->
  byte_at (patch_all m ps) i = byte_at m i.
Proof.
  revert m. induction ps as [|p ps IH]; intros m H; [done|]. apply Forall_cons_1 in H as [(H1 & H2 & H3) Hps].
  cbn. rewrite IH; [by apply patch_one_byte|]. unfold patch_one. by rewrite mlen_write32.
Qed.

Lemma patch_all_agree m m' t n ps : agree m m' t n -> avoids m t n ps -> agree m (patch_all m' ps) t n.
Proof.
  intros (Hl & Hb & H) Ha. split; [by rewrite patch_all_mlen|]. split; [by apply patch_all_bytes|].
  intros i Hi. rewrite <- H by done. apply patch_all_byte. eapply Forall_impl; [exact Ha|]. cbn. intros p. lia.
Qed.

Lemma patch_all_word ps m a : bytes m -> 0 <= a ->
  Forall (fun p => 0 <= p.1 /\ p.1 + 4 <= mlen m /\ (p.1 = a \/ p.1 + 4 <= a \/ a + 4 <= p.1)) ps ->
  word_at (patch_all m ps) a = word_at m a +ₘ gain a ps.
Proof.
  revert m. induction ps as [|p ps IH]; intros m Hm Ha H; cbn.
  - rewrite Z.add_0_r. symmetry. apply wrap_small, word_at_range, Hm.
  - apply Forall_cons_1 in H as [(H1 & H2 & Hp) Hps]. rewrite IH; [|by apply bytes_write32|done|].
    2: { unfold patch_one. by rewrite mlen_write32. }
    unfold patch_one. destruct (p.1 =? a) eqn:E.
    + apply Z.eqb_eq in E as <-. rewrite word_at_write32 by (try apply (wrap_range 32); lia).
      rewrite wrap_add_l, <- Z.add_assoc. done.
    + rewrite word_at_write32_other by lia. done.
Qed.

Lemma gain_app a ps qs : gain a (ps ++ qs) = gain a ps + gain a qs.
Proof. unfold gain. induction ps as [|p ps IH]; [done|]. cbn. rewrite IH. case_match; lia. Qed.

Lemma patch_all_app m ps qs : patch_all m (ps ++ qs) = patch_all (patch_all m ps) qs.
Proof. apply foldl_app. Qed.

(** ** The loops over a table *)

Lemma table_loop (I : list Z -> Prop) body f stride n p m :
  (forall m q, body (m, q, 0) = Done (inr m)) ->
  (forall m q k, I m -> q ∈ records p stride n -> 0 < k <= Z.of_nat n ->
     body (m, q, k) = Done (inl (f m q, q + stride, k -ₘ 1)) /\ I (f m q)) ->
  Z.of_nat n < 2 ^ 32 -> I m ->
  loop (S n) body (m, p, Z.of_nat n) = Done (foldl f m (records p stride n)) /\ I (foldl f m (records p stride n)).
Proof.
  intros H0 Hs Hn HI. revert p m HI Hs Hn. induction n as [|n IH]; intros p m HI Hs Hn; rewrite loop_S.
  - rewrite H0. done.
  - destruct (Hs m p (Z.of_nat (S n))) as [E HI']; [done|by left|lia|]. rewrite E. run_step.
    replace (Z.of_nat (S n) -ₘ 1) with (Z.of_nat n) by (rewrite wrap_small; lia).
    apply IH; [done| |lia]. intros m' q k ? ? ?. apply Hs; [done|by right|lia].
Qed.

Lemma foldl_patches {A} (P : A -> list patch) l m :
  foldl (fun m x => patch_all m (P x)) m l = patch_all m (mjoin (P <$> l)).
Proof. revert m. induction l as [|x l IH]; intros m; [done|]. cbn. by rewrite IH, patch_all_app. Qed.

Lemma mjoin_mjoin {A B C} (P : A -> list B) (f : C -> list A) l :
  mjoin (P <$> mjoin (f <$> l)) = mjoin ((fun x => mjoin (P <$> f x)) <$> l).
Proof.
  induction l as [|x l IH]; [done|]. by rewrite !fmap_cons, !mjoin_cons, fmap_app, join_app, IH.
Qed.

Lemma agree_ld32 m m' t n a : agree m m' t n -> 0 <= t -> t + n <= mlen m -> t <= a -> a + 4 <= t + n ->
  ld32 m' a = Done (word_at m a).
Proof. intros (Hl & _ & H) ? ? ? ?. rewrite ld32_ok by lia. unfold word_at. by rewrite !H by lia. Qed.

Lemma agree_ld16 m m' t n a : agree m m' t n -> 0 <= t -> t + n <= mlen m -> t <= a -> a + 2 <= t + n ->
  ld16 m' a = Done (word16_at m a).
Proof. intros (Hl & _ & H) ? ? ? ?. rewrite ld16_ok by lia. unfold word16_at. by rewrite !H by lia. Qed.

Lemma agree_refl m t n : bytes m -> agree m m t n.
Proof. done. Qed.

Section Tables.
Context (m0 : list Z) (coff sym delta n : Z) (Hm0 : bytes m0) (Hlink : linkable m0 coff sym delta n = true).

Lemma linkable_bounds : 0 <= coff /\ coff + n <= mlen m0 /\ coff + COFF_HEADER_SIZE <= coff + n.
Proof. unfold linkable, holds_record in Hlink. rewrite !andb_true_iff in Hlink. lia. Qed.

Lemma linkable_section sec : sec ∈ sections m0 coff ->
  coff <= sec /\ sec + COFF_SECTION_SIZE <= coff + n /\
  forall q, q ∈ reloc_addrs m0 coff sec -> coff <= q /\ q + COFF_RELOC_SIZE <= coff + n.
Proof.
  intros Hs. unfold linkable in Hlink. rewrite !andb_true_iff in Hlink. destruct Hlink as [[_ H] _].
  rewrite forallb_forall in H. apply list_elem_of_In, H in Hs. apply andb_true_iff in Hs as [H1 H2].
  unfold holds_record in *. split_and!; [lia..|]. intros q Hq. rewrite forallb_forall in H2.
  apply list_elem_of_In, H2 in Hq. lia.
Qed.

Lemma linkable_reloc r : r ∈ relocs m0 coff ->
  coff <= sym + r_sym r * COFF_SYM_SIZE /\ sym + r_sym r * COFF_SYM_SIZE + COFF_SYM_SIZE <= coff + n /\
  (patching r = true -> target delta r + 4 <= mlen m0 /\ (target delta r + 4 <= coff \/ coff + n <= target delta r)).
Proof.
  intros Hr. unfold linkable in Hlink. rewrite !andb_true_iff in Hlink. destruct Hlink as [_ H].
  rewrite forallb_forall in H. apply list_elem_of_In, H in Hr. unfold holds_record in Hr.
  split_and!; [lia..|]. intros Hp. rewrite Hp in Hr. cbn [negb orb] in Hr. lia.
Qed.

Lemma elem_reloc sec q : sec ∈ sections m0 coff -> q ∈ reloc_addrs m0 coff sec ->
  reloc_at m0 (word_at m0 (sec + OFF_SEC_VIRTUAL_ADDRESS)) q ∈ relocs m0 coff.
Proof.
  intros Hs Hq. unfold relocs. apply list_elem_of_join. exists (section_relocs m0 coff sec).
  split; apply list_elem_of_fmap; eauto.
Qed.

Context (body : Z -> list Z * Z * Z -> run (list Z * Z * Z + list Z)) (P : reloc -> list patch).
Hypothesis body_0 : forall sec_va m q, body sec_va (m, q, 0) = Done (inr m).
Hypothesis body_S : forall m sec_va q k, agree m0 m coff n -> coff <= q -> q + COFF_RELOC_SIZE <= coff + n ->
  reloc_at m0 sec_va q ∈ relocs m0 coff -> 0 < k ->
  body sec_va (m, q, k) = Done (inl (patch_all m (P (reloc_at m0 sec_va q)), q + COFF_RELOC_SIZE, k -ₘ 1)).
Hypothesis P_avoids : forall r, r ∈ relocs m0 coff -> avoids m0 coff n (P r).

Lemma section_step m sec k : agree m0 m coff n -> sec ∈ sections m0 coff -> 0 < k ->
  section_body coff body (m, sec, k) =
    Done (inl (patch_all m (mjoin (P <$> section_relocs m0 coff sec)), sec + COFF_SECTION_SIZE, k -ₘ 1)) /\
  agree m0 (patch_all m (mjoin (P <$> section_relocs m0 coff sec))) coff n.
Proof.
  intros Hag Hsec Hk. pose proof linkable_bounds as (? & ? & ?).
  destruct (linkable_section sec Hsec) as (Hlo & Hhi & Hrel). change COFF_SECTION_SIZE with 40 in *.
  set (va := word_at m0 (sec + OFF_SEC_VIRTUAL_ADDRESS)).
  assert (forall l, mjoin (P <$> (reloc_at m0 va <$> l)) = mjoin ((fun q => P (reloc_at m0 va q)) <$> l)) as Ej.
  { intros l. by rewrite <- list_fmap_compose. }
  unfold section_body. replace (k =? 0) with false by lia.
  rewrite (agree_ld32 m0 m coff n (sec + OFF_SEC_PTR_RELOC)) by (try done; unfold OFF_SEC_PTR_RELOC; lia). run_step.
  rewrite (agree_ld16 m0 m coff n (sec + OFF_SEC_NUM_RELOC)) by (try done; unfold OFF_SEC_NUM_RELOC; lia). run_step.
  rewrite (agree_ld32 m0 m coff n (sec + OFF_SEC_VIRTUAL_ADDRESS)) by (try done; unfold OFF_SEC_VIRTUAL_ADDRESS; lia). run_step. fold va.
  pose proof (word16_range m0 (sec + OFF_SEC_NUM_RELOC) Hm0) as Hn.
  destruct (table_loop (fun m => agree m0 m coff n) (body va) (fun m q => patch_all m (P (reloc_at m0 va q)))
    COFF_RELOC_SIZE (Z.to_nat (word16_at m0 (sec + OFF_SEC_NUM_RELOC)))
    (coff + word_at m0 (sec + OFF_SEC_PTR_RELOC)) m) as [E Hag'].
  - apply body_0.
  - intros m' q k' Hm' Hq Hk'. destruct (Hrel q Hq). pose proof (elem_reloc sec q Hsec Hq).
    split; [by apply body_S; try lia|]. apply patch_all_agree; [done|]. by apply P_avoids.
  - lia.
  - done.
  - rewrite Z2Nat.id in E by lia. rewrite E. run_step. unfold section_relocs. fold va. rewrite Ej.
    rewrite (foldl_patches (fun q => P (reloc_at m0 va q))) in *. done.
Qed.

Lemma tables_run m : agree m0 m coff n ->
  (n_sec ← ld16 m (coff + OFF_N_SECTIONS);
   loop (S (Z.to_nat n_sec)) (section_body coff body) (m, coff + COFF_HEADER_SIZE, n_sec)) =
  Done (patch_all m (mjoin (P <$> relocs m0 coff))) /\
  agree m0 (patch_all m (mjoin (P <$> relocs m0 coff))) coff n.
Proof.
  intros Hag. pose proof linkable_bounds as (? & ? & ?). unfold COFF_HEADER_SIZE in *.
  rewrite (agree_ld16 m0 m coff n) by (try done; unfold OFF_N_SECTIONS; lia). run_step.
  pose proof (word16_range m0 (coff + OFF_N_SECTIONS) Hm0) as Hn.
  destruct (table_loop (fun m => agree m0 m coff n) (section_body coff body)
    (fun m sec => patch_all m (mjoin (P <$> section_relocs m0 coff sec)))
    COFF_SECTION_SIZE (Z.to_nat (word16_at m0 (coff + OFF_N_SECTIONS))) (coff + 20) m) as [E Hag'].
  - done.
  - intros m' sec k Hm' Hsec Hk. apply section_step; [done|done|lia].
  - lia.
  - done.
  - rewrite Z2Nat.id in E by lia. rewrite E.
    unfold relocs. rewrite mjoin_mjoin, foldl_patches in *. done.
Qed.
End Tables.

(** ** Relocating, then moving *)

Lemma patch_add_ok m a v : 0 <= a -> a + 4 <= mlen m -> patch_add_u32 m a v = Done (patch_one m (a, v)).
Proof. intros. unfold patch_add_u32. rewrite ld32_ok by done. run_step. by apply st32_ok. Qed.

Lemma target_range delta r : 0 <= target delta r < 2 ^ 32.
Proof. apply (wrap_range 32). lia. Qed.

Section Link.
Context (m0 : list Z) (coff sym delta n : Z) (Hm0 : bytes m0) (Hlink : linkable m0 coff sym delta n = true).

Lemma patching_place r : r ∈ relocs m0 coff -> patching r = true ->
  0 <= target delta r /\ target delta r + 4 <= mlen m0 /\
  (target delta r + 4 <= coff \/ coff + n <= target delta r).
Proof.
  intros Hr Hp. destruct (linkable_reloc m0 coff sym delta n Hlink r Hr) as (_ & _ & H).
  pose proof (target_range delta r). destruct (H Hp). lia.
Qed.

Lemma fix_avoids r : r ∈ relocs m0 coff -> avoids m0 coff n (fix_patches m0 sym delta r).
Proof.
  intros Hr. pose proof (patching_place r Hr) as H. unfold fix_patches, patching, avoids in *.
  repeat case_match; try apply Forall_nil_2; apply Forall_cons_2; try apply Forall_nil_2; cbn; by apply H.
Qed.

Lemma rebase_avoids r : r ∈ relocs m0 coff -> avoids m0 coff n (rebase_patches delta r).
Proof.
  intros Hr. pose proof (patching_place r Hr) as H. unfold rebase_patches, patching, avoids in *.
  repeat case_match; try apply Forall_nil_2; apply Forall_cons_2; try apply Forall_nil_2; cbn; by apply H.
Qed.

Lemma reloc_step m sec_va q k : agree m0 m coff n -> coff <= q -> q + COFF_RELOC_SIZE <= coff + n ->
  reloc_at m0 sec_va q ∈ relocs m0 coff -> 0 < k ->
  reloc_body sym delta sec_va (m, q, k) =
    Done (inl (patch_all m (fix_patches m0 sym delta (reloc_at m0 sec_va q)), q + COFF_RELOC_SIZE, k -ₘ 1)).
Proof.
  intros Hag Hq1 Hq2 Hr Hk. pose proof (linkable_bounds m0 coff sym delta n Hlink) as (? & ? & _).
  destruct (linkable_reloc m0 coff sym delta n Hlink _ Hr) as (Hs1 & Hs2 & _).
  pose proof (patching_place _ Hr) as Ht. pose proof Hag as (Hlm & _ & _).
  set (r := reloc_at m0 sec_va q) in *.
  unfold COFF_RELOC_SIZE, COFF_SYM_SIZE in *. unfold reloc_body, COFF_SYM_SIZE. replace (k =? 0) with false by lia.
  rewrite (agree_ld32 m0 m coff n (q + OFF_RELOC_SYM_INDEX)) by (try done; unfold OFF_RELOC_SYM_INDEX; lia). run_step.
  change (word_at m0 (q + OFF_RELOC_SYM_INDEX)) with (r_sym r).
  rewrite (agree_ld32 m0 m coff n (sym + r_sym r * 18 + OFF_SYM_VALUE)) by (try done; unfold OFF_SYM_VALUE; lia).
  change (word_at m0 (sym + r_sym r * 18 + OFF_SYM_VALUE)) with (sym_value m0 sym r). run_step.
  rewrite (agree_ld16 m0 m coff n (q + OFF_RELOC_TYPE)) by (try done; unfold OFF_RELOC_TYPE; lia). run_step.
  change (word16_at m0 (q + OFF_RELOC_TYPE)) with (r_type r).
  rewrite (agree_ld32 m0 m coff n (q + OFF_RELOC_VA)) by (try done; unfold OFF_RELOC_VA; lia). run_step.
  change (word_at m0 (q + OFF_RELOC_VA) +ₘ sec_va) with (r_place r).
  change (r_place r +ₘ delta) with (target delta r).
  unfold patching in Ht. unfold fix_patches.
  destruct (r_type r =? RELOC_TYPE_DIR32); [|destruct (r_type r =? RELOC_TYPE_REL32); [|done]].
  - destruct (Ht eq_refl) as (? & ? & _). rewrite patch_add_ok by lia. done.
  - destruct (Ht eq_refl) as (? & ? & _). rewrite patch_add_ok by lia. done.
Qed.

Lemma rebase_step m sec_va q k : agree m0 m coff n -> coff <= q -> q + COFF_RELOC_SIZE <= coff + n ->
  reloc_at m0 sec_va q ∈ relocs m0 coff -> 0 < k ->
  rebase_body delta sec_va (m, q, k) =
    Done (inl (patch_all m (rebase_patches delta (reloc_at m0 sec_va q)), q + COFF_RELOC_SIZE, k -ₘ 1)).
Proof.
  intros Hag Hq1 Hq2 Hr Hk. pose proof (linkable_bounds m0 coff sym delta n Hlink) as (? & ? & _).
  pose proof (patching_place _ Hr) as Ht. pose proof Hag as (Hlm & _ & _).
  set (r := reloc_at m0 sec_va q) in *.
  unfold COFF_RELOC_SIZE in *. unfold rebase_body. replace (k =? 0) with false by lia.
  rewrite (agree_ld16 m0 m coff n (q + OFF_RELOC_TYPE)) by (try done; unfold OFF_RELOC_TYPE; lia). run_step.
  change (word16_at m0 (q + OFF_RELOC_TYPE)) with (r_type r).
  rewrite (agree_ld32 m0 m coff n (q + OFF_RELOC_VA)) by (try done; unfold OFF_RELOC_VA; lia). run_step.
  change (word_at m0 (q + OFF_RELOC_VA) +ₘ sec_va) with (r_place r).
  change (r_place r +ₘ delta) with (target delta r).
  unfold patching in Ht. unfold rebase_patches. destruct (r_type r =? RELOC_TYPE_DIR32); [|done].
  destruct (Ht eq_refl) as (? & ? & _). rewrite patch_add_ok by lia. done.
Qed.

Lemma mjoin_avoids (P : reloc -> list patch) : (forall r, r ∈ relocs m0 coff -> avoids m0 coff n (P r)) ->
  avoids m0 coff n (mjoin (P <$> relocs m0 coff)).
Proof.
  intros H. apply Forall_forall. intros p Hp. apply list_elem_of_join in Hp as (ps & Hp & Hps).
  apply list_elem_of_fmap in Hps as (r & -> & Hr). specialize (H r Hr). unfold avoids in H.
  rewrite Forall_forall in H. by apply H.
Qed.

Lemma avoids_and (ps : list patch) (X : Z -> Prop) : avoids m0 coff n ps -> Forall (fun p => X p.1) ps ->
  Forall (fun p => 0 <= p.1 /\ p.1 + 4 <= mlen m0 /\ X p.1) ps.
Proof.
  intros H HX. unfold avoids in H. rewrite Forall_forall in *. intros p Hp.
  specialize (H p Hp). specialize (HX p Hp). cbn in *. tauto.
Qed.

(** The two passes are two patch lists, read from the tables of the original file. *)
Lemma link_patches : exists m1,
  fix_coff_relocs m0 coff sym delta = Done m1 /\
  m1 = patch_all m0 (mjoin (fix_patches m0 sym delta <$> relocs m0 coff)) /\
  rebase_coff m1 coff sym delta = Done (patch_all m1 (mjoin (rebase_patches delta <$> relocs m0 coff))).
Proof.
  destruct (tables_run m0 coff sym delta n Hm0 Hlink (reloc_body sym delta) (fix_patches m0 sym delta)
    ltac:(done) reloc_step fix_avoids m0 (agree_refl _ _ _ Hm0)) as [E1 Hag].
  eexists. split; [exact E1|]. split; [done|].
  exact (proj1 (tables_run m0 coff sym delta n Hm0 Hlink (rebase_body delta) (rebase_patches delta)
    ltac:(done) rebase_step rebase_avoids _ Hag)).
Qed.
End Link.

(** What the relocations at [a] add up to in the moved image. *)
Definition moved_gain (m : list Z) (sym delta a : Z) (rs : list reloc) : Z :=
  foldr (fun r acc => if patching r && (target delta r =? a) then linked m sym delta r + acc else acc) 0 rs.

Lemma moved_gain_patches m sym delta a rs : exists q,
  gain a (mjoin (fix_patches m sym delta <$> rs)) + gain a (mjoin (rebase_patches delta <$> rs)) =
  moved_gain m sym delta a rs + q * 2 ^ 32.
Proof.
  induction rs as [|r rs [q IH]]; [by exists 0|]. rewrite !fmap_cons, !mjoin_cons, !gain_app.
  unfold moved_gain. cbn [foldr]. fold (moved_gain m sym delta a rs).
  unfold fix_patches at 1, rebase_patches at 1, patching, linked.
  destruct (r_type r =? RELOC_TYPE_DIR32) eqn:E1; cbn [orb].
  - exists q. cbn [gain foldr fst snd]. destruct (target delta r =? a); cbn [andb]; lia.
  - destruct (r_type r =? RELOC_TYPE_REL32) eqn:E2; cbn [orb].
    + unfold gain at 1 3. cbn [foldr fst snd]. destruct (target delta r =? a); cbn [andb]; [|exists q; lia].
      unwrap. set (x := sym_value m sym r - r_place r - 4). exists (q - x / 2 ^ 32).
      unfold wrap. pose proof (Z.div_mod x (2 ^ 32) ltac:(lia)). lia.
    + exists q. unfold gain at 1 3. cbn [foldr andb]. lia.
Qed.

(** C18: relocating an object file and then moving it by the same distance is linking
    it at its new address.  For an object file whose tables it holds and whose patches
    are in memory and outside the file, [fix_coff_relocs] and then [rebase_coff] return;
    each word where relocations apply gains, for each of them in any order, [S + delta]
    (absolute) or [(S + delta) - (P + delta + 4)] (relative to the next instruction),
    modulo [2^32]; other relocation types, and every other byte, are left alone. *)
Theorem link_then_move m coff sym delta n : bytes m -> linkable m coff sym delta n = true ->
  exists m1 m2,
    fix_coff_relocs m coff sym delta = Done m1 /\ rebase_coff m1 coff sym delta = Done m2 /\
    mlen m2 = mlen m /\
    (forall a, (forall r, r ∈ relocs m coff -> patching r = true -> a < target delta r \/ target delta r + 4 <= a) ->
       byte_at m2 a = byte_at m a) /\
    (forall a, 0 <= a ->
       (forall r, r ∈ relocs m coff -> patching r = true ->
          target delta r = a \/ target delta r + 4 <= a \/ a + 4 <= target delta r) ->
       word_at m2 a = word_at m a +ₘ moved_gain m sym delta a (relocs m coff)).
Proof.
  intros Hm Hlink. destruct (link_patches m coff sym delta n Hm Hlink) as (m1 & E1 & Em1 & E2).
  pose proof (mjoin_avoids m coff n _ (fix_avoids m coff sym delta n Hlink)) as Ha1.
  pose proof (mjoin_avoids m coff n _ (rebase_avoids m coff sym delta n Hlink)) as Ha2.
  assert (forall X : Z -> Prop,
    (forall r, r ∈ relocs m coff -> patching r = true -> X (target delta r)) ->
    Forall (fun p => 0 <= p.1 /\ p.1 + 4 <= mlen m /\ X p.1) (mjoin (fix_patches m sym delta <$> relocs m coff)) /\
    Forall (fun p => 0 <= p.1 /\ p.1 + 4 <= mlen m /\ X p.1) (mjoin (rebase_patches delta <$> relocs m coff))) as HX.
  { intros X H. split; eapply avoids_and; try done; apply Forall_forall; intros p Hp;
      apply list_elem_of_join in Hp as (ps & Hp & Hps);
      apply list_elem_of_fmap in Hps as (r & -> & Hr); specialize (H r Hr);
      unfold fix_patches, rebase_patches, patching in *; repeat case_match; decompose_list_elem_of; subst; auto. }
  assert (mlen m1 = mlen m) as Hl1 by (rewrite Em1; apply patch_all_mlen).
  exists m1, (patch_all m1 (mjoin (rebase_patches delta <$> relocs m coff))).
  split_and!; [done|done|by rewrite patch_all_mlen|..].
  - intros a H. destruct (HX (fun t => a < t \/ t + 4 <= a) H) as [X1 X2].
    rewrite patch_all_byte by (rewrite Hl1; exact X2).
    rewrite Em1. apply patch_all_byte. exact X1.
  - intros a Ha H. destruct (HX (fun t => t = a \/ t + 4 <= a \/ a + 4 <= t) H) as [X1 X2].
    rewrite patch_all_word; [|rewrite Em1; by apply patch_all_bytes|done|rewrite Hl1; exact X2].
    rewrite Em1, patch_all_word by (try done; exact X1).
    destruct (moved_gain_patches m sym delta a (relocs m coff)) as [q Eq]. rewrite wrap_add_l.
    rewrite <- Z.add_assoc, Eq. unfold wrap. by rewrite Z.add_assoc, Z_mod_plus_full.
Qed.

(** ** Names *)

(** The string at [a]: the bytes before the first zero, at most [n]. *)
Fixpoint strn (m : list Z) (a : Z) (n : nat) : list Z :=
  match n with
  | O => []
  | S n => if byte_at m a =? 0 then [] else byte_at m a :: strn m (a + 1) n
  end.

(** How many bytes a comparison of at most [n] bytes may read there. *)
Definition strn_len (m : list Z) (a : Z) (n : nat) : Z := Z.min (Z.of_nat n) (mlen (strn m a n) + 1).

Definition in_mem (m : list Z) (a k : Z) : bool := (0 <=? a) && (a + k <=? mlen m).

Lemma strn_len_S m a n : byte_at m a <> 0 -> strn_len m a (S n) = strn_len m (a + 1) n + 1.
Proof.
  intros H. unfold strn_len. cbn [strn]. replace (byte_at m a =? 0) with false by lia. rewrite mlen_cons. lia.
Qed.

Lemma strn_ext m m' a n : (forall i, a <= i < a + strn_len m a n -> byte_at m' i = byte_at m i) ->
  strn m' a n = strn m a n.
Proof.
  revert a. induction n as [|n IH]; intros a H; [done|]. cbn [strn].
  assert (0 < strn_len m a (S n)) by (unfold strn_len; pose proof (mlen_nonneg (strn m a (S n))); lia).
  rewrite H by lia. destruct (byte_at m a =? 0) eqn:E; [done|]. f_equal. apply IH. intros i Hi.
  apply H. rewrite strn_len_S by lia. lia.
Qed.

Lemma name_loop m a b n i fuel : 0 <= i -> Z.of_nat n + i < 2 ^ 32 -> (0 < n)%nat -> (n <= fuel)%nat ->
  in_mem m (a + i) (strn_len m (a + i) n) = true -> in_mem m (b + i) (strn_len m (b + i) n) = true ->
  loop fuel (name_body m a b (i + Z.of_nat n)) i = Done (bool_decide (strn m (a + i) n = strn m (b + i) n)).
Proof.
  intros Hi Hn Hpos Hfuel Ha Hb. revert i fuel Hi Hn Hpos Hfuel Ha Hb.
  induction n as [|n IH]; intros i [|fuel] Hi Hn Hpos Hfuel Ha Hb; try lia.
  assert (forall c, 0 < strn_len m c (S n)) as Hlen.
  { intros c. unfold strn_len. pose proof (mlen_nonneg (strn m c (S n))). lia. }
  pose proof (Hlen (a + i)). pose proof (Hlen (b + i)). unfold in_mem in *.
  rewrite loop_S. unfold name_body at 2. rewrite !ld8_ok by lia. run_step. cbn [strn].
  destruct (byte_at m (a + i) =? byte_at m (b + i)) eqn:E; cbn [negb].
  2: { apply Z.eqb_neq in E. rewrite bool_decide_false; [done|].
       destruct (byte_at m (a + i) =? 0) eqn:E1, (byte_at m (b + i) =? 0) eqn:E2; [lia|congruence..]. }
  apply Z.eqb_eq in E. rewrite <- E. destruct (byte_at m (a + i) =? 0) eqn:E0; [done|].
  rewrite !strn_len_S in * by lia. rewrite (wrap_small 32 (i + 1)) by lia.
  rewrite (bool_decide_ext _ (strn m (a + i + 1) n = strn m (b + i + 1) n)) by (split; [by intros [= ?]|by intros ->]).
  destruct n as [|n].
  - change (Z.of_nat 1) with 1. by rewrite Z.eqb_refl.
  - replace (i + 1 =? i + Z.of_nat (S (S n))) with false by (symmetry; apply Z.eqb_neq; lia). run_step.
    replace (i + Z.of_nat (S (S n))) with (i + 1 + Z.of_nat (S n)) by lia.
    rewrite IH by (rewrite ?Z.add_assoc; unfold in_mem; lia). by rewrite !Z.add_assoc.
Qed.

Lemma name_eq_correct m a b n : Z.of_nat n < 2 ^ 32 ->
  in_mem m a (strn_len m a n) = true -> in_mem m b (strn_len m b n) = true ->
  name_eq_n_ptr m a b (Z.of_nat n) = Done (bool_decide (strn m a n = strn m b n)).
Proof.
  intros Hn Ha Hb. unfold name_eq_n_ptr. destruct n as [|n]; [done|].
  replace (Z.of_nat (S n) =? 0) with false by (symmetry; apply Z.eqb_neq; lia).
  pose proof (name_loop m a b (S n) 0 (S (Z.to_nat (Z.of_nat (S n))))) as H.
  rewrite !Z.add_0_r, Z.add_0_l in H. apply H; lia || done.
Qed.

(** ** Lookups by name *)

(** [get_coff_sym]: the value of the first symbol of that name (8 bytes count), or 0. *)
Definition find_symbol (m : list Z) (p_sym count sz_sym : Z) : Z :=
  match first_from (fun i => bool_decide (strn m (p_sym + 18 * Z.of_nat i) 8 = strn m sz_sym 8)) 0 (Z.to_nat count) with
  | Some i => word_at m (p_sym + 18 * Z.of_nat i + OFF_SYM_VALUE)
  | None => 0
  end.

Lemma strn_len_bounds m a n : (0 < n)%nat -> 0 < strn_len m a n <= Z.of_nat n.
Proof. intros. unfold strn_len. pose proof (mlen_nonneg (strn m a n)). lia. Qed.

Lemma get_coff_sym_correct m p_sym count sz_sym : 0 < count < 2 ^ 32 ->
  in_mem m p_sym (18 * count) = true -> in_mem m sz_sym (strn_len m sz_sym 8) = true ->
  get_coff_sym m p_sym count sz_sym = Done (find_symbol m p_sym count sz_sym).
Proof.
  intros Hc Hp Hs. unfold get_coff_sym, find_symbol. unfold in_mem in Hp.
  set (st := fun i : nat => (p_sym + 18 * Z.of_nat i, u32 (count - Z.of_nat i))).
  replace (p_sym, count) with (st O) by (unfold st; rewrite wrap_small by lia; f_equal; lia).
  rewrite (scan_last _ st (Z.to_nat count) 0 _
    (fun i => bool_decide (strn m (p_sym + 18 * Z.of_nat i) 8 = strn m sz_sym 8))
    (fun i => word_at m (p_sym + 18 * Z.of_nat i + OFF_SYM_VALUE)) 0); [done| |lia|rewrite wrap_small; lia].
  intros i Hi. unfold coff_sym_body, st. cbn [fst snd].
  pose proof (strn_len_bounds m (p_sym + 18 * Z.of_nat i) 8 ltac:(lia)).
  change COFF_SYM_NAME_LEN with (Z.of_nat 8). rewrite name_eq_correct; [|lia|unfold in_mem; lia|done]. run_step.
  case_bool_decide; [rewrite ld32_ok by (unfold OFF_SYM_VALUE; lia); done|].
  replace (p_sym + 18 * Z.of_nat i + COFF_SYM_SIZE) with (p_sym + 18 * Z.of_nat (S i)) by (unfold COFF_SYM_SIZE; lia).
  rewrite wrap_sub_l. replace (count - Z.of_nat i - 1) with (count - Z.of_nat (S i)) by lia.
  rewrite (wrap_small 32) by lia.
  destruct (Nat.eqb_spec (S i) (Z.to_nat count)); destruct (Z.eqb_spec (count - Z.of_nat (S i)) 0); done || lia.
Qed.

(** The export table of an image at [base]: entry [i] of its two parallel tables. *)
Definition entry_addr (base table i : Z) : Z := base +ₘ table +ₘ (i *ₘ 4).
Definition name_entry (m : list Z) (imports base i : Z) : Z := entry_addr base (word_at m (imports + OFF_ADDRESS_OF_NAMES)) i.
Definition func_entry (m : list Z) (imports base i : Z) : Z := entry_addr base (word_at m (imports + OFF_ADDRESS_OF_FUNCTIONS)) i.
Definition export_name (m : list Z) (imports base i : Z) : Z := base +ₘ word_at m (name_entry m imports base i).
Definition export_func (m : list Z) (imports base i : Z) : Z := base +ₘ word_at m (func_entry m imports base i).
Definition export_count (m : list Z) (imports : Z) : nat := Z.to_nat (word_at m (imports + OFF_NUMBER_OF_NAMES)).

(** The address of the first export of that name, or 0. *)
Definition find_export (m : list Z) (name imports base : Z) : Z :=
  match first_from (fun i => bool_decide (strn m (export_name m imports base (Z.of_nat i)) 256 = strn m name 256))
          0 (export_count m imports) with
  | Some i => export_func m imports base (Z.of_nat i)
  | None => 0
  end.

(** The window [[a, a + n)] is in memory and outside [[t, t + k)]. *)
Definition apart (m : list Z) (t k a n : Z) : bool := in_mem m a n && ((a + n <=? t) || (t + k <=? a)).

(** The export table and its names are in memory, outside the table of symbols. *)
Definition exports_ok (m : list Z) (imports base t k : Z) : bool :=
  negb (imports =? 0) && apart m t k (imports + OFF_NUMBER_OF_NAMES) 12 && (0 <? word_at m (imports + OFF_NUMBER_OF_NAMES)) &&
  forallb (fun i => apart m t k (name_entry m imports base (Z.of_nat i)) 4 && apart m t k (func_entry m imports base (Z.of_nat i)) 4 &&
                    apart m t k (export_name m imports base (Z.of_nat i)) (strn_len m (export_name m imports base (Z.of_nat i)) 256))
    (seq 0 (export_count m imports)).

(** [m'] is [m] while the symbols before [q] are being resolved. *)
Definition resolving (m m' : list Z) (t q : Z) : Prop :=
  mlen m' = mlen m /\ bytes m' /\ forall a, a < t \/ q <= a -> byte_at m' a = byte_at m a.

(** What the symbol at [q] may read: nothing that was written before. *)
Definition readable (m : list Z) (t q a n : Z) : bool := in_mem m a n && ((a + n <=? t) || (q <=? a)).

Lemma apart_readable m t k q a n : q <= t + k -> apart m t k a n = true -> readable m t q a n = true.
Proof. unfold apart, readable, in_mem. lia. Qed.

Section Resolving.
Context (m m' : list Z) (t q : Z) (Hr : resolving m m' t q).

Lemma resolving_byte a n i : readable m t q a n = true -> a <= i < a + n -> byte_at m' i = byte_at m i.
Proof. intros H Hi. destruct Hr as (_ & _ & Hb). apply Hb. unfold readable in H. lia. Qed.

Lemma resolving_ld32 a : readable m t q a 4 = true -> ld32 m' a = Done (word_at m a).
Proof.
  intros H. pose proof (resolving_byte a 4) as Hb. destruct Hr as (Hl & _ & _).
  rewrite ld32_ok by (unfold readable, in_mem in H; lia). unfold word_at. by rewrite !Hb by (done || lia).
Qed.

Lemma resolving_strn a n : readable m t q a (strn_len m a n) = true ->
  strn m' a n = strn m a n /\ in_mem m' a (strn_len m' a n) = true.
Proof.
  intros H. assert (strn m' a n = strn m a n) as E.
  { apply strn_ext. intros i Hi. by apply (resolving_byte a (strn_len m a n)). }
  split; [done|]. unfold strn_len in *. rewrite E. destruct Hr as (Hl & _ & _).
  unfold readable, in_mem in *. lia.
Qed.

Lemma get_proc_resolving name imports base k : q <= t + k -> bytes m -> exports_ok m imports base t k = true ->
  readable m t q name (strn_len m name 256) = true ->
  get_proc_ex_with_base m' name imports base = Done (find_export m name imports base).
Proof.
  intros Hq Hm Hex Hn. unfold exports_ok in Hex. rewrite !andb_true_iff in Hex. destruct Hex as [[[H0 Hh] Hc] He].
  rewrite forallb_forall in He. apply negb_true_iff in H0.
  apply (apart_readable m t k q) in Hh; [|done]. unfold readable, in_mem in Hh.
  unfold OFF_NUMBER_OF_NAMES in Hh. unfold get_proc_ex_with_base. rewrite H0.
  rewrite (resolving_ld32 (imports + OFF_NUMBER_OF_NAMES)) by (unfold readable, in_mem, OFF_NUMBER_OF_NAMES; lia). run_step.
  rewrite (resolving_ld32 (imports + OFF_ADDRESS_OF_NAMES)) by (unfold readable, in_mem, OFF_ADDRESS_OF_NAMES; lia). run_step.
  rewrite (resolving_ld32 (imports + OFF_ADDRESS_OF_FUNCTIONS)) by (unfold readable, in_mem, OFF_ADDRESS_OF_FUNCTIONS; lia). run_step.
  pose proof (word_at_range m (imports + OFF_NUMBER_OF_NAMES) Hm) as HN.
  unfold find_export. change (Z.to_nat (word_at m (imports + OFF_NUMBER_OF_NAMES))) with (export_count m imports).
  change 0 with (Z.of_nat 0) at 1.
  rewrite (scan_last _ Z.of_nat (export_count m imports) 0 _
    (fun i => bool_decide (strn m (export_name m imports base (Z.of_nat i)) 256 = strn m name 256))
    (fun i => export_func m imports base (Z.of_nat i)) 0); [done| |unfold export_count; lia..].
  intros i Hi. assert (In i (seq 0 (export_count m imports))) as Hin by (apply in_seq; lia).
  specialize (He i Hin). rewrite !andb_true_iff in He. destruct He as [[He1 He2] He3].
  apply (apart_readable m t k q) in He1, He2, He3; try done.
  unfold proc_body, read_rva_entry.
  change (base +ₘ word_at m (imports + OFF_ADDRESS_OF_NAMES) +ₘ (Z.of_nat i *ₘ 4)) with (name_entry m imports base (Z.of_nat i)).
  change (base +ₘ word_at m (imports + OFF_ADDRESS_OF_FUNCTIONS) +ₘ (Z.of_nat i *ₘ 4)) with (func_entry m imports base (Z.of_nat i)).
  rewrite (resolving_ld32 (name_entry m imports base (Z.of_nat i))) by done. run_step.
  change (base +ₘ word_at m (name_entry m imports base (Z.of_nat i))) with (export_name m imports base (Z.of_nat i)).
  destruct (resolving_strn _ _ He3) as [E3 F3], (resolving_strn _ _ Hn) as [En Fn].
  change NAME_CMP_LEN with (Z.of_nat 256). rewrite name_eq_correct, E3, En by (done || lia). run_step.
  case_bool_decide; [by rewrite (resolving_ld32 (func_entry m imports base (Z.of_nat i)))|].
  unfold export_count in *. rewrite wrap_small by lia.
  replace (Z.of_nat i + 1) with (Z.of_nat (S i)) by lia.
  set (N := word_at m (imports + OFF_NUMBER_OF_NAMES)) in *.
  replace (S i =? Z.to_nat N)%nat with (N <=? Z.of_nat (S i)); [by destruct (N <=? Z.of_nat (S i))|].
  destruct (Nat.eqb_spec (S i) (Z.to_nat N)); [apply Z.leb_le|apply Z.leb_gt]; lia.
Qed.
End Resolving.

(** ** Resolving the symbols *)

(** A name of up to eight bytes is in the record, a longer one in the string table. *)
Definition sym_name (m : list Z) (strings q : Z) : Z :=
  if word_at m q =? 0 then strings + word_at m (q + 4) else q.
Definition sym_section (m : list Z) (q : Z) : Z := word16_at m (q + OFF_SYM_SECTION).

(** The value a symbol must get: that of the export it names if it is external, its
    own for absolute and debug symbols, and its address in the image otherwise. *)
Definition resolved_value (m : list Z) (sec strings imports base q : Z) : Z :=
  let s := sym_section m q in
  if s =? 0 then find_export m (sym_name m strings q) imports base
  else if negb (s =? 0xFFFF) && negb (s =? 0xFFFE) then
    word_at m (q + OFF_SYM_VALUE) +ₘ word_at m (section_ptr sec s + OFF_SEC_VIRTUAL_ADDRESS)
  else word_at m (q + OFF_SYM_VALUE).

Definition unresolved (m : list Z) (sec strings imports base q : Z) : bool :=
  (sym_section m q =? 0) && (resolved_value m sec strings imports base q =? 0).

(** What a symbol refers to is in memory, and not in an earlier record. *)
Definition symbol_ok (m : list Z) (sec strings t q : Z) : bool :=
  let s := sym_section m q in
  if s =? 0 then readable m t q (sym_name m strings q) (strn_len m (sym_name m strings q) 256)
  else if negb (s =? 0xFFFF) && negb (s =? 0xFFFE) then readable m t q (section_ptr sec s + OFF_SEC_VIRTUAL_ADDRESS) 4
  else true.

Definition symbols_ok (m : list Z) (sec symbols count strings imports base : Z) : bool :=
  in_mem m symbols (COFF_SYM_SIZE * count) && exports_ok m imports base symbols (COFF_SYM_SIZE * count) &&
  forallb (symbol_ok m sec strings symbols) (records symbols COFF_SYM_SIZE (Z.to_nat count)).

Lemma write32_same m a : bytes m -> 0 <= a -> a + 4 <= mlen m -> write32 m a (word_at m a) = m.
Proof.
  intros Hm ? ?. apply mem_ext; [apply mlen_write32|]. intros i Hi. rewrite byte_at_write32 by lia.
  destruct ((a <=? i) && (i <? a + 4)) eqn:E; [|done]. unfold word_at.
  rewrite byte_of_le4 by (try apply byte_at_range; done || lia).
  repeat case_match; f_equal; lia.
Qed.

Lemma find_export_range m name imports base : 0 <= find_export m name imports base < 2 ^ 32.
Proof. unfold find_export, export_func. case_match; [apply (wrap_range 32)|]; lia. Qed.

Lemma resolved_range m sec strings imports base q : bytes m ->
  0 <= resolved_value m sec strings imports base q < 2 ^ 32.
Proof.
  intros Hm. unfold resolved_value. cbn zeta. repeat case_match; [apply find_export_range|apply (wrap_range 32); lia|].
  by apply word_at_range.
Qed.

Section Symbols.
Context (m : list Z) (sec strings imports base t k : Z).
Context (Hm : bytes m) (Hex : exports_ok m imports base t k = true).
Abbreviation value q := (resolved_value m sec strings imports base q).
Abbreviation callback := (fun m name imports => get_proc_ex_with_base m name imports base).

Lemma symbol_step m' q c rv : resolving m m' t q -> t <= q -> q + 18 <= t + k -> t + k <= mlen m -> 0 <= t ->
  symbol_ok m sec strings t q = true -> 0 < c ->
  symbol_body sec strings imports callback (m', q, c, rv) =
    Done (inl (write32 m' (q + OFF_SYM_VALUE) (value q), q + COFF_SYM_SIZE, c -ₘ 1,
               if unresolved m sec strings imports base q then 0 else rv)).
Proof.
  intros Hr Hq Hqk Htk Ht Hok Hc. unfold symbol_body. replace (c =? 0) with false by lia.
  pose proof Hr as (Hl & Hb' & Hb).
  assert (forall a, q <= a -> a + 4 <= t + k -> ld32 m' a = Done (word_at m a)) as Hld.
  { intros a ? ?. apply (resolving_ld32 m m' t q Hr). unfold readable, in_mem. lia. }
  rewrite ld16_ok by (unfold OFF_SYM_SECTION; lia). run_step.
  assert (word16_at m' (q + OFF_SYM_SECTION) = sym_section m q) as ->.
  { unfold sym_section, word16_at, OFF_SYM_SECTION. by rewrite !Hb by lia. }
  unfold symbol_ok in Hok. cbn zeta in Hok. unfold resolved_value, unresolved, resolved_value. cbn zeta.
  destruct (sym_section m q =? 0); cbn [andb].
  - rewrite (Hld q), (Hld (q + 4)) by lia. run_step.
    assert ((if word_at m q =? 0 then Done (strings + word_at m (q + 4)) else Done q) =
      Done (sym_name m strings q)) as -> by (unfold sym_name; by case_match).
    run_step. rewrite (get_proc_resolving m m' t q Hr _ _ _ k) by (done || lia). run_step.
    rewrite st32_ok by (unfold OFF_SYM_VALUE; lia). done.
  - destruct (negb (sym_section m q =? 65535) && negb (sym_section m q =? 65534)).
    + rewrite (resolving_ld32 m m' t q Hr (section_ptr sec (sym_section m q) + OFF_SEC_VIRTUAL_ADDRESS)) by done. run_step.
      rewrite (Hld (q + OFF_SYM_VALUE)) by (unfold OFF_SYM_VALUE; lia). run_step.
      by rewrite st32_ok by (unfold OFF_SYM_VALUE; lia).
    + run_step. do 4 f_equal. rewrite <- (write32_same m' (q + OFF_SYM_VALUE)) at 1 by (try done; unfold OFF_SYM_VALUE; lia).
      f_equal. unfold word_at, OFF_SYM_VALUE. by rewrite !Hb by lia.
Qed.

Lemma symbols_loop n q m' rv : resolving m m' t q -> t <= q -> 0 <= t -> t + k <= mlen m ->
  q + 18 * Z.of_nat n <= t + k -> Z.of_nat n < 2 ^ 32 ->
  forallb (symbol_ok m sec strings t) (records q COFF_SYM_SIZE n) = true ->
  exists m2, loop (S n) (symbol_body sec strings imports callback) (m', q, Z.of_nat n, rv) =
      Done (m2, if existsb (unresolved m sec strings imports base) (records q COFF_SYM_SIZE n) then 0 else rv) /\
    mlen m2 = mlen m /\ bytes m2 /\
    (forall p, p ∈ records q COFF_SYM_SIZE n -> word_at m2 (p + OFF_SYM_VALUE) = value p) /\
    (forall a, (forall p, p ∈ records q COFF_SYM_SIZE n -> a < p + OFF_SYM_VALUE \/ p + OFF_SYM_VALUE + 4 <= a) ->
       byte_at m2 a = byte_at m' a).
Proof.
  revert q m' rv. induction n as [|n IH]; intros q m' rv Hr Hq Ht Htk Hn Hn32 Hok; rewrite loop_S.
  - exists m'. destruct Hr as (? & ? & ?). split_and!; try done. intros p Hp. by apply not_elem_of_nil in Hp.
  - cbn [records forallb] in Hok. apply andb_true_iff in Hok as [Hok1 Hok2].
    rewrite symbol_step by (done || lia). run_step. unfold COFF_SYM_SIZE, OFF_SYM_VALUE in *.
    replace (Z.of_nat (S n) -ₘ 1) with (Z.of_nat n) by (rewrite wrap_small; lia).
    destruct Hr as (Hl & Hb' & Hb).
    destruct (IH (q + 18) (write32 m' (q + 8) (value q))
      (if unresolved m sec strings imports base q then 0 else rv)) as (m2 & E & Hl2 & Hm2 & Hv & Ho); try done; try lia.
    { split; [by rewrite mlen_write32|]. split; [by apply bytes_write32|]. intros a Ha.
      rewrite byte_at_write32 by lia. replace ((q + 8 <=? a) && (a <? q + 8 + 4)) with false by lia. apply Hb. lia. }
    assert (forall p, p ∈ records (q + 18) 18 n -> q + 18 <= p) as Hrec.
    { clear. generalize (q + 18). induction n as [|n IH]; intros z p Hp; cbn in Hp; [by apply not_elem_of_nil in Hp|].
      apply elem_of_cons in Hp as [->|Hp]; [lia|]. specialize (IH _ _ Hp). lia. }
    exists m2. split; [|split_and!; [done..| |]].
    + rewrite E. cbn [records existsb]. do 2 f_equal.
      by destruct (unresolved _ _ _ _ _ q), (existsb _ (records (q + 18) 18 n)).
    + cbn [records]. intros p Hp. apply elem_of_cons in Hp as [->|Hp]; [|by apply Hv].
      assert (word_at m2 (q + 8) = word_at (write32 m' (q + 8) (value q)) (q + 8)) as ->.
      { unfold word_at. rewrite !Ho; [done|..]; intros p' Hp'; specialize (Hrec p' Hp'); lia. }
      apply word_at_write32; [lia..|by apply resolved_range].
    + cbn [records]. intros a Ha. rewrite Ho by (intros p Hp; apply Ha; by right).
      rewrite byte_at_write32 by lia. specialize (Ha q ltac:(by left)). by replace ((q + 8 <=? a) && (a <? q + 8 + 4)) with false by lia.
Qed.
End Symbols.

(** C19: symbol resolution.  With the export table of the image at [base] as resolver,
    [fix_coff_symbols] returns; every external symbol gets the address of the first
    export of its name (0 if there is none), every symbol of a section its address in
    the image, absolute and debug symbols keep their value, and no other byte changes.
    It answers 1 exactly when every external symbol was found. *)
Theorem symbols_resolved m sec symbols count strings imports base : bytes m -> 0 <= count < 2 ^ 32 ->
  symbols_ok m sec symbols count strings imports base = true ->
  exists m' retval,
    fix_coff_symbols m sec symbols count strings imports (fun m name imports => get_proc_ex_with_base m name imports base)
      = Done (m', retval) /\
    (let syms := records symbols COFF_SYM_SIZE (Z.to_nat count) in
     mlen m' = mlen m /\
     (forall q, q ∈ syms -> word_at m' (q + OFF_SYM_VALUE) = resolved_value m sec strings imports base q) /\
     (forall a, (forall q, q ∈ syms -> a < q + OFF_SYM_VALUE \/ q + OFF_SYM_VALUE + 4 <= a) ->
        byte_at m' a = byte_at m a) /\
     (retval = 1 \/ retval = 0) /\
     (retval = 1 <-> forall q, q ∈ syms -> sym_section m q = 0 -> resolved_value m sec strings imports base q <> 0)).
Proof.
  intros Hm Hc Hok. unfold symbols_ok, COFF_SYM_SIZE in *. rewrite !andb_true_iff in Hok. destruct Hok as [[Hin Hex] Hf].
  unfold in_mem in Hin.
  destruct (symbols_loop m sec strings imports base symbols (18 * count) Hm Hex (Z.to_nat count) symbols m 1)
    as (m2 & E & Hl & _ & Hv & Ho); try done; try lia.
  unfold COFF_SYM_SIZE in *. rewrite Z2Nat.id in E by lia. eexists _, _. split; [exact E|]. cbn zeta.
  set (syms := records symbols 18 (Z.to_nat count)) in *. split_and!; try done.
  - case_match; auto.
  - destruct (existsb (unresolved m sec strings imports base) syms) eqn:Ee.
    + split; [done|]. intros H. apply existsb_exists in Ee as (q & Hq & Hu).
      apply list_elem_of_In in Hq. unfold unresolved in Hu. specialize (H q Hq). lia.
    + split; [|done]. intros _ q Hq Hs Hz.
      assert (existsb (unresolved m sec strings imports base) syms = true) as Et; [|congruence].
      apply existsb_exists. exists q. split; [by apply list_elem_of_In|]. unfold unresolved. rewrite Hs, Hz. done.
Qed.

(** ** Concrete inputs *)

Definition le (n v : Z) : list Z := byte_of v <$> seqZ 0 n.

Definition obj_header (n_sec : Z) : list Z := le 2 0x14c ++ le 2 n_sec ++ le 16 0.
Definition obj_section (va ptr_reloc num_reloc : Z) : list Z :=
  le 8 0 ++ le 4 0 ++ le 4 va ++ le 8 0 ++ le 4 ptr_reloc ++ le 4 0 ++ le 4 num_reloc ++ le 4 0.
Definition obj_reloc (va sym type : Z) : list Z := le 4 va ++ le 4 sym ++ le 2 type.
Definition obj_symbol (name : list Z) (value section : Z) : list Z := name ++ le 4 value ++ le 2 section ++ le 4 0.

(** One section at 200 with an absolute, a relative and an unknown relocation against a
    symbol at 1000; the section is loaded at 300. *)
Definition link_example : list Z :=
  obj_header 1 ++ obj_section 200 60 3 ++ obj_reloc 4 0 6 ++ obj_reloc 8 0 20 ++ obj_reloc 12 0 7 ++
  obj_symbol (le 8 0x41) 1000 1 ++ replicate 192 0 ++ le 4 0 ++ le 4 5 ++ le 4 7 ++ le 4 9 ++ replicate 20 0.

Lemma link_then_move_witness : exists m1 m2,
  fix_coff_relocs link_example 0 90 100 = Done m1 /\ rebase_coff m1 0 90 100 = Done m2 /\
  word_at m2 304 = 5 + 1100 /\ word_at m2 308 = 7 + 1100 - 312 /\ word_at m2 312 = 9.
Proof.
  destruct (link_then_move link_example 0 90 100 108) as (m1 & m2 & E1 & E2 & _ & _ & H).
  - apply bytes_check. vm_compute. reflexivity.
  - vm_compute. reflexivity.
  - exists m1, m2. split; [exact E1|]. split; [exact E2|].
    assert (relocs link_example 0 = [Reloc 204 0 6; Reloc 208 0 20; Reloc 212 0 7]) as Er by (vm_compute; reflexivity).
    rewrite Er in H.
    assert (forall a, a = 304 \/ a = 308 \/ a = 312 -> forall r, r ∈ [Reloc 204 0 6; Reloc 208 0 20; Reloc 212 0 7] ->
      patching r = true -> target 100 r = a \/ target 100 r + 4 <= a \/ a + 4 <= target 100 r) as Hap.
    { intros a Ha r Hr _. apply elem_of_cons in Hr as [->|Hr]; [vm_compute target; lia|].
      apply elem_of_cons in Hr as [->|Hr]; [vm_compute target; lia|].
      apply elem_of_cons in Hr as [->|Hr]; [vm_compute target; lia|]. by apply not_elem_of_nil in Hr. }
    split; [|split].
    + rewrite (H 304 ltac:(lia) (Hap 304 ltac:(lia))). vm_compute. reflexivity.
    + rewrite (H 308 ltac:(lia) (Hap 308 ltac:(lia))). vm_compute. reflexivity.
    + rewrite (H 312 ltac:(lia) (Hap 312 ltac:(lia))). vm_compute. reflexivity.
Defined.

(** Export table at 0 (names at 36, functions at 44) with the names [ab] and [cd] at 52,
    section header at 60, three symbols at 100: external [cd], one of section 1, and an
    external name that is not exported, from the string table at 154. *)
Definition symbols_example : list Z :=
  replicate 24 0 ++ le 4 2 ++ le 4 44 ++ le 4 36 ++ le 4 52 ++ le 4 55 ++ le 4 500 ++ le 4 600 ++
  [97; 98; 0; 99; 100; 0; 0; 0] ++ obj_section 200 0 0 ++
  obj_symbol [99; 100; 0; 0; 0; 0; 0; 0] 0 0 ++ obj_symbol [102; 0; 0; 0; 0; 0; 0; 0] 16 1 ++
  obj_symbol (le 4 0 ++ le 4 2) 0 0 ++ [0; 0; 97; 97; 0].

Definition exports_at_4096 : list Z := replicate 4096 0 ++ symbols_example.

Lemma symbols_resolved_witness : exists m' retval,
  fix_coff_symbols exports_at_4096 4156 4196 3 4250 4096 (fun m name imports => get_proc_ex_with_base m name imports 4096)
    = Done (m', retval) /\
  word_at m' 4204 = 4696 /\ word_at m' 4222 = 216 /\ word_at m' 4240 = 0 /\ retval <> 1.
Proof.
  destruct (symbols_resolved exports_at_4096 4156 4196 3 4250 4096 4096) as (m' & r & E & _ & Hv & _ & _ & Hr).
  - apply bytes_check. vm_compute. reflexivity.
  - lia.
  - vm_compute. reflexivity.
  - exists m', r. split; [exact E|].
    assert (records 4196 COFF_SYM_SIZE (Z.to_nat 3) = [4196; 4214; 4232]) as Er by (vm_compute; reflexivity).
    rewrite Er in *. split; [|split; [|split]].
    + change 4204 with (4196 + OFF_SYM_VALUE). rewrite (Hv 4196) by (by left). vm_compute. reflexivity.
    + change 4222 with (4214 + OFF_SYM_VALUE). rewrite (Hv 4214) by (by right; left). vm_compute. reflexivity.
    + change 4240 with (4232 + OFF_SYM_VALUE). rewrite (Hv 4232) by (by right; right; left). vm_compute. reflexivity.
    + intros H1. apply (proj1 Hr H1 4232 ltac:(by right; right; left)); vm_compute; reflexivity.
Defined.
