(* ===== verification/Fat.v ===== *)
(** * FAT short names

    [fat_name.rs] and [fat_get_sector.rs]: legality of long names, generation of the
    8.3 name of a long name, and the next candidate after a collision.  The name buffer
    and the source string are in one memory.  Offsets into the name can go below 0
    ([p as usize] wraps, the pointer goes back), so they are plain integers added to the
    address of the buffer. *)

From stdpp Require Import base list relations.
From Stdlib Require Import ZArith Lia.
From S2P Require Import Prelude Unicode.

(** ** Definitions *)

Definition FAT_NAME_LEN : Z := 11.
Definition FAT_BASENAME_LEN : Z := 8.
Definition FAT_GEN_FILL_LEN : Z := 12.

(** *** The next candidate *)

Definition zerofill_to_end (m : list Z) (name start : Z) : run (list Z) :=
  m ← (if start <=? 0 then st8 m (name + 0) 48 else Done m);
  m ← (if start <=? 1 then st8 m (name + 1) 48 else Done m);
  m ← (if start <=? 2 then st8 m (name + 2) 48 else Done m);
  m ← (if start <=? 3 then st8 m (name + 3) 48 else Done m);
  m ← (if start <=? 4 then st8 m (name + 4) 48 else Done m);
  m ← (if start <=? 5 then st8 m (name + 5) 48 else Done m);
  m ← (if start <=? 6 then st8 m (name + 6) 48 else Done m);
  (if start <=? 7 then st8 m (name + 7) 48 else Done m).

(** The last tilde of the base name, or -1. *)
Definition tilde_body (m : list Z) (name i : Z) : run (Z + Z) :=
  if 0 <=? i then
    b ← ld8 m (name + i);
    if b =? 126 then Done (inr i) else Done (inl (i - 1))
  else Done (inr (-1)).

(** Back over the spaces that end the name. *)
Definition trim_body (m : list Z) (name p : Z) : run (Z + Z) :=
  let p := p - 1 in
  b ← ld8 m (name + p);
  if negb (b =? 32) then Done (inr (p + 1)) else Done (inl p).

Definition insert_tilde (m : list Z) (name : Z) : run (list Z * bool) :=
  b6 ← ld8 m (name + 6);
  b7 ← ld8 m (name + 7);
  pos ← (if (b6 =? 32) && (b7 =? 32) then loop (S (Z.to_nat (name + 6))) (trim_body m name) 6 else Done 6);
  m ← st8 m (name + pos) 126;
  m ← st8 m (name + pos + 1) 49;
  Done (m, true).

(** ['1'] after the tilde, the digits one place to the right. *)
Definition expand_body (name : Z) (st : list Z * Z * Z) : run (list Z * Z * Z + list Z) :=
  let '(m, pos, al) := st in
  old ← ld8 m (name + pos);
  m ← st8 m (name + pos) al;
  let pos := pos + 1 in
  if old =? 32 then Done (inr m) else Done (inl (m, pos, 48)).

(** From the end of the base name left to the tilde. *)
Definition walk_body (m : list Z) (name : Z) (st : Z * Z) : run (Z * Z + list Z * bool) :=
  let '(edi, space_count) := st in
  b ← ld8 m (name + edi);
  if b =? 126 then
    if space_count =? 0 then
      let before := edi - 1 in
      if before =? 0 then Done (inr (m, false))
      else if before <? 0 then Done (inr (m, true))
      else
        let p := before in
        m ← st8 m (name + p) 126;
        m ← st8 m (name + p + 1) 49;
        m ← zerofill_to_end m name (p + 2);
        Done (inr (m, true))
    else
      m ← loop (S (length m)) (expand_body name) (m, edi + 1, 49);
      Done (inr (m, true))
  else if b =? 32 then Done (inl (edi - 1, space_count +ₘ 1))
  else if negb (b =? 57) then
    m ← st8 m (name + edi) (u8 (b + 1));
    m ← zerofill_to_end m name (edi + 1);
    Done (inr (m, true))
  else Done (inl (edi - 1, space_count)).

(** The [walk_body] fuel covers the base name and everything in front of it. *)
Definition fat_next_short_name (m : list Z) (name : Z) : run (list Z * bool) :=
  tilde_idx ← loop 9 (tilde_body m name) 7;
  if tilde_idx <? 0 then insert_tilde m name
  else loop (S (Z.to_nat (name + 8))) (walk_body m name) (7, 0).

Definition fat_next_short_name_ptr (m : list Z) (name : Z) : run (list Z * Z) :=
  '(m, ok) ← fat_next_short_name m name; Done (m, if (ok : bool) then 0 else 1).

(** *** Legal characters *)

Definition fat_short_char_ok (c : Z) : bool :=
  if c =? 33 then true
  else if (35 <=? c) && (c <=? 41) then true
  else if (c =? 45) || (c =? 46) then true
  else if (48 <=? c) && (c <=? 57) then true
  else if (64 <=? c) && (c <=? 90) then true
  else if (c =? 94) || (c =? 95) then true
  else if (96 <=? c) && (c <=? 122) then true
  else if (c =? 123) || (c =? 125) || (c =? 126) then true
  else false.

Definition fat_lfn_char_ok (c : Z) : bool :=
  if (c =? 32) || (c =? 33) then true
  else if c =? 34 then false
  else if (35 <=? c) && (c <=? 41) then true
  else if c =? 42 then false
  else if (c =? 43) || (c =? 44) then true
  else if (c =? 45) || (c =? 46) then true
  else if c =? 47 then false
  else if (48 <=? c) && (c <=? 57) then true
  else if c =? 58 then false
  else if c =? 59 then true
  else if c =? 60 then false
  else if c =? 61 then true
  else if (c =? 62) || (c =? 63) then false
  else if (64 <=? c) && (c <=? 90) then true
  else if (c =? 91) || (c =? 93) then true
  else if c =? 92 then false
  else if (c =? 94) || (c =? 95) then true
  else if (96 <=? c) && (c <=? 123) then true
  else if c =? 124 then false
  else if (c =? 125) || (c =? 126) then true
  else false.

Definition legal_body (m : list Z) (p : Z) : run (Z + bool) :=
  al ← ld8 m p;
  let p := p + 1 in
  if as_i8 al <? 0 then Done (inl p)
  else if fat_lfn_char_ok al then Done (inl p)
  else Done (inr (al =? 0)).

Definition fat_name_is_legal (m : list Z) (name : Z) : run bool := loop (S (length m)) (legal_body m) name.

(** *** The short name of a long name *)

Definition blank_body (out : Z) (st : list Z * Z) : run (list Z * Z + list Z) :=
  let '(m, i) := st in
  if i <? FAT_GEN_FILL_LEN then m ← st8 m (out + i) 32; Done (inl (m, i + 1))
  else Done (inr m).

(** The extension so far moves to the end of the base name. *)
Definition rewind_body (out ecx : Z) (st : list Z * Z * Z) : run (list Z * Z * Z + list Z) :=
  let '(m, edi, ebx) := st in
  let edi := edi -ₘ 1 in
  ch ← ld8 m (out + edi);
  let ebx := ebx -ₘ 1 in
  m ← st8 m (out + ebx) ch;
  m ← st8 m (out + edi) 32;
  if edi <=? ecx then Done (inr m) else Done (inl (m, edi, ebx)).

Abbreviation gen_state := (list Z * Z * Z * Z * Z * Z)%type.

Definition second_dot (m : list Z) (out ecx esi edi saved : Z) : run (gen_state + list Z * Z) :=
  let ebx := saved +ₘ edi -ₘ ecx in
  let saved := ebx in
  let '(saved, ebx) := if ecx <=? ebx then (ecx, ecx) else (saved, ebx) in
  m ← (if ecx <? edi then loop (S (Z.to_nat (edi - ecx))) (rewind_body out ecx) (m, edi, ebx) else Done m);
  Done (inl (m, esi, ecx, 3, 3, saved)).

(** One character: state is memory, source pointer, [edi], [bl], [bh], [saved]. *)
Definition gen_body (out ecx : Z) (st : gen_state) : run (gen_state + list Z * Z) :=
  let '(m, esi, edi, bl, bh, saved) := st in
  al ← ld8 m esi;
  let esi := esi + 1 in
  if as_i8 al <? 0 then Done (inl (m, esi, edi, bl, Z.lor bh 1, saved))
  else if al =? 0 then Done (inr (m, bh))
  else if negb (fat_short_char_ok al) then Done (inl (m, esi, edi, bl, Z.lor bh 1, saved))
  else if al =? 46 then
    if Z.land bh 2 =? 0 then
      if bl =? 8 then Done (inl (m, esi, edi, bl, Z.lor bh 1, saved))
      else Done (inl (m, esi, ecx, 3, Z.lor bh 2, edi))
    else second_dot m out ecx esi edi saved
  else
    let bl_dec := u8 (bl - 1) in
    if 0 <=? as_i8 bl_dec then
      let up := cp866_to_upper al in
      m ← st8 m (out + edi) up;
      Done (inl (m, esi, edi +ₘ 1, bl_dec, bh, saved))
    else Done (inl (m, esi, edi, u8 (bl_dec + 1), Z.lor bh 1, saved)).

Definition fat_gen_short_name (m : list Z) (src out : Z) : run (list Z) :=
  m ← loop 13 (blank_body out) (m, 0);
  '(m, bh) ← loop (S (length m)) (gen_body out 8) (m, src, 0, 8, 0, 0);
  if negb (Z.land bh 1 =? 0) then
    '(m, _) ← fat_next_short_name m out; Done m
  else Done m.

(** *** Sectors *)

Definition fat_get_sector (cluster sector_ofs sectors_per_cluster data_start : Z) : Z :=
  let ecx := cluster -ₘ 2 in
  let ecx := ecx *ₘ sectors_per_cluster in
  let ecx := ecx +ₘ data_start in
  ecx +ₘ sector_ofs.

Definition fat_get_sector_ptr (m : list Z) (pair sectors_per_cluster data_start : Z) : run Z :=
  cluster ← ld32 m pair;
  sector_ofs ← ld32 m (pair + 4);
  Done (fat_get_sector cluster sector_ofs sectors_per_cluster data_start).

(** ** A name in memory as a list of bytes *)

Lemma stored_st8 m a b i v : stored m a b -> 0 <= i < mlen b ->
  exists m', st8 m (a + i) v = Done m' /\ stored m' a (<[Z.to_nat i := v]> b) /\ outside m m' a (mlen b).
Proof.
  intros (Ha & Hfit & H) Hi. rewrite st8_ok by lia. eexists. split; [done|]. split; split_and!.
  - done.
  - by rewrite !mlen_insert.
  - rewrite mlen_insert. intros j Hj. rewrite !byte_at_insert by lia.
    replace (a + j =? a + i) with (j =? i) by lia. case_match; [done|]. by apply H.
  - apply mlen_insert.
  - intros j Hj. rewrite byte_at_insert by lia. by replace (j =? a + i) with false by lia.
Qed.

(** [m'] is [m] with the eight bytes at [a] replaced by [b]. *)
Definition becomes (m m' : list Z) (a : Z) (b : list Z) : Prop := stored m' a b /\ mlen b = 8 /\ outside m m' a 8.

Lemma becomes_refl m a b : stored m a b -> mlen b = 8 -> becomes m m a b.
Proof. done. Qed.

Lemma becomes_st8 m m' a b i v : becomes m m' a b -> 0 <= i < 8 ->
  exists m'', st8 m' (a + i) v = Done m'' /\ becomes m m'' a (<[Z.to_nat i := v]> b).
Proof.
  intros (Hs & Hl & Ho) Hi. destruct (stored_st8 m' a b i v Hs) as (m'' & E & Hs' & Ho'); [lia|].
  exists m''. split; [done|]. split; [done|]. split; [by rewrite mlen_insert|].
  destruct Ho as [Hm Ho], Ho' as [Hm' Ho']. split; [congruence|]. intros j Hj. rewrite Ho', Ho by lia. done.
Qed.

Lemma becomes_ld8 m m' a b i : becomes m m' a b -> 0 <= i < 8 -> ld8 m' (a + i) = Done (byte_at b i).
Proof. intros (Hs & Hl & _) Hi. apply stored_ld8; [done|lia]. Qed.

Lemma zerofill_ok m m' a b start : becomes m m' a b -> 0 <= start <= 8 ->
  exists m'', zerofill_to_end m' a start = Done m'' /\
    becomes m m'' a (take (Z.to_nat start) b ++ replicate (Z.to_nat (8 - start)) 48).
Proof.
  intros H Hs. unfold zerofill_to_end.
  assert (forall k m1, 0 <= k < 8 ->
    becomes m m1 a (take (Z.to_nat start) b ++ replicate (Z.to_nat (k - start)) 48 ++ drop (Z.to_nat (Z.max start k)) b) ->
    exists m2, (if start <=? k then st8 m1 (a + k) 48 else Done m1) = Done m2 /\
      becomes m m2 a (take (Z.to_nat start) b ++ replicate (Z.to_nat (k + 1 - start)) 48 ++ drop (Z.to_nat (Z.max start (k + 1))) b)) as Hstep.
  { intros k m1 Hk H1. destruct (start <=? k) eqn:E.
    - destruct (becomes_st8 _ _ _ _ k 48 H1) as (m2 & E2 & H2); [lia|]. exists m2. split; [done|].
      destruct H as (_ & Hlen & _). unfold mlen in Hlen.
      replace (Z.to_nat (k + 1 - start)) with (S (Z.to_nat (k - start))) by lia.
      replace (Z.to_nat (Z.max start (k + 1))) with (S (Z.to_nat k)) by lia.
      replace (Z.to_nat (Z.max start k)) with (Z.to_nat k) in H2 by lia.
      rewrite (drop_S b (byte_at b k) (Z.to_nat k)) in H2.
      2: { destruct (lookup_lt_is_Some_2 b (Z.to_nat k)) as [x Hx]; [lia|]. rewrite Hx. f_equal.
           rewrite <- (byte_at_lookup b (Z.to_nat k) x Hx). f_equal. lia. }
      rewrite insert_app_r_alt in H2 by (rewrite length_take; lia).
      rewrite insert_app_r_alt in H2 by (rewrite length_take, length_replicate; lia).
      rewrite length_take, length_replicate in H2.
      replace (Z.to_nat k - Z.to_nat start `min` length b - Z.to_nat (k - start))%nat with O in H2 by lia.
      cbn [insert list_insert] in H2. rewrite replicate_S_end, <- app_assoc. exact H2.
    - exists m1. split; [done|]. replace (Z.to_nat (k + 1 - start)) with O by lia.
      replace (Z.to_nat (k - start)) with O in H1 by lia. replace (Z.max start (k + 1)) with start by lia.
      by replace (Z.max start k) with start in H1 by lia. }
  destruct (Hstep 0 m') as (m1 & E1 & H1); [lia| |].
  { replace (Z.to_nat (0 - start)) with O by lia. replace (Z.max start 0) with start by lia. cbn [replicate app].
    by rewrite take_drop. }
  destruct (Hstep 1 m1 ltac:(lia) H1) as (m2 & E2 & H2), (Hstep 2 m2 ltac:(lia) H2) as (m3 & E3 & H3),
    (Hstep 3 m3 ltac:(lia) H3) as (m4 & E4 & H4), (Hstep 4 m4 ltac:(lia) H4) as (m5 & E5 & H5),
    (Hstep 5 m5 ltac:(lia) H5) as (m6 & E6 & H6), (Hstep 6 m6 ltac:(lia) H6) as (m7 & E7 & H7),
    (Hstep 7 m7 ltac:(lia) H7) as (m8 & E8 & H8).
  exists m8. rewrite E1. run_step. rewrite E2. run_step. rewrite E3. run_step. rewrite E4. run_step. rewrite E5. run_step.
  rewrite E6. run_step. rewrite E7. run_step. split; [done|]. destruct H as (_ & Hlen & _). unfold mlen in Hlen.
  rewrite drop_ge, app_nil_r in H8 by lia. by replace (7 + 1 - start) with (8 - start) in H8 by lia.
Qed.

(** ** The walk over the tail of the base name *)

Definition spaces (T : list Z) : Z := foldr (fun x n => bool_to_Z (x =? 32) + n) 0 T.
Abbreviation filler := (fun x => x = 32 \/ x = 57).

Lemma spaces_snoc T x : spaces (T ++ [x]) = spaces T + bool_to_Z (x =? 32).
Proof. unfold spaces. induction T as [|y T IH]; cbn; lia. Qed.

Lemma spaces_range T : 0 <= spaces T <= Z.of_nat (length T).
Proof. unfold spaces, bool_to_Z. induction T as [|y T IH]; cbn -[Z.of_nat]; [lia|]. case_match; lia. Qed.

Lemma walk_skip m name pre T c fuel : stored m name (pre ++ T) -> Forall filler T -> 0 <= c ->
  c + Z.of_nat (length T) < 2 ^ 32 ->
  loop (length T + fuel) (walk_body m name) (mlen pre + mlen T - 1, c) =
  loop fuel (walk_body m name) (mlen pre - 1, c + spaces T).
Proof.
  revert c. induction T as [|x T IH] using rev_ind; intros c Hs HT Hc Hlt.
  { cbn [length Nat.add spaces foldr]. do 2 f_equal; [unfold mlen; cbn; lia|lia]. }
  apply Forall_app in HT as [HT [Hx _]%Forall_cons_1]. rewrite app_assoc in Hs.
  rewrite length_app in *. cbn [length] in *. replace (length T + 1 + fuel)%nat with (S (length T + fuel)) by lia.
  rewrite loop_S. replace (mlen pre + mlen (T ++ [x]) - 1) with (mlen (pre ++ T)) by (rewrite !mlen_app; unfold mlen; cbn; lia).
  cbn [walk_body]. rewrite (stored_ld8 _ _ _ _ Hs) by (rewrite (mlen_app (pre ++ T)); unfold mlen; cbn [length]; lia).
  rewrite byte_at_mid. run_step. apply stored_app in Hs as [Hs _].
  rewrite spaces_snoc. cbn beta in Hx. destruct Hx as [-> | ->]; cbn [Z.eqb Pos.eqb negb bool_to_Z]; run_step.
  - rewrite wrap_small by lia. rewrite mlen_app, IH by (try done; lia). do 2 f_equal. lia.
  - rewrite mlen_app, IH by (try done; lia). do 2 f_equal. lia.
Qed.

Lemma expand_ok m m' name pre T1 T2 al fuel :
  becomes m m' name (pre ++ T1 ++ 32 :: T2) -> Forall (fun x => x <> 32) T1 -> (length T1 < fuel)%nat ->
  exists m'', loop fuel (expand_body name) (m', mlen pre, al) = Done m'' /\
    becomes m m'' name (pre ++ al :: replicate (length T1) 48 ++ T2).
Proof.
  revert m' pre al fuel. induction T1 as [|x T1 IH]; intros m' pre al [|fuel] Hb HT Hf; cbn [length] in *; try lia;
    rewrite loop_S; cbn [expand_body].
  - cbn [app replicate] in *. pose proof Hb as (_ & Hl & _). rewrite mlen_app, mlen_cons in Hl.
    pose proof (mlen_nonneg pre). pose proof (mlen_nonneg T2).
    rewrite (becomes_ld8 _ _ _ _ _ Hb) by lia. rewrite byte_at_mid. run_step.
    destruct (becomes_st8 _ _ _ _ (mlen pre) al Hb) as (m'' & E & Hb'); [lia|]. rewrite E. run_step.
    exists m''. split; [done|]. unfold mlen in Hb'. rewrite Nat2Z.id in Hb'.
    rewrite insert_app_r_alt, Nat.sub_diag in Hb' by lia. exact Hb'.
  - apply Forall_cons_1 in HT as [Hx HT]. pose proof Hb as (_ & Hl & _).
    rewrite !mlen_app, !mlen_cons in Hl. pose proof (mlen_nonneg pre). pose proof (mlen_nonneg T2).
    pose proof (mlen_nonneg (T1 ++ 32 :: T2)). rewrite !mlen_app, mlen_cons in *.
    rewrite (becomes_ld8 _ _ _ _ _ Hb) by lia. cbn [app]. rewrite byte_at_mid. run_step.
    destruct (becomes_st8 _ _ _ _ (mlen pre) al Hb) as (m1 & E & Hb'); [lia|]. rewrite E. run_step.
    replace (x =? 32) with false by lia. unfold mlen in Hb' at 1. rewrite Nat2Z.id in Hb'.
    rewrite insert_app_r_alt, Nat.sub_diag in Hb' by lia. cbn [app insert list_insert] in Hb'.
    rewrite cons_middle, app_assoc in Hb'.
    destruct (IH m1 (pre ++ [al]) 48 fuel) as (m2 & E2 & Hb2); [done|done|lia|].
    exists m2. rewrite mlen_app in E2. split; [exact E2|]. cbn [replicate]. by rewrite <- app_assoc in Hb2.
Qed.

(** The search for a tilde. *)
Lemma tilde_ok m name b : stored m name b -> mlen b = 8 ->
  exists t, loop 9 (tilde_body m name) 7 = Done t /\ (t <? 0) = negb (bool_decide (126 ∈ b)).
Proof.
  intros Hs Hl.
  assert (forall i, 0 <= i < 8 -> byte_at b i ∈ b) as Hin.
  { intros i Hi. unfold mlen in Hl. destruct (lookup_lt_is_Some_2 b (Z.to_nat i)) as [x Hx]; [lia|].
    replace i with (Z.of_nat (Z.to_nat i)) by lia. rewrite (byte_at_lookup _ _ _ Hx). by eapply list_elem_of_lookup_2. }
  apply (loop_total (fun i => -1 <= i <= 7 /\ forall j, i < j <= 7 -> byte_at b j <> 126) (fun i => Z.to_nat (i + 1))).
  - intros i [Hi Hj]. unfold tilde_body. destruct (0 <=? i) eqn:E.
    + rewrite (stored_ld8 _ _ _ _ Hs) by lia. run_step. destruct (byte_at b i =? 126) eqn:Eb.
      * eexists. split; [done|]. cbn. rewrite bool_decide_true; [lia|]. replace 126 with (byte_at b i) by lia. apply Hin. lia.
      * eexists. split; [done|]. cbn. split; [|lia]. split; [lia|]. intros j Hj'.
        destruct (decide (j = i)) as [->|]; [lia|apply Hj; lia].
    + eexists. split; [done|]. cbn. rewrite bool_decide_false; [done|]. intros (k & Hk)%list_elem_of_lookup_1.
      pose proof (lookup_lt_Some _ _ _ Hk). unfold mlen in Hl. apply (Hj (Z.of_nat k)); [lia|].
      by apply byte_at_lookup.
  - split; [lia|intros j Hj; lia].
  - lia.
Qed.

(** ** Numbered names *)

Definition digit (x : Z) : Prop := 48 <= x <= 57.
Definition decimal (D : list Z) : Z := foldl (fun a d => 10 * a + (d - 48)) 0 D.

(** The base name [P~D], padded with [s] spaces. *)
Definition numbered (m : list Z) (name : Z) (P D : list Z) (s : nat) : Prop :=
  stored m name (P ++ 126 :: D ++ replicate s 32) /\ (length P + 1 + length D + s = 8)%nat /\
  (1 <= length P)%nat /\ Forall digit D.

Lemma pow10_S n : 10 ^ Z.of_nat (S n) = 10 * 10 ^ Z.of_nat n.
Proof. rewrite Nat2Z.inj_succ, Z.pow_succ_r by lia. done. Qed.

Lemma pow10_pos n : 1 <= 10 ^ Z.of_nat n.
Proof. apply (Z.pow_le_mono_r 10 0); lia. Qed.

Lemma decimal_acc D a : foldl (fun a d => 10 * a + (d - 48)) a D = a * 10 ^ Z.of_nat (length D) + decimal D.
Proof.
  unfold decimal. revert a. induction D as [|d D IH]; intros a; cbn [foldl length]; [lia|].
  rewrite IH, (IH (10 * 0 + (d - 48))), pow10_S. lia.
Qed.

Lemma decimal_app A B : decimal (A ++ B) = decimal A * 10 ^ Z.of_nat (length B) + decimal B.
Proof. unfold decimal at 1. by rewrite foldl_app, decimal_acc. Qed.

Lemma decimal_cons d D : decimal (d :: D) = (d - 48) * 10 ^ Z.of_nat (length D) + decimal D.
Proof. change (d :: D) with ([d] ++ D). rewrite decimal_app. f_equal. Qed.

Lemma decimal_range D : Forall digit D -> 0 <= decimal D < 10 ^ Z.of_nat (length D).
Proof.
  induction 1 as [|d D Hd HD IH]; [done|]. rewrite decimal_cons. cbn [length]. rewrite pow10_S. unfold digit in Hd. nia.
Qed.

Lemma decimal_nines k : decimal (replicate k 57) = 10 ^ Z.of_nat k - 1.
Proof. induction k as [|k IH]; [done|]. cbn [replicate]. rewrite decimal_cons, IH, length_replicate, pow10_S. lia. Qed.

Lemma decimal_zeros k : decimal (replicate k 48) = 0.
Proof. induction k as [|k IH]; [done|]. cbn [replicate]. rewrite decimal_cons, IH. lia. Qed.

Lemma digits_replicate k d : digit d -> Forall digit (replicate k d).
Proof. intros. by apply Forall_replicate. Qed.

(** The nines at the end of a number. *)
Lemma digits_split D : Forall digit D ->
  (exists k, D = replicate k 57) \/
  exists D1 y k, D = D1 ++ y :: replicate k 57 /\ 48 <= y < 57 /\ Forall digit D1.
Proof.
  induction D as [|d D IH] using rev_ind; intros HD; [by left; exists O|].
  apply Forall_app in HD as [HD [Hd _]%Forall_cons_1]. unfold digit in Hd.
  destruct (decide (d = 57)) as [->|Hne].
  - destruct (IH HD) as [[k ->]|(D1 & y & k & -> & Hy & H1)].
    + left. exists (S k). by rewrite replicate_S_end.
    + right. exists D1, y, (S k). rewrite <- app_assoc. cbn [app]. by rewrite <- replicate_S_end.
  - right. exists D, d, O. split; [done|]. split; [lia|done].
Qed.

Lemma filler_spaces k s : Forall filler (replicate k 57 ++ replicate s 32) /\ spaces (replicate k 57 ++ replicate s 32) = Z.of_nat s.
Proof.
  split.
  - apply Forall_app. split; apply Forall_replicate; auto.
  - induction k as [|k IH]; cbn [replicate app spaces foldr]; [|exact IH].
    induction s as [|s IH]; [done|]. cbn [replicate foldr]. unfold bool_to_Z at 1. cbn [Z.eqb Pos.eqb]. lia.
Qed.

(** The walk from the end of a name [A y T], [T] of nines and spaces, to [y]. *)
Lemma walk_to m name A y k s fuel : stored m name (A ++ y :: replicate k 57 ++ replicate s 32) ->
  (length A + 1 + (k + s) = 8)%nat -> y <> 32 -> y <> 57 -> (8 <= fuel)%nat ->
  exists fuel', loop fuel (walk_body m name) (7, 0) = loop (S fuel') (walk_body m name) (mlen A, Z.of_nat s).
Proof.
  intros Hs Hlen H32 H57 Hf. destruct (filler_spaces k s) as [HT HS]. set (T := replicate k 57 ++ replicate s 32) in *.
  assert (length T = (k + s)%nat) as HlT by (unfold T; by rewrite length_app, !length_replicate).
  rewrite cons_middle, app_assoc in Hs.
  exists (fuel - length T - 1)%nat. pose proof (walk_skip m name (A ++ [y]) T 0 (S (fuel - length T - 1))) as H.
  rewrite HS in H. replace (length T + S (fuel - length T - 1))%nat with fuel in H by lia.
  rewrite mlen_app in H. unfold mlen in *. cbn [length] in H.
  replace (Z.of_nat (length A) + Z.of_nat 1 + Z.of_nat (length T) - 1) with 7 in H by lia.
  replace (Z.of_nat (length A) + Z.of_nat 1 - 1) with (Z.of_nat (length A)) in H by lia.
  replace (0 + Z.of_nat s) with (Z.of_nat s) in H by lia. apply H; try done. lia.
Qed.

(** What one call does to a numbered name. *)
Definition stepped (m m' : list Z) (name : Z) (P D : list Z) : Prop :=
  outside m m' name 8 /\
  exists P' D' s', numbered m' name P' D' s' /\ P' `prefix_of` P /\ decimal D < decimal D'.

Lemma becomes_stepped m m' name P D P' D' s' : becomes m m' name (P' ++ 126 :: D' ++ replicate s' 32) ->
  (1 <= length P')%nat -> Forall digit D' -> P' `prefix_of` P -> decimal D < decimal D' -> stepped m m' name P D.
Proof.
  intros (Hs & Hl & Ho) ? ? ? ?. split; [done|]. exists P', D', s'. split; [|done]. split; [done|].
  unfold mlen in Hl. rewrite length_app in Hl. cbn [length] in Hl. rewrite length_app, length_replicate in Hl.
  split; [lia|done].
Qed.

(** The three ways a turn of the walk ends: no place left, a free place, a digit. *)
Lemma step_noplace m name P k : becomes m m name (P ++ 126 :: replicate k 57) ->
  (length P + 1 + k = 8)%nat -> (1 <= length P)%nat ->
  exists m' ok, walk_body m name (mlen P, 0) = Done (inr (m', ok)) /\
    if (ok : bool) then stepped m m' name P (replicate k 57) else m' = m /\ length P = 1%nat /\ k = 6%nat.
Proof.
  intros Hb Hlen HP. cbn [walk_body]. rewrite (becomes_ld8 _ _ _ _ _ Hb) by (unfold mlen; lia).
  rewrite byte_at_mid. run_step. cbn [Z.eqb Pos.eqb]. destruct (mlen P - 1 =? 0) eqn:E1.
  { exists m, false. unfold mlen in E1. split; [done|]. split; [done|]. lia. }
  replace (mlen P - 1 <? 0) with false by (unfold mlen in *; lia).
  destruct P as [|c P _] using rev_ind; [cbn in HP; lia|].
  rewrite mlen_app, length_app in *. cbn [length] in *. change (mlen [c]) with 1 in *.
  replace (mlen P + 1 - 1) with (mlen P) by lia. rewrite <- app_assoc in Hb. cbn [app] in Hb.
  destruct (becomes_st8 _ _ _ _ (mlen P) 126 Hb) as (m1 & E & H1); [unfold mlen; lia|]. rewrite E. run_step.
  rewrite <- Z.add_assoc. destruct (becomes_st8 _ _ _ _ (mlen P + 1) 49 H1) as (m2 & E2 & H2); [unfold mlen; lia|].
  rewrite E2. run_step. destruct (zerofill_ok m m2 name _ (mlen P + 2) H2) as (m3 & E3 & H3); [unfold mlen in *; lia|].
  rewrite E3. run_step. exists m3, true. split; [done|].
  apply (becomes_stepped _ _ _ _ _ P (49 :: replicate k 48) 0).
  - unfold mlen in H3. replace (Z.to_nat (Z.of_nat (length P) + 2)) with (length P + 2)%nat in H3 by lia.
    replace (Z.to_nat (Z.of_nat (length P) + 1)) with (length P + 1)%nat in H3 by lia. rewrite Nat2Z.id in H3.
    rewrite !insert_app_r_alt in H3 by lia. rewrite Nat.sub_diag in H3.
    replace (length P + 1 - length P)%nat with 1%nat in H3 by lia. cbn [insert list_insert] in H3.
    rewrite take_app_ge in H3 by lia. replace (length P + 2 - length P)%nat with 2%nat in H3 by lia.
    cbn [take] in H3. rewrite <- app_assoc in H3. cbn [app replicate] in *. rewrite app_nil_r.
    by replace (Z.to_nat (8 - (Z.of_nat (length P) + 2))) with k in H3 by lia.
  - unfold mlen in *. lia.
  - apply Forall_cons_2; [unfold digit; lia|apply digits_replicate; unfold digit; lia].
  - by apply prefix_app_r.
  - rewrite decimal_nines, decimal_cons, decimal_zeros, length_replicate. lia.
Qed.

Lemma step_expand m name P k s : becomes m m name (P ++ 126 :: replicate k 57 ++ replicate (S s) 32) ->
  (length P + 1 + k + S s = 8)%nat -> (1 <= length P)%nat ->
  exists m', walk_body m name (mlen P, Z.of_nat (S s)) = Done (inr (m', true)) /\
    stepped m m' name P (replicate k 57).
Proof.
  intros Hb Hlen HP. cbn [walk_body]. rewrite (becomes_ld8 _ _ _ _ _ Hb) by (unfold mlen; lia).
  rewrite byte_at_mid. run_step. cbn [Z.eqb Pos.eqb].
  replace (Z.of_nat (S s) =? 0) with false by (symmetry; apply Z.eqb_neq; lia).
  pose proof Hb as ((Hn & Hfit & _) & Hl8 & _). rewrite cons_middle, app_assoc in Hb.
  destruct (expand_ok m m name (P ++ [126]) (replicate k 57) (replicate s 32) 49 (S (length m))) as (m' & E & Hb').
  { exact Hb. }
  { apply Forall_replicate. lia. }
  { rewrite length_replicate. unfold mlen in *. lia. }
  rewrite mlen_app in E. change (mlen [126]) with 1 in E. rewrite E. run_step. exists m'. split; [done|].
  apply (becomes_stepped _ _ _ _ _ P (49 :: replicate k 48) s); [|done| |done|].
  - rewrite length_replicate, <- app_assoc in Hb'. exact Hb'.
  - apply Forall_cons_2; [unfold digit; lia|apply digits_replicate; unfold digit; lia].
  - rewrite decimal_nines, decimal_cons, decimal_zeros, length_replicate. lia.
Qed.

Lemma step_digit m name P D1 y k s c : becomes m m name ((P ++ 126 :: D1) ++ y :: replicate k 57 ++ replicate s 32) ->
  (length P + 1 + length D1 + 1 + k + s = 8)%nat -> (1 <= length P)%nat -> 48 <= y < 57 -> Forall digit D1 ->
  exists m', walk_body m name (mlen (P ++ 126 :: D1), c) = Done (inr (m', true)) /\
    stepped m m' name P (D1 ++ y :: replicate k 57).
Proof.
  intros Hb Hlen HP Hy HD1.
  assert (length (P ++ 126 :: D1) = (length P + 1 + length D1)%nat) as HlA by (rewrite length_app; cbn [length]; lia).
  cbn [walk_body]. rewrite (becomes_ld8 _ _ _ _ _ Hb) by (unfold mlen; lia). rewrite byte_at_mid. run_step.
  replace (y =? 126) with false by lia. replace (y =? 32) with false by lia. replace (y =? 57) with false by lia. cbn [negb].
  destruct (becomes_st8 _ _ _ _ (mlen (P ++ 126 :: D1)) (u8 (y + 1)) Hb) as (m1 & E & H1); [unfold mlen; lia|].
  rewrite E. run_step. destruct (zerofill_ok m m1 name _ (mlen (P ++ 126 :: D1) + 1) H1) as (m2 & E2 & H2); [unfold mlen; lia|].
  rewrite E2. run_step. exists m2. split; [done|].
  rewrite (wrap_small 8) in H2 by (change (2 ^ 8) with 256; lia).
  apply (becomes_stepped _ _ _ _ _ P (D1 ++ (y + 1) :: replicate (k + s) 48) 0).
  - unfold mlen in H2. rewrite HlA in H2. rewrite Nat2Z.id in H2.
    rewrite insert_app_r_alt in H2 by lia. rewrite HlA, Nat.sub_diag in H2. cbn [insert list_insert] in H2.
    rewrite take_app_ge in H2 by lia. rewrite HlA in H2.
    replace (Z.to_nat (Z.of_nat (length P + 1 + length D1) + 1) - (length P + 1 + length D1))%nat with 1%nat in H2 by lia.
    cbn [take replicate] in *. rewrite app_nil_r. rewrite <- !app_assoc in H2. cbn [app] in H2.
    by replace (Z.to_nat (8 - (Z.of_nat (length P + 1 + length D1) + 1))) with (k + s)%nat in H2 by lia.
  - done.
  - apply Forall_app. split; [done|]. apply Forall_cons_2; [unfold digit; lia|apply digits_replicate; unfold digit; lia].
  - done.
  - rewrite !decimal_app, !decimal_cons, decimal_nines, decimal_zeros. cbn [length]. rewrite !length_replicate, !pow10_S.
    replace (Z.of_nat (k + s)) with (Z.of_nat k + Z.of_nat s) by lia. rewrite Z.pow_add_r by lia.
    pose proof (pow10_pos k). pose proof (pow10_pos s). pose proof (decimal_range D1 HD1) as [Hd _].
    assert (10 ^ Z.of_nat k <= 10 ^ Z.of_nat k * 10 ^ Z.of_nat s) as Hle by nia.
    revert Hle Hd. generalize (10 ^ Z.of_nat k * 10 ^ Z.of_nat s) (10 ^ Z.of_nat k) (decimal D1). intros X Y d Hle Hd. nia.
Qed.

Lemma next_numbered m name P D s : numbered m name P D s ->
  exists m' ok, fat_next_short_name m name = Done (m', ok) /\
    if (ok : bool) then stepped m m' name P D
    else m' = m /\ length P = 1%nat /\ decimal D = 999999.
Proof.
  intros (Hs & Hlen & HP & HD). pose proof Hs as (Hn & Hfit & _).
  assert (mlen (P ++ 126 :: D ++ replicate s 32) = 8) as Hl8.
  { unfold mlen. rewrite length_app. cbn [length]. rewrite length_app, length_replicate. lia. }
  pose proof (becomes_refl _ _ _ Hs Hl8) as Hb.
  unfold fat_next_short_name. destruct (tilde_ok _ _ _ Hs Hl8) as (t & -> & Ht). run_step. rewrite Ht.
  rewrite bool_decide_true by (apply elem_of_app; right; by left). cbn [negb].
  destruct (digits_split D HD) as [[k ->]|(D1 & y & k & -> & Hy & HD1)].
  - rewrite length_replicate in Hlen.
    destruct (walk_to m name P 126 k s (S (Z.to_nat (name + 8)))) as [fuel ->]; [done|lia|done|done|lia|].
    rewrite loop_S. destruct s as [|s].
    + cbn [replicate] in Hb. rewrite app_nil_r in Hb.
      destruct (step_noplace m name P k Hb) as (m' & ok & E & H); [lia|done|]. change (Z.of_nat 0) with 0.
      rewrite E. run_step. exists m', ok. split; [done|]. destruct ok; [done|]. destruct H as (-> & -> & ->).
      split; [done|]. split; [done|]. by rewrite decimal_nines.
    + destruct (step_expand m name P k s Hb) as (m' & E & H); [lia|done|].
      rewrite E. run_step. by exists m', true.
  - rewrite <- app_assoc in Hs, Hb. cbn [app] in Hs, Hb. rewrite app_comm_cons, app_assoc in Hs, Hb.
    rewrite length_app in Hlen. cbn [length] in Hlen. rewrite length_replicate in Hlen.
    assert (length (P ++ 126 :: D1) = (length P + 1 + length D1)%nat) as HlA by (rewrite length_app; cbn [length]; lia).
    destruct (walk_to m name (P ++ 126 :: D1) y k s (S (Z.to_nat (name + 8)))) as [fuel ->]; [done|lia|lia|lia|lia|].
    rewrite loop_S. destruct (step_digit m name P D1 y k s (Z.of_nat s) Hb) as (m' & E & H); [lia|done|done|done|].
    rewrite E. run_step. by exists m', true.
Qed.

(** ** The first number *)

Lemma trim_ok m name Q c r j fuel : stored m name (Q ++ c :: replicate r 32) -> c <> 32 -> (j <= r)%nat -> (j < fuel)%nat ->
  loop fuel (trim_body m name) (mlen Q + 1 + Z.of_nat j) = Done (mlen Q + 1).
Proof.
  intros Hs Hc Hj Hf. revert fuel Hf. induction j as [|j IH]; intros [|fuel] Hf; try lia; rewrite loop_S; unfold trim_body at 2.
  - replace (mlen Q + 1 + Z.of_nat 0 - 1) with (mlen Q) by lia.
    rewrite (stored_ld8 _ _ _ _ Hs) by (rewrite mlen_app, mlen_cons; pose proof (mlen_nonneg Q); pose proof (mlen_nonneg (replicate r 32)); lia).
    rewrite byte_at_mid. run_step. by replace (c =? 32) with false by lia.
  - replace (mlen Q + 1 + Z.of_nat (S j) - 1) with (mlen Q + 1 + Z.of_nat j) by lia.
    rewrite (stored_ld8 _ _ _ _ Hs) by (rewrite mlen_app, mlen_cons; unfold mlen; rewrite length_replicate; lia).
    rewrite byte_at_app, byte_at_cons by (unfold mlen; lia).
    replace (mlen Q + 1 + Z.of_nat j <? mlen Q) with false by lia.
    replace (mlen Q + 1 + Z.of_nat j - mlen Q =? 0) with false by lia.
    assert (byte_at (replicate r 32) (mlen Q + 1 + Z.of_nat j - mlen Q - 1) = 32) as ->.
    { replace (mlen Q + 1 + Z.of_nat j - mlen Q - 1) with (Z.of_nat j) by lia.
      by apply byte_at_lookup, lookup_replicate_2. }
    run_step. cbn [Z.eqb Pos.eqb negb]. apply IH; lia.
Qed.

(** The spaces at the end of a name. *)
Lemma spaces_split b : (exists r, b = replicate r 32) \/ exists Q c r, b = Q ++ c :: replicate r 32 /\ c <> 32.
Proof.
  induction b as [|x b IH] using rev_ind; [left; by exists O|]. destruct (decide (x = 32)) as [->|Hx].
  - destruct IH as [[r ->]|(Q & c & r & -> & Hc)].
    + left. exists (S r). by rewrite replicate_S_end.
    + right. exists Q, c, (S r). rewrite <- app_assoc. cbn [app]. by rewrite <- replicate_S_end.
  - right. by exists b, x, O.
Qed.

(** A name without its trailing spaces. *)
Definition strip (b : list Z) : list Z := foldr (fun x acc => if (x =? 32) && (length acc =? 0)%nat then [] else x :: acc) [] b.

Lemma strip_ok Q c r : c <> 32 -> strip (Q ++ c :: replicate r 32) = Q ++ [c].
Proof.
  intros Hc. assert (strip (c :: replicate r 32) = [c]) as Hr.
  { assert (strip (replicate r 32) = []) as E by (induction r as [|r IH]; [done|]; cbn; unfold strip in IH; by rewrite IH).
    cbn. unfold strip in E. rewrite E. by replace (c =? 32) with false by lia. }
  induction Q as [|x Q IH]; [exact Hr|]. cbn. unfold strip in IH. rewrite IH.
  assert ((length (Q ++ [c]) =? 0)%nat = false) as -> by (rewrite length_app; cbn; apply Nat.eqb_neq; lia).
  by rewrite andb_false_r.
Qed.

Lemma first_number m name b : stored m name b -> length b = 8%nat -> 126 ∉ b -> b <> replicate 8 32 ->
  exists m' P s, fat_next_short_name m name = Done (m', true) /\ outside m m' name 8 /\
    numbered m' name P [49] s /\ P `prefix_of` b /\ P = take 6 (strip b).
Proof.
  intros Hs Hl Ht Hblank. assert (mlen b = 8) as Hl8 by (unfold mlen; lia).
  unfold fat_next_short_name. destruct (tilde_ok _ _ _ Hs Hl8) as (t & -> & Hneg). run_step. rewrite Hneg.
  rewrite bool_decide_false by done. cbn [negb]. unfold insert_tilde.
  rewrite !(stored_ld8 _ _ _ _ Hs) by lia. run_step.
  pose proof (becomes_refl _ _ _ Hs Hl8) as Hb.
  assert (exists pos P rest s, (if (byte_at b 6 =? 32) && (byte_at b 7 =? 32)
      then loop (S (Z.to_nat (name + 6))) (trim_body m name) 6 else Done 6) = Done (mlen P) /\ pos = mlen P /\
      b = P ++ rest /\ drop 2 rest = replicate s 32 /\ (1 <= length P)%nat /\ (length P + 2 + s = 8)%nat /\
      P = take 6 (strip b)) as (pos & P & rest & s & E & -> & -> & Hrest & HP & Hlen & Hstrip).
  { destruct (spaces_split b) as [[r ->]|(Q & c & r & -> & Hc)].
    { exfalso. apply Hblank. rewrite length_replicate in Hl. by subst. }
    rewrite strip_ok by done. rewrite length_app in Hl. cbn [length] in Hl. rewrite length_replicate in Hl.
    assert (forall i : Z, 0 <= i -> mlen Q < i < 8 -> byte_at (Q ++ c :: replicate r 32) i = 32) as Hsp.
    { intros i Hi HQi. rewrite byte_at_app, byte_at_cons by lia. replace (i <? mlen Q) with false by lia.
      replace (i - mlen Q =? 0) with false by lia. replace (i - mlen Q - 1) with (Z.of_nat (Z.to_nat (i - mlen Q - 1))) by lia.
      apply byte_at_lookup, lookup_replicate_2. unfold mlen in *. lia. }
    pose proof (byte_at_mid Q c (replicate r 32)) as Hmid. destruct (decide (2 <= r)%nat) as [Hr|Hr].
    - exists (mlen (Q ++ [c])), (Q ++ [c]), (replicate r 32), (r - 2)%nat.
      rewrite !Hsp by (unfold mlen; lia). cbn [Z.eqb Pos.eqb andb].
      rewrite mlen_app. change (mlen [c]) with 1. pose proof Hs as (? & _).
      replace 6 with (mlen Q + 1 + Z.of_nat (r - 2)) at 2 by (unfold mlen; lia).
      split_and!; [apply (trim_ok m name Q c r); [done|done|lia|unfold mlen in *; lia]|done| | | | |].
      + by rewrite <- app_assoc.
      + by rewrite drop_replicate.
      + rewrite length_app. cbn. lia.
      + rewrite length_app. cbn. lia.
      + rewrite take_ge; [done|]. rewrite length_app. cbn. lia.
    - assert ((byte_at (Q ++ c :: replicate r 32) 6 =? 32) && (byte_at (Q ++ c :: replicate r 32) 7 =? 32) = false) as ->.
      { assert (mlen Q = 7 \/ mlen Q = 6) as [Eq|Eq] by (unfold mlen; lia); rewrite Eq in Hmid; rewrite Hmid;
          replace (c =? 32) with false by lia; [apply andb_false_r|done]. }
      exists 6, (take 6 (Q ++ c :: replicate r 32)), (drop 6 (Q ++ c :: replicate r 32)), O.
      assert (length (Q ++ c :: replicate r 32) = 8%nat) as Hl'
        by (rewrite length_app; cbn [length]; rewrite length_replicate; lia).
      unfold mlen. rewrite length_take, Hl'.
      split_and!; [done|done|by rewrite take_drop| |lia|lia|].
      + rewrite drop_drop. apply drop_ge. lia.
      + rewrite cons_middle, app_assoc, take_app_le; [done|]. rewrite length_app. cbn. lia. }
  rewrite E. run_step. destruct rest as [|x [|y rest]]; [rewrite length_app in Hl; cbn in Hl; lia..|].
  change (drop 2 (x :: y :: rest)) with rest in Hrest. rewrite Hrest in *. unfold mlen in Hl8.
  destruct (becomes_st8 _ _ _ _ (mlen P) 126 Hb) as (m1 & E1 & H1); [unfold mlen; lia|]. rewrite E1. run_step.
  rewrite <- Z.add_assoc. destruct (becomes_st8 _ _ _ _ (mlen P + 1) 49 H1) as (m2 & E2 & H2); [unfold mlen; lia|].
  rewrite E2. run_step. exists m2, P, s. destruct H2 as (H2 & _ & Ho). split; [done|]. split; [done|].
  split; [|split; [by apply prefix_app_r|done]].
  replace (Z.to_nat (mlen P + 1)) with (length P + 1)%nat in H2 by (unfold mlen; lia).
  unfold mlen in H2. rewrite Nat2Z.id in H2. rewrite !insert_app_r_alt in H2 by lia. rewrite Nat.sub_diag in H2.
  replace (length P + 1 - length P)%nat with 1%nat in H2 by lia. cbn [insert list_insert] in H2.
  split; [exact H2|]. split; [cbn; lia|]. split; [done|]. apply Forall_singleton. unfold digit. lia.
Qed.

(** ** The collision loop of the kernel *)

(** The candidate was taken, and the call gives another one. *)
Definition collides (name : Z) (m m' : list Z) : Prop := fat_next_short_name m name = Done (m', true).

Lemma outside_chain m1 m2 m3 a n : outside m1 m2 a n -> outside m2 m3 a n -> outside m1 m3 a n.
Proof. intros [Hl H] [Hl' H']. split; [congruence|]. intros i Hi. by rewrite H', H. Qed.

Lemma collides_steps name n m m' P D s : numbered m name P D s -> nsteps (collides name) n m m' ->
  exists P' D' s', numbered m' name P' D' s' /\ P' `prefix_of` P /\ decimal D + Z.of_nat n <= decimal D' /\
    outside m m' name 8.
Proof.
  intros Hnum Hn. revert P D s Hnum. induction Hn as [m|n m m1 m' Hstep Hn IH]; intros P D s Hnum.
  - exists P, D, s. split_and!; [done..|lia|apply outside_refl].
  - destruct (next_numbered _ _ _ _ _ Hnum) as (m2 & ok & E & H). unfold collides in Hstep. rewrite E in Hstep.
    injection Hstep as -> ->. destruct H as (Ho & P1 & D1 & s1 & Hnum1 & Hp & Hd).
    destruct (IH _ _ _ Hnum1) as (P' & D' & s' & Hnum' & Hp' & Hd' & Ho'). exists P', D', s'.
    split_and!; [done|by etrans|lia|by eapply outside_chain].
Qed.

Lemma numbered_bound m name P D s : numbered m name P D s -> 0 <= decimal D <= 999999.
Proof.
  intros (_ & Hl & HP & HD). pose proof (decimal_range D HD).
  assert (10 ^ Z.of_nat (length D) <= 10 ^ 6) by (apply Z.pow_le_mono_r; lia). lia.
Qed.

(** The same bytes in memory have the same number. *)
Lemma numbered_unique m name P D s P' D' s' : numbered m name P D s -> numbered m name P' D' s' -> D = D'.
Proof.
  intros (Hs & Hl & _ & HD) (Hs' & Hl' & _ & HD').
  assert (P ++ 126 :: D ++ replicate s 32 = P' ++ 126 :: D' ++ replicate s' 32) as E.
  { pose proof (stored_drop _ _ _ Hs) as E1. pose proof (stored_drop _ _ _ Hs') as E2.
    rewrite E1 in E2. apply app_inj_1 in E2 as [E2 _]; [done|].
    rewrite !length_app. cbn [length]. rewrite !length_app, !length_replicate. lia. }
  assert (forall (D : list Z) s, Forall digit D -> 126 ∉ D ++ replicate s 32) as Hno.
  { intros E0 s0 HE Hin. apply elem_of_app in Hin as [Hin|Hin].
    - rewrite Forall_forall in HE. specialize (HE _ Hin). unfold digit in HE. lia.
    - apply elem_of_replicate in Hin as [? _]. lia. }
  assert (D ++ replicate s 32 = D' ++ replicate s' 32) as E'.
  { pose proof (Hno D s HD) as N1. pose proof (Hno D' s' HD') as N2.
    revert E N1 N2. generalize (D ++ replicate s 32) (D' ++ replicate s' 32). clear. intros T T' E N N'.
    apply app_eq_app in E as [K [[-> E]|[-> E]]]; destruct K as [|x K]; cbn in E; injection E as E.
    - done.
    - subst T'. exfalso. apply N'. apply elem_of_app. right. by left.
    - done.
    - subst T. exfalso. apply N. apply elem_of_app. right. by left. }
  clear -E' HD HD'. revert D' HD' E'. induction D as [|d D IH]; intros [|d' D'] HD' E'; cbn in E'.
  - done.
  - exfalso. apply Forall_cons_1 in HD' as [Hd' _]. unfold digit in Hd'. destruct s; [done|]. cbn in E'. injection E' as E' _. lia.
  - exfalso. apply Forall_cons_1 in HD as [Hd _]. unfold digit in Hd. destruct s'; [done|]. cbn in E'. injection E' as E' _. lia.
  - injection E' as -> E'. apply Forall_cons_1 in HD as [_ HD]. apply Forall_cons_1 in HD' as [_ HD'].
    f_equal. by apply (IH HD D').
Qed.

Lemma refuses m name P D s : numbered m name P D s ->
  exists n m', (Z.of_nat n <= 999999 - decimal D)%Z /\ nsteps (collides name) n m m' /\
    fat_next_short_name m' name = Done (m', false).
Proof.
  remember (Z.to_nat (999999 - decimal D)) as w eqn:Ew. revert m P D s Ew.
  induction w as [w IH] using lt_wf_ind. intros m P D s Ew Hnum. pose proof (numbered_bound _ _ _ _ _ Hnum).
  destruct (next_numbered _ _ _ _ _ Hnum) as (m' & ok & E & H'). destruct ok.
  - pose proof H' as (_ & P' & D' & s' & Hnum' & _ & Hd). pose proof (numbered_bound _ _ _ _ _ Hnum').
    destruct (IH (Z.to_nat (999999 - decimal D')) ltac:(lia) m' P' D' s' eq_refl Hnum') as (n & m2 & Hn & Hs & Hr).
    exists (S n), m2. split; [lia|]. split; [|done]. by eapply nsteps_l.
  - destruct H' as (-> & _). exists O, m. split; [lia|]. split; [constructor|done].
Qed.

(** C20: Short name collisions.  From a base name without a tilde that is not blank,
    [fat_next_short_name] gives [prefix~1]; called again while its candidates are taken,
    it never gives the same candidate twice, only ever shortens the prefix, leaves the
    extension and all other bytes alone, and after at most 999999 calls it refuses. *)
Theorem fat_candidates_run_out m name b : stored m name b -> length b = 8%nat -> 126 ∉ b -> b <> replicate 8 32 ->
  exists m1 P s, fat_next_short_name m name = Done (m1, true) /\
    numbered m1 name P [49] s /\ P `prefix_of` b /\
    (forall n m', nsteps (collides name) n m1 m' ->
       (exists P' D' s', numbered m' name P' D' s' /\ P' `prefix_of` P /\ 1 + Z.of_nat n <= decimal D' <= 999999) /\
       outside m m' name 8 /\
       forall k m'', nsteps (collides name) (S k) m' m'' -> m'' <> m') /\
    exists n m', Z.of_nat n <= 999998 /\ nsteps (collides name) n m1 m' /\
      fat_next_short_name m' name = Done (m', false).
Proof.
  intros Hs Hl Ht Hb. destruct (first_number m name b Hs Hl Ht Hb) as (m1 & P & s & E & Ho & Hnum & HP & _).
  exists m1, P, s. split_and!; [done..| |].
  - intros n m' Hn. destruct (collides_steps _ _ _ _ _ _ _ Hnum Hn) as (P' & D' & s' & Hnum' & HP' & Hd & Ho').
    split_and!.
    + exists P', D', s'. split; [done|]. split; [done|]. pose proof (numbered_bound _ _ _ _ _ Hnum').
      change (decimal [49]) with 1 in Hd. lia.
    + by eapply outside_chain.
    + intros k m'' Hk ->. destruct (collides_steps _ _ _ _ _ _ _ Hnum' Hk) as (P2 & D2 & s2 & Hnum2 & _ & Hd2 & _).
      pose proof (numbered_unique _ _ _ _ _ _ _ _ Hnum' Hnum2). subst. lia.
  - destruct (refuses _ _ _ _ _ Hnum) as (n & m' & Hn & Hsteps & Hr). exists n, m'. by change (decimal [49]) with 1 in Hn.
Qed.

(** The first candidate of [README  TXT] is [README~1TXT]. *)
Lemma fat_candidates_run_out_witness : exists m1 P s,
  fat_next_short_name [82; 69; 65; 68; 77; 69; 32; 32; 84; 88; 84; 32] 0 = Done (m1, true) /\
  numbered m1 0 P [49] s /\ take 8 m1 = [82; 69; 65; 68; 77; 69; 126; 49] /\
  exists n m', Z.of_nat n <= 999998 /\ nsteps (collides 0) n m1 m' /\ fat_next_short_name m' 0 = Done (m', false).
Proof.
  destruct (fat_candidates_run_out [82; 69; 65; 68; 77; 69; 32; 32; 84; 88; 84; 32] 0 [82; 69; 65; 68; 77; 69; 32; 32])
    as (m1 & P & s & E & Hnum & _ & _ & Hend).
  - split; [lia|]. split; [vm_compute; discriminate|]. intros i Hi. change (mlen [82; 69; 65; 68; 77; 69; 32; 32]) with 8 in Hi.
    assert (i = 0 \/ i = 1 \/ i = 2 \/ i = 3 \/ i = 4 \/ i = 5 \/ i = 6 \/ i = 7) as Hc by lia.
    destruct Hc as [->|[->|[->|[->|[->|[->|[->| ->]]]]]]]; reflexivity.
  - reflexivity.
  - apply (bool_decide_unpack _). vm_compute. exact I.
  - discriminate.
  - exists m1, P, s. split; [exact E|]. split; [exact Hnum|]. split; [|exact Hend].
    vm_compute in E. injection E as <-. reflexivity.
Defined.

(** ** The specification of the generator *)

(** The name as the generator sees it after some characters. *)
Record shape : Type := Shape { base_ : list Z; ext_ : list Z; dotted : bool; lossy : bool }.

Definition lose (sh : shape) : shape := Shape (base_ sh) (ext_ sh) (dotted sh) true.

Definition shape_step (sh : shape) (c : Z) : shape :=
  let '(Shape B E d l) := sh in
  if 128 <=? c then lose sh
  else if negb (fat_short_char_ok c) then lose sh
  else if c =? 46 then
    if negb d then (if (length B =? 0)%nat then lose sh else Shape B [] true l)
    else Shape (take (8 - length E) B ++ E) [] true true
  else if d then (if (length E <? 3)%nat then Shape B (E ++ [cp866_to_upper c]) d l else lose sh)
  else (if (length B <? 8)%nat then Shape (B ++ [cp866_to_upper c]) E d l else lose sh).

Definition shorten (s : list Z) : shape := foldl shape_step (Shape [] [] false false) s.

(** Byte [i] of the padded name. *)
Definition form_at (sh : shape) (i : Z) : Z :=
  if i <? mlen (base_ sh) then byte_at (base_ sh) i
  else if i <? 8 then 32
  else if i <? 8 + mlen (ext_ sh) then byte_at (ext_ sh) (i - 8)
  else 32.

Definition shape_wf (sh : shape) : Prop :=
  (length (base_ sh) <= 8)%nat /\ (length (ext_ sh) <= 3)%nat /\
  (dotted sh = false -> ext_ sh = []) /\ (dotted sh = true -> base_ sh <> []).

(** The registers of the loop for a shape. *)
Definition shape_regs (sh : shape) (edi bl bh saved : Z) : Prop :=
  bh = bool_to_Z (lossy sh) + 2 * bool_to_Z (dotted sh) /\
  if dotted sh then edi = 8 + mlen (ext_ sh) /\ bl = 3 - mlen (ext_ sh) /\ saved = mlen (base_ sh)
  else edi = mlen (base_ sh) /\ bl = 8 - mlen (base_ sh).

Lemma lor1 l d : Z.lor (bool_to_Z l + 2 * bool_to_Z d) 1 = 1 + 2 * bool_to_Z d.
Proof. by destruct l, d. Qed.

Lemma blank_ok m out : 0 <= out -> out + 12 <= mlen m ->
  exists m', loop 13 (blank_body out) (m, 0) = Done m' /\ updated m m' out 12 (fun _ => 32).
Proof.
  intros Ho Hfit.
  apply (loop_total (fun st => 0 <= st.2 <= 12 /\ updated m st.1 out st.2 (fun _ => 32)) (fun st => Z.to_nat (12 - st.2))).
  - intros [m1 i] [Hi Hu]. cbn [fst snd] in *. unfold blank_body, FAT_GEN_FILL_LEN. destruct (i <? 12) eqn:E.
    + destruct (updated_st8 m m1 out i (fun _ => 32) 32) as (m2 & E2 & Hu2); [lia..|done|done|].
      rewrite E2. run_step. eexists. split; [done|]. cbn [fst snd]. split; [split; [lia|done]|lia].
    + eexists. split; [done|]. by replace i with 12 in Hu by lia.
  - cbn [fst snd]. split; [lia|apply updated_refl].
  - cbn [fst snd]. lia.
Qed.

(** After [n - j] steps of the rewind of an extension [E] of [n] characters to [[e - n, e)]. *)
Definition rewound (m m' : list Z) (out e : Z) (E : list Z) (j : Z) : Prop :=
  mlen m' = mlen m /\ forall a, byte_at m' a =
    if (out + e - (mlen E - j) <=? a) && (a <? out + e) then byte_at E (a - out - (e - mlen E))
    else if (out + 8 + j <=? a) && (a <? out + 8 + mlen E) then 32 else byte_at m a.

Lemma rewind_ok m out e E : 0 <= out -> out + 12 <= mlen m -> mlen E <= e <= 8 -> 0 < mlen E <= 3 ->
  (forall i, 0 <= i < mlen E -> byte_at m (out + 8 + i) = byte_at E i) ->
  exists m', loop (S (Z.to_nat (mlen E))) (rewind_body out 8) (m, 8 + mlen E, e) = Done m' /\ rewound m m' out e E 0.
Proof.
  intros Ho Hfit He HE Hext.
  apply (loop_total (fun st => let '(m1, edi, ebx) := st in
    0 < edi - 8 <= mlen E /\ ebx = e - (mlen E - (edi - 8)) /\ rewound m m1 out e E (edi - 8))
    (fun st => Z.to_nat (st.1.2 - 8))).
  - intros [[m1 edi] ebx] (Hj & -> & Hl & Hb). unfold rewind_body. rewrite (wrap_small 32 (edi - 1)) by lia.
    rewrite ld8_ok by lia. run_step. rewrite Hb.
    replace ((out + e - (mlen E - (edi - 8)) <=? out + (edi - 1)) && (out + (edi - 1) <? out + e)) with false by lia.
    replace ((out + 8 + (edi - 8) <=? out + (edi - 1)) && (out + (edi - 1) <? out + 8 + mlen E)) with false by lia.
    replace (out + (edi - 1)) with (out + 8 + (edi - 9)) by lia. rewrite Hext by lia.
    rewrite wrap_small by lia. set (ebx := e - (mlen E - (edi - 8)) - 1).
    rewrite st8_ok by lia. run_step. rewrite st8_ok by (rewrite mlen_insert; lia). run_step.
    assert (rewound m (<[Z.to_nat (out + 8 + (edi - 9)):=32]> (<[Z.to_nat (out + ebx):=byte_at E (edi - 9)]> m1)) out e E (edi - 9)) as Hr.
    { split; [by rewrite !mlen_insert|]. intros a. rewrite !byte_at_insert, Hb by (rewrite ?mlen_insert; lia).
      subst ebx. repeat case_match; try lia; try done; f_equal; lia. }
    destruct (edi - 1 <=? 8) eqn:Ee.
    + eexists. split; [done|]. by replace (edi - 9) with 0 in * by lia.
    + eexists. split; [done|]. cbn [fst snd]. replace (edi - 1 - 8) with (edi - 9) by lia.
      split; [|lia]. split; [lia|]. split; [subst ebx; lia|done].
  - split; [lia|]. split; [lia|]. replace (8 + mlen E - 8) with (mlen E) by lia. split; [done|].
    intros a. replace (mlen E - mlen E) with 0 by lia. repeat case_match; try lia; done.
  - cbn [fst snd]. lia.
Qed.

Lemma up_byte c : 0 <= c < 128 -> is_byte (cp866_to_upper c).
Proof.
  intros Hc. unfold cp866_to_upper, is_byte. pose proof (byte_of_range (c - 32) 0) as H.
  repeat case_match; try lia; apply (wrap_range 8); lia.
Qed.

Lemma form_snoc_base B d l x i : mlen B < 8 ->
  form_at (Shape (B ++ [x]) [] d l) i = if i =? mlen B then x else form_at (Shape B [] d l) i.
Proof.
  intros HB. unfold form_at. cbn [base_ ext_]. rewrite mlen_app. change (mlen [x]) with 1. change (mlen []) with 0.
  pose proof (mlen_nonneg B). destruct (i =? mlen B) eqn:E.
  - replace (i <? mlen B + 1) with true by lia. replace i with (mlen B) by lia. apply byte_at_mid.
  - destruct (i <? mlen B) eqn:E2.
    + replace (i <? mlen B + 1) with true by lia. destruct (decide (0 <= i)).
      * rewrite byte_at_app by lia. by rewrite E2.
      * unfold byte_at. by replace (i <? 0) with true by lia.
    + by replace (i <? mlen B + 1) with false by lia.
Qed.

Lemma form_snoc_ext B E d l x i : mlen B <= 8 -> mlen E < 3 ->
  form_at (Shape B (E ++ [x]) d l) i = if i =? 8 + mlen E then x else form_at (Shape B E d l) i.
Proof.
  intros HB HE. unfold form_at. cbn [base_ ext_]. rewrite mlen_app. change (mlen [x]) with 1.
  pose proof (mlen_nonneg E). destruct (i =? 8 + mlen E) eqn:Ei.
  - replace i with (8 + mlen E) by lia. replace (8 + mlen E <? mlen B) with false by lia.
    replace (8 + mlen E <? 8) with false by lia. replace (8 + mlen E <? 8 + (mlen E + 1)) with true by lia.
    replace (8 + mlen E - 8) with (mlen E) by lia. apply byte_at_mid.
  - destruct (i <? mlen B); [done|]. destruct (i <? 8) eqn:E8; [done|].
    destruct (i <? 8 + mlen E) eqn:E2.
    + replace (i <? 8 + (mlen E + 1)) with true by lia. rewrite byte_at_app by lia. by replace (i - 8 <? mlen E) with true by lia.
    + by replace (i <? 8 + (mlen E + 1)) with false by lia.
Qed.

Lemma updated_ext m m' a n f g : updated m m' a n f -> (forall i, 0 <= i < n -> f i = g i) -> updated m m' a n g.
Proof. intros [Hl H] Hfg. split; [done|]. intros i. rewrite H. case_match; [apply Hfg; lia|done]. Qed.

Lemma updated_put m m' a n f i v : updated m m' a n f -> 0 <= a -> a + n <= mlen m -> 0 <= i < n ->
  exists m'', st8 m' (a + i) v = Done m'' /\ updated m m'' a n (fun j => if j =? i then v else f j).
Proof.
  intros [Hl H] Ha Hfit Hi. rewrite st8_ok by lia. eexists. split; [done|]. split; [by rewrite mlen_insert|].
  intros j. rewrite byte_at_insert, H by lia. repeat case_match; try lia; done.
Qed.

(** A second dot: the extension joins the base name. *)
Lemma second_dot_ok m m1 out B E l esi : 0 <= out -> out + 12 <= mlen m ->
  (length B <= 8)%nat -> (length E <= 3)%nat -> updated m m1 out 12 (form_at (Shape B E true l)) ->
  exists m2, second_dot m1 out 8 esi (8 + mlen E) (mlen B) =
      Done (inl (m2, esi, 8, 3, 3, mlen (take (8 - length E) B ++ E))) /\
    updated m m2 out 12 (form_at (Shape (take (8 - length E) B ++ E) [] true true)).
Proof.
  intros Ho Hfit HB HE Hu. unfold second_dot. pose proof (mlen_nonneg B). pose proof (mlen_nonneg E).
  assert (mlen B <= 8 /\ mlen E <= 3) as [HB' HE'] by (unfold mlen; lia).
  rewrite wrap_sub_l, (wrap_small 32) by lia. replace (mlen B + (8 + mlen E) - 8) with (mlen B + mlen E) by lia.
  set (e := Z.min 8 (mlen B + mlen E)).
  assert (mlen (take (8 - length E) B ++ E) = e) as He.
  { rewrite mlen_app. unfold mlen, e. rewrite length_take. unfold mlen. lia. }
  assert ((if 8 <=? mlen B + mlen E then (8, 8) else (mlen B + mlen E, mlen B + mlen E)) = (e, e)) as ->
    by (unfold e; case_match; f_equal; lia).
  rewrite He. replace (8 + mlen E - 8) with (mlen E) by lia.
  assert (forall i, 0 <= i < 12 ->
    form_at (Shape (take (8 - length E) B ++ E) [] true true) i =
    if (e - mlen E <=? i) && (i <? e) then byte_at E (i - (e - mlen E))
    else if (8 <=? i) && (i <? 8 + mlen E) then 32 else form_at (Shape B E true l) i) as Hform.
  { intros i Hi. unfold form_at. cbn [base_ ext_]. rewrite He. change (mlen []) with 0.
    assert (mlen (take (8 - length E) B) = e - mlen E) as Ht by (rewrite <- He, mlen_app; lia).
    rewrite byte_at_app, Ht by lia. destruct (i <? e) eqn:Ei.
    - destruct (i <? e - mlen E) eqn:Ej.
      + replace (e - mlen E <=? i) with false by lia. cbn [andb]. replace (8 <=? i) with false by (unfold e in *; lia).
        cbn [andb]. replace (i <? mlen B) with true by (unfold e in *; lia).
        unfold byte_at. replace (i <? 0) with false by lia. rewrite lookup_take_lt; [done|]. unfold e, mlen in *. lia.
      + replace (e - mlen E <=? i) with true by lia. done.
    - rewrite andb_false_r. destruct (i <? 8) eqn:E8.
      + replace (8 <=? i) with false by lia. cbn [andb]. by replace (i <? mlen B) with false by (unfold e in *; lia).
      + replace (8 <=? i) with true by lia. cbn [andb]. replace (i <? 8 + 0) with false by lia.
        replace (i <? mlen B) with false by lia. by destruct (i <? 8 + mlen E). }
  destruct (8 <? 8 + mlen E) eqn:EE.
  - destruct (rewind_ok m1 out e E) as (m2 & -> & Hl2 & Hb2); [done|destruct Hu as [-> _]; lia|unfold e; lia|lia| |].
    + intros i Hi. destruct Hu as [_ ->]. replace ((out <=? out + 8 + i) && (out + 8 + i <? out + 12)) with true by lia.
      unfold form_at. cbn [base_ ext_]. replace (out + 8 + i - out) with (8 + i) by lia.
      replace (8 + i <? mlen B) with false by lia. replace (8 + i <? 8) with false by lia.
      replace (8 + i <? 8 + mlen E) with true by lia. f_equal. lia.
    + run_step. exists m2. split; [done|]. destruct Hu as [Hl Hb]. split; [congruence|]. intros a. rewrite Hb2, Hb.
      destruct ((out <=? a) && (a <? out + 12)) eqn:Ea.
      * rewrite Hform by lia. repeat case_match; try (unfold e in *; lia); try done; f_equal; lia.
      * replace ((out + e - (mlen E - 0) <=? a) && (a <? out + e)) with false by (unfold e in *; lia).
        by replace ((out + 8 + 0 <=? a) && (a <? out + 8 + mlen E)) with false by (unfold e in *; lia).
  - run_step. exists m1. split; [done|]. eapply updated_ext; [exact Hu|]. intros i Hi. rewrite Hform by done.
    replace (mlen E) with 0 by lia. replace (e - 0 <=? i) with (e <=? i) by lia. repeat case_match; try lia; done.
Qed.

Lemma shape_step_wf sh c : shape_wf sh -> shape_wf (shape_step sh c).
Proof.
  destruct sh as [B E d l]. intros (HB & HE & Hd & Hn). cbn [base_ ext_ dotted] in *.
  unfold shape_step, lose. cbn [base_ ext_ dotted lossy].
  repeat case_match; try (split_and!; done); unfold shape_wf; cbn [base_ ext_ dotted] in *; rewrite ?length_app, ?length_take; cbn [length].
  - split_and!; [done|lia|done|]. intros _ ->. done.
  - apply negb_false_iff in H2 as ->. split_and!; [lia|lia|done|]. intros _ HBE.
    apply (f_equal length) in HBE. rewrite length_app, length_take in HBE. cbn in HBE.
    specialize (Hn eq_refl). destruct B; [done|]. cbn [length] in *. lia.
  - apply Nat.ltb_lt in H3. split_and!; [lia|lia|done|done].
  - apply Nat.ltb_lt in H3. split_and!; [lia|lia|done|done].
Qed.

Lemma gen_step m m1 out al sh edi bl bh saved esi : 0 <= out -> out + 12 <= mlen m ->
  shape_wf sh -> shape_regs sh edi bl bh saved -> updated m m1 out 12 (form_at sh) ->
  ld8 m1 esi = Done al -> 0 < al < 256 ->
  exists m2 edi' bl' bh' saved',
    gen_body out 8 (m1, esi, edi, bl, bh, saved) = Done (inl (m2, esi + 1, edi', bl', bh', saved')) /\
    shape_regs (shape_step sh al) edi' bl' bh' saved' /\ updated m m2 out 12 (form_at (shape_step sh al)).
Proof.
  intros Ho Hfit (HB & HE & Hd0 & Hd1) [-> Hregs] Hu Hld Hal. destruct sh as [B E d l]. cbn [base_ ext_ dotted lossy] in *.
  unfold gen_body. rewrite Hld. run_step. unfold shape_step, lose. cbn [base_ ext_ dotted lossy].
  assert ((as_i8 al <? 0) = (128 <=? al)) as ->.
  { unfold as_signed. change (2 ^ (8 - 1)) with 128. change (2 ^ 8) with 256. destruct (al <? 128) eqn:E0; lia. }
  rewrite lor1.
  destruct (128 <=? al) eqn:E1; [by eexists _, _, _, _, _; split_and!|].
  replace (al =? 0) with false by lia.
  destruct (negb (fat_short_char_ok al)) eqn:E2; [by eexists _, _, _, _, _; split_and!|].
  pose proof (mlen_nonneg B). pose proof (mlen_nonneg E). assert (mlen B <= 8 /\ mlen E <= 3) as [HB' HE'] by (unfold mlen; lia).
  destruct (al =? 46) eqn:E3.
  - destruct d.
    + destruct Hregs as (-> & -> & ->).
      replace (Z.land (bool_to_Z l + 2 * bool_to_Z true) 2 =? 0) with false by (by destruct l). cbn [negb].
      destruct (second_dot_ok m m1 out B E l (esi + 1)) as (m2 & E4 & Hu2); [done..|].
      rewrite E4. eexists _, _, _, _, _. split; [done|]. split; [|exact Hu2]. split; done.
    + destruct Hregs as (-> & ->). replace (Z.land (bool_to_Z l + 2 * bool_to_Z false) 2 =? 0) with true by (by destruct l). cbn [negb].
      assert ((8 - mlen B =? 8) = (length B =? 0)%nat) as ->.
      { destruct B; [done|]. cbn [length Nat.eqb]. apply Z.eqb_neq. unfold mlen. cbn [length]. lia. }
      destruct (length B =? 0)%nat; [by eexists _, _, _, _, _; split_and!|].
      eexists _, _, _, _, _. split; [done|]. rewrite (Hd0 eq_refl) in *. split; [|exact Hu]. split; [by destruct l|done].
  - pose proof (up_byte al ltac:(lia)) as Hup. destruct d.
    + destruct Hregs as (-> & -> & ->). destruct (length E <? 3)%nat eqn:E4.
      * apply Nat.ltb_lt in E4. assert (mlen E < 3) by (unfold mlen; lia). rewrite (wrap_small 8) by (change (2 ^ 8) with 256; lia).
        rewrite as_signed_small by (change (2 ^ (8 - 1)) with 128; lia). replace (0 <=? 3 - mlen E - 1) with true by lia.
        destruct (updated_put _ _ _ _ _ (8 + mlen E) (cp866_to_upper al) Hu) as (m2 & E5 & Hu2); [lia..|].
        rewrite E5. run_step. eexists _, _, _, _, _. split; [done|]. split.
        { split; [done|]. cbn [base_ ext_ dotted]. rewrite mlen_app. change (mlen [cp866_to_upper al]) with 1.
          rewrite wrap_small by lia. split_and!; lia. }
        eapply updated_ext; [exact Hu2|]. intros i Hi. by rewrite form_snoc_ext by lia.
      * apply Nat.ltb_ge in E4. assert (mlen E = 3) as -> by (unfold mlen; lia). cbn -[mlen form_at].
        eexists _, _, _, _, _. split; [done|]. split; [|exact Hu]. split; [done|]. cbn [dotted base_ ext_].
        assert (mlen E = 3) as -> by (unfold mlen; lia). done.
    + destruct Hregs as (-> & ->). rewrite (Hd0 eq_refl) in *. destruct (length B <? 8)%nat eqn:E4.
      * apply Nat.ltb_lt in E4. assert (mlen B < 8) by (unfold mlen; lia). rewrite (wrap_small 8) by (change (2 ^ 8) with 256; lia).
        rewrite as_signed_small by (change (2 ^ (8 - 1)) with 128; lia). replace (0 <=? 8 - mlen B - 1) with true by lia.
        destruct (updated_put _ _ _ _ _ (mlen B) (cp866_to_upper al) Hu) as (m2 & E5 & Hu2); [lia..|].
        rewrite E5. run_step. eexists _, _, _, _, _. split; [done|]. split.
        { split; [done|]. cbn [base_ ext_ dotted]. rewrite mlen_app. change (mlen [cp866_to_upper al]) with 1.
          rewrite wrap_small by lia. split; lia. }
        eapply updated_ext; [exact Hu2|]. intros i Hi. by rewrite form_snoc_base by lia.
      * apply Nat.ltb_ge in E4. assert (mlen B = 8) as HB8 by (unfold mlen; lia). rewrite HB8. cbn -[mlen form_at].
        eexists _, _, _, _, _. split; [done|]. split; [|exact Hu]. split; [done|]. cbn [dotted base_ ext_].
        rewrite HB8. done.
Qed.

Lemma gen_loop m src out s fuel : 0 <= out -> out + 12 <= mlen m -> stored m src (s ++ [0]) ->
  disjoint src (mlen (s ++ [0])) out 12 -> bytes s -> 0 ∉ s -> (length s < fuel)%nat ->
  forall sh m1 edi bl bh saved, shape_wf sh -> shape_regs sh edi bl bh saved -> updated m m1 out 12 (form_at sh) ->
  exists m2, loop fuel (gen_body out 8) (m1, src, edi, bl, bh, saved) =
      Done (m2, bool_to_Z (lossy (foldl shape_step sh s)) + 2 * bool_to_Z (dotted (foldl shape_step sh s))) /\
    updated m m2 out 12 (form_at (foldl shape_step sh s)).
Proof.
  intros Ho Hfit. revert src fuel. induction s as [|c s IH]; intros src [|fuel] Hs Hdis Hb H0 Hf sh m1 edi bl bh saved Hwf Hregs Hu;
    cbn [length] in Hf; try lia; rewrite loop_S.
  - destruct Hregs as [-> _]. unfold gen_body at 1. pose proof (stored_ld8 _ _ _ 0 Hs ltac:(unfold mlen; cbn; lia)) as Hld.
    rewrite Z.add_0_r in Hld. apply ld8_Done in Hld as [Hr Hx]. pose proof Hu as [Hl Hub].
    unfold gen_body at 1. rewrite ld8_ok by lia. run_step.
    assert (byte_at m1 src = 0) as ->.
    { rewrite Hub. unfold disjoint, mlen in Hdis. cbn in Hdis.
      replace ((out <=? src) && (src <? out + 12)) with false by lia. by rewrite <- Hx. }
    cbn. by exists m1.
  - apply Forall_cons_1 in Hb as [Hc Hb]. unfold is_byte in Hc. apply not_elem_of_cons in H0 as [Hc0 H0].
    pose proof (stored_ld8 _ _ _ 0 Hs ltac:(unfold mlen; cbn; lia)) as Hld. rewrite Z.add_0_r in Hld.
    cbn [app] in Hld. rewrite byte_at_cons in Hld. cbn [Z.eqb] in Hld. apply ld8_Done in Hld as [Hr Hx].
    pose proof Hu as [Hl Hub]. cbn [app] in Hdis, Hs. rewrite mlen_cons in Hdis.
    pose proof (mlen_nonneg (s ++ [0])). unfold disjoint in Hdis.
    assert (ld8 m1 src = Done c) as Hld1.
    { rewrite ld8_ok by lia. rewrite Hub. replace ((out <=? src) && (src <? out + 12)) with false by lia. by rewrite <- Hx. }
    destruct (gen_step m m1 out c sh edi bl bh saved src Ho Hfit Hwf Hregs Hu Hld1 ltac:(lia))
      as (m2 & edi' & bl' & bh' & saved' & E & Hregs' & Hu'). rewrite E. run_step.
    cbn [foldl]. apply IH; try done; [|unfold disjoint; lia|lia|by apply shape_step_wf].
    change (c :: s ++ [0]) with ([c] ++ s ++ [0]) in Hs. apply stored_app in Hs as [_ Hs]. exact Hs.
Qed.

(** ** Names that fit *)

Definition short_char (c : Z) : bool := (c <? 128) && fat_short_char_ok c && negb (c =? 46).

(** An 8.3 name: base name [B], extension [E]; the dot is optional if [E] is empty. *)
Definition valid83 (s B E : list Z) : Prop :=
  Forall (fun c => short_char c = true) (B ++ E) /\ (length B <= 8)%nat /\ (length E <= 3)%nat /\
  ((s = B /\ E = []) \/ (s = B ++ 46 :: E /\ B <> [])).

Lemma lossy_mono s sh : lossy sh = true -> lossy (foldl shape_step sh s) = true.
Proof.
  revert sh. induction s as [|c s IH]; intros sh H; [done|]. cbn [foldl]. apply IH.
  destruct sh as [B E d l]. cbn in H. subst l. unfold shape_step. by repeat case_match.
Qed.

(** Ordinary characters are collected. *)
Lemma collect_base B s : Forall (fun c => short_char c = true) s -> (length B + length s <= 8)%nat ->
  foldl shape_step (Shape B [] false false) s = Shape (B ++ (cp866_to_upper <$> s)) [] false false.
Proof.
  revert B. induction s as [|c s IH]; intros B Hs Hl; cbn [foldl length fmap list_fmap] in *; [by rewrite app_nil_r|].
  apply Forall_cons_1 in Hs as [Hc Hs]. unfold short_char in Hc. rewrite !andb_true_iff in Hc.
  destruct Hc as [[Hc1 Hc2] Hc3]. unfold shape_step at 2. unfold lose. cbn [base_ ext_ dotted lossy].
  replace (128 <=? c) with false by lia. rewrite Hc2. cbn [negb].
  replace (c =? 46) with false by lia. replace (length B <? 8)%nat with true by (symmetry; apply Nat.ltb_lt; lia).
  rewrite IH by (try done; rewrite length_app; cbn [length]; lia). by rewrite <- app_assoc.
Qed.

Lemma collect_ext B E s : Forall (fun c => short_char c = true) s -> (length E + length s <= 3)%nat ->
  foldl shape_step (Shape B E true false) s = Shape B (E ++ (cp866_to_upper <$> s)) true false.
Proof.
  revert E. induction s as [|c s IH]; intros E Hs Hl; cbn [foldl length fmap list_fmap] in *; [by rewrite app_nil_r|].
  apply Forall_cons_1 in Hs as [Hc Hs]. unfold short_char in Hc. rewrite !andb_true_iff in Hc.
  destruct Hc as [[Hc1 Hc2] Hc3]. unfold shape_step at 2. unfold lose. cbn [base_ ext_ dotted lossy].
  replace (128 <=? c) with false by lia. rewrite Hc2. cbn [negb].
  replace (c =? 46) with false by lia. replace (length E <? 3)%nat with true by (symmetry; apply Nat.ltb_lt; lia).
  rewrite IH by (try done; rewrite length_app; cbn [length]; lia). by rewrite <- app_assoc.
Qed.

Lemma valid83_kept s B E : valid83 s B E ->
  lossy (shorten s) = false /\ base_ (shorten s) = cp866_to_upper <$> B /\ ext_ (shorten s) = cp866_to_upper <$> E.
Proof.
  intros (Hc & HB & HE & H). apply Forall_app in Hc as [HcB HcE]. unfold shorten.
  destruct H as [[-> ->]|[-> Hne]].
  - by rewrite collect_base by (done || cbn; lia).
  - rewrite foldl_app, collect_base by (done || cbn; lia). cbn [foldl app].
    assert (shape_step (Shape (cp866_to_upper <$> B) [] false false) 46 = Shape (cp866_to_upper <$> B) [] true false) as ->.
    { cbn. by destruct B. }
    by rewrite collect_ext by (done || cbn; lia).
Qed.

(** Nothing else is kept as it is. *)
Lemma kept_valid83 s : lossy (shorten s) = false -> exists B E, valid83 s B E /\ dotted (shorten s) = bool_decide (46 ∈ s).
Proof.
  induction s as [|c s IH] using rev_ind.
  - intros _. exists [], []. split; [|done]. split; [constructor|]. split_and!; [cbn; lia..|by left].
  - unfold shorten in *. rewrite foldl_app. cbn [foldl]. intros Hl.
    destruct (lossy (foldl shape_step (Shape [] [] false false) s)) eqn:El.
    { pose proof (lossy_mono [c] _ El) as H. cbn [foldl] in H. congruence. }
    destruct (IH eq_refl) as (B & E & Hv & Hd). pose proof (valid83_kept s B E Hv) as (_ & HbB & HbE). unfold shorten in *.
    destruct (foldl shape_step (Shape [] [] false false) s) as [B' E' d l]. cbn [base_ ext_ dotted lossy] in *. subst B' E' d l.
    unfold shape_step, lose in *. cbn [base_ ext_ dotted lossy] in *. rewrite !length_fmap in *.
    destruct (128 <=? c) eqn:E1; [done|]. destruct (fat_short_char_ok c) eqn:E2; [|done]. cbn [negb] in *.
    destruct Hv as (Hc & HB & HE & Hs).
    assert (forall X, Forall (fun c => short_char c = true) X -> 46 ∉ X) as Hnodot.
    { intros X HX Hin. rewrite Forall_forall in HX. specialize (HX _ Hin). done. }
    destruct (c =? 46) eqn:E3.
    + apply Z.eqb_eq in E3 as ->. destruct (bool_decide (46 ∈ s)) eqn:Ed; [done|]. cbn [negb] in *.
      apply bool_decide_eq_false in Ed. destruct Hs as [[-> ->]|[-> _]].
      2: { exfalso. apply Ed. apply elem_of_app. right. by left. }
      exists B, []. destruct (length B =? 0)%nat eqn:E0; [done|]. cbn [dotted]. split.
      * split; [done|]. split_and!; [done|cbn; lia|]. right. split; [done|]. intros ->. done.
      * rewrite bool_decide_true; [done|]. apply elem_of_app. right. by left.
    + assert (short_char c = true) as Hsc by (unfold short_char; rewrite E2, E3; lia).
      rewrite (bool_decide_ext (46 ∈ s ++ [c]) (46 ∈ s)).
      2: { rewrite elem_of_app, list_elem_of_singleton. split; [intros [?|?]; [done|lia]|by left]. }
      destruct (bool_decide (46 ∈ s)) eqn:Ed.
      * destruct (length E <? 3)%nat eqn:E4; [|done]. apply Nat.ltb_lt in E4. apply bool_decide_eq_true in Ed.
        destruct Hs as [[-> ->]|[-> Hne]].
        { exfalso. rewrite app_nil_r in Hc. by apply (Hnodot B). }
        exists B, (E ++ [c]). split; [|done]. split; [|split_and!].
        -- rewrite app_assoc. apply Forall_app. split; [done|]. by apply Forall_cons_2.
        -- done.
        -- rewrite length_app. cbn. lia.
        -- right. by rewrite <- app_assoc.
      * destruct (length B <? 8)%nat eqn:E4; [|done]. apply Nat.ltb_lt in E4. apply bool_decide_eq_false in Ed.
        destruct Hs as [[-> ->]|[-> Hne]].
        2: { exfalso. apply Ed. apply elem_of_app. right. by left. }
        exists (B ++ [c]), []. rewrite app_nil_r in *. split; [|done]. split; [|split_and!].
        -- rewrite app_nil_r. apply Forall_app. split; [done|]. by apply Forall_cons_2.
        -- rewrite length_app. cbn. lia.
        -- done.
        -- by left.
Qed.

(** ** Where the characters of the short name come from *)

Definition from_long (s : list Z) (x : Z) : Prop := exists c, c ∈ s /\ 0 <= c < 128 /\ short_char c = true /\ x = cp866_to_upper c.

Lemma from_long_snoc s c x : from_long s x -> from_long (s ++ [c]) x.
Proof. intros (d & Hd & H). exists d. split; [apply elem_of_app; by left|done]. Qed.

Lemma shorten_chars s : bytes s -> Forall (from_long s) (base_ (shorten s) ++ ext_ (shorten s)).
Proof.
  induction s as [|c s IH] using rev_ind; intros Hb; [constructor|].
  apply Forall_app in Hb as [Hb [Hc _]%Forall_cons_1]. unfold is_byte in Hc. specialize (IH Hb).
  eapply Forall_impl in IH; [|by apply from_long_snoc]. unfold shorten in *. rewrite foldl_app. cbn [foldl].
  destruct (foldl shape_step (Shape [] [] false false) s) as [B E d l]. cbn [base_ ext_] in IH.
  apply Forall_app in IH as [HB HE]. unfold shape_step, lose. cbn [base_ ext_ dotted lossy].
  destruct (128 <=? c) eqn:E1; [by apply Forall_app|]. destruct (fat_short_char_ok c) eqn:E2; cbn [negb]; [|by apply Forall_app].
  destruct (c =? 46) eqn:E3.
  - destruct d; cbn [negb].
    + cbn [base_ ext_]. rewrite app_nil_r. apply Forall_app. split; [by apply Forall_take|done].
    + destruct (length B =? 0)%nat; cbn [base_ ext_]; [by apply Forall_app|]. by rewrite app_nil_r.
  - assert (from_long (s ++ [c]) (cp866_to_upper c)) as Hnew.
    { exists c. split; [apply elem_of_app; right; by left|]. split; [lia|]. split; [|done]. unfold short_char. rewrite E2, E3. lia. }
    destruct d; [destruct (length E <? 3)%nat|destruct (length B <? 8)%nat]; cbn [base_ ext_];
      rewrite ?Forall_app; split_and!; try done; by apply Forall_cons_2.
Qed.

Lemma upper_facts c : 0 <= c < 128 -> short_char c = true ->
  cp866_to_upper c <> 32 /\ cp866_to_upper c <> 46 /\ ~ (97 <= cp866_to_upper c <= 122) /\ (cp866_to_upper c = 126 -> c = 126).
Proof.
  intros Hc Hs.
  assert (forall_range 0 128 (fun c => negb (short_char c) ||
    (negb (cp866_to_upper c =? 32) && negb (cp866_to_upper c =? 46) &&
     negb ((97 <=? cp866_to_upper c) && (cp866_to_upper c <=? 122)) &&
     (negb (cp866_to_upper c =? 126) || (c =? 126)))) = true) as H by (vm_compute; reflexivity).
  pose proof (forall_range_spec _ _ _ H c Hc) as Hx. cbn beta in Hx. rewrite Hs in Hx. cbn [negb orb] in Hx. lia.
Qed.

Definition pad8 (B : list Z) : list Z := B ++ replicate (8 - length B) 32.

Lemma pad8_at B E d l i : (length B <= 8)%nat -> 0 <= i < 8 -> byte_at (pad8 B) i = form_at (Shape B E d l) i.
Proof.
  intros HB Hi. unfold pad8, form_at. cbn [base_ ext_]. rewrite byte_at_app by lia. destruct (i <? mlen B) eqn:Ei; [done|].
  replace (i <? 8) with true by lia. replace (i - mlen B) with (Z.of_nat (Z.to_nat (i - mlen B))) by lia.
  apply byte_at_lookup, lookup_replicate_2. unfold mlen in *. lia.
Qed.

Lemma strip_pad8 B : Forall (fun x => x <> 32) B -> B <> [] -> strip (pad8 B) = B.
Proof.
  intros HB Hne. destruct B as [|c B _] using rev_ind; [done|]. apply Forall_app in HB as [_ [Hc _]%Forall_cons_1].
  unfold pad8. rewrite <- app_assoc. cbn [app]. by apply strip_ok.
Qed.

Lemma shorten_wf s : shape_wf (shorten s).
Proof.
  unfold shorten. assert (shape_wf (Shape [] [] false false)) as H.
  { split; [cbn; lia|]. split; [cbn; lia|]. done. }
  revert H. generalize (Shape [] [] false false). induction s as [|c s IH]; intros sh H; [done|]. cbn [foldl].
  apply IH. by apply shape_step_wf.
Qed.

(** The buffer after the scan, and what is left to do. *)
Lemma gen_scan m src out s : stored m src (s ++ [0]) -> bytes s -> 0 ∉ s -> 0 <= out -> out + 12 <= mlen m ->
  disjoint src (mlen (s ++ [0])) out 12 ->
  exists m1, updated m m1 out 12 (form_at (shorten s)) /\
    fat_gen_short_name m src out =
      if lossy (shorten s) then '(m2, _) ← fat_next_short_name m1 out; Done m2 else Done m1.
Proof.
  intros Hs Hb H0 Ho Hfit Hdis. unfold fat_gen_short_name. destruct (blank_ok m out Ho Hfit) as (m0 & -> & Hu). run_step.
  assert (updated m m0 out 12 (form_at (Shape [] [] false false))) as Hu0.
  { eapply updated_ext; [exact Hu|]. intros i Hi. unfold form_at. cbn [base_ ext_]. change (mlen []) with 0.
    repeat case_match; try done; lia. }
  pose proof Hu as [Hl _]. destruct Hs as (Hs0 & Hs1 & Hs2).
  destruct (gen_loop m src out s (S (length m0)) Ho Hfit (conj Hs0 (conj Hs1 Hs2)) Hdis Hb H0) with
    (sh := Shape [] [] false false) (m1 := m0) (edi := 0) (bl := 8) (bh := 0) (saved := 0) as (m2 & E & Hu2).
  - rewrite mlen_app in Hs1. unfold mlen in *. cbn [length] in Hs1. lia.
  - apply (shorten_wf []).
  - split; [done|]. split; done.
  - done.
  - rewrite E. run_step. exists m2. split; [exact Hu2|]. unfold shorten.
    by destruct (lossy _), (dotted _).
Qed.


(** Concrete strings. *)
Definition my_file : list Z := [77; 121; 32; 102; 105; 108; 101; 46; 116; 101; 120; 116].


(** ** Edges of the generator *)

(** A name without any legal character, such as one Cyrillic letter in UTF-8, leaves the
    base name blank, and the search for its end runs below the buffer: it faults at the
    bottom of memory, and after a space the tilde and the number land in front of it. *)
Lemma blank_name_leaves_buffer :
  fat_gen_short_name (replicate 12 0 ++ [0xD0; 0x9F; 0]) 12 0 = Fault /\
  fat_gen_short_name ([7; 32; 32] ++ replicate 12 0 ++ [0xD0; 0x9F; 0]) 15 3 =
    Done ([7; 126; 49] ++ replicate 12 32 ++ [0xD0; 0x9F; 0]).
Proof. split; vm_compute; reflexivity. Qed.

(** A name that begins with a tilde and has no number left gives itself as the next
    candidate, without refusing. *)
Lemma leading_tilde_repeats :
  fat_next_short_name [126; 57; 57; 57; 57; 57; 57; 57; 84; 88; 84; 32] 0 =
    Done ([126; 57; 57; 57; 57; 57; 57; 57; 84; 88; 84; 32], true).
Proof. vm_compute. reflexivity. Qed.

(** The second candidate of a short base name: the number is filled up with zeros over
    the trailing spaces. *)
Lemma second_candidate_jumps :
  fat_next_short_name [65; 126; 49; 32; 32; 32; 32; 32; 84; 88; 84; 32] 0 =
    Done ([65; 126; 50; 48; 48; 48; 48; 48; 84; 88; 84; 32], true).
Proof. vm_compute. reflexivity. Qed.

(** *** Legality of a long name *)

Lemma fat_name_is_legal_ok m name s : stored m name (s ++ [0]) -> bytes s -> 0 ∉ s ->
  fat_name_is_legal m name = Done (forallb (fun c => (128 <=? c) || fat_lfn_char_ok c) s).
Proof.
  intros Hs Hb H0. unfold fat_name_is_legal.
  assert (length s < S (length m))%nat as Hf.
  { destruct Hs as (? & Hfit & _). unfold mlen in Hfit. rewrite length_app in Hfit. cbn in Hfit. lia. }
  revert name Hs Hb H0 Hf. generalize (S (length m)). intros fuel. revert fuel.
  induction s as [|c s IH]; intros [|fuel] name Hs Hb H0 Hf; cbn [length] in Hf; try lia; rewrite loop_S; unfold legal_body at 2;
    pose proof (stored_ld8 _ _ _ 0 Hs ltac:(unfold mlen; cbn; lia)) as Hld; rewrite Z.add_0_r in Hld;
    rewrite Hld; run_step; cbn [app]; rewrite byte_at_cons; cbn [Z.eqb forallb].
  - done.
  - apply Forall_cons_1 in Hb as [Hc Hb]. unfold is_byte in Hc. apply not_elem_of_cons in H0 as [Hc0 H0].
    change ((c :: s) ++ [0]) with ([c] ++ s ++ [0]) in Hs. apply stored_app in Hs as [_ Hs]. change (mlen [c]) with 1 in Hs.
    assert ((as_i8 c <? 0) = (128 <=? c)) as ->.
    { unfold as_signed. change (2 ^ (8 - 1)) with 128. change (2 ^ 8) with 256. destruct (c <? 128) eqn:E; lia. }
    destruct (128 <=? c); cbn [orb andb]; [apply IH; done || lia|].
    destruct (fat_lfn_char_ok c); cbn [andb]; [apply IH; done || lia|]. run_step. by replace (c =? 0) with false by lia.
Qed.

(** Whatever may stand in a short name may stand in a long one. *)
Lemma short_chars_are_long c : 0 <= c < 256 -> fat_short_char_ok c = true -> fat_lfn_char_ok c = true.
Proof.
  intros Hc H.
  assert (forall_range 0 256 (fun c => negb (fat_short_char_ok c) || fat_lfn_char_ok c) = true) as Ha by (vm_compute; reflexivity).
  pose proof (forall_range_spec _ _ _ Ha c Hc) as Hx. cbn beta in Hx. rewrite H in Hx. done.
Qed.

(** Consecutive clusters are consecutive runs of sectors. *)
Lemma fat_sectors_consecutive c o spc start : 2 <= c -> 0 <= o -> 0 <= spc -> 0 <= start ->
  (c - 2) * spc + start + o < 2 ^ 32 -> c < 2 ^ 32 ->
  fat_get_sector c o spc start = start + (c - 2) * spc + o.
Proof.
  intros. unfold fat_get_sector. assert (0 <= (c - 2) * spc) by nia.
  rewrite (wrap_small 32 (c - 2)) by lia. rewrite (wrap_small 32 ((c - 2) * spc)) by lia.
  rewrite (wrap_small 32 ((c - 2) * spc + start)) by lia. rewrite wrap_small by lia. lia.
Qed.
