(* ===== verification/Guard.v ===== *)
(** * Checks on what user programs hand to the kernel

    [userspace.rs]: does a region or a string lie below the kernel; [fs_operation_safe.rs]:
    is the buffer of a file system call a user region; [app_header.rs]: is an executable
    header acceptable, and the description the loader fills from it.  The answers 1 and
    0 are the zero flag of the routines they replace. *)

From stdpp Require Import base list.
From Stdlib Require Import ZArith Lia.
From S2P Require Import Prelude.

(** ** Definitions *)

Definition OS_BASE : Z := 0x80000000.
Definition OS_BASE_M1 : Z := 0x7FFFFFFF.
Definition STRING_USERSPACE_MAX : Z := 0x10000.

Definition is_region_userspace (base len : Z) : Z :=
  if OS_BASE_M1 <? base then 0
  else
    let '(sum, carry) := (base +ₘ len, 2 ^ 32 <=? base + len) in
    if carry then bool_to_Z (sum =? 0)
    else if OS_BASE <? sum then 0
    else 1.

Definition trampoline_zf_from_rust_return (rust_ret : Z) : bool := rust_ret =? 1.

Definition string_body (m : list Z) (ecx : Z) (st : Z * Z) : run (Z * Z + Z) :=
  let '(edi, i) := st in
  if i <? ecx then
    b ← ld8 m edi;
    if b =? 0 then Done (inr 1) else Done (inl (edi + 1, i +ₘ 1))
  else Done (inr 0).

(** [base] is the address of the string: memory is the linear address space. *)
Definition is_string_userspace (m : list Z) (base : Z) : run Z :=
  let base_va := u32 base in
  if OS_BASE_M1 <? base_va then Done 0
  else
    let ecx := OS_BASE -ₘ base_va in
    let ecx := if STRING_USERSPACE_MAX <? ecx then STRING_USERSPACE_MAX else ecx in
    loop (S (Z.to_nat ecx)) (string_body m ecx) (base, 0).

(** *** File system calls *)

Definition OFF_SUBFN : Z := 0.
Definition OFF_ENCODING : Z := 8.
Definition OFF_COUNT_OR_SIZE : Z := 12.
Definition OFF_BUFFER_BASE : Z := 16.
Definition INF_STRUCT_MIN : Z := 20.
Definition BDVK_CP866 : Z := 304.
Definition BDVK_UNICODE : Z := 560.
Definition BDVK_HEADER : Z := 32.
Definition SUBFN5_LEN : Z := 40.
Definition SUBFN6_LEN : Z := 32.

Definition fs_op_safe_buffer_len_ex (subfn encoding count_or_size : Z) : bool * Z :=
  if subfn =? 0 then (true, count_or_size)
  else if subfn =? 1 then
    let bdvk := if encoding <=? 1 then BDVK_CP866 else BDVK_UNICODE in
    (true, bdvk *ₘ count_or_size +ₘ BDVK_HEADER)
  else if subfn <=? 3 then (true, count_or_size)
  else if subfn =? 5 then (true, SUBFN5_LEN)
  else if subfn =? 6 then (true, SUBFN6_LEN)
  else (false, 0).

Definition fs_op_safe_buffer_len (subfn encoding count_or_size : Z) : option Z :=
  let '(known, len) := fs_op_safe_buffer_len_ex subfn encoding count_or_size in
  if (known : bool) then Some len else None.

Definition region_gate_zf (base len : Z) : Z :=
  if OS_BASE_M1 <? base then 0
  else
    let '(sum, carry) := (base +ₘ len, 2 ^ 32 <=? base + len) in
    if carry then bool_to_Z (sum =? 0)
    else if OS_BASE <? sum then 0
    else 1.

Definition file_system_is_operation_safe (m : list Z) (inf : Z) : run Z :=
  subfn ← ld32 m (inf + OFF_SUBFN);
  encoding ← ld32 m (inf + OFF_ENCODING);
  count_or_size ← ld32 m (inf + OFF_COUNT_OR_SIZE);
  base ← ld32 m (inf + OFF_BUFFER_BASE);
  let '(known, len) := fs_op_safe_buffer_len_ex subfn encoding count_or_size in
  if negb known then Done 1 else Done (region_gate_zf base len).

(** *** Executable headers *)

Definition HDR_OFF_START : Z := 12.
Definition HDR_OFF_I_END : Z := 16.
Definition HDR_OFF_MEM_SIZE : Z := 20.
Definition HDR_OFF_STACK_TOP : Z := 24.
Definition HDR_OFF_I_PARAM : Z := 28.
Definition HDR_OFF_I_ICON : Z := 32.
Definition APP_OFF_CMDLINE : Z := 0.
Definition APP_OFF_PATH : Z := 4.
Definition APP_OFF_EIP : Z := 8.
Definition APP_OFF_ESP : Z := 12.
Definition APP_OFF_EDATA : Z := 16.
Definition APP_OFF_EMEM : Z := 20.
Definition MAGIC_MENU : Z := 0x554E454D.
Definition MAGIC_ET : Z := 0x5445.
Definition MAGIC_01 : Z := 0x3130.
Definition MAGIC_02 : Z := 0x3230.

(** The header's address is the answer: [header as u32]. *)
Definition test_app_header (m : list Z) (header app_hdr pages_free : Z) : run (list Z * Z) :=
  menu ← ld32 m header;
  if negb (menu =? MAGIC_MENU) then Done (m, 0) else
  et ← ld16 m (header + 4);
  if negb (et =? MAGIC_ET) then Done (m, 0) else
  ver ← ld16 m (header + 6);
  if negb (ver =? MAGIC_01) && negb (ver =? MAGIC_02) then Done (m, 0) else
  start ← ld32 m (header + HDR_OFF_START);
  m ← st32 m (app_hdr + APP_OFF_EIP) start;
  mem_size ← ld32 m (header + HDR_OFF_MEM_SIZE);
  i_end ← ld32 m (header + HDR_OFF_I_END);
  if mem_size <? i_end then Done (m, 0)
  else if OS_BASE <=? mem_size then Done (m, 0)
  else
    let pages_bytes := pages_free <<ₘ 12 in
    if pages_bytes <=? mem_size then Done (m, 0)
    else
      stack_top ← ld32 m (header + HDR_OFF_STACK_TOP);
      i_param ← ld32 m (header + HDR_OFF_I_PARAM);
      i_icon ← ld32 m (header + HDR_OFF_I_ICON);
      m ← st32 m (app_hdr + APP_OFF_EMEM) mem_size;
      m ← st32 m (app_hdr + APP_OFF_ESP) stack_top;
      m ← st32 m (app_hdr + APP_OFF_CMDLINE) i_param;
      m ← st32 m (app_hdr + APP_OFF_PATH) i_icon;
      m ← st32 m (app_hdr + APP_OFF_EDATA) i_end;
      Done (m, u32 header).

(** ** Regions *)

(** Accepted regions are the user regions, and the one length that reaches exactly the
    end of the address space. *)
Lemma region_iff base len : 0 <= base < 2 ^ 32 -> 0 <= len < 2 ^ 32 ->
  (is_region_userspace base len = 1 <-> base < OS_BASE /\ (base + len <= OS_BASE \/ base + len = 2 ^ 32)) /\
  (is_region_userspace base len = 1 \/ is_region_userspace base len = 0).
Proof.
  intros Hb Hl. unfold is_region_userspace, OS_BASE, OS_BASE_M1. destruct (0x7FFFFFFF <? base) eqn:E1; [lia|].
  destruct (2 ^ 32 <=? base + len) eqn:E2.
  - assert (base +ₘ len = base + len - 2 ^ 32) as ->.
    { unfold wrap. rewrite <- (Z.mod_small (base + len - 2 ^ 32) (2 ^ 32)) by lia.
      rewrite <- (Z.mod_add (base + len - 2 ^ 32) 1) by lia. f_equal. lia. }
    destruct (base + len - 2 ^ 32 =? 0) eqn:E3; cbn [bool_to_Z]; lia.
  - rewrite wrap_small by lia. destruct (0x80000000 <? base + len) eqn:E3; lia.
Qed.

Lemma gate_is_region base len : region_gate_zf base len = is_region_userspace base len.
Proof. done. Qed.

(** *** Strings *)

(** The scan answers 1 exactly when a zero comes before the limit. *)
Lemma string_scan m base n : 0 <= base -> base + Z.of_nat n <= mlen m -> Z.of_nat n < 2 ^ 32 ->
  loop (S n) (string_body m (Z.of_nat n)) (base, 0) =
    Done (match first_from (fun i => byte_at m (base + Z.of_nat i) =? 0) 0 n with Some _ => 1 | None => 0 end).
Proof.
  intros Hb Hfit Hn. set (st := fun i : nat => (base + Z.of_nat i, Z.of_nat i)).
  replace (base, 0) with (st O) by (unfold st; f_equal; lia).
  rewrite (scan_loop _ st n 0 _ (fun i => byte_at m (base + Z.of_nat i) =? 0) (fun _ => 1) 0); [done| | |lia|lia].
  - intros i Hi. unfold string_body, st. replace (Z.of_nat i <? Z.of_nat n) with true by (symmetry; apply Z.ltb_lt; lia).
    rewrite ld8_ok by lia. run_step. case_match; [done|]. do 3 f_equal; [lia|]. rewrite wrap_small; lia.
  - unfold string_body, st. by rewrite Z.ltb_irrefl.
Qed.

(** A string is accepted when its terminator comes before the kernel and within 64 KB. *)
Lemma string_userspace_iff m base : 0 <= base < OS_BASE -> mlen m = OS_BASE ->
  exists r, is_string_userspace m base = Done r /\ (r = 1 \/ r = 0) /\
    (r = 1 <-> exists i, 0 <= i < STRING_USERSPACE_MAX /\ base + i < OS_BASE /\ byte_at m (base + i) = 0).
Proof.
  unfold OS_BASE, STRING_USERSPACE_MAX. intros Hb Hm. unfold is_string_userspace, OS_BASE, OS_BASE_M1, STRING_USERSPACE_MAX.
  rewrite (wrap_small 32 base) by lia. replace (0x7FFFFFFF <? base) with false by lia. rewrite wrap_small by lia.
  set (n := Z.to_nat (if 0x10000 <? 0x80000000 - base then 0x10000 else 0x80000000 - base)).
  assert (Z.of_nat n = Z.min 0x10000 (0x80000000 - base)) as Hn by (unfold n; case_match; lia).
  replace (if 0x10000 <? 0x80000000 - base then 0x10000 else 0x80000000 - base) with (Z.of_nat n) by (unfold n; case_match; lia).
  rewrite string_scan by lia. pose proof (first_from_spec (fun i => byte_at m (base + Z.of_nat i) =? 0) 0 n) as Hf.
  destruct (first_from _ 0 n) as [j|]; eexists; (split; [done|]); (split; [auto|]).
  - destruct Hf as (Hj & Hz & _). split; [|done]. intros _. exists (Z.of_nat j). lia.
  - split; [lia|]. intros (i & Hi & Hio & Hz). exfalso. specialize (Hf (Z.to_nat i) ltac:(lia)).
    rewrite Z2Nat.id, Hz in Hf by lia. done.
Qed.

(** ** File system calls *)

(** How many bytes a call may fill, as a mathematical integer. *)
Definition request_len (subfn encoding count : Z) : Z :=
  if subfn =? 1 then (if encoding <=? 1 then 304 else 560) * count + 32
  else if subfn =? 5 then 40 else if subfn =? 6 then 32 else count.

Definition known_subfn (subfn : Z) : bool := (subfn <=? 3) || (subfn =? 5) || (subfn =? 6).

Lemma buffer_len_ok subfn encoding count : 0 <= subfn -> 0 <= count < 2 ^ 32 ->
  fs_op_safe_buffer_len_ex subfn encoding count =
    if known_subfn subfn then (true, u32 (request_len subfn encoding count)) else (false, 0).
Proof.
  intros Hs Hc. unfold fs_op_safe_buffer_len_ex, known_subfn, request_len, BDVK_CP866, BDVK_UNICODE, BDVK_HEADER, SUBFN5_LEN, SUBFN6_LEN.
  destruct (subfn =? 0) eqn:E0.
  { replace (subfn <=? 3) with true by lia. replace (subfn =? 1) with false by lia. replace (subfn =? 5) with false by lia.
    replace (subfn =? 6) with false by lia. cbn [orb]. by rewrite wrap_small. }
  destruct (subfn =? 1) eqn:E1.
  { replace (subfn <=? 3) with true by lia. cbn [orb]. rewrite wrap_add_l. by destruct (encoding <=? 1). }
  destruct (subfn <=? 3) eqn:E3.
  { replace (subfn =? 5) with false by lia. replace (subfn =? 6) with false by lia. cbn [orb]. by rewrite wrap_small. }
  cbn [orb]. destruct (subfn =? 5) eqn:E5; [done|]. by destruct (subfn =? 6) eqn:E6.
Qed.


(** A read of 100 bytes at 4096 is accepted. *)
Definition read_call : list Z := [0;0;0;0; 0;0;0;0; 0;0;0;0; 100;0;0;0; 0;16;0;0].


(** The two ways round the guard: directory reads of [2^28] entries have a computed
    length of 32 bytes, and a buffer that ends at the end of memory is accepted. *)
Lemma fs_guard_overflows :
  file_system_is_operation_safe [1;0;0;0; 0;0;0;0; 0;0;0;0; 0;0;0;16; 224;255;255;127] 0 = Done 1 /\
  request_len 1 0 (2 ^ 28) = 19 * 2 ^ 32 + 32 /\
  file_system_is_operation_safe [0;0;0;0; 0;0;0;0; 0;0;0;0; 0;240;255;255; 0;16;0;0] 0 = Done 1.
Proof. split_and!; vm_compute; reflexivity. Qed.

(** ** Executable headers *)

Definition banner_ok (m : list Z) (header : Z) : bool :=
  (word_at m header =? MAGIC_MENU) && (word16_at m (header + 4) =? MAGIC_ET) &&
  ((word16_at m (header + 6) =? MAGIC_01) || (word16_at m (header + 6) =? MAGIC_02)).

Definition sizes_ok (m : list Z) (header pages_free : Z) : bool :=
  let mem_size := word_at m (header + HDR_OFF_MEM_SIZE) in
  (word_at m (header + HDR_OFF_I_END) <=? mem_size) && (mem_size <? OS_BASE) && (mem_size <? pages_free <<ₘ 12).

(** The fields of the description and where in the header they come from. *)
Definition header_fields : list (Z * Z) :=
  [(APP_OFF_CMDLINE, HDR_OFF_I_PARAM); (APP_OFF_PATH, HDR_OFF_I_ICON); (APP_OFF_EIP, HDR_OFF_START);
   (APP_OFF_ESP, HDR_OFF_STACK_TOP); (APP_OFF_EDATA, HDR_OFF_I_END); (APP_OFF_EMEM, HDR_OFF_MEM_SIZE)].

Definition fill_fields (m src : list Z) (app_hdr header : Z) (l : list (Z * Z)) : list Z :=
  foldl (fun m' p => write32 m' (app_hdr + p.1) (word_at src (header + p.2))) m l.

Ltac app_offsets := unfold APP_OFF_CMDLINE, APP_OFF_PATH, APP_OFF_EIP, APP_OFF_ESP, APP_OFF_EDATA, APP_OFF_EMEM in *; cbn [fst snd] in *.

Lemma fill_fields_ok src app_hdr header l m : bytes src -> 0 <= app_hdr -> app_hdr + 24 <= mlen m ->
  Forall (fun p => 0 <= p.1 <= 20) l ->
  (forall i j p q, l !! i = Some p -> l !! j = Some q -> i <> j -> p.1 + 4 <= q.1 \/ q.1 + 4 <= p.1) ->
  outside m (fill_fields m src app_hdr header l) app_hdr 24 /\
  (forall p, p ∈ l -> word_at (fill_fields m src app_hdr header l) (app_hdr + p.1) = word_at src (header + p.2)) /\
  (forall o, (forall p, p ∈ l -> p.1 + 4 <= o \/ o + 4 <= p.1) ->
     word_at (fill_fields m src app_hdr header l) (app_hdr + o) = word_at m (app_hdr + o)).
Proof.
  intros Hs Ha. revert m. induction l as [|p l IH]; intros m Hfit Hr Hd.
  - split_and!; [apply outside_refl|intros p Hp; by apply not_elem_of_nil in Hp|done].
  - apply Forall_cons_1 in Hr as [Hp Hr]. cbn [fill_fields foldl].
    destruct (IH (write32 m (app_hdr + p.1) (word_at src (header + p.2)))) as (Ho & Hf & Hk).
    { by rewrite mlen_write32. }
    { done. }
    { intros i j q q' Hi Hj Hne. apply (Hd (S i) (S j)); [done|done|lia]. }
    unfold fill_fields in *. split_and!.
    + destruct Ho as [Hl Ho]. rewrite mlen_write32 in Hl. split; [done|]. intros i Hi. rewrite Ho by done.
      rewrite byte_at_write32 by lia. by replace ((app_hdr + p.1 <=? i) && (i <? app_hdr + p.1 + 4)) with false by lia.
    + intros q Hq. apply elem_of_cons in Hq as [->|Hq]; [|by apply Hf].
      rewrite Hk.
      * apply word_at_write32; [lia..|by apply word_at_range].
      * intros q Hq. apply list_elem_of_lookup_1 in Hq as [i Hi].
        destruct (Hd 0%nat (S i) p q eq_refl Hi); [lia|..]; lia.
    + intros o Ho'. rewrite Hk by (intros q Hq; apply Ho'; by right).
      destruct (Ho' p ltac:(by left)); apply word_at_write32_other; lia.
Qed.

(** Executable headers.  A wrong banner changes nothing; a right banner with bad
    sizes leaves only the entry point written; otherwise the answer is the address of the
    header and all six fields of the description come from it.  Never is anything outside
    the description written, and an accepted program asks for less memory than the free
    pages have and ends below the kernel. *)
Theorem app_header_fills m header app_hdr pages_free : bytes m ->
  0 <= header -> header + 36 <= mlen m -> 0 <= app_hdr -> app_hdr + 24 <= mlen m ->
  disjoint header 36 app_hdr 24 -> 0 <= pages_free < 2 ^ 20 ->
  exists m' r, test_app_header m header app_hdr pages_free = Done (m', r) /\
    outside m m' app_hdr 24 /\
    (banner_ok m header = false -> m' = m /\ r = 0) /\
    (banner_ok m header = true -> sizes_ok m header pages_free = false ->
       r = 0 /\ m' = write32 m (app_hdr + APP_OFF_EIP) (word_at m (header + HDR_OFF_START))) /\
    (banner_ok m header = true -> sizes_ok m header pages_free = true ->
       r = u32 header /\
       Forall (fun p => word_at m' (app_hdr + p.1) = word_at m (header + p.2)) header_fields /\
       word_at m (header + HDR_OFF_I_END) <= word_at m (header + HDR_OFF_MEM_SIZE) < Z.min OS_BASE (pages_free * 4096)).
Proof.
  intros Hm Hh Hhf Ha Haf Hdis Hp. unfold disjoint in Hdis. unfold test_app_header, banner_ok.
  rewrite (ld32_ok m header), (ld16_ok m (header + 4)), (ld16_ok m (header + 6)) by lia. run_step.
  destruct (word_at m header =? MAGIC_MENU); cbn [negb andb]; [|by exists m, 0; split_and!].
  destruct (word16_at m (header + 4) =? MAGIC_ET); cbn [negb andb]; [|by exists m, 0; split_and!].
  rewrite <- negb_orb. destruct ((word16_at m (header + 6) =? MAGIC_01) || (word16_at m (header + 6) =? MAGIC_02)); cbn [negb];
    [|by exists m, 0; split_and!].
  set (m1 := write32 m (app_hdr + APP_OFF_EIP) (word_at m (header + HDR_OFF_START))).
  assert (mlen m1 = mlen m) as Hl1 by apply mlen_write32.
  assert (outside m m1 app_hdr 24) as Ho1.
  { split; [done|]. intros i Hi. unfold m1, APP_OFF_EIP in *. rewrite byte_at_write32 by lia.
    by replace ((app_hdr + 8 <=? i) && (i <? app_hdr + 8 + 4)) with false by lia. }
  assert (forall o, 0 <= o <= 32 -> ld32 m1 (header + o) = Done (word_at m (header + o))) as Hld.
  { intros o Ho. rewrite ld32_ok by lia. f_equal. unfold m1. apply word_at_write32_other; unfold APP_OFF_EIP; lia. }
  rewrite (ld32_ok m (header + HDR_OFF_START)) by (unfold HDR_OFF_START; lia). run_step.
  rewrite (st32_ok m) by (unfold APP_OFF_EIP; lia). fold m1. run_step.
  rewrite (Hld HDR_OFF_MEM_SIZE), (Hld HDR_OFF_I_END), (Hld HDR_OFF_STACK_TOP), (Hld HDR_OFF_I_PARAM), (Hld HDR_OFF_I_ICON)
    by (vm_compute; split; discriminate). run_step.
  unfold sizes_ok. set (mem := word_at m (header + HDR_OFF_MEM_SIZE)). set (iend := word_at m (header + HDR_OFF_I_END)).
  destruct (mem <? iend) eqn:E1.
  { replace (iend <=? mem) with false by lia. exists m1, 0. by split_and!. }
  replace (iend <=? mem) with true by lia.
  destruct (OS_BASE <=? mem) eqn:E2.
  { replace (mem <? OS_BASE) with false by lia. exists m1, 0. by split_and!. }
  replace (mem <? OS_BASE) with true by lia. rewrite (shl_fold pages_free 12) by lia. change (2 ^ 12) with 4096.
  destruct (pages_free * 4096 <=? mem) eqn:E3.
  { replace (mem <? pages_free * 4096) with false by lia. exists m1, 0. by split_and!. }
  replace (mem <? pages_free * 4096) with true by lia.
  set (order := [(APP_OFF_EIP, HDR_OFF_START); (APP_OFF_EMEM, HDR_OFF_MEM_SIZE); (APP_OFF_ESP, HDR_OFF_STACK_TOP);
    (APP_OFF_CMDLINE, HDR_OFF_I_PARAM); (APP_OFF_PATH, HDR_OFF_I_ICON); (APP_OFF_EDATA, HDR_OFF_I_END)]).
  destruct (fill_fields_ok m app_hdr header order m Hm Ha Haf) as (Ho & Hf & _).
  { unfold order. repeat apply Forall_cons_2; try apply Forall_nil_2; app_offsets; lia. }
  { intros i j p q Hi Hj Hne. unfold order in *.
    do 6 (destruct i as [|i]; [do 6 (destruct j as [|j]; [injection Hi as <-; injection Hj as <-; app_offsets; lia|]); done|]). done. }
  exists (fill_fields m m app_hdr header order), (u32 header). split_and!; try done.
  - do 5 (rewrite st32_ok by (rewrite ?mlen_write32; app_offsets; lia); run_step).
    done.
  - intros _ _. split; [done|]. split; [|lia].
    unfold header_fields. repeat apply Forall_cons_2; try apply Forall_nil_2; apply Hf; unfold order; apply list_elem_of_In; cbn; auto 10.
Qed.

(** A header with entry point 36, end 64, 8192 bytes of memory and the stack at 8000. *)
Definition app_example : list Z :=
  [77;69;78;85;69;84;48;49; 1;0;0;0; 36;0;0;0; 64;0;0;0; 0;32;0;0; 64;31;0;0; 0;0;0;0; 0;0;0;0] ++ replicate 24 9.

Lemma app_header_fills_witness : exists m', test_app_header app_example 0 36 3 = Done (m', 0) /\
  word_at m' (36 + 8) = 36 /\ word_at m' (36 + 20) = 8192 /\ word_at m' (36 + 12) = 8000.
Proof.
  destruct (app_header_fills app_example 0 36 3) as (m' & r & E & _ & _ & _ & H).
  - apply bytes_check. vm_compute. reflexivity.
  - lia.
  - vm_compute. discriminate.
  - lia.
  - vm_compute. discriminate.
  - left. lia.
  - lia.
  - destruct H as (-> & Hf & _); [vm_compute; reflexivity|vm_compute; reflexivity|].
    exists m'. split; [exact E|]. rewrite Forall_forall in Hf. split; [|split].
    + apply (Hf (8, 12)). apply list_elem_of_In. cbn. auto 10.
    + apply (Hf (20, 20)). apply list_elem_of_In. cbn. auto 10.
    + apply (Hf (12, 24)). apply list_elem_of_In. cbn. auto 10.
Defined.
