(* ===== verification/Partition.v ===== *)
(** * Partition tables

    [partition.rs]: validity of an entry of a master or extended boot record, its
    processing (a partition is announced through the [add_partition] hook, an extended
    partition is remembered), and the protective record of a GPT disk.  The hook is code
    outside the crate; the model returns the list of the calls made to it. *)

From stdpp Require Import base list.
From Stdlib Require Import ZArith Lia.
From S2P Require Import Prelude.

(** ** Definitions *)

Definition PARTITION_TABLE_ENTRY_SIZE : Z := 16.
Definition OFF_BOOTABLE : Z := 0.
Definition OFF_TYPE : Z := 4.
Definition OFF_FIRST_ABS_SECTOR : Z := 8.
Definition OFF_LENGTH : Z := 12.
Definition PROTECTIVE_MBR_TYPE : Z := 0xEE.
Definition PROTECTIVE_TRAILING_BYTES : Z := 48.

(** One call of the hook: start (low, high), length (low, high), disk. *)
Record add_call : Type := AddCall { start_lo : Z; start_hi : Z; length_lo : Z; length_hi : Z; disk : Z }.

Definition is_partition_table_entry (bootable first_abs_sector length ebp_base capacity : Z) : bool :=
  if negb (Z.land bootable 0x7F =? 0) then false
  else
    let sum := u64 (u64 (ebp_base + first_abs_sector) + length) in
    let half := Z.shiftr sum 1 in
    half <? capacity.

Definition is_partition_table_entry_ptr (m : list Z) (entry ebp_base capacity_lo capacity_hi : Z) : run Z :=
  bootable ← ld8 m (entry + OFF_BOOTABLE);
  first ← ld32 m (entry + OFF_FIRST_ABS_SECTOR);
  length ← ld32 m (entry + OFF_LENGTH);
  let capacity := Z.lor (u64 (Z.shiftl capacity_hi 32)) capacity_lo in
  Done (if is_partition_table_entry bootable first length ebp_base capacity then 0 else 1).

Definition is_extended_partition_type (ty : Z) : bool := (ty =? 0x05) || (ty =? 0x0f) || (ty =? 0xc5) || (ty =? 0xd5).

Definition partition_start_from_mbr (mbr_ebr_sector first_abs_sector : Z) : Z * Z :=
  let sum := u64 (mbr_ebr_sector + first_abs_sector) in
  (u32 sum, u32 (Z.shiftr sum 32)).

Definition process_partition_table_entry (m : list Z) (entry mbr_ebr_sector capacity_lo capacity_hi extended_out disk : Z)
    : run (list Z * list add_call) :=
  invalid ← is_partition_table_entry_ptr m entry mbr_ebr_sector capacity_lo capacity_hi;
  if negb (invalid =? 0) then Done (m, [])
  else
    ty ← ld8 m (entry + OFF_TYPE);
    if ty =? 0 then Done (m, [])
    else if is_extended_partition_type ty then
      first ← ld32 m (entry + OFF_FIRST_ABS_SECTOR);
      m ← st32 m extended_out first;
      Done (m, [])
    else
      first ← ld32 m (entry + OFF_FIRST_ABS_SECTOR);
      length ← ld32 m (entry + OFF_LENGTH);
      let '(start_lo, start_hi) := partition_start_from_mbr mbr_ebr_sector first in
      Done (m, [AddCall start_lo start_hi length 0 disk]).

(** *** The protective record *)

Definition is_protective_mbr (pre_table_word : Z) (entry0 entries_1_3 : list Z) (capacity_lo : Z) : run bool :=
  if negb (pre_table_word =? 0) then Done false else
  boot ← ld8 entry0 OFF_BOOTABLE;
  if negb (boot =? 0) then Done false else
  ty ← ld8 entry0 OFF_TYPE;
  if negb (ty =? PROTECTIVE_MBR_TYPE) then Done false else
  first ← ld32 entry0 OFF_FIRST_ABS_SECTOR;
  if negb (first =? 1) then Done false else
  length ← ld32 entry0 OFF_LENGTH;
  if negb (length =? 0xFFFFFFFF) && negb (length =? 0xFFFFFFFF +ₘ capacity_lo) then Done false
  else Done (forallb (fun b => b =? 0) entries_1_3).

Definition is_protective_mbr_ptr (m : list Z) (pt capacity_lo : Z) : run Z :=
  pre ← ld16 m (pt - 2);
  entry0 ← copy_out m pt PARTITION_TABLE_ENTRY_SIZE;
  trail ← copy_out m (pt + 16) PROTECTIVE_TRAILING_BYTES;
  ok ← is_protective_mbr pre entry0 trail capacity_lo;
  Done (if (ok : bool) then 0 else 1).

(** ** Validity *)

Lemma bootable_iff b : is_byte b -> (Z.land b 0x7F =? 0) = (b =? 0) || (b =? 0x80).
Proof.
  intros Hb. assert (forall_range 0 256 (fun b => Bool.eqb (Z.land b 0x7F =? 0) ((b =? 0) || (b =? 0x80))) = true) as H
    by (vm_compute; reflexivity).
  apply Bool.eqb_prop. exact (forall_range_spec _ _ _ H b Hb).
Qed.

Lemma entry_valid_iff b first length base capacity : is_byte b -> 0 <= first < 2 ^ 32 -> 0 <= length < 2 ^ 32 ->
  0 <= base < 2 ^ 32 ->
  is_partition_table_entry b first length base capacity = ((b =? 0) || (b =? 0x80)) && (base + first + length <? 2 * capacity).
Proof.
  intros Hb Hf Hl Hba. unfold is_partition_table_entry. rewrite bootable_iff by done.
  destruct ((b =? 0) || (b =? 0x80)); cbn [negb andb]; [|done].
  rewrite (wrap_small 64 (base + first)) by lia. rewrite wrap_small by lia. rewrite shr_eq by lia. change (2 ^ 1) with 2.
  destruct (base + first + length <? 2 * capacity) eqn:E; Z.div_mod_to_equations; lia.
Qed.

Lemma capacity_join lo hi : 0 <= lo < 2 ^ 32 -> 0 <= hi < 2 ^ 32 -> Z.lor (u64 (Z.shiftl hi 32)) lo = lo + 2 ^ 32 * hi.
Proof.
  intros Hlo Hhi. rewrite wrap_small by (rewrite Z.shiftl_mul_pow2 by lia; lia).
  rewrite lor_shiftl_add by lia. lia.
Qed.

(** What an entry says. *)
Definition entry_first (m : list Z) (entry : Z) : Z := word_at m (entry + OFF_FIRST_ABS_SECTOR).
Definition entry_length (m : list Z) (entry : Z) : Z := word_at m (entry + OFF_LENGTH).
Definition entry_type (m : list Z) (entry : Z) : Z := byte_at m (entry + OFF_TYPE).

(** The entry names a part of the disk: bootable flag 0 or 128, and the end of the
    partition below twice the capacity. *)
Definition entry_usable (m : list Z) (entry mbr capacity : Z) : bool :=
  ((byte_at m (entry + OFF_BOOTABLE) =? 0) || (byte_at m (entry + OFF_BOOTABLE) =? 0x80)) &&
  (mbr + entry_first m entry + entry_length m entry <? 2 * capacity) && negb (entry_type m entry =? 0).

(** A partition table entry.  An entry that is not usable has no effect; a usable
    extended entry only stores its first sector; any other usable entry makes exactly
    one call of the hook, whose 64-bit start is the sector of the record plus the
    entry's first sector, exactly. *)
Theorem partition_entry_processed m entry mbr capacity_lo capacity_hi extended_out d : bytes m ->
  0 <= entry -> entry + 16 <= mlen m -> 0 <= extended_out -> extended_out + 4 <= mlen m ->
  0 <= mbr < 2 ^ 32 -> 0 <= capacity_lo < 2 ^ 32 -> 0 <= capacity_hi < 2 ^ 32 ->
  let usable := entry_usable m entry mbr (capacity_lo + 2 ^ 32 * capacity_hi) in
  exists m' calls,
    process_partition_table_entry m entry mbr capacity_lo capacity_hi extended_out d = Done (m', calls) /\
    (usable = false -> m' = m /\ calls = []) /\
    (usable = true -> is_extended_partition_type (entry_type m entry) = true ->
       m' = write32 m extended_out (entry_first m entry) /\ calls = []) /\
    (usable = true -> is_extended_partition_type (entry_type m entry) = false ->
       m' = m /\ exists lo hi, calls = [AddCall lo hi (entry_length m entry) 0 d] /\
         0 <= lo < 2 ^ 32 /\ lo + 2 ^ 32 * hi = mbr + entry_first m entry).
Proof.
  intros Hm He Hfit Hx Hxf Hmbr Hlo Hhi. cbn zeta. unfold process_partition_table_entry, is_partition_table_entry_ptr, entry_usable.
  unfold OFF_BOOTABLE, OFF_TYPE, OFF_FIRST_ABS_SECTOR, OFF_LENGTH, entry_first, entry_length, entry_type, OFF_BOOTABLE, OFF_TYPE, OFF_FIRST_ABS_SECTOR, OFF_LENGTH.
  rewrite (ld8_ok m (entry + 0)), (ld8_ok m (entry + 4)), (ld32_ok m (entry + 8)), (ld32_ok m (entry + 12)) by lia. run_step.
  pose proof (word_at_range m (entry + 8) Hm) as Hfirst. pose proof (word_at_range m (entry + 12) Hm) as Hlen.
  pose proof (byte_at_range m (entry + 0) Hm) as Hboot.
  set (first := word_at m (entry + 8)) in *. set (len := word_at m (entry + 12)) in *. set (ty := byte_at m (entry + 4)).
  rewrite capacity_join by done. rewrite entry_valid_iff by done.
  destruct (((byte_at m (entry + 0) =? 0) || (byte_at m (entry + 0) =? 128)) &&
    (mbr + first + len <? 2 * (capacity_lo + 2 ^ 32 * capacity_hi))); cbn [negb andb Z.eqb]; [|by exists m, []; split_and!].
  destruct (ty =? 0); cbn [negb]; [by exists m, []; split_and!|].
  destruct (is_extended_partition_type ty).
  - rewrite st32_ok by lia. run_step. eexists _, _. split_and!; done.
  - unfold partition_start_from_mbr. rewrite (wrap_small 64) by lia. eexists _, _. split; [done|]. split_and!; try done.
    intros _ _. split; [done|]. eexists _, _. split; [done|]. split; [apply (wrap_range 32); lia|].
    rewrite shr_eq by lia. rewrite (wrap_small 32 ((mbr + first) / 2 ^ 32)) by (Z.div_mod_to_equations; lia).
    unfold wrap. Z.div_mod_to_equations. lia.
Qed.

(** An active FAT32 partition of 2048 sectors at sector 63. *)
Definition entry_example : list Z := [0x80;0;0;0; 0x0c;0;0;0; 63;0;0;0; 0;8;0;0; 0;0;0;0].

Lemma partition_entry_processed_witness : exists calls,
  process_partition_table_entry entry_example 0 0 4096 0 16 7 = Done (entry_example, calls) /\
  exists lo hi, calls = [AddCall lo hi 2048 0 7] /\ lo + 2 ^ 32 * hi = 63.
Proof.
  destruct (partition_entry_processed entry_example 0 0 4096 0 16 7) as (m' & calls & E & _ & _ & H).
  - apply bytes_check. reflexivity.
  - lia.
  - vm_compute. discriminate.
  - lia.
  - vm_compute. discriminate.
  - lia.
  - lia.
  - lia.
  - destruct H as (-> & lo & hi & -> & _ & Hs); [vm_compute; reflexivity|vm_compute; reflexivity|].
    exists [AddCall lo hi 2048 0 7]. split; [exact E|]. exists lo, hi. split; [reflexivity|exact Hs].
Defined.

(** The hook can see a partition that ends beyond the disk: the test halves the end. *)
Lemma partition_beyond_disk :
  process_partition_table_entry entry_example 0 0 1056 0 16 7 = Done (entry_example, [AddCall 63 0 2048 0 7]).
Proof. vm_compute. reflexivity. Qed.

(** ** The protective record *)

Lemma forallb_zero l : forallb (fun b => b =? 0) l = true <-> forall i, 0 <= i < mlen l -> byte_at l i = 0.
Proof.
  rewrite forallb_forall. split.
  - intros H i Hi. unfold mlen in Hi. destruct (lookup_lt_is_Some_2 l (Z.to_nat i)) as [x Hx]; [lia|].
    replace i with (Z.of_nat (Z.to_nat i)) by lia. rewrite (byte_at_lookup _ _ _ Hx).
    apply Z.eqb_eq, H, list_elem_of_In. by eapply list_elem_of_lookup_2.
  - intros H x Hx. apply list_elem_of_In, list_elem_of_lookup_1 in Hx as [i Hi]. apply Z.eqb_eq.
    rewrite <- (byte_at_lookup _ _ _ Hi). apply H. apply lookup_lt_Some in Hi. unfold mlen. lia.
Qed.

(** The record that covers a GPT disk: nothing before the table, an inactive first entry
    of type 0xEE from sector 1 to the end (or to 2^32 - 1), and no other entry. *)
Lemma protective_iff m pt capacity_lo : bytes m -> 2 <= pt -> pt + 64 <= mlen m -> 0 <= capacity_lo < 2 ^ 32 ->
  exists r, is_protective_mbr_ptr m pt capacity_lo = Done r /\ (r = 0 \/ r = 1) /\
    (r = 0 <-> word16_at m (pt - 2) = 0 /\ byte_at m pt = 0 /\ byte_at m (pt + 4) = 0xEE /\ word_at m (pt + 8) = 1 /\
       (word_at m (pt + 12) = 0xFFFFFFFF \/ word_at m (pt + 12) = (capacity_lo - 1) mod 2 ^ 32) /\
       forall i, 16 <= i < 64 -> byte_at m (pt + i) = 0).
Proof.
  intros Hm Hpt Hfit Hc. unfold is_protective_mbr_ptr, PARTITION_TABLE_ENTRY_SIZE, PROTECTIVE_TRAILING_BYTES.
  rewrite ld16_ok by lia. run_step.
  destruct (copy_out_ok m pt 16) as (e0 & -> & Hl0 & H0); [lia..|]. run_step.
  destruct (copy_out_ok m (pt + 16) 48) as (tr & -> & Hlt & Ht); [lia..|]. run_step.
  assert (forallb (fun b => b =? 0) tr = true <-> forall i, 16 <= i < 64 -> byte_at m (pt + i) = 0) as Htr.
  { rewrite forallb_zero, Hlt. split; intros H i Hi.
    - replace (pt + i) with (pt + 16 + (i - 16)) by lia. rewrite <- Ht by lia. apply H. lia.
    - rewrite Ht by lia. replace (pt + 16 + i) with (pt + (16 + i)) by lia. apply H. lia. }
  unfold is_protective_mbr, OFF_BOOTABLE, OFF_TYPE, OFF_FIRST_ABS_SECTOR, OFF_LENGTH, PROTECTIVE_MBR_TYPE.
  rewrite (ld8_ok e0 0), (ld8_ok e0 4), (ld32_ok e0 8), (ld32_ok e0 12) by lia. run_step.
  assert (word_at e0 8 = word_at m (pt + 8) /\ word_at e0 12 = word_at m (pt + 12)) as [-> ->].
  { unfold word_at. rewrite !H0 by lia. by rewrite !Z.add_assoc. }
  rewrite !H0 by lia. rewrite Z.add_0_r.
  assert (0xFFFFFFFF +ₘ capacity_lo = (capacity_lo - 1) mod 2 ^ 32) as ->.
  { unfold wrap. rewrite <- (Z.mod_add (capacity_lo - 1) 1) by lia. f_equal. lia. }
  destruct (Z.eqb_spec (word16_at m (pt - 2)) 0); cbn [negb]; [|exists 1; split_and!; [done|by right|naive_solver]].
  destruct (Z.eqb_spec (byte_at m pt) 0); cbn [negb]; [|exists 1; split_and!; [done|by right|naive_solver]].
  destruct (Z.eqb_spec (byte_at m (pt + 4)) 0xEE); cbn [negb]; [|exists 1; split_and!; [done|by right|naive_solver]].
  destruct (Z.eqb_spec (word_at m (pt + 8)) 1); cbn [negb]; [|exists 1; split_and!; [done|by right|naive_solver]].
  destruct (Z.eqb_spec (word_at m (pt + 12)) 0xFFFFFFFF); cbn [negb andb];
    [|destruct (Z.eqb_spec (word_at m (pt + 12)) ((capacity_lo - 1) mod 2 ^ 32)); cbn [negb andb];
      [|exists 1; split_and!; [done|by right|naive_solver]]];
    run_step; destruct (forallb (fun b => b =? 0) tr); eexists; (split; [done|]); (split; [auto|]); naive_solver.
Qed.
