(* ===== verification/Paging.v ===== *)
(** * Address translation

    [get_pg_addr.rs] (kernel address to physical page), [v86_get_lin_addr.rs] (address of
    the virtual 8086 machine to linear address) and [usb_td_to_virt.rs] (physical address
    of a USB transfer descriptor back to its linear address, by a walk over the pages the
    descriptors live in).  Memory is the linear address space; the page tables are in it. *)

From stdpp Require Import base list.
From Stdlib Require Import ZArith Lia.
From S2P Require Import Prelude.

(** ** Definitions *)

Definition PAGE_SIZE : Z := 4096.
Definition IDENTITY_WINDOW : Z := 0x400000.

Definition get_pg_addr (m : list Z) (linear page_tabs os_base : Z) : run Z :=
  let eax := linear -ₘ os_base in
  eax ←
    (if IDENTITY_WINDOW <=? eax then
       let eax := Z.shiftr eax 12 in
       let idx := eax +ₘ Z.shiftr os_base 12 in
       ld32 m (page_tabs + 4 * idx)
     else Done eax);
  Done (Z.land eax (2 ^ 32 - PAGE_SIZE)).

Definition PAGE_OFFSET_MASK : Z := 0xFFF.
Definition PTE_FRAME_MASK : Z := 0xFFFFF000.

Definition v86_get_lin_addr (m : list Z) (v86_addr page_tabs : Z) : run Z :=
  let page := Z.shiftr v86_addr 12 in
  pte ← ld32 m (page_tabs + 4 * page);
  Done (Z.lor (Z.land v86_addr PAGE_OFFSET_MASK) (Z.land pte PTE_FRAME_MASK)).

Definition TD_PAGE_NEXT_OFF : Z := PAGE_SIZE - 4.

Definition td_body (m : list Z) (td_phys page_tabs os_base page : Z) : run (Z + Z * Z) :=
  if page =? 0 then Done (inr (0, td_phys))
  else
    page_phys ← get_pg_addr m page page_tabs os_base;
    if td_phys -ₘ page_phys <? PAGE_SIZE then
      let offset := Z.land td_phys (PAGE_SIZE - 1) in
      Done (inr (page +ₘ offset, offset))
    else
      let next_ptr := page +ₘ TD_PAGE_NEXT_OFF in
      next ← ld32 m next_ptr;
      Done (inl next).

(** The walk has no bound of its own: the fuel is an argument. *)
Definition usb_td_to_virt (fuel : nat) (m : list Z) (first td_phys page_tabs os_base : Z) : run (Z * Z) :=
  loop fuel (td_body m td_phys page_tabs os_base) first.

(** ** Pages *)

Definition page_of (a : Z) : Z := a / 4096 * 4096.

(** The physical page behind a kernel address. *)
Definition phys_page (m : list Z) (page_tabs os_base linear : Z) : Z :=
  if linear - os_base <? IDENTITY_WINDOW then page_of (linear - os_base)
  else page_of (word_at m (page_tabs + 4 * (linear / 4096))).

(** Where kernel addresses below [top] are translated: the page tables for them are in
    memory, the kernel base is page aligned. *)
Definition tables_ok (m : list Z) (page_tabs os_base top : Z) : Prop :=
  bytes m /\ 0 <= page_tabs /\ page_tabs + 4 * (top / 4096) <= mlen m /\ 0 <= os_base /\ os_base mod 4096 = 0 /\
  top <= 2 ^ 32 /\ top mod 4096 = 0.

Lemma page_of_range a : 0 <= a < 2 ^ 32 -> 0 <= page_of a < 2 ^ 32.
Proof. unfold page_of. intros. Z.div_mod_to_equations. lia. Qed.

Lemma phys_page_range m page_tabs os_base top linear : tables_ok m page_tabs os_base top -> os_base <= linear < top ->
  0 <= phys_page m page_tabs os_base linear < 2 ^ 32 /\ phys_page m page_tabs os_base linear mod 4096 = 0.
Proof.
  intros (Hm & _ & _ & Ho & _ & Htop & _) Hl. unfold phys_page, page_of. split; [|by case_match; apply Z.mod_mul].
  case_match; apply page_of_range; [lia|]. by apply word_at_range.
Qed.

Lemma get_pg_addr_ok m page_tabs os_base top linear : tables_ok m page_tabs os_base top -> os_base <= linear < top ->
  get_pg_addr m linear page_tabs os_base = Done (phys_page m page_tabs os_base linear).
Proof.
  intros (Hm & Hp & Hfit & Ho & Hal & Htop & Htal) Hl. unfold get_pg_addr, phys_page, page_of, IDENTITY_WINDOW, PAGE_SIZE.
  rewrite (wrap_small 32 (linear - os_base)) by lia.
  change (2 ^ 32 - 4096) with (2 ^ 32 - 2 ^ 12).
  replace (linear - os_base <? 0x400000) with (negb (0x400000 <=? linear - os_base)) by lia.
  destruct (0x400000 <=? linear - os_base); cbn [negb]; run_step.
  - rewrite !shr_eq by lia. change (2 ^ 12) with 4096.
    assert ((linear - os_base) / 4096 +ₘ os_base / 4096 = linear / 4096) as ->.
    { rewrite wrap_small; Z.div_mod_to_equations; lia. }
    rewrite ld32_ok by (Z.div_mod_to_equations; lia). run_step. f_equal.
    change 4096 with (2 ^ 12) at 1. rewrite (land_align 32 12) by (try lia; by apply word_at_range). done.
  - rewrite (land_align 32 12) by lia. done.
Qed.

(** Addresses of one page have the same physical page. *)
Lemma phys_page_same m page_tabs os_base top p o : tables_ok m page_tabs os_base top -> p mod 4096 = 0 -> os_base <= p -> 0 <= o < 4096 ->
  phys_page m page_tabs os_base (p + o) = phys_page m page_tabs os_base p.
Proof.
  intros (_ & _ & _ & Ho & Hal & _) Hp Hpo Hr. unfold phys_page, page_of, IDENTITY_WINDOW.
  assert ((p + o) / 4096 = p / 4096) as -> by (Z.div_mod_to_equations; lia).
  assert ((p + o - os_base) / 4096 = (p - os_base) / 4096) as E by (Z.div_mod_to_equations; lia).
  assert ((p + o - os_base <? 0x400000) = (p - os_base <? 0x400000)) as ->.
  { destruct (p - os_base <? 0x400000) eqn:E1; Z.div_mod_to_equations; lia. }
  by rewrite E.
Qed.

(** The offset is kept, the frame comes from the page table entry. *)
Lemma v86_lin_ok m a page_tabs : bytes m -> 0 <= a < 2 ^ 32 -> 0 <= page_tabs -> page_tabs + 4 * 2 ^ 20 <= mlen m ->
  v86_get_lin_addr m a page_tabs = Done (page_of (word_at m (page_tabs + 4 * (a / 4096))) + a mod 4096).
Proof.
  intros Hm Ha Hp Hfit. unfold v86_get_lin_addr, PAGE_OFFSET_MASK, PTE_FRAME_MASK, page_of.
  rewrite shr_eq by lia. change (2 ^ 12) with 4096. rewrite ld32_ok by (Z.div_mod_to_equations; lia). run_step. f_equal.
  pose proof (word_at_range m (page_tabs + 4 * (a / 4096)) Hm) as Hw.
  change 0xFFFFF000 with (2 ^ 32 - 2 ^ 12). rewrite (land_align 32 12) by (lia || done). unfold align_down.
  rewrite (land_mask a 12) by (done || lia). apply lor_tag; [lia|]. apply (wrap_range 12). lia.
Qed.

(** ** Transfer descriptors *)

(** [pages] is the list of pages linked from [first] through their last words. *)
Fixpoint td_pages (m : list Z) (os_base top first : Z) (pages : list Z) : Prop :=
  match pages with
  | [] => first = 0
  | p :: pages =>
      first = p /\ p <> 0 /\ p mod 4096 = 0 /\ os_base <= p /\ p + 4096 <= mlen m /\ p + 4096 <= top /\
      td_pages m os_base top (word_at m (p + TD_PAGE_NEXT_OFF)) pages
  end.

Lemma td_walk m page_tabs os_base top td pages first fuel : tables_ok m page_tabs os_base top -> td_pages m os_base top first pages ->
  0 <= td < 2 ^ 32 -> (length pages < fuel)%nat ->
  usb_td_to_virt fuel m first td page_tabs os_base =
    Done (match list_find (fun p => phys_page m page_tabs os_base p = page_of td) pages with
          | Some (_, p) => (p + td mod 4096, td mod 4096)
          | None => (0, td)
          end).
Proof.
  intros Ht Hc Htd. unfold usb_td_to_virt. revert first fuel Hc.
  induction pages as [|p pages IH]; intros first [|fuel] Hc Hf; cbn [length] in Hf; try lia; rewrite loop_S; unfold td_body at 2.
  - cbn in Hc. by subst.
  - destruct Hc as (-> & Hp0 & Hpal & Hpo & Hpf & Hp32 & Hc). replace (p =? 0) with false by lia.
    rewrite (get_pg_addr_ok _ _ _ top) by (try done; pose proof Ht as (_ & _ & _ & ? & _ & ? & _); lia). run_step.
    destruct (phys_page_range m page_tabs os_base top p Ht) as [Hr Hal]; [pose proof Ht as (_ & _ & _ & ? & _ & ? & _); lia|].
    assert ((td -ₘ phys_page m page_tabs os_base p <? PAGE_SIZE) = bool_decide (phys_page m page_tabs os_base p = page_of td)) as ->.
    { unfold PAGE_SIZE, page_of, wrap. change (2 ^ 32) with 4294967296 in *. case_bool_decide as Hd.
      - rewrite Hd. Z.div_mod_to_equations. lia.
      - apply Z.ltb_ge. Z.div_mod_to_equations. lia. }
    cbn [list_find]. case_bool_decide as Hd.
    + rewrite decide_True by done. unfold PAGE_SIZE. change (4096 - 1) with (2 ^ 12 - 1). rewrite land_ones_wrap by lia.
      change (wrap 12 td) with (td mod 4096). rewrite wrap_small; [done|]. pose proof Ht as (_ & _ & _ & ? & _ & ? & _).
      Z.div_mod_to_equations. lia.
    + rewrite decide_False by done. unfold TD_PAGE_NEXT_OFF, PAGE_SIZE in *. pose proof Ht as (_ & _ & _ & ? & _ & ? & _).
      rewrite (wrap_small 32 (p + (4096 - 4))) by lia. rewrite ld32_ok by lia. run_step.
      rewrite (IH _ fuel Hc) by lia. by destruct (list_find _ pages) as [[]|].
Qed.

(** A transfer descriptor's address survives the trip through the hardware.  For
    the list of descriptor pages at [first], the physical address of any descriptor of
    the list is translated back to its linear address when the pages have different
    physical pages; conversely an address that is found lies in a page of the list and
    translates to the physical address asked for, and an address of no page gives 0. *)
Theorem td_address_roundtrip m page_tabs os_base top first pages fuel : tables_ok m page_tabs os_base top ->
  td_pages m os_base top first pages -> (length pages < fuel)%nat -> NoDup (phys_page m page_tabs os_base <$> pages) ->
  (forall p o, p ∈ pages -> 0 <= o < 4096 ->
     exists a, get_pg_addr m (p + o) page_tabs os_base = Done a /\
       usb_td_to_virt fuel m first (a + o) page_tabs os_base = Done (p + o, o)) /\
  (forall td, 0 <= td < 2 ^ 32 ->
     exists v o, usb_td_to_virt fuel m first td page_tabs os_base = Done (v, o) /\
       ((v = 0 /\ o = td /\ forall p, p ∈ pages -> phys_page m page_tabs os_base p <> page_of td) \/
        (exists p a, p ∈ pages /\ v = p + o /\ 0 <= o < 4096 /\
           get_pg_addr m v page_tabs os_base = Done a /\ a + o = td))).
Proof.
  intros Ht Hc Hf Hnd.
  assert (forall p, p ∈ pages -> p mod 4096 = 0 /\ os_base <= p /\ p + 4096 <= top) as Hpages.
  { clear -Hc. revert first Hc. induction pages as [|q pages IH]; intros first Hc p Hp; [by apply not_elem_of_nil in Hp|].
    destruct Hc as (-> & ? & ? & ? & ? & ? & Hc). apply elem_of_cons in Hp as [->|Hp]; [done|]. by eapply IH. }
  pose proof Ht as (_ & _ & _ & Ho & _ & Htop & _). split.
  - intros p o Hp Hor. destruct (Hpages p Hp) as (Hal & Hlo & Hhi).
    destruct (phys_page_range m page_tabs os_base top p Ht) as [Hr Hpal]; [lia|].
    exists (phys_page m page_tabs os_base p). rewrite (get_pg_addr_ok _ _ _ top), (phys_page_same _ _ _ top) by (done || lia). split; [done|].
    set (a := phys_page m page_tabs os_base p) in *.
    assert (page_of (a + o) = a /\ (a + o) mod 4096 = o) as [Epg Eof] by (unfold page_of; Z.div_mod_to_equations; lia).
    rewrite (td_walk _ _ _ top _ pages) by (try done; Z.div_mod_to_equations; lia). rewrite Epg, Eof.
    destruct (list_find (fun q => phys_page m page_tabs os_base q = a) pages) as [[i q]|] eqn:Ef.
    + apply list_find_Some in Ef as (Hq & Hqa & _). apply list_elem_of_lookup_1 in Hp as [j Hj].
      assert (i = j) as ->; [|by rewrite Hj in Hq; injection Hq as <-].
      apply (NoDup_lookup (phys_page m page_tabs os_base <$> pages) i j a Hnd).
      * rewrite list_lookup_fmap, Hq. cbn. by rewrite Hqa.
      * by rewrite list_lookup_fmap, Hj.
    + exfalso. apply list_find_None in Ef. rewrite Forall_forall in Ef. by apply (Ef p Hp).
  - intros td Htd. rewrite (td_walk _ _ _ top _ pages) by done.
    destruct (list_find (fun q => phys_page m page_tabs os_base q = page_of td) pages) as [[i q]|] eqn:Ef; eexists _, _; (split; [done|]).
    + apply list_find_Some in Ef as (Hq & Hqa & _). apply list_elem_of_lookup_2 in Hq. right.
      destruct (Hpages q Hq) as (Hal & Hlo & Hhi). assert (0 <= td mod 4096 < 4096) by (apply Z.mod_pos_bound; lia).
      exists q, (page_of td). split_and!; [done..|lia|lia| |].
      * rewrite (get_pg_addr_ok _ _ _ top), (phys_page_same _ _ _ top) by (done || lia). by rewrite Hqa.
      * unfold page_of. Z.div_mod_to_equations. lia.
    + left. apply list_find_None in Ef. rewrite Forall_forall in Ef. split_and!; [done..|]. intros p Hp. by apply Ef.
Qed.

(** Two descriptor pages at 8192 and 12288, with the kernel at 4096. *)
Definition td_example : list Z :=
  replicate (8192 + 4092) 0 ++ [0; 0x30; 0; 0] ++ replicate (4096 + 16) 0.

Lemma td_address_roundtrip_witness :
  get_pg_addr td_example 12308 16384 4096 = Done 8192 /\
  usb_td_to_virt 3 td_example 8192 8212 16384 4096 = Done (12308, 20).
Proof.
  destruct (td_address_roundtrip td_example 16384 4096 16384 8192 [8192; 12288] 3) as [H _].
  - split; [apply bytes_check; vm_compute; reflexivity|]. split; [lia|]. split; [vm_compute; discriminate|].
    split; [lia|]. split; [reflexivity|]. split; [lia|reflexivity].
  - assert (word_at td_example (8192 + TD_PAGE_NEXT_OFF) = 12288) as E1 by (vm_compute; reflexivity).
    assert (word_at td_example (12288 + TD_PAGE_NEXT_OFF) = 0) as E2 by (vm_compute; reflexivity).
    assert (mlen td_example = 16400) as E3 by (vm_compute; reflexivity).
    cbn [td_pages]. rewrite E1, E2, E3. split_and!; lia || reflexivity || discriminate.
  - cbn. lia.
  - apply (bool_decide_unpack _). vm_compute. exact I.
  - destruct (H 12288 20) as (a & Ea & Ev); [right; left|lia|]. assert (a = 8192) as -> by (vm_compute in Ea; congruence).
    split; [exact Ea|exact Ev].
Defined.
