(* ===== verification/Tasks.v ===== *)
(** * Thread slots and hot keys

    [pid_to_slot.rs]: the slot of a thread in the table of slots; [hotkey.rs]: does the
    state of the modifier keys match a hot key. *)

From stdpp Require Import base list.
From Stdlib Require Import ZArith Lia.
From S2P Require Import Prelude.

(** ** Definitions *)

Definition APPDATA_SIZE : Z := 256.
Definition APPDATA_SIZE_SHIFT : Z := 8.
Definition OFF_TID : Z := 112.
Definition OFF_STATE : Z := 124.
Definition TSTATE_FREE : Z := 9.

Definition slot_body (m : list Z) (pid slot_base ebx ecx : Z) : run (Z + Z) :=
  if as_i32 ecx <=? as_i32 ebx then
    let entry := slot_base + ecx in
    state ← ld8 m (entry + OFF_STATE);
    hit ← (if negb (state =? TSTATE_FREE) then tid ← ld32 m (entry + OFF_TID); Done (tid =? pid) else Done false);
    if (hit : bool) then Done (inr (Z.shiftr ecx APPDATA_SIZE_SHIFT))
    else Done (inl (ecx +ₘ APPDATA_SIZE))
  else Done (inr 0).

Definition pid_to_slot (m : list Z) (pid slot_base thread_count : Z) : run Z :=
  let ebx := thread_count <<ₘ APPDATA_SIZE_SHIFT in
  let ecx := APPDATA_SIZE in
  loop (S (Z.to_nat thread_count)) (slot_body m pid slot_base ebx) ecx.

(** *** Hot keys *)

Definition HOTKEY_TESTS_NUM : Z := 5.

Definition hotkey_test0 (al : Z) : Z := bool_to_Z (al =? 0).
Definition hotkey_test1 (al : Z) : Z := bool_to_Z ((al =? 1) || (al =? 2)).
Definition hotkey_test2 (al : Z) : Z := bool_to_Z (al =? 3).
Definition hotkey_test3 (al : Z) : Z := bool_to_Z (al =? 1).
Definition hotkey_test4 (al : Z) : Z := bool_to_Z (al =? 2).

Definition run_predicate (test_id field : Z) : Z :=
  let t0 := hotkey_test0 field in
  let t1 := hotkey_test1 field in
  let t2 := hotkey_test2 field in
  let t3 := hotkey_test3 field in
  let t4 := hotkey_test4 field in
  u8 (u8 (u8 (u8 (u8 (bool_to_Z (test_id =? 0) * t0) + u8 (bool_to_Z (test_id =? 1) * t1)) +
    u8 (bool_to_Z (test_id =? 2) * t2)) + u8 (bool_to_Z (test_id =? 3) * t3)) + u8 (bool_to_Z (test_id =? 4) * t4)).

(** [x.wrapping_shr(n)] on [u32] takes the count modulo 32. *)
Definition wrapping_shr (x n : Z) : Z := Z.shiftr x (n mod 32).

Definition hotkey_do_test (funcs kb_state cl : Z) : Z :=
  let cl8 := u8 cl in
  let shifted_state := wrapping_shr kb_state cl8 in
  let cl_doubled := u8 (cl8 + cl8) in
  let test_id := u8 (Z.land (wrapping_shr funcs cl_doubled) 15) in
  if HOTKEY_TESTS_NUM <=? test_id then 1
  else
    let field := Z.land (u8 shifted_state) 3 in
    let pred := run_predicate test_id field in
    bool_to_Z (negb (pred =? 1)).

(** ** Slots *)

(** Slot [i] holds the thread: it is not free and has that identifier. *)
Definition slot_holds (m : list Z) (slot_base pid : Z) (i : nat) : bool :=
  negb (byte_at m (slot_base + 256 * Z.of_nat i + OFF_STATE) =? TSTATE_FREE) &&
  (word_at m (slot_base + 256 * Z.of_nat i + OFF_TID) =? pid).

(** The lowest slot from 1 that holds the thread, 0 if there is none.  From 2^23 - 1
    slots on the signed bound fails. *)
Lemma pid_to_slot_first m pid slot_base thread_count : 0 <= slot_base -> 0 <= thread_count < 2 ^ 23 - 1 ->
  slot_base + 256 * (thread_count + 1) <= mlen m ->
  pid_to_slot m pid slot_base thread_count =
    Done (match first_from (slot_holds m slot_base pid) 1 (S (Z.to_nat thread_count)) with Some i => Z.of_nat i | None => 0 end).
Proof.
  intros Hb Hc Hfit. unfold pid_to_slot, APPDATA_SIZE_SHIFT. rewrite shl_fold by lia. change (2 ^ 8) with 256.
  set (st := fun i : nat => 256 * Z.of_nat i). change APPDATA_SIZE with (st 1%nat).
  apply (scan_loop _ st (S (Z.to_nat thread_count)) 1 _ (slot_holds m slot_base pid) Z.of_nat 0); [| |lia|lia].
  - intros i Hi. unfold slot_body, st, slot_holds. rewrite !as_signed_small by (change (2 ^ (32 - 1)) with (2 ^ 31); lia).
    replace (256 * Z.of_nat i <=? thread_count * 256) with true by (symmetry; apply Z.leb_le; lia).
    unfold OFF_STATE, OFF_TID in *. rewrite ld8_ok by lia. run_step.
    destruct (byte_at m (slot_base + 256 * Z.of_nat i + 124) =? TSTATE_FREE); cbn [negb andb]; run_step.
    + do 2 f_equal. unfold APPDATA_SIZE. rewrite wrap_small; lia.
    + rewrite ld32_ok by lia. run_step. case_match; do 2 f_equal.
      * rewrite shr_eq by (unfold APPDATA_SIZE_SHIFT; lia). change (2 ^ APPDATA_SIZE_SHIFT) with 256. rewrite Z.mul_comm. by apply Z.div_mul.
      * unfold APPDATA_SIZE. rewrite wrap_small; lia.
  - unfold slot_body, st. rewrite !as_signed_small by (change (2 ^ (32 - 1)) with (2 ^ 31); lia).
    replace (256 * Z.of_nat (S (Z.to_nat thread_count)) <=? thread_count * 256) with false by (symmetry; apply Z.leb_gt; lia). done.
Qed.

(** ** Hot keys *)

(** The five conditions on the left and the right key. *)
Definition modifier_ok (test : Z) (left_ right_ : bool) : bool :=
  if test =? 0 then negb left_ && negb right_
  else if test =? 1 then xorb left_ right_
  else if test =? 2 then left_ && right_
  else if test =? 3 then left_ && negb right_
  else if test =? 4 then right_ && negb left_
  else false.

(** Field [k] (Shift, Control, Alt) takes two bits of the state and four of the key. *)
Lemma hotkey_field funcs kb_state k : 0 <= funcs < 2 ^ 32 -> 0 <= kb_state < 2 ^ 32 -> 0 <= k < 3 ->
  hotkey_do_test funcs kb_state (2 * k) =
    bool_to_Z (negb (modifier_ok (funcs / 16 ^ k mod 16) (Z.testbit kb_state (2 * k)) (Z.testbit kb_state (2 * k + 1)))).
Proof.
  intros Hf Hs Hk. unfold hotkey_do_test, wrapping_shr.
  assert (u8 (2 * k) = 2 * k /\ u8 (2 * k + 2 * k) = 4 * k) as [E1 E2] by (split; [|replace (4 * k) with (2 * k + 2 * k) by lia]; apply wrap_small; change (2 ^ 8) with 256; lia).
  rewrite E1, E2. rewrite !Z.mod_small, !shr_eq by lia.
  change 15 with (2 ^ 4 - 1). rewrite land_ones_wrap by lia.
  replace (2 ^ (4 * k)) with (16 ^ k) by (rewrite Z.pow_mul_r by lia; done).
  assert (wrap 4 (funcs / 16 ^ k) = funcs / 16 ^ k mod 16) as -> by done.
  set (test := funcs / 16 ^ k mod 16). assert (0 <= test < 16) as Ht by (apply Z.mod_pos_bound; lia).
  rewrite (wrap_small 8 test) by (change (2 ^ 8) with 256; lia).
  change 3 with (2 ^ 2 - 1). rewrite land_ones_wrap by lia.
  set (x := kb_state / 2 ^ (2 * k)).
  assert (Z.testbit kb_state (2 * k) = Z.testbit (wrap 2 (u8 x)) 0 /\ Z.testbit kb_state (2 * k + 1) = Z.testbit (wrap 2 (u8 x)) 1) as [-> ->].
  { unfold wrap, x. rewrite !Z.mod_pow2_bits_low, !Z.div_pow2_bits by lia. rewrite Z.add_0_l, (Z.add_comm 1). done. }
  pose proof (wrap_range 2 (u8 x) ltac:(lia)) as Hx. change (2 ^ 2) with 4 in Hx. revert Ht Hx. generalize (wrap 2 (u8 x)) test. clear. intros f t Ht Hx.
  assert (forall_range 0 16 (fun t => forall_range 0 4 (fun f =>
    (if HOTKEY_TESTS_NUM <=? t then 1 else bool_to_Z (negb (run_predicate t f =? 1))) =?
    bool_to_Z (negb (modifier_ok t (Z.testbit f 0) (Z.testbit f 1))))) = true) as H by (vm_compute; reflexivity).
  pose proof (forall_range_spec _ _ _ H t Ht) as H2. cbn beta in H2. by apply Z.eqb_eq, (forall_range_spec _ _ _ H2 f Hx).
Qed.
