(* ===== verification/Xfs.v ===== *)
(** * XFS: extents, blocks and directory hashes

    [xfs_extent.rs], [xfs_get_last_dirblock.rs], [xfs_blkrel2sectabs.rs] (records and block
    arithmetic), [xfs_hashname.rs], [xfs_hash_lookup.rs], [xfs_node_hash.rs] (name hash and
    the searches of directory leaves and nodes).  On-disk words are big-endian. *)

From stdpp Require Import base list.
From Stdlib Require Import ZArith Lia.
From S2P Require Import Prelude.

(** ** Definitions *)

(** *** Extents *)

Record XfsBmbtIrec : Type := mkIrec { br_startoff : Z; br_startblock : Z; br_blockcount : Z; br_state : Z }.

Definition XFS_BMBT_IREC_SIZE : Z := 24.
Definition OFF_STARTOFF_LO : Z := 0.
Definition OFF_STARTOFF_HI : Z := 4.
Definition OFF_STARTBLOCK_LO : Z := 8.
Definition OFF_STARTBLOCK_HI : Z := 12.
Definition OFF_BLOCKCOUNT : Z := 16.
Definition OFF_STATE : Z := 20.

Definition xfs_extent_unpack (rec : list Z) : run XfsBmbtIrec :=
  edx ← ld32be rec 0;
  let br_state := if negb (Z.land edx 0x80000000 =? 0) then 1 else 0 in
  let edx := Z.land edx 0x7fffffff in
  eax ← ld32be rec 4;
  let startoff_lo := Z.lor (Z.shiftr eax 9) (edx <<ₘ 23) in
  let startoff_hi := Z.shiftr edx 9 in
  edx ← ld32be rec 4;
  eax ← ld32be rec 8;
  ecx ← ld32be rec 12;
  let edx := Z.land edx 0x000001ff in
  let startblock_lo := Z.lor (Z.shiftr ecx 21) (eax <<ₘ 11) in
  let startblock_hi := Z.lor (Z.shiftr eax 21) (edx <<ₘ 11) in
  let br_blockcount := Z.land ecx 0x001fffff in
  Done (mkIrec (Z.lor startoff_lo (u64 (Z.shiftl startoff_hi 32)))
               (Z.lor startblock_lo (u64 (Z.shiftl startblock_hi 32))) br_blockcount br_state).

Definition xfs_extent_unpack_ptr (m : list Z) (extent_data extent_out : Z) : run (list Z) :=
  rec ← copy_out m extent_data 16;
  irec ← xfs_extent_unpack rec;
  m ← st32 m (extent_out + OFF_STATE) (br_state irec);
  m ← st32 m (extent_out + OFF_STARTOFF_LO) (u32 (br_startoff irec));
  m ← st32 m (extent_out + OFF_STARTOFF_HI) (u32 (Z.shiftr (br_startoff irec) 32));
  m ← st32 m (extent_out + OFF_STARTBLOCK_LO) (u32 (br_startblock irec));
  m ← st32 m (extent_out + OFF_STARTBLOCK_HI) (u32 (Z.shiftr (br_startblock irec) 32));
  st32 m (extent_out + OFF_BLOCKCOUNT) (br_blockcount irec).

Definition read_xfs_bmbt_irec (m : list Z) (buf : Z) : run XfsBmbtIrec :=
  off_lo ← ld32 m (buf + OFF_STARTOFF_LO);
  off_hi ← ld32 m (buf + OFF_STARTOFF_HI);
  blk_lo ← ld32 m (buf + OFF_STARTBLOCK_LO);
  blk_hi ← ld32 m (buf + OFF_STARTBLOCK_HI);
  count ← ld32 m (buf + OFF_BLOCKCOUNT);
  state ← ld32 m (buf + OFF_STATE);
  Done (mkIrec (Z.lor off_lo (u64 (Z.shiftl off_hi 32))) (Z.lor blk_lo (u64 (Z.shiftl blk_hi 32))) count state).

Definition XFS_BMBT_REC_SIZE_SHIFT : Z := 4.
Definition XFS_BMBT_REC_SIZE : Z := 16.

Definition xfs_get_last_dirblock_from_extent (rec : list Z) (dirblklog : Z) : run (Z * Z) :=
  edx ← ld32be rec 0;
  let edx := Z.land edx 0x7fffffff in
  eax ← ld32be rec 4;
  let startoff_lo := Z.lor (Z.shiftr eax 9) (edx <<ₘ 23) in
  let startoff_hi := Z.shiftr edx 9 in
  count ← ld32be rec 12;
  let blockcount := Z.land count 0x001fffff in
  let last_in_extent := Z.shiftr blockcount (Z.land dirblklog 31) -ₘ 1 in
  let '(lo, carry) := (startoff_lo +ₘ last_in_extent, 2 ^ 32 <=? startoff_lo + last_in_extent) in
  let hi := startoff_hi +ₘ bool_to_Z carry in
  Done (lo, hi).

Definition xfs_get_last_dirblock (m : list Z) (inode nextents_offset inode_core_size dirblklog : Z) : run (Z * Z) :=
  nextents ← ld32be m (inode +ₘ nextents_offset);
  let rec_off := inode_core_size +ₘ (nextents <<ₘ XFS_BMBT_REC_SIZE_SHIFT) -ₘ XFS_BMBT_REC_SIZE in
  rec ← copy_out m (inode +ₘ rec_off) 16;
  xfs_get_last_dirblock_from_extent rec dirblklog.

(** *** Blocks *)

Definition xfs_blkrel2sectabs (block_lo block_hi agblklog agblocks mask_lo mask_hi sectpblog : Z) : Z * Z :=
  let ag_shift := Z.land agblklog 31 in
  let sect_shift := Z.land sectpblog 31 in
  let block := Z.lor (u64 (Z.shiftl block_hi 32)) block_lo in
  let ag_full := Z.shiftr block ag_shift in
  let ag_lo := u32 ag_full in
  let product := u64 (ag_lo * agblocks) in
  let masked := Z.lor (Z.land block_lo mask_lo) (u64 (Z.shiftl (Z.land block_hi mask_hi) 32)) in
  let abs_block := u64 (product + masked) in
  let sector := u64 (Z.shiftl abs_block sect_shift) in
  (u32 sector, u32 (Z.shiftr sector 32)).

(** *** Names *)

Definition rotate_left (x k : Z) : Z := Z.lor (x <<ₘ k) (Z.shiftr x (32 - k)).

Definition hash_body (m : list Z) (name len : Z) (st : Z * Z) : run (Z * Z + Z) :=
  let '(eax, i) := st in
  if i <? len then
    byte ← ld8 m (name + i);
    Done (inl (Z.lxor (rotate_left eax 7) byte, i +ₘ 1))
  else Done (inr eax).

Definition xfs_hashname (m : list Z) (name len : Z) : run Z :=
  if len =? 0 then Done 0 else loop (S (Z.to_nat len)) (hash_body m name len) (0, 0).

Definition XFS_DIR2_LEAF_ENTRY_SIZE : Z := 8.
Definition ERROR_FILE_NOT_FOUND : Z := 5.
Definition OFF_HASHVAL : Z := 0.
Definition OFF_ADDRESS : Z := 4.

Record XfsHashLookupResult : Type := mkLookup { eax : Z; zf : Z }.

Definition pack_eax_zf (eax zf : Z) : Z := Z.lor (u64 (Z.shiftl zf 32)) eax.
Definition unpack_eax_zf (packed : Z) : Z * Z := (u32 packed, u32 (Z.shiftr packed 32)).
Definition trampoline_zf_from_flag (zf : Z) : bool := zf =? 1.

Definition leaf_body (m : list Z) (hash : Z) (st : Z * Z) : run (Z * Z + XfsHashLookupResult) :=
  let '(cur, remaining) := st in
  if remaining =? 0 then Done (inr (mkLookup ERROR_FILE_NOT_FOUND 0))
  else
    let mid := Z.shiftr remaining 1 in
    let entry := cur + mid * XFS_DIR2_LEAF_ENTRY_SIZE in
    entry_hash ← ld32be m (entry + OFF_HASHVAL);
    if hash <? entry_hash then Done (inl (cur, mid))
    else if entry_hash <? hash then Done (inl (entry + XFS_DIR2_LEAF_ENTRY_SIZE, remaining - mid - 1))
    else
      address ← ld32be m (entry + OFF_ADDRESS);
      Done (inr (mkLookup address 1)).

(** Halving: 33 turns suffice for any 32-bit length. *)
Definition xfs_get_addr_by_hash (m : list Z) (hash base len : Z) : run XfsHashLookupResult :=
  loop 34 (leaf_body m hash) (base, len).

Definition xfs_get_addr_by_hash_ptr (m : list Z) (hash base len : Z) : run XfsHashLookupResult :=
  if len =? 0 then Done (mkLookup ERROR_FILE_NOT_FOUND 0)
  else if base =? 0 then Done (mkLookup ERROR_FILE_NOT_FOUND 0)
  else xfs_get_addr_by_hash m hash base len.

Definition XFS_DA_NODE_ENTRY_SIZE : Z := 8.
Definition OFF_V4_BTREE : Z := 16.
Definition OFF_V5_BTREE : Z := 64.
Definition BASE_TO_BTREE_DELTA : Z := XFS_DA_NODE_ENTRY_SIZE.
Definition OFF_NODE_HASHVAL : Z := 0.
Definition OFF_NODE_BEFORE : Z := 4.

Definition btree_off (version : Z) : Z := if version =? 5 then OFF_V5_BTREE else OFF_V4_BTREE.

Definition node_body (m : list Z) (entries count hash i : Z) : run (Z + XfsHashLookupResult) :=
  if i <? count then
    let entry := entries + i * XFS_DA_NODE_ENTRY_SIZE in
    entry_hash ← ld32be m (entry + OFF_NODE_HASHVAL);
    if hash <=? entry_hash then
      before ← ld32be m (entry + OFF_NODE_BEFORE);
      Done (inr (mkLookup before 1))
    else Done (inl (i +ₘ 1))
  else Done (inr (mkLookup ERROR_FILE_NOT_FOUND 0)).

Definition xfs_get_before_by_hashval (m : list Z) (entries count hash : Z) : run XfsHashLookupResult :=
  loop (S (Z.to_nat count)) (node_body m entries count hash) 0.

Definition xfs_get_before_by_hashval_ptr (m : list Z) (entries count hash : Z) : run XfsHashLookupResult :=
  if count =? 0 then Done (mkLookup ERROR_FILE_NOT_FOUND 0)
  else if entries =? 0 then Done (mkLookup ERROR_FILE_NOT_FOUND 0)
  else xfs_get_before_by_hashval m entries count hash.

Definition entries_from_node (node version : Z) : Z := node + btree_off version.
Definition entries_from_base (base : Z) : Z := base - BASE_TO_BTREE_DELTA.

(** ** Packed extents *)

(** A 128-bit number, most significant byte first. *)
Definition be128 (v : Z) : list Z := (fun k => v / 2 ^ (8 * (15 - k)) mod 256) <$> seqZ 0 16.

(** State (1 bit), file offset (54), start block (52) and number of blocks (21). *)
Definition packed_extent (e : XfsBmbtIrec) : list Z :=
  be128 (br_state e * 2 ^ 127 + br_startoff e * 2 ^ 73 + br_startblock e * 2 ^ 21 + br_blockcount e).

Definition irec_ok (e : XfsBmbtIrec) : Prop :=
  0 <= br_state e < 2 /\ 0 <= br_startoff e < 2 ^ 54 /\ 0 <= br_startblock e < 2 ^ 52 /\ 0 <= br_blockcount e < 2 ^ 21.

Lemma le4_digits x : le4 (x mod 256) (x / 2 ^ 8 mod 256) (x / 2 ^ 16 mod 256) (x / 2 ^ 24 mod 256) = x mod 2 ^ 32.
Proof.
  unfold le4. change (2 ^ 8) with 256. change (2 ^ 16) with 65536. change (2 ^ 24) with 16777216. change (2 ^ 32) with 4294967296.
  Z.div_mod_to_equations. lia.
Qed.

Lemma be128_word v k : 0 <= k < 4 -> be_word_at (be128 v) (4 * k) = v / 2 ^ (96 - 32 * k) mod 2 ^ 32.
Proof.
  intros Hk. rewrite <- le4_digits. unfold be_word_at.
  assert (k = 0 \/ k = 1 \/ k = 2 \/ k = 3) as [->|[->|[->| ->]]] by lia; cbn -[Z.div Z.modulo Z.pow];
    rewrite !Z.div_div by lia; f_equal; f_equal; f_equal; f_equal; try reflexivity.
Qed.

Lemma mlen_be128 v : mlen (be128 v) = 16.
Proof. reflexivity. Qed.

Section Unpack.
Context (e : XfsBmbtIrec) (He : irec_ok e).

Lemma extent_word0 : be_word_at (packed_extent e) 0 = br_state e * 2 ^ 31 + br_startoff e / 2 ^ 23.
Proof.
  unfold packed_extent. rewrite (be128_word _ 0) by lia. destruct He as (Hs & Ho & Hb & Hc).
  change (2 ^ (96 - 32 * 0)) with (2 ^ 96). Z.div_mod_to_equations. lia.
Qed.

Lemma extent_word1 : be_word_at (packed_extent e) 4 = br_startoff e mod 2 ^ 23 * 2 ^ 9 + br_startblock e / 2 ^ 43.
Proof.
  unfold packed_extent. rewrite (be128_word _ 1) by lia. destruct He as (Hs & Ho & Hb & Hc).
  change (2 ^ (96 - 32 * 1)) with (2 ^ 64). Z.div_mod_to_equations. lia.
Qed.

Lemma extent_word2 : be_word_at (packed_extent e) 8 = br_startblock e / 2 ^ 11 mod 2 ^ 32.
Proof.
  unfold packed_extent. rewrite (be128_word _ 2) by lia. destruct He as (Hs & Ho & Hb & Hc).
  change (2 ^ (96 - 32 * 2)) with (2 ^ 32). Z.div_mod_to_equations. lia.
Qed.

Lemma extent_word3 : be_word_at (packed_extent e) 12 = br_startblock e mod 2 ^ 11 * 2 ^ 21 + br_blockcount e.
Proof.
  unfold packed_extent. rewrite (be128_word _ 3) by lia. destruct He as (Hs & Ho & Hb & Hc).
  change (2 ^ (96 - 32 * 3)) with 1. Z.div_mod_to_equations. lia.
Qed.
End Unpack.

(** [shrd]: the low word of a double word shifted right. *)
Lemma shrd_eq lo hi s : 0 < s < 32 -> 0 <= lo < 2 ^ 32 ->
  Z.lor (Z.shiftr lo s) (hi <<ₘ (32 - s)) = lo / 2 ^ s + hi mod 2 ^ s * 2 ^ (32 - s).
Proof.
  intros Hs Hlo. rewrite shr_eq, shl32_eq by lia.
  assert (2 ^ 32 = 2 ^ s * 2 ^ (32 - s)) as Hp by (rewrite <- Z.pow_add_r by lia; f_equal; lia).
  rewrite Hp, Z.mul_mod_distr_r by lia. rewrite lor_tag; [lia|lia|].
  split; [apply Z.div_pos; lia|]. apply Z.div_lt_upper_bound; lia.
Qed.

Lemma join64 lo hi : 0 <= lo < 2 ^ 32 -> 0 <= hi < 2 ^ 32 -> Z.lor lo (u64 (Z.shiftl hi 32)) = lo + 2 ^ 32 * hi.
Proof.
  intros Hlo Hhi. rewrite wrap_small by (rewrite Z.shiftl_mul_pow2 by lia; lia). rewrite Z.shiftl_mul_pow2 by lia.
  rewrite lor_tag by lia. lia.
Qed.

Lemma low_bits x k mask : mask = 2 ^ k - 1 -> 0 <= k -> Z.land x mask = x mod 2 ^ k.
Proof. intros -> ?. by rewrite land_ones_wrap. Qed.

Lemma top_bit_test x : 0 <= x < 2 ^ 32 -> (if negb (Z.land x 0x80000000 =? 0) then 1 else 0) = x / 2 ^ 31.
Proof.
  intros Hx. rewrite high_bit by done. destruct (Z.leb_spec (2 ^ 31) x); Z.div_mod_to_equations; lia.
Qed.

Lemma extent_unpacked e : irec_ok e -> xfs_extent_unpack (packed_extent e) = Done e.
Proof.
  intros He. pose proof He as (Hs & Ho & Hb & Hc). unfold xfs_extent_unpack.
  rewrite !ld32be_ok by (unfold packed_extent; rewrite ?mlen_be128; lia). run_step.
  rewrite extent_word0, extent_word1, extent_word2, extent_word3 by done.
  set (off := br_startoff e) in *. set (blk := br_startblock e) in *. set (cnt := br_blockcount e) in *. set (st := br_state e) in *.
  rewrite top_bit_test by (Z.div_mod_to_equations; lia).
  rewrite (low_bits _ 31 0x7fffffff), (low_bits _ 9 0x1ff), (low_bits _ 21 0x1fffff) by (done || lia).
  change 23 with (32 - 9). change 11 with (32 - 21). rewrite !shrd_eq by (Z.div_mod_to_equations; lia).
  change (32 - 9) with 23. change (32 - 21) with 11. rewrite !(shr_eq _ 9) by lia.
  assert ((st * 2 ^ 31 + off / 2 ^ 23) mod 2 ^ 31 = off / 2 ^ 23) as -> by (Z.div_mod_to_equations; lia).
  assert ((off mod 2 ^ 23 * 2 ^ 9 + blk / 2 ^ 43) mod 2 ^ 9 = blk / 2 ^ 43) as -> by (Z.div_mod_to_equations; lia).
  assert ((off mod 2 ^ 23 * 2 ^ 9 + blk / 2 ^ 43) / 2 ^ 9 = off mod 2 ^ 23) as -> by (Z.div_mod_to_equations; lia).
  assert ((blk mod 2 ^ 11 * 2 ^ 21 + cnt) / 2 ^ 21 = blk mod 2 ^ 11) as -> by (Z.div_mod_to_equations; lia).
  assert ((blk mod 2 ^ 11 * 2 ^ 21 + cnt) mod 2 ^ 21 = cnt) as -> by (Z.div_mod_to_equations; lia).
  rewrite !join64 by (Z.div_mod_to_equations; lia).
  assert (off mod 2 ^ 23 + off / 2 ^ 23 mod 2 ^ 9 * 2 ^ 23 + 2 ^ 32 * (off / 2 ^ 23 / 2 ^ 9) = off) as -> by (Z.div_mod_to_equations; lia).
  assert ((st * 2 ^ 31 + off / 2 ^ 23) / 2 ^ 31 = st) as -> by (Z.div_mod_to_equations; lia).
  assert (blk mod 2 ^ 11 + blk / 2 ^ 11 mod 2 ^ 32 mod 2 ^ 21 * 2 ^ 11 +
    2 ^ 32 * (blk / 2 ^ 11 mod 2 ^ 32 / 2 ^ 21 + blk / 2 ^ 43 mod 2 ^ 21 * 2 ^ 11) = blk) as -> by (Z.div_mod_to_equations; lia).
  by destruct e.
Qed.

(** Writing the fields and reading them back. *)
Lemma irec_written m out e : bytes m -> irec_ok e -> 0 <= out -> out + 24 <= mlen m ->
  exists m', (m ← st32 m (out + OFF_STATE) (br_state e);
     m ← st32 m (out + OFF_STARTOFF_LO) (u32 (br_startoff e));
     m ← st32 m (out + OFF_STARTOFF_HI) (u32 (Z.shiftr (br_startoff e) 32));
     m ← st32 m (out + OFF_STARTBLOCK_LO) (u32 (br_startblock e));
     m ← st32 m (out + OFF_STARTBLOCK_HI) (u32 (Z.shiftr (br_startblock e) 32));
     st32 m (out + OFF_BLOCKCOUNT) (br_blockcount e)) = Done m' /\
    read_xfs_bmbt_irec m' out = Done e /\ outside m m' out 24.
Proof.
  intros Hm (Hs & Ho & Hb & Hc) H0 Hfit.
  unfold OFF_STATE, OFF_STARTOFF_LO, OFF_STARTOFF_HI, OFF_STARTBLOCK_LO, OFF_STARTBLOCK_HI, OFF_BLOCKCOUNT, read_xfs_bmbt_irec.
  do 6 (rewrite st32_ok by (rewrite ?mlen_write32; lia); run_step). eexists. split; [done|].
  assert (forall z, 0 <= u32 z < 2 ^ 32) as Hr by (intros; apply (wrap_range 32); lia).
  split.
  - unfold OFF_STATE, OFF_STARTOFF_LO, OFF_STARTOFF_HI, OFF_STARTBLOCK_LO, OFF_STARTBLOCK_HI, OFF_BLOCKCOUNT.
    rewrite !ld32_ok by (rewrite ?mlen_write32; lia). run_step.
    repeat first [rewrite word_at_write32 by (rewrite ?mlen_write32; (apply Hr || lia))
                 |rewrite word_at_write32_other by (rewrite ?mlen_write32; lia)].
    rewrite !join64 by (apply Hr). rewrite !shr_eq by lia.
    assert (forall x, 0 <= x < 2 ^ 64 -> u32 x + 2 ^ 32 * u32 (x / 2 ^ 32) = x) as Hx.
    { intros x Hx. unfold wrap. Z.div_mod_to_equations. lia. }
    rewrite !Hx by lia. by destruct e.
  - split; [by rewrite !mlen_write32|]. intros i Hi. rewrite !byte_at_write32 by (rewrite ?mlen_write32; lia).
    repeat case_match; try lia; done.
Qed.

(** The last directory block of an extent. *)
Lemma last_dirblock_of e log : irec_ok e -> 0 <= log < 32 -> 0 < br_blockcount e / 2 ^ log ->
  exists lo hi, xfs_get_last_dirblock_from_extent (packed_extent e) log = Done (lo, hi) /\
    0 <= lo < 2 ^ 32 /\ lo + 2 ^ 32 * hi = br_startoff e + br_blockcount e / 2 ^ log - 1.
Proof.
  intros He Hlog Hpos. pose proof He as (Hs & Ho & Hb & Hc). unfold xfs_get_last_dirblock_from_extent.
  rewrite !ld32be_ok by (unfold packed_extent; rewrite ?mlen_be128; lia). run_step.
  rewrite extent_word0, extent_word1, extent_word3 by done.
  set (off := br_startoff e) in *. set (blk := br_startblock e) in *. set (cnt := br_blockcount e) in *. set (st := br_state e) in *.
  rewrite (low_bits _ 31 0x7fffffff), (low_bits _ 21 0x1fffff), (low_bits log 5 31) by (done || lia).
  rewrite (Z.mod_small log) by (change (2 ^ 5) with 32; lia).
  change 23 with (32 - 9). rewrite shrd_eq by (Z.div_mod_to_equations; lia). change (32 - 9) with 23. rewrite !shr_eq by lia.
  assert ((st * 2 ^ 31 + off / 2 ^ 23) mod 2 ^ 31 = off / 2 ^ 23) as -> by (Z.div_mod_to_equations; lia).
  assert ((off mod 2 ^ 23 * 2 ^ 9 + blk / 2 ^ 43) / 2 ^ 9 = off mod 2 ^ 23) as -> by (Z.div_mod_to_equations; lia).
  assert ((blk mod 2 ^ 11 * 2 ^ 21 + cnt) mod 2 ^ 21 = cnt) as -> by (Z.div_mod_to_equations; lia).
  assert (cnt / 2 ^ log < 2 ^ 21) as Hq by (apply Z.div_lt_upper_bound; [apply Z.pow_pos_nonneg; lia|]; pose proof (Z.pow_le_mono_r 2 0 log); nia).
  rewrite (wrap_small 32 (cnt / 2 ^ log - 1)) by lia.
  assert (off mod 2 ^ 23 + off / 2 ^ 23 mod 2 ^ 9 * 2 ^ 23 = off mod 2 ^ 32) as -> by (Z.div_mod_to_equations; lia).
  assert (off / 2 ^ 23 / 2 ^ 9 = off / 2 ^ 32) as -> by (rewrite Z.div_div by lia; done).
  set (q := cnt / 2 ^ log) in *. eexists _, _. split; [done|]. split; [apply (wrap_range 32); lia|].
  unfold wrap. destruct (2 ^ 32 <=? off mod 2 ^ 32 + (q - 1)) eqn:E; cbn [bool_to_Z]; Z.div_mod_to_equations; lia.
Qed.

(** XFS extents.  A packed record of any state, file offset, start block and count
    is unpacked into the six words of an extent, which read back as the same fields;
    nothing else is written; and the last directory block of the record is computed
    from its offset and count, carry included. *)
Theorem extent_roundtrip m data out e log : bytes m -> irec_ok e -> stored m data (packed_extent e) ->
  0 <= out -> out + XFS_BMBT_IREC_SIZE <= mlen m -> 0 <= log < 32 -> 0 < br_blockcount e / 2 ^ log ->
  (exists m', xfs_extent_unpack_ptr m data out = Done m' /\ read_xfs_bmbt_irec m' out = Done e /\
     outside m m' out XFS_BMBT_IREC_SIZE) /\
  exists lo hi, xfs_get_last_dirblock_from_extent (packed_extent e) log = Done (lo, hi) /\
    0 <= lo < 2 ^ 32 /\ lo + 2 ^ 32 * hi = br_startoff e + br_blockcount e / 2 ^ log - 1.
Proof.
  unfold XFS_BMBT_IREC_SIZE. intros Hm He (Hd & Hfit & Hb) Ho Hof Hlog Hpos. split; [|by apply last_dirblock_of].
  unfold packed_extent in Hfit. rewrite mlen_be128 in Hfit.
  destruct (copy_out_ok m data 16) as (rec & E & Hl & Hrec); [lia..|]. unfold xfs_extent_unpack_ptr. rewrite E. run_step.
  assert (rec = packed_extent e) as ->.
  { apply mem_ext; [by rewrite Hl|]. intros i Hi. rewrite Hl in Hi. rewrite Hrec by done. by apply Hb. }
  rewrite extent_unpacked by done. run_step. by apply irec_written.
Qed.

(** A written extent of 8 blocks at file block 2^40 + 5, with two directory blocks of 4. *)
Definition extent_example : XfsBmbtIrec := mkIrec (2 ^ 40 + 5) (2 ^ 45 + 9) 8 1.

Lemma extent_roundtrip_witness :
  (exists m', xfs_extent_unpack_ptr (packed_extent extent_example ++ replicate 24 0) 0 16 = Done m' /\
     read_xfs_bmbt_irec m' 16 = Done extent_example) /\
  exists lo hi, xfs_get_last_dirblock_from_extent (packed_extent extent_example) 2 = Done (lo, hi) /\ lo + 2 ^ 32 * hi = 2 ^ 40 + 6.
Proof.
  destruct (extent_roundtrip (packed_extent extent_example ++ replicate 24 0) 0 16 extent_example 2) as [(m' & E & R & _) (lo & hi & E2 & _ & Hs)].
  - apply bytes_check. vm_compute. reflexivity.
  - vm_compute. split_and!; discriminate || reflexivity.
  - split; [lia|]. split; [vm_compute; discriminate|]. intros i Hi. rewrite byte_at_app by lia.
    by replace (0 + i <? mlen (packed_extent extent_example)) with true by lia.
  - lia.
  - vm_compute. discriminate.
  - lia.
  - vm_compute. reflexivity.
  - split; [exists m'; split; [exact E|exact R]|]. exists lo, hi. split; [exact E2|]. exact Hs.
Defined.

(** ** Blocks *)

(** Allocation group and block number are joined by the shift; the sector is exact as
    long as the group number fits 32 bits and the disk address 64. *)
Lemma blkrel_sector ag blk log agblocks sectlog :
  0 <= log < 32 -> 0 <= sectlog < 32 -> 0 <= ag < 2 ^ 32 -> 0 <= blk < 2 ^ log -> 0 <= agblocks < 2 ^ 32 ->
  ag * 2 ^ log + blk < 2 ^ 64 -> (ag * agblocks + blk) * 2 ^ sectlog < 2 ^ 64 ->
  let block := ag * 2 ^ log + blk in
  let '(lo, hi) := xfs_blkrel2sectabs (block mod 2 ^ 32) (block / 2 ^ 32) log agblocks (2 ^ log - 1) 0 sectlog in
  lo + 2 ^ 32 * hi = (ag * agblocks + blk) * 2 ^ sectlog.
Proof.
  intros Hlog Hsl Hag Hblk Hagb Hfit Hsect. cbn zeta. unfold xfs_blkrel2sectabs.
  set (block := ag * 2 ^ log + blk) in *.
  assert (0 < 2 ^ log) by (apply Z.pow_pos_nonneg; lia). assert (1 <= 2 ^ sectlog) by (apply (Z.pow_le_mono_r 2 0); lia).
  assert (0 <= block) by (unfold block; nia).
  rewrite (low_bits log 5 31), (low_bits sectlog 5 31) by (done || lia). rewrite !(Z.mod_small _ (2 ^ 5)) by (change (2 ^ 5) with 32; lia).
  rewrite Z.lor_comm, join64 by (Z.div_mod_to_equations; lia).
  replace (block mod 2 ^ 32 + 2 ^ 32 * (block / 2 ^ 32)) with block by (Z.div_mod_to_equations; lia).
  rewrite (shr_eq block) by lia.
  assert (block / 2 ^ log = ag) as -> by (unfold block; rewrite Z.div_add_l, Z.div_small by lia; lia).
  rewrite (wrap_small 32 ag) by lia. rewrite Z.land_0_r, Z.shiftl_0_l. change (u64 0) with 0. rewrite Z.lor_0_r.
  rewrite (low_bits _ log (2 ^ log - 1)) by (done || lia).
  assert (block mod 2 ^ 32 mod 2 ^ log = blk) as ->.
  { replace (2 ^ 32) with (2 ^ log * 2 ^ (32 - log)) by (rewrite <- Z.pow_add_r by lia; f_equal; lia).
    rewrite Z.rem_mul_r by (try apply Z.pow_pos_nonneg; lia). rewrite Z.mul_comm, Z.mod_add, Z.mod_mod by lia.
    unfold block. rewrite Z.add_comm, Z.mod_add by lia. by apply Z.mod_small. }
  assert (0 <= ag * agblocks) by nia. assert (ag * agblocks + blk < 2 ^ 64) by nia.
  rewrite (wrap_small 64 (ag * agblocks)) by lia. rewrite (wrap_small 64 (ag * agblocks + blk)) by lia.
  rewrite Z.shiftl_mul_pow2 by lia. set (s := (ag * agblocks + blk) * 2 ^ sectlog) in *.
  assert (0 <= s) by (unfold s; nia). rewrite (wrap_small 64 s) by lia. rewrite shr_eq by lia. unfold wrap. Z.div_mod_to_equations. lia.
Qed.

(** ** Names and directories *)

(** The hash in arithmetic: seven bits round, then the next byte. *)
Definition name_hash (s : list Z) : Z := foldl (fun h c => Z.lxor (h mod 2 ^ 25 * 2 ^ 7 + h / 2 ^ 25) c) 0 s.

Lemma rotate_left_eq h : 0 <= h < 2 ^ 32 -> rotate_left h 7 = h mod 2 ^ 25 * 2 ^ 7 + h / 2 ^ 25.
Proof.
  intros Hh. unfold rotate_left. rewrite shl32_eq, shr_eq by lia. change (32 - 7) with 25.
  assert (h * 2 ^ 7 mod 2 ^ 32 = h mod 2 ^ 25 * 2 ^ 7) as -> by (Z.div_mod_to_equations; lia).
  apply lor_mul_add; [lia|]. Z.div_mod_to_equations. lia.
Qed.

Lemma hash_step_range h c : 0 <= h < 2 ^ 32 -> is_byte c -> 0 <= Z.lxor (h mod 2 ^ 25 * 2 ^ 7 + h / 2 ^ 25) c < 2 ^ 32.
Proof. intros Hh Hc. unfold is_byte in Hc. apply lxor_range; [lia| |lia]. Z.div_mod_to_equations. lia. Qed.

Lemma xfs_hashname_ok m name s : stored m name s -> bytes s -> mlen s < 2 ^ 32 -> xfs_hashname m name (mlen s) = Done (name_hash s).
Proof.
  intros Hs Hb Hl. unfold xfs_hashname, name_hash. destruct (mlen s =? 0) eqn:E0.
  { destruct s; [done|]. rewrite mlen_cons in E0. pose proof (mlen_nonneg s). lia. }
  assert (forall pre t h fuel, s = pre ++ t -> 0 <= h < 2 ^ 32 -> (length t < fuel)%nat ->
    loop fuel (hash_body m name (mlen s)) (h, mlen pre) = Done (foldl (fun h c => Z.lxor (h mod 2 ^ 25 * 2 ^ 7 + h / 2 ^ 25) c) h t)) as Hloop.
  { intros pre t. revert pre. induction t as [|c t IH]; intros pre h [|fuel] Es Hh Hf; cbn [length] in Hf; try lia; rewrite loop_S; unfold hash_body at 2.
    - rewrite app_nil_r in Es. subst pre. by rewrite Z.ltb_irrefl.
    - assert (mlen s = mlen pre + 1 + mlen t) as El by (rewrite Es, mlen_app, mlen_cons; lia).
      pose proof (mlen_nonneg pre). pose proof (mlen_nonneg t).
      replace (mlen pre <? mlen s) with true by lia. rewrite (stored_ld8 _ _ _ _ Hs) by lia. rewrite Es at 1. rewrite byte_at_mid. run_step.
      rewrite rotate_left_eq by done. rewrite wrap_small by lia. replace (mlen pre + 1) with (mlen (pre ++ [c])) by (rewrite mlen_app; done).
      cbn [foldl]. apply IH; [by rewrite <- app_assoc| |lia]. apply hash_step_range; [done|].
      rewrite Es in Hb. apply Forall_app in Hb as [_ Hb]. by apply Forall_cons_1 in Hb as [Hc _]. }
  apply (Hloop [] s 0); [done|lia|]. unfold mlen. lia.
Qed.

(** Entry [i] of a table of pairs: hash and address. *)
Definition entry_hash (m : list Z) (base i : Z) : Z := be_word_at m (base + 8 * i).
Definition entry_addr (m : list Z) (base i : Z) : Z := be_word_at m (base + 8 * i + 4).

Definition hash_sorted (m : list Z) (base len : Z) : Prop :=
  forall i j, 0 <= i <= j -> j < len -> entry_hash m base i <= entry_hash m base j.

(** The interval that still may hold the hash. *)
Definition leaf_inv (m : list Z) (hash base len : Z) (st : Z * Z) : Prop :=
  exists i, st.1 = base + 8 * i /\ 0 <= i /\ 0 <= st.2 /\ i + st.2 <= len /\
    (forall j, 0 <= j < i -> entry_hash m base j < hash) /\
    (forall j, i + st.2 <= j < len -> hash < entry_hash m base j).

Definition leaf_measure (st : Z * Z) : nat := if st.2 =? 0 then O else S (Z.to_nat (Z.log2 st.2)).

Lemma leaf_measure_half c c' n r : 0 < n -> 0 <= r <= n / 2 -> (leaf_measure (c', r) < leaf_measure (c, n))%nat.
Proof.
  intros Hn Hr. unfold leaf_measure. cbn [snd]. replace (n =? 0) with false by lia. destruct (r =? 0) eqn:E; [lia|].
  assert (Z.log2 r < Z.log2 n) as Hlog.
  { assert (Z.log2 (2 * r) = Z.log2 r + 1) as E2 by (rewrite Z.log2_double by lia; lia).
    pose proof (Z.log2_le_mono (2 * r) n). Z.div_mod_to_equations. lia. }
  pose proof (Z.log2_nonneg r). lia.
Qed.

Lemma leaf_search m hash base len : 0 <= base -> 0 <= len < 2 ^ 32 -> base + 8 * len <= mlen m -> hash_sorted m base len ->
  exists r, xfs_get_addr_by_hash m hash base len = Done r /\
    ((zf r = 1 /\ exists i, 0 <= i < len /\ entry_hash m base i = hash /\ eax r = entry_addr m base i) \/
     (zf r = 0 /\ eax r = ERROR_FILE_NOT_FOUND /\ forall i, 0 <= i < len -> entry_hash m base i <> hash)).
Proof.
  intros Hb Hl Hfit Hsort. unfold xfs_get_addr_by_hash. apply (loop_total (leaf_inv m hash base len) leaf_measure).
  - intros [cur n] (i & Hcur & Hi & Hn & Hin & Hlo & Hhi). cbn [fst snd] in *. subst cur. unfold leaf_body.
    destruct (n =? 0) eqn:E0.
    + eexists. split; [done|]. right. cbn [zf eax]. split_and!; [done..|]. intros j Hj.
      destruct (decide (j < i)) as [Hji|Hji]; [specialize (Hlo j)|specialize (Hhi j)]; lia.
    + rewrite shr_eq by lia. change (2 ^ 1) with 2. unfold XFS_DIR2_LEAF_ENTRY_SIZE, OFF_HASHVAL, OFF_ADDRESS.
      set (mid := n / 2). assert (0 <= mid < n) as Hmid by (unfold mid; Z.div_mod_to_equations; lia).
      replace (base + 8 * i + mid * 8) with (base + 8 * (i + mid)) by lia. rewrite Z.add_0_r.
      rewrite (ld32be_ok m (base + 8 * (i + mid))) by lia. run_step. fold (entry_hash m base (i + mid)).
      destruct (hash <? entry_hash m base (i + mid)) eqn:E1; [|destruct (entry_hash m base (i + mid) <? hash) eqn:E2].
      * eexists. split; [done|]. cbn beta iota. split; [|apply leaf_measure_half; [lia|fold mid; lia]].
        exists i. cbn [fst snd]. split_and!; [done|lia..|done|]. intros j Hj.
        pose proof (Hsort (i + mid) j ltac:(lia) ltac:(lia)). lia.
      * eexists. split; [done|]. cbn beta iota. split.
        2: { apply leaf_measure_half; [lia|]. unfold mid. Z.div_mod_to_equations. lia. }
        exists (i + mid + 1). cbn [fst snd]. split_and!; [lia..| |].
        -- intros j Hj. pose proof (Hsort j (i + mid) ltac:(lia) ltac:(lia)). lia.
        -- intros j Hj. apply Hhi. lia.
      * rewrite ld32be_ok by lia. run_step. eexists. split; [done|]. left. cbn [zf eax]. split; [done|].
        exists (i + mid). split; [lia|]. split; [lia|done].
  - exists 0. cbn [fst snd]. split_and!; intros; lia.
  - unfold leaf_measure. cbn [snd]. case_match; [lia|].
    assert (Z.log2 len < 32) by (apply Z.log2_lt_pow2; lia). lia.
Qed.

Lemma node_search m hash entries count : 0 <= entries -> 0 <= count < 2 ^ 32 -> entries + 8 * count <= mlen m ->
  xfs_get_before_by_hashval m entries count hash =
    Done (match first_from (fun i => hash <=? entry_hash m entries (Z.of_nat i)) 0 (Z.to_nat count) with
          | Some i => mkLookup (entry_addr m entries (Z.of_nat i)) 1
          | None => mkLookup ERROR_FILE_NOT_FOUND 0
          end).
Proof.
  intros He Hc Hfit. unfold xfs_get_before_by_hashval. change 0 with (Z.of_nat 0) at 2.
  rewrite (scan_loop _ Z.of_nat (Z.to_nat count) 0 _ (fun i => hash <=? entry_hash m entries (Z.of_nat i))
    (fun i => mkLookup (entry_addr m entries (Z.of_nat i)) 1) (mkLookup ERROR_FILE_NOT_FOUND 0)); [done| | |lia|lia].
  - intros i Hi. unfold node_body, XFS_DA_NODE_ENTRY_SIZE, OFF_NODE_HASHVAL, OFF_NODE_BEFORE.
    replace (Z.of_nat i <? count) with true by (symmetry; apply Z.ltb_lt; lia).
    replace (entries + Z.of_nat i * 8) with (entries + 8 * Z.of_nat i) by lia. rewrite Z.add_0_r.
    rewrite (ld32be_ok m (entries + 8 * Z.of_nat i)) by lia. run_step. fold (entry_hash m entries (Z.of_nat i)). case_match.
    + rewrite ld32be_ok by lia. done.
    + do 2 f_equal. rewrite wrap_small; lia.
  - unfold node_body. by replace (Z.of_nat (Z.to_nat count) <? count) with false by (symmetry; apply Z.ltb_ge; lia).
Qed.

(** C23: Finding a name in an XFS directory.  The hash of any name is the rotating hash
    of its bytes; in a leaf sorted by hash the binary search stops and finds an entry
    with that hash if there is one, and says so if there is none; in a node the search
    gives the child of the first entry whose hash is not smaller. *)
Theorem directory_lookup m name s base len entries count :
  stored m name s -> bytes s -> mlen s < 2 ^ 32 -> bytes m ->
  0 < base -> 0 <= len < 2 ^ 32 -> base + 8 * len <= mlen m -> hash_sorted m base len ->
  0 < entries -> 0 <= count < 2 ^ 32 -> entries + 8 * count <= mlen m ->
  exists h leaf node,
    xfs_hashname m name (mlen s) = Done h /\ h = name_hash s /\
    xfs_get_addr_by_hash_ptr m h base len = Done leaf /\
    ((zf leaf = 1 /\ exists i, 0 <= i < len /\ entry_hash m base i = h /\ eax leaf = entry_addr m base i) \/
     (zf leaf = 0 /\ eax leaf = ERROR_FILE_NOT_FOUND /\ forall i, 0 <= i < len -> entry_hash m base i <> h)) /\
    xfs_get_before_by_hashval_ptr m entries count h = Done node /\
    ((zf node = 1 /\ exists i, 0 <= i < count /\ h <= entry_hash m entries i /\ eax node = entry_addr m entries i /\
        forall j, 0 <= j < i -> entry_hash m entries j < h) \/
     (zf node = 0 /\ eax node = ERROR_FILE_NOT_FOUND /\ forall i, 0 <= i < count -> entry_hash m entries i < h)).
Proof.
  intros Hs Hbs Hls Hm Hb Hl Hfit Hsort He Hc Hefit. set (h := name_hash s).
  destruct (leaf_search m h base len) as (leaf & Eleaf & Hleaf); [lia|done..|].
  pose proof (node_search m h entries count ltac:(lia) Hc Hefit) as Enode.
  pose proof (first_from_spec (fun i => h <=? entry_hash m entries (Z.of_nat i)) 0 (Z.to_nat count)) as Hf.
  exists h, leaf, (match first_from (fun i => h <=? entry_hash m entries (Z.of_nat i)) 0 (Z.to_nat count) with
    | Some i => mkLookup (entry_addr m entries (Z.of_nat i)) 1 | None => mkLookup ERROR_FILE_NOT_FOUND 0 end).
  split; [by apply xfs_hashname_ok|]. split; [done|]. split; [|split; [done|split]].
  - unfold xfs_get_addr_by_hash_ptr. destruct (len =? 0) eqn:E0; [|by replace (base =? 0) with false by lia].
    destruct Hleaf as [(_ & i & Hi & _)|(Hz & Hx & _)]; [lia|]. f_equal. destruct leaf as [x z]. cbn in *. by subst.
  - unfold xfs_get_before_by_hashval_ptr. destruct (count =? 0) eqn:E0; [|by replace (entries =? 0) with false by lia].
    by replace count with 0 by lia.
  - destruct (first_from _ 0 (Z.to_nat count)) as [i|].
    + left. destruct Hf as (Hi & Hle & Hlt). split; [done|]. exists (Z.of_nat i). split_and!; [lia..|done|].
      intros j Hj. specialize (Hlt (Z.to_nat j) ltac:(lia)). rewrite Z2Nat.id in Hlt by lia. lia.
    + right. split_and!; [done..|]. intros i Hi. specialize (Hf (Z.to_nat i) ltac:(lia)). rewrite Z2Nat.id in Hf by lia. lia.
Qed.

(** The name [ab] (hash 12514) in a leaf of three entries. *)
Definition directory_example : list Z :=
  [97; 98; 0; 0; 0; 0; 0; 0;
   0; 0; 0; 5; 0; 0; 0; 1;  0; 0; 48; 226; 0; 0; 0; 2;  0; 1; 0; 0; 0; 0; 0; 3].

Lemma directory_lookup_witness : exists leaf, xfs_get_addr_by_hash_ptr directory_example 12514 8 3 = Done leaf /\
  name_hash [97; 98] = 12514 /\ eax leaf = 2.
Proof.
  destruct (directory_lookup directory_example 0 [97; 98] 8 3 8 3) as (h & leaf & node & _ & Eh & E & Hl & _).
  - split; [lia|]. split; [vm_compute; discriminate|]. intros i Hi. change (mlen [97; 98]) with 2 in Hi.
    assert (i = 0 \/ i = 1) as [->| ->] by lia; reflexivity.
  - apply bytes_check. reflexivity.
  - vm_compute. reflexivity.
  - apply bytes_check. reflexivity.
  - lia.
  - lia.
  - vm_compute. discriminate.
  - intros i j Hi Hj. assert (i = 0 \/ i = 1 \/ i = 2) as Hi' by lia. assert (j = 0 \/ j = 1 \/ j = 2) as Hj' by lia.
    destruct Hi' as [->|[->| ->]], Hj' as [->|[->| ->]]; try lia; vm_compute; discriminate.
  - lia.
  - lia.
  - vm_compute. discriminate.
  - assert (name_hash [97; 98] = 12514) as E2 by (vm_compute; reflexivity). rewrite E2 in Eh. subst h. exists leaf.
    split; [exact E|]. split; [exact E2|]. destruct Hl as [(_ & i & Hi & Hh & ->)|(_ & _ & Hno)].
    + assert (i = 0 \/ i = 1 \/ i = 2) as [->|[->| ->]] by lia; [vm_compute in Hh; discriminate|reflexivity|vm_compute in Hh; discriminate].
    + exfalso. apply (Hno 1); [lia|]. vm_compute. reflexivity.
Defined.

(** The wrapper around the flag: a packed answer is taken apart exactly. *)
Lemma packed_answer x z : 0 <= x < 2 ^ 32 -> 0 <= z < 2 -> unpack_eax_zf (pack_eax_zf x z) = (x, z).
Proof.
  intros Hx Hz. unfold unpack_eax_zf, pack_eax_zf. rewrite Z.lor_comm, join64 by lia. rewrite shr_eq by lia. unfold wrap.
  f_equal; Z.div_mod_to_equations; lia.
Qed.
