(* ===== verification/Crc.v ===== *)
(** * CRC-32

    [crc.rs]: the running checksum over a byte slice, bit by bit, with the reflected
    polynomial as an argument.  [crc_is_remainder] identifies it with the remainder of
    the message, as a polynomial over GF(2), modulo the polynomial;
    [crc_detects_bursts] is the error detection it is used for. *)

From stdpp Require Import base list.
From Stdlib Require Import ZArith Lia Bool.
From S2P Require Import Prelude.

(** ** The code *)

(** One turn of the inner [for]: [partial] and the byte [b] still to be shifted in. *)
Definition crc_bit (poly : Z) (st : Z * Z) : Z * Z :=
  let '(partial, b) := st in
  let mix := Z.lxor partial b in
  let partial := Z.shiftr partial 1 in
  let partial := if negb (Z.land mix 1 =? 0) then Z.lxor partial poly else partial in
  (partial, Z.shiftr b 1).

Definition crc_byte (poly partial byte : Z) : Z := (Nat.iter 8 (crc_bit poly) (partial, byte)).1.

Definition crc32_update (partial poly : Z) (data : list Z) : Z := foldl (crc_byte poly) partial data.

Example crc_123456789 : Z.lxor (crc32_update 0xFFFFFFFF 0xEDB88320 [0x31; 0x32; 0x33; 0x34; 0x35; 0x36; 0x37; 0x38; 0x39]) 0xFFFFFFFF = 0xCBF43926.
Proof. reflexivity. Qed.

(** ** The message as bits *)

(** The low [n] bits of [z], the lowest first: the order the code shifts them in. *)
Fixpoint low_bits (n : nat) (z : Z) : list bool :=
  match n with
  | O => []
  | S n => Z.odd z :: low_bits n (Z.shiftr z 1)
  end.

Definition data_bits (data : list Z) : list bool := mjoin (low_bits 8 <$> data).

(** The register after one bit of the message. *)
Definition bit_step (poly s : Z) (b : bool) : Z :=
  if xorb (Z.odd s) b then Z.lxor (Z.shiftr s 1) poly else Z.shiftr s 1.

(** ** Polynomials over GF(2)

    A polynomial is the integer whose bit [i] is the coefficient of [x^i]; addition is
    [Z.lxor], multiplication is carry-less. *)

Fixpoint pos_clmul (q : positive) (p : Z) : Z :=
  match q with
  | xH => p
  | xO q => 2 * pos_clmul q p
  | xI q => Z.lxor (2 * pos_clmul q p) p
  end.

Definition clmul (q p : Z) : Z :=
  match q with
  | Zpos q => pos_clmul q p
  | _ => 0
  end.

(** The register holds coefficients in the opposite order: bit 0 is [x^31]. *)
Fixpoint reflect (n : nat) (z : Z) : Z :=
  match n with
  | O => 0
  | S n => Z.lxor (Z.shiftl (bool_to_Z (Z.odd z)) (Z.of_nat n)) (reflect n (Z.shiftr z 1))
  end.

(** The first bit of the message is its highest coefficient. *)
Definition message (bits : list bool) : Z := foldl (fun p b => 2 * p + bool_to_Z b) 0 bits.

(** ** Lemmas *)

Lemma testbit_bool b i : Z.testbit (bool_to_Z b) i = (i =? 0) && b.
Proof. destruct b; [|by rewrite Z.testbit_0_l, andb_false_r]. by destruct i as [|[]|]. Qed.

Lemma testbit_double z i : Z.testbit (2 * z) i = Z.testbit z (i - 1).
Proof. rewrite Z.mul_comm. apply (Z.mul_pow2_bits z 1 i). lia. Qed.

Lemma double_lxor a b : 2 * Z.lxor a b = Z.lxor (2 * a) (2 * b).
Proof. apply Z.bits_inj'. intros i _. by rewrite Z.lxor_spec, !testbit_double, Z.lxor_spec. Qed.

Lemma double_add_bool p b : 2 * p + bool_to_Z b = Z.lxor (2 * p) (bool_to_Z b).
Proof.
  destruct b; cbn [bool_to_Z]; [|by rewrite Z.lxor_0_r, Z.add_0_r].
  apply Z.add_nocarry_lxor. rewrite Z.land_comm. change 1 with (Z.ones 1) at 1.
  rewrite Z.land_comm, Z.land_ones, Z.mul_comm by lia. apply Z.mod_mul. lia.
Qed.

Lemma clmul_step q b p : 0 <= q ->
  clmul (2 * q + bool_to_Z b) p = Z.lxor (2 * clmul q p) (if b then p else 0).
Proof.
  intros Hq. destruct q as [|q|q]; [by destruct b|destruct b; cbn; by rewrite ?Z.lxor_0_r|lia].
Qed.

Lemma testbit_reflect n z i : 0 <= i ->
  Z.testbit (reflect n z) i = (i <? Z.of_nat n) && Z.testbit z (Z.of_nat n - 1 - i).
Proof.
  revert z. induction n as [|n IH]; intros z Hi; cbn [reflect].
  { rewrite Z.testbit_0_l. symmetry. destruct (Z.ltb_spec i (Z.of_nat 0)); [lia|done]. }
  rewrite Z.lxor_spec, Z.shiftl_spec, IH, testbit_bool by lia.
  destruct (Z.ltb_spec i (Z.of_nat n)).
  - rewrite Z.shiftr_spec by lia.
    destruct (Z.eqb_spec (i - Z.of_nat n) 0), (Z.ltb_spec i (Z.of_nat (S n))); try lia. cbn.
    f_equal. lia.
  - cbn. destruct (Z.eqb_spec (i - Z.of_nat n) 0), (Z.ltb_spec i (Z.of_nat (S n))); try lia; [|done].
    replace (Z.of_nat (S n) - 1 - i) with 0 by lia. cbn. by rewrite xorb_false_r.
Qed.

Lemma bit_step_range poly s b : 0 <= s < 2 ^ 32 -> 0 <= poly < 2 ^ 32 -> 0 <= bit_step poly s b < 2 ^ 32.
Proof.
  intros Hs Hp. unfold bit_step. rewrite shr_eq by lia.
  assert (0 <= s / 2 ^ 1 < 2 ^ 32) by (change (2 ^ 1) with 2; split; [apply Z.div_pos; lia|apply Z.div_lt_upper_bound; lia]).
  case_match; [by apply lxor_range|done].
Qed.

Lemma crc_bit_eq poly s b : crc_bit poly (s, b) = (bit_step poly s (Z.odd b), Z.shiftr b 1).
Proof.
  unfold crc_bit, bit_step. f_equal.
  rewrite (land_mask _ 1) by lia. unfold wrap. change (2 ^ 1) with 2.
  rewrite Zmod_odd, <- (Z.bit0_odd (Z.lxor s b)), Z.lxor_spec, !Z.bit0_odd. by destruct (xorb _ _).
Qed.

Lemma crc_byte_eq poly s byte : crc_byte poly s byte = foldl (bit_step poly) s (low_bits 8 byte).
Proof.
  unfold crc_byte. assert (forall n s b, (Nat.iter n (crc_bit poly) (s, b)).1 = foldl (bit_step poly) s (low_bits n b)) as E; [|apply E].
  induction n as [|n IH]; intros s' b; [done|]. rewrite Nat.iter_succ_r, crc_bit_eq, IH. done.
Qed.

Lemma crc_bits partial poly data : crc32_update partial poly data = foldl (bit_step poly) partial (data_bits data).
Proof.
  unfold crc32_update, data_bits. revert partial. induction data as [|b data IH]; intros s; [done|].
  rewrite fmap_cons, mjoin_cons.
  rewrite foldl_app, <- crc_byte_eq. apply IH.
Qed.

Lemma length_low_bits n z : length (low_bits n z) = n.
Proof. revert z. induction n as [|n IH]; intros z; cbn; [done|]. by rewrite IH. Qed.

Lemma length_data_bits data : length (data_bits data) = (8 * length data)%nat.
Proof.
  unfold data_bits. induction data as [|b data IH]; [done|]. rewrite fmap_cons, mjoin_cons.
  rewrite length_app, IH, length_low_bits. cbn. lia.
Qed.

(** Shifting one bit in multiplies the register by [x] and reduces it. *)
Lemma reflect_step poly s b : 0 <= s < 2 ^ 32 -> 0 <= poly < 2 ^ 32 ->
  reflect 32 (bit_step poly s b) =
  Z.lxor (Z.lxor (2 * reflect 32 s) (Z.shiftl (bool_to_Z b) 32))
         (if xorb (Z.odd s) b then Z.lxor (2 ^ 32) (reflect 32 poly) else 0).
Proof.
  intros Hs Hp. apply Z.bits_inj'. intros i Hi.
  rewrite !Z.lxor_spec, testbit_double, Z.shiftl_spec, testbit_bool, testbit_reflect by lia.
  assert (Z.testbit (if xorb (Z.odd s) b then Z.lxor (2 ^ 32) (reflect 32 poly) else 0) i =
          xorb (Z.odd s) b && xorb (i =? 32) (Z.testbit (reflect 32 poly) i)) as ->.
  { destruct (xorb _ _); cbn [andb]; [|apply Z.testbit_0_l].
    rewrite Z.lxor_spec, Z.pow2_bits_eqb, Z.eqb_sym by lia. done. }
  rewrite (testbit_reflect 32 poly) by lia. change (Z.of_nat 32) with 32.
  assert (forall j, Z.testbit (bit_step poly s b) j =
      if 0 <=? j then xorb (Z.testbit s (j + 1)) (xorb (Z.odd s) b && Z.testbit poly j) else false) as Hb.
  { intros j. destruct (Z.leb_spec 0 j); [|by apply Z.testbit_neg_r].
    unfold bit_step. destruct (xorb _ _); rewrite ?Z.lxor_spec, Z.shiftr_spec by lia; cbn; by rewrite ?xorb_false_r. }
  rewrite Hb. clear Hb.
  destruct (Z.eq_dec i 0) as [->|].
  { rewrite (Z.testbit_neg_r (reflect 32 s)) by lia. change (32 - 1 - 0 + 1) with 32.
    rewrite (testbit_range_false 32 s 32) by lia. cbn - [Z.testbit]. by destruct (xorb _ _), (Z.testbit poly _). }
  rewrite testbit_reflect by lia. change (Z.of_nat 32) with 32.
  destruct (Z.ltb_spec i 32), (Z.ltb_spec (i - 1) 32), (Z.eqb_spec (i - 32) 0), (Z.eqb_spec i 32), (Z.leb_spec 0 (32 - 1 - i)); try lia; cbn [andb xorb].
  - replace (32 - 1 - (i - 1)) with (32 - 1 - i + 1) by lia. by rewrite xorb_false_r.
  - replace (32 - 1 - (i - 1)) with 0 by lia. rewrite Z.bit0_odd. by destruct (Z.odd s), b.
  - by rewrite andb_false_r.
Qed.

Lemma remainder_bits poly bits : 0 <= poly < 2 ^ 32 -> forall s, 0 <= s < 2 ^ 32 ->
  0 <= foldl (bit_step poly) s bits < 2 ^ 32 /\
  exists q, 0 <= q /\
    Z.lxor (clmul q (Z.lxor (2 ^ 32) (reflect 32 poly))) (reflect 32 (foldl (bit_step poly) s bits)) =
    Z.lxor (Z.shiftl (reflect 32 s) (Z.of_nat (length bits))) (Z.shiftl (message bits) 32).
Proof.
  intros Hp s Hs. induction bits as [|b bits IH] using rev_ind.
  { split; [done|]. exists 0. split; [done|]. change (clmul 0 _) with 0. change (message []) with 0. cbn [foldl length].
    by rewrite Z.lxor_0_l, Z.shiftl_0_l, Z.lxor_0_r. }
  destruct IH as (Hr & q & Hq & E). rewrite foldl_app. set (r := foldl (bit_step poly) s bits) in *.
  cbn [foldl]. split; [by apply bit_step_range|].
  exists (2 * q + bool_to_Z (xorb (Z.odd r) b)). split; [destruct (xorb _ _); cbn; lia|].
  rewrite clmul_step, reflect_step by done.
  unfold message. rewrite foldl_app. cbn [foldl]. fold (message bits).
  rewrite length_app, Nat2Z.inj_add. change (Z.of_nat (length [b])) with 1.
  rewrite <- Z.shiftl_shiftl, double_add_bool by lia.
  rewrite Z.shiftl_lxor.
  replace (Z.shiftl (2 * message bits) 32) with (2 * Z.shiftl (message bits) 32) by (rewrite !Z.shiftl_mul_pow2 by lia; lia).
  rewrite (Z.shiftl_mul_pow2 _ 1) by lia. rewrite Z.mul_comm with (m := 2 ^ 1). change (2 ^ 1) with 2.
  apply (f_equal (Z.mul 2)) in E. rewrite !double_lxor in E. rewrite <- (Z.lxor_assoc (2 * Z.shiftl _ _)), <- E.
  apply Z.bits_inj'. intros i _. rewrite !Z.lxor_spec. by repeat destruct (Z.testbit _ i).
Qed.

(** ** Bursts *)

(** The register after a bit 0. *)
Abbreviation shift_step poly s := (bit_step poly s false).

Fixpoint bits_value (w : list bool) : Z :=
  match w with
  | [] => 0
  | b :: w => bool_to_Z b + 2 * bits_value w
  end.

Lemma bits_value_range w : 0 <= bits_value w < 2 ^ Z.of_nat (length w).
Proof.
  induction w as [|b w IH]; [done|]. cbn [bits_value length]. rewrite Nat2Z.inj_succ, Z.pow_succ_r by lia.
  destruct b; cbn [bool_to_Z]; lia.
Qed.

Lemma bits_value_inj w1 w2 : length w1 = length w2 -> bits_value w1 = bits_value w2 -> w1 = w2.
Proof.
  revert w2. induction w1 as [|b w1 IH]; intros [|b' w2]; try done. cbn [length bits_value]. intros [= L] E.
  assert (bool_to_Z b = bool_to_Z b') by (destruct b, b'; cbn in *; lia).
  f_equal; [by destruct b, b'|]. apply IH; [done|lia].
Qed.

Lemma bit_step_absorb poly s b v :
  bit_step poly (Z.lxor s (bool_to_Z b + 2 * v)) false = Z.lxor (bit_step poly s b) v.
Proof.
  rewrite Z.add_comm, double_add_bool. unfold bit_step.
  assert (Z.odd (Z.lxor s (Z.lxor (2 * v) (bool_to_Z b))) = xorb (Z.odd s) b) as ->.
  { rewrite <- !Z.bit0_odd, !Z.lxor_spec, testbit_double, testbit_bool. cbn.
    rewrite Z.testbit_neg_r by lia. by rewrite xorb_false_l. }
  rewrite xorb_false_r. rewrite !Z.shiftr_lxor.
  replace (Z.shiftr (2 * v) 1) with v by (rewrite shr_eq by lia; change (2 ^ 1) with 2; rewrite Z.mul_comm, Z.div_mul; lia).
  replace (Z.shiftr (bool_to_Z b) 1) with 0 by (by destruct b). rewrite Z.lxor_0_r.
  destruct (xorb _ _); [|done]. by rewrite !Z.lxor_assoc, (Z.lxor_comm v).
Qed.

Lemma absorb_bits poly w s :
  foldl (bit_step poly) s w = Nat.iter (length w) (fun s => shift_step poly s) (Z.lxor s (bits_value w)).
Proof.
  revert s. induction w as [|b w IH]; intros s; [by rewrite Z.lxor_0_r|].
  cbn [length foldl]. rewrite Nat.iter_succ_r, IH. cbn [bits_value]. by rewrite bit_step_absorb.
Qed.

Lemma shift_step_inj poly s1 s2 : 0 <= poly < 2 ^ 32 -> Z.testbit poly 31 = true ->
  0 <= s1 < 2 ^ 32 -> 0 <= s2 < 2 ^ 32 -> shift_step poly s1 = shift_step poly s2 -> s1 = s2.
Proof.
  intros Hp Ht H1 H2 E.
  assert (forall s, 0 <= s < 2 ^ 32 -> Z.testbit (shift_step poly s) 31 = Z.odd s) as Htop.
  { intros s Hs. unfold bit_step. rewrite xorb_false_r.
    destruct (Z.odd s); rewrite ?Z.lxor_spec, Z.shiftr_spec, (testbit_range_false 32 s) by lia; [by rewrite Ht|done]. }
  pose proof (f_equal (fun z => Z.testbit z 31) E) as Eo. cbv beta in Eo. rewrite !Htop in Eo by done.
  unfold bit_step in E. rewrite !xorb_false_r, Eo in E.
  assert (Z.shiftr s1 1 = Z.shiftr s2 1) as Es.
  { destruct (Z.odd s2); [|done]. apply (f_equal (fun z => Z.lxor z poly)) in E.
    by rewrite !Z.lxor_assoc, Z.lxor_nilpotent, !Z.lxor_0_r in E. }
  rewrite !shr_eq in Es by lia. change (2 ^ 1) with 2 in Es.
  by rewrite (Z.div_mod s1 2), (Z.div_mod s2 2), Es, !Zmod_odd, Eo by lia.
Qed.

Lemma shift_steps_inj poly n s1 s2 : 0 <= poly < 2 ^ 32 -> Z.testbit poly 31 = true ->
  0 <= s1 < 2 ^ 32 -> 0 <= s2 < 2 ^ 32 ->
  Nat.iter n (fun s => shift_step poly s) s1 = Nat.iter n (fun s => shift_step poly s) s2 -> s1 = s2.
Proof.
  intros Hp Ht. revert s1 s2. induction n as [|n IH]; intros s1 s2 H1 H2; [done|].
  rewrite !Nat.iter_succ_r. intros E. apply IH in E; [|by apply bit_step_range..].
  by apply shift_step_inj in E.
Qed.

Lemma same_suffix_inj poly z s1 s2 : 0 <= poly < 2 ^ 32 -> Z.testbit poly 31 = true ->
  0 <= s1 < 2 ^ 32 -> 0 <= s2 < 2 ^ 32 ->
  foldl (bit_step poly) s1 z = foldl (bit_step poly) s2 z -> s1 = s2.
Proof.
  intros Hp Ht. revert s1 s2. induction z as [|b z IH]; intros s1 s2 H1 H2; [done|]. cbn [foldl]. intros E.
  apply IH in E; [|by apply bit_step_range..].
  pose proof (absorb_bits poly [b] s1) as E1. pose proof (absorb_bits poly [b] s2) as E2.
  cbn [foldl length Nat.iter nat_rect bits_value] in E1, E2. rewrite E1, E2 in E.
  assert (0 <= bool_to_Z b + 2 * 0 < 2 ^ 32) by (destruct b; cbn; lia).
  apply shift_step_inj in E; [|done|done|by apply lxor_range..].
  apply (f_equal (fun x => Z.lxor x (bool_to_Z b + 2 * 0))) in E.
  by rewrite !Z.lxor_assoc, Z.lxor_nilpotent, !Z.lxor_0_r in E.
Qed.

(** ** Properties *)

(** C24: The checksum is the remainder of a polynomial division over GF(2): with the
    register's bits read as coefficients in reverse, initial value times [x^n] plus
    message times [x^32] is a multiple of [x^32 + poly] plus the checksum. *)
Theorem crc_is_remainder partial poly data :
  0 <= partial < 2 ^ 32 -> 0 <= poly < 2 ^ 32 ->
  let r := crc32_update partial poly data in
  0 <= r < 2 ^ 32 /\
  exists q, 0 <= q /\
    Z.lxor (clmul q (Z.lxor (2 ^ 32) (reflect 32 poly))) (reflect 32 r) =
    Z.lxor (Z.shiftl (reflect 32 partial) (8 * Z.of_nat (length data))) (Z.shiftl (message (data_bits data)) 32).
Proof.
  intros Hs Hp r. subst r. rewrite crc_bits.
  destruct (remainder_bits poly (data_bits data) Hp partial Hs) as (Hr & q & Hq & E).
  split; [done|]. exists q. split; [done|]. rewrite E, length_data_bits. do 2 f_equal. lia.
Qed.

(** C25: Two messages that differ only inside a window of at most 32 consecutive bits,
    wherever it lies relative to the bytes, have different checksums, for every initial
    value and every polynomial with a constant term. *)
Theorem crc_detects_bursts partial poly data data' before burst burst' after :
  0 <= partial < 2 ^ 32 -> 0 <= poly < 2 ^ 32 -> Z.testbit poly 31 = true ->
  data_bits data = before ++ burst ++ after -> data_bits data' = before ++ burst' ++ after ->
  length burst = length burst' -> (length burst <= 32)%nat -> burst <> burst' ->
  crc32_update partial poly data <> crc32_update partial poly data'.
Proof.
  intros Hs Hp Ht Ed Ed' L Hl Hne. rewrite !crc_bits, Ed, Ed', !foldl_app.
  destruct (remainder_bits poly before Hp partial Hs) as [Hb _]. set (s := foldl _ partial before) in *.
  intros E. apply same_suffix_inj in E; [|done|done|by apply remainder_bits..].
  rewrite !absorb_bits, <- L in E.
  assert (forall w : list bool, (length w <= 32)%nat -> 0 <= bits_value w < 2 ^ 32) as Hv.
  { intros w Hw. pose proof (bits_value_range w).
    pose proof (Z.pow_le_mono_r 2 (Z.of_nat (length w)) 32 ltac:(lia) ltac:(lia)). lia. }
  apply shift_steps_inj in E; [|done|done|apply lxor_range; [lia|done|apply Hv; lia]..].
  apply Hne, bits_value_inj; [done|].
  apply (f_equal (Z.lxor s)) in E. by rewrite <- !Z.lxor_assoc, Z.lxor_nilpotent, !Z.lxor_0_l in E.
Qed.

(** ** Witnesses *)

Lemma crc_is_remainder_witness :
  0 <= crc32_update 0xFFFFFFFF 0xEDB88320 [0x31; 0x32] < 2 ^ 32.
Proof. destruct (crc_is_remainder 0xFFFFFFFF 0xEDB88320 [0x31; 0x32]) as [H _]; [lia|lia|exact H]. Defined.

Lemma crc_detects_bursts_witness :
  crc32_update 0xFFFFFFFF 0xEDB88320 [1; 2; 3] <> crc32_update 0xFFFFFFFF 0xEDB88320 [1; 0xF2; 0x0C].
Proof.
  apply (crc_detects_bursts _ _ _ _ (take 12 (data_bits [1; 2; 3])) (take 8 (drop 12 (data_bits [1; 2; 3])))
    (take 8 (drop 12 (data_bits [1; 0xF2; 0x0C]))) (drop 20 (data_bits [1; 2; 3]))); try reflexivity; try lia.
  - cbn. lia.
  - discriminate.
Defined.
