(* ===== verification/Devices.v ===== *)
(** * AHCI and PCI helpers

    [ahci_find_cmdslot.rs], [ahci_is_sig_known.rs], [ahci_port_wait.rs],
    [pci_make_config_cmd.rs] and [swap_bytes_in_words.rs].  Device registers and the
    timer are read through callbacks; the [i]-th call of a callback is the [i]-th value
    of a stream. *)

From stdpp Require Import base list.
From Stdlib Require Import ZArith Lia.
From S2P Require Import Prelude.

(** ** The code *)

Definition U32_MAX : Z := 2 ^ 32 - 1.

Definition cmdslot_body (ncs : Z) (st : Z * Z) : run (Z * Z + Z) :=
  let '(i, bits) := st in
  if i <? ncs then
    if Z.land bits 1 =? 0 then Done (inr i)
    else Done (inl (i +ₘ 1, Z.shiftr bits 1))
  else Done (inr U32_MAX).

Definition ahci_find_cmdslot (slots ncs : Z) : run Z := loop (S (Z.to_nat ncs)) (cmdslot_body ncs) (0, slots).

Definition SATA_SIG_ATA : Z := 0x00000101.
Definition SATA_SIG_ATAPI : Z := 0xEB140101.
Definition SATA_SIG_SEMB : Z := 0xC33C0101.
Definition SATA_SIG_PM : Z := 0x96690101.

Definition ahci_is_sig_known (sig : Z) : Z :=
  if (sig =? SATA_SIG_ATA) || (sig =? SATA_SIG_ATAPI) || (sig =? SATA_SIG_SEMB) || (sig =? SATA_SIG_PM) then 1 else 0.

Definition ATA_DEV_BUSY_DRQ_MASK : Z := Z.lor 0x80 0x08.

(** Turn [i] reads the status for the [i]-th time and the timer for the [i+1]-st. *)
Definition port_wait_body (read_tfd : Z -> nat -> Z) (read_ticks : nat -> Z) (port deadline : Z) (i : nat) : run (nat + Z) :=
  let tfd := read_tfd port i in
  if Z.land tfd ATA_DEV_BUSY_DRQ_MASK =? 0 then Done (inr 0)
  else if deadline <=? read_ticks (S i) then Done (inr 1)
  else Done (inl (S i)).

Definition ahci_port_wait (fuel : nat) (read_tfd : Z -> nat -> Z) (read_ticks : nat -> Z) (port timeout : Z) : run Z :=
  let start := read_ticks 0%nat in
  let deadline := start +ₘ timeout in
  loop fuel (port_wait_body read_tfd read_ticks port deadline) 0%nat.

Definition pci_make_config_cmd (bus devfn reg : Z) : Z :=
  let bus := Z.land bus 0xff in
  let devfn := Z.land devfn 0xff in
  let reg := Z.land reg 0xff in
  Z.lor (Z.lor (Z.lor (bus <<ₘ 16) (devfn <<ₘ 8)) reg) 0x80000000.

Definition pci_make_config_cmd_from_regs (eax_in ebx : Z) : Z :=
  let bus := Z.land (Z.shiftr eax_in 8) 0xff in
  let devfn := Z.land (Z.shiftr ebx 8) 0xff in
  let reg := Z.land ebx 0xff in
  pci_make_config_cmd bus devfn reg.

Definition swap_body (base len : Z) (st : list Z * Z) : run (list Z * Z + list Z) :=
  let '(m, ecx) := st in
  if ecx <? len then
    let p := base + 2 * ecx in
    w ← ld16 m p;
    let swapped := swap_bytes16 w in
    m ← st16 m p swapped;
    Done (inl (m, ecx +ₘ 1))
  else Done (inr m).

Definition swap_bytes_in_words (m : list Z) (base len : Z) : run (list Z) :=
  loop (S (Z.to_nat len)) (swap_body base len) (m, 0).

(** ** Command slots *)

Lemma cmdslot_turn slots ncs i : (Z.of_nat i < ncs) -> ncs <= 32 -> 0 <= slots ->
  cmdslot_body ncs (Z.of_nat i, Z.shiftr slots (Z.of_nat i)) =
  Done (if negb (Z.testbit slots (Z.of_nat i)) then inr (Z.of_nat i)
        else inl (Z.of_nat (S i), Z.shiftr slots (Z.of_nat (S i)))).
Proof.
  intros Hi Hn Hs. unfold cmdslot_body. rewrite (proj2 (Z.ltb_lt _ _) Hi).
  rewrite (land_mask _ 1) by lia. unfold wrap at 1. change (2 ^ 1) with 2.
  rewrite Zmod_odd, <- Z.bit0_odd, Z.shiftr_spec, Z.add_0_l by lia.
  destruct (Z.testbit _ _); [|done]. cbn [negb Z.eqb].
  rewrite Z.shiftr_shiftr, wrap_small by lia. by replace (Z.of_nat (S i)) with (Z.of_nat i + 1) by lia.
Qed.

(** The lowest slot below [ncs] whose busy bit is clear; all ones when there is none. *)
Lemma cmdslot_first slots ncs : 0 <= slots -> 0 <= ncs <= 32 ->
  exists r, ahci_find_cmdslot slots ncs = Done r /\
  ((0 <= r < ncs /\ Z.testbit slots r = false /\ (forall j, 0 <= j < r -> Z.testbit slots j = true)) \/
   (r = U32_MAX /\ forall j, 0 <= j < ncs -> Z.testbit slots j = true)).
Proof.
  intros Hs Hn. unfold ahci_find_cmdslot.
  pose proof (scan_loop (cmdslot_body ncs) (fun i => (Z.of_nat i, Z.shiftr slots (Z.of_nat i))) (Z.to_nat ncs) 0
    (S (Z.to_nat ncs)) (fun i => negb (Z.testbit slots (Z.of_nat i))) Z.of_nat U32_MAX) as E.
  cbv beta in E. change (Z.of_nat 0) with 0 in E. rewrite Z.shiftr_0_r in E. rewrite E; clear E.
  - pose proof (first_from_spec (fun i => negb (Z.testbit slots (Z.of_nat i))) 0 (Z.to_nat ncs)) as Hf.
    eexists. split; [done|]. destruct (first_from _ _ _) as [j|].
    + destruct Hf as (? & Hj & Hb). left. apply negb_true_iff in Hj. split_and!; [lia..|done|].
      intros l Hl. specialize (Hb (Z.to_nat l) ltac:(lia)). rewrite Z2Nat.id in Hb by lia. by apply negb_false_iff.
    + right. split; [done|]. intros l Hl. specialize (Hf (Z.to_nat l) ltac:(lia)).
      rewrite Z2Nat.id in Hf by lia. by apply negb_false_iff.
  - intros i Hi. apply cmdslot_turn; lia.
  - unfold cmdslot_body. rewrite Z2Nat.id, (proj2 (Z.ltb_ge _ _)) by lia. done.
  - lia.
  - lia.
Qed.

(** ** Waiting for a port *)

Definition ready (tfd : Z) : bool := Z.land tfd ATA_DEV_BUSY_DRQ_MASK =? 0.

(** If the device becomes ready or the timer reaches the deadline, the wait ends: with
    success when no earlier or equal poll found the deadline passed first. *)
Lemma port_wait_ends read_tfd read_ticks port timeout k fuel :
  let deadline := read_ticks 0%nat +ₘ timeout in
  let over i := ready (read_tfd port i) || (deadline <=? read_ticks (S i)) in
  over k = true -> (forall i, (i < k)%nat -> over i = false) -> (k < fuel)%nat ->
  ahci_port_wait fuel read_tfd read_ticks port timeout = Done (if ready (read_tfd port k) then 0 else 1).
Proof.
  intros deadline over Hk Hb Hf. unfold ahci_port_wait. fold deadline.
  assert (forall n i, (i + n = k)%nat -> (n < fuel - i)%nat ->
    loop (fuel - i) (port_wait_body read_tfd read_ticks port deadline) i = Done (if ready (read_tfd port k) then 0 else 1)) as H.
  { intros n. induction n as [|n IH]; intros i Hi Hn; (destruct (fuel - i)%nat as [|f] eqn:Ef; [lia|]); rewrite loop_S;
      unfold port_wait_body at 2; fold (ready (read_tfd port i)).
    - rewrite Nat.add_0_r in Hi. subst i. unfold over in Hk. destruct (ready _); [done|]. cbn in Hk. by rewrite Hk.
    - specialize (Hb i ltac:(lia)). unfold over in Hb. apply orb_false_iff in Hb as [-> ->]. run_step.
      replace f with (fuel - S i)%nat by lia. apply IH; lia. }
  specialize (H k 0%nat ltac:(lia) ltac:(lia)). by rewrite Nat.sub_0_r in H.
Qed.

(** ** Configuration addresses *)

Lemma pci_config_eq bus devfn reg : is_byte bus -> is_byte devfn -> is_byte reg ->
  pci_make_config_cmd bus devfn reg = 2 ^ 31 + bus * 2 ^ 16 + devfn * 2 ^ 8 + reg.
Proof.
  unfold is_byte, pci_make_config_cmd. intros Hb Hd Hr.
  rewrite !(land_mask _ 8), !(wrap_small 8) by lia.
  rewrite !shl_fold by lia.
  replace (bus * 2 ^ 16) with (bus * 2 ^ 8 * 2 ^ 8) by lia.
  replace (Z.lor (bus * 2 ^ 8 * 2 ^ 8) (devfn * 2 ^ 8)) with ((bus * 2 ^ 8 + devfn) * 2 ^ 8)
    by (rewrite <- (lor_mul_add bus devfn 8), <- !Z.shiftl_mul_pow2, Z.shiftl_lor by lia; done).
  rewrite lor_mul_add by lia. change 0x80000000 with (1 * 2 ^ 31). rewrite lor_tag by lia. lia.
Qed.

(** Distinct registers have distinct addresses. *)
Lemma pci_config_inj bus devfn reg bus' devfn' reg' :
  is_byte bus -> is_byte devfn -> is_byte reg -> is_byte bus' -> is_byte devfn' -> is_byte reg' ->
  pci_make_config_cmd bus devfn reg = pci_make_config_cmd bus' devfn' reg' ->
  bus = bus' /\ devfn = devfn' /\ reg = reg'.
Proof. intros ??????. rewrite !pci_config_eq by done. unfold is_byte in *. lia. Qed.

(** ** Byte order of words *)

Lemma swap_turn m base len i : bytes m -> 0 <= base -> base + 2 * len <= mlen m -> len < 2 ^ 32 -> 0 <= i < len ->
  exists m', swap_body base len (m, i) = Done (inl (m', i + 1)) /\ bytes m' /\
    updated m m' (base + 2 * i) 2 (fun k => byte_at m (base + 2 * i + 1 - k)).
Proof.
  intros Hm Hb Hl Hn Hi. unfold swap_body. rewrite (proj2 (Z.ltb_lt _ _)) by lia.
  rewrite ld16_ok by lia. run_step. unfold word16_at.
  pose proof (byte_at_range m (base + 2 * i) Hm). pose proof (byte_at_range m (base + 2 * i + 1) Hm).
  rewrite swap16_le2 by done.
  destruct (st16_ok m (base + 2 * i) (le2 (byte_at m (base + 2 * i + 1)) (byte_at m (base + 2 * i)))) as (m' & -> & Hu); [lia..|].
  run_step. rewrite wrap_small by lia. exists m'. split; [done|].
  split; [eapply bytes_updated; [done|done|intros; apply byte_of_range]|].
  destruct Hu as [Hlen Hu]. split; [done|]. intros a. rewrite Hu.
  destruct (byte_of_le2 (byte_at m (base + 2 * i + 1)) (byte_at m (base + 2 * i))) as [E0 E1]; [done..|].
  case_match; [|done]. assert (a - (base + 2 * i) = 0 \/ a - (base + 2 * i) = 1) as [->| ->] by lia;
    rewrite ?E0, ?E1; f_equal; lia.
Qed.

(** The byte that ends up at offset [k] of the swapped window. *)
Definition partner (k : Z) : Z := if Z.even k then k + 1 else k - 1.

Lemma partner_range k n : 0 <= k < 2 * n -> 0 <= partner k < 2 * n.
Proof. unfold partner. intros. pose proof (Z.mod_eq k 2). pose proof (Zmod_even k).
  destruct (Z.even k); lia. Qed.

Lemma partner_partner k : partner (partner k) = k.
Proof.
  unfold partner. destruct (Z.even k) eqn:E.
  - rewrite Z.even_add, E. cbn. lia.
  - rewrite Z.even_sub, E. cbn. lia.
Qed.

Lemma swap_loop m base len : bytes m -> 0 <= base -> base + 2 * len <= mlen m -> 0 <= len < 2 ^ 32 ->
  exists m', swap_bytes_in_words m base len = Done m' /\ bytes m' /\ updated m m' base (2 * len) (fun k => byte_at m (base + partner k)).
Proof.
  intros Hm Hb Hl Hn. unfold swap_bytes_in_words.
  destruct (loop_total (fun st : list Z * Z => let '(m', i) := st in 0 <= i <= len /\ bytes m' /\
      updated m m' base (2 * i) (fun k => byte_at m (base + partner k)))
    (fun st => Z.to_nat (len - st.2))
    (fun m' => bytes m' /\ updated m m' base (2 * len) (fun k => byte_at m (base + partner k)))
    (swap_body base len)) with (fuel := S (Z.to_nat len)) (s := (m, 0)) as (m' & E & H); [| |cbn; lia|by exists m'].
  - intros [m1 i] (Hi & Hm1 & Hl1 & Hu). destruct (Z.eq_dec i len) as [->|].
    { exists (inr m1). unfold swap_body. rewrite Z.ltb_irrefl. done. }
    destruct (swap_turn m1 base len i) as (m2 & E & Hm2 & Hl2 & Hu2); [done|lia..|].
    eexists. split; [exact E|]. cbn beta iota. split; [|cbn; lia]. split_and!; [lia..|done|].
    split; [lia|]. intros a. rewrite Hu2.
    destruct (Z.leb_spec (base + 2 * i) a), (Z.ltb_spec a (base + 2 * i + 2)); cbn [andb]; rewrite !Hu.
    2-4: repeat case_match; try done; lia.
    replace ((base <=? a) && (a <? base + 2 * (i + 1))) with true by lia.
    replace ((base <=? _) && (_ <? base + 2 * i)) with false by lia.
    f_equal. unfold partner. assert (a = base + 2 * i \/ a = base + 2 * i + 1) as [->| ->] by lia.
    + replace (base + 2 * i - base) with (2 * i) by lia. rewrite Z.even_mul. cbn. lia.
    + replace (base + 2 * i + 1 - base) with (1 + 2 * i) by lia. rewrite Z.even_add_mul_2. cbn. lia.
  - split_and!; [lia..|done|apply updated_refl].
Qed.

(** Swapping twice restores the memory. *)
Lemma swap_involutive m base len : bytes m -> 0 <= base -> base + 2 * len <= mlen m -> 0 <= len < 2 ^ 32 ->
  (m ← swap_bytes_in_words m base len; swap_bytes_in_words m base len) = Done m.
Proof.
  intros Hm Hb Hl Hn. destruct (swap_loop m base len) as (m1 & -> & Hm1 & Hl1 & H1); [done..|]. run_step.
  destruct (swap_loop m1 base len) as (m2 & -> & _ & Hl2 & H2); [done|lia..|]. f_equal.
  apply mem_ext; [lia|]. intros a _. rewrite H2. destruct ((base <=? a) && (a <? base + 2 * len)) eqn:E.
  - pose proof (partner_range (a - base) len ltac:(lia)). rewrite H1.
    replace ((base <=? _) && (_ <? base + 2 * len)) with true by lia.
    replace (base + partner (a - base) - base) with (partner (a - base)) by lia. rewrite partner_partner. f_equal. lia.
  - rewrite H1, E. done.
Qed.
