(* ===== verification/Iso.v ===== *)
(** * ISO 9660 names

    [iso9660_copy_name.rs] turns the name of a directory record (single bytes, or
    UCS-2 big endian on Joliet volumes) into the encoding a program asked for;
    [iso9660_compare_name.rs] decides whether a UTF-8 path component names a record.
    [iso_copy_name] gives the exact output of the first for every pair of encodings,
    [iso_compare_name] the exact verdict of the second, and [iso_listed_name_opens]
    joins them: a name as listed is found again. *)

From stdpp Require Import base list.
From Stdlib Require Import ZArith Lia.
From S2P Require Import Prelude Unicode Utf8Stream.

(** ** The code *)

Record Iso9660CopyNameResult := mkCopy { c_esi : Z; c_edi : Z }.

(** ASCII source, target CP866: the bytes as they are. *)
Definition ascii_cp866_body (st : list Z * Z * Z * Z) : run (list Z * Z * Z * Z + list Z * Z * Z) :=
  let '(m, esi, edi, ecx) := st in
  if negb (ecx =? 0) then
    b ← ld8 m esi;
    m ← st8 m edi b;
    Done (inl (m, esi +ₘ 1, edi +ₘ 1, ecx -ₘ 1))
  else Done (inr (m, esi, edi)).

Definition ascii_utf16_body (st : list Z * Z * Z * Z) : run (list Z * Z * Z * Z + list Z * Z * Z) :=
  let '(m, esi, edi, ecx) := st in
  if negb (ecx =? 0) then
    al ← ld8 m esi;
    let esi := esi +ₘ 1 in
    let ax := u16 (cp866_decode al) in
    m ← st8 m edi (u8 (Z.land ax 0xFF));
    m ← st8 m (edi + 1) (u8 (Z.shiftr ax 8));
    Done (inl (m, esi, edi +ₘ 2, ecx -ₘ 1))
  else Done (inr (m, esi, edi)).

Definition ascii_utf8_body (st : list Z * Z * Z * Z) : run (list Z * Z * Z * Z + list Z * Z * Z) :=
  let '(m, esi, edi, ecx) := st in
  al ← ld8 m esi;
  let esi := esi +ₘ 1 in
  let uni := cp866_decode al in
  '(m, r) ← utf16_to_8 m (u16 uni) edi ecx;
  let ecx := r_ecx r in
  let edi := if negb (edi_delta r =? 0) then edi +ₘ edi_delta r else edi in
  if negb (r_sf r =? 0) then Done (inr (m, esi, edi))
  else if uni =? 0 then Done (inr (m, esi, edi))
  else Done (inl (m, esi, edi, ecx)).

Definition ucs_cp866_body (st : list Z * Z * Z * Z) : run (list Z * Z * Z * Z + list Z * Z * Z) :=
  let '(m, esi, edi, ecx) := st in
  if negb (ecx =? 0) then
    b0 ← ld8 m esi;
    b1 ← ld8 m (esi + 1);
    let esi := esi +ₘ 2 in
    let ax := Z.lor (u16 (Z.shiftl b0 8)) b1 in
    al ← cp866_encode ax;
    m ← st8 m edi (u8 al);
    Done (inl (m, esi, edi +ₘ 1, ecx -ₘ 1))
  else Done (inr (m, esi, edi)).

Definition ucs_utf16_body (st : list Z * Z * Z * Z) : run (list Z * Z * Z * Z + list Z * Z * Z) :=
  let '(m, esi, edi, ecx) := st in
  if negb (ecx =? 0) then
    b0 ← ld8 m esi;
    b1 ← ld8 m (esi + 1);
    let esi := esi +ₘ 2 in
    m ← st8 m edi b1;
    m ← st8 m (edi + 1) b0;
    Done (inl (m, esi, edi +ₘ 2, ecx -ₘ 1))
  else Done (inr (m, esi, edi)).

Definition ucs_utf8_body (st : list Z * Z * Z * Z * Z) : run (list Z * Z * Z * Z * Z + list Z * Z * Z) :=
  let '(m, esi, edi, ecx, ebx) := st in
  if negb (ebx =? 0) then
    b0 ← ld8 m esi;
    b1 ← ld8 m (esi + 1);
    let esi := esi +ₘ 2 in
    let ax := Z.lor (u16 (Z.shiftl b0 8)) b1 in
    '(m, r) ← utf16_to_8 m ax edi ecx;
    let ecx := r_ecx r in
    let edi := if negb (edi_delta r =? 0) then edi +ₘ edi_delta r else edi in
    Done (inl (m, esi, edi, ecx, ebx -ₘ 1))
  else Done (inr (m, esi, edi)).

Definition iso9660_copy_name (m : list Z) (src dest max_len nameenc type_encoding : Z)
    : run (list Z * Iso9660CopyNameResult) :=
  let ecx := max_len in
  '(m, esi, edi) ←
    (if type_encoding =? 0 then
       if nameenc =? 1 then loop (S (Z.to_nat ecx)) ascii_cp866_body (m, src, dest, ecx)
       else if nameenc =? 2 then loop (S (Z.to_nat ecx)) ascii_utf16_body (m, src, dest, ecx)
       else if nameenc =? 3 then loop (S (length m)) ascii_utf8_body (m, src, dest, ecx)
       else Done (m, src, dest)
     else
       let ecx := Z.shiftr ecx 1 in
       if nameenc =? 1 then loop (S (Z.to_nat ecx)) ucs_cp866_body (m, src, dest, ecx)
       else if nameenc =? 2 then loop (S (Z.to_nat ecx)) ucs_utf16_body (m, src, dest, ecx)
       else if nameenc =? 3 then
         let ebx := ecx in
         let ecx := ecx <<ₘ 1 in
         loop (S (Z.to_nat ebx)) ucs_utf8_body (m, src, dest, ecx, ebx)
       else Done (m, src, dest));
  m ← st8 m edi 0;
  m ← (if negb (type_encoding =? 0) then st8 m (edi + 1) 0 else Done m);
  Done (m, mkCopy esi edi).

(** The pointer form updates [*esi_inout] and [*edi_inout]. *)
Definition iso9660_copy_name_ptr (m : list Z) (esi_inout edi_inout max_len nameenc type_encoding : Z) : run (list Z * Z * Z) :=
  '(m, r) ← iso9660_copy_name m esi_inout edi_inout max_len nameenc type_encoding;
  Done (m, c_esi r, c_edi r).

(** *** Comparing *)

Definition ISO9660_DIR_OFF_NAME_LEN : Z := 32.
Definition ISO9660_DIR_OFF_NAME : Z := 33.

Record Iso9660CompareNameResult := mkCompare { matched : bool; esi_advance : Z }.

Definition matched_advance (start esi : Z) : Iso9660CompareNameResult := mkCompare true (esi -ₘ start).
Definition no_match : Iso9660CompareNameResult := mkCompare false 0.

(** The checks after the last character ([.done]). *)
Definition end_of_name (m : list Z) (utf8 esi edi name_end : Z) (ascii : bool) : run Iso9660CompareNameResult :=
  semicolon ← (if ascii then b ← ld8 m edi; Done (b =? 59)
               else w ← ld16 m edi; Done (w =? 0x3B00));
  if semicolon : bool then Done (matched_advance utf8 esi)
  else if edi =? name_end then Done (matched_advance utf8 esi)
  else Done no_match.

Definition compare_body (m : list Z) (utf8 name_end : Z) (ascii : bool) (st : Z * Z * Z)
    : run (Z * Z * Z + Iso9660CompareNameResult) :=
  let '(esi, edi, eax) := st in
  '(esi, eax) ← utf8to16_ptr m esi eax;
  let edx := utf16_to_upper (u16 eax) in
  ax ← ld16 m edi;
  let '(ax, edi) := if ascii then (u16 (Z.shiftl ax 8), edi - 1) else (ax, edi) in
  let ax := swap_bytes16 ax in
  let eax := utf16_to_upper ax in
  if negb (u16 eax =? u16 edx) then Done (inr no_match)
  else
    let edi := edi + 2 in
    next ← ld8 m esi;
    if (next =? 47) || (next =? 0) then
      r ← end_of_name m utf8 esi edi name_end ascii;
      Done (inr r)
    else Done (inl (esi, edi, eax)).

Definition iso9660_compare_name (m : list Z) (utf8 dir_record type_encoding : Z) : run Iso9660CompareNameResult :=
  let name_base := dir_record + ISO9660_DIR_OFF_NAME in
  name_len ← ld8 m (dir_record + ISO9660_DIR_OFF_NAME_LEN);
  let name_end := name_base + name_len in
  let ascii := type_encoding =? 0 in
  loop (S (length m)) (compare_body m utf8 name_end ascii) (utf8, name_base, 0).

(** Returns the new [*esi_inout] and 0 (found) or 1. *)
Definition iso9660_compare_name_ptr (m : list Z) (esi_inout dir_record type_encoding : Z) : run (Z * Z) :=
  r ← iso9660_compare_name m esi_inout dir_record type_encoding;
  if matched r then Done (esi_inout + esi_advance r, 0) else Done (esi_inout, 1).

(** ** Specification: the characters of a name *)

Section Names.
Variable ascii : bool.

Definition unit_width : Z := if ascii then 1 else 2.

(** The stored unit: a byte, or a big-endian word. *)
Definition unit_at (m : list Z) (a : Z) : Z :=
  if ascii then byte_at m a else le2 (byte_at m (a + 1)) (byte_at m a).

(** The character a unit stands for when it is copied. *)
Definition char_of (u : Z) : Z := if ascii then cp866_decode u else u.

Definition encode866 (c : Z) : Z := match cp866_encode c with Done b => b | _ => 0 end.

Definition utf16_bytes (c : Z) : list Z := [c mod 256; c / 256].

(** What is stored for the units [us], without terminator; the UTF-8 form has as many
    bytes of room as the name itself. *)
Definition copied (nameenc : Z) (us : list Z) : list Z :=
  if nameenc =? 1 then (if ascii then us else encode866 <$> us)
  else if nameenc =? 2 then mjoin (utf16_bytes ∘ char_of <$> us)
  else if nameenc =? 3 then (encode_fit (char_of <$> us) (unit_width * mlen us)).1
  else [].

Definition terminator : list Z := if ascii then [0] else [0; 0].
End Names.

(** [us] are the units of the name at [src]. *)
Definition name_at (ascii : bool) (m : list Z) (src : Z) (us : list Z) : Prop :=
  text_at (unit_width ascii) (unit_at ascii) m src us.

(** ** Lemmas *)

#[global] Instance unit_chars ascii : Chars (unit_width ascii) (unit_at ascii).
Proof.
  split; [by destruct ascii|]. intros m m' a H.
  destruct ascii; cbn in *; by rewrite !H by lia.
Qed.

Lemma unit_range ascii m a : bytes m -> 0 <= unit_at ascii m a < (if ascii then 256 else 65536).
Proof.
  intros Hm. pose proof (byte_at_range m a Hm). pose proof (byte_at_range m (a + 1) Hm).
  unfold unit_at, le2, is_byte in *. destruct ascii; lia.
Qed.

Lemma be_word b0 b1 : is_byte b0 -> is_byte b1 -> Z.lor (u16 (Z.shiftl b0 8)) b1 = le2 b1 b0.
Proof.
  unfold is_byte, le2, wrap. intros. rewrite Z.shiftl_mul_pow2 by lia.
  rewrite Z.mod_small by lia. rewrite lor_mul_add by lia. lia.
Qed.

(** Loops that turn every unit into the same number of bytes. *)
Section FixedRate.
Context (body : list Z * Z * Z * Z -> run (list Z * Z * Z * Z + list Z * Z * Z)).
Context (ascii : bool) (k : Z) (enc : Z -> list Z).
Local Abbreviation w := (unit_width ascii).
Hypothesis rate : forall u, mlen (enc u) = k.
Hypothesis enc_bytes : forall m a i, bytes m -> is_byte (byte_at (enc (unit_at ascii m a)) i).
Hypothesis turn : forall m esi edi ecx, bytes m -> mlen m < 2 ^ 32 -> 0 <= esi -> esi + w <= mlen m ->
  0 <= edi -> edi + k <= mlen m -> 0 < ecx < 2 ^ 32 ->
  exists m', body (m, esi, edi, ecx) = Done (inl (m', esi + w, edi + k, ecx - 1)) /\
    updated m m' edi k (byte_at (enc (unit_at ascii m esi))).
Hypothesis stop : forall m esi edi, body (m, esi, edi, 0) = Done (inr (m, esi, edi)).

Lemma fixed_loop us : forall m esi edi n, bytes m -> mlen m < 2 ^ 32 -> name_at ascii m esi us ->
  0 <= edi -> edi + k * mlen us <= mlen m -> disjoint esi (w * mlen us) edi (k * mlen us) ->
  (length us < n)%nat ->
  exists m', loop n body (m, esi, edi, mlen us) = Done (m', esi + w * mlen us, edi + k * mlen us) /\
    updated m m' edi (mlen (mjoin (enc <$> us))) (byte_at (mjoin (enc <$> us))) /\
    mlen (mjoin (enc <$> us)) = k * mlen us.
Proof.
  assert (0 <= k) as Hk by (rewrite <- (rate 0); apply mlen_nonneg).
  pose proof (width_pos (width := w) (char_at := unit_at ascii)) as Hw.
  induction us as [|u us IH]; intros m esi edi n Hm Hlm Htx Hd Hfit Hdj Hn;
    (destruct n as [|n]; [lia|]); rewrite loop_S.
  - change (mlen []) with 0. rewrite stop, !Z.mul_0_r, !Z.add_0_r. exists m.
    split_and!; [done|apply updated_refl|done].
  - destruct (text_at_cons _ _ _ _ Htx) as (Hu & Htx' & Hfit1). pose proof (mlen_nonneg us).
    rewrite mlen_cons in *. unfold disjoint in Hdj.
    destruct (turn m esi edi (mlen us + 1)) as (m1 & -> & Hu1); [done|done|apply Htx|done|done|nia| |].
    { destruct Htx as (? & ? & _). rewrite mlen_cons in *. nia. }
    run_step. rewrite Hu in *. replace (mlen us + 1 - 1) with (mlen us) by lia.
    destruct (IH m1 (esi + w) (edi + k) n) as (m2 & E & Hu2 & L).
    + eapply bytes_updated; [done|done|]. intros i _. rewrite <- Hu. by apply enc_bytes.
    + by destruct Hu1 as [-> _].
    + eapply text_at_frame; [done..|]. unfold disjoint. nia.
    + lia.
    + destruct Hu1 as [-> _]. nia.
    + unfold disjoint. nia.
    + cbn in Hn. lia.
    + exists m2. rewrite fmap_cons, mjoin_cons, mlen_app, rate, L. split_and!; [|..|lia].
      * rewrite E. do 2 f_equal; [f_equal|]; lia.
      * rewrite <- (rate u) in Hu1, Hu2. pose proof (updated_app _ _ _ _ _ _ Hd Hu1 Hu2) as Ha.
        by rewrite mlen_app, rate, L in Ha.
Qed.
End FixedRate.

(** One or two stored bytes. *)
Lemma store1 m edi b : 0 <= edi -> edi + 1 <= mlen m ->
  exists m', st8 m edi b = Done m' /\ updated m m' edi 1 (byte_at [b]).
Proof.
  intros. destruct (updated_st8 m m edi 0 (byte_at [b]) b) as (m' & E & Hu); [lia..|apply updated_refl|done|].
  rewrite Z.add_0_r in E. eauto.
Qed.

Lemma store2 m edi b0 b1 : 0 <= edi -> edi + 2 <= mlen m ->
  exists m', (m ← st8 m edi b0; st8 m (edi + 1) b1) = Done m' /\ updated m m' edi 2 (byte_at [b0; b1]).
Proof.
  intros. destruct (updated_st8 m m edi 0 (byte_at [b0; b1]) b0) as (m1 & E & H1); [lia..|apply updated_refl|done|].
  rewrite Z.add_0_r in E. rewrite E. run_step.
  destruct (updated_st8 m m1 edi 1 (byte_at [b0; b1]) b1) as (m2 & E2 & H2); [lia..|done|done|]. eauto.
Qed.

Lemma encode866_ok c : 0 <= c < 65536 -> cp866_encode c = Done (encode866 c).
Proof.
  intros Hc. pose proof (cp866_encode_all c Hc) as H. unfold cp866_encode_ok, encode866 in *.
  by destruct (cp866_encode c).
Qed.

Lemma encode866_range c : 0 <= c < 65536 -> 0 <= encode866 c < 2 ^ 8.
Proof.
  intros Hc. pose proof (encode866_ok c Hc) as E. revert E. generalize (encode866 c). intros r.
  assert (special_40x (u16 c) = Done r -> 0 <= r < 2 ^ 8) as Hs.
  { apply (loop_partial (fun _ => True) (fun r => 0 <= r < 2 ^ 8)); [|done]. intros [ecx i] s _ Hb. unfold special_40x_body in Hb.
    destruct (i <? 8); [|by injection Hb as <-]. apply bind_Done in Hb as (t & _ & Hb).
    destruct (t =? _); injection Hb as <-; [by apply wrap_range|done]. }
  unfold cp866_encode. repeat case_match; try exact Hs; intros [= <-]; (by apply wrap_range) || lia.
Qed.

Lemma utf16_bytes_ok c : 0 <= c < 65536 -> bytes (utf16_bytes c).
Proof. intros. unfold utf16_bytes. repeat constructor; unfold is_byte; Z.div_mod_to_equations; lia. Qed.

Lemma low_high c : 0 <= c < 65536 -> u8 (Z.land c 0xFF) = c mod 256 /\ u8 (Z.shiftr c 8) = c / 256.
Proof.
  intros. rewrite (land_mask _ 8), wrap_wrap, shr_eq by lia. split; [done|].
  apply wrap_small. Z.div_mod_to_equations. lia.
Qed.

(** A branch of [iso9660_copy_name] stores [bs] and stops behind it. *)
Definition emits (c : run (list Z * Z * Z)) (m : list Z) (esi edi : Z) (bs : list Z) : Prop :=
  exists m', c = Done (m', esi, edi + mlen bs) /\ updated m m' edi (mlen bs) (byte_at bs).

Section Branches.
Context (m : list Z) (src dest : Z) (us : list Z).
Hypothesis Hm : bytes m.
Hypothesis Hlm : mlen m < 2 ^ 32.
Hypothesis Hd : 0 <= dest.

Lemma fixed_emits body ascii k enc n :
  name_at ascii m src us -> dest + k * mlen us <= mlen m ->
  disjoint src (unit_width ascii * mlen us) dest (k * mlen us) ->
  (forall u, mlen (enc u) = k) -> (forall m a, bytes m -> bytes (enc (unit_at ascii m a))) ->
  (forall m esi edi ecx, bytes m -> mlen m < 2 ^ 32 -> 0 <= esi -> esi + unit_width ascii <= mlen m ->
    0 <= edi -> edi + k <= mlen m -> 0 < ecx < 2 ^ 32 ->
    exists m', body (m, esi, edi, ecx) = Done (inl (m', esi + unit_width ascii, edi + k, ecx - 1)) /\
      updated m m' edi k (byte_at (enc (unit_at ascii m esi)))) ->
  (forall m esi edi, body (m, esi, edi, 0) = Done (inr (m, esi, edi))) -> (length us < n)%nat ->
  emits (loop n body (m, src, dest, mlen us)) m (src + unit_width ascii * mlen us) dest (mjoin (enc <$> us)).
Proof.
  intros Htx Hfit Hdj Hk Hb Hturn Hstop Hn.
  destruct (fixed_loop body ascii k enc Hk (fun m a i Hm => byte_at_range _ i (Hb m a Hm)) Hturn Hstop us m src dest n)
    as (m' & E & Hu & L); try done.
  exists m'. by rewrite L in *.
Qed.

Lemma ascii_cp866_emits n : name_at true m src us -> dest + mlen us <= mlen m ->
  disjoint src (mlen us) dest (mlen us) -> (length us < n)%nat ->
  emits (loop n ascii_cp866_body (m, src, dest, mlen us)) m (src + mlen us) dest us.
Proof.
  intros Htx Hfit Hdj Hn.
  replace us with (mjoin ((fun u => [u]) <$> us)) at 3
    by (clear; induction us as [|u l IH]; [done|]; rewrite fmap_cons, mjoin_cons, IH; done).
  rewrite <- (Z.mul_1_l (mlen us)) at 2. apply (fixed_emits ascii_cp866_body true 1 (fun u => [u]));
    rewrite ?Z.mul_1_l; cbn [unit_width]; try done.
  - intros. repeat constructor; by apply (unit_range true).
  - clear. intros m esi edi ecx Hm Hlm Hs Hsw Hd Hdw He. unfold ascii_cp866_body.
    replace (ecx =? 0) with false by lia. cbn [negb]. rewrite ld8_ok by lia. run_step.
    destruct (store1 m edi (byte_at m esi)) as (m' & -> & Hu); [lia..|]. run_step.
    exists m'. by rewrite !wrap_small by lia.
Qed.

Lemma ascii_utf16_emits n : name_at true m src us -> dest + 2 * mlen us <= mlen m ->
  disjoint src (mlen us) dest (2 * mlen us) -> (length us < n)%nat ->
  emits (loop n ascii_utf16_body (m, src, dest, mlen us)) m (src + mlen us) dest (mjoin (utf16_bytes ∘ char_of true <$> us)).
Proof.
  intros Htx Hfit Hdj Hn. rewrite <- (Z.mul_1_l (mlen us)) at 2.
  apply (fixed_emits ascii_utf16_body true 2 (utf16_bytes ∘ char_of true));
    rewrite ?Z.mul_1_l; cbn [unit_width]; try done.
  - intros m0 a H0. apply utf16_bytes_ok, cp866_decode_range, (unit_range true m0 a H0).
  - clear. intros m esi edi ecx Hm Hlm Hs Hsw Hd Hdw He. unfold ascii_utf16_body.
    replace (ecx =? 0) with false by lia. cbn [negb]. rewrite ld8_ok by lia. run_step.
    pose proof (cp866_decode_range _ (byte_at_range m esi Hm)).
    rewrite (wrap_small 16) by lia. destruct (low_high (cp866_decode (byte_at m esi))) as [-> ->]; [done|].
    destruct (store2 m edi (cp866_decode (byte_at m esi) mod 256) (cp866_decode (byte_at m esi) / 256))
      as (m' & E & Hu); [lia..|].
    apply bind_Done in E as (m1 & -> & E). run_step. rewrite E. run_step.
    exists m'. by rewrite !wrap_small by lia.
Qed.

Lemma ucs_cp866_emits n : name_at false m src us -> dest + mlen us <= mlen m ->
  disjoint src (2 * mlen us) dest (mlen us) -> (length us < n)%nat ->
  emits (loop n ucs_cp866_body (m, src, dest, mlen us)) m (src + 2 * mlen us) dest (encode866 <$> us).
Proof.
  intros Htx Hfit Hdj Hn.
  replace (encode866 <$> us) with (mjoin ((fun u => [encode866 u]) <$> us))
    by (clear; induction us as [|u l IH]; [done|]; rewrite !fmap_cons, mjoin_cons, IH; done).
  apply (fixed_emits ucs_cp866_body false 1 (fun u => [encode866 u]));
    rewrite ?Z.mul_1_l; try done.
  - intros m0 a H0. pose proof (unit_range false m0 a H0) as Hr.
    apply Forall_cons_2; [by apply encode866_range|done].
  - clear. intros m esi edi ecx Hm Hlm Hs Hsw Hd Hdw He. cbn [unit_width] in *. unfold ucs_cp866_body.
    replace (ecx =? 0) with false by lia. cbn [negb]. rewrite !ld8_ok by lia. run_step.
    rewrite be_word by (by apply byte_at_range). fold (unit_at false m esi).
    pose proof (unit_range false m esi Hm). rewrite encode866_ok by done. run_step.
    rewrite (wrap_small 8) by (by apply encode866_range).
    destruct (store1 m edi (encode866 (unit_at false m esi))) as (m' & -> & Hu); [lia..|]. run_step.
    exists m'. by rewrite !wrap_small by lia.
Qed.

Lemma ucs_utf16_emits n : name_at false m src us -> dest + 2 * mlen us <= mlen m ->
  disjoint src (2 * mlen us) dest (2 * mlen us) -> (length us < n)%nat ->
  emits (loop n ucs_utf16_body (m, src, dest, mlen us)) m (src + 2 * mlen us) dest (mjoin (utf16_bytes ∘ char_of false <$> us)).
Proof.
  intros Htx Hfit Hdj Hn.
  apply (fixed_emits ucs_utf16_body false 2 (utf16_bytes ∘ char_of false)); try done.
  - intros m0 a H0. apply utf16_bytes_ok. apply (unit_range false m0 a H0).
  - clear. intros m esi edi ecx Hm Hlm Hs Hsw Hd Hdw He. cbn [unit_width] in *. unfold ucs_utf16_body.
    replace (ecx =? 0) with false by lia. cbn [negb]. rewrite !ld8_ok by lia. run_step.
    destruct (store2 m edi (byte_at m (esi + 1)) (byte_at m esi)) as (m' & E & Hu); [lia..|].
    apply bind_Done in E as (m1 & -> & E). run_step. rewrite E. run_step.
    exists m'. rewrite !wrap_small by lia. split; [done|]. cbn. unfold utf16_bytes, char_of, unit_at, le2.
    pose proof (byte_at_range m (esi + 1) Hm). unfold is_byte in *.
    replace ((byte_at m (esi + 1) + 256 * byte_at m esi) mod 256) with (byte_at m (esi + 1)) by (Z.div_mod_to_equations; lia).
    replace ((byte_at m (esi + 1) + 256 * byte_at m esi) / 256) with (byte_at m esi) by (Z.div_mod_to_equations; lia).
    done.
Qed.
End Branches.

(** *** UTF-8 *)

(** Room for one byte per character: the character after the name never fits. *)
Lemma encode_fit_app us c b : b <= mlen us ->
  encode_fit (us ++ [c]) b = ((encode_fit us b).1, (encode_fit us b).2 ++ [c]).
Proof.
  revert b. induction us as [|u us IH]; intros b Hb.
  - change (mlen []) with 0 in Hb. pose proof (utf8_len_pos c). cbn. by replace (utf8_len c <=? b) with false by lia.
  - rewrite mlen_cons in Hb. pose proof (utf8_len_pos u). cbn [encode_fit app].
    destruct (utf8_len u <=? b); [|done]. rewrite IH by lia. by destruct (encode_fit us _).
Qed.

Lemma stops_app us c b : Forall (fun u => u <> 0) us -> b <= mlen us -> stops (us ++ [c]) b.
Proof.
  intros Hu. revert b. induction Hu as [|u us Hu0 Hu IH]; intros b Hb.
  - apply stops_full. change (mlen []) with 0 in Hb. pose proof (utf8_len_pos c). lia.
  - rewrite mlen_cons in Hb. pose proof (utf8_len_pos u). cbn [app]. apply stops_cons; [done|]. apply IH. lia.
Qed.

Lemma ascii_utf8_as_string st : ascii_utf8_body st =
  (fun r => match r with inl s => inl s | inr (m, r) => inr (m, s_esi r, s_edi r) end) <$> cp866_string_body st.
Proof.
  destruct st as [[[m esi] edi] ecx]. unfold ascii_utf8_body, cp866_string_body.
  destruct (ld8 m esi) as [al| |]; try done. run_step.
  destruct (utf16_to_8 _ _ _ _) as [[m' r]| |]; try done. run_step.
  by destruct (negb (r_sf r =? 0)), (cp866_decode al =? 0).
Qed.

Lemma cp866_decode_nonzero b : is_byte b -> b <> 0 -> cp866_decode b <> 0.
Proof.
  intros H Hb. assert ((b =? 0) || negb (cp866_decode b =? 0) = true) as E; [|lia].
  revert b H Hb. intros b H _. revert b H.
  apply (forall_range_spec 0 256 (fun b => (b =? 0) || negb (cp866_decode b =? 0))). by vm_compute.
Qed.

Section Utf8Branches.
Context (m : list Z) (src dest : Z) (us : list Z).
Hypothesis Hm : bytes m.
Hypothesis Hlm : mlen m < 2 ^ 32.
Hypothesis Hd : 0 <= dest.

Lemma name_chars ascii : name_at ascii m src us ->
  Forall (fun u => 0 <= u < (if ascii then 256 else 65536)) us.
Proof.
  intros (Hs & Hl & H). apply Forall_lookup_2. intros i u Hi.
  pose proof (lookup_lt_Some _ _ _ Hi). specialize (H (Z.of_nat i)).
  rewrite (byte_at_lookup _ _ _ Hi) in H. rewrite <- H by (unfold mlen; lia). by apply unit_range.
Qed.

(** The byte after the name is read too. *)
Lemma text_past_name : name_at true m src us -> src + mlen us + 1 <= mlen m ->
  text_at 1 (fun m a => cp866_decode (byte_at m a)) m src
    ((cp866_decode <$> us) ++ [cp866_decode (byte_at m (src + mlen us))]).
Proof.
  intros (Hs & Hl & H) Hf. cbn [unit_width] in *. assert (mlen (cp866_decode <$> us) = mlen us) as L
    by (unfold mlen; by rewrite length_fmap).
  split_and!; [done|rewrite mlen_app, L; change (mlen [_]) with 1; lia|].
  intros i Hi. rewrite mlen_app, L in Hi. change (mlen [_]) with 1 in Hi.
  rewrite Z.mul_1_l, byte_at_app, L by lia. case_match.
  - rewrite byte_at_fmap by lia. f_equal. rewrite <- (H i) by lia. by rewrite Z.mul_1_l.
  - by replace i with (mlen us) by lia; rewrite Z.sub_diag.
Qed.

Lemma ascii_utf8_emits : name_at true m src us -> Forall (fun u => u <> 0) us -> 
  src + mlen us + 1 <= mlen m -> mlen us <= 2 ^ 31 -> dest + mlen us <= mlen m ->
  disjoint src (mlen us + 1) dest (mlen us) ->
  let '(bs, rest) := encode_fit (cp866_decode <$> us) (mlen us) in
  emits (loop (S (length m)) ascii_utf8_body (m, src, dest, mlen us)) m (src + (mlen us - mlen rest) + 1) dest bs.
Proof.
  intros Htx Hnz Hover Hle Hfit Hdj.
  pose proof (text_past_name Htx Hover) as Ht. pose proof (name_chars true Htx) as Hr.
  assert (mlen (cp866_decode <$> us) = mlen us) as L by (unfold mlen; by rewrite length_fmap).
  set (c := cp866_decode (byte_at m (src + mlen us))) in *.
  assert (mlen ((cp866_decode <$> us) ++ [c]) = mlen us + 1) as L1 by (rewrite mlen_app, L; done).
  assert (Forall (fun u => u <> 0) (cp866_decode <$> us)) as Hnz'.
  { apply Forall_fmap. eapply Forall_impl; [apply Forall_and; split; [exact Hnz|exact Hr]|]. cbn. intros u [? ?].
    by apply cp866_decode_nonzero. }
  destruct (encode_loop (body := cp866_string_body) _ (mlen us)
      (stops_app (cp866_decode <$> us) c (mlen us) Hnz' ltac:(lia))
      (S (length m)) (m, src, dest, mlen us) m src dest) as (m' & E & Hu); try done.
  - apply Forall_app. split; [|by apply Forall_singleton, cp866_decode_range, byte_at_range].
    apply Forall_fmap. eapply Forall_impl; [exact Hr|]. intros u ?. by apply cp866_decode_range.
  - pose proof (mlen_nonneg us). lia.
  - by rewrite L1, Z.mul_1_l.
  - unfold mlen in *. lia.
  - rewrite encode_fit_app in E, Hu by lia.
    destruct (encode_fit (cp866_decode <$> us) (mlen us)) as [bs rest]. cbn [fst snd] in *.
    exists m'. split; [|done].
    rewrite (loop_map (fun r => (r.1, s_esi r.2, s_edi r.2)) cp866_string_body).
    + rewrite E. cbn [fmap run_fmap]. unfold exit_regs.
      destruct (rest ++ [c]) as [|c0 t] eqn:Er; [by destruct rest|]. cbn [fst snd s_esi s_edi].
      apply (f_equal mlen) in Er. rewrite mlen_app, !mlen_cons in Er. change (mlen []) with 0 in Er.
      rewrite L1. do 3 f_equal. lia.
    + intros s. rewrite ascii_utf8_as_string. by destruct (cp866_string_body s) as [[|[]]| |].
Qed.
End Utf8Branches.

(** Once a character did not fit, the budget is "negative" and nothing fits any more. *)
Lemma utf16_to_8_spent m c dest ecx : 2 ^ 31 < ecx < 2 ^ 32 ->
  utf16_to_8 m c dest ecx = Done (m, mkU8 c (ecx - 1) 0 1).
Proof.
  intros He. unfold utf16_to_8, dec_ecx. rewrite wrap_small, high_bit by lia.
  by replace (2 ^ 31 <=? ecx - 1) with true by lia.
Qed.


Lemma ucs_turn m esi edi ecx ebx m' r : bytes m -> mlen m < 2 ^ 32 -> 0 <= esi -> esi + 2 <= mlen m -> 0 < ebx < 2 ^ 32 ->
  0 <= edi -> 0 <= edi_delta r -> edi + edi_delta r <= mlen m ->
  utf16_to_8 m (unit_at false m esi) edi ecx = Done (m', r) ->
  ucs_utf8_body (m, esi, edi, ecx, ebx) = Done (inl (m', esi + 2, edi + edi_delta r, r_ecx r, ebx - 1)).
Proof.
  intros Hm Hlm Hs Hsw Hb Hd Hr Hfit E. unfold ucs_utf8_body. replace (ebx =? 0) with false by lia. cbn [negb].
  rewrite !ld8_ok by lia. run_step. rewrite be_word by (by apply byte_at_range).
  change (le2 _ _) with (unit_at false m esi). rewrite E. run_step.
  rewrite (wrap_small 32 (esi + 2)), (wrap_small 32 (ebx - 1)) by lia.
  replace (if negb (edi_delta r =? 0) then edi +ₘ edi_delta r else edi) with (edi + edi_delta r); [done|].
  destruct (Z.eqb_spec (edi_delta r) 0); cbn [negb]; [lia|]. rewrite wrap_small; lia.
Qed.

(** The rest of the name after the first character that does not fit is skipped. *)
Lemma ucs_skip us : forall m esi edi ecx n, bytes m -> mlen m < 2 ^ 32 -> name_at false m esi us ->
  0 <= edi <= mlen m -> 2 ^ 31 + mlen us < ecx < 2 ^ 32 -> (length us < n)%nat ->
  loop n ucs_utf8_body (m, esi, edi, ecx, mlen us) = Done (m, esi + 2 * mlen us, edi).
Proof.
  induction us as [|u us IH]; intros m esi edi ecx n Hm Hlm Htx Hd He Hn; (destruct n as [|n]; [lia|]); rewrite loop_S.
  - change (mlen []) with 0. cbn. by rewrite Z.add_0_r.
  - destruct (text_at_cons _ _ _ _ Htx) as (Hu & Htx' & Hfit1). rewrite mlen_cons in *. pose proof (mlen_nonneg us).
    rewrite (ucs_turn m esi edi ecx _ m (mkU8 (unit_at false m esi) (ecx - 1) 0 1)); try done; cbn [edi_delta]; try lia.
    + run_step. rewrite Z.add_0_r. replace (mlen us + 1 - 1) with (mlen us) by lia. cbn [r_ecx].
      rewrite (IH m (esi + 2) edi (ecx - 1)); [do 3 f_equal; lia|done|done|exact Htx'|done|lia|cbn in Hn; lia].
    + apply Htx.
    + by apply utf16_to_8_spent; lia.
Qed.

Lemma ucs_utf8_loop us : forall m esi edi ecx n, bytes m -> mlen m < 2 ^ 32 -> name_at false m esi us ->
  0 <= edi -> 0 <= ecx <= 2 ^ 31 -> mlen us < 2 ^ 30 -> edi + ecx <= mlen m ->
  disjoint esi (2 * mlen us) edi ecx -> (length us < n)%nat ->
  emits (loop n ucs_utf8_body (m, esi, edi, ecx, mlen us)) m (esi + 2 * mlen us) edi (encode_fit us ecx).1.
Proof.
  induction us as [|u us IH]; intros m esi edi ecx n Hm Hlm Htx Hd He Hl Hfit Hdj Hn;
    (destruct n as [|n]; [lia|]); rewrite loop_S.
  { exists m. split; [|apply updated_refl]. change (mlen []) with 0. cbn. by rewrite !Z.add_0_r. }
  destruct (text_at_cons _ _ _ _ Htx) as (Hu & Htx' & Hfit1). rewrite mlen_cons in *. pose proof (mlen_nonneg us).
  pose proof (unit_range false m esi Hm) as Hr. rewrite Hu in Hr. cbn [unit_width] in *. pose proof (utf8_len_pos u).
  unfold disjoint in Hdj. cbn [encode_fit]. destruct (utf8_len u <=? ecx) eqn:E.
  - destruct (utf16_to_8_fits m u edi ecx) as (m1 & res & E1 & Hu1); [lia..|].
    rewrite (ucs_turn m esi edi ecx _ m1 (mkU8 res (ecx - utf8_len u) (utf8_len u) 0));
      cbn [edi_delta r_ecx]; rewrite ?Hu; try done; try lia; [|apply Htx].
    run_step. replace (mlen us + 1 - 1) with (mlen us) by lia.
    destruct (IH m1 (esi + 2) (edi + utf8_len u) (ecx - utf8_len u) n) as (m2 & E2 & Hu2).
    + eapply bytes_updated; eauto using utf8_bytes_range.
    + by destruct Hu1 as [-> _].
    + eapply text_at_frame; [done..|]. unfold disjoint. cbn [unit_width]. lia.
    + lia.
    + lia.
    + lia.
    + destruct Hu1 as [-> _]. lia.
    + unfold disjoint. lia.
    + cbn in Hn. lia.
    + destruct (encode_fit us _) as [bs rest]. cbn [fst] in *. exists m2. split; [|by eapply updated_app].
      rewrite E2, mlen_app. change (mlen (utf8_bytes u)) with (utf8_len u). do 2 f_equal; [f_equal|]; lia.
  - cbn [fst]. exists m. split; [|apply updated_refl].
    rewrite (ucs_turn m esi edi ecx _ m (mkU8 u (2 ^ 32 - 1) 0 1));
      cbn [edi_delta r_ecx]; rewrite ?Hu; try done; try lia; [|apply Htx|by apply utf16_to_8_refuses; lia].
    run_step. replace (mlen us + 1 - 1) with (mlen us) by lia.
    rewrite ucs_skip; [|done|done|exact Htx'|lia|lia|cbn in Hn; lia].
    change (mlen []) with 0. do 3 f_equal. lia.
Qed.

(** ** The copy *)

(** The byte length of a name of these units. *)
Definition name_bytes (ascii : bool) (us : list Z) : Z := unit_width ascii * mlen us.

(** The source bytes consumed. *)
Definition consumed_bytes (ascii : bool) (nameenc : Z) (us : list Z) : Z :=
  if (1 <=? nameenc) && (nameenc <=? 3) then
    if ascii && (nameenc =? 3) then mlen us - mlen (encode_fit (cp866_decode <$> us) (mlen us)).2 + 1
    else name_bytes ascii us
  else 0.

Lemma copied_length ascii nameenc us : mlen (copied ascii nameenc us) <= 2 * mlen us.
Proof.
  pose proof (mlen_nonneg us). unfold copied.
  assert (forall (f : Z -> Z), mlen (f <$> us) = mlen us) as Hf by (intros f; unfold mlen; by rewrite length_fmap).
  destruct (nameenc =? 1); [destruct ascii; rewrite ?Hf; lia|].
  destruct (nameenc =? 2).
  - assert (mlen (mjoin (utf16_bytes ∘ char_of ascii <$> us)) = 2 * mlen us) as ->; [|lia].
    clear. induction us as [|u us IH]; [done|]. rewrite fmap_cons, mjoin_cons, mlen_app, IH, mlen_cons.
    change (mlen ((utf16_bytes ∘ char_of ascii) u)) with 2. lia.
  - destruct (nameenc =? 3); [|change (mlen []) with 0; lia].
    assert (unit_width ascii * mlen us <= 2 * mlen us) by (destruct ascii; cbn; lia).
    etransitivity; [apply encode_fit_budget|]; destruct ascii; cbn; lia.
Qed.

Lemma copy_emits ascii m src dest max_len nameenc us :
  bytes m -> mlen m < 2 ^ 32 -> name_at ascii m src us -> 0 <= dest ->
  (ascii = true -> Forall (fun u => u <> 0) us) -> src + name_bytes ascii us + 1 <= mlen m ->
  dest + 2 * mlen us + 2 <= mlen m -> disjoint src (name_bytes ascii us + 1) dest (2 * mlen us + 2) ->
  0 <= max_len < 2 ^ 31 -> max_len / unit_width ascii = mlen us -> let ecx := max_len in
  emits (if ascii then
       if nameenc =? 1 then loop (S (Z.to_nat ecx)) ascii_cp866_body (m, src, dest, ecx)
       else if nameenc =? 2 then loop (S (Z.to_nat ecx)) ascii_utf16_body (m, src, dest, ecx)
       else if nameenc =? 3 then loop (S (length m)) ascii_utf8_body (m, src, dest, ecx)
       else Done (m, src, dest)
     else
       let ecx := Z.shiftr ecx 1 in
       if nameenc =? 1 then loop (S (Z.to_nat ecx)) ucs_cp866_body (m, src, dest, ecx)
       else if nameenc =? 2 then loop (S (Z.to_nat ecx)) ucs_utf16_body (m, src, dest, ecx)
       else if nameenc =? 3 then
         let ebx := ecx in
         let ecx := ecx <<ₘ 1 in
         loop (S (Z.to_nat ebx)) ucs_utf8_body (m, src, dest, ecx, ebx)
       else Done (m, src, dest))
    m (src + consumed_bytes ascii nameenc us) dest (copied ascii nameenc us).
Proof.
  intros Hm Hlm Htx Hd Hnz Hover Hfit Hdj Hlen Hn ecx. subst ecx. unfold disjoint in Hdj. pose proof (mlen_nonneg us).
  assert (emits (Done (m, src, dest)) m (src + 0) dest []) as Hnone.
  { exists m. split; [by rewrite !Z.add_0_r|apply updated_refl]. }
  unfold consumed_bytes, copied, name_bytes in *. assert (Z.to_nat (mlen us) = length us) as Ll by (unfold mlen; lia).
  destruct ascii; cbn [unit_width andb] in *.
  - rewrite !Z.mul_1_l in *. rewrite Z.div_1_r in Hn. subst max_len. rewrite Ll.
    destruct (Z.eqb_spec nameenc 1) as [->|]; [|destruct (Z.eqb_spec nameenc 2) as [->|]; [|destruct (Z.eqb_spec nameenc 3) as [->|]]].
    + apply ascii_cp866_emits; try done; unfold disjoint; lia.
    + apply ascii_utf16_emits; try done; unfold disjoint; lia.
    + pose proof (ascii_utf8_emits m src dest us Hm Hlm Hd Htx (Hnz eq_refl)) as He. cbv zeta in He.
      destruct (encode_fit (cp866_decode <$> us) (mlen us)) as [bs rest] eqn:Ef. cbn [char_of].
      replace (char_of true <$> us) with (cp866_decode <$> us) by done. rewrite Ef.
      cbn [Z.eqb Pos.eqb Z.leb Z.compare Pos.compare Pos.compare_cont andb fst snd].
      rewrite Z.add_assoc. apply He; unfold disjoint; lia.
    + by replace ((1 <=? nameenc) && (nameenc <=? 3)) with false by lia.
  - assert (mlen us < 2 ^ 30) by (Z.div_mod_to_equations; lia).
    cbv zeta. rewrite shr_eq by lia. change (2 ^ 1) with 2. rewrite Hn, Ll.
    destruct (Z.eqb_spec nameenc 1) as [->|]; [|destruct (Z.eqb_spec nameenc 2) as [->|]; [|destruct (Z.eqb_spec nameenc 3) as [->|]]].
    + apply ucs_cp866_emits; try done; unfold disjoint; lia.
    + apply ucs_utf16_emits; try done; unfold disjoint; lia.
    + replace (mlen us <<ₘ 1) with (2 * mlen us) by (rewrite shl_fold; change (2 ^ 1) with 2; lia).
      replace (char_of false <$> us) with us by (symmetry; apply list_fmap_id).
      cbn [Z.eqb Pos.eqb Z.leb Z.compare Pos.compare Pos.compare_cont andb unit_width].
      apply ucs_utf8_loop; try done; unfold disjoint; lia.
    + by replace ((1 <=? nameenc) && (nameenc <=? 3)) with false by lia.
Qed.

(** ** The comparison *)

Section Compare.
Context (m : list Z) (ascii : bool) (utf8 name_end : Z).
Hypothesis Hm : bytes m.
Local Abbreviation w := (unit_width ascii).

(** The component agrees, case apart, with the units from [a] on. *)
Fixpoint same_prefix (a : Z) (cs : list Z) : bool :=
  match cs with
  | [] => true
  | c :: t => (utf16_to_upper (unit_at ascii m a) =? utf16_to_upper c) && same_prefix (a + w) t
  end.

(** The name stops at [a]: a version number follows, or nothing. *)
Definition name_stops (a : Z) : bool := (unit_at ascii m a =? 59) || (a =? name_end).

(** A path component: UTF-8, ended by a slash or the NUL; only its first
    character may itself be one of the two. *)
Definition component_at (esi : Z) (cs : list Z) : Prop :=
  exists stop, (stop = 47 \/ stop = 0) /\ stored m esi (mjoin (utf8_bytes <$> cs) ++ [stop]) /\ units cs /\
  match cs with [] => False | _ :: t => Forall (fun c => c <> 47 /\ c <> 0) t end.

Lemma upper_range c : 0 <= c < 65536 -> 0 <= utf16_to_upper c < 65536.
Proof. intros. unfold utf16_to_upper. repeat case_match; try done; by apply (wrap_range 16). Qed.

(** What the code makes of the two bytes at [edi]. *)
Lemma fetched_unit a :
  swap_bytes16 (if ascii then u16 (Z.shiftl (word16_at m a) 8) else word16_at m a) = unit_at ascii m a.
Proof.
  pose proof (byte_at_range m a Hm) as R0. pose proof (byte_at_range m (a + 1) Hm) as R1. unfold word16_at, unit_at. destruct ascii.
  - assert (u16 (Z.shiftl (le2 (byte_at m a) (byte_at m (a + 1))) 8) = le2 0 (byte_at m a)) as ->.
    { unfold wrap, le2. unfold is_byte in *. rewrite Z.shiftl_mul_pow2 by lia. change (2 ^ 8) with 256. change (2 ^ 16) with 65536.
      Z.div_mod_to_equations. lia. }
    rewrite swap16_le2; [unfold le2; lia|done|done].
  - by apply swap16_le2.
Qed.

Lemma end_of_name_ok esi edi : 0 <= edi -> edi + w <= mlen m ->
  end_of_name m utf8 esi edi name_end ascii = Done (if name_stops edi then mkCompare true (esi -ₘ utf8) else no_match).
Proof.
  intros He Hw. unfold end_of_name, name_stops, matched_advance.
  pose proof (byte_at_range m edi Hm) as R0. pose proof (byte_at_range m (edi + 1) Hm) as R1.
  assert ((if ascii then b ← ld8 m edi; Done (b =? 59) else w ← ld16 m edi; Done (w =? 0x3B00)) = Done (unit_at ascii m edi =? 59)) as ->.
  { unfold unit_at. destruct ascii; cbn [unit_width] in *; [by rewrite ld8_ok by lia|].
    rewrite ld16_ok by lia. run_step. f_equal. unfold word16_at, le2, is_byte in *.
    destruct (Z.eqb_spec (byte_at m edi + 256 * byte_at m (edi + 1)) 0x3B00), (Z.eqb_spec (byte_at m (edi + 1) + 256 * byte_at m edi) 59); lia. }
  run_step. by destruct (unit_at ascii m edi =? 59), (edi =? name_end).
Qed.

Lemma first_byte c : 0 <= c < 65536 -> (byte_at (utf8_bytes c) 0 =? 47) || (byte_at (utf8_bytes c) 0 =? 0) = (c =? 47) || (c =? 0).
Proof.
  intros Hc. unfold utf8_bytes. repeat case_match; rewrite byte_at_cons; cbn [Z.eqb]; try done; Z.div_mod_to_equations; lia.
Qed.

(** One turn of the loop on the character [c]. *)
Lemma compare_turn c esi edi eax next : 0 <= c < 65536 -> stored m esi (utf8_bytes c ++ [next]) -> 0 <= eax < 2 ^ 32 ->
  0 <= edi -> edi + w + 1 <= mlen m -> edi + 2 * w <= mlen m ->
  exists e, 0 <= e < 2 ^ 32 /\
  compare_body m utf8 name_end ascii (esi, edi, eax) = Done (
    if utf16_to_upper (unit_at ascii m edi) =? utf16_to_upper c then
      if (next =? 47) || (next =? 0) then
        inr (if name_stops (edi + w) then mkCompare true (esi + utf8_len c -ₘ utf8) else no_match)
      else inl (esi + utf8_len c, edi + w, e)
    else inr no_match).
Proof.
  intros Hc Hs Ha He Hw Hw2. pose proof (stored_app _ _ _ _ Hs) as [Hs1 Hs2].
  destruct (utf8to16_ptr_ok m esi c eax Hc Hs1 Ha) as (e & E & Ee & _).
  pose proof (upper_range (unit_at ascii m edi)) as Ru. pose proof (unit_range ascii m edi Hm) as R.
  assert (0 <= unit_at ascii m edi < 65536) by (destruct ascii; lia). specialize (Ru ltac:(done)).
  exists (utf16_to_upper (unit_at ascii m edi)). split; [lia|].
  unfold compare_body. rewrite E. run_step. rewrite Ee.
  assert (edi + 2 <= mlen m) by (destruct ascii; cbn [unit_width] in *; lia).
  rewrite ld16_ok by lia. run_step.
  replace (if ascii then (u16 (Z.shiftl (word16_at m edi) 8), edi - 1) else (word16_at m edi, edi))
    with ((if ascii then u16 (Z.shiftl (word16_at m edi) 8) else word16_at m edi), edi + w - 2)
    by (destruct ascii; cbn [unit_width]; f_equal; lia).
  rewrite fetched_unit. rewrite !(wrap_small 16) by (try apply upper_range; done).
  destruct (_ =? _); cbn [negb]; [|done].
  pose proof (stored_ld8 _ _ _ 0 Hs2 ltac:(done)) as Hnext. rewrite Z.add_0_r in Hnext.
  change (byte_at [next] 0) with next in Hnext. change (mlen (utf8_bytes c)) with (utf8_len c) in Hnext.
  rewrite Hnext. run_step. replace (edi + w - 2 + 2) with (edi + w) by lia.
  destruct ((next =? 47) || (next =? 0)); [|done].
  rewrite end_of_name_ok by (destruct ascii; cbn [unit_width] in *; lia). done.
Qed.

Lemma compare_loop t : forall c esi edi eax n stop, 0 <= c < 65536 -> units t -> Forall (fun c => c <> 47 /\ c <> 0) t ->
  (stop = 47 \/ stop = 0) -> stored m esi (mjoin (utf8_bytes <$> c :: t) ++ [stop]) -> 0 <= eax < 2 ^ 32 ->
  0 <= edi -> edi + w * (mlen (c :: t) + 1) <= mlen m -> (length t < n)%nat ->
  loop n (compare_body m utf8 name_end ascii) (esi, edi, eax) = Done (
    if same_prefix edi (c :: t) && name_stops (edi + w * mlen (c :: t))
    then mkCompare true (esi + mlen (mjoin (utf8_bytes <$> c :: t)) -ₘ utf8) else no_match).
Proof.
  assert (1 <= w <= 2) as Hw by (destruct ascii; cbn; lia).
  induction t as [|c' t IH]; intros c esi edi eax n stop Hc Hu Hf Hstop Hs Ha He Hl Hn; (destruct n as [|n]; [lia|]);
    rewrite loop_S; rewrite fmap_cons, mjoin_cons in Hs |- *; rewrite mlen_app; rewrite mlen_cons in Hl |- *.
  - change (mlen []) with 0 in *. change (mjoin (utf8_bytes <$> [])) with (@nil Z) in *. rewrite app_nil_r in Hs.
    destruct (compare_turn c esi edi eax stop) as (e & _ & ->); try done; try nia.
    cbn [same_prefix]. rewrite andb_true_r. replace ((stop =? 47) || (stop =? 0)) with true by lia.
    change (mlen []) with 0. rewrite Z.add_0_l, Z.mul_1_r, Z.add_0_r. change (mlen (utf8_bytes c)) with (utf8_len c).
    by destruct (_ =? _).
  - inversion_clear Hu as [|? ? Hc' Hu']. inversion_clear Hf as [|? ? [Hn47 Hn0] Hf']. rewrite mlen_cons in *.
    pose proof (mlen_nonneg t). rewrite fmap_cons, mjoin_cons in Hs.
    assert (stored m esi (utf8_bytes c ++ [byte_at (utf8_bytes c') 0])) as Hs1.
    { pose proof (utf8_len_pos c') as Hp. unfold utf8_len in Hp. destruct (utf8_bytes c') as [|b r]; [by destruct Hp|].
      replace ((utf8_bytes c ++ (b :: r) ++ _) ++ [stop]) with ((utf8_bytes c ++ [b]) ++ r ++ mjoin (utf8_bytes <$> t) ++ [stop]) in Hs
        by (by rewrite <- !app_assoc).
      by apply stored_app in Hs as [Hs _]. }
    destruct (compare_turn c esi edi eax (byte_at (utf8_bytes c') 0)) as (e & Her & ->); try done; try nia.
    rewrite first_byte by done. replace ((c' =? 47) || (c' =? 0)) with false by lia.
    change (same_prefix edi (c :: c' :: t)) with ((utf16_to_upper (unit_at ascii m edi) =? utf16_to_upper c) && same_prefix (edi + w) (c' :: t)).
    destruct (_ =? _); [|done]. run_step. rewrite andb_true_l.
    rewrite <- app_assoc in Hs. apply stored_app in Hs as [_ Hs]. change (mlen (utf8_bytes c)) with (utf8_len c) in *.
    rewrite (IH c' _ _ e n stop); try done; rewrite ?fmap_cons, ?mjoin_cons, ?mlen_cons; try nia; [|cbn in Hn; lia].
    rewrite mlen_app, <- !(Z.add_assoc esi). change (mlen (utf8_bytes c)) with (utf8_len c).
    by replace (edi + w + w * (mlen t + 1)) with (edi + w * (mlen t + 1 + 1)) by ring.
Qed.
End Compare.

Lemma same_prefix_spec m ascii a cs : same_prefix m ascii a cs = true <->
  forall i, 0 <= i < mlen cs -> utf16_to_upper (unit_at ascii m (a + unit_width ascii * i)) = utf16_to_upper (byte_at cs i).
Proof.
  revert a. induction cs as [|c t IH]; intros a; cbn [same_prefix].
  - split; [|done]. intros _ i Hi. change (mlen []) with 0 in Hi. lia.
  - rewrite andb_true_iff, Z.eqb_eq, IH, mlen_cons. pose proof (mlen_nonneg t). split.
    + intros [H0 Ht] i Hi. rewrite byte_at_cons. destruct (Z.eqb_spec i 0) as [->|]; [by rewrite Z.mul_0_r, Z.add_0_r|].
      rewrite <- Ht by lia. do 2 f_equal. ring.
    + intros Hall. split.
      * specialize (Hall 0 ltac:(lia)). rewrite Z.mul_0_r, Z.add_0_r in Hall. done.
      * intros i Hi. specialize (Hall (i + 1) ltac:(lia)). rewrite byte_at_cons in Hall.
        replace (i + 1 =? 0) with false in Hall by lia. replace (i + 1 - 1) with i in Hall by lia.
        rewrite <- Hall. do 2 f_equal. ring.
Qed.

Lemma encode_fit_all us b : mlen (mjoin (utf8_bytes <$> us)) <= b ->
  encode_fit us b = (mjoin (utf8_bytes <$> us), []).
Proof.
  revert b. induction us as [|u us IH]; intros b Hb; [done|]. rewrite fmap_cons, mjoin_cons in *.
  rewrite mlen_app in Hb. change (mlen (utf8_bytes u)) with (utf8_len u) in Hb.
  pose proof (mlen_nonneg (mjoin (utf8_bytes <$> us))). cbn [encode_fit].
  replace (utf8_len u <=? b) with true by lia. by rewrite IH by lia.
Qed.

Lemma cp866_decode_ascii us : Forall (fun u => 0 <= u < 0x80 /\ u <> 20) us -> cp866_decode <$> us = us.
Proof.
  induction 1 as [|u us Hu _ IH]; [done|]. rewrite fmap_cons, IH. f_equal.
  assert ((u =? 20) || (cp866_decode u =? u) = true) as Hd; [|destruct Hu; lia].
  destruct Hu as [Hu _]. revert u Hu. apply (forall_range_spec 0 0x80 (fun u => (u =? 20) || (cp866_decode u =? u))). by vm_compute.
Qed.

(** The terminator goes behind what the branch stored. *)
Lemma copy_finish c m dest type_encoding esi bs :
  emits c m esi dest bs -> 0 <= dest -> dest + mlen bs + 2 <= mlen m ->
  exists m', ('(m, esi, edi) ← c;
      m ← st8 m edi 0;
      m ← (if negb (type_encoding =? 0) then st8 m (edi + 1) 0 else Done m);
      Done (m, mkCopy esi edi)) = Done (m', mkCopy esi (dest + mlen bs)) /\
    updated m m' dest (mlen (bs ++ terminator (type_encoding =? 0))) (byte_at (bs ++ terminator (type_encoding =? 0))).
Proof.
  intros (m1 & -> & Hu) Hd Hfit. run_step. pose proof (mlen_nonneg bs). assert (mlen m1 = mlen m) as L1 by apply Hu.
  unfold terminator. destruct (store1 m1 (dest + mlen bs) 0) as (m2 & E2 & Hu2); [lia..|].
  destruct (type_encoding =? 0); cbn [negb].
  - rewrite E2. run_step. exists m2. split; [done|]. by eapply updated_app.
  - destruct (store2 m1 (dest + mlen bs) 0 0) as (m3 & E3 & Hu3); [lia..|]. rewrite E2 in E3 |- *. run_step.
    cbn [mbind run_bind] in E3. rewrite E3. run_step. exists m3. split; [done|]. by eapply updated_app.
Qed.

Lemma compare_ok m utf8 dir_record type_encoding cs :
  let ascii := type_encoding =? 0 in
  let name := dir_record + ISO9660_DIR_OFF_NAME in
  bytes m -> mlen m < 2 ^ 32 -> component_at m utf8 cs -> 0 <= dir_record ->
  name + unit_width ascii * (mlen cs + 1) <= mlen m ->
  iso9660_compare_name m utf8 dir_record type_encoding = Done (
    if same_prefix m ascii name cs &&
      name_stops m ascii (name + byte_at m (dir_record + ISO9660_DIR_OFF_NAME_LEN)) (name + unit_width ascii * mlen cs)
    then mkCompare true (mlen (mjoin (utf8_bytes <$> cs))) else no_match).
Proof.
  intros ascii name Hm Hlm (stop & Hstop & Hs & Hus & Hcs) Hd Hfit. unfold ISO9660_DIR_OFF_NAME in *.
  destruct cs as [|c t]; [done|]. inversion_clear Hus as [|? ? Hc Hu].
  pose proof (mlen_nonneg t). rewrite mlen_cons in Hfit.
  assert (1 <= unit_width ascii) by (by destruct ascii). subst name.
  unfold iso9660_compare_name, ISO9660_DIR_OFF_NAME_LEN, ISO9660_DIR_OFF_NAME in *.
  rewrite ld8_ok by nia. rewrite done_bind. fold ascii.
  pose proof (text_length (c :: t)) as Ht. rewrite mlen_cons in Ht. assert (utf8 + mlen (mjoin (utf8_bytes <$> c :: t)) < mlen m /\ 0 <= utf8) as [Hl Hu0].
  { destruct Hs as (? & Hl & _). rewrite mlen_app in Hl. change (mlen [stop]) with 1 in Hl. lia. }
  rewrite (compare_loop m ascii utf8 _ Hm t c utf8 (dir_record + 33) 0 _ stop); try done; try lia; rewrite ?mlen_cons; try nia;
    [|unfold mlen in *; lia].
  rewrite wrap_small; [|lia]. destruct (_ && _); [|done]. do 2 f_equal. lia.
Qed.

Lemma text_bytes us : Forall (fun u => 0 <= u < 65536) us -> bytes (mjoin (utf8_bytes <$> us)).
Proof.
  induction 1 as [|u us Hu _ IH]; [done|]. rewrite fmap_cons, mjoin_cons. apply Forall_app. split; [|done].
  apply bytes_of_byte_at. intros a. by apply utf8_bytes_range.
Qed.

(** ** Theorems *)

(** [iso9660_copy_name] stores exactly the name in the requested encoding,
    followed by a NUL of the source's width, and changes nothing else: CP866, UTF-16LE
    or as many whole UTF-8 characters as fit the byte length of the name; nothing but
    the NUL for an unknown encoding. *)
Theorem iso_copy_name m src dest max_len nameenc type_encoding us :
  let ascii := type_encoding =? 0 in
  bytes m -> mlen m < 2 ^ 32 -> name_at ascii m src us -> (ascii = true -> Forall (fun u => u <> 0) us) ->
  0 <= max_len < 2 ^ 31 -> max_len / unit_width ascii = mlen us ->
  src + name_bytes ascii us + 1 <= mlen m -> 0 <= dest -> dest + 2 * mlen us + 2 <= mlen m ->
  disjoint src (name_bytes ascii us + 1) dest (2 * mlen us + 2) ->
  let out := copied ascii nameenc us in
  exists m', iso9660_copy_name m src dest max_len nameenc type_encoding =
      Done (m', mkCopy (src + consumed_bytes ascii nameenc us) (dest + mlen out)) /\
    updated m m' dest (mlen (out ++ terminator ascii)) (byte_at (out ++ terminator ascii)).
Proof.
  intros ascii Hm Hlm Htx Hnz Hml Hn Hover Hd Hfit Hdj out. pose proof (copied_length ascii nameenc us).
  apply copy_finish; [|done|unfold out; lia]. by apply copy_emits.
Qed.

(** On a path component of BMP characters [iso9660_compare_name] succeeds exactly
    when the component agrees, case apart, with as many units of the record's name
    field and the name stops there or continues with a version; it then advances past
    the component, and otherwise leaves the pointer alone. *)
Theorem iso_compare_name m utf8 dir_record type_encoding cs :
  let ascii := type_encoding =? 0 in
  let name := dir_record + ISO9660_DIR_OFF_NAME in
  let unit i := unit_at ascii m (name + unit_width ascii * i) in
  bytes m -> mlen m < 2 ^ 32 -> component_at m utf8 cs -> 0 <= dir_record ->
  name + unit_width ascii * (mlen cs + 1) <= mlen m ->
  let same := (forall i, 0 <= i < mlen cs -> utf16_to_upper (unit i) = utf16_to_upper (byte_at cs i)) /\
    (unit (mlen cs) = 59 \/ unit_width ascii * mlen cs = byte_at m (dir_record + ISO9660_DIR_OFF_NAME_LEN)) in
  exists r, iso9660_compare_name m utf8 dir_record type_encoding = Done r /\
    (matched r = true <-> same) /\
    iso9660_compare_name_ptr m utf8 dir_record type_encoding =
      Done (if matched r then (utf8 + mlen (mjoin (utf8_bytes <$> cs)), 0) else (utf8, 1)).
Proof.
  intros ascii name unit Hm Hlm Hc Hd Hfit same. unfold iso9660_compare_name_ptr. rewrite (compare_ok _ _ _ _ cs) by done. rewrite done_bind.
  eexists. split; [done|]. fold ascii name. split.
  - transitivity (same_prefix m ascii name cs &&
      name_stops m ascii (name + byte_at m (dir_record + ISO9660_DIR_OFF_NAME_LEN)) (name + unit_width ascii * mlen cs) = true).
    { by destruct (_ && _). }
    unfold same, unit, name_stops. rewrite andb_true_iff, same_prefix_spec, orb_true_iff, !Z.eqb_eq. intuition lia.
  - by destruct (_ && _).
Qed.


(** ** Witnesses *)

(** A record at 0 (name "A", a letter outside ASCII, "B") on a Joliet volume; room from 48. *)
Definition iso_memory : list Z := replicate 32 7 ++ [6; 0; 0x41; 0x04; 0x16; 0; 0x42; 9] ++ replicate 24 9.

Lemma iso_copy_name_witness :
  iso9660_copy_name iso_memory 33 48 6 1 1 = Done (<[51%nat := 0]> (<[52%nat := 0]> (<[50%nat := 0x42]> (<[49%nat := 0x86]> (<[48%nat := 0x41]> iso_memory)))), mkCopy 39 51) /\
  exists m', iso9660_copy_name iso_memory 33 48 6 3 1 = Done (m', mkCopy 39 52).
Proof.
  split; [by vm_compute|].
  destruct (iso_copy_name iso_memory 33 48 6 3 1 [0x41; 0x416; 0x42]) as (m' & E & _).
  - by apply bytes_check; vm_compute.
  - by vm_compute.
  - split_and!; [lia|by vm_compute|]. intros i Hi. change (mlen _) with 3 in Hi.
    assert (i = 0 \/ i = 1 \/ i = 2) as [->|[->| ->]] by lia; by vm_compute.
  - done.
  - lia.
  - by vm_compute.
  - by vm_compute.
  - lia.
  - by vm_compute.
  - by left; vm_compute.
  - exists m'. exact E.
Defined.

(** The lower-case component "a..b" at 48, then a slash. *)
Definition iso_path_memory : list Z := replicate 32 7 ++ [6; 0; 0x41; 0x04; 0x16; 0; 0x42; 9] ++ replicate 8 9 ++ [0x61; 0xD0; 0xB6; 0x62; 47].

Lemma iso_compare_name_witness :
  iso9660_compare_name_ptr iso_path_memory 48 0 1 = Done (52, 0) /\
  exists r, iso9660_compare_name iso_path_memory 48 0 1 = Done r /\ matched r = true.
Proof.
  split; [by vm_compute|].
  destruct (iso_compare_name iso_path_memory 48 0 1 [0x61; 0x436; 0x62]) as (r & E & [_ Hr] & _).
  - by apply bytes_check; vm_compute.
  - by vm_compute.
  - exists 47. split_and!; [by left| |repeat constructor; lia|repeat constructor; lia].
    split_and!; [lia|by vm_compute|]. intros i Hi. change (mlen _) with 5 in Hi.
    assert (i = 0 \/ i = 1 \/ i = 2 \/ i = 3 \/ i = 4) as [->|[->|[->|[->| ->]]]] by lia; by vm_compute.
  - lia.
  - by vm_compute.
  - exists r. split; [exact E|]. apply Hr. split; [|right; by vm_compute].
    intros i Hi. change (mlen _) with 3 in Hi.
    assert (i = 0 \/ i = 1 \/ i = 2) as [->|[->| ->]] by lia; by vm_compute.
Defined.

