(* ===== verification/Layout.v ===== *)
(** * Memory layouts

    A routine that gets many addresses from its caller relies on them not overlapping.
    [separate] says so for a list of regions; [writes] says that a step changed nothing
    outside some of them, which is how frame conditions are passed along. *)

From stdpp Require Import base list.
From Stdlib Require Import ZArith Lia.
From S2P Require Import Prelude.

(** A region: address and length. *)
Definition region : Type := (Z * Z)%type.

Definition inside (a : Z) (r : region) : Prop := r.1 <= a < r.1 + r.2.

Fixpoint apart (r : region) (rs : list region) : Prop :=
  match rs with
  | [] => True
  | r' :: rs => disjoint r.1 r.2 r'.1 r'.2 /\ apart r rs
  end.

(** All regions within [size] bytes and pairwise disjoint. *)
Fixpoint separate (size : Z) (rs : list region) : Prop :=
  match rs with
  | [] => True
  | r :: rs => (0 <= r.1 /\ r.1 + r.2 <= size) /\ apart r rs /\ separate size rs
  end.

#[global] Instance disjoint_dec a1 n1 a2 n2 : Decision (disjoint a1 n1 a2 n2).
Proof. unfold disjoint. apply _. Defined.
#[global] Instance apart_dec r rs : Decision (apart r rs).
Proof. induction rs; cbn; apply _. Defined.
#[global] Instance separate_dec size rs : Decision (separate size rs).
Proof. induction rs; cbn; apply _. Defined.

Lemma separate_bounds size rs r : separate size rs -> r ∈ rs -> 0 <= r.1 /\ r.1 + r.2 <= size.
Proof. induction rs as [|r' rs IH]; intros Hs Hr; [by apply not_elem_of_nil in Hr|]. destruct Hs as (? & _ & ?). apply elem_of_cons in Hr as [->|Hr]; auto. Qed.

Lemma apart_elem r r' rs : apart r rs -> r' ∈ rs -> disjoint r.1 r.2 r'.1 r'.2.
Proof. induction rs as [|x rs IH]; intros Ha Hr; [by apply not_elem_of_nil in Hr|]. destruct Ha. apply elem_of_cons in Hr as [->|Hr]; auto. Qed.

Lemma disjoint_sym a1 n1 a2 n2 : disjoint a1 n1 a2 n2 -> disjoint a2 n2 a1 n1.
Proof. unfold disjoint. tauto. Qed.

Lemma separate_lookup size rs i j r1 r2 : separate size rs -> rs !! i = Some r1 -> rs !! j = Some r2 -> (i <> j)%nat ->
  disjoint r1.1 r1.2 r2.1 r2.2.
Proof.
  revert i j. induction rs as [|r rs IH]; intros i j Hs Hi Hj Hne; [done|]. destruct Hs as (_ & Ha & Hs).
  destruct i as [|i], j as [|j]; cbn in Hi, Hj; [done|..].
  - injection Hi as ->. eapply apart_elem; [done|]. by eapply list_elem_of_lookup_2.
  - injection Hj as ->. apply disjoint_sym. eapply apart_elem; [done|]. by eapply list_elem_of_lookup_2.
  - eapply IH; [done..|]. congruence.
Qed.

(** Only bytes of the regions [rs] changed. *)
Record writes (rs : list region) (m m' : list Z) : Prop := {
  writes_len : mlen m' = mlen m;
  writes_bytes : bytes m -> bytes m';
  writes_frame a : (forall r, r ∈ rs -> ~ inside a r) -> byte_at m' a = byte_at m a
}.

#[global] Instance writes_preorder rs : PreOrder (writes rs).
Proof.
  split; [by constructor|]. intros m1 m2 m3 [L1 B1 F1] [L2 B2 F2]. constructor; [lia|auto|].
  intros a Ha. by rewrite F2, F1.
Qed.

Lemma writes_subset rs rs' m m' : rs ⊆ rs' -> writes rs m m' -> writes rs' m m'.
Proof. intros Hs [L B F]. constructor; [done..|]. intros a Ha. apply F. intros r Hr. by apply Ha, Hs. Qed.

(** One region after another. *)
Lemma writes_cons r rs m m1 m2 : writes [r] m m1 -> writes rs m1 m2 -> writes (r :: rs) m m2.
Proof.
  intros W1 W2. transitivity m1; [apply (writes_subset [r])|apply (writes_subset rs)]; try done; intros x Hx.
  - apply list_elem_of_singleton in Hx as ->. by left.
  - by right.
Qed.

Lemma writes_within rs rs' m m' :
  Forall (fun r => forall a, inside a r -> exists r', r' ∈ rs' /\ inside a r') rs -> writes rs m m' -> writes rs' m m'.
Proof.
  intros Hin [L B F]. constructor; [done..|]. intros a Ha. apply F. intros r Hr Har.
  rewrite Forall_forall in Hin. destruct (Hin r Hr a Har) as (r' & Hr' & Har'). by apply (Ha r' Hr').
Qed.

Lemma writes_updated r m m' n f : updated m m' r.1 n f -> n <= r.2 -> (bytes m -> bytes m') -> writes [r] m m'.
Proof.
  intros [L Hu] Hn Hb. constructor; [done..|]. intros a Ha. rewrite Hu.
  specialize (Ha r ltac:(by left)). unfold inside in Ha. by replace ((r.1 <=? a) && (a <? r.1 + n)) with false by lia.
Qed.

(** What lies in a region apart from the written ones stays. *)
Lemma writes_byte rs m m' r a : writes rs m m' -> apart r rs -> inside a r -> byte_at m' a = byte_at m a.
Proof.
  intros [_ _ F] Ha Hin. apply F. intros r' Hr' Hin'. pose proof (apart_elem _ _ _ Ha Hr') as Hd.
  unfold disjoint, inside in *. lia.
Qed.

Lemma writes_word rs m m' a : writes rs m m' -> apart (a, 4) rs -> word_at m' a = word_at m a.
Proof. intros Hw Ha. unfold word_at. by rewrite !(writes_byte _ _ _ (a, 4) _ Hw Ha) by (unfold inside; cbn; lia). Qed.

Lemma writes_stored rs m m' a bs : writes rs m m' -> apart (a, mlen bs) rs -> stored m a bs -> stored m' a bs.
Proof.
  intros Hw Ha (H0 & Hl & Hb). split_and!; [done|by rewrite (writes_len _ _ _ Hw)|]. intros i Hi.
  rewrite (writes_byte _ _ _ (a, mlen bs) _ Hw Ha); [by apply Hb|]. unfold inside. cbn. lia.
Qed.

Lemma st32_writes m a v : 0 <= a -> a + 4 <= mlen m -> 0 <= v < 2 ^ 32 ->
  exists m', st32 m a v = Done m' /\ writes [(a, 4)] m m' /\ word_at m' a = v.
Proof.
  intros Ha Hf Hv. exists (write32 m a v). rewrite st32_ok by done. split_and!; [done| |by apply word_at_write32].
  constructor; [apply mlen_write32|apply bytes_write32|]. intros b Hb. rewrite byte_at_write32 by done.
  specialize (Hb (a, 4) ltac:(by left)). unfold inside in Hb. cbn in Hb.
  by replace ((a <=? b) && (b <? a + 4)) with false by lia.
Qed.

Lemma st16_writes m a v : 0 <= a -> a + 2 <= mlen m -> 0 <= v < 2 ^ 16 ->
  exists m', st16 m a v = Done m' /\ writes [(a, 2)] m m' /\ word16_at m' a = v.
Proof.
  intros Ha Hf Hv. destruct (st16_ok m a v) as (m' & E & L & U); [done..|]. exists m'. split; [done|]. split.
  - apply (writes_updated (a, 2) _ _ 2 (fun i => byte_of v i)); [done|cbn; lia|]. intros Hm.
    unfold st16 in E. apply bind_Done in E as (m1 & E1 & E2). rewrite st8_ok in E1 by lia. injection E1 as <-.
    rewrite st8_ok in E2 by (rewrite mlen_insert; lia). injection E2 as <-. repeat apply bytes_insert; try apply byte_of_range; done.
  - unfold word16_at. rewrite !U. replace ((a <=? a) && (a <? a + 2)) with true by lia. replace ((a <=? a + 1) && (a + 1 <? a + 2)) with true by lia.
    replace (a - a) with 0 by lia. replace (a + 1 - a) with 1 by lia. unfold le2, byte_of, wrap. rewrite !shr_eq by lia. change (8 * 0) with 0. change (8 * 1) with 8.
    change (2 ^ 16) with 65536 in Hv. change (2 ^ 0) with 1. change (2 ^ 8) with 256. Z.div_mod_to_equations. lia.
Qed.

Lemma writes_word16 rs m m' a : writes rs m m' -> apart (a, 2) rs -> word16_at m' a = word16_at m a.
Proof. intros Hw Ha. unfold word16_at. by rewrite !(writes_byte _ _ _ (a, 2) _ Hw Ha) by (unfold inside; cbn; lia). Qed.

(** A run of byte stores. *)
Fixpoint store_bytes (m : list Z) (a : Z) (bs : list Z) : run (list Z) :=
  match bs with
  | [] => Done m
  | b :: bs => m ← st8 m a b; store_bytes m (a + 1) bs
  end.

Lemma store_bytes_ok bs : forall m a, 0 <= a -> a + mlen bs <= mlen m -> bytes m -> bytes bs ->
  exists m', store_bytes m a bs = Done m' /\ writes [(a, mlen bs)] m m' /\ stored m' a bs.
Proof.
  induction bs as [|b bs IH]; intros m a Ha Hf Hm Hb.
  - exists m. split_and!; [done|reflexivity|]. split_and!; [done|change (mlen []) with 0 in *; lia|]. intros i Hi.
    change (mlen []) with 0 in Hi. lia.
  - rewrite mlen_cons in *. pose proof (mlen_nonneg bs). inversion_clear Hb as [|? ? Hb0 Hbs]. cbn [store_bytes].
    rewrite st8_ok by lia. run_step. set (m1 := <[Z.to_nat a := b]> m).
    assert (bytes m1) as Hm1 by by apply bytes_insert. assert (mlen m1 = mlen m) as L1 by apply mlen_insert.
    destruct (IH m1 (a + 1)) as (m' & E & W & Hst); [lia..|done|done|]. exists m'. split; [done|].
    assert (forall x, byte_at m1 x = if x =? a then b else byte_at m x) as H1 by (intros x; apply byte_at_insert; lia).
    assert (byte_at m' a = b) as H0.
    { rewrite (writes_frame _ _ _ W), H1, Z.eqb_refl; [done|]. intros r Hr. apply list_elem_of_singleton in Hr as ->. unfold inside. cbn. lia. }
    split.
    + constructor; [by rewrite (writes_len _ _ _ W)|intros _; by apply (writes_bytes _ _ _ W)|]. intros x Hx.
      specialize (Hx _ ltac:(by left)). unfold inside in Hx. cbn in Hx.
      rewrite (writes_frame _ _ _ W), H1; [by replace (x =? a) with false by lia|].
      intros r Hr. apply list_elem_of_singleton in Hr as ->. unfold inside. cbn. lia.
    + destruct Hst as (_ & Hl & Hst). split_and!; [done|rewrite (writes_len _ _ _ W), mlen_cons; lia|]. intros i Hi. rewrite mlen_cons in Hi.
      rewrite byte_at_cons. destruct (Z.eqb_spec i 0) as [->|]; [by rewrite Z.add_0_r|].
      rewrite <- Hst by lia. f_equal. lia.
Qed.

(** What is stored can be checked by evaluation. *)
Lemma stored_check m a bs : (0 <=? a) && (a + mlen bs <=? mlen m) && forall_range 0 (mlen bs) (fun i => byte_at m (a + i) =? byte_at bs i) = true ->
  stored m a bs.
Proof.
  intros [[H0 H1]%andb_true_iff H2]%andb_true_iff. split_and!; [lia|lia|]. intros i Hi. apply Z.eqb_eq.
  by apply (forall_range_spec 0 (mlen bs) (fun i => byte_at m (a + i) =? byte_at bs i)).
Qed.

Lemma stored_self bs : stored bs 0 bs.
Proof. split_and!; [done|lia|]. intros i _. done. Qed.

Lemma copy_out_stored m a bs : stored m a bs -> copy_out m a (mlen bs) = Done bs.
Proof.
  intros (Ha & Hf & Hb). destruct (copy_out_ok m a (mlen bs)) as (l & -> & Hl & Hlb); [done|apply mlen_nonneg|done|].
  f_equal. apply mem_ext; [done|]. rewrite Hl. intros i Hi. by rewrite Hlb, Hb.
Qed.

Lemma stored_bytes m a bs : bytes m -> stored m a bs -> bytes bs.
Proof.
  intros Hm (_ & _ & Hb). apply Forall_lookup_2. intros i x Hi. rewrite <- (byte_at_lookup _ _ _ Hi).
  apply lookup_lt_Some in Hi. rewrite <- Hb by (unfold mlen; lia). by apply byte_at_range.
Qed.
