(* ===== verification/Exfat.v ===== *)
(** * exFAT: checksums, sectors and directory lookup

    [exfat_checksum.rs] (the rolling sum behind the entry set checksum and the name
    hash), [exfat_get_sector.rs] and [exfat_find_lfn.rs].  The directory is read through
    three callbacks of the kernel; [Directory] states what the lookup relies on, and
    [Table] is an implementation of it.  [set_checksum_detects] is what the checksum is
    for; [exfat_lookup_first] shows that the lookup, hash filter included, returns the
    first entry with the name. *)

From stdpp Require Import base list sets.
From Stdlib Require Import ZArith Lia.
From S2P Require Import Prelude Layout Unicode Utf8Stream Fat.

(** ** The code *)

(** *** [exfat_checksum.rs] *)

Definition checksum_body (m : list Z) (data len : Z) (skip_indices_2_3 : bool) (st : Z * Z) : run (Z * Z + Z) :=
  let '(sum, i) := st in
  if i <? len then
    sum ← (if negb (skip_indices_2_3 && ((i =? 2) || (i =? 3))) then
             byte ← ld8 m (data + i);
             let rotated := if negb (Z.land sum 1 =? 0) then 0x8000 else 0 in
             let shifted := Z.shiftr sum 1 in
             Done (u16 (u16 (rotated + shifted) + byte))
           else Done sum);
    Done (inl (sum, i +ₘ 1))
  else Done (inr sum).

Definition exfat_rolling_checksum (m : list Z) (data len : Z) (skip_indices_2_3 : bool) : run Z :=
  loop (S (Z.to_nat len)) (checksum_body m data len skip_indices_2_3) (0, 0).

Definition calculate_set_checksum_field_sum (m : list Z) (buf len : Z) : run Z := exfat_rolling_checksum m buf len true.

Definition calculate_set_checksum_field (m : list Z) (buf len : Z) : run (list Z * Z) :=
  sum ← calculate_set_checksum_field_sum m buf len;
  m ← st16 m (buf + 2) sum;
  Done (m, sum).

Definition exfat_hash_calculate (m : list Z) (data len : Z) : run Z := exfat_rolling_checksum m data len false.

(** *** [exfat_get_sector.rs] *)

Definition exfat_get_sector (cluster sector_ofs sectors_per_cluster cluster_heap_start : Z) : Z :=
  fat_get_sector cluster sector_ofs sectors_per_cluster cluster_heap_start.

Definition exfat_get_sector_ptr (m : list Z) (pair sectors_per_cluster cluster_heap_start : Z) : run Z :=
  cluster ← ld32 m pair;
  sector_ofs ← ld32 m (pair + 4);
  Done (exfat_get_sector cluster sector_ofs sectors_per_cluster cluster_heap_start).

(** *** [exfat_find_lfn.rs] *)

Definition LFN_UTF16_UNITS : Z := 262.
Definition ERROR_FILE_NOT_FOUND : Z := 5.
Definition SLASH : Z := 0x2F.

(** The addresses the caller injects. *)
Record ExFatFindLfnCtx := mkCtx {
  secondary_dir_entry : Z; need_hash : Z; lfn_reserve_place : Z; path_in_utf8 : Z;
  current_hash : Z; valid_data_length : Z; pair : Z; esi_in : Z; edi_in : Z }.

Record CallbackOut := mkOut { cf : bool; o_eax : Z; o_esi : Z; o_edi : Z }.

(** The kernel's directory reader: each callback works on the whole memory. *)
Record ExFatFindLfnHooks := mkHooks {
  h_first : list Z -> Z -> Z -> run (list Z * CallbackOut);
  h_next : list Z -> Z -> Z -> run (list Z * CallbackOut);
  h_get_name : list Z -> Z -> Z -> run (list Z * CallbackOut) }.

Definition utf16_to_upper_eax (eax : Z) : Z :=
  let ax := u16 eax in
  if ax <? 97 then eax
  else if ax <=? 122 then eax -ₘ 32
  else if ax <? 0x0430 then eax
  else if ax <? 0x0450 then eax -ₘ 32
  else if 0x0460 <=? ax then eax
  else eax -ₘ 80.

Definition step_utf16 (m : list Z) (esi eax : Z) : run (Z * Z) :=
  '(esi, out) ← utf8to16_ptr m esi eax;
  Done (esi, utf16_to_upper_eax out).

(** The path component, upper case, into the name buffer; the result is the end. *)
Definition fill_body (st : list Z * Z * Z * Z * Z) : run (list Z * Z * Z * Z * Z + list Z * Z) :=
  let '(m, esi_path, eax, dst, filled) := st in
  '(esi_path, eax) ← step_utf16 m esi_path eax;
  m ← st16 m dst (u16 eax);
  let dst := dst + 2 in
  let filled := filled + 1 in
  let ax := u16 eax in
  if (ax =? 0) || (ax =? SLASH) || (LFN_UTF16_UNITS <=? filled) then Done (inr (m, dst))
  else Done (inl (m, esi_path, eax, dst, filled)).

(** The comparison of one entry: where the path goes on, or no match. *)
Inductive name_verdict := Same (esi : Z) | Differs.

Definition name_body (m : list Z) (st : Z * Z * Z) : run (Z * Z * Z + name_verdict) :=
  let '(pe, lfn_di, eax) := st in
  '(pe, eax) ← step_utf16 m pe eax;
  let dx := eax in
  unit ← ld16 m lfn_di;
  let eax := Z.lor (Z.land eax 0xFFFF0000) unit in
  let eax := utf16_to_upper_eax eax in
  if negb (u16 eax =? u16 dx) then
    if (u16 dx =? SLASH) && (u16 eax =? 0) then Done (inr (Same pe)) else Done (inr Differs)
  else
    let lfn_di := lfn_di + 2 in
    if u16 eax =? 0 then Done (inr (Same (pe - 1))) else Done (inl (pe, lfn_di, eax)).

(** What the lookup leaves behind: memory, [EAX], [ctx.esi_out], [ctx.edi_out]. *)
Record LookupOut := mkLookupOut { l_mem : list Z; l_eax : Z; esi_out : Z; edi_out : Z }.

Definition finish_found (ctx : ExFatFindLfnCtx) (hooks : ExFatFindLfnHooks) (m : list Z) (esi edi : Z) : run LookupOut :=
  secondary ← ld32 m (secondary_dir_entry ctx);
  if negb (secondary =? 0) then
    '(m, nxt) ← h_next hooks m (pair ctx) edi;
    if cf nxt then Done (mkLookupOut m (o_eax nxt) esi (o_edi nxt))
    else Done (mkLookupOut m 0 esi (o_edi nxt))
  else Done (mkLookupOut m 0 esi edi).

(** On to the next entry, unless there is none. *)
Definition advance (ctx : ExFatFindLfnCtx) (hooks : ExFatFindLfnHooks) (m : list Z) (edi esi_gn : Z)
    : run (list Z * Z * Z + LookupOut) :=
  vdl ← ld32 m (valid_data_length ctx);
  if vdl =? 0 then Done (inr (mkLookupOut m ERROR_FILE_NOT_FOUND (esi_in ctx) edi))
  else
    '(m, nxt) ← h_next hooks m (pair ctx) edi;
    if cf nxt then Done (inr (mkLookupOut m (o_eax nxt) (esi_in ctx) (o_edi nxt)))
    else Done (inl (m, o_edi nxt, esi_gn)).

Definition search_body (ctx : ExFatFindLfnCtx) (hooks : ExFatFindLfnHooks) (lfn : Z) (st : list Z * Z * Z)
    : run (list Z * Z * Z + LookupOut) :=
  let '(m, edi, esi_gn) := st in
  '(m, gn) ← h_get_name hooks m edi esi_gn;
  let esi_gn := o_esi gn in
  let edi := o_edi gn in
  secondary ← ld32 m (secondary_dir_entry ctx);
  if cf gn || negb (secondary =? 0) then advance ctx hooks m edi esi_gn
  else
    pe ← ld32 m (path_in_utf8 ctx);
    v ← loop (S (length m)) (name_body m) (pe, lfn, 0);
    match v with
    | Same esi => r ← finish_found ctx hooks m esi edi; Done (inr r)
    | Differs => advance ctx hooks m edi esi_gn
    end.

(** [lfn] is the address of the buffer on the stack; the number of entries a directory
    has is not known to the code, so the search takes fuel. *)
Definition exfat_find_lfn (fuel : nat) (ctx : ExFatFindLfnCtx) (hooks : ExFatFindLfnHooks) (m : list Z) (lfn : Z) : run LookupOut :=
  let path := esi_in ctx in
  m ← st32 m (secondary_dir_entry ctx) 1;
  m ← st32 m (need_hash ctx) 1;
  '(m, first) ← h_first hooks m (pair ctx) (edi_in ctx);
  if cf first then Done (mkLookupOut m (o_eax first) path (o_edi first))
  else
    m ← st32 m (lfn_reserve_place ctx) lfn;
    m ← st32 m (path_in_utf8 ctx) path;
    '(m, dst) ← loop (S (Z.to_nat LFN_UTF16_UNITS)) fill_body (m, path, lfn, lfn, 0);
    let byte_len := u32 (dst - lfn - 2) in
    hash ← exfat_hash_calculate m lfn byte_len;
    m ← st32 m (current_hash ctx) hash;
    loop fuel (search_body ctx hooks lfn) (m, o_edi first, path).

(** ** The rolling sum *)

(** The low bit moves to the top; then the byte is added, all modulo 2^16. *)
Definition roll (sum byte : Z) : Z := ((sum mod 2) * 0x8000 + sum / 2 + byte) mod 65536.

Lemma roll_range sum byte : 0 <= roll sum byte < 65536.
Proof. apply Z.mod_pos_bound. lia. Qed.

Lemma roll_inj_sum s1 s2 b : 0 <= s1 < 65536 -> 0 <= s2 < 65536 -> roll s1 b = roll s2 b -> s1 = s2.
Proof. unfold roll. intros. Z.div_mod_to_equations. lia. Qed.

Lemma roll_inj_byte s b1 b2 : is_byte b1 -> is_byte b2 -> roll s b1 = roll s b2 -> b1 = b2.
Proof. unfold roll, is_byte. intros. Z.div_mod_to_equations. lia. Qed.

Lemma roll_code sum byte : 0 <= sum < 65536 -> is_byte byte ->
  u16 (u16 ((if negb (Z.land sum 1 =? 0) then 0x8000 else 0) + Z.shiftr sum 1) + byte) = roll sum byte.
Proof.
  intros Hs Hb. rewrite (land_mask _ 1), shr_eq by lia. unfold wrap at 3, roll. rewrite wrap_add_l. unfold wrap.
  change (2 ^ 1) with 2. change (2 ^ 16) with 65536. f_equal.
  pose proof (Z.mod_pos_bound sum 2). assert (sum mod 2 = 0 \/ sum mod 2 = 1) as [->| ->] by lia; cbn; lia.
Qed.

(** The bytes that count. *)
Definition skipped (skip : bool) (i : nat) : bool := skip && ((i =? 2)%nat || (i =? 3)%nat).

Definition roll_at (skip : bool) (byte : nat -> Z) (sum : Z) (i : nat) : Z :=
  if skipped skip i then sum else roll sum (byte i).

Definition rolling (skip : bool) (byte : nat -> Z) (n : nat) : Z := foldl (roll_at skip byte) 0 (seq 0 n).

Lemma roll_fold_range skip byte l sum : 0 <= sum < 65536 -> 0 <= foldl (roll_at skip byte) sum l < 65536.
Proof.
  revert sum. induction l as [|i l IH]; intros sum Hs; [done|]. cbn [foldl]. apply IH.
  unfold roll_at. case_match; [done|]. apply roll_range.
Qed.

Lemma rolling_S skip byte n : rolling skip byte (S n) = roll_at skip byte (rolling skip byte n) n.
Proof. unfold rolling. by rewrite seq_S, foldl_app. Qed.

Lemma rolling_ext skip byte byte' n : (forall i, (i < n)%nat -> skipped skip i = false -> byte i = byte' i) ->
  rolling skip byte n = rolling skip byte' n.
Proof.
  induction n as [|n IH]; intros H; [done|]. rewrite !rolling_S, IH by (intros; apply H; [lia|done]).
  unfold roll_at. destruct (skipped skip n) eqn:E; [done|]. by rewrite H by (done || lia).
Qed.

(** A change of one byte that counts changes the sum. *)
Lemma rolling_single skip byte byte' n k : (forall i, is_byte (byte i)) -> (forall i, is_byte (byte' i)) ->
  (k < n)%nat -> skipped skip k = false -> byte k <> byte' k -> (forall i, i <> k -> byte i = byte' i) ->
  rolling skip byte n <> rolling skip byte' n.
Proof.
  intros Hb Hb' Hk Hs Hne Hsame. induction n as [|n IH]; [lia|]. rewrite !rolling_S.
  destruct (decide (k = n)) as [->|Hkn].
  - rewrite (rolling_ext skip byte byte' n) by (intros; apply Hsame; lia).
    unfold roll_at. rewrite Hs. intros E. by apply roll_inj_byte in E.
  - specialize (IH ltac:(lia)). unfold roll_at. destruct (skipped skip n); [done|].
    rewrite Hsame by done. intros E. apply roll_inj_sum in E; [done|apply roll_fold_range; lia..].
Qed.

Lemma rolling_ok m data len skip : bytes m -> 0 <= data -> 0 <= len < 2 ^ 32 -> data + len <= mlen m ->
  exfat_rolling_checksum m data len skip = Done (rolling skip (fun i => byte_at m (data + Z.of_nat i)) (Z.to_nat len)).
Proof.
  intros Hm Hd Hl Hfit. unfold exfat_rolling_checksum. set (byte := fun i => byte_at m (data + Z.of_nat i)).
  pose proof (scan_loop (checksum_body m data len skip) (fun i => (rolling skip byte i, Z.of_nat i)) (Z.to_nat len) 0
    (S (Z.to_nat len)) (fun _ => false) (fun _ => 0) (rolling skip byte (Z.to_nat len))) as E.
  cbv beta in E. change (rolling skip byte 0) with 0 in E. change (Z.of_nat 0) with 0 in E. rewrite E; clear E; try lia.
  - f_equal. pose proof (first_from_spec (fun _ => false) 0 (Z.to_nat len)) as Hf.
    destruct (first_from _ _ _); [by destruct Hf as (_ & ? & _)|done].
  - intros i Hi. unfold checksum_body. rewrite (proj2 (Z.ltb_lt _ _)) by lia.
    rewrite rolling_S. unfold roll_at.
    replace (skip && ((Z.of_nat i =? 2) || (Z.of_nat i =? 3))) with (skipped skip i) 
      by (unfold skipped; destruct skip, (Z.eqb_spec (Z.of_nat i) 2), (Z.eqb_spec (Z.of_nat i) 3), (Nat.eqb_spec i 2), (Nat.eqb_spec i 3); done || lia).
    destruct (skipped skip i); cbn [negb].
    + run_step. rewrite wrap_small by lia. do 3 f_equal. lia.
    + rewrite ld8_ok by lia. run_step. rewrite roll_code; [|apply roll_fold_range; lia|by apply byte_at_range].
      rewrite wrap_small by lia. unfold byte. do 3 f_equal. lia.
  - unfold checksum_body. by rewrite Z2Nat.id, Z.ltb_irrefl by lia.
Qed.

(** ** The checksum protects the entry set *)

Lemma set_checksum_ok m buf len : bytes m -> 0 <= buf -> 4 <= len < 2 ^ 32 -> buf + len <= mlen m ->
  exists m' sum, calculate_set_checksum_field m buf len = Done (m', sum) /\ 0 <= sum < 65536 /\ bytes m' /\
    updated m m' (buf + 2) 2 (fun i => byte_of sum i) /\ word16_at m' (buf + 2) = sum /\
    calculate_set_checksum_field_sum m' buf len = Done sum.
Proof.
  intros Hm Hb Hl Hfit. unfold calculate_set_checksum_field, calculate_set_checksum_field_sum.
  rewrite rolling_ok by (done || lia). run_step. set (sum := rolling true _ _).
  assert (0 <= sum < 65536) as Hs by (apply roll_fold_range; lia).
  destruct (st16_ok m (buf + 2) sum) as (m' & -> & Hu); [lia..|]. run_step. exists m', sum.
  assert (bytes m') as Hm' by (eapply bytes_updated; [done|exact Hu|intros; apply byte_of_range]).
  split_and!; try done; try lia.
  - destruct Hu as [_ Hu]. unfold word16_at. rewrite !Hu.
    replace ((buf + 2 <=? buf + 2) && (buf + 2 <? buf + 2 + 2)) with true by lia.
    replace ((buf + 2 <=? buf + 2 + 1) && (buf + 2 + 1 <? buf + 2 + 2)) with true by lia.
    replace (buf + 2 - (buf + 2)) with 0 by lia. replace (buf + 2 + 1 - (buf + 2)) with 1 by lia.
    unfold byte_of, le2, wrap. rewrite !shr_eq by lia. change (2 ^ 8) with 256. change (2 ^ (8 * 0)) with 1.
    change (2 ^ (8 * 1)) with 256. Z.div_mod_to_equations. lia.
  - rewrite rolling_ok by (done || lia || (destruct Hu as [-> _]; lia)). f_equal. apply rolling_ext.
    intros i Hi Hk. apply (updated_outside _ _ _ _ _ _ Hu).
    unfold skipped in Hk. destruct (Nat.eqb_spec i 2), (Nat.eqb_spec i 3); try done. lia.
Qed.

Lemma set_checksum_flip m buf len k v sum : bytes m -> 0 <= buf -> 4 <= len < 2 ^ 32 -> buf + len <= mlen m ->
  calculate_set_checksum_field_sum m buf len = Done sum -> word16_at m (buf + 2) = sum ->
  0 <= k < len -> is_byte v -> v <> byte_at m (buf + k) ->
  exists sum', calculate_set_checksum_field_sum (<[Z.to_nat (buf + k) := v]> m) buf len = Done sum' /\
    sum' <> word16_at (<[Z.to_nat (buf + k) := v]> m) (buf + 2).
Proof.
  intros Hm Hb Hl Hfit E Hw Hk Hv Hne. unfold calculate_set_checksum_field_sum in *. set (m' := <[_ := v]> m).
  assert (bytes m') as Hm' by by apply bytes_insert.
  assert (forall a, byte_at m' a = if a =? buf + k then v else byte_at m a) as Hat by (intros a; apply byte_at_insert; lia).
  rewrite rolling_ok in E by (done || lia). injection E as E.
  rewrite rolling_ok by (done || lia || (unfold m'; rewrite mlen_insert; lia)). eexists. split; [done|].
  destruct (decide (k = 2 \/ k = 3)) as [H23|H23].
  - rewrite (rolling_ext true _ (fun i => byte_at m (buf + Z.of_nat i))), E, <- Hw.
    + unfold word16_at, le2. rewrite !Hat. pose proof (byte_at_range m (buf + 2) Hm). pose proof (byte_at_range m (buf + 3) Hm).
      unfold is_byte in *. destruct H23 as [->| ->].
      * rewrite Z.eqb_refl. replace (buf + 2 + 1 =? buf + 2) with false by lia. lia.
      * replace (buf + 2 =? buf + 3) with false by lia. replace (buf + 2 + 1) with (buf + 3) by lia. rewrite Z.eqb_refl. lia.
    + intros i Hi Hs. rewrite Hat. replace (buf + Z.of_nat i =? buf + k) with false; [done|].
      symmetry. apply Z.eqb_neq. unfold skipped in Hs. destruct (Nat.eqb_spec i 2), (Nat.eqb_spec i 3); try done. lia.
  - replace (word16_at m' (buf + 2)) with sum.
    + rewrite <- E. apply (rolling_single _ _ _ _ (Z.to_nat k)); try (intros; by apply byte_at_range); [lia|..].
      * unfold skipped. destruct (Nat.eqb_spec (Z.to_nat k) 2), (Nat.eqb_spec (Z.to_nat k) 3); try done; lia.
      * rewrite Hat, Z2Nat.id, Z.eqb_refl by lia. done.
      * intros i Hi. rewrite Hat. replace (buf + Z.of_nat i =? buf + k) with false; [done|]. symmetry. apply Z.eqb_neq. lia.
    + rewrite <- Hw. unfold word16_at. rewrite !Hat.
      replace (buf + 2 =? buf + k) with false by lia. by replace (buf + 2 + 1 =? buf + k) with false by lia.
Qed.

(** ** The name the path asks for *)

Lemma upper_eax_ok e : 0 <= e < 2 ^ 32 ->
  u16 (utf16_to_upper_eax e) = utf16_to_upper (u16 e) /\ 0 <= utf16_to_upper_eax e < 2 ^ 32.
Proof.
  intros He. unfold utf16_to_upper_eax, utf16_to_upper.
  assert (forall k, 0 <= k <= u16 e -> u16 (e -ₘ k) = u16 (u16 e - k) /\ 0 <= e -ₘ k < 2 ^ 32) as Hs.
  { intros k Hk. split; [|by apply wrap_range]. unfold wrap in *. change (2 ^ 16) with 65536 in *. change (2 ^ 32) with 4294967296 in *.
    Z.div_mod_to_equations. lia. }
  repeat case_match; try done; apply Hs; lia.
Qed.

Lemma upper_bound c : 0 <= c < 65536 -> 0 <= utf16_to_upper c < 65536.
Proof. intros. unfold utf16_to_upper. repeat case_match; try done; by apply (wrap_range 16). Qed.

(** Nothing else becomes a slash or a NUL. *)
Lemma upper_stop c s : 0 <= c < 65536 -> s = 0 \/ s = 47 -> utf16_to_upper c = s -> c = s.
Proof.
  intros Hc Hs. unfold utf16_to_upper. repeat case_match; try done; intros E; exfalso; unfold wrap in E;
    rewrite Z.mod_small in E by lia; lia.
Qed.

Lemma step_utf16_ok m esi c eax : 0 <= c < 65536 -> stored m esi (utf8_bytes c) -> 0 <= eax < 2 ^ 32 ->
  exists e, step_utf16 m esi eax = Done (esi + utf8_len c, e) /\ u16 e = utf16_to_upper c /\ 0 <= e < 2 ^ 32.
Proof.
  intros Hc Hs He. unfold step_utf16. destruct (utf8to16_ptr_ok m esi c eax Hc Hs He) as (e & -> & Eu & Hr). run_step.
  destruct (upper_eax_ok e Hr) as [Eu' Hr']. rewrite Eu in Eu'. eauto.
Qed.

(** A path component and what ends it. *)
Definition component (m : list Z) (path : Z) (cs : list Z) (stop : Z) : Prop :=
  stored m path (mjoin (utf8_bytes <$> cs) ++ [stop]) /\ (stop = 47 \/ stop = 0) /\
  Forall (fun c => 0 <= c < 65536 /\ c <> 47 /\ c <> 0) cs /\ mlen cs < 262.

(** UTF-16 in memory. *)
Definition wide (us : list Z) : list Z := mjoin ((fun u => [u mod 256; u / 256]) <$> us).

Lemma wide_cons u us : wide (u :: us) = [u mod 256; u / 256] ++ wide us.
Proof. done. Qed.

Lemma mlen_wide us : mlen (wide us) = 2 * mlen us.
Proof. induction us as [|u us IH]; [done|]. rewrite wide_cons, mlen_app, IH, !mlen_cons. change (mlen []) with 0. lia. Qed.

Lemma bytes_wide us : Forall (fun u => 0 <= u < 65536) us -> bytes (wide us).
Proof.
  induction 1 as [|u us Hu _ IH]; [constructor|]. rewrite wide_cons. apply Forall_app. split; [|done].
  repeat constructor; unfold is_byte; Z.div_mod_to_equations; lia.
Qed.

(** The exFAT name hash of a name, upper case. *)
Definition name_hash (us : list Z) : Z := rolling false (fun i => byte_at (wide us) (Z.of_nat i)) (2 * length us).

Lemma stop_bytes stop : stop = 47 \/ stop = 0 -> utf8_bytes stop = [stop] /\ utf8_len stop = 1 /\ utf16_to_upper stop = stop.
Proof. by intros [->| ->]. Qed.

(** A unit stored. *)
Lemma store_unit m dst v : 0 <= v < 65536 -> 0 <= dst -> dst + 2 <= mlen m ->
  exists m', st16 m dst v = Done m' /\ updated m m' dst 2 (byte_at [v mod 256; v / 256]).
Proof.
  intros Hv Hd Hf. destruct (st16_ok m dst v) as (m' & E & Hl & Hu); [lia..|]. exists m'. split; [done|]. split; [done|].
  intros a. rewrite Hu. destruct ((dst <=? a) && (a <? dst + 2)) eqn:Ea; [|done].
  unfold byte_of, wrap. rewrite shr_eq by lia. change (2 ^ 8) with 256.
  assert (a - dst = 0 \/ a - dst = 1) as [->| ->] by lia; cbn [Z.mul].
  - change (2 ^ 0) with 1. rewrite Z.div_1_r. done.
  - change (2 ^ 8) with 256. change (byte_at _ 1) with (v / 256). apply Z.mod_small. Z.div_mod_to_equations. lia.
Qed.

(** One unit of the path into the buffer. *)
Lemma fill_turn m esi c eax dst filled : 0 <= c < 65536 -> stored m esi (utf8_bytes c) -> 0 <= eax < 2 ^ 32 ->
  0 <= dst -> dst + 2 <= mlen m ->
  exists m' e, fill_body (m, esi, eax, dst, filled) = Done (
      if (utf16_to_upper c =? 0) || (utf16_to_upper c =? SLASH) || (262 <=? filled + 1) then inr (m', dst + 2)
      else inl (m', esi + utf8_len c, e, dst + 2, filled + 1)) /\ 0 <= e < 2 ^ 32 /\
    updated m m' dst 2 (byte_at [utf16_to_upper c mod 256; utf16_to_upper c / 256]).
Proof.
  intros Hc Hs He Hd Hf. unfold fill_body. destruct (step_utf16_ok m esi c eax Hc Hs He) as (e & -> & Eu & Hr). run_step.
  rewrite Eu. destruct (store_unit m dst (utf16_to_upper c) (upper_bound c Hc) Hd Hf) as (m' & -> & Hu). run_step.
  exists m', e. split_and!; try done; try lia. unfold LFN_UTF16_UNITS. by destruct (_ || _ || _).
Qed.

Lemma fill_loop stop cs : stop = 47 \/ stop = 0 -> Forall (fun c => 0 <= c < 65536 /\ c <> 47 /\ c <> 0) cs ->
  forall m esi eax dst filled n, stored m esi (mjoin (utf8_bytes <$> cs) ++ [stop]) -> bytes m -> 0 <= eax < 2 ^ 32 ->
  0 <= dst -> dst + 2 * (mlen cs + 1) <= mlen m -> 0 <= filled -> filled + mlen cs + 1 <= 262 -> (length cs < n)%nat ->
  disjoint esi (mlen (mjoin (utf8_bytes <$> cs)) + 1) dst (2 * (mlen cs + 1)) ->
  exists m', loop n fill_body (m, esi, eax, dst, filled) = Done (m', dst + 2 * (mlen cs + 1)) /\
    updated m m' dst (mlen (wide ((utf16_to_upper <$> cs) ++ [stop]))) (byte_at (wide ((utf16_to_upper <$> cs) ++ [stop]))).
Proof.
  intros Hstop Hcs. destruct (stop_bytes stop Hstop) as (Eb & El & Eu).
  induction Hcs as [|c cs (Hc & Hc47 & Hc0) Hcs IH]; intros m esi eax dst filled n Hs Hm He Hd Hfit Hf0 Hf Hn Hdj;
    (destruct n as [|n]; [lia|]); rewrite loop_S.
  - change (mjoin (utf8_bytes <$> [])) with (@nil Z) in *. cbn [app] in Hs. change (mlen []) with 0 in *. rewrite <- Eb in Hs.
    destruct (fill_turn m esi stop eax dst filled) as (m' & e & -> & _ & Hu); try done; [lia..|]. rewrite Eu in *.
    replace ((stop =? 0) || (stop =? SLASH) || (262 <=? filled + 1)) with true by (unfold SLASH; lia). run_step.
    exists m'. by split; [rewrite Z.mul_1_r|].
  - rewrite fmap_cons, mjoin_cons in Hs, Hdj.
    rewrite <- app_assoc in Hs. apply stored_app in Hs as [Hs1 Hs2]. rewrite mlen_app in Hdj. rewrite mlen_cons in *.
    change (mlen (utf8_bytes c)) with (utf8_len c) in *. pose proof (mlen_nonneg cs). pose proof (utf8_len_pos c).
    pose proof (mlen_nonneg (mjoin (utf8_bytes <$> cs))).
    destruct (fill_turn m esi c eax dst filled) as (m1 & e & -> & Her & Hu); try done; [lia..|].
    assert (utf16_to_upper c <> 0) by (intros E; by apply Hc0, upper_stop; [|left|]).
    assert (utf16_to_upper c <> 47) by (intros E; by apply Hc47, upper_stop; [|right|]).
    replace ((utf16_to_upper c =? 0) || (utf16_to_upper c =? SLASH) || (262 <=? filled + 1)) with false by (unfold SLASH; lia).
    run_step. unfold disjoint in Hdj.
    destruct (IH m1 (esi + utf8_len c) e (dst + 2) (filled + 1) n) as (m2 & E2 & Hu2); try lia.
    + eapply stored_frame; [exact Hs2|exact Hu|].
      unfold disjoint. rewrite mlen_app, mlen_cons. change (mlen []) with 0. lia.
    + eapply bytes_updated; [done|exact Hu|]. intros i _. apply byte_at_range. pose proof (upper_bound c Hc).
      repeat constructor; unfold is_byte; Z.div_mod_to_equations; lia.
    + destruct Hu as [-> _]. lia.
    + cbn in Hn. lia.
    + unfold disjoint. lia.
    + exists m2. split; [rewrite E2; do 2 f_equal; lia|].
      change (wide ((utf16_to_upper <$> c :: cs) ++ [stop])) with
        ([utf16_to_upper c mod 256; utf16_to_upper c / 256] ++ wide ((utf16_to_upper <$> cs) ++ [stop])).
      by eapply updated_app.
Qed.

(** *** Comparing an entry's name with the path *)

Lemma name_turn m pe di eax c u : 0 <= c < 65536 -> stored m pe (utf8_bytes c) -> 0 <= eax < 2 ^ 32 ->
  0 <= u < 65536 -> 0 <= di -> di + 2 <= mlen m -> word16_at m di = u ->
  exists e, 0 <= e < 2 ^ 32 /\ name_body m (pe, di, eax) = Done (
    if utf16_to_upper u =? utf16_to_upper c then
      if utf16_to_upper u =? 0 then inr (Same (pe + utf8_len c - 1)) else inl (pe + utf8_len c, di + 2, e)
    else if (utf16_to_upper c =? SLASH) && (utf16_to_upper u =? 0) then inr (Same (pe + utf8_len c)) else inr Differs).
Proof.
  intros Hc Hs He Hu Hd Hf Hw. unfold name_body. destruct (step_utf16_ok m pe c eax Hc Hs He) as (e & -> & Eu & Hr). run_step.
  rewrite ld16_ok, Hw by lia. run_step. fold (set_ax e u). rewrite set_ax_eq by lia.
  set (e1 := e / 65536 * 65536 + u). assert (0 <= e1 < 2 ^ 32 /\ u16 e1 = u) as [Hr1 Eu1].
  { unfold e1, wrap. change (2 ^ 16) with 65536. change (2 ^ 32) with 4294967296 in *. Z.div_mod_to_equations. lia. }
  destruct (upper_eax_ok e1 Hr1) as [E2 Hr2]. rewrite Eu1 in E2. rewrite E2, Eu.
  exists (utf16_to_upper_eax e1). split; [done|]. rewrite (Z.eqb_sym (utf16_to_upper u) 0).
  destruct (utf16_to_upper u =? utf16_to_upper c); cbn [negb]; [by destruct (0 =? _)|].
  by destruct ((utf16_to_upper c =? SLASH) && _).
Qed.

Lemma word16_wide m di u us : stored m di (wide (u :: us)) -> 0 <= u < 65536 ->
  0 <= di /\ di + 2 <= mlen m /\ word16_at m di = u /\ stored m (di + 2) (wide us).
Proof.
  rewrite wide_cons. intros Hs Hu. pose proof Hs as (H0 & Hl & Hb). rewrite mlen_app in Hl.
  change (mlen [_; _]) with 2 in Hl. pose proof (mlen_nonneg (wide us)). split_and!; [done|lia| |by apply stored_app in Hs as [_ Hs]].
  unfold word16_at. pose proof (Hb 0) as B0. pose proof (Hb 1) as B1. rewrite mlen_app in B0, B1.
  change (mlen [_; _]) with 2 in B0, B1. rewrite Z.add_0_r in B0. rewrite B0, B1 by lia.
  change (byte_at (_ ++ _) 0) with (u mod 256). change (byte_at (_ ++ _) 1) with (u / 256).
  unfold le2. pose proof (Z.div_mod u 256). lia.
Qed.

(** Where the path goes on after the component. *)
Definition after_component (path : Z) (cs : list Z) (stop : Z) : Z :=
  path + mlen (mjoin (utf8_bytes <$> cs)) + (if stop =? 47 then 1 else 0).

Definition same_name (us cs : list Z) : bool := bool_decide (utf16_to_upper <$> us = utf16_to_upper <$> cs).

Abbreviation plain := (Forall (fun c => 0 <= c < 65536 /\ c <> 47 /\ c <> 0)).

Lemma upper_plain c : 0 <= c < 65536 -> c <> 47 -> c <> 0 -> utf16_to_upper c <> 47 /\ utf16_to_upper c <> 0.
Proof. intros Hc H47 H0. split; intros E; [by apply H47, upper_stop; [|right|]|by apply H0, upper_stop; [|left|]]. Qed.

Lemma name_hash_loop stop cs : stop = 47 \/ stop = 0 -> plain cs -> forall us m pe di eax n, plain us ->
  stored m pe (mjoin (utf8_bytes <$> cs) ++ [stop]) -> stored m di (wide (us ++ [0])) -> 0 <= eax < 2 ^ 32 ->
  (length cs < n)%nat ->
  loop n (name_body m) (pe, di, eax) = Done (if same_name us cs then Same (after_component pe cs stop) else Differs).
Proof.
  intros Hstop Hcs. destruct (stop_bytes stop Hstop) as (Eb & El & Eu).
  induction Hcs as [|c cs (Hc & Hc47 & Hc0) Hcs IH]; intros us m pe di eax n Hus Hs Hw He Hn; (destruct n as [|n]; [lia|]); rewrite loop_S.
  - change (mjoin (utf8_bytes <$> [])) with (@nil Z) in *. cbn [app] in Hs. rewrite <- Eb in Hs.
    destruct us as [|u us].
    + destruct (word16_wide _ _ _ _ Hw) as (? & ? & Hw16 & _); [lia|].
      destruct (name_turn m pe di eax stop 0) as (e & _ & ->); try done; [lia..|]. rewrite El, Eu. run_step.
      change (same_name [] []) with true. unfold after_component. change (mlen (mjoin (utf8_bytes <$> []))) with 0.
      destruct Hstop as [->| ->]; cbn; do 2 f_equal; lia.
    + inversion_clear Hus as [|? ? (Hu & Hu47 & Hu0) _]. destruct (word16_wide _ _ _ _ Hw Hu) as (? & ? & Hw16 & _).
      destruct (name_turn m pe di eax stop u) as (e & _ & ->); try done; [lia|]. rewrite El, Eu.
      destruct (upper_plain u Hu Hu47 Hu0). unfold same_name. rewrite bool_decide_false by done.
      replace (utf16_to_upper u =? stop) with false by lia. replace (utf16_to_upper u =? 0) with false by lia.
      by rewrite andb_false_r.
  - rewrite fmap_cons, mjoin_cons in Hs. rewrite <- app_assoc in Hs. apply stored_app in Hs as [Hs1 Hs2].
    change (mlen (utf8_bytes c)) with (utf8_len c) in *. destruct (upper_plain c Hc Hc47 Hc0).
    destruct us as [|u us].
    + destruct (word16_wide _ _ _ _ Hw) as (? & ? & Hw16 & _); [lia|].
      destruct (name_turn m pe di eax c 0) as (e & _ & ->); try done; try lia. change (utf16_to_upper 0) with 0.
      replace (0 =? utf16_to_upper c) with false by lia. unfold SLASH. by replace (utf16_to_upper c =? 47) with false by lia.
    + inversion_clear Hus as [|? ? (Hu & Hu47 & Hu0) Hus']. destruct (word16_wide _ _ _ _ Hw Hu) as (? & ? & Hw16 & Hw').
      destruct (name_turn m pe di eax c u) as (e & Her & ->); try done.
      unfold same_name. rewrite !fmap_cons. destruct (Z.eqb_spec (utf16_to_upper u) (utf16_to_upper c)) as [Ec|Ec].
      * replace (utf16_to_upper u =? 0) with false by lia. run_step. cbn in Hn.
        rewrite (IH us m _ _ e n Hus' Hs2 Hw' Her) by lia. unfold same_name, after_component.
        rewrite fmap_cons, mjoin_cons, mlen_app. change (mlen (utf8_bytes c)) with (utf8_len c).
        rewrite Ec. destruct (decide (utf16_to_upper <$> us = utf16_to_upper <$> cs)) as [E|E].
        -- rewrite !bool_decide_true by (by rewrite ?E). do 2 f_equal. lia.
        -- rewrite !bool_decide_false by congruence. done.
      * rewrite bool_decide_false by congruence. unfold SLASH. by replace (utf16_to_upper c =? 47) with false by lia.
Qed.

Lemma name_hash_stored m a us : stored m a (wide us) ->
  rolling false (fun i => byte_at m (a + Z.of_nat i)) (2 * length us) = name_hash us.
Proof.
  intros (_ & _ & H). apply rolling_ext. intros i Hi _. apply H. rewrite mlen_wide. unfold mlen. lia.
Qed.

(** ** The directory behind the callbacks *)

(** A complete entry set: its name and the hash stored in it. *)
Record dent := mkDent { d_name : list Z; d_hash : Z }.

(** What an exFAT volume guarantees of it. *)
Definition dent_ok (d : dent) : Prop := plain (d_name d) /\ d_hash d = name_hash (utf16_to_upper <$> d_name d).

Section Lookup.
Context (ctx : ExFatFindLfnCtx) (hooks : ExFatFindLfnHooks) (lfn : Z) (path_len : Z) (no_more : Z).

Local Abbreviation path := (esi_in ctx).

(** What the lookup itself writes: the fields and the buffer on the stack. *)
Definition scratch : list region :=
  [(secondary_dir_entry ctx, 4); (need_hash ctx, 4); (lfn_reserve_place ctx, 4); (path_in_utf8 ctx, 4); (current_hash ctx, 4); (lfn, 524)].

(** What the callbacks must leave alone. *)
Definition guarded : list region :=
  [(path_in_utf8 ctx, 4); (current_hash ctx, 4); (valid_data_length ctx, 4); (path, path_len)].

Definition kept (m m' : list Z) : Prop :=
  mlen m' = mlen m /\ bytes m' /\ forall r a, r ∈ guarded -> inside a r -> byte_at m' a = byte_at m a.

(** The kernel's reader: [ready m es], before the first entry of [es]; [at_ m edi es], on
    the first entry of [es], with [edi] as its pointer.  [None] is a directory record that
    does not complete an entry set. *)
Class Directory (ready : list Z -> list (option dent) -> Prop) (at_ : list Z -> Z -> list (option dent) -> Prop) : Prop := {
  ready_frame m m' es : ready m es -> writes scratch m m' -> ready m' es;
  at_frame m m' edi es : at_ m edi es -> writes scratch m m' -> at_ m' edi es;
  first_ok m edi es : bytes m -> ready m es ->
    exists m' out, h_first hooks m (pair ctx) edi = Done (m', out) /\ kept m m' /\
      match es with
      | [] => cf out = true /\ o_eax out = no_more
      | _ => cf out = false /\ at_ m' (o_edi out) es
      end;
  next_ok m edi e es : bytes m -> at_ m edi (e :: es) ->
    exists m' out, h_next hooks m (pair ctx) edi = Done (m', out) /\ kept m m' /\
      match es with
      | [] => cf out = true /\ o_eax out = no_more
      | _ => cf out = false /\ at_ m' (o_edi out) es
      end;
  (** An entry set whose hash is the wanted one delivers its name; anything else is
      reported by the carry flag or by records still to come. *)
  get_name_ok m edi esi e es : bytes m -> at_ m edi (e :: es) ->
    exists m' out, h_get_name hooks m edi esi = Done (m', out) /\ kept m m' /\ at_ m' (o_edi out) (e :: es) /\
      match e with
      | Some d =>
          if word_at m (current_hash ctx) =? d_hash d then
            cf out = false /\ word_at m' (secondary_dir_entry ctx) = 0 /\ stored m' lfn (wide (d_name d ++ [0]))
          else cf out || negb (word_at m' (secondary_dir_entry ctx) =? 0) = true
      | None => cf out || negb (word_at m' (secondary_dir_entry ctx) =? 0) = true
      end
}.

(** The entries from the first one with the name on. *)
Fixpoint find_name (cs : list Z) (es : list (option dent)) : option (list (option dent)) :=
  match es with
  | [] => None
  | e :: t => if match e with Some d => same_name (d_name d) cs | None => false end then Some es else find_name cs t
  end.

Context {ready : list Z -> list (option dent) -> Prop} {at_ : list Z -> Z -> list (option dent) -> Prop}.
Context `{Dir : !Directory ready at_}.
Context (size : Z) (cs : list Z) (stop : Z).
Hypothesis Hsep : separate size
  [(secondary_dir_entry ctx, 4); (need_hash ctx, 4); (lfn_reserve_place ctx, 4); (path_in_utf8 ctx, 4);
   (current_hash ctx, 4); (valid_data_length ctx, 4); (lfn, 524); (path, path_len)].
Hypothesis Hlen : path_len = mlen (mjoin (utf8_bytes <$> cs)) + 1.
Hypothesis Hstop : stop = 47 \/ stop = 0.
Hypothesis Hcs : plain cs.
Hypothesis Hshort : mlen cs < 262.

(** What stays true between the turns of the search. *)
Record searching (h : Z) (m : list Z) : Prop := {
  s_bytes : bytes m;
  s_len : mlen m = size;
  s_path : stored m path (mjoin (utf8_bytes <$> cs) ++ [stop]);
  s_vdl : word_at m (valid_data_length ctx) <> 0;
  s_ptr : word_at m (path_in_utf8 ctx) = path;
  s_hash : word_at m (current_hash ctx) = h
}.

Lemma kept_word m m' a : kept m m' -> (a, 4) ∈ guarded -> word_at m' a = word_at m a.
Proof. intros (_ & _ & F) Ha. unfold word_at. by rewrite !(F (a, 4)) by (done || unfold inside; cbn; lia). Qed.

Lemma kept_path m m' : kept m m' -> stored m path (mjoin (utf8_bytes <$> cs) ++ [stop]) ->
  stored m' path (mjoin (utf8_bytes <$> cs) ++ [stop]).
Proof.
  intros (L & _ & F) (H0 & Hl & Hb). split_and!; [done|by rewrite L|]. intros i Hi.
  rewrite (F (path, path_len)); [by apply Hb|unfold guarded; set_solver|].
  rewrite mlen_app in Hi. change (mlen [stop]) with 1 in Hi. unfold inside. cbn. lia.
Qed.

Lemma kept_searching h m m' : searching h m -> kept m m' -> searching h m'.
Proof.
  intros [B L P V T C] K. pose proof K as (KL & KB & _). split; [done|lia|by eapply kept_path| | |];
    rewrite (kept_word _ _ _ K) by (unfold guarded; set_solver); done.
Qed.

Lemma field_load m a : mlen m = size -> (a, 4) ∈ (scratch ++ guarded) -> ld32 m a = Done (word_at m a).
Proof.
  intros L Ha. assert (0 <= a /\ a + 4 <= size) as [? ?]; [|apply ld32_ok; lia].
  destruct (separate_bounds _ _ (a, 4) Hsep) as [? ?]; [|done].
  unfold scratch, guarded in Ha. clear -Ha. set_solver.
Qed.

Lemma advance_ok h m edi gn e es : searching h m -> at_ m edi (e :: es) ->
  exists r, advance ctx hooks m edi gn = Done r /\
    match es with
    | [] => exists out, r = inr out /\ l_eax out = no_more /\ esi_out out = path
    | _ => exists m' edi' gn', r = inl (m', edi', gn') /\ searching h m' /\ at_ m' edi' es
    end.
Proof.
  intros Hs Hat. unfold advance. rewrite (field_load m (valid_data_length ctx)) by (apply Hs || (unfold scratch, guarded; set_solver)).
  run_step. replace (word_at m (valid_data_length ctx) =? 0) with false by (pose proof (s_vdl _ _ Hs); lia).
  destruct (next_ok m edi e es) as (m' & out & -> & Hk & Hout); [apply Hs|done|]. run_step.
  destruct es as [|e' es]; destruct Hout as [-> Ho]; eexists; (split; [done|]).
  - by eexists.
  - exists m', (o_edi out), gn. split_and!; [done|by eapply kept_searching|done].
Qed.

Definition is_match (e : option dent) : bool := match e with Some d => same_name (d_name d) cs | None => false end.

(** One entry: found, or on to the next. *)
Lemma search_turn m edi gn e es : searching (name_hash (utf16_to_upper <$> cs)) m -> at_ m edi (e :: es) ->
  match e with Some d => dent_ok d | None => True end ->
  exists r, search_body ctx hooks lfn (m, edi, gn) = Done r /\
    if is_match e then exists out, r = inr out /\ l_eax out = 0 /\ esi_out out = after_component path cs stop /\
        at_ (l_mem out) (edi_out out) (e :: es)
    else match es with
    | [] => exists out, r = inr out /\ l_eax out = no_more /\ esi_out out = path
    | _ => exists m' edi' gn', r = inl (m', edi', gn') /\ searching (name_hash (utf16_to_upper <$> cs)) m' /\ at_ m' edi' es
    end.
Proof.
  intros Hs Hat Hok. unfold search_body.
  destruct (get_name_ok m edi gn e es) as (m1 & g & -> & Hk & Hat1 & Hg); [apply Hs|done|]. run_step.
  pose proof (kept_searching _ _ _ Hs Hk) as Hs1. pose proof (s_len _ _ Hs1) as L1.
  rewrite (field_load m1 (secondary_dir_entry ctx) L1) by (unfold scratch, guarded; set_solver). run_step.
  rewrite (s_hash _ _ Hs) in Hg.
  assert (exists r, advance ctx hooks m1 (o_edi g) (o_esi g) = Done r /\ match es with
    | [] => exists out, r = inr out /\ l_eax out = no_more /\ esi_out out = path
    | _ => exists m' edi' gn', r = inl (m', edi', gn') /\ searching (name_hash (utf16_to_upper <$> cs)) m' /\ at_ m' edi' es
    end) as Hadv by (by eapply advance_ok).
  destruct e as [d|]; cbn [is_match] in *; [|by rewrite Hg].
  destruct Hok as [Hpl Hh]. destruct (Z.eqb_spec (name_hash (utf16_to_upper <$> cs)) (d_hash d)) as [Eh|Eh].
  2:{ rewrite Hg. assert (same_name (d_name d) cs = false) as ->; [|done].
      apply bool_decide_false. intros E. by rewrite Hh, E in Eh. }
  destruct Hg as (Hcf & Hsec & Hn). rewrite Hcf, Hsec. cbn [orb negb Z.eqb].
  rewrite (field_load m1 (path_in_utf8 ctx) L1) by (unfold scratch, guarded; set_solver). rewrite (s_ptr _ _ Hs1). run_step.
  rewrite (name_hash_loop stop cs Hstop Hcs (d_name d)); [|done|apply Hs1|done|lia|].
  2:{ pose proof (s_path _ _ Hs1) as (H0 & Hl & _). rewrite mlen_app in Hl. change (mlen [stop]) with 1 in Hl.
      pose proof (text_length cs). unfold mlen in *. lia. }
  run_step. destruct (same_name (d_name d) cs).
  - unfold finish_found. rewrite (field_load m1 (secondary_dir_entry ctx) L1) by (unfold scratch, guarded; set_solver).
    rewrite Hsec. run_step. eexists. split; [reflexivity|]. by eexists.
  - exact Hadv.
Qed.

Lemma search_loop es : forall m edi gn fuel, es <> [] -> searching (name_hash (utf16_to_upper <$> cs)) m -> at_ m edi es ->
  Forall (fun e => match e with Some d => dent_ok d | None => True end) es -> (length es <= fuel)%nat ->
  exists out, loop fuel (search_body ctx hooks lfn) (m, edi, gn) = Done out /\
    match find_name cs es with
    | Some rest => l_eax out = 0 /\ esi_out out = after_component path cs stop /\ at_ (l_mem out) (edi_out out) rest
    | None => l_eax out = no_more /\ esi_out out = path
    end.
Proof.
  induction es as [|e es IH]; intros m edi gn fuel Hne Hs Hat Hok Hf; [done|]. destruct fuel as [|fuel]; [cbn in Hf; lia|].
  inversion_clear Hok as [|? ? Hoke Hok']. rewrite loop_S. cbn [find_name]. fold (is_match e).
  destruct (search_turn m edi gn e es Hs Hat Hoke) as (r & -> & Hr). run_step.
  destruct (is_match e); [destruct Hr as (out & -> & ?); by exists out|].
  destruct es as [|e' es]; [destruct Hr as (out & -> & ?); by exists out|].
  destruct Hr as (m' & edi' & gn' & -> & Hs' & Hat'). apply IH; try done. cbn in Hf |- *. lia.
Qed.


Lemma wide_app a b : wide (a ++ b) = wide a ++ wide b.
Proof. unfold wide. by rewrite fmap_app, join_app. Qed.

(** The buffer is filled with the component, upper case; its hash is the wanted one. *)
Lemma fill_hash m : bytes m -> mlen m = size -> size < 2 ^ 32 -> stored m path (mjoin (utf8_bytes <$> cs) ++ [stop]) ->
  exists m', loop (S (Z.to_nat LFN_UTF16_UNITS)) fill_body (m, path, lfn, lfn, 0) = Done (m', lfn + 2 * (mlen cs + 1)) /\
    writes [(lfn, 524)] m m' /\
    exfat_hash_calculate m' lfn (u32 (lfn + 2 * (mlen cs + 1) - lfn - 2)) = Done (name_hash (utf16_to_upper <$> cs)).
Proof.
  intros Hm L Hsz Hs. pose proof (mlen_nonneg cs).
  destruct (separate_bounds _ _ (lfn, 524) Hsep) as [Hl0 Hl1]; [set_solver|]. cbn in Hl0, Hl1.
  assert (disjoint path path_len lfn 524) as Hd by (apply disjoint_sym; exact (separate_lookup _ _ 6 7 (lfn, 524) (path, path_len) Hsep eq_refl eq_refl ltac:(lia))).
  destruct (fill_loop stop cs Hstop Hcs m path lfn lfn 0 (S (Z.to_nat LFN_UTF16_UNITS))) as (m' & E & Hu);
    try done; try (unfold LFN_UTF16_UNITS; unfold mlen in *; lia).
  { unfold disjoint in *. lia. }
  assert (Forall (fun u => 0 <= u < 65536) ((utf16_to_upper <$> cs) ++ [stop])) as Hw.
  { apply Forall_app. split; [|apply Forall_cons_2; [lia|constructor]]. apply Forall_fmap. eapply Forall_impl; [exact Hcs|].
    intros c (Hc & _). by apply upper_bound. }
  assert (mlen (wide ((utf16_to_upper <$> cs) ++ [stop])) = 2 * (mlen cs + 1)) as Lw.
  { rewrite mlen_wide, mlen_app. change (mlen [stop]) with 1. f_equal. f_equal. unfold mlen. by rewrite length_fmap. }
  assert (bytes m -> bytes m') as Hb.
  { intros _. eapply bytes_updated; [exact Hm|exact Hu|]. intros i _. by apply byte_at_range, bytes_wide. }
  exists m'. split_and!; [done| |].
  - eapply (writes_updated (lfn, 524)); [exact Hu|rewrite Lw; cbn; lia|done].
  - replace (lfn + 2 * (mlen cs + 1) - lfn - 2) with (2 * mlen cs) by lia. rewrite wrap_small by lia.
    pose proof (updated_stored _ _ _ _ Hu Hl0 ltac:(rewrite Lw; lia)) as Hst. rewrite wide_app in Hst. apply stored_app in Hst as [Hst _].
    unfold exfat_hash_calculate. rewrite rolling_ok; [|by apply Hb|done|lia|destruct Hu as [-> _]; lia].
    f_equal. rewrite <- (name_hash_stored _ _ _ Hst). f_equal. rewrite length_fmap. unfold mlen. lia.
Qed.

Lemma scratch_apart r : r = (valid_data_length ctx, 4) \/ r = (path, path_len) -> apart r scratch.
Proof.
  pose proof Hsep as H. cbn [separate apart fst snd] in H. destruct_and!.
  intros [->| ->]; unfold scratch; cbn [apart fst snd]; split_and!; try done; by apply disjoint_sym.
Qed.

Lemma store_field m a v : mlen m = size -> (a, 4) ∈ scratch -> 0 <= v < 2 ^ 32 ->
  exists m', st32 m a v = Done m' /\ writes [(a, 4)] m m' /\ word_at m' a = v.
Proof.
  intros L Ha Hv. destruct (separate_bounds _ _ (a, 4) Hsep) as [? ?]; [unfold scratch in Ha; clear -Ha; set_solver|]. cbn in *.
  apply st32_writes; lia.
Qed.

Lemma scratch_writes r m m' : r ∈ scratch -> writes [r] m m' -> writes scratch m m'.
Proof. intros Hr. apply writes_subset. clear -Hr. set_solver. Qed.

Lemma writes_sized m m' rs : writes rs m m' -> bytes m /\ mlen m = size -> bytes m' /\ mlen m' = size.
Proof. intros [L B _] [? ?]. split; [auto|lia]. Qed.

Lemma component_length : mlen (mjoin (utf8_bytes <$> cs) ++ [stop]) = path_len.
Proof. rewrite mlen_app. change (mlen [stop]) with 1. lia. Qed.

(** Writing the lookup's own fields and buffer leaves the path and the guarded length. *)
Lemma scratch_frame m m' : writes scratch m m' ->
  word_at m' (valid_data_length ctx) = word_at m (valid_data_length ctx) /\
  (stored m path (mjoin (utf8_bytes <$> cs) ++ [stop]) -> stored m' path (mjoin (utf8_bytes <$> cs) ++ [stop])).
Proof.
  intros W. split; [apply (writes_word _ _ _ _ W), scratch_apart; by left|].
  apply (writes_stored _ _ _ _ _ W). rewrite component_length. apply scratch_apart. by right.
Qed.

(** From the first entry to the search: buffer, hash and pointers are in place. *)
Lemma prepare_search {A} m (k : list Z -> run A) : bytes m /\ mlen m = size -> size < 2 ^ 32 ->
  stored m path (mjoin (utf8_bytes <$> cs) ++ [stop]) -> word_at m (valid_data_length ctx) <> 0 ->
  exists m', (m ← st32 m (lfn_reserve_place ctx) lfn;
      m ← st32 m (path_in_utf8 ctx) path;
      '(m, dst) ← loop (S (Z.to_nat LFN_UTF16_UNITS)) fill_body (m, path, lfn, lfn, 0);
      hash ← exfat_hash_calculate m lfn (u32 (dst - lfn - 2));
      m ← st32 m (current_hash ctx) hash;
      k m) = k m' /\ writes scratch m m' /\ searching (name_hash (utf16_to_upper <$> cs)) m'.
Proof.
  intros BL Hsz P V. destruct (separate_bounds _ _ (lfn, 524) Hsep) as [Hl0 Hl1]; [set_solver|]. cbn in Hl0, Hl1.
  assert (0 <= path < 2 ^ 32) as Hpr.
  { pose proof P as (? & Hl & _). rewrite component_length in Hl. pose proof (mlen_nonneg (mjoin (utf8_bytes <$> cs))). lia. }
  destruct (store_field m (lfn_reserve_place ctx) lfn) as (m4 & -> & W4 & _); [apply BL|unfold scratch; set_solver|lia|]. run_step.
  apply scratch_writes in W4; [|unfold scratch; set_solver]. pose proof (writes_sized _ _ _ W4 BL) as BL4.
  destruct (store_field m4 (path_in_utf8 ctx) path) as (m5 & -> & W5 & T5); [apply BL4|unfold scratch; set_solver|done|]. run_step.
  apply scratch_writes in W5; [|unfold scratch; set_solver]. pose proof (writes_sized _ _ _ W5 BL4) as BL5.
  pose proof (transitivity W4 W5) as W45.
  destruct (fill_hash m5) as (m6 & -> & W6 & Eh); [apply BL5..|done|by apply (scratch_frame m)|].
  run_step. rewrite Eh. run_step. pose proof (writes_sized _ _ _ W6 BL5) as BL6.
  set (h := name_hash (utf16_to_upper <$> cs)) in *.
  assert (0 <= h < 65536) as Hh by (unfold h, name_hash, rolling; apply roll_fold_range; lia).
  destruct (store_field m6 (current_hash ctx) h) as (m7 & -> & W7 & C7); [apply BL6|unfold scratch; set_solver|lia|]. run_step.
  pose proof (writes_sized _ _ _ W7 BL6) as BL7. exists m7.
  assert (writes scratch m m7) as W.
  { etransitivity; [exact W45|]. etransitivity; [eapply scratch_writes, W6|eapply scratch_writes, W7]; unfold scratch; set_solver. }
  destruct (scratch_frame m m7 W) as [V7 P7]. split_and!; [done|done|]. split; [apply BL7|apply BL7|auto|by rewrite V7| |done].
  assert (apart (path_in_utf8 ctx, 4) [(lfn, 524)] /\ apart (path_in_utf8 ctx, 4) [(current_hash ctx, 4)]) as [A1 A2].
  { pose proof Hsep as H. cbn [separate apart fst snd] in H. destruct_and!. by cbn. }
  by rewrite (writes_word _ _ _ _ W7 A2), (writes_word _ _ _ _ W6 A1).
Qed.

End Lookup.

(** ** An implementation of the interface

    A directory held in a table; the reader's pointer is an index. *)
Section Table.
Context (ctx : ExFatFindLfnCtx) (lfn path_len size : Z) (table : list (option dent)).
Hypothesis Hsep : separate size
  [(secondary_dir_entry ctx, 4); (need_hash ctx, 4); (lfn_reserve_place ctx, 4); (path_in_utf8 ctx, 4);
   (current_hash ctx, 4); (valid_data_length ctx, 4); (lfn, 524); (esi_in ctx, path_len)].
Hypothesis Hnames : Forall (fun e => match e with Some d => plain (d_name d) /\ mlen (d_name d) < 262 | None => True end) table.

Definition stand (m : list Z) (i : nat) : run (list Z * CallbackOut) :=
  if (i <? length table)%nat then Done (m, mkOut false 0 0 (Z.of_nat i)) else Done (m, mkOut true ERROR_FILE_NOT_FOUND 0 0).

Definition table_hooks : ExFatFindLfnHooks := {|
  h_first m _ _ := stand m 0;
  h_next m _ edi := stand m (S (Z.to_nat edi));
  h_get_name m edi esi :=
    match table !! Z.to_nat edi with
    | Some (Some d) =>
        hash ← ld32 m (current_hash ctx);
        if hash =? d_hash d then
          m ← st32 m (secondary_dir_entry ctx) 0;
          m ← store_bytes m lfn (wide (d_name d ++ [0]));
          Done (m, mkOut false 0 esi edi)
        else Done (m, mkOut true 0 esi edi)
    | _ => Done (m, mkOut true 0 esi edi)
    end
|}.

Definition table_ready (m : list Z) (es : list (option dent)) : Prop := es = table /\ mlen m = size.
Definition table_at (m : list Z) (edi : Z) (es : list (option dent)) : Prop :=
  0 <= edi /\ es = drop (Z.to_nat edi) table /\ mlen m = size.

Lemma kept_refl m : bytes m -> kept ctx path_len m m.
Proof. intros. by split. Qed.

Lemma kept_writes m m' rs : bytes m -> writes rs m m' -> Forall (fun r => apart r rs) (guarded ctx path_len) -> kept ctx path_len m m'.
Proof.
  intros Hm W Ha. split_and!; [by apply (writes_len _ _ _ W)|by apply (writes_bytes _ _ _ W)|]. intros r a Hr Hin.
  eapply (writes_byte _ _ _ r); [done| |done]. by eapply Forall_forall in Ha.
Qed.

Lemma stand_ok m i : bytes m -> mlen m = size ->
  exists m' out, stand m i = Done (m', out) /\ kept ctx path_len m m' /\
    match drop i table with
    | [] => cf out = true /\ o_eax out = ERROR_FILE_NOT_FOUND
    | _ => cf out = false /\ table_at m' (o_edi out) (drop i table)
    end.
Proof.
  intros Hm L. unfold stand. destruct (drop i table) as [|e es] eqn:E.
  - apply (f_equal length) in E. rewrite length_drop in E. cbn in E.
    replace (i <? length table)%nat with false by (symmetry; apply Nat.ltb_ge; lia). eexists _, _. by split_and!; [|apply kept_refl|..].
  - assert (i < length table)%nat as Hi by (apply (f_equal length) in E; rewrite length_drop in E; cbn in E; lia).
    rewrite (proj2 (Nat.ltb_lt _ _) Hi). eexists _, _. split_and!; [done|by apply kept_refl|done|].
    unfold table_at. cbn. split_and!; [lia|by rewrite Nat2Z.id, E|done].
Qed.

Lemma guarded_apart r : r ∈ guarded ctx path_len -> apart r [(secondary_dir_entry ctx, 4); (lfn, 524)].
Proof.
  pose proof Hsep as H. cbn [separate apart fst snd] in H. destruct_and!. unfold guarded. intros Hr.
  repeat (apply elem_of_cons in Hr as [->|Hr]; [cbn; split_and!; try done; by apply disjoint_sym|]). by apply not_elem_of_nil in Hr.
Qed.

Lemma table_get_name m edi esi e es : bytes m -> table_at m edi (e :: es) ->
  exists m' out, h_get_name table_hooks m edi esi = Done (m', out) /\ kept ctx path_len m m' /\ table_at m' (o_edi out) (e :: es) /\
    match e with
    | Some d =>
        if word_at m (current_hash ctx) =? d_hash d then
          cf out = false /\ word_at m' (secondary_dir_entry ctx) = 0 /\ stored m' lfn (wide (d_name d ++ [0]))
        else cf out || negb (word_at m' (secondary_dir_entry ctx) =? 0) = true
    | None => cf out || negb (word_at m' (secondary_dir_entry ctx) =? 0) = true
    end.
Proof.
  intros Hm (He & Hes & L). cbn [table_hooks h_get_name].
  assert (table !! Z.to_nat edi = Some e) as Hl.
  { rewrite <- (Nat.add_0_r (Z.to_nat edi)), <- lookup_drop, <- Hes. done. }
  rewrite Hl. assert (forall m', mlen m' = size -> table_at m' edi (e :: es)) as Hat by (by intros; split_and!).
  destruct e as [d|]; [|by exists m, (mkOut true 0 esi edi); split_and!; [|apply kept_refl|..]].
  assert (forall a, (a, 4) ∈ scratch ctx lfn -> 0 <= a /\ a + 4 <= size) as Hfield.
  { intros a Ha. apply (separate_bounds _ _ (a, 4) Hsep). unfold scratch in Ha. clear -Ha. set_solver. }
  destruct (Hfield (current_hash ctx)) as [? ?]; [unfold scratch; set_solver|].
  destruct (Hfield (secondary_dir_entry ctx)) as [? ?]; [unfold scratch; set_solver|].
  rewrite ld32_ok by lia. run_step. destruct (Z.eqb_spec (word_at m (current_hash ctx)) (d_hash d)) as [E|E].
  2:{ by exists m, (mkOut true 0 esi edi); split_and!; [|apply kept_refl|..]. }
  pose proof (proj1 (Forall_lookup _ _) Hnames _ _ Hl) as [Hpl Hlen]. cbn in Hpl, Hlen.
  destruct (separate_bounds _ _ (lfn, 524) Hsep) as [Hl0 Hl1]; [set_solver|]. cbn in Hl0, Hl1.
  destruct (st32_writes m (secondary_dir_entry ctx) 0) as (m1 & -> & W1 & Hz); [lia..|]. run_step.
  assert (mlen (wide (d_name d ++ [0])) <= 524) as Lw by (rewrite mlen_wide, mlen_app; change (mlen [0]) with 1; lia).
  destruct (store_bytes_ok (wide (d_name d ++ [0])) m1 lfn) as (m2 & -> & W2 & Hst);
    [done|rewrite (writes_len _ _ _ W1); lia|by apply (writes_bytes _ _ _ W1)| |].
  { apply bytes_wide, Forall_app. split; [|by apply Forall_cons_2; [lia|constructor]]. eapply Forall_impl; [exact Hpl|]. cbn. tauto. }
  run_step. eexists _, _. split; [done|].
  assert (writes [(secondary_dir_entry ctx, 4); (lfn, 524)] m m2) as W.
  { etransitivity; [eapply writes_subset, W1; set_solver|]. constructor; [apply W2..|]. intros a Ha. apply (writes_frame _ _ _ W2).
    intros r Hr. apply list_elem_of_singleton in Hr as ->. specialize (Ha (lfn, 524) ltac:(set_solver)). unfold inside in *. cbn in *. lia. }
  split_and!; [|apply Hat; by rewrite (writes_len _ _ _ W)|reflexivity| |exact Hst].
  - eapply kept_writes; [done|exact W|]. apply Forall_forall. intros r Hr. by apply guarded_apart.
  - rewrite (writes_word _ _ _ _ W2); [done|]. cbn. split; [|done].
    pose proof (separate_lookup _ _ 0 6 (secondary_dir_entry ctx, 4) (lfn, 524) Hsep eq_refl eq_refl ltac:(lia)) as Hd.
    clear -Hd Lw. unfold disjoint in *. cbn in Hd. lia.
Qed.

#[global] Instance table_directory : Directory ctx table_hooks lfn path_len ERROR_FILE_NOT_FOUND table_ready table_at.
Proof.
  split.
  - intros m m' es [-> L] W. split; [done|]. by rewrite (writes_len _ _ _ W).
  - intros m m' edi es (He & Hes & L) W. split_and!; [done|done|]. by rewrite (writes_len _ _ _ W).
  - intros m edi es Hm [-> L]. cbn [table_hooks h_first]. pose proof (stand_ok m 0 Hm L) as H. by rewrite drop_0 in H.
  - intros m edi e es Hm (He & Hes & L). cbn [table_hooks h_next].
    pose proof (stand_ok m (S (Z.to_nat edi)) Hm L) as H.
    replace (drop (S (Z.to_nat edi)) table) with es in H; [done|].
    replace (S (Z.to_nat edi)) with (Z.to_nat edi + 1)%nat by lia. by rewrite <- drop_drop, <- Hes.
  - intros m edi esi e es. apply table_get_name.
Qed.
End Table.

(** C28: The checksum stored by [calculate_set_checksum_field] verifies against the entry
    set it is part of, and after any change of one byte of the set, the stored field
    included, it no longer does. *)
Theorem set_checksum_detects m buf len : bytes m -> 0 <= buf -> 4 <= len < 2 ^ 32 -> buf + len <= mlen m ->
  exists m' sum, calculate_set_checksum_field m buf len = Done (m', sum) /\
    (forall a, a < buf + 2 \/ buf + 4 <= a -> byte_at m' a = byte_at m a) /\
    word16_at m' (buf + 2) = sum /\ calculate_set_checksum_field_sum m' buf len = Done sum /\
    forall k v, 0 <= k < len -> is_byte v -> v <> byte_at m' (buf + k) ->
      exists sum', calculate_set_checksum_field_sum (<[Z.to_nat (buf + k) := v]> m') buf len = Done sum' /\
        sum' <> word16_at (<[Z.to_nat (buf + k) := v]> m') (buf + 2).
Proof.
  intros Hm Hb Hl Hf. destruct (set_checksum_ok m buf len Hm Hb Hl Hf) as (m' & sum & E & _ & Hm' & Hu & Hw & Hc).
  exists m', sum. split_and!; try done.
  - intros a Ha. apply (updated_outside _ _ _ _ _ _ Hu). lia.
  - intros k v Hk Hv Hne. eapply set_checksum_flip; try done. destruct Hu as [-> _]. lia.
Qed.

(** ** Witnesses *)

(** Fields from 0, the buffer at 32, the path "b/x" at 600. *)
Definition sample_ctx : ExFatFindLfnCtx := mkCtx 0 4 8 12 16 20 0 600 0.
Definition sample_memory : list Z := replicate 20 9 ++ [1; 0; 0; 0] ++ replicate 576 9 ++ [0x62; 47; 0x78; 0].
Definition sample_table : list (option dent) :=
  [None; Some (mkDent [0x61] (name_hash [0x41])); Some (mkDent [0x42] (name_hash [0x42]))].

Example sample_lookup : (out ← exfat_find_lfn 3 sample_ctx (table_hooks sample_ctx 32 sample_table) sample_memory 32;
  Done (l_eax out, esi_out out, edi_out out)) = Done (0, 602, 2).
Proof. vm_compute. reflexivity. Qed.


Lemma set_checksum_detects_witness :
  exists m' sum, calculate_set_checksum_field [0x85; 2; 0; 0; 0x20; 0] 0 6 = Done (m', sum) /\
    calculate_set_checksum_field_sum m' 0 6 = Done sum.
Proof.
  destruct (set_checksum_detects [0x85; 2; 0; 0; 0x20; 0] 0 6) as (m' & sum & E & _ & _ & Hc & _).
  - by apply bytes_check; vm_compute.
  - lia.
  - lia.
  - by vm_compute.
  - exists m', sum. split; [exact E|exact Hc].
Defined.
