(* ===== verification/Ipv4Output.v ===== *)
(** * IPv4 output

    [ipv4_output.rs]: the header of an outgoing packet and the order in which route, ARP
    and the Ethernet (or loopback) layer are called.  The four callbacks are assembly
    functions behind function pointers: they are the class [NetStack].  The
    specification is the crate's own oracle, [ipv4_output_oracle.rs], which says what
    packet has to leave the machine and knows nothing of buffers, counters or
    registers. *)

From stdpp Require Import base list.
From Stdlib Require Import ZArith Lia.
From S2P Require Import Prelude Checksum Net Layout.

(** ** The header *)

Definition IPV4_OUTPUT_MAX_PAYLOAD : Z := 65500.
Definition IPV4_HEADER_LEN : Z := 20.
Definition ETHER_PROTO_IPV4 : Z := 0x0008.
Definition VERSION_IHL_V4_20 : Z := 0x45.

(** One turn of the summing loops: [i] runs over the even offsets while [more i], the
    bytes come from [rd] except where [skip i], and [acc] adds them. *)
Definition sum_body (more : Z -> bool) (skip : Z -> bool) (rd : Z -> run Z)
    (acc : Z -> Z -> Z -> run Z) (st : Z * Z) : run (Z * Z + Z * Z) :=
  let '(sum, i) := st in
  if more i then
    hi ← (if skip i then Done 0 else rd i);
    lo ← (if skip i then Done 0 else rd (i + 1));
    sum ← acc sum hi lo;
    Done (inl (sum, i + 2))
  else Done (inr (sum, i)).

(** [sum.wrapping_add(((hi as u32) << 8) | (lo as u32))]. *)
Definition acc_wrapping (sum hi lo : Z) : run Z := Done (sum +ₘ Z.lor (hi <<ₘ 8) lo).

(** [while (sum >> 16) != 0 { sum = (sum & 0xffff) + (sum >> 16) }]. *)
Definition fold_body (sum : Z) : run (Z + Z) :=
  if negb (Z.shiftr sum 16 =? 0) then Done (inl (Z.land sum 0xffff + Z.shiftr sum 16)) else Done (inr sum).

(** The folded sum complemented, zero written as its other representation. *)
Definition finish_checksum (sum : Z) : run Z :=
  sum ← loop 4 fold_body sum;
  let csum := u16 (2 ^ 32 - 1 - sum) in
  Done (if csum =? 0 then 0xffff else csum).

Definition ipv4_header_checksum (header : list Z) : run Z :=
  let len := mlen header in
  '(sum, i) ← loop (S (length header)) (sum_body (fun i => i + 1 <? len) (Z.eqb 10) (ld8 header) acc_wrapping) (0, 0);
  sum ← (if i <? len then
           b ← (if i =? 10 then Done 0 else ld8 header i); Done (sum +ₘ (b <<ₘ 8))
         else Done sum);
  finish_checksum sum.

(** On a slice: [dst[i] = b] panics outside it. *)
Definition write_ipv4_header (dst : list Z) (ttl proto src dest payload_len : Z) : run (list Z) :=
  let total := u16 (IPV4_HEADER_LEN +ₘ payload_len) in
  dst ← st8 dst 0 VERSION_IHL_V4_20;
  dst ← st8 dst 1 0;
  dst ← st8 dst 2 (byte_of total 1);
  dst ← st8 dst 3 (byte_of total 0);
  dst ← st8 dst 4 0; dst ← st8 dst 5 0; dst ← st8 dst 6 0; dst ← st8 dst 7 0;
  dst ← st8 dst 8 ttl;
  dst ← st8 dst 9 proto;
  dst ← st8 dst 10 0; dst ← st8 dst 11 0;
  dst ← st32 dst 12 src;
  dst ← st32 dst 16 dest;
  csum ← ipv4_header_checksum (take 20 dst);
  dst ← st8 dst 10 (byte_of csum 1);
  st8 dst 11 (byte_of csum 0).

(** Through a raw pointer, where a null one is left alone; [x.to_be()] swaps bytes. *)
Definition write_ipv4_header_ptr (m : list Z) (hdr ttl proto src dest payload_len : Z) : run (list Z) :=
  if hdr =? 0 then Done m
  else
    let total := u16 (IPV4_HEADER_LEN +ₘ payload_len) in
    m ← st8 m hdr VERSION_IHL_V4_20;
    m ← st8 m (hdr + 1) 0;
    m ← st16 m (hdr + 2) (swap_bytes16 total);
    m ← st16 m (hdr + 4) 0;
    m ← st16 m (hdr + 6) 0;
    m ← st8 m (hdr + 8) ttl;
    m ← st8 m (hdr + 9) proto;
    m ← st16 m (hdr + 10) 0;
    m ← st32 m (hdr + 12) src;
    m ← st32 m (hdr + 16) dest;
    '(sum, _) ← loop 11 (sum_body (fun i => i <? 20) (Z.eqb 10) (fun i => ld8 m (hdr + i)) acc_wrapping) (0, 0);
    csum ← finish_checksum sum;
    st16 m (hdr + 10) (swap_bytes16 csum).

(** ** [ipv4_output] *)

Record Ipv4OutputCtx := mkCtx {
  ttl_proto : Z;
  device_in : Z;
  payload_len : Z;
  source_in : Z;
  dest_in : Z;
  route : Z;
  arp : Z;
  eth_out : Z;
  loop_out : Z;
  packets_tx : Z;
  net_devices : Z;
  out_device : Z;
  frame_size : Z;
  payload_ptr : Z
}.

Definition set_outs (ctx : Ipv4OutputCtx) (device frame payload : Z) : Ipv4OutputCtx :=
  mkCtx (ttl_proto ctx) (device_in ctx) (payload_len ctx) (source_in ctx) (dest_in ctx) (route ctx) (arp ctx)
    (eth_out ctx) (loop_out ctx) (packets_tx ctx) (net_devices ctx) device frame payload.

Record EthOut := mkEth { eth_buf : Z; eth_device : Z; eth_frame : Z; eth_header : Z; eth_zf : bool }.
Record LoopOut := mkLoop { loop_buf : Z; loop_device : Z; loop_header : Z }.

(** The assembly behind the function pointers.  [E] is the rest of the kernel's state;
    every call may change it and the memory. *)
Class NetStack (E : Type) := {
  invoke_route : Z -> Z -> Z -> Z -> E * list Z -> (E * list Z) * (Z * Z * Z);
  invoke_arp : Z -> Z -> Z -> E * list Z -> (E * list Z) * (Z * Z);
  invoke_eth : Z -> Z -> Z -> Z -> list Z -> E * list Z -> (E * list Z) * EthOut;
  invoke_loop : Z -> Z -> E * list Z -> (E * list Z) * LoopOut
}.

Definition inc_packets_tx_raw (m : list Z) (base dev_idx4 : Z) : run (list Z) :=
  if base =? 0 then Done m
  else let p := base +ₘ dev_idx4 in v ← ld32 m p; st32 m p (v +ₘ 1).

Definition load_device_raw (m : list Z) (net_devices dev_idx4 : Z) : run Z :=
  if net_devices =? 0 then Done 0 else ld32 m (net_devices +ₘ dev_idx4).

Definition fail {E} (w : E * list Z) (ctx : Ipv4OutputCtx) : run ((E * list Z) * Ipv4OutputCtx * Z) :=
  Done (w, set_outs ctx 0 0 0, 0).

Definition mac_of (arp_eax arp_ebx : Z) : list Z :=
  [u8 arp_eax; u8 (Z.shiftr arp_eax 8); byte_of arp_ebx 0; byte_of arp_ebx 1; byte_of arp_ebx 2; byte_of arp_ebx 3].

Section Output.
Context {E : Type} `{!NetStack E}.
Implicit Types (w : E * list Z) (ctx : Ipv4OutputCtx).

Definition ipv4_output_kernel w ctx : run ((E * list Z) * Ipv4OutputCtx * Z) :=
  let ttl := u8 (ttl_proto ctx) in
  let proto := u8 (Z.shiftr (ttl_proto ctx) 8) in
  let payload_len := payload_len ctx in
  let orig_dest := dest_in ctx in
  if IPV4_OUTPUT_MAX_PAYLOAD <? payload_len then fail w ctx
  else
    let '(w, (next_hop, routed_src, dev_idx4)) :=
      invoke_route (route ctx) orig_dest (device_in ctx) (source_in ctx) w in
    if next_hop =? 0 then fail w ctx
    else
      let total := payload_len +ₘ IPV4_HEADER_LEN in
      if dev_idx4 =? 0 then
        m ← inc_packets_tx_raw w.2 (packets_tx ctx) 0;
        let header_src := next_hop in
        let '(w, o) := invoke_loop (loop_out ctx) total (w.1, m) in
        m ← write_ipv4_header_ptr w.2 (loop_header o) ttl proto header_src orig_dest payload_len;
        Done ((w.1, m), set_outs ctx (loop_device o) routed_src (loop_header o +ₘ IPV4_HEADER_LEN), loop_buf o)
      else
        let '(w, (arp_eax, arp_ebx)) := invoke_arp (arp ctx) next_hop dev_idx4 w in
        if negb (Z.land arp_eax 0xffff0000 =? 0) then fail w ctx
        else
          m ← inc_packets_tx_raw w.2 (packets_tx ctx) dev_idx4;
          let mac := mac_of arp_eax arp_ebx in
          device ← load_device_raw m (net_devices ctx) dev_idx4;
          let '(w, o) := invoke_eth (eth_out ctx) ETHER_PROTO_IPV4 device total mac (w.1, m) in
          if eth_zf o then fail w ctx
          else
            m ← write_ipv4_header_ptr w.2 (eth_header o) ttl proto routed_src orig_dest payload_len;
            Done ((w.1, m), set_outs ctx (eth_device o) (eth_frame o) (eth_header o +ₘ IPV4_HEADER_LEN), eth_buf o).

(** The stdcall entry: a null context is answered with 0. *)
Definition ipv4_output_ptr w (c : option Ipv4OutputCtx) : run ((E * list Z) * option Ipv4OutputCtx * Z) :=
  match c with
  | None => Done (w, None, 0)
  | Some ctx => '(w, ctx, r) ← ipv4_output_kernel w ctx; Done (w, Some ctx, r)
  end.
End Output.

(** ** The oracle: what packet has to leave the machine *)

Module Oracle.

(** The [usize] arithmetic of the oracle's checksum panics on overflow. *)
Definition acc_checked (sum hi lo : Z) : run Z :=
  let s := sum + (hi * 256 + lo) in if s <? 2 ^ 32 then Done s else Fault.

Definition rfc1071_checksum (data : list Z) (checksum_field_off : option Z) : run Z :=
  let len := mlen data in
  let skip i := bool_decide (Some i = checksum_field_off) in
  '(sum, i) ← loop (S (length data)) (sum_body (fun i => i + 1 <? len) skip (ld8 data) acc_checked) (0, 0);
  sum ← (if i <? len then
           b ← (if skip i then Done 0 else ld8 data i);
           if sum + Z.shiftl b 8 <? 2 ^ 32 then Done (sum + Z.shiftl b 8) else Fault
         else Done sum);
  finish_checksum sum.

Definition ipv4_header_checksum_ok (header : list Z) : run bool :=
  if mlen header <? IPV4_HEADER_LEN then Done false
  else
    b0 ← ld8 header 0;
    let ihl := Z.land b0 0x0f * 4 in
    if (ihl <? IPV4_HEADER_LEN) || (mlen header <? ihl) then Done false
    else
      c ← rfc1071_checksum (take (Z.to_nat ihl) header) (Some 10);
      hi ← ld8 header 10; lo ← ld8 header 11;
      Done (c =? hi * 256 + lo).

Definition build_ipv4_header (ttl protocol source_ip dest_ip payload_len : Z) : run (list Z) :=
  let total := u16 (Z.min (Z.min (IPV4_HEADER_LEN + payload_len) (2 ^ 32 - 1)) 65535) in
  let h := replicate (Z.to_nat IPV4_HEADER_LEN) 0 in
  h ← st8 h 0 VERSION_IHL_V4_20; h ← st8 h 1 0;
  h ← st8 h 2 (byte_of total 1); h ← st8 h 3 (byte_of total 0);
  h ← st16 h 4 0; h ← st16 h 6 0;
  h ← st8 h 8 ttl; h ← st8 h 9 protocol;
  h ← st8 h 10 0; h ← st8 h 11 0;
  h ← st32 h 12 source_ip; h ← st32 h 16 dest_ip;
  csum ← rfc1071_checksum h (Some 10);
  h ← st8 h 10 (byte_of csum 1); st8 h 11 (byte_of csum 0).

Inductive Ipv4OutputError := TooLarge | NoRoute | ArpError | EthError.

Record Ipv4OutputRequest := mkRequest {
  ttl : Z; protocol : Z; device_ptr : Z; req_payload_len : Z; source_ip : Z; dest_ip : Z; payload : list Z
}.

Record Ipv4OutputDeps := mkDeps {
  route_ok : bool; routed_source_ip : Z; routed_next_hop : Z; arp_ok : bool;
  dst_mac : list Z; src_mac : list Z; eth_ok : bool
}.

Record CapturedFrame := mkFrame {
  frame_dst_mac : list Z; frame_src_mac : list Z; ethertype : Z; ipv4 : list Z; frame_payload : list Z
}.

Definition ETHERTYPE_IPV4 : Z := 0x0800.

Definition wire_bytes (f : CapturedFrame) : list Z :=
  frame_dst_mac f ++ frame_src_mac f ++ [byte_of (ethertype f) 1; byte_of (ethertype f) 0] ++ ipv4 f.

Definition ipv4_output_contract (req : Ipv4OutputRequest) (deps : Ipv4OutputDeps) :
    run (Ipv4OutputError + CapturedFrame) :=
  if IPV4_OUTPUT_MAX_PAYLOAD <? req_payload_len req then Done (inl TooLarge)
  else if negb (route_ok deps) then Done (inl NoRoute)
  else if negb (arp_ok deps) then Done (inl ArpError)
  else if negb (eth_ok deps) then Done (inl EthError)
  else
    let payload := resize (Z.to_nat (req_payload_len req)) 0 (payload req) in
    ipv4 ← build_ipv4_header (ttl req) (protocol req) (routed_source_ip deps) (dest_ip req) (req_payload_len req);
    Done (inr (mkFrame (dst_mac deps) (src_mac deps) ETHERTYPE_IPV4 (ipv4 ++ payload) payload)).

End Oracle.
Import Oracle.

(** ** Sums of words *)

(** [h] with its checksum field taken as zero. *)
Definition blank (h : list Z) (i : Z) : Z := if (i =? 10) || (i =? 11) then 0 else byte_at h i.

Fixpoint words (f : Z -> Z) (n : nat) : Z :=
  match n with
  | O => 0
  | S k => words f k + (f (2 * Z.of_nat k) * 256 + f (2 * Z.of_nat k + 1))
  end.

Lemma words_range f n : (forall i, is_byte (f i)) -> 0 <= words f n <= 65535 * Z.of_nat n.
Proof.
  intros Hf. induction n as [|n IH]; [cbn; lia|]. cbn [words].
  pose proof (Hf (2 * Z.of_nat n)). pose proof (Hf (2 * Z.of_nat n + 1)). unfold is_byte in *. lia.
Qed.

Lemma words_ext f g n : (forall i, 0 <= i < 2 * Z.of_nat n -> f i = g i) -> words f n = words g n.
Proof.
  induction n as [|n IH]; intros H; [done|]. cbn [words]. rewrite !H by lia. rewrite IH; [done|].
  intros i Hi. apply H. lia.
Qed.

Lemma words_net m n : words (byte_at m) n = net_sum m 0 (2 * n).
Proof.
  induction n as [|n IH]; [done|]. replace (2 * S n)%nat with (S (S (2 * n))) by lia.
  rewrite net_sum_2 by (rewrite Nat.even_mul; done). cbn [words]. rewrite IH.
  replace (0 + Z.of_nat (2 * n)) with (2 * Z.of_nat n) by lia. lia.
Qed.

(** The summing loop, for any way to add that is exact below [2^32]. *)
Lemma sum_loop (more skip : Z -> bool) rd acc f n : (forall i, is_byte (f i)) -> Z.of_nat n <= 65536 ->
  (forall j, 0 <= j -> more (2 * j) = (j <? Z.of_nat n)) ->
  (forall j, 0 <= j < Z.of_nat n -> (if skip (2 * j) then Done 0 else rd (2 * j)) = Done (f (2 * j)) /\
    (if skip (2 * j) then Done 0 else rd (2 * j + 1)) = Done (f (2 * j + 1))) ->
  (forall s hi lo, 0 <= s -> is_byte hi -> is_byte lo -> s + (hi * 256 + lo) < 2 ^ 32 ->
    acc s hi lo = Done (s + (hi * 256 + lo))) ->
  forall fuel, (n < fuel)%nat -> loop fuel (sum_body more skip rd acc) (0, 0) = Done (words f n, 2 * Z.of_nat n).
Proof.
  intros Hf Hn Hm Hr Ha.
  assert (forall k j fuel, (j + k = n)%nat -> (k < fuel)%nat ->
    loop fuel (sum_body more skip rd acc) (words f j, 2 * Z.of_nat j) = Done (words f n, 2 * Z.of_nat n)) as H.
  { induction k as [|k IH]; intros j fuel Hj Hfu; (destruct fuel as [|fuel]; [lia|]); rewrite loop_S;
      unfold sum_body at 2; rewrite Hm by lia.
    - replace (Z.of_nat j <? Z.of_nat n) with false by lia. run_step. by replace j with n by lia.
    - replace (Z.of_nat j <? Z.of_nat n) with true by lia.
      destruct (Hr (Z.of_nat j)) as [-> ->]; [lia|]. run_step.
      pose proof (words_range f j Hf). pose proof (Hf (2 * Z.of_nat j)) as B1. pose proof (Hf (2 * Z.of_nat j + 1)) as B2.
      rewrite Ha by (done || unfold is_byte in *; lia). run_step.
      rewrite <- (IH (S j) fuel) by lia. cbn [words]. do 2 f_equal. lia. }
  intros fuel Hfu. by apply (H n 0%nat).
Qed.

Lemma acc_wrapping_ok s hi lo : 0 <= s -> is_byte hi -> is_byte lo -> s + (hi * 256 + lo) < 2 ^ 32 ->
  acc_wrapping s hi lo = Done (s + (hi * 256 + lo)).
Proof.
  unfold is_byte. intros Hs Hh Hl Hr. unfold acc_wrapping. f_equal. rewrite shl_fold by lia.
  rewrite (lor_mul_add hi lo 8) by lia. change (2 ^ 8) with 256. apply wrap_small. lia.
Qed.

Lemma acc_checked_ok s hi lo : 0 <= s -> is_byte hi -> is_byte lo -> s + (hi * 256 + lo) < 2 ^ 32 ->
  acc_checked s hi lo = Done (s + (hi * 256 + lo)).
Proof. intros _ _ _ Hr. unfold acc_checked. cbn zeta. by rewrite (proj2 (Z.ltb_lt _ _) Hr). Qed.

(** The word that makes a sum verify: the one in [1, 65535] that completes it to a
    multiple of 65535. *)
Definition completes (s c : Z) : Prop := 1 <= c <= 65535 /\ cong (s + c) 0.

Lemma completes_inj s s' c : completes s c -> completes s' c -> cong s s'.
Proof. intros [_ [q Hq]] [_ [r Hr]]. exists (q - r). lia. Qed.

Lemma completes_det s c c' : completes s c -> completes s c' -> c = c'.
Proof. intros [H [q Hq]] [H' [r Hr]]. assert (c - c' = 65535 * (q - r)) by lia. assert (q - r = 0) by lia. lia. Qed.

Lemma fold_turn s : 0 <= s < 2 ^ 32 -> fold_body s =
  Done (if s <? 65536 then inr s else inl (s mod 65536 + s / 65536)).
Proof.
  intros Hs. unfold fold_body. rewrite (land_mask s 16) by lia. rewrite shr_eq by lia.
  change (u16 s) with (s mod 65536). change (2 ^ 16) with 65536.
  destruct (s <? 65536) eqn:E.
  - rewrite Z.div_small by lia. done.
  - assert (s / 65536 <> 0) as H by (Z.div_mod_to_equations; lia). by rewrite (proj2 (Z.eqb_neq _ _) H).
Qed.

Lemma fold_ok s : 0 <= s < 2 ^ 32 -> exists r, loop 4 fold_body s = Done r /\ 0 <= r < 65536 /\ cong s r.
Proof.
  intros Hs.
  assert (forall s, 65536 <= s -> cong s (s mod 65536 + s / 65536)) as Hc.
  { intros x _. exists (x / 65536). Z.div_mod_to_equations. lia. }
  rewrite loop_S, fold_turn by done. run_step. destruct (s <? 65536) eqn:E1; [exists s; split_and!; [done|lia..|reflexivity]|].
  set (s1 := s mod 65536 + s / 65536). assert (0 <= s1 < 2 * 65536 - 1) by (unfold s1; Z.div_mod_to_equations; lia).
  assert (cong s s1) as C1 by (apply Hc; lia).
  rewrite loop_S, fold_turn by lia. run_step. destruct (s1 <? 65536) eqn:E2; [exists s1; split_and!; done || lia|].
  set (s2 := s1 mod 65536 + s1 / 65536). assert (0 <= s2 < 65536) by (unfold s2; Z.div_mod_to_equations; lia).
  assert (cong s1 s2) as C2 by (apply Hc; lia).
  rewrite loop_S, fold_turn by lia. run_step. replace (s2 <? 65536) with true by lia.
  exists s2. split_and!; [done|lia..|by rewrite C1].
Qed.

Lemma finish_ok s : 0 <= s < 2 ^ 32 -> exists c, finish_checksum s = Done c /\ completes s c.
Proof.
  intros Hs. unfold finish_checksum. destruct (fold_ok s Hs) as (r & -> & Hr & q & Hq). run_step.
  assert (u16 (2 ^ 32 - 1 - r) = 65535 - r) as ->.
  { unfold wrap. replace (2 ^ 32 - 1 - r) with (65535 - r + 65535 * 2 ^ 16) by lia. rewrite Z.mod_add by lia.
    apply Z.mod_small. lia. }
  destruct (65535 - r =? 0) eqn:E; eexists; (split; [done|]); (split; [lia|]).
  - exists (q + 2). lia.
  - exists (q + 1). lia.
Qed.

(** ** The three writers *)

Definition header_bytes (total ttl proto src dest csum : Z) : list Z :=
  [0x45; 0; byte_of total 1; byte_of total 0; 0; 0; 0; 0; ttl; proto; byte_of csum 1; byte_of csum 0;
   byte_of src 0; byte_of src 1; byte_of src 2; byte_of src 3;
   byte_of dest 0; byte_of dest 1; byte_of dest 2; byte_of dest 3].

Lemma bytes_header total ttl proto src dest csum : is_byte ttl -> is_byte proto ->
  bytes (header_bytes total ttl proto src dest csum).
Proof.
  intros Ht Hp. unfold header_bytes. repeat apply Forall_cons_2; try apply byte_of_range; try done; try apply Forall_nil_2;
    unfold is_byte; lia.
Qed.

Lemma blank_byte h i : bytes h -> is_byte (blank h i).
Proof. intros Hh. unfold blank. case_match; [unfold is_byte; lia|by apply byte_at_range]. Qed.

Lemma blank_read h j : 0 <= j < 10 -> length h = 20%nat ->
  (if 10 =? 2 * j then Done 0 else ld8 h (2 * j)) = Done (blank h (2 * j)) /\
  (if 10 =? 2 * j then Done 0 else ld8 h (2 * j + 1)) = Done (blank h (2 * j + 1)).
Proof.
  intros Hj Hh. assert (mlen h = 20) by (unfold mlen; lia). rewrite !ld8_ok by lia. unfold blank.
  split; repeat case_match; done || lia.
Qed.

Lemma header_sum h : length h = 20%nat -> bytes h ->
  ipv4_header_checksum h = finish_checksum (words (blank h) 10).
Proof.
  intros Hl Hh. unfold ipv4_header_checksum. cbv zeta. assert (mlen h = 20) as -> by (unfold mlen; lia).
  rewrite (sum_loop _ _ _ _ (blank h) 10); [done|..].
  - intros i. by apply blank_byte.
  - lia.
  - intros j _. change (Z.of_nat 10) with 10. lia.
  - intros j Hj. by apply blank_read.
  - exact acc_wrapping_ok.
  - lia.
Qed.

Lemma rfc_sum h : length h = 20%nat -> bytes h ->
  rfc1071_checksum h (Some 10) = finish_checksum (words (blank h) 10).
Proof.
  intros Hl Hh. unfold rfc1071_checksum. cbv zeta. assert (mlen h = 20) as -> by (unfold mlen; lia).
  rewrite (sum_loop _ _ _ _ (blank h) 10); [done|..].
  - intros i. by apply blank_byte.
  - lia.
  - intros j _. change (Z.of_nat 10) with 10. lia.
  - intros j Hj. replace (bool_decide (Some (2 * j) = Some 10)) with (10 =? 2 * j); [by apply blank_read|].
    destruct (10 =? 2 * j) eqn:Ej; symmetry; [apply bool_decide_eq_true; f_equal; lia|apply bool_decide_eq_false; intros [=]; lia].
  - exact acc_checked_ok.
  - lia.
Qed.

(** The word a header needs. *)
Definition header_csum (total ttl proto src dest c : Z) : Prop :=
  completes (words (blank (header_bytes total ttl proto src dest 0)) 10) c.

Lemma blank_header total ttl proto src dest c : forall i,
  blank (header_bytes total ttl proto src dest c) i = blank (header_bytes total ttl proto src dest 0) i.
Proof.
  intros i. unfold blank. destruct (_ || _) eqn:Ei; [done|]. unfold header_bytes.
  rewrite !byte_at_cons. repeat case_match; try done; lia.
Qed.

Lemma header_csum_exists total ttl proto src dest : is_byte ttl -> is_byte proto ->
  exists c, header_csum total ttl proto src dest c /\
    finish_checksum (words (blank (header_bytes total ttl proto src dest 0)) 10) = Done c.
Proof.
  intros Ht Hp. pose proof (words_range (blank (header_bytes total ttl proto src dest 0)) 10) as Hr.
  destruct (finish_ok (words (blank (header_bytes total ttl proto src dest 0)) 10)) as (c & E & Hc); [|by exists c].
  specialize (Hr ltac:(intros; apply blank_byte, bytes_header; done)). lia.
Qed.

(** A store into a window of memory does to its bytes what it does to a list of them. *)
Definition window (m : list Z) (a : Z) (bs m' : list Z) : Prop :=
  0 <= a /\ a + mlen bs <= mlen m /\ updated m m' a (mlen bs) (byte_at bs).

Lemma window_start m a n : 0 <= a -> 0 <= n -> a + n <= mlen m -> exists bs, mlen bs = n /\ window m a bs m.
Proof.
  intros Ha Hn Hf. destruct (copy_out_ok m a n) as (bs & _ & Hl & Hb); [lia..|]. exists bs. split; [done|].
  unfold window. rewrite Hl. split_and!; [done..|]. split; [done|]. intros i. destruct (_ && _) eqn:Ei; [|done].
  rewrite Hb by lia. f_equal. lia.
Qed.

Lemma st8_window m a bs m1 i v bs' : window m a bs m1 -> st8 bs i v = Done bs' ->
  exists m2, st8 m1 (a + i) v = Done m2 /\ window m a bs' m2.
Proof.
  intros (Ha & Hf & Hl & Hu) E. assert (0 <= i < mlen bs) as Hi.
  { unfold st8, mlen in *. destruct (_ && _) eqn:Ei in E; [lia|discriminate]. }
  rewrite st8_ok in E by done. injection E as <-. rewrite st8_ok by lia. eexists. split; [done|].
  unfold window, updated. rewrite !mlen_insert. split_and!; [done..|]. intros j.
  rewrite byte_at_insert, Hu by lia. destruct (j =? a + i) eqn:Ej.
  - replace (_ && _) with true by lia. rewrite byte_at_insert by lia. by replace (j - a =? i) with true by lia.
  - destruct (_ && _); [|done]. rewrite byte_at_insert by lia. by replace (j - a =? i) with false by lia.
Qed.

Lemma st16_window m a bs m1 i v bs' : window m a bs m1 -> st16 bs i v = Done bs' ->
  exists m2, st16 m1 (a + i) v = Done m2 /\ window m a bs' m2.
Proof.
  intros Hw E. unfold st16 in *. apply bind_Done in E as (b1 & E1 & E2).
  destruct (st8_window _ _ _ _ _ _ _ Hw E1) as (m2 & -> & H2). run_step.
  destruct (st8_window _ _ _ _ _ _ _ H2 E2) as (m3 & E3 & H3). exists m3. by rewrite <- Z.add_assoc.
Qed.

Lemma st32_window m a bs m1 i v bs' : window m a bs m1 -> st32 bs i v = Done bs' ->
  exists m2, st32 m1 (a + i) v = Done m2 /\ window m a bs' m2.
Proof.
  intros Hw E. unfold st32 in *. apply bind_Done in E as (b1 & E0 & E). apply bind_Done in E as (b2 & E1 & E). apply bind_Done in E as (b3 & E2 & E).
  destruct (st8_window _ _ _ _ _ _ _ Hw E0) as (m2 & -> & H2). run_step. rewrite <- !Z.add_assoc.
  destruct (st8_window _ _ _ _ _ _ _ H2 E1) as (m3 & -> & H3). run_step.
  destruct (st8_window _ _ _ _ _ _ _ H3 E2) as (m4 & -> & H4). run_step.
  by apply (st8_window _ _ _ _ _ _ _ H4 E).
Qed.

Lemma swapped_bytes w : 0 <= w < 65536 ->
  byte_of (swap_bytes16 w) 0 = byte_of w 1 /\ byte_of (swap_bytes16 w) 1 = byte_of w 0.
Proof.
  intros Hw. assert (w = le2 (w mod 256) (w / 256)) as E by (unfold le2; Z.div_mod_to_equations; lia).
  assert (is_byte (w mod 256) /\ is_byte (w / 256)) as [B0 B1] by (unfold is_byte; Z.div_mod_to_equations; lia).
  rewrite E at 1 3. rewrite swap16_le2 by done.
  destruct (byte_of_le2 _ _ B1 B0) as [-> ->]. destruct (byte_of_le2 _ _ B0 B1) as [E0 E1]. rewrite <- E in E0, E1.
  by rewrite E0, E1.
Qed.

Section Writers.
Context (ttl proto src dest len : Z).
Context (Ht : is_byte ttl) (Hp : is_byte proto) (Hlen : 0 <= len <= IPV4_OUTPUT_MAX_PAYLOAD).

Let total := IPV4_HEADER_LEN + len.
Let h0 := header_bytes total ttl proto src dest 0.

Lemma total_u16 : u16 (IPV4_HEADER_LEN +ₘ len) = total.
Proof.
  unfold total, IPV4_HEADER_LEN, IPV4_OUTPUT_MAX_PAYLOAD in *. rewrite (wrap_small 32) by lia. apply wrap_small. lia.
Qed.

(** Stores into a list of known length, one after the other. *)
Local Ltac stores := repeat (rewrite st8_ok by (split; [done|reflexivity]); rewrite done_bind).

Lemma slice_header dst c : length dst = 20%nat -> finish_checksum (words (blank h0) 10) = Done c ->
  write_ipv4_header dst ttl proto src dest len = Done (header_bytes total ttl proto src dest c).
Proof.
  intros Hd Ec. unfold write_ipv4_header. rewrite total_u16. do 20 (destruct dst as [|? dst]; [done|]).
  destruct dst; [|done]. unfold st32. cbv zeta. stores.
  change (ipv4_header_checksum _) with (ipv4_header_checksum h0).
  rewrite header_sum, Ec by (done || by apply bytes_header). done.
Qed.

Lemma oracle_header c : finish_checksum (words (blank h0) 10) = Done c ->
  build_ipv4_header ttl proto src dest len = Done (header_bytes total ttl proto src dest c).
Proof.
  intros Ec. unfold build_ipv4_header.
  assert (u16 (Z.min (Z.min (IPV4_HEADER_LEN + len) (2 ^ 32 - 1)) 65535) = total) as ->.
  { unfold total, IPV4_HEADER_LEN, IPV4_OUTPUT_MAX_PAYLOAD in *. rewrite !Z.min_l by lia. apply wrap_small. lia. }
  unfold st32, st16. cbv zeta. stores.
  change (rfc1071_checksum _ _) with (rfc1071_checksum h0 (Some 10)).
  rewrite rfc_sum, Ec by (done || by apply bytes_header). done.
Qed.

(** The next store of the goal, carried out in a window of known length. *)
Local Ltac put := match goal with
  | Hw : window ?m ?a ?bs ?m1 |- context [?st ?m1 (?a + ?i) ?v] =>
      first [ destruct (st8_window _ _ _ _ i v _ Hw ltac:(stores; reflexivity)) as (? & -> & ?Hw)
            | destruct (st16_window _ _ _ _ i v _ Hw ltac:(unfold st16; stores; reflexivity)) as (? & -> & ?Hw)
            | destruct (st32_window _ _ _ _ i v _ Hw ltac:(unfold st32; stores; reflexivity)) as (? & -> & ?Hw) ];
      clear Hw; try rewrite done_bind
  end.

Lemma ptr_header m hdr c : 0 < hdr -> hdr + 20 <= mlen m -> finish_checksum (words (blank h0) 10) = Done c -> 0 <= c < 65536 ->
  exists m', write_ipv4_header_ptr m hdr ttl proto src dest len = Done m' /\
    window m hdr (header_bytes total ttl proto src dest c) m'.
Proof.
  intros Hh Hf Ec Hc. unfold write_ipv4_header_ptr. rewrite total_u16. replace (hdr =? 0) with false by lia. cbv zeta.
  destruct (window_start m hdr 20) as (bs & Hl & Hw); [lia..|]. unfold mlen in Hl.
  do 20 (destruct bs as [|? bs]; [done|]). destruct bs; [|cbn in Hl; lia]. clear Hl.
  replace (st8 m hdr) with (st8 m (hdr + 0)) by (by rewrite Z.add_0_r). do 10 put.
  destruct (swapped_bytes total) as [E0 E1]; [unfold total, IPV4_HEADER_LEN, IPV4_OUTPUT_MAX_PAYLOAD in *; lia|].
  rewrite E0, E1 in Hw1.
  match type of Hw1 with window _ _ ?l ?m1 => change l with h0 in Hw1; set (m' := m1) in * end.
  rewrite (sum_loop _ _ _ _ (blank h0) 10).
  - run_step. rewrite Ec. run_step. destruct (swapped_bytes c Hc) as [E2 E3].
    destruct (st16_window _ _ _ _ 10 (swap_bytes16 c) _ Hw1 ltac:(unfold st16; stores; reflexivity)) as (m2 & E4 & Hw2).
    rewrite E2, E3 in Hw2. exists m2. split; [exact E4|exact Hw2].
  - intros i. by apply blank_byte, bytes_header.
  - lia.
  - intros j _. change (Z.of_nat 10) with 10. lia.
  - intros j Hj. destruct (blank_read h0 j) as [R1 R2]; [lia|done|]. destruct Hw1 as (_ & Hf1 & Hl1 & Hu).
    change (mlen h0) with 20 in *. change (Z.of_nat 10) with 10 in Hj.
    assert (forall i, 0 <= i < 20 -> ld8 m' (hdr + i) = ld8 h0 i) as Hld.
    { intros i Hi. rewrite !ld8_ok by (change (mlen h0) with 20; lia). rewrite Hu.
      replace (_ && _) with true by lia. do 2 f_equal. lia. }
    rewrite !Hld by lia. done.
  - exact acc_wrapping_ok.
  - lia.
Qed.

End Writers.

(** What the receiver's test computes on any 20 bytes that start a header of that length. *)
Lemma checksum_ok_eq h : length h = 20%nat -> bytes h -> Z.land (byte_at h 0) 0x0f = 5 ->
  exists c, completes (words (blank h) 10) c /\
    ipv4_header_checksum_ok h = Done (c =? byte_at h 10 * 256 + byte_at h 11).
Proof.
  intros Hl Hh Hi. assert (mlen h = 20) as Hm by (unfold mlen; lia). unfold ipv4_header_checksum_ok.
  rewrite Hm. rewrite !ld8_ok by lia. run_step. rewrite Hi. cbn [Z.mul Pos.mul Z.ltb Z.compare Pos.compare orb]. cbv zeta.
  change (Z.to_nat (5 * 4)) with 20%nat. rewrite take_ge by lia. rewrite rfc_sum by done.
  pose proof (words_range (blank h) 10 (fun i => blank_byte h i Hh)) as Hr.
  destruct (finish_ok (words (blank h) 10)) as (c & -> & Hc); [lia|]. exists c. split; [done|]. done.
Qed.

Lemma checksum_ok_ihl h : length h = 20%nat -> bytes h -> Z.land (byte_at h 0) 0x0f <> 5 ->
  ipv4_header_checksum_ok h = Done false.
Proof.
  intros Hl Hh Hi. assert (mlen h = 20) as Hm by (unfold mlen; lia). unfold ipv4_header_checksum_ok.
  rewrite Hm, !ld8_ok by lia. run_step. cbv zeta. replace (20 <? IPV4_HEADER_LEN) with false by done.
  change IPV4_HEADER_LEN with 20.
  assert (Z.land (byte_at h 0) 15 * 4 <> 20) as Hn by lia. set (x := Z.land _ _ * 4) in *.
  by replace ((x <? 20) || (20 <? x)) with true by lia.
Qed.

Lemma csum_field c : 0 <= c < 65536 -> byte_of c 1 * 256 + byte_of c 0 = c.
Proof.
  intros Hc. unfold byte_of, wrap. rewrite !shr_eq by lia. change (2 ^ (8 * 1)) with 256. change (2 ^ (8 * 0)) with 1.
  change (2 ^ 8) with 256. Z.div_mod_to_equations. lia.
Qed.

Lemma words_field h : words (byte_at h) 10 = words (blank h) 10 + (byte_at h 10 * 256 + byte_at h 11).
Proof.
  cbn [words]. unfold blank.
  repeat match goal with |- context [if ?b then _ else _] => let v := eval vm_compute in b in change b with v; cbv iota end.
  change (2 * Z.of_nat 5) with 10. change (10 + 1) with 11. lia.
Qed.

(** A sum of words in which one byte changed is another one modulo 65535. *)
Lemma words_flip f g n k : (forall i, is_byte (f i)) -> (forall i, is_byte (g i)) -> 0 <= k < 2 * Z.of_nat n ->
  f k <> g k -> (forall i, i <> k -> f i = g i) -> ~ cong (words f n) (words g n).
Proof.
  intros Hf Hg Hk Hne Heq.
  assert (words f n - words g n = (f k - g k) * (if Z.even k then 256 else 1)) as Hd.
  { induction n as [|n IH]; [lia|]. cbn [words].
    destruct (decide (k < 2 * Z.of_nat n)) as [Hlt|Hge].
    - specialize (IH ltac:(lia)). rewrite (Heq (2 * Z.of_nat n)), (Heq (2 * Z.of_nat n + 1)) by lia. lia.
    - assert (words f n = words g n) as -> by (apply words_ext; intros i Hi; apply Heq; lia).
      destruct (decide (k = 2 * Z.of_nat n)) as [->|Hn].
      + rewrite Z.even_mul. cbn [Z.even orb]. rewrite (Heq (2 * Z.of_nat n + 1)) by lia. lia.
      + assert (k = 2 * Z.of_nat n + 1) as -> by lia. rewrite Z.even_add, Z.even_mul. cbn [Z.even orb eqb].
        rewrite (Heq (2 * Z.of_nat n)) by lia. lia. }
  intros [q Hq]. specialize (Hf k) as B1. specialize (Hg k) as B2. unfold is_byte in *.
  assert (q = 0) as -> by (destruct (Z.even k); lia). destruct (Z.even k); lia.
Qed.

(** ** Theorems about the header *)

(** Whatever the addresses, TTL and protocol, the header written through a raw
    pointer, the one written into a slice and the one the oracle builds are the same 20
    bytes, nothing else in memory changes, the total length field counts header and
    payload, and a receiver that adds up the words of the header gets 0 modulo 65535. *)
Theorem ipv4_header_emitted ttl proto src dest len m hdr dst :
  is_byte ttl -> is_byte proto -> 0 <= len <= IPV4_OUTPUT_MAX_PAYLOAD ->
  0 < hdr -> hdr + 20 <= mlen m -> length dst = 20%nat ->
  exists h m', build_ipv4_header ttl proto src dest len = Done h /\
    write_ipv4_header dst ttl proto src dest len = Done h /\
    write_ipv4_header_ptr m hdr ttl proto src dest len = Done m' /\
    length h = 20%nat /\ updated m m' hdr 20 (byte_at h) /\
    byte_at h 2 * 256 + byte_at h 3 = 20 + len /\
    net_sum h 0 20 mod 65535 = 0 /\ ipv4_header_checksum_ok h = Done true.
Proof.
  intros Ht Hp Hlen Hh Hf Hd.
  destruct (header_csum_exists (IPV4_HEADER_LEN + len) ttl proto src dest Ht Hp) as (c & [Hc1 Hc2] & Ec).
  set (h := header_bytes (IPV4_HEADER_LEN + len) ttl proto src dest c).
  destruct (ptr_header ttl proto src dest len Ht Hp Hlen m hdr c) as (m' & Em & _ & _ & Hu); [done|done|done|lia|].
  exists h, m'. split_and!; [by apply oracle_header|by apply slice_header|done|done|exact Hu| | |].
  - change (byte_of (IPV4_HEADER_LEN + len) 1 * 256 + byte_of (IPV4_HEADER_LEN + len) 0 = 20 + len).
    unfold IPV4_HEADER_LEN, IPV4_OUTPUT_MAX_PAYLOAD in *. by rewrite csum_field by lia.
  - assert (cong (net_sum h 0 20) 0) as E; [|by apply cong_mod in E]. change 20%nat with (2 * 10)%nat. rewrite <- words_net. rewrite <- Hc2.
    rewrite (words_ext (blank (header_bytes _ _ _ _ _ 0)) (blank h) 10) by (intros; by rewrite <- (blank_header _ _ _ _ _ c)).
    rewrite words_field. change (byte_at h 10) with (byte_of c 1). change (byte_at h 11) with (byte_of c 0).
    by rewrite csum_field by lia.
  - destruct (checksum_ok_eq h) as (c' & Hc' & ->); [done|by apply bytes_header|done|].
    f_equal. apply Z.eqb_eq. change (c' = byte_of c 1 * 256 + byte_of c 0). rewrite csum_field by lia.
    apply (completes_det _ _ _ Hc'). erewrite words_ext; [by split|]. intros i _. apply blank_header.
Qed.

(** C30: a header whose checksum verifies no longer verifies when exactly one of its
    bytes is changed: no single-byte corruption passes. *)
Theorem ipv4_header_detects h h' k :
  length h = 20%nat -> length h' = 20%nat -> bytes h -> bytes h' ->
  ipv4_header_checksum_ok h = Done true ->
  0 <= k < 20 -> byte_at h' k <> byte_at h k -> (forall i, i <> k -> byte_at h' i = byte_at h i) ->
  ipv4_header_checksum_ok h' = Done false.
Proof.
  intros Hl Hl' Hh Hh' Hok Hk Hne Heq.
  destruct (decide (Z.land (byte_at h' 0) 0x0f = 5)) as [Hi'|Hi']; [|by apply checksum_ok_ihl].
  destruct (decide (Z.land (byte_at h 0) 0x0f = 5)) as [Hi|Hi]; [|by rewrite checksum_ok_ihl in Hok].
  destruct (checksum_ok_eq h) as (c & Hc & E); [done..|]. rewrite E in Hok. injection Hok as Hok. apply Z.eqb_eq in Hok.
  destruct (checksum_ok_eq h') as (c' & Hc' & ->); [done..|]. f_equal. apply Z.eqb_neq.
  destruct (decide (k = 10 \/ k = 11)) as [Hf|Hf].
  - assert (c' = c) as ->.
    { apply (completes_det _ _ _ Hc'). erewrite words_ext; [exact Hc|]. intros i _. unfold blank.
      destruct (_ || _) eqn:Ei; [done|]. apply Heq. lia. }
    rewrite Hok. pose proof (byte_at_range h 10 Hh). pose proof (byte_at_range h 11 Hh).
    pose proof (byte_at_range h' 10 Hh'). pose proof (byte_at_range h' 11 Hh'). unfold is_byte in *.
    destruct Hf as [-> | ->]; [rewrite (Heq 11) by lia|rewrite (Heq 10) by lia]; lia.
  - rewrite (Heq 10), (Heq 11) by lia. rewrite <- Hok. intros ->.
    apply (words_flip (blank h') (blank h) 10 k); [intros; by apply blank_byte..|lia| | |by apply (completes_inj _ _ c)].
    + unfold blank. by replace ((k =? 10) || (k =? 11)) with false by lia.
    + intros i Hki. unfold blank. by rewrite Heq.
Qed.

(** ** Refinement *)

(** What [ipv4_output] relies on: no call resizes memory; a route that was found names
    one of the sixteen devices; [eth_output] that succeeded left the Ethernet header in
    front of a buffer with room for the packet. *)
Class NetStackSpec (E : Type) `{!NetStack E} := {
  device_mac : Z -> list Z;
  device_mac_len d : length (device_mac d) = 6%nat;
  route_size fn dest dev src w : mlen (invoke_route fn dest dev src w).1.2 = mlen w.2;
  route_index fn dest dev src w :
    let '(_, (next_hop, _, idx)) := invoke_route fn dest dev src w in next_hop <> 0 -> 0 <= idx <= 60;
  arp_size fn ip idx w : mlen (invoke_arp fn ip idx w).1.2 = mlen w.2;
  eth_size fn proto device total mac w : mlen (invoke_eth fn proto device total mac w).1.2 = mlen w.2;
  eth_frame_at fn proto device total mac w :
    let '(w', o) := invoke_eth fn proto device total mac w in
    eth_zf o = false -> length mac = 6%nat -> 14 <= eth_header o /\ eth_header o + total <= mlen w'.2 /\
      stored w'.2 (eth_header o - 14) (mac ++ device_mac device ++ [byte_of proto 0; byte_of proto 1])
}.

Definition table_fits (m : list Z) (base : Z) : Prop := 0 <= base /\ base + 64 <= mlen m.

Section Refinement.
Context {E : Type} `{!NetStack E} `{!NetStackSpec E}.
Implicit Types (w : E * list Z) (ctx : Ipv4OutputCtx).

(** The calls that are made when nothing fails, one after the other. *)
Definition routed ctx w := invoke_route (route ctx) (dest_in ctx) (device_in ctx) (source_in ctx) w.
Definition next_hop ctx w : Z := let '(_, (hop, _, _)) := routed ctx w in hop.
Definition routed_src ctx w : Z := let '(_, (_, src, _)) := routed ctx w in src.
Definition out_index ctx w : Z := let '(_, (_, _, idx)) := routed ctx w in idx.
Definition resolved ctx w := invoke_arp (arp ctx) (next_hop ctx w) (out_index ctx w) (routed ctx w).1.
Definition counted ctx w : E * list Z :=
  let '(e, m) := (resolved ctx w).1 in let p := packets_tx ctx + out_index ctx w in
  (e, if packets_tx ctx =? 0 then m else write32 m p (word_at m p +ₘ 1)).
Definition next_mac ctx w : list Z := let '(_, (eax, ebx)) := resolved ctx w in mac_of eax ebx.
Definition used_device ctx w : Z :=
  if net_devices ctx =? 0 then 0 else word_at (counted ctx w).2 (net_devices ctx + out_index ctx w).
Definition sent ctx w :=
  invoke_eth (eth_out ctx) ETHER_PROTO_IPV4 (used_device ctx w) (payload_len ctx + 20) (next_mac ctx w) (counted ctx w).

(** The same call as the oracle sees it. *)
Definition request ctx (data : list Z) : Ipv4OutputRequest :=
  mkRequest (u8 (ttl_proto ctx)) (u8 (Z.shiftr (ttl_proto ctx) 8)) (device_in ctx) (payload_len ctx) (source_in ctx)
    (dest_in ctx) data.
Definition deps ctx w : Ipv4OutputDeps :=
  mkDeps (negb (next_hop ctx w =? 0)) (routed_src ctx w) (next_hop ctx w)
    (let '(_, (eax, _)) := resolved ctx w in Z.land eax 0xffff0000 =? 0)
    (next_mac ctx w) (device_mac (used_device ctx w)) (negb (eth_zf (sent ctx w).2)).

Lemma counted_ok ctx w : table_fits (resolved ctx w).1.2 (packets_tx ctx) -> mlen (resolved ctx w).1.2 <= 2 ^ 32 ->
  0 <= out_index ctx w <= 60 ->
  inc_packets_tx_raw (resolved ctx w).1.2 (packets_tx ctx) (out_index ctx w) = Done (counted ctx w).2 /\
  (counted ctx w).1 = (resolved ctx w).1.1 /\ mlen (counted ctx w).2 = mlen (resolved ctx w).1.2.
Proof.
  unfold counted, inc_packets_tx_raw. destruct (resolved ctx w).1 as [e m]. cbn [fst snd]. intros [H0 Hf] Hm Hi.
  destruct (packets_tx ctx =? 0); [done|]. cbv zeta. rewrite wrap_small by lia. rewrite ld32_ok by lia. run_step.
  rewrite st32_ok by lia. by rewrite mlen_write32.
Qed.

Lemma used_device_ok ctx w : table_fits (counted ctx w).2 (net_devices ctx) -> mlen (counted ctx w).2 <= 2 ^ 32 ->
  0 <= out_index ctx w <= 60 ->
  load_device_raw (counted ctx w).2 (net_devices ctx) (out_index ctx w) = Done (used_device ctx w).
Proof.
  unfold used_device, load_device_raw. intros [H0 Hf] Hm Hi. destruct (net_devices ctx =? 0); [done|].
  rewrite wrap_small by lia. by rewrite ld32_ok by lia.
Qed.

(** The model of the leaf in the terms of the calls it makes. *)
Lemma kernel_unfold ctx w : table_fits w.2 (packets_tx ctx) -> table_fits w.2 (net_devices ctx) -> mlen w.2 < 2 ^ 32 ->
  0 <= payload_len ctx -> out_index ctx w <> 0 ->
  ipv4_output_kernel w ctx =
    if IPV4_OUTPUT_MAX_PAYLOAD <? payload_len ctx then fail w ctx
    else if next_hop ctx w =? 0 then fail (routed ctx w).1 ctx
    else if negb (arp_ok (deps ctx w)) then fail (resolved ctx w).1 ctx
    else if eth_zf (sent ctx w).2 then fail (sent ctx w).1 ctx
    else
      m ← write_ipv4_header_ptr (sent ctx w).1.2 (eth_header (sent ctx w).2) (ttl (request ctx [])) (protocol (request ctx []))
            (routed_src ctx w) (dest_in ctx) (payload_len ctx);
      let o := (sent ctx w).2 in
      Done (((sent ctx w).1.1, m), set_outs ctx (eth_device o) (eth_frame o) (eth_header o +ₘ IPV4_HEADER_LEN), eth_buf o).
Proof.
  intros Hp Hn Hm Hl Hi. unfold ipv4_output_kernel. cbv zeta. destruct (IPV4_OUTPUT_MAX_PAYLOAD <? _) eqn:El; [done|].
  pose proof (route_size (route ctx) (dest_in ctx) (device_in ctx) (source_in ctx) w) as S1.
  pose proof (route_index (route ctx) (dest_in ctx) (device_in ctx) (source_in ctx) w) as R1.
  fold (routed ctx w) in S1, R1 |- *.
  assert (routed ctx w = ((routed ctx w).1, (next_hop ctx w, routed_src ctx w, out_index ctx w))) as E1.
  { unfold next_hop, routed_src, out_index. by destruct (routed ctx w) as [? [[? ?] ?]]. }
  rewrite E1 in R1. rewrite E1 at 1. cbv beta iota. destruct (next_hop ctx w =? 0) eqn:Eh; [done|].
  specialize (R1 ltac:(lia)). replace (out_index ctx w =? 0) with false by lia.
  fold (resolved ctx w). pose proof (arp_size (arp ctx) (next_hop ctx w) (out_index ctx w) (routed ctx w).1) as S2.
  fold (resolved ctx w) in S2.
  assert (exists eax ebx, resolved ctx w = ((resolved ctx w).1, (eax, ebx)) /\ next_mac ctx w = mac_of eax ebx /\
    arp_ok (deps ctx w) = (Z.land eax 0xffff0000 =? 0)) as (eax & ebx & E2 & Emac & ->).
  { unfold next_mac, deps. cbn [arp_ok]. destruct (resolved ctx w) as [? [eax ebx]]. by exists eax, ebx. }
  rewrite E2 at 1. cbv beta iota. destruct (negb _); [done|].
  destruct (counted_ok ctx w) as (-> & Ec & Sc); [unfold table_fits in *; rewrite S2, S1; done|lia|done|]. run_step.
  rewrite used_device_ok by (unfold table_fits in *; rewrite ?Sc, ?S2, ?S1; done || lia). run_step.
  rewrite <- Ec, <- Emac. replace ((counted ctx w).1, (counted ctx w).2) with (counted ctx w) by (by destruct (counted ctx w)).
  assert (payload_len ctx +ₘ IPV4_HEADER_LEN = payload_len ctx + 20) as ->.
  { unfold IPV4_HEADER_LEN, IPV4_OUTPUT_MAX_PAYLOAD in *. apply wrap_small. lia. }
  fold (sent ctx w). destruct (sent ctx w) as [[e m] o]. cbn [fst snd]. by destruct (eth_zf o).
Qed.

(** The memory and state in which a failed call leaves the machine. *)
Definition failed_in ctx w (err : Ipv4OutputError) : E * list Z :=
  match err with
  | TooLarge => w
  | NoRoute => (routed ctx w).1
  | ArpError => (resolved ctx w).1
  | EthError => (sent ctx w).1
  end.

Lemma sent_size ctx w : mlen (sent ctx w).1.2 = mlen w.2.
Proof.
  unfold sent. rewrite eth_size. unfold counted. destruct (resolved ctx w).1 as [e m] eqn:Er. cbn [snd].
  assert (mlen m = mlen w.2) as Hm.
  { replace m with ((resolved ctx w).1.2) by by rewrite Er. unfold resolved. rewrite arp_size. unfold routed. apply route_size. }
  destruct (_ =? 0); [done|]. by rewrite mlen_write32.
Qed.

Lemma next_mac_len ctx w : length (next_mac ctx w) = 6%nat.
Proof. unfold next_mac. by destruct (resolved ctx w) as [? [? ?]]. Qed.

(** The frame in memory after the header was written behind an Ethernet header. *)
Lemma frame_written ctx w data m hdr : 0 <= payload_len ctx -> (IPV4_OUTPUT_MAX_PAYLOAD <? payload_len ctx) = false ->
  mlen data = payload_len ctx -> 14 <= hdr -> hdr + (payload_len ctx + 20) <= mlen m ->
  stored m (hdr - 14) (next_mac ctx w ++ device_mac (used_device ctx w) ++ [byte_of ETHER_PROTO_IPV4 0; byte_of ETHER_PROTO_IPV4 1]) ->
  exists h m', build_ipv4_header (ttl (request ctx data)) (protocol (request ctx data)) (routed_src ctx w) (dest_in ctx) (payload_len ctx) = Done h /\
    write_ipv4_header_ptr m hdr (ttl (request ctx data)) (protocol (request ctx data)) (routed_src ctx w) (dest_in ctx) (payload_len ctx) = Done m' /\
    let frame := mkFrame (next_mac ctx w) (device_mac (used_device ctx w)) ETHERTYPE_IPV4
      (h ++ resize (Z.to_nat (payload_len ctx)) 0 data) (resize (Z.to_nat (payload_len ctx)) 0 data) in
    stored m' (hdr - 14) (take 34 (wire_bytes frame)) /\
    forall m'', updated m' m'' (hdr + 20) (payload_len ctx) (byte_at data) -> stored m'' (hdr - 14) (wire_bytes frame).
Proof.
  intros Hl Hl' Hd Hh Hf Hs.
  set (t := u8 (ttl_proto ctx)). set (p := u8 (Z.shiftr (ttl_proto ctx) 8)).
  destruct (header_csum_exists (IPV4_HEADER_LEN + payload_len ctx) t p (routed_src ctx w) (dest_in ctx)) as (c & [Hc _] & Ec);
    [by apply (wrap_range 8)..|].
  set (h := header_bytes (IPV4_HEADER_LEN + payload_len ctx) t p (routed_src ctx w) (dest_in ctx) c).
  destruct (ptr_header t p (routed_src ctx w) (dest_in ctx) (payload_len ctx)) with m hdr c as (m' & Em & _ & _ & Hu);
    [by apply (wrap_range 8)..|lia|lia|lia|done|lia|].
  exists h, m'. split; [apply oracle_header; [by apply (wrap_range 8)..|lia|done]|]. split; [exact Em|]. cbv zeta.
  assert (resize (Z.to_nat (payload_len ctx)) 0 data = data) as -> by (apply resize_all_alt; unfold mlen in Hd; lia).
  unfold wire_bytes. cbn [frame_dst_mac frame_src_mac ethertype ipv4].
  change [byte_of ETHERTYPE_IPV4 1; byte_of ETHERTYPE_IPV4 0] with [byte_of ETHER_PROTO_IPV4 0; byte_of ETHER_PROTO_IPV4 1].
  set (eh := next_mac ctx w ++ device_mac (used_device ctx w) ++ _) in *.
  replace (next_mac ctx w ++ _) with (eh ++ h ++ data) by (unfold eh; by rewrite <- !app_assoc).
  assert (length eh = 14%nat) as Hel by (unfold eh; rewrite !length_app, next_mac_len, device_mac_len; done).
  assert (mlen eh = 14) as Hml by (unfold mlen; lia).
  assert (stored m' (hdr - 14) (eh ++ h)) as Hst.
  { apply stored_join; [apply (stored_frame _ _ _ _ _ _ _ Hs Hu); left; lia|].
    rewrite Hml. replace (hdr - 14 + 14) with hdr by lia. apply (updated_stored _ _ _ _ Hu); [lia|]. change (hdr + 20 <= mlen m). lia. }
  assert (take 34 (eh ++ h ++ data) = eh ++ h) as ->.
  { rewrite app_assoc. apply take_app_length'. rewrite length_app, Hel. done. }
  split; [done|]. intros m'' Hu'. rewrite app_assoc. assert (mlen (eh ++ h) = 34) as Hm34 by (rewrite mlen_app, Hml; done).
  destruct Hu as [Lu _]. apply stored_join.
  - apply (stored_frame _ _ _ _ _ _ _ Hst Hu'). left. lia.
  - rewrite Hm34. replace (hdr - 14 + 34) with (hdr + 20) by lia. rewrite <- Hd in Hu'. apply (updated_stored _ _ _ _ Hu'); lia.
Qed.

(** C29: for every packet that does not go to the loopback device, [ipv4_output] does
    what the oracle says.  Where the oracle has an error the call answers 0 with all
    outputs cleared, having made exactly the calls that precede the error (the packet
    counter is bumped before [eth_output], even when that fails).  Where the oracle has
    a frame, the buffer holds its Ethernet and IPv4 headers byte for byte, and once the
    caller has stored the payload at [payload_ptr] the buffer holds the whole frame as
    it goes over the wire. *)
Theorem ipv4_output_refines_oracle ctx w data :
  table_fits w.2 (packets_tx ctx) -> table_fits w.2 (net_devices ctx) -> mlen w.2 < 2 ^ 32 ->
  0 <= payload_len ctx -> mlen data = payload_len ctx -> out_index ctx w <> 0 ->
  exists result, ipv4_output_contract (request ctx data) (deps ctx w) = Done result /\
  match result with
  | inl err => ipv4_output_kernel w ctx = Done (failed_in ctx w err, set_outs ctx 0 0 0, 0)
  | inr frame => exists m',
      let o := (sent ctx w).2 in
      ipv4_output_kernel w ctx =
        Done (((sent ctx w).1.1, m'), set_outs ctx (eth_device o) (eth_frame o) (eth_header o + 20), eth_buf o) /\
      stored m' (eth_header o - 14) (take 34 (wire_bytes frame)) /\
      forall m'', updated m' m'' (eth_header o + 20) (payload_len ctx) (byte_at data) ->
        stored m'' (eth_header o - 14) (wire_bytes frame)
  end.
Proof.
  intros Hp Hn Hm Hl Hd Hi. rewrite kernel_unfold by done. unfold ipv4_output_contract. cbn [req_payload_len request].
  destruct (IPV4_OUTPUT_MAX_PAYLOAD <? payload_len ctx) eqn:El; [by eexists|]. cbn [route_ok deps].
  destruct (next_hop ctx w =? 0); cbn [negb]; [by eexists|]. destruct (arp_ok _); cbn [negb]; [|by eexists].
  cbn [eth_ok deps]. destruct (eth_zf (sent ctx w).2) eqn:Ez; cbn [negb]; [by eexists|].
  pose proof (eth_frame_at (eth_out ctx) ETHER_PROTO_IPV4 (used_device ctx w) (payload_len ctx + 20) (next_mac ctx w) (counted ctx w)) as F.
  fold (sent ctx w) in F. rewrite (surjective_pairing (sent ctx w)) in F. cbv beta iota in F. specialize (F Ez (next_mac_len ctx w)) as (F0 & F1 & F2).
  set (o := (sent ctx w).2) in *. set (m := (sent ctx w).1.2) in *.
  destruct (frame_written ctx w data m (eth_header o)) as (h & m' & Eh & Em & Hs & Hw); [done..|lia|lia|done|].
  cbn [ttl protocol routed_source_ip dest_ip request deps payload] in *. rewrite Eh. run_step. eexists. split; [done|]. exists m'.
  rewrite Em. run_step. unfold IPV4_HEADER_LEN. split_and!; [|exact Hs|exact Hw].
  pose proof (sent_size ctx w). fold m in H. rewrite wrap_small by lia. done.
Qed.


(** A packet for device 0 goes back through [loop_output]: the header's source is the
    next hop, the routed source is left in [frame_size], and when no buffer was
    allocated nothing is written. *)
Lemma ipv4_output_loopback ctx w m1 w2 o :
  0 <= payload_len ctx <= IPV4_OUTPUT_MAX_PAYLOAD -> next_hop ctx w <> 0 -> out_index ctx w = 0 ->
  inc_packets_tx_raw (routed ctx w).1.2 (packets_tx ctx) 0 = Done m1 ->
  invoke_loop (loop_out ctx) (payload_len ctx + 20) ((routed ctx w).1.1, m1) = (w2, o) ->
  0 <= loop_header o -> (0 < loop_header o -> loop_header o + 20 <= mlen w2.2) ->
  exists m', ipv4_output_kernel w ctx =
      Done ((w2.1, m'), set_outs ctx (loop_device o) (routed_src ctx w) (loop_header o +ₘ 20), loop_buf o) /\
    if loop_header o =? 0 then m' = w2.2
    else exists h, build_ipv4_header (u8 (ttl_proto ctx)) (u8 (Z.shiftr (ttl_proto ctx) 8)) (next_hop ctx w) (dest_in ctx)
        (payload_len ctx) = Done h /\ updated w2.2 m' (loop_header o) 20 (byte_at h).
Proof.
  intros Hl Hh Hi Ei Eo H0 Hf. unfold ipv4_output_kernel. cbv zeta. replace (IPV4_OUTPUT_MAX_PAYLOAD <? _) with false by lia.
  fold (routed ctx w). assert (routed ctx w = ((routed ctx w).1, (next_hop ctx w, routed_src ctx w, out_index ctx w))) as E1.
  { unfold next_hop, routed_src, out_index. by destruct (routed ctx w) as [? [[? ?] ?]]. }
  rewrite E1. cbv beta iota. rewrite (proj2 (Z.eqb_neq _ _) Hh), Hi, Z.eqb_refl, Ei. run_step.
  assert (payload_len ctx +ₘ IPV4_HEADER_LEN = payload_len ctx + 20) as ->.
  { unfold IPV4_HEADER_LEN, IPV4_OUTPUT_MAX_PAYLOAD in *. apply wrap_small. lia. }
  rewrite Eo. destruct (loop_header o =? 0) eqn:Ez.
  - unfold write_ipv4_header_ptr. rewrite Ez. run_step. by eexists.
  - set (t := u8 (ttl_proto ctx)). set (p := u8 (Z.shiftr (ttl_proto ctx) 8)).
    destruct (header_csum_exists (IPV4_HEADER_LEN + payload_len ctx) t p (next_hop ctx w) (dest_in ctx)) as (c & [Hc _] & Ec);
      [by apply (wrap_range 8)..|].
    destruct (ptr_header t p (next_hop ctx w) (dest_in ctx) (payload_len ctx)) with w2.2 (loop_header o) c as (m' & -> & _ & _ & Hu);
      [by apply (wrap_range 8)..|lia|lia|lia|done|lia|]. run_step. eexists. split; [done|].
    eexists. split; [apply oracle_header; [by apply (wrap_range 8)..|lia|exact Ec]|exact Hu].
Qed.

End Refinement.

(** ** The Rust route as the route callback *)

(** Every answer of [ipv4_route] that names a next hop names one of the sixteen devices. *)
Definition device_slot (i : Z) : Prop := exists k, i = 4 * k /\ 0 <= k < 16.

Lemma scan_slot probe from r : table_scan probe from = Done (Some r) -> (exists k, from = 4 * k /\ 0 <= k <= 16) -> device_slot r.
Proof.
  intros E Hf. unfold table_scan in E.
  refine (loop_partial (fun i => exists k, i = 4 * k /\ 0 <= k <= 16)
    (fun o => match o with Some r => device_slot r | None => True end) _ _ 17 from (Some r) Hf E).
  intros i x (k & -> & Hk) Ex. cbv beta in Ex. unfold TABLE_BYTES, NET_DEVICES_MAX in Ex.
  destruct (4 * k <? 4 * 16) eqn:Ei; [|by injection Ex as <-].
  apply bind_Done in Ex as ([] & _ & Ex); injection Ex as <-; [exists k; lia|]. exists (k + 1). rewrite wrap_small by lia. lia.
Qed.

Lemma find_device_slot m d L r : find_device_idx4 m d L = Done (Some r) -> device_slot r.
Proof.
  unfold find_device_idx4. destruct (d =? 0); [done|]. intros E.
  refine (loop_partial (fun s => s.2 = 4 * (16 - Z.of_nat s.1) /\ (s.1 <= 16)%nat)
    (fun o => match o with Some r => device_slot r | None => True end) _ _ 17 _ (Some r) _ E); [|done].
  intros [n i] x [Hi Hn] Ex. cbn [fst snd] in *. unfold find_device_body in Ex. destruct n as [|n]; [by injection Ex as <-|].
  apply bind_Done in Ex as (v & _ & Ex). destruct (v =? d); injection Ex as <-.
  - exists (16 - Z.of_nat (S n)). lia.
  - cbn [fst snd]. rewrite wrap_small by lia. lia.
Qed.

Lemma got_it_slot m d s i A r : got_it m d s i A = Done r -> device_idx4 r = i.
Proof.
  unfold got_it. destruct (s =? 0); [|by intros [= <-]]. intros E. apply bind_Done in E as (v & _ & E). by injection E as <-.
Qed.

Lemma route_slot m dest dev src A S G L r : ipv4_route m dest dev src A S G L = Done r ->
  Net.dest_ip r <> 0 -> device_slot (device_idx4 r).
Proof.
  unfold ipv4_route, ipv4_route_inner. intros E Hd. assert (device_slot 0) as H0 by (exists 0; lia).
  destruct (negb (dev =? 0)); [|destruct (dest =? IPV4_BROADCAST)].
  - unfold ipv4_route_got_device in E. apply bind_Done in E as ([i|] & Ei & E); [|by injection E as <-].
    apply find_device_slot in Ei. apply bind_Done in E as (s & _ & E). destruct (negb _); [|by injection E as <-].
    apply bind_Done in E as (? & _ & E). apply bind_Done in E as (? & _ & E). cbv zeta in E. apply bind_Done in E as (? & _ & E).
    destruct (negb _); [apply bind_Done in E as (? & _ & E)|]; by injection E as <-.
  - unfold ipv4_route_broadcast in E. apply bind_Done in E as ([i|] & Ei & E).
    + apply scan_slot in Ei; [|by exists 1]. by rewrite (got_it_slot _ _ _ _ _ _ E).
    + apply bind_Done in E as ([i|] & Ej & E); [|by rewrite (got_it_slot _ _ _ _ _ _ E)].
      apply scan_slot in Ej; [|by exists 1]. by rewrite (got_it_slot _ _ _ _ _ _ E).
  - apply bind_Done in E as ([i|] & Ei & E).
    + apply scan_slot in Ei; [|by exists 0]. by rewrite (got_it_slot _ _ _ _ _ _ E).
    + apply bind_Done in E as ([i|] & Ej & E); [|by rewrite (got_it_slot _ _ _ _ _ _ E)].
      apply scan_slot in Ej; [|by exists 1]. apply bind_Done in E as (? & _ & E). by rewrite (got_it_slot _ _ _ _ _ _ E).
Qed.

(** A network stack around the Rust [ipv4_route]: its tables lie at [A], [S], [G] and
    [L]; ARP knows one neighbour; [eth_output] builds frames at [B]. *)
Section Stack.
Context (A S G L B : Z).

Definition sample_mac : list Z := [0x52; 0x54; 0; 0x12; 0x34; 0x56].

Definition sample_frame (m : list Z) (total : Z) (mac : list Z) (proto : Z) : option (list Z) :=
  let eh := mac ++ sample_mac ++ [byte_of proto 0; byte_of proto 1] in
  if (0 <=? B) && (0 <=? total) && (B + 14 + total <=? mlen m) && (length mac =? 6)%nat
  then Some (take (Z.to_nat B) m ++ eh ++ drop (Z.to_nat B + 14) m) else None.

Definition stack : NetStack unit := {|
  invoke_route _ dest dev src w :=
    (w, match ipv4_route w.2 dest dev src A S G L with
        | Done r => (Net.dest_ip r, Net.source_ip r, device_idx4 r)
        | _ => (0, 0, 0) end);
  invoke_arp _ ip _ w := (w, (0x5452, u32 (ip * 0x01010101)));
  invoke_eth _ proto device total mac w :=
    match sample_frame w.2 total mac proto with
    | Some m => ((w.1, m), mkEth B device (14 + total) (B + 14) false)
    | None => (w, mkEth 0 0 0 0 true)
    end;
  invoke_loop _ total w := (w, mkLoop B 0 B)
|}.

Lemma sample_frame_ok m total mac proto m' : sample_frame m total mac proto = Some m' ->
  mlen m' = mlen m /\ 0 <= B /\ B + 14 + total <= mlen m /\
  stored m' B (mac ++ sample_mac ++ [byte_of proto 0; byte_of proto 1]).
Proof.
  unfold sample_frame. destruct (_ && _) eqn:Ec; [|done]. intros [= <-]. apply andb_true_iff in Ec as [Ec Hmac].
  apply Nat.eqb_eq in Hmac. set (eh := mac ++ _). assert (mlen eh = 14) as He by (unfold mlen, eh; rewrite length_app, Hmac; done).
  assert (mlen (take (Z.to_nat B) m) = B) as Ht by (unfold mlen in *; rewrite length_take; lia).
  assert (mlen (take (Z.to_nat B) m ++ eh ++ drop (Z.to_nat B + 14) m) = mlen m) as Hm.
  { rewrite !mlen_app, He, Ht. unfold mlen in *. rewrite length_drop. lia. }
  rewrite Hm. split_and!; [done|lia..|]. split_and!; [lia|lia|]. intros i Hi.
  rewrite byte_at_app, Ht by lia. replace (B + i <? B) with false by lia. replace (B + i - B) with i by lia.
  rewrite byte_at_app by lia. by replace (i <? mlen eh) with true by lia.
Qed.

#[local] Existing Instance stack.

Program Definition stack_spec : NetStackSpec unit := {| device_mac _ := sample_mac |}.
Next Obligation. done. Qed.
Next Obligation. done. Qed.
Next Obligation.
  intros fn dest dev src w. cbn [invoke_route stack]. destruct (ipv4_route _ _ _ _ _ _ _ _) as [r| |] eqn:Er; [|done..].
  intros Hd. destruct (route_slot _ _ _ _ _ _ _ _ _ Er Hd) as (k & -> & Hk). lia.
Qed.
Next Obligation. done. Qed.
Next Obligation.
  intros fn proto device total mac w. cbn [invoke_eth stack]. destruct (sample_frame _ _ _ _) as [m|] eqn:Ef; [|done].
  cbn [fst snd]. by destruct (sample_frame_ok _ _ _ _ _ Ef).
Qed.
Next Obligation.
  intros fn proto device total mac w. cbn [invoke_eth stack]. destruct (sample_frame _ _ _ _) as [m|] eqn:Ef; [|done].
  cbn [fst snd eth_zf eth_header]. intros _ _. destruct (sample_frame_ok _ _ _ _ _ Ef) as (Hl & H0 & Hf & Hs).
  replace (B + 14 - 14) with B by lia. split_and!; [lia|lia|done].
Qed.

End Stack.

(** ** Witnesses *)

(** 10.0.2.15 sends four bytes to 10.0.2.2 through device 1. *)
Definition sample_memory : list Z :=
  let m := replicate 512 0 in
  let m := write32 m 0 0x0100007f in let m := write32 m 4 0x0f02000a in
  let m := write32 m 64 0x000000ff in let m := write32 m 68 0x00ffffff in
  write32 m 196 0x1000.
Definition sample_ctx : Ipv4OutputCtx :=
  mkCtx 0x1180 0 4 0 0x0202000a 0x100 0x200 0x300 0x400 256 192 0 0 0.

Lemma ipv4_header_emitted_witness : exists h,
  build_ipv4_header 128 17 0x0f02000a 0x0202000a 18 = Done h /\ net_sum h 0 20 mod 65535 = 0 /\
  byte_at h 10 = 0x22 /\ byte_at h 11 = 0xb7.
Proof.
  destruct (ipv4_header_emitted 128 17 0x0f02000a 0x0202000a 18 (replicate 40 0) 7 (replicate 20 0))
    as (h & m' & E & _ & _ & _ & _ & _ & Hs & _); [by vm_compute..|done|].
  exists h. split; [exact E|]. split; [exact Hs|]. vm_compute in E. injection E as <-. by vm_compute.
Defined.

Definition sample_header : list Z :=
  [0x45; 0; 0; 38; 0; 0; 0; 0; 128; 17; 0x22; 0xb7; 10; 0; 2; 15; 10; 0; 2; 2].

Lemma ipv4_header_detects_witness :
  ipv4_header_checksum_ok (<[19%nat := 3]> sample_header) = Done false.
Proof.
  apply (ipv4_header_detects sample_header _ 19); [done|done|by apply bytes_check..|by vm_compute|lia|by vm_compute|].
  intros i Hi. rewrite (byte_at_insert _ 19) by (unfold sample_header, mlen; cbn; lia).
  by replace (i =? 19) with false by lia.
Defined.

Definition sample_wire : list Z :=
  [82; 84; 10; 10; 12; 14] ++ sample_mac ++ [8; 0] ++
  [0x45; 0; 0; 24; 0; 0; 0; 0; 128; 17; 34; 197; 10; 0; 2; 15; 10; 0; 2; 2].

Lemma ipv4_output_refines_oracle_witness :
  exists m', @ipv4_output_kernel unit (stack 0 64 128 192 320) (tt, sample_memory) sample_ctx =
    Done ((tt, m'), set_outs sample_ctx 0x1000 38 354, 320) /\ stored m' 320 sample_wire.
Proof.
  destruct (@ipv4_output_refines_oracle unit (stack 0 64 128 192 320) (stack_spec 0 64 128 192 320) sample_ctx
    (tt, sample_memory) [1; 2; 3; 4]) as (r & Er & Hr); [split; [done|by vm_compute]..|by vm_compute|done|done|by vm_compute|].
  vm_compute in Er. injection Er as <-. destruct Hr as (m' & Ek & Hs & _). exists m'.
  assert (@sent unit (stack 0 64 128 192 320) sample_ctx (tt, sample_memory) = ((tt, (@sent unit (stack 0 64 128 192 320) sample_ctx (tt, sample_memory)).1.2), mkEth 320 0x1000 38 334 false)) as Es
    by (vm_compute; reflexivity).
  rewrite Es in Ek, Hs. split; [exact Ek|exact Hs].
Defined.
