(* ===== verification/Ext.v ===== *)
(** * extN inodes: location, times and attributes

    [get_inode_location.rs], [ext_read_all_times.rs], [ext_write_time.rs] and
    [ext_set_file_info.rs].  The times of an inode are 32-bit Unix seconds with optional
    extra words behind the classic inode; which of them exist is decided by the inode's
    own extra size.  Setting the attributes is an orchestration of assembly callbacks
    (class [ExtFs]) that has to release the file system's lock on every path. *)

From stdpp Require Import base list sets.
From Stdlib Require Import ZArith Lia.
From S2P Require Import Prelude Layout Time.

(** ** Definitions *)

(** *** [get_inode_location] *)

(** The sector's low and high dwords and the offset within it. *)
Definition get_inode_location (inode inodes_per_group inode_table_lo inode_table_hi sectors_per_block inode_size : Z) :
    Z * Z * Z :=
  if inodes_per_group =? 0 then (0, 0, 0)
  else
    let index := inode -ₘ 1 in
    let index_in_group := index mod inodes_per_group in
    let hi_scaled := inode_table_hi *ₘ sectors_per_block in
    let lo_prod := u64 (inode_table_lo * sectors_per_block) in
    let sector_lo := u32 lo_prod in
    let sector_hi := u32 (Z.shiftr lo_prod 32) +ₘ hi_scaled in
    let byte_ofs := index_in_group *ₘ inode_size in
    let sector_bump := Z.shiftr byte_ofs 9 in
    let offset := Z.land byte_ofs 511 in
    let lo2 := sector_lo +ₘ sector_bump in
    let carry := 2 ^ 32 <=? sector_lo + sector_bump in
    (lo2, sector_hi +ₘ bool_to_Z carry, offset).

Definition get_inode_location_math (inode inodes_per_group desc_shift inode_table_lo inode_table_hi_raw sectors_per_block inode_size : Z) :
    Z * Z * Z :=
  get_inode_location inode inodes_per_group inode_table_lo inode_table_hi_raw sectors_per_block inode_size.

Definition get_inode_location_ptr (m : list Z)
    (inode inodes_per_group inode_table_lo inode_table_hi sectors_per_block inode_size out_hi out_ofs : Z) : run (list Z * Z) :=
  let '(lo, hi, ofs) := get_inode_location inode inodes_per_group inode_table_lo inode_table_hi sectors_per_block inode_size in
  m ← st32 m out_hi hi;
  m ← st32 m out_ofs ofs;
  Done (m, lo).

(** *** [ext_read_all_times] *)

Definition INODE_EXTRA_ISIZE : Z := 128.
Definition INODE_ATIME : Z := 8.
Definition INODE_CTIME : Z := 12.
Definition INODE_MTIME : Z := 16.
Definition INODE_CTIME_EXTRA : Z := 132.
Definition INODE_MTIME_EXTRA : Z := 136.
Definition INODE_ATIME_EXTRA : Z := 140.
Definition INODE_CRTIME : Z := 144.
Definition INODE_CRTIME_EXTRA : Z := 148.
Definition BDFE_BLOCK : Z := 8.

Definition read_u16_le (m : list Z) (ptr off : Z) : run Z := ld16 m (ptr +ₘ off).
Definition read_u32_le (m : list Z) (ptr off : Z) : run Z := ld32 m (ptr +ₘ off).

Definition write_ext_time (m : list Z) (out i_time extra : Z) : run (list Z) :=
  let secs := ext_unix_to_secs i_time extra in
  block ← fs_time2bdfe_ptr secs;
  store_bytes m out block.

Definition ext_read_all_times_ptr (m : list Z) (inode out : Z) : run (list Z) :=
  extra_i_size ← read_u16_le m inode INODE_EXTRA_ISIZE;
  let edi := out in
  if 24 <=? extra_i_size then
    t ← read_u32_le m inode INODE_CRTIME; x ← read_u32_le m inode INODE_CRTIME_EXTRA;
    m ← write_ext_time m edi t x;
    let edi := edi + BDFE_BLOCK in
    t ← read_u32_le m inode INODE_ATIME; x ← read_u32_le m inode INODE_ATIME_EXTRA;
    m ← write_ext_time m edi t x;
    let edi := edi + BDFE_BLOCK in
    t ← read_u32_le m inode INODE_MTIME; x ← read_u32_le m inode INODE_MTIME_EXTRA;
    write_ext_time m edi t x
  else
    let ecx := extra_i_size -ₘ 4 in
    let ecx := if extra_i_size <? 4 then 0 else Z.shiftr ecx 2 in
    '(time0, extra0) ←
      (if 4 <=? ecx then t ← read_u32_le m inode INODE_CRTIME; Done (t, 0)
       else
         extra ← (if 1 <=? ecx then read_u32_le m inode INODE_CTIME_EXTRA else Done 0);
         t ← read_u32_le m inode INODE_CTIME; Done (t, extra));
    m ← write_ext_time m edi time0 extra0;
    let edi := edi + BDFE_BLOCK in
    extra1 ← (if 3 <=? ecx then read_u32_le m inode INODE_ATIME_EXTRA else Done 0);
    t ← read_u32_le m inode INODE_ATIME;
    m ← write_ext_time m edi t extra1;
    let edi := edi + BDFE_BLOCK in
    extra2 ← (if 2 <=? ecx then read_u32_le m inode INODE_MTIME_EXTRA else Done 0);
    t ← read_u32_le m inode INODE_MTIME;
    write_ext_time m edi t extra2.

(** *** [ext_write_time] *)

Definition EXT_WRITE_TIME_NO_EXTRA : Z := 0xFFFFFFFF.

Definition ext_write_time_pack_ptr (m : list Z) (kos_secs time_ptr extra_time_ptr : Z) : run (list Z) :=
  let eax := kos_secs +ₘ UNIXTIME_TO_KOS_OFFSET in
  let carry := 2 ^ 32 <=? kos_secs + UNIXTIME_TO_KOS_OFFSET in
  let edx := bool_to_Z carry in
  let edx := if as_i32 eax <? 0 then edx +ₘ 1 else edx in
  m ← st32 m time_ptr eax;
  if negb (extra_time_ptr =? EXT_WRITE_TIME_NO_EXTRA) then st32 m extra_time_ptr (Z.land edx 3) else Done m.

(** *** [ext_set_file_info] *)

Definition ERROR_FILE_NOT_FOUND : Z := 5.
Definition ERROR_ACCESS_DENIED : Z := 10.
Definition ERROR_DEVICE : Z := 11.
Definition EXT4_IMMUTABLE_FL : Z := 0x10.
Definition INODE_ATIME_OFF : Z := 8.
Definition INODE_MTIME_OFF : Z := 16.
Definition INODE_FEATURE_FLAGS_OFF : Z := 32.
Definition BDFE_ATIME_OFF : Z := 16.
Definition BDFE_MTIME_OFF : Z := 24.

Record ExtSetFileInfoCtx := mkCtx {
  f70 : Z; extfs : Z; path : Z; inode_buf : Z; disk : Z;
  find_inode : Z; calc_time : Z; write_inode : Z; write_sb : Z; disk_sync : Z; unlock : Z
}.

Record CfOut := mkCf { cf : bool; cf_eax : Z; cf_esi : Z }.

(** The assembly behind the function pointers, on the file system's state [E] and memory. *)
Class ExtFs (E : Type) := {
  find_inode_fn : Z -> Z -> Z -> E * list Z -> (E * list Z) * CfOut;
  calc_time_fn : Z -> Z -> E * list Z -> (E * list Z) * Z;
  write_inode_fn : Z -> Z -> Z -> Z -> E * list Z -> (E * list Z) * CfOut;
  write_sb_fn : Z -> Z -> E * list Z -> E * list Z;
  disk_sync_fn : Z -> Z -> E * list Z -> E * list Z;
  unlock_fn : Z -> Z -> E * list Z -> E * list Z
}.

(** The calls made, in order. *)
Inductive ext_call :=
| FindInode (path : Z)
| CalcTime (bdfe : Z)
| WriteInode (inode buf : Z)
| WriteSb
| DiskSync (disk : Z)
| Unlock (extfs : Z).

Section Info.
Context {E : Type} `{!ExtFs E}.

(** State, memory and the calls so far. *)
Definition world : Type := (E * list Z) * list ext_call.

Definition invoke_find_inode (fn_ptr path extfs : Z) (w : world) : world * CfOut :=
  if fn_ptr =? 0 then (w, mkCf true ERROR_FILE_NOT_FOUND 0)
  else let '(s, o) := find_inode_fn fn_ptr path extfs w.1 in ((s, w.2 ++ [FindInode path]), o).

Definition invoke_calc_time (fn_ptr bdfe : Z) (w : world) : world * Z :=
  if fn_ptr =? 0 then (w, 0)
  else let '(s, o) := calc_time_fn fn_ptr bdfe w.1 in ((s, w.2 ++ [CalcTime bdfe]), o).

Definition invoke_write_inode (fn_ptr inode_num inode_buf extfs : Z) (w : world) : world * CfOut :=
  if fn_ptr =? 0 then (w, mkCf true ERROR_DEVICE 0)
  else let '(s, o) := write_inode_fn fn_ptr inode_num inode_buf extfs w.1 in ((s, w.2 ++ [WriteInode inode_num inode_buf]), o).

Definition invoke_write_sb (fn_ptr extfs : Z) (w : world) : world :=
  if fn_ptr =? 0 then w else (write_sb_fn fn_ptr extfs w.1, w.2 ++ [WriteSb]).

Definition invoke_disk_sync (fn_ptr disk : Z) (w : world) : world :=
  if fn_ptr =? 0 then w else (disk_sync_fn fn_ptr disk w.1, w.2 ++ [DiskSync disk]).

Definition invoke_unlock (fn_ptr extfs : Z) (w : world) : world :=
  if fn_ptr =? 0 then w else (unlock_fn fn_ptr extfs w.1, w.2 ++ [Unlock extfs]).

Definition store_time (m : list Z) (inode_buf off kos_secs : Z) : run (list Z) :=
  st32 m (inode_buf + off) (kos_secs +ₘ UNIXTIME_TO_KOS_OFFSET).

Definition ext_set_file_info_inner (ctx : ExtSetFileInfoCtx) (w : world) : run (world * Z) :=
  let path := path ctx in
  let inode_buf := inode_buf ctx in
  let disk := disk ctx in
  let '(w, found) := invoke_find_inode (find_inode ctx) path (extfs ctx) w in
  if cf found then Done (invoke_unlock (unlock ctx) (extfs ctx) w, cf_eax found)
  else
    let inode_num := cf_esi found in
    flags ← ld32 w.1.2 (inode_buf + INODE_FEATURE_FLAGS_OFF);
    if negb (Z.land flags EXT4_IMMUTABLE_FL =? 0) then
      Done (invoke_unlock (unlock ctx) (extfs ctx) w, ERROR_ACCESS_DENIED)
    else
      bdfe_base ← ld32 w.1.2 (f70 ctx + 16);
      let atime_bdfe := bdfe_base + BDFE_ATIME_OFF in
      let mtime_bdfe := bdfe_base + BDFE_MTIME_OFF in
      let '(w, atime_kos) := invoke_calc_time (calc_time ctx) atime_bdfe w in
      m ← store_time w.1.2 inode_buf INODE_ATIME_OFF atime_kos;
      let '(w, mtime_kos) := invoke_calc_time (calc_time ctx) mtime_bdfe ((w.1.1, m), w.2) in
      m ← store_time w.1.2 inode_buf INODE_MTIME_OFF mtime_kos;
      let '(w, wr) := invoke_write_inode (write_inode ctx) inode_num inode_buf (extfs ctx) ((w.1.1, m), w.2) in
      if cf wr then Done (invoke_unlock (unlock ctx) (extfs ctx) w, cf_eax wr)
      else
        let w := invoke_write_sb (write_sb ctx) (extfs ctx) w in
        let w := invoke_disk_sync (disk_sync ctx) disk w in
        let w := invoke_unlock (unlock ctx) (extfs ctx) w in
        Done (w, 0).

Definition ext_set_file_info_ptr (ctx : ExtSetFileInfoCtx) (w : world) : run (world * Z) := ext_set_file_info_inner ctx w.

End Info.
Arguments world E : clear implicits.

(** ** Location *)

(** The location is exact: sector and offset together are the byte address of the
    inode in its table, as long as the 32-bit products of the source do not overflow. *)
Lemma inode_location_exact inode ipg lo hi spb size :
  0 < ipg -> 1 <= inode < 2 ^ 32 -> 0 <= lo < 2 ^ 32 -> 0 <= hi < 2 ^ 32 -> 0 <= spb < 2 ^ 32 -> 0 <= size ->
  let index := (inode - 1) mod ipg in
  index * size < 2 ^ 32 -> (lo + 2 ^ 32 * hi) * spb + index * size / 512 < 2 ^ 64 ->
  let '(slo, shi, ofs) := get_inode_location inode ipg lo hi spb size in
  0 <= slo < 2 ^ 32 /\ 0 <= shi < 2 ^ 32 /\ 0 <= ofs < 512 /\
  (slo + 2 ^ 32 * shi) * 512 + ofs = (lo + 2 ^ 32 * hi) * spb * 512 + index * size.
Proof.
  intros Hi Hn Hlo Hhi Hspb Hsz. cbv zeta. set (index := (inode - 1) mod ipg). intros Hix Hfit.
  unfold get_inode_location. rewrite (proj2 (Z.eqb_neq ipg 0)) by lia. cbv zeta.
  rewrite (wrap_small 32 (inode - 1)) by lia. fold index.
  assert (0 <= index) by (apply Z.mod_pos_bound; lia).
  rewrite (wrap_small 32 (index * size)) by nia. set (b := index * size) in *. assert (0 <= b) by nia.
  rewrite (land_mask b 9 511) by lia. rewrite !shr_eq by lia. change (2 ^ 9) with 512 in *.
  assert (0 <= lo * spb < 2 ^ 64) as Hp by (change (2 ^ 64) with (2 ^ 32 * 2 ^ 32); nia).
  rewrite (wrap_small 64) by lia. set (p := lo * spb) in *.
  assert (0 <= hi * spb /\ 2 ^ 32 * (hi * spb) + p + b / 512 < 2 ^ 64) as [Hh0 Hh] by (unfold p; nia).
  assert (0 <= b / 512) by (Z.div_mod_to_equations; lia).
  rewrite (wrap_small 32 (hi * spb)) by lia. set (h := hi * spb) in *.
  assert (((lo + 2 ^ 32 * hi) * spb) = p + 2 ^ 32 * h) as -> by (unfold p, h; lia).
  change (u32 p) with (p mod 2 ^ 32). change (u8 b) with (b mod 256).
  assert (0 <= p / 2 ^ 32 < 2 ^ 32) by (Z.div_mod_to_equations; lia). rewrite (wrap_small 32 (p / 2 ^ 32)) by lia.
  rewrite (wrap_small 32 (p / 2 ^ 32 + h)) by (Z.div_mod_to_equations; lia).
  change (wrap 9 b) with (b mod 512).
  assert (b / 512 < 2 ^ 32) by (Z.div_mod_to_equations; lia).
  unfold wrap. destruct (2 ^ 32 <=? p mod 2 ^ 32 + b / 512) eqn:Ec; cbn [bool_to_Z]; split_and!; Z.div_mod_to_equations; lia.
Qed.

(** ** Reading the times *)

(** A field of the inode exists when the inode is large enough to hold it. *)
Definition fits (m : list Z) (inode o : Z) : bool := o + 4 <=? 128 + word16_at m (inode + 128).
Definition extra (m : list Z) (inode o : Z) : Z := if fits m inode o then word_at m (inode + o) else 0.

(** The time and the extra word of the three slots: creation (or change), access,
    modification. *)
Definition inode_times (m : list Z) (inode : Z) : list (Z * Z) :=
  [ if fits m inode 144 then (word_at m (inode + 144), extra m inode 148)
    else (word_at m (inode + 12), extra m inode 132);
    (word_at m (inode + 8), extra m inode 140);
    (word_at m (inode + 16), extra m inode 136) ].

(** The date shown for a slot: its Unix time counted from 2001 and clamped to 32 bits. *)
Definition shows (slot : Z * Z) (t : BdfeTime) : Prop :=
  valid_bdfe t /\ secs_of t = Z.max 0 (Z.min (2 ^ 32 - 1) (ext_unix slot.1 slot.2 - UNIXTIME_TO_KOS_OFFSET)).

Lemma secs_of_nonneg t : valid_bdfe t -> 0 <= secs_of t.
Proof.
  intros ((Hy & Hm & Hd) & Hh & Hmi & Hs). destruct (days_before_bound (year t) (month t) Hm) as [Hb _].
  assert (0 <= (year t - 2001) / 4) by (apply Z.div_pos; lia). unfold secs_of, day_number. lia.
Qed.

Lemma secs_of_inj t t' : valid_bdfe t -> valid_bdfe t' -> secs_of t < 2 ^ 32 -> secs_of t = secs_of t' -> t = t'.
Proof.
  intros Hv Hv' Hs E. pose proof (time2bdfe_ok t Hv Hs) as E1. rewrite E in E1, Hs.
  rewrite (time2bdfe_ok t' Hv' Hs) in E1. by injection E1.
Qed.

Lemma bytes_to_bytes t : valid_bdfe t -> bytes (to_bytes t).
Proof.
  intros ((Hy & Hm & Hd) & Hh & Hmi & Hs). assert (days_in_month (year t) (month t) <= 31) as H31.
  { unfold days_in_month. repeat case_match; lia. }
  unfold to_bytes. repeat apply Forall_cons_2; try apply Forall_nil_2; try (unfold is_byte; lia); apply (wrap_range 8); lia.
Qed.

Lemma write_ext_time_ok m out t x : bytes m -> 0 <= out -> out + 8 <= mlen m -> 0 <= t < 2 ^ 32 ->
  exists d m', write_ext_time m out t x = Done m' /\ shows (t, x) d /\ writes [(out, 8)] m m' /\ stored m' out (to_bytes d).
Proof.
  intros Hm Ho Hf Ht. unfold write_ext_time. cbv zeta. rewrite ext_secs_clamp by done.
  set (s := Z.max 0 _). destruct (secs_of_surj s) as (d & Hv & Hs); [lia|]. unfold fs_time2bdfe_ptr.
  rewrite <- Hs, time2bdfe_ok by (done || lia). run_step.
  destruct (store_bytes_ok (to_bytes d) m out) as (m' & E & W & S); [done|exact Hf|done|by apply bytes_to_bytes|].
  exists d, m'. by split_and!.
Qed.

Section Times.
Context (m : list Z) (inode out : Z).
Context (Hm : bytes m) (Hsize : mlen m <= 2 ^ 32) (Hsep : separate (mlen m) [(inode, 152); (out, 24)]).

Lemma inode_reads m' o : writes [(out, 24)] m m' -> 0 <= o -> o + 4 <= 152 ->
  read_u32_le m' inode o = Done (word_at m (inode + o)).
Proof.
  intros W Ho Hf. destruct Hsep as ((Hi0 & Hi1) & (Hd & _) & _). cbn [fst snd] in *. unfold read_u32_le.
  rewrite wrap_small by lia. rewrite ld32_ok by (rewrite ?(writes_len _ _ _ W); lia).
  f_equal. apply (writes_word _ _ _ _ W). split; [|done]. unfold disjoint in *. cbn. lia.
Qed.

(** Three dates one after the other, where each step may look at the memory again. *)
Lemma three_dates t0 x0 t1 x1 t2 x2 (next1 next2 : list Z -> run (Z * Z)) :
  0 <= t0 < 2 ^ 32 -> 0 <= t1 < 2 ^ 32 -> 0 <= t2 < 2 ^ 32 ->
  (forall m', writes [(out, 24)] m m' -> next1 m' = Done (t1, x1)) ->
  (forall m', writes [(out, 24)] m m' -> next2 m' = Done (t2, x2)) ->
  exists d0 d1 d2 m',
    (m1 ← write_ext_time m out t0 x0; '(t, x) ← next1 m1;
     m2 ← write_ext_time m1 (out + 8) t x; '(t, x) ← next2 m2;
     write_ext_time m2 (out + 8 + 8) t x) = Done m' /\
    writes [(out, 24)] m m' /\ stored m' out (to_bytes d0 ++ to_bytes d1 ++ to_bytes d2) /\
    shows (t0, x0) d0 /\ shows (t1, x1) d1 /\ shows (t2, x2) d2.
Proof.
  intros H0 H1 H2 N1 N2. destruct Hsep as (_ & _ & ((Ho & Hf) & _)). cbn [fst snd] in *.
  assert (forall a m1 m2, out <= a -> a + 8 <= out + 24 -> writes [(a, 8)] m1 m2 -> writes [(out, 24)] m1 m2) as Hin.
  { intros a m1 m2 A1 A2 [L B F]. constructor; [done..|]. intros b Hb. apply F. intros r Hr. apply list_elem_of_singleton in Hr as ->.
    specialize (Hb _ ltac:(by left)). unfold inside in *. cbn in *. lia. }
  destruct (write_ext_time_ok m out t0 x0) as (d0 & m1 & -> & S0 & W1 & St0); [done|lia..|]. run_step.
  pose proof (Hin out _ _ ltac:(lia) ltac:(lia) W1) as V1. rewrite (N1 _ V1). run_step.
  destruct (write_ext_time_ok m1 (out + 8) t1 x1) as (d1 & m2 & -> & S1 & W2 & St1);
    [by apply (writes_bytes _ _ _ W1)|lia|rewrite (writes_len _ _ _ W1); lia|lia|]. run_step.
  pose proof (Hin (out + 8) _ _ ltac:(lia) ltac:(lia) W2) as V2.
  assert (writes [(out, 24)] m m2) as V12 by (etransitivity; done). rewrite (N2 _ V12). run_step.
  destruct (write_ext_time_ok m2 (out + 8 + 8) t2 x2) as (d2 & m3 & E3 & S2 & W3 & St2);
    [by apply (writes_bytes _ _ _ V12)|lia|rewrite (writes_len _ _ _ V12); lia|lia|].
  exists d0, d1, d2, m3. split_and!; [exact E3|by rewrite V12; apply (Hin (out + 8 + 8)); [lia..|]| |done..].
  apply stored_join; [|apply stored_join]; [| |exact St2].
  - apply (writes_stored _ _ _ _ _ W3); [split; [left; unfold mlen; cbn; lia|done]|].
    apply (writes_stored _ _ _ _ _ W2); [split; [left; unfold mlen; cbn; lia|done]|done].
  - apply (writes_stored _ _ _ _ _ W3); [split; [left; unfold mlen; cbn; lia|done]|done].
Qed.
End Times.

Lemma fits_steps s k : 0 <= s < 65536 -> 1 <= k ->
  (k <=? (if s <? 4 then 0 else Z.shiftr (s -ₘ 4) 2)) = (4 * k + 4 <=? s).
Proof.
  intros Hs Hk. destruct (s <? 4) eqn:E; [lia|]. rewrite wrap_small, shr_eq by lia. change (2 ^ 2) with 4.
  assert (s - 4 = 4 * ((s - 4) / 4) + (s - 4) mod 4 /\ 0 <= (s - 4) mod 4 < 4) by (Z.div_mod_to_equations; lia).
  destruct (Z.leb_spec k ((s - 4) / 4)); lia.
Qed.

(** The same calls under another nesting of the binds. *)
Local Ltac reassoc := repeat first [done | match goal with |- ?c ≫= _ = _ => destruct c; run_step end].

Section ReadTimes.
Context (m : list Z) (inode out : Z).
Context (Hm : bytes m) (Hsize : mlen m <= 2 ^ 32) (Hsep : separate (mlen m) [(inode, 152); (out, 24)]).

Lemma read_times_ok : exists d0 d1 d2 m', ext_read_all_times_ptr m inode out = Done m' /\
  writes [(out, 24)] m m' /\ stored m' out (to_bytes d0 ++ to_bytes d1 ++ to_bytes d2) /\
  Forall2 shows (inode_times m inode) [d0; d1; d2].
Proof.
  pose proof Hsep as ((Hi0 & Hi1) & _). cbn [fst snd] in *.
  unfold ext_read_all_times_ptr, read_u16_le. rewrite wrap_small by (unfold INODE_EXTRA_ISIZE; lia).
  rewrite ld16_ok by (unfold INODE_EXTRA_ISIZE; lia). rewrite done_bind. cbv zeta.
  set (s := word16_at m (inode + INODE_EXTRA_ISIZE)). assert (0 <= s < 65536) as Hs by by apply word16_range.
  rewrite !fits_steps by (done || lia).
  assert (forall o, fits m inode o = (o - 124 <=? s)) as Hfits by (intros o; unfold fits; change (word16_at m (inode + 128)) with s; lia).
  assert (forall o, 0 <= o -> o + 4 <= 152 -> 0 <= word_at m (inode + o) < 2 ^ 32) as Hw by (intros; by apply word_at_range).
  unfold inode_times, extra. rewrite !Hfits.
  pose proof (inode_reads m inode out Hsize Hsep) as Rd.
  unfold INODE_CRTIME, INODE_CRTIME_EXTRA, INODE_ATIME, INODE_ATIME_EXTRA, INODE_MTIME, INODE_MTIME_EXTRA, INODE_CTIME, INODE_CTIME_EXTRA, BDFE_BLOCK.
  destruct (24 <=? s) eqn:E24.
  - replace (144 - 124 <=? s) with true by lia. replace (148 - 124 <=? s) with true by lia.
    replace (140 - 124 <=? s) with true by lia. replace (136 - 124 <=? s) with true by lia.
    rewrite !(Rd m) by (done || lia). run_step.
    destruct (three_dates m inode out Hm Hsep (word_at m (inode + 144)) (word_at m (inode + 148))
      (word_at m (inode + 8)) (word_at m (inode + 140)) (word_at m (inode + 16)) (word_at m (inode + 136))
      (fun m1 => t ← read_u32_le m1 inode 8; x ← read_u32_le m1 inode 140; Done (t, x))
      (fun m2 => t ← read_u32_le m2 inode 16; x ← read_u32_le m2 inode 136; Done (t, x)))
      as (d0 & d1 & d2 & m' & E & W & St & S0 & S1 & S2); [(apply Hw; lia)..|intros m1 V; by rewrite !(Rd m1) by (done || lia)|
      intros m2 V; by rewrite !(Rd m2) by (done || lia)|].
    exists d0, d1, d2, m'. split; [|split_and!; [done|done|do 3 (apply Forall2_cons_2; [done|]); apply Forall2_nil_2]]. rewrite <- E. reassoc.
  - replace (148 - 124 <=? s) with false by lia.
    set (first := if 4 * 4 + 4 <=? s then _ else _ : run (Z * Z)).
    set (slot := if 144 - 124 <=? s then _ else _ : Z * Z).
    assert (first = Done slot /\ 0 <= slot.1 < 2 ^ 32) as [-> Hslot].
    { unfold first, slot. change (4 * 4 + 4) with 20. change (144 - 124) with 20. change (4 * 1 + 4) with 8. change (132 - 124) with 8.
      destruct (20 <=? s); [|destruct (8 <=? s)]; rewrite ?(Rd m) by (done || lia); (split; [done|apply Hw; lia]). }
    clearbody slot. destruct slot as [t0 x0]. rewrite done_bind.
    destruct (three_dates m inode out Hm Hsep t0 x0
      (word_at m (inode + 8)) (if 140 - 124 <=? s then word_at m (inode + 140) else 0)
      (word_at m (inode + 16)) (if 136 - 124 <=? s then word_at m (inode + 136) else 0)
      (fun m1 => x ← (if 4 * 3 + 4 <=? s then read_u32_le m1 inode 140 else Done 0); t ← read_u32_le m1 inode 8; Done (t, x))
      (fun m2 => x ← (if 4 * 2 + 4 <=? s then read_u32_le m2 inode 136 else Done 0); t ← read_u32_le m2 inode 16; Done (t, x)))
      as (d0 & d1 & d2 & m' & E & W & St & S0 & S1 & S2); [done|(apply Hw; lia)..| | |].
    + intros m1 V. change (4 * 3 + 4) with (140 - 124). destruct (140 - 124 <=? s); by rewrite !(Rd m1) by (done || lia).
    + intros m2 V. change (4 * 2 + 4) with (136 - 124). destruct (136 - 124 <=? s); by rewrite !(Rd m2) by (done || lia).
    + exists d0, d1, d2, m'. split; [|split_and!; [done|done|do 3 (apply Forall2_cons_2; [done|]); apply Forall2_nil_2]]. rewrite <- E. reassoc.
Qed.
End ReadTimes.

(** ** Writing a time *)

Lemma unix_add_offset secs : 0 <= secs < 2 ^ 32 ->
  let eax := secs +ₘ UNIXTIME_TO_KOS_OFFSET in
  let edx := bool_to_Z (2 ^ 32 <=? secs + UNIXTIME_TO_KOS_OFFSET) in
  let edx := if as_i32 eax <? 0 then edx +ₘ 1 else edx in
  ext_unix eax (Z.land edx 3) = secs + UNIXTIME_TO_KOS_OFFSET.
Proof.
  intros Hs. cbv zeta. unfold ext_unix, UNIXTIME_TO_KOS_OFFSET.
  destruct (Z.leb_spec (2 ^ 32) (secs + 978307200)) as [H|H]; cbn [bool_to_Z].
  - assert (secs +ₘ 978307200 = secs + 978307200 - 2 ^ 32) as ->.
    { unfold wrap. rewrite <- (Z.mod_add _ (-1)) by lia. apply Z.mod_small. lia. }
    set (e := secs + 978307200 - 2 ^ 32). unfold as_signed. change (2 ^ (32 - 1)) with (2 ^ 31).
    replace (e <? 2 ^ 31) with true by (unfold e; lia). replace (e <? 0) with false by (unfold e; lia).
    change (Z.land 1 3) with 1. change (1 mod 4) with 1. unfold e. lia.
  - rewrite wrap_small by lia. set (e := secs + 978307200). unfold as_signed. change (2 ^ (32 - 1)) with (2 ^ 31).
    destruct (e <? 2 ^ 31) eqn:E.
    + replace (e <? 0) with false by (unfold e; lia). change (Z.land 0 3) with 0. change (0 mod 4) with 0. lia.
    + replace (e - 2 ^ 32 <? 0) with true by (unfold e; lia). change (Z.land (0 +ₘ 1) 3) with 1. change (1 mod 4) with 1. lia.
Qed.

(** A time written with its extra word reads back as the same second, for every
    second of the kernel's 32-bit clock (2001 to 2137); a time written without one does
    so up to 2038. *)
Theorem ext_time_written m secs time extra_ptr :
  0 <= secs < 2 ^ 32 -> separate (mlen m) [(time, 4); (extra_ptr, 4)] -> extra_ptr <> EXT_WRITE_TIME_NO_EXTRA ->
  exists m1 m2, ext_write_time_pack_ptr m secs time extra_ptr = Done m1 /\
    ext_unix_to_secs (word_at m1 time) (word_at m1 extra_ptr) = secs /\
    ext_write_time_pack_ptr m secs time EXT_WRITE_TIME_NO_EXTRA = Done m2 /\
    (secs + 978307200 < 2 ^ 31 -> ext_unix_to_secs (word_at m2 time) 0 = secs) /\
    writes [(time, 4); (extra_ptr, 4)] m m1 /\ writes [(time, 4)] m m2.
Proof.
  intros Hs Hsep Hx. destruct Hsep as ((Ht0 & Ht1) & (Hd & _) & ((Hx0 & Hx1) & _)). cbn [fst snd] in *.
  unfold ext_write_time_pack_ptr. cbv zeta. rewrite (proj2 (Z.eqb_neq _ _) Hx). change (negb false) with true. cbv iota.
  rewrite Z.eqb_refl. change (negb true) with false. cbv iota.
  pose proof (unix_add_offset secs Hs) as U. cbv zeta in U.
  set (eax := secs +ₘ UNIXTIME_TO_KOS_OFFSET) in *. set (edx := if as_i32 eax <? 0 then _ else _) in *.
  assert (0 <= eax < 2 ^ 32) as He by (apply wrap_range; lia).
  assert (0 <= Z.land edx 3 < 4) as Hedx by (rewrite (land_mask edx 2 3) by lia; apply (wrap_range 2); lia).
  destruct (st32_writes m time eax Ht0 Ht1 He) as (m2 & -> & W2 & V2). run_step.
  destruct (st32_writes m2 extra_ptr (Z.land edx 3)) as (m1 & E1 & W1 & V1); [lia|rewrite (writes_len _ _ _ W2); lia|lia|].
  exists m1, m2. split; [exact E1|]. split.
  - rewrite (writes_word _ _ _ time W1) by (split; [exact Hd|done]). rewrite V1, V2, ext_secs_clamp by done.
    rewrite U. lia.
  - split; [done|]. split.
    + intros H. rewrite V2, ext_secs_clamp by done. unfold ext_unix. change (0 mod 4) with 0.
      assert (eax = secs + 978307200) as -> by (unfold eax, UNIXTIME_TO_KOS_OFFSET; apply wrap_small; lia).
      rewrite as_signed_small by (change (2 ^ (32 - 1)) with (2 ^ 31); lia). unfold UNIXTIME_TO_KOS_OFFSET. lia.
    + split; [|done]. transitivity m2; [apply (writes_subset [(time, 4)])|apply (writes_subset [(extra_ptr, 4)])]; done || set_solver.
Qed.

(** ** Setting the attributes *)

(** No callback resizes memory, and the ones after the inode was written leave it alone. *)
Class ExtFsSpec (E : Type) `{!ExtFs E} := {
  find_inode_size fn p fs s : mlen (find_inode_fn fn p fs s).1.2 = mlen s.2;
  calc_time_size fn b s : mlen (calc_time_fn fn b s).1.2 = mlen s.2
}.

Section SetInfo.
Context {E : Type} `{!ExtFs E} `{!ExtFsSpec E}.
Context (ctx : ExtSetFileInfoCtx).
Context (Hfns : Forall (fun f => f <> 0) [find_inode ctx; calc_time ctx; write_inode ctx; write_sb ctx; disk_sync ctx; unlock ctx]).

(** What the callbacks do and answer, one after the other, when nothing fails. *)
Definition found (s : E * list Z) := find_inode_fn (find_inode ctx) (path ctx) (extfs ctx) s.
Definition immutable (s : E * list Z) : bool :=
  negb (Z.land (word_at (found s).1.2 (inode_buf ctx + 32)) EXT4_IMMUTABLE_FL =? 0).
Definition dates_at (s : E * list Z) : Z := word_at (found s).1.2 (f70 ctx + 16).
Definition access_secs s := calc_time_fn (calc_time ctx) (dates_at s + 16) (found s).1.
Definition with_access s : E * list Z :=
  ((access_secs s).1.1, write32 (access_secs s).1.2 (inode_buf ctx + 8) ((access_secs s).2 +ₘ UNIXTIME_TO_KOS_OFFSET)).
Definition modified_secs s := calc_time_fn (calc_time ctx) (dates_at s + 24) (with_access s).
Definition with_times s : E * list Z :=
  ((modified_secs s).1.1, write32 (modified_secs s).1.2 (inode_buf ctx + 16) ((modified_secs s).2 +ₘ UNIXTIME_TO_KOS_OFFSET)).
Definition written s := write_inode_fn (write_inode ctx) (cf_esi (found s).2) (inode_buf ctx) (extfs ctx) (with_times s).
Definition unlocked (s : E * list Z) : E * list Z := unlock_fn (unlock ctx) (extfs ctx) s.

(** The calls, the answer and the final state on every path. *)
Lemma set_info_runs s :
  0 <= inode_buf ctx -> inode_buf ctx + 36 <= mlen s.2 -> 0 <= f70 ctx -> f70 ctx + 20 <= mlen s.2 ->
  let wrote := [CalcTime (dates_at s + 16); CalcTime (dates_at s + 24); WriteInode (cf_esi (found s).2) (inode_buf ctx)] in
  ext_set_file_info_ptr ctx (s, []) =
    if cf (found s).2 then
      Done ((unlocked (found s).1, [FindInode (path ctx); Unlock (extfs ctx)]), cf_eax (found s).2)
    else if immutable s then
      Done ((unlocked (found s).1, [FindInode (path ctx); Unlock (extfs ctx)]), ERROR_ACCESS_DENIED)
    else if cf (written s).2 then
      Done ((unlocked (written s).1, FindInode (path ctx) :: wrote ++ [Unlock (extfs ctx)]), cf_eax (written s).2)
    else
      Done ((unlocked (disk_sync_fn (disk_sync ctx) (disk ctx) (write_sb_fn (write_sb ctx) (extfs ctx) (written s).1)),
             FindInode (path ctx) :: wrote ++ [WriteSb; DiskSync (disk ctx); Unlock (extfs ctx)]), 0).
Proof.
  intros Hi0 Hi1 Hf0 Hf1. cbv zeta. unfold ext_set_file_info_ptr, ext_set_file_info_inner. cbv zeta.
  apply Forall_cons in Hfns as [N1 H]. apply Forall_cons in H as [N2 H]. apply Forall_cons in H as [N3 H].
  apply Forall_cons in H as [N4 H]. apply Forall_cons in H as [N5 H]. apply Forall_cons in H as [N6 _].
  unfold invoke_find_inode, invoke_calc_time, invoke_write_inode, invoke_write_sb, invoke_disk_sync, invoke_unlock.
  rewrite !(proj2 (Z.eqb_neq _ _) N1), !(proj2 (Z.eqb_neq _ _) N6). cbn [fst]. fold (found s).
  pose proof (find_inode_size (find_inode ctx) (path ctx) (extfs ctx) s) as S1. fold (found s) in S1.
  rewrite (surjective_pairing (found s)) at 1. cbn [fst snd app]. destruct (cf (found s).2); [done|].
  unfold INODE_FEATURE_FLAGS_OFF. rewrite (ld32_ok _ (inode_buf ctx + 32)) by lia. run_step. fold (immutable s). destruct (immutable s); [done|].
  rewrite ld32_ok by lia. run_step. fold (dates_at s). unfold BDFE_ATIME_OFF, BDFE_MTIME_OFF, store_time, INODE_ATIME_OFF, INODE_MTIME_OFF.
  rewrite !(proj2 (Z.eqb_neq _ _) N2). fold (access_secs s).
  pose proof (calc_time_size (calc_time ctx) (dates_at s + 16) (found s).1) as S2. fold (access_secs s) in S2.
  rewrite (surjective_pairing (access_secs s)) at 1. cbn [fst snd app]. rewrite st32_ok by lia. run_step. fold (with_access s).
  fold (modified_secs s). pose proof (calc_time_size (calc_time ctx) (dates_at s + 24) (with_access s)) as S3. fold (modified_secs s) in S3.
  assert (mlen (with_access s).2 = mlen s.2) as S2' by (cbn [with_access snd]; rewrite mlen_write32; lia).
  rewrite (surjective_pairing (modified_secs s)) at 1. cbn [fst snd app]. rewrite st32_ok by lia. run_step. fold (with_times s).
  rewrite !(proj2 (Z.eqb_neq _ _) N3). fold (written s). rewrite (surjective_pairing (written s)) at 1. cbn [fst snd app].
  rewrite !(proj2 (Z.eqb_neq _ _) N4), !(proj2 (Z.eqb_neq _ _) N5). cbn [fst snd app].
  by destruct (cf (written s).2).
Qed.

(** The order the calls have to keep, from the lock being held to its release. *)
Inductive phase := Held | Looked | Timed | Dated | Saved | Flushed | Synced | Released.

#[local] Instance phase_eq_dec : EqDecision phase.
Proof. solve_decision. Defined.

Inductive protocol : phase -> ext_call -> phase -> Prop :=
| p_find : protocol Held (FindInode (path ctx)) Looked
| p_access b : protocol Looked (CalcTime (b + 16)) Timed
| p_modified b : protocol Timed (CalcTime (b + 24)) Dated
| p_write n : protocol Dated (WriteInode n (inode_buf ctx)) Saved
| p_super : protocol Saved WriteSb Flushed
| p_sync : protocol Flushed (DiskSync (disk ctx)) Synced
| p_unlock ph : ph = Looked \/ ph = Saved \/ ph = Synced -> protocol ph (Unlock (extfs ctx)) Released.

Inductive follows : phase -> list ext_call -> phase -> Prop :=
| follows_nil ph : follows ph [] ph
| follows_cons ph c ph1 cs ph2 : protocol ph c ph1 -> follows ph1 cs ph2 -> follows ph (c :: cs) ph2.
#[local] Hint Constructors protocol follows : core.

(** Nothing comes after the release, and it happens once. *)
Lemma follows_released ph cs : follows ph cs Released -> ph <> Released ->
  exists before, cs = before ++ [Unlock (extfs ctx)] /\ Unlock (extfs ctx) ∉ before.
Proof.
  assert (forall ph cs ph', follows ph cs ph' -> ph = Released -> cs = []) as Hend.
  { intros p c p' [|? ? ? ? ? Hp _] ->; [done|]. inversion Hp; naive_solver. }
  remember Released as fin eqn:Ef. intros Hf Hne. induction Hf as [|ph c ph1 cs ph2 Hp Hf IH]; [done|]. subst ph2.
  destruct (decide (ph1 = Released)) as [->|Hn].
  - assert (c = Unlock (extfs ctx)) as -> by by inversion Hp.
    exists []. rewrite (Hend _ _ _ Hf eq_refl). split; [done|apply not_elem_of_nil].
  - destruct IH as (before & -> & Hb); [done..|]. exists (c :: before). split; [done|].
    rewrite not_elem_of_cons. split; [|done]. intros <-. by inversion Hp.
Qed.

(** C31: on every path setting the attributes of a file follows the protocol from the held
    lock to its release, so the release is the last call and happens once; the inode is
    written exactly when the file was found and is not immutable, the superblock and the
    disk exactly when that write succeeded; the answer is the error of the step that
    failed; and a call that is refused leaves everything as the lookup left it. *)
Theorem ext_set_info_protocol s :
  0 <= inode_buf ctx -> inode_buf ctx + 36 <= mlen s.2 -> 0 <= f70 ctx -> f70 ctx + 20 <= mlen s.2 ->
  exists s' calls status before, ext_set_file_info_ptr ctx (s, []) = Done ((s', calls), status) /\
    follows Held calls Released /\ calls = before ++ [Unlock (extfs ctx)] /\ Unlock (extfs ctx) ∉ before /\
    (WriteInode (cf_esi (found s).2) (inode_buf ctx) ∈ calls <-> cf (found s).2 = false /\ immutable s = false) /\
    (DiskSync (disk ctx) ∈ calls <-> cf (found s).2 = false /\ immutable s = false /\ cf (written s).2 = false) /\
    status = (if cf (found s).2 then cf_eax (found s).2 else if immutable s then ERROR_ACCESS_DENIED
              else if cf (written s).2 then cf_eax (written s).2 else 0) /\
    (cf (found s).2 || immutable s = true -> s' = unlocked (found s).1).
Proof.
  intros Hi0 Hi1 Hf0 Hf1. rewrite set_info_runs by done. cbv zeta.
  assert (forall (s' : E * list Z) calls (status : Z), follows Held calls Released -> exists before,
    Done ((s', calls), status) = Done ((s', calls), status) /\ follows Held calls Released /\
    calls = before ++ [Unlock (extfs ctx)] /\ Unlock (extfs ctx) ∉ before) as Hrun.
  { intros s' calls status Hf. destruct (follows_released _ _ Hf ltac:(done)) as (b & E1 & E2). by exists b. }
  destruct (cf (found s).2); [|destruct (immutable s); [|destruct (cf (written s).2)]]; do 3 eexists;
    (edestruct Hrun as (b & H1 & H2 & H3 & H4); [|exists b; split_and!; [exact H1|exact H2|exact H3|exact H4|..]]).
  all: try solve [cbn [app]; eauto 12]; try done; cbn [app]; try (rewrite ?elem_of_cons, elem_of_nil; naive_solver).
Qed.

(** *** What is read back *)

(** The callbacks on whose memory effects the round trip rests: the clock function is
    the crate's [fs_calculate_time] on the block it is pointed at, and writing to the
    disk leaves memory alone. *)
Class ExtFsQuiet : Prop := {
  calc_time_runs fn b (s : E * list Z) t : valid_bdfe t -> secs_of t < 2 ^ 32 -> stored s.2 b (to_bytes t) ->
    calc_time_fn fn b s = (s, secs_of t);
  write_inode_quiet fn n b fs (s : E * list Z) : (write_inode_fn fn n b fs s).1.2 = s.2;
  write_sb_quiet fn fs (s : E * list Z) : (write_sb_fn fn fs s).2 = s.2;
  disk_sync_quiet fn d (s : E * list Z) : (disk_sync_fn fn d s).2 = s.2;
  unlock_quiet fn fs (s : E * list Z) : (unlock_fn fn fs s).2 = s.2
}.
Context `{!ExtFsQuiet}.

(** A date before 2038 whose slot has no high bits is shown as it was set. *)
Lemma shows_plain t x d : valid_bdfe t -> secs_of t + 978307200 < 2 ^ 31 -> x mod 4 = 0 ->
  shows (secs_of t +ₘ UNIXTIME_TO_KOS_OFFSET, x) d -> d = t.
Proof.
  intros Hv Hs Hx [Hd Es]. cbn [fst snd] in Es. unfold ext_unix, UNIXTIME_TO_KOS_OFFSET in Es. rewrite Hx in Es.
  pose proof (secs_of_nonneg t Hv) as H0. rewrite wrap_small in Es by lia.
  rewrite as_signed_small in Es by (change (2 ^ (32 - 1)) with (2 ^ 31); lia).
  apply secs_of_inj; [done|done|lia|lia].
Qed.

Section Readback.
Context (s : E * list Z) (out : Z) (ta tm : BdfeTime).
Let m := (found s).1.2.
Context (Hm : bytes m) (Hsize : mlen m <= 2 ^ 32).
Context (Hsep : separate (mlen m) [(inode_buf ctx, 152); (out, 24); (dates_at s, 32)]).
Context (Ha : valid_bdfe ta) (Hm' : valid_bdfe tm).
Context (Hsa : secs_of ta + 978307200 < 2 ^ 31) (Hsm : secs_of tm + 978307200 < 2 ^ 31).
Context (Sa : stored m (dates_at s + 16) (to_bytes ta)) (Sm : stored m (dates_at s + 24) (to_bytes tm)).

(** The inode with the two times stored in it. *)
Definition stamped : list Z :=
  write32 (write32 m (inode_buf ctx + 8) (secs_of ta +ₘ UNIXTIME_TO_KOS_OFFSET)) (inode_buf ctx + 16)
    (secs_of tm +ₘ UNIXTIME_TO_KOS_OFFSET).

Lemma with_times_ok : (with_times s).2 = stamped.
Proof.
  destruct Hsep as ((Hi0 & Hi1) & (_ & Hdd & _) & _). cbn [fst snd] in *.
  assert (access_secs s = ((found s).1, secs_of ta)) as Ea by (apply calc_time_runs; [done|lia|done]).
  assert ((with_access s).2 = write32 m (inode_buf ctx + 8) (secs_of ta +ₘ UNIXTIME_TO_KOS_OFFSET)) as Ew
    by (unfold with_access; by rewrite Ea).
  assert (modified_secs s = (with_access s, secs_of tm)) as Em.
  { apply calc_time_runs; [done|lia|]. rewrite Ew. destruct Sm as (S0 & S1 & S2). change (mlen (to_bytes tm)) with 8 in *.
    split_and!; [done|by rewrite mlen_write32|]. intros i Hi. change (mlen (to_bytes tm)) with 8 in Hi.
    rewrite <- S2 by done. rewrite byte_at_write32 by lia. unfold disjoint in Hdd.
    by replace ((inode_buf ctx + 8 <=? dates_at s + 24 + i) && (dates_at s + 24 + i <? inode_buf ctx + 8 + 4)) with false by lia. }
  unfold with_times. rewrite Em. cbn [fst snd]. by rewrite Ew.
Qed.

Lemma stamped_word o : 0 <= o -> o + 4 <= 152 -> word_at stamped (inode_buf ctx + o) =
  if o =? 8 then secs_of ta +ₘ UNIXTIME_TO_KOS_OFFSET else if o =? 16 then secs_of tm +ₘ UNIXTIME_TO_KOS_OFFSET
  else if (o <=? 4) || (20 <=? o) || (o =? 12) then word_at m (inode_buf ctx + o) else word_at stamped (inode_buf ctx + o).
Proof.
  intros Ho Hf. destruct Hsep as ((Hi0 & Hi1) & _). cbn [fst snd] in *. unfold stamped.
  assert (forall v, 0 <= v +ₘ UNIXTIME_TO_KOS_OFFSET < 2 ^ 32) as Hr by (intros; apply wrap_range; lia).
  destruct (Z.eqb_spec o 8) as [->|]; [|destruct (Z.eqb_spec o 16) as [->|]].
  - rewrite word_at_write32_other, word_at_write32 by (rewrite ?mlen_write32; lia || apply Hr). done.
  - rewrite word_at_write32 by (rewrite ?mlen_write32; lia || apply Hr). done.
  - destruct (_ || _) eqn:E1; [|done]. rewrite !word_at_write32_other by (rewrite ?mlen_write32; lia). done.
Qed.

(** After the attributes were set, the times read back from the inode are the ones
    that were asked for, as long as they lie before 2038-01-19 and the inode's extra
    words have no high bits. *)
Theorem ext_set_info_readback :
  0 <= f70 ctx -> f70 ctx + 20 <= mlen s.2 ->
  cf (found s).2 = false -> immutable s = false -> cf (written s).2 = false ->
  extra m (inode_buf ctx) 140 mod 4 = 0 -> extra m (inode_buf ctx) 136 mod 4 = 0 ->
  exists s' calls d0 m', ext_set_file_info_ptr ctx (s, []) = Done ((s', calls), 0) /\
    ext_read_all_times_ptr s'.2 (inode_buf ctx) out = Done m' /\
    stored m' out (to_bytes d0 ++ to_bytes ta ++ to_bytes tm).
Proof.
  intros Hf0 Hf1 Hfound Himm Hwr Xa Xm. pose proof Hsep as ((Hi0 & Hi1) & (Hio & _) & ((Ho0 & Ho1) & _)). cbn [fst snd] in *.
  pose proof (find_inode_size (find_inode ctx) (path ctx) (extfs ctx) s) as Hl. fold (found s) in Hl. fold m in Hl.
  rewrite set_info_runs by lia. rewrite Hfound, Himm, Hwr. do 2 eexists.
  assert (bytes stamped) as Hb by by do 2 apply bytes_write32. assert (mlen stamped = mlen m) as Hlen by (unfold stamped; by rewrite !mlen_write32).
  destruct (read_times_ok stamped (inode_buf ctx) out) as (d0 & d1 & d2 & m' & E1 & _ & St & Hd); [done|lia|by rewrite Hlen; split_and!|].
  exists d0, m'. split; [done|]. cbn [fst snd]. unfold unlocked. rewrite unlock_quiet, disk_sync_quiet, write_sb_quiet.
  unfold written. rewrite write_inode_quiet, with_times_ok. split; [done|].
  assert (word16_at stamped (inode_buf ctx + 128) = word16_at m (inode_buf ctx + 128)) as Hi.
  { unfold word16_at, stamped. by rewrite !byte_at_write32 by (rewrite ?mlen_write32; lia); repeat case_match; try lia. }
  unfold extra, fits in Xa, Xm. unfold inode_times, extra, fits in Hd. rewrite Hi in Hd.
  rewrite (stamped_word 8 ltac:(lia) ltac:(lia) : _ = secs_of ta +ₘ _) in Hd. rewrite (stamped_word 16 ltac:(lia) ltac:(lia) : _ = secs_of tm +ₘ _) in Hd.
  rewrite (stamped_word 140 ltac:(lia) ltac:(lia) : _ = word_at m _) in Hd. rewrite (stamped_word 136 ltac:(lia) ltac:(lia) : _ = word_at m _) in Hd.
  apply Forall2_cons in Hd as [_ Hd]. apply Forall2_cons in Hd as [H1 Hd]. apply Forall2_cons in Hd as [H2 _].
  apply shows_plain in H1; [|done|done|exact Xa]. apply shows_plain in H2; [|done|done|exact Xm]. by subst d1 d2.
Qed.
End Readback.
End SetInfo.

(** Setting the attributes stores only the low word of a time.  A date from 2038-01-19 on
    is therefore shown as 2001-01-01, and an inode that already carried high bits in the
    extra word of the slot shows the last second of the clock instead of an earlier date. *)
Lemma set_times_keep_extra secs x d : 0 <= secs < 2 ^ 32 ->
  shows (secs +ₘ UNIXTIME_TO_KOS_OFFSET, x) d ->
  (2 ^ 31 <= secs + 978307200 < 2 ^ 32 -> x mod 4 = 0 -> secs_of d = 0) /\
  (secs + 978307200 < 2 ^ 31 -> x mod 4 <> 0 -> secs_of d = 2 ^ 32 - 1).
Proof.
  intros Hs [_ ->]. cbn [fst snd]. unfold ext_unix, UNIXTIME_TO_KOS_OFFSET. split; intros H Hx; rewrite wrap_small by lia.
  - rewrite Hx. unfold as_signed. change (2 ^ (32 - 1)) with (2 ^ 31). rewrite (proj2 (Z.ltb_ge _ _)) by lia. lia.
  - rewrite as_signed_small by (change (2 ^ (32 - 1)) with (2 ^ 31); lia).
    assert (1 <= x mod 4) by (pose proof (Z.mod_pos_bound x 4); lia). lia.
Qed.

(** ** An implementation and witnesses *)

(** The inode is already in the buffer, the clock is the crate's, writing the inode
    copies it to the disk. *)
#[local] Instance sample_fs : ExtFs (list Z) := {|
  find_inode_fn _ _ _ s := (s, mkCf false 0 12);
  calc_time_fn _ b s := (s, match (bl ← copy_out s.2 b 8; fs_calculate_time_ptr bl) with Done v => v | _ => 0 end);
  write_inode_fn _ _ buf _ s := ((take 152 (drop (Z.to_nat buf) s.2), s.2), mkCf false 0 0);
  write_sb_fn _ _ s := s;
  disk_sync_fn _ _ s := s;
  unlock_fn _ _ s := s
|}.

#[local] Instance sample_spec : ExtFsSpec (list Z).
Proof. by split. Qed.

#[local] Instance sample_quiet : ExtFsQuiet (E := list Z).
Proof.
  split; try done. intros fn b s t Hv Hs (H0 & Hf & Hst). change (mlen (to_bytes t)) with 8 in *. cbn [calc_time_fn sample_fs].
  destruct (copy_out_ok s.2 b 8) as (l & -> & Hl & Hb); [lia..|]. run_step.
  assert (l = to_bytes t) as ->.
  { apply mem_ext; [done|]. rewrite Hl. intros a Ha. rewrite Hb by done. by apply Hst. }
  pose proof (valid_year_bound t Hv Hs). pose proof Hv as ((Hy & _) & _).
  unfold fs_calculate_time_ptr. rewrite from_to_bytes by lia. run_step. by rewrite calc_time_ok by (done || lia).
Qed.

Definition sample_ctx : ExtSetFileInfoCtx := mkCtx 400 8 16 64 24 1 2 3 4 5 6.
Definition new_year : BdfeTime := mkBdfe 1 0 0 1 1 2025.
Definition sample_memory : list Z :=
  write32 (<[192%nat := 32]> (replicate 316 0 ++ to_bytes leap_day ++ to_bytes new_year ++ replicate 180 0)) 416 300.

Lemma new_year_valid : valid_bdfe new_year.
Proof. repeat split; by vm_compute. Qed.

Lemma ext_time_written_witness : exists m1, ext_write_time_pack_ptr (replicate 8 0) 4000000000 0 4 = Done m1 /\
  ext_unix_to_secs (word_at m1 0) (word_at m1 4) = 4000000000.
Proof.
  destruct (ext_time_written (replicate 8 0) 4000000000 0 4) as (m1 & _ & E & Es & _);
    [lia|by apply (bool_decide_unpack _); vm_compute|by vm_compute|].
  by exists m1.
Defined.

Lemma ext_set_info_protocol_witness : exists s' calls status,
  ext_set_file_info_ptr sample_ctx (([], sample_memory), []) = Done ((s', calls), status) /\ status = 0 /\
  Unlock 8 ∈ calls.
Proof.
  destruct (ext_set_info_protocol sample_ctx ltac:(by repeat constructor) ([], sample_memory))
    as (s' & calls & status & before & E & _ & Ec & _ & _ & _ & Es & _); [done|by vm_compute|done|by vm_compute|].
  exists s', calls, status. split; [exact E|]. split; [rewrite Es; by vm_compute|]. rewrite Ec. apply elem_of_app. right. by left.
Defined.

Lemma ext_set_info_readback_witness : exists s' calls d0 m',
  ext_set_file_info_ptr sample_ctx (([], sample_memory), []) = Done ((s', calls), 0) /\
  ext_read_all_times_ptr s'.2 64 256 = Done m' /\ stored m' 256 (to_bytes d0 ++ to_bytes leap_day ++ to_bytes new_year).
Proof.
  apply (ext_set_info_readback sample_ctx ltac:(by repeat constructor) ([], sample_memory) 256 leap_day new_year);
    [by apply bytes_check|by vm_compute|by apply (bool_decide_unpack _); vm_compute|apply leap_day_valid|exact new_year_valid|by vm_compute|by vm_compute|
     by apply stored_check|by apply stored_check|done|by vm_compute|done|by vm_compute|done|by vm_compute|by vm_compute].
Defined.
