(* ===== verification/NtfsInfo.v ===== *)
(** * NTFS: setting the attributes of a file

    [ntfs_set_file_info.rs]: the leaf that changes a file's entry in the directory index
    ([$I30]) of its parent: the four attribute bits and three of the four FILETIMEs.  The
    clock, the record writer and the closing routine (sync, unlock) are assembly
    callbacks (class [NtfsFs]). *)

From stdpp Require Import base list sets.
From Stdlib Require Import ZArith Lia.
From S2P Require Import Prelude Layout Time.

(** ** Definitions *)

Definition I30_FILE_CREATED : Z := 0x18.
Definition I30_FILE_MODIFIED : Z := 0x20.
Definition I30_FILE_ACCESSED : Z := 0x30.
Definition I30_FILE_FLAGS : Z := 0x48.
Definition ATTR_MASK : Z := 0x27.
Definition FLAGS_KEEP_LOW : Z := 0xD8.
Definition BDFE_CTIME_OFF : Z := 8.
Definition BDFE_ATIME_OFF : Z := 16.
Definition BDFE_MTIME_OFF : Z := 24.

Record NtfsSetFileInfoCtx := mkCtx {
  f70 : Z; ntfs : Z; entry : Z; record : Z; last_read : Z; calc_time : Z; write_record : Z; done : Z
}.

(** The assembly behind the function pointers, on the rest of the state [E] and memory. *)
Class NtfsFs (E : Type) := {
  calc_time_fn : Z -> Z -> E * list Z -> (E * list Z) * (Z * Z);
  write_record_fn : Z -> Z -> Z -> Z -> E * list Z -> E * list Z;
  done_fn : Z -> Z -> E * list Z -> (E * list Z) * Z
}.

Definition store_filetime (m : list Z) (p lo hi : Z) : run (list Z) :=
  m ← st32 m p lo; st32 m (p + 4) hi.

(** [old & !0xFF | (keep | bits)]. *)
Definition apply_file_flags (old guest_attrs : Z) : Z :=
  let keep := Z.land (u8 old) FLAGS_KEEP_LOW in
  let bits := u8 (Z.land guest_attrs ATTR_MASK) in
  Z.lor (Z.land old (2 ^ 32 - 1 - 0xFF)) (Z.lor keep bits).

(** The calls made, in order. *)
Inductive ntfs_call :=
| CalcTime (bdfe : Z)
| WriteRecord (record last_read : Z)
| DoneCall (ntfs : Z).

Section Info.
Context {E : Type} `{!NtfsFs E}.

Definition world : Type := (E * list Z) * list ntfs_call.

Definition invoke_calc_time (fn_ptr bdfe : Z) (w : world) : world * (Z * Z) :=
  let '(s, t) := calc_time_fn fn_ptr bdfe w.1 in ((s, w.2 ++ [CalcTime bdfe]), t).
Definition invoke_write_record (fn_ptr record last_read ntfs : Z) (w : world) : world :=
  (write_record_fn fn_ptr record last_read ntfs w.1, w.2 ++ [WriteRecord record last_read]).
Definition invoke_done (fn_ptr ntfs : Z) (w : world) : world * Z :=
  let '(s, r) := done_fn fn_ptr ntfs w.1 in ((s, w.2 ++ [DoneCall ntfs]), r).

(** A FILETIME of the entry, computed from the block at [bdfe]. *)
Definition set_filetime (ctx : NtfsSetFileInfoCtx) (bdfe off : Z) (w : world) : run world :=
  let '(w, (lo, hi)) := invoke_calc_time (calc_time ctx) bdfe w in
  m ← store_filetime w.1.2 (entry ctx + off) lo hi;
  Done ((w.1.1, m), w.2).

Definition ntfs_set_file_info_inner (ctx : NtfsSetFileInfoCtx) (w : world) : run (world * Z) :=
  let entry := entry ctx in
  bdfe_base ← ld32 w.1.2 (f70 ctx + 16);
  guest_attrs ← ld32 w.1.2 bdfe_base;
  old_flags ← ld32 w.1.2 (entry + I30_FILE_FLAGS);
  m ← st32 w.1.2 (entry + I30_FILE_FLAGS) (apply_file_flags old_flags guest_attrs);
  w ← set_filetime ctx (bdfe_base + BDFE_CTIME_OFF) I30_FILE_CREATED ((w.1.1, m), w.2);
  w ← set_filetime ctx (bdfe_base + BDFE_ATIME_OFF) I30_FILE_ACCESSED w;
  w ← set_filetime ctx (bdfe_base + BDFE_MTIME_OFF) I30_FILE_MODIFIED w;
  let w := invoke_write_record (write_record ctx) (record ctx) (last_read ctx) (ntfs ctx) w in
  Done (invoke_done (done ctx) (ntfs ctx) w).

Definition ntfs_set_file_info_ptr (ctx : NtfsSetFileInfoCtx) (w : world) : run (world * Z) :=
  ntfs_set_file_info_inner ctx w.

End Info.

(** ** Flags *)

Lemma low_bits_testbit z i : 0 <= i -> Z.testbit (u8 z) i = (i <? 8) && Z.testbit z i.
Proof.
  intros Hi. unfold wrap. destruct (Z.ltb_spec i 8); [by rewrite Z.mod_pow2_bits_low by lia|].
  by rewrite Z.mod_pow2_bits_high by lia.
Qed.

(** Bit by bit: read-only, hidden, system and archive come from the request, every other
    bit stays. *)
Definition attr_bit (i : Z) : bool := (i =? 0) || (i =? 1) || (i =? 2) || (i =? 5).

Lemma file_flags_bits old guest i : 0 <= old < 2 ^ 32 -> 0 <= i < 32 ->
  Z.testbit (apply_file_flags old guest) i = if attr_bit i then Z.testbit guest i else Z.testbit old i.
Proof.
  intros Ho Hi. unfold apply_file_flags, FLAGS_KEEP_LOW, ATTR_MASK. cbv zeta.
  rewrite !Z.lor_spec, !Z.land_spec, !low_bits_testbit, !Z.land_spec by lia.
  assert (forall_range 0 32 (fun i =>
    Bool.eqb (Z.testbit (2 ^ 32 - 1 - 255) i) (8 <=? i) &&
    Bool.eqb (Z.testbit 216 i) ((i <? 8) && negb (attr_bit i)) && Bool.eqb (Z.testbit 39 i) (attr_bit i) &&
    (negb (attr_bit i) || (i <? 8))) = true) as Hc by by vm_compute.
  apply (forall_range_spec _ _ _ Hc) in Hi as [[[E1%eqb_prop E2%eqb_prop]%andb_true_iff E3%eqb_prop]%andb_true_iff E4]%andb_true_iff.
  rewrite E1, E2, E3. assert ((8 <=? i) = negb (i <? 8)) as -> by lia.
  destruct (Z.testbit old i), (Z.testbit guest i), (attr_bit i), (i <? 8); done.
Qed.

Lemma file_flags_range old guest : 0 <= old < 2 ^ 32 -> 0 <= apply_file_flags old guest < 2 ^ 32.
Proof.
  intros Ho. unfold apply_file_flags, FLAGS_KEEP_LOW. cbv zeta. apply (lor_range 32); [lia|apply (land_range 32); lia|].
  assert (forall z, 0 <= u8 z < 2 ^ 32) as H8.
  { intros z. pose proof (wrap_range 8 z ltac:(lia)). lia. }
  apply (lor_range 32); [lia|apply (land_range 32); [lia|apply H8|lia]|apply H8].
Qed.

(** ** Theorem *)

(** The callbacks on which the round trip rests: the clock function is the crate's
    [ntfs_calculate_time] on the block it is pointed at. *)
Class NtfsFsSpec (E : Type) `{!NtfsFs E} : Prop := {
  calc_time_runs fn b (s : E * list Z) t : valid_bdfe t -> secs_of t < 2 ^ 32 -> stored s.2 b (to_bytes t) ->
    calc_time_fn fn b s = (s, filetime_from_secs_2001 (secs_of t))
}.

Lemma filetime_range s : let '(lo, hi) := filetime_from_secs_2001 s in 0 <= lo < 2 ^ 32 /\ 0 <= hi < 2 ^ 32.
Proof. unfold filetime_from_secs_2001. split; apply wrap_range; lia. Qed.

Lemma filetime_date t : valid_bdfe t -> secs_of t < 2 ^ 32 ->
  let '(lo, hi) := filetime_from_secs_2001 (secs_of t) in ntfs_datetime_to_bdfe lo hi = Done t.
Proof.
  intros Hv Hs. destruct (codec_date_roundtrip _ _ t Hv Hs : _ /\ fs_time2bdfe (ntfs_filetime_to_secs _ _) = _) as [_ E].
  by destruct (filetime_from_secs_2001 (secs_of t)).
Qed.

Section SetInfo.
Context {E : Type} `{!NtfsFs E} `{!NtfsFsSpec E}.
Context (ctx : NtfsSetFileInfoCtx) (s : E * list Z) (tc ta tm : BdfeTime).
Let base := word_at s.2 (f70 ctx + 16).
Context (Hm : bytes s.2) (Hf0 : 0 <= f70 ctx) (Hf1 : f70 ctx + 20 <= mlen s.2).
Context (Hsep : separate (mlen s.2) [(entry ctx, 76); (base, 32)]).

(** One FILETIME: the date at [b] goes to the entry's field. *)
Lemma set_filetime_ok m calls b off t : writes [(entry ctx, 76)] s.2 m -> stored s.2 b (to_bytes t) ->
  base <= b -> b + 8 <= base + 32 -> valid_bdfe t -> secs_of t < 2 ^ 32 -> 0 <= off -> off + 8 <= 76 ->
  exists m', set_filetime ctx b off ((s.1, m), calls) = Done ((s.1, m'), calls ++ [CalcTime b]) /\
    writes [(entry ctx + off, 8)] m m' /\ writes [(entry ctx, 76)] s.2 m' /\
    ntfs_datetime_to_bdfe (word_at m' (entry ctx + off)) (word_at m' (entry ctx + off + 4)) = Done t.
Proof.
  intros W Hst Hb Hb' Hv Hs Ho Hf. destruct Hsep as ((He0 & He1) & (Hd0 & _) & _). cbn [fst snd] in *.
  pose proof (writes_len _ _ _ W) as Hl.
  assert (stored m b (to_bytes t)) as Hst'.
  { apply (writes_stored _ _ _ _ _ W); [|done]. split; [|done]. change (mlen (to_bytes t)) with 8. unfold disjoint in *. cbn [fst snd]. lia. }
  unfold set_filetime, invoke_calc_time. rewrite (calc_time_runs _ _ (s.1, m) t) by done.
  pose proof (filetime_range (secs_of t)) as Hr. pose proof (filetime_date t Hv Hs) as Hd.
  destruct (filetime_from_secs_2001 (secs_of t)) as [lo hi]. destruct Hr as [Hlo Hhi]. cbn [fst snd]. unfold store_filetime.
  destruct (st32_writes m (entry ctx + off) lo) as (m1 & -> & W1 & V1); [lia..|]. run_step.
  destruct (st32_writes m1 (entry ctx + off + 4) hi) as (m2 & -> & W2 & V2); [lia|rewrite (writes_len _ _ _ W1); lia|lia|]. run_step.
  assert (writes [(entry ctx + off, 8)] m m2) as W12.
  { transitivity m1; [apply (writes_within [(entry ctx + off, 4)])|apply (writes_within [(entry ctx + off + 4, 4)])]; try done;
      apply Forall_cons_2, Forall_nil_2; intros a Ha; unfold inside in *; cbn in *; exists (entry ctx + off, 8); (split; [by left|cbn; lia]). }
  exists m2. split; [done|]. split; [done|]. split.
  - transitivity m; [done|]. apply (writes_within [(entry ctx + off, 8)]); [|done].
    apply Forall_cons_2, Forall_nil_2; intros a Ha; unfold inside in *; cbn in *; exists (entry ctx, 76); (split; [by left|cbn; lia]).
  - rewrite V2. rewrite (writes_word _ _ _ (entry ctx + off) W2), V1; [done|]. split; [left; cbn; lia|done].
Qed.

Lemma far o n k m1 m2 : writes [(entry ctx + o, n)] m1 m2 -> k + 4 <= o \/ o + n <= k ->
  word_at m2 (entry ctx + k) = word_at m1 (entry ctx + k).
Proof. intros W Hk. apply (writes_word _ _ _ _ W). split; [|done]. unfold disjoint. cbn. lia. Qed.

(** The part of the entry that is written: created and modified, accessed, flags. *)
Definition changed : list region := [(entry ctx + 0x18, 16); (entry ctx + 0x30, 8); (entry ctx + 0x48, 4)].

(** C32: setting the attributes stores the three dates that were asked for, each of which
    reads back as the same date, takes the four attribute bits from the request and every
    other flag bit from the entry, changes no other byte of memory, and then writes the
    record once and closes, whatever the record writer did. *)
Theorem ntfs_set_info_readback :
  valid_bdfe tc -> valid_bdfe ta -> valid_bdfe tm ->
  secs_of tc < 2 ^ 32 -> secs_of ta < 2 ^ 32 -> secs_of tm < 2 ^ 32 ->
  stored s.2 (base + 8) (to_bytes tc) -> stored s.2 (base + 16) (to_bytes ta) -> stored s.2 (base + 24) (to_bytes tm) ->
  exists m, writes changed s.2 m /\
    ntfs_set_file_info_ptr ctx (s, []) =
      Done (let '(s', r) := done_fn (done ctx) (ntfs ctx) (write_record_fn (write_record ctx) (record ctx) (last_read ctx) (ntfs ctx) (s.1, m)) in
            ((s', [CalcTime (base + 8); CalcTime (base + 16); CalcTime (base + 24); WriteRecord (record ctx) (last_read ctx);
                   DoneCall (ntfs ctx)]), r)) /\
    ntfs_datetime_to_bdfe (word_at m (entry ctx + 0x18)) (word_at m (entry ctx + 0x1c)) = Done tc /\
    ntfs_datetime_to_bdfe (word_at m (entry ctx + 0x30)) (word_at m (entry ctx + 0x34)) = Done ta /\
    ntfs_datetime_to_bdfe (word_at m (entry ctx + 0x20)) (word_at m (entry ctx + 0x24)) = Done tm /\
    forall i, 0 <= i < 32 -> Z.testbit (word_at m (entry ctx + 0x48)) i =
      if attr_bit i then Z.testbit (word_at s.2 base) i else Z.testbit (word_at s.2 (entry ctx + 0x48)) i.
Proof.
  intros Vc Va Vm Sc Sa Sm Tc Ta Tm. destruct Hsep as ((He0 & He1) & (Hd & _) & ((Hb0 & Hb1) & _)). cbn [fst snd] in *.
  unfold ntfs_set_file_info_ptr, ntfs_set_file_info_inner. cbv zeta. cbn [fst snd].
  rewrite (ld32_ok _ (f70 ctx + 16)) by lia. rewrite done_bind. fold base.
  rewrite (ld32_ok _ base) by lia. rewrite done_bind.
  unfold I30_FILE_FLAGS, I30_FILE_CREATED, I30_FILE_ACCESSED, I30_FILE_MODIFIED, BDFE_CTIME_OFF, BDFE_ATIME_OFF, BDFE_MTIME_OFF.
  rewrite (ld32_ok _ (entry ctx + 72)) by lia. rewrite done_bind.
  pose proof (word_at_range s.2 (entry ctx + 72) Hm) as Hold.
  destruct (st32_writes s.2 (entry ctx + 72) (apply_file_flags (word_at s.2 (entry ctx + 72)) (word_at s.2 base)))
    as (m0 & -> & W0 & V0); [lia..|by apply file_flags_range|]. rewrite done_bind.
  assert (writes [(entry ctx, 76)] s.2 m0) as A0.
  { apply (writes_within [(entry ctx + 72, 4)]); [|done]. apply Forall_cons_2, Forall_nil_2. intros a Ha. unfold inside in *. cbn in *.
    exists (entry ctx, 76). split; [by left|cbn; lia]. }
  destruct (set_filetime_ok m0 [] (base + 8) 0x18 tc) as (m1 & -> & W1 & A1 & D1); [done|done|lia|lia|done|done|lia|lia|]. rewrite done_bind.
  destruct (set_filetime_ok m1 ([] ++ [CalcTime (base + 8)]) (base + 16) 0x30 ta) as (m2 & -> & W2 & A2 & D2);
    [done|done|lia|lia|done|done|lia|lia|]. rewrite done_bind.
  destruct (set_filetime_ok m2 (([] ++ [CalcTime (base + 8)]) ++ [CalcTime (base + 16)]) (base + 24) 0x20 tm) as (m3 & -> & W3 & A3 & D3);
    [done|done|lia|lia|done|done|lia|lia|]. rewrite done_bind.
  rewrite <- Z.add_assoc in D1, D2, D3. change (24 + 4) with 28 in D1. change (48 + 4) with 52 in D2. change (32 + 4) with 36 in D3.
  exists m3. split; [|split; [|split; [|split; [|split]]]].
  - transitivity m2; [transitivity m1; [transitivity m0|]|];
      [apply (writes_within [(entry ctx + 72, 4)])|apply (writes_within [(entry ctx + 24, 8)])|
       apply (writes_within [(entry ctx + 48, 8)])|apply (writes_within [(entry ctx + 32, 8)])]; try done;
      apply Forall_cons_2, Forall_nil_2; intros a Ha; unfold inside, changed in *; cbn in *.
    + exists (entry ctx + 72, 4). split; [set_solver|cbn; lia].
    + exists (entry ctx + 24, 16). split; [set_solver|cbn; lia].
    + exists (entry ctx + 48, 8). split; [set_solver|cbn; lia].
    + exists (entry ctx + 24, 16). split; [set_solver|cbn; lia].
  - unfold invoke_done, invoke_write_record. cbn [fst snd]. by destruct (done_fn _ _ _).
  - by rewrite (far _ _ 0x18 _ _ W3), (far _ _ 0x1c _ _ W3), (far _ _ 0x18 _ _ W2), (far _ _ 0x1c _ _ W2) by lia.
  - by rewrite (far _ _ 0x30 _ _ W3), (far _ _ 0x34 _ _ W3) by lia.
  - exact D3.
  - intros i Hi. rewrite (far _ _ 0x48 _ _ W3), (far _ _ 0x48 _ _ W2), (far _ _ 0x48 _ _ W1), V0 by lia.
    by apply file_flags_bits.
Qed.
End SetInfo.

(** ** Witness *)

#[local] Instance sample_fs : NtfsFs (list Z) := {|
  calc_time_fn _ b s := (s, match (bl ← copy_out s.2 b 8; ntfs_calculate_time_ptr bl) with Done v => v | _ => (0, 0) end);
  write_record_fn _ record _ _ s := (take 16 (drop (Z.to_nat record) s.2), s.2);
  done_fn _ _ s := (s, 0)
|}.

#[local] Instance sample_spec : NtfsFsSpec (list Z).
Proof.
  split. intros fn b s t Hv Hs (H0 & Hf & Hst). change (mlen (to_bytes t)) with 8 in *. cbn [calc_time_fn sample_fs].
  destruct (copy_out_ok s.2 b 8) as (l & -> & Hl & Hb); [lia..|]. run_step.
  assert (l = to_bytes t) as ->.
  { apply mem_ext; [done|]. rewrite Hl. intros a Ha. rewrite Hb by done. by apply Hst. }
  pose proof (valid_year_bound t Hv Hs). pose proof Hv as ((Hy & _) & _).
  unfold ntfs_calculate_time_ptr, ntfs_calculate_time. rewrite from_to_bytes by lia. run_step. by rewrite calc_time_ok by (done || lia).
Qed.

(** The entry at 32, the request (hidden and archive, three times the same date) at 128. *)
Definition sample_memory : list Z :=
  write32 (write32 (replicate 128 0 ++ [0x22; 0; 0; 0; 0; 0; 0; 0] ++ to_bytes leap_day ++ to_bytes leap_day ++ to_bytes leap_day ++ replicate 96 0) 208 128)
    (32 + 0x48) 0x2011.
Definition sample_ctx : NtfsSetFileInfoCtx := mkCtx 192 1 32 32 7 8 9 10.

Lemma ntfs_set_info_readback_witness : exists m r,
  ntfs_set_file_info_ptr sample_ctx (([], sample_memory), []) = Done r /\ r.2 = 0 /\
  ntfs_datetime_to_bdfe (word_at m 80) (word_at m 84) = Done leap_day /\ Z.testbit (word_at m 104) 5 = true.
Proof.
  destruct (ntfs_set_info_readback sample_ctx ([], sample_memory) leap_day leap_day leap_day)
    as (m & _ & E & _ & Ea & _ & Hf);
    [by apply bytes_check|done|by vm_compute|by apply (bool_decide_unpack _); vm_compute|apply leap_day_valid|apply leap_day_valid|
     apply leap_day_valid|by vm_compute|by vm_compute|by vm_compute|by apply stored_check|by apply stored_check|by apply stored_check|].
  exists m. eexists. split; [exact E|]. split; [done|]. split; [exact Ea|]. transitivity (Z.testbit (word_at m (entry sample_ctx + 72)) 5); [done|]. rewrite (Hf 5) by lia. by vm_compute.
Defined.
