(* ===== verification/Geometry.v ===== *)
(** * Clipping rectangles

    [geometry.rs]: [block_clip] intersects a rectangle with a clip rectangle,
    [blit_clip] clips a blit against its source and its destination.  Coordinates are
    signed 32-bit words; the specification talks about pixels. *)

From stdpp Require Import base list.
From Stdlib Require Import ZArith Lia.
From S2P Require Import Prelude Layout.

(** ** Definitions *)

(** [i32::wrapping_add], [wrapping_sub], [wrapping_mul]. *)
Definition i32_add (a b : Z) : Z := as_i32 (u32 (a + b)).
Definition i32_sub (a b : Z) : Z := as_i32 (u32 (a - b)).
Definition i32_mul (a b : Z) : Z := as_i32 (u32 (a * b)).

(** [i32::to_le_bytes], and reading one back. *)
Definition i32_bytes (z : Z) : list Z := [byte_of z 0; byte_of z 1; byte_of z 2; byte_of z 3].
Definition i32_le (b : list Z) (off : Z) : run Z := w ← ld32 b off; Done (as_i32 w).

Record Rect := mkRect { left : Z; top : Z; right : Z; bottom : Z }.

Definition rect_bytes (r : Rect) : list Z :=
  i32_bytes (left r) ++ i32_bytes (top r) ++ i32_bytes (right r) ++ i32_bytes (bottom r).

Definition rect_of_bytes (b : list Z) : run Rect :=
  l ← i32_le b 0; t ← i32_le b 4; r ← i32_le b 8; d ← i32_le b 12; Done (mkRect l t r d).

Record BlockClipResult := mkClip { draw : bool; rect : Rect }.

Definition block_clip (clip rect : Rect) : BlockClipResult :=
  let l := left rect in let r := right rect in
  let clip_left := left clip in let clip_right := right clip in
  if (clip_right <=? l) || (r <? clip_left) then mkClip false rect
  else
    let rect := if l <? clip_left then mkRect clip_left (top rect) (right rect) (bottom rect) else rect in
    let rect := if clip_right <? r then mkRect (left rect) (top rect) clip_right (bottom rect) else rect in
    let t := top rect in let b := bottom rect in
    let clip_top := top clip in let clip_bottom := bottom clip in
    if (clip_bottom <=? t) || (b <? clip_top) then mkClip false rect
    else
      let rect := if t <? clip_top then mkRect (left rect) clip_top (right rect) (bottom rect) else rect in
      let rect := if clip_bottom <? b then mkRect (left rect) (top rect) (right rect) clip_bottom else rect in
      mkClip true rect.

Definition block_clip_ptr (m : list Z) (clip rect_ptr : Z) : run (list Z * Z) :=
  clip_b ← copy_out m clip 16;
  rect_b ← copy_out m rect_ptr 16;
  c ← rect_of_bytes clip_b; r ← rect_of_bytes rect_b;
  let res := block_clip c r in
  m ← store_bytes m rect_ptr (rect_bytes (rect res));
  Done (m, if draw res then 0 else 1).

Record BlitterGeom := mkGeom {
  dc : Rect; sc : Rect; dst_x : Z; dst_y : Z; src_x : Z; src_y : Z; w : Z; h : Z
}.

Definition BLITTER_OFF_DC : Z := 0.
Definition BLITTER_OFF_SC : Z := 16.
Definition BLITTER_OFF_DST_X : Z := 32.
Definition BLITTER_OFF_DST_Y : Z := 36.
Definition BLITTER_OFF_SRC_X : Z := 40.
Definition BLITTER_OFF_SRC_Y : Z := 44.
Definition BLITTER_OFF_W : Z := 48.
Definition BLITTER_OFF_H : Z := 52.
Definition BLITTER_SIZE : Z := 64.

Definition geom_bytes (g : BlitterGeom) : list Z :=
  rect_bytes (dc g) ++ rect_bytes (sc g) ++ i32_bytes (dst_x g) ++ i32_bytes (dst_y g) ++
  i32_bytes (src_x g) ++ i32_bytes (src_y g) ++ i32_bytes (w g) ++ i32_bytes (h g) ++ replicate 8 0.

Definition geom_of_bytes (b : list Z) : run BlitterGeom :=
  dc_b ← copy_out b BLITTER_OFF_DC 16; sc_b ← copy_out b BLITTER_OFF_SC 16;
  dc ← rect_of_bytes dc_b; sc ← rect_of_bytes sc_b;
  dx ← i32_le b BLITTER_OFF_DST_X; dy ← i32_le b BLITTER_OFF_DST_Y;
  sx ← i32_le b BLITTER_OFF_SRC_X; sy ← i32_le b BLITTER_OFF_SRC_Y;
  w ← i32_le b BLITTER_OFF_W; h ← i32_le b BLITTER_OFF_H;
  Done (mkGeom dc sc dx dy sx sy w h).

Record BlitClipResult := mkBlit { blit_draw : bool; geom : BlitterGeom }.

Definition blit_clip (b : BlitterGeom) : BlitClipResult :=
  let src0 := src_x b in let sy0 := src_y b in
  let src_rect := mkRect src0 sy0 (i32_add src0 (w b)) (i32_add sy0 (h b)) in
  let src_clipped := block_clip (sc b) src_rect in
  if negb (draw src_clipped) then mkBlit false b
  else
    let sx0 := left (rect src_clipped) in let sy0c := top (rect src_clipped) in
    let sx1 := right (rect src_clipped) in let sy1 := bottom (rect src_clipped) in
    let dx0 := i32_sub (i32_add (dst_x b) sx0) src0 in
    let dy0 := i32_sub (i32_add (dst_y b) sy0c) sy0 in
    let dx1 := i32_add (i32_sub dx0 sx0) sx1 in
    let dy1 := i32_add (i32_sub dy0 sy0c) sy1 in
    let dst_clipped := block_clip (dc b) (mkRect dx0 dy0 dx1 dy1) in
    if negb (draw dst_clipped) then mkBlit false b
    else
      let dx0 := left (rect dst_clipped) in let dy0 := top (rect dst_clipped) in
      let dx1 := right (rect dst_clipped) in let dy1 := bottom (rect dst_clipped) in
      mkBlit true (mkGeom (dc b) (sc b) dx0 dy0 (i32_sub (i32_add src0 dx0) (dst_x b)) (i32_sub (i32_add sy0 dy0) (dst_y b))
        (i32_sub dx1 dx0) (i32_sub dy1 dy0)).

Definition blit_clip_ptr (m : list Z) (blitter : Z) : run (list Z * Z) :=
  bytes ← copy_out m blitter BLITTER_SIZE;
  b ← geom_of_bytes bytes;
  let r := blit_clip b in
  if blit_draw r then
    let g := geom r in
    m ← store_bytes m (blitter + BLITTER_OFF_DST_X) (i32_bytes (dst_x g));
    m ← store_bytes m (blitter + BLITTER_OFF_DST_Y) (i32_bytes (dst_y g));
    m ← store_bytes m (blitter + BLITTER_OFF_SRC_X) (i32_bytes (src_x g));
    m ← store_bytes m (blitter + BLITTER_OFF_SRC_Y) (i32_bytes (src_y g));
    m ← store_bytes m (blitter + BLITTER_OFF_W) (i32_bytes (w g));
    m ← store_bytes m (blitter + BLITTER_OFF_H) (i32_bytes (h g));
    Done (m, 0)
  else Done (m, 1).

(** ** Signed words *)

Definition is_i32 (z : Z) : Prop := - 2 ^ 31 <= z < 2 ^ 31.

Lemma i32_of_u32 z : is_i32 z -> as_i32 (u32 z) = z.
Proof. intros H. apply (as_signed_wrap 32); [lia|exact H]. Qed.

Lemma i32_add_small a b : is_i32 (a + b) -> i32_add a b = a + b.
Proof. apply i32_of_u32. Qed.
Lemma i32_sub_small a b : is_i32 (a - b) -> i32_sub a b = a - b.
Proof. apply i32_of_u32. Qed.
Lemma i32_mul_small a b : is_i32 (a * b) -> i32_mul a b = a * b.
Proof. apply i32_of_u32. Qed.

Lemma i32_roundtrip z : is_i32 z -> le4 (byte_of z 0) (byte_of z 1) (byte_of z 2) (byte_of z 3) = u32 z /\ as_i32 (u32 z) = z.
Proof.
  intros H. split; [|by apply i32_of_u32].
  rewrite <- (byte_of_u32 z 0), <- (byte_of_u32 z 1), <- (byte_of_u32 z 2), <- (byte_of_u32 z 3) by lia. apply le4_split. apply (wrap_range 32). lia.
Qed.

(** ** Pixels *)

Definition in_rect (r : Rect) (x y : Z) : Prop := left r <= x < right r /\ top r <= y < bottom r.

(** [block_clip] is intersection, and it rejects only when nothing is left. *)
Lemma block_clip_pixels clip r :
  let res := block_clip clip r in
  if draw res then forall x y, in_rect (rect res) x y <-> in_rect clip x y /\ in_rect r x y
  else forall x y, ~ (in_rect clip x y /\ in_rect r x y).
Proof.
  cbv zeta. destruct clip as [cl ct cr cb], r as [l t r b]. unfold block_clip, in_rect. cbn [left top right bottom].
  destruct ((cr <=? l) || (r <? cl)) eqn:E1; [cbn; intros; lia|].
  destruct (l <? cl) eqn:E2, (cr <? r) eqn:E3; cbn [left top right bottom];
    (destruct ((cb <=? t) || (b <? ct)) eqn:E4; [cbn; intros; lia|]);
    destruct (t <? ct) eqn:E5, (cb <? b) eqn:E6; cbn [left top right bottom draw rect]; intros x y; lia.
Qed.

(** Where the edges of a clipped rectangle lie. *)
Lemma block_clip_edges clip r : let res := block_clip clip r in draw res = true ->
  left (rect res) = Z.max (left clip) (left r) /\ right (rect res) = Z.min (right clip) (right r) /\
  top (rect res) = Z.max (top clip) (top r) /\ bottom (rect res) = Z.min (bottom clip) (bottom r) /\
  left r < right clip /\ left clip <= right r /\ top r < bottom clip /\ top clip <= bottom r.
Proof.
  cbv zeta. destruct clip as [cl ct cr cb], r as [l t r b]. unfold block_clip. cbn [left top right bottom].
  destruct ((cr <=? l) || (r <? cl)) eqn:E1; [done|].
  destruct (l <? cl) eqn:E2, (cr <? r) eqn:E3; cbn [left top right bottom];
    (destruct ((cb <=? t) || (b <? ct)) eqn:E4; [done|]);
    destruct (t <? ct) eqn:E5, (cb <? b) eqn:E6; cbn [left top right bottom draw rect]; intros _; lia.
Qed.

(** The source pixel [sx, sy] goes to [dx, dy]. *)
Definition moves (g : BlitterGeom) (sx sy dx dy : Z) : Prop :=
  0 <= sx - src_x g < w g /\ 0 <= sy - src_y g < h g /\ dx = dst_x g + (sx - src_x g) /\ dy = dst_y g + (sy - src_y g).

(** Coordinates whose sums stay within a signed word. *)
Definition modest (z : Z) : Prop := - 2 ^ 28 <= z <= 2 ^ 28.
Definition modest_rect (r : Rect) : Prop := modest (left r) /\ modest (top r) /\ modest (right r) /\ modest (bottom r).
Definition modest_geom (g : BlitterGeom) : Prop :=
  modest_rect (dc g) /\ modest_rect (sc g) /\ modest (dst_x g) /\ modest (dst_y g) /\ modest (src_x g) /\ modest (src_y g) /\
  modest (w g) /\ modest (h g).

(** One axis of the clipping. *)
Lemma clip_axis sl sr dl dr s0 d0 n x X l r l2 r2 : l = Z.max sl s0 -> r = Z.min sr (s0 + n) ->
  l2 = Z.max dl (d0 + l - s0) -> r2 = Z.min dr (d0 + l - s0 - l + r) ->
  0 <= x - (s0 + l2 - d0) < r2 - l2 /\ X = l2 + (x - (s0 + l2 - d0)) <->
  (0 <= x - s0 < n /\ X = d0 + (x - s0)) /\ sl <= x < sr /\ dl <= X < dr.
Proof. lia. Qed.

(** A width stays a width. *)
Lemma clip_axis_size sl sr dl dr s0 d0 n l r l2 r2 : l = Z.max sl s0 -> r = Z.min sr (s0 + n) -> s0 < sr -> sl <= s0 + n ->
  l2 = Z.max dl (d0 + l - s0) -> r2 = Z.min dr (d0 + l - s0 - l + r) -> d0 + l - s0 < dr -> dl <= d0 + l - s0 - l + r ->
  0 <= n -> sl <= sr -> dl <= dr -> 0 <= r2 - l2.
Proof. lia. Qed.

Definition sizes_ok (g : BlitterGeom) : Prop :=
  0 <= w g /\ 0 <= h g /\ left (sc g) <= right (sc g) /\ top (sc g) <= bottom (sc g) /\ left (dc g) <= right (dc g) /\ top (dc g) <= bottom (dc g).

Lemma blit_clip_ok g : modest_geom g ->
  let res := blit_clip g in
  if blit_draw res
  then (forall sx sy dx dy, moves (geom res) sx sy dx dy <->
          moves g sx sy dx dy /\ in_rect (sc g) sx sy /\ in_rect (dc g) dx dy) /\ dc (geom res) = dc g /\ sc (geom res) = sc g /\
         (sizes_ok g -> 0 <= w (geom res) /\ 0 <= h (geom res))
  else geom res = g /\ forall sx sy dx dy, ~ (moves g sx sy dx dy /\ in_rect (sc g) sx sy /\ in_rect (dc g) dx dy).
Proof.
  intros (Hdc & Hsc & Hdx & Hdy & Hsx & Hsy & Hw & Hh). cbv zeta. unfold blit_clip. cbv zeta.
  unfold modest_rect, modest in *.
  rewrite !(i32_add_small (src_x g) (w g)), !(i32_add_small (src_y g) (h g)) by (unfold is_i32; lia).
  set (sr := mkRect _ _ _ _). pose proof (block_clip_pixels (sc g) sr) as P1. pose proof (block_clip_edges (sc g) sr) as E1.
  cbv zeta in P1, E1. destruct (draw (block_clip (sc g) sr)); cbn [negb].
  2:{ split; [done|]. intros sx sy dx dy (Hm & Hs & _). apply (P1 sx sy). split; [done|]. unfold moves, in_rect, sr in *. cbn. lia. }
  set (s := rect (block_clip (sc g) sr)) in *.
  specialize (E1 eq_refl) as (L1 & R1 & T1 & B1 & S1). unfold sr in L1, R1, T1, B1, S1. cbn [left top right bottom] in L1, R1, T1, B1, S1.
  rewrite (i32_add_small (dst_x g) (left s)), (i32_add_small (dst_y g) (top s)) by (unfold is_i32; lia).
  rewrite (i32_sub_small (dst_x g + left s)), (i32_sub_small (dst_y g + top s)) by (unfold is_i32; lia).
  rewrite (i32_sub_small (dst_x g + left s - src_x g)), (i32_sub_small (dst_y g + top s - src_y g)) by (unfold is_i32; lia).
  rewrite (i32_add_small _ (right s)), (i32_add_small _ (bottom s)) by (unfold is_i32; lia).
  set (dr := mkRect _ _ _ _). pose proof (block_clip_pixels (dc g) dr) as P2. pose proof (block_clip_edges (dc g) dr) as E2.
  cbv zeta in P2, E2. destruct (draw (block_clip (dc g) dr)); cbn [negb].
  2:{ split; [done|]. intros sx sy dx dy (Hm & Hs & Hd). apply (P2 dx dy). split; [done|].
      destruct (proj2 (P1 sx sy)) as [Hx Hy]; [split; [done|]; unfold moves, in_rect, sr in *; cbn; lia|].
      fold s in Hx, Hy. unfold moves, in_rect, dr in *. cbn. lia. }
  set (d := rect (block_clip (dc g) dr)) in *.
  specialize (E2 eq_refl) as (L2 & R2 & T2 & B2 & S2). unfold dr in L2, R2, T2, B2, S2. cbn [left top right bottom] in L2, R2, T2, B2, S2. cbn [blit_draw geom dc sc].
  clear P1 P2.
  rewrite (i32_add_small (src_x g)), (i32_add_small (src_y g)) by (unfold is_i32; lia).
  rewrite (i32_sub_small (src_x g + left d)), (i32_sub_small (src_y g + top d)) by (unfold is_i32; lia).
  rewrite (i32_sub_small (right d)), (i32_sub_small (bottom d)) by (unfold is_i32; lia).
  split_and!; [|done|done|].
  - intros sx sy dx dy.
    pose proof (clip_axis _ _ _ _ (src_x g) (dst_x g) (w g) sx dx _ _ _ _ L1 R1 L2 R2) as X.
    pose proof (clip_axis _ _ _ _ (src_y g) (dst_y g) (h g) sy dy _ _ _ _ T1 B1 T2 B2) as Y.
    clear -X Y. unfold moves, in_rect. cbn [src_x src_y dst_x dst_y w h]. tauto.
  - intros (? & ? & ? & ? & ? & ?). cbn [w h]. destruct S1 as (? & ? & ? & ?), S2 as (? & ? & ? & ?).
    split; [by eapply (clip_axis_size _ _ _ _ (src_x g) (dst_x g) (w g) _ _ _ _ L1 R1)|by eapply (clip_axis_size _ _ _ _ (src_y g) (dst_y g) (h g) _ _ _ _ T1 B1)].
Qed.

(** ** The records in memory *)

Lemma i32_le_ok b off z : stored b off (i32_bytes z) -> is_i32 z -> i32_le b off = Done z.
Proof.
  intros (Ho & Hf & Hb) Hz. change (mlen (i32_bytes z)) with 4 in *. unfold i32_le. rewrite ld32_ok by done. run_step. f_equal.
  destruct (i32_roundtrip z Hz) as [E1 E2]. rewrite <- E2 at 1. rewrite <- E1. f_equal. unfold word_at.
  rewrite <- (Z.add_0_r off) at 1. rewrite !Hb by lia. done.
Qed.

Definition is_rect (r : Rect) : Prop := is_i32 (left r) /\ is_i32 (top r) /\ is_i32 (right r) /\ is_i32 (bottom r).

Lemma rect_of_bytes_ok b r : stored b 0 (rect_bytes r) -> is_rect r -> rect_of_bytes b = Done r.
Proof.
  intros S (H1 & H2 & H3 & H4). unfold rect_bytes in S.
  apply stored_app in S as [S1 S]. apply stored_app in S as [S2 S]. apply stored_app in S as [S3 S4].
  unfold rect_of_bytes. rewrite (i32_le_ok b 0 _ S1 H1), (i32_le_ok b 4 _ S2 H2), (i32_le_ok b 8 _ S3 H3), (i32_le_ok b 12 _ S4 H4).
  by destruct r.
Qed.

(** The 56 bytes of a [BLITTER] the clipping reads. *)
Definition geom_fields (g : BlitterGeom) : list Z :=
  rect_bytes (dc g) ++ rect_bytes (sc g) ++ i32_bytes (dst_x g) ++ i32_bytes (dst_y g) ++
  i32_bytes (src_x g) ++ i32_bytes (src_y g) ++ i32_bytes (w g) ++ i32_bytes (h g).

Definition is_geom (g : BlitterGeom) : Prop :=
  is_rect (dc g) /\ is_rect (sc g) /\ is_i32 (dst_x g) /\ is_i32 (dst_y g) /\ is_i32 (src_x g) /\ is_i32 (src_y g) /\
  is_i32 (w g) /\ is_i32 (h g).

Lemma geom_of_bytes_ok b g : stored b 0 (geom_fields g) -> is_geom g -> geom_of_bytes b = Done g.
Proof.
  intros S (Hd & Hs & H1 & H2 & H3 & H4 & H5 & H6). unfold geom_fields in S.
  apply stored_app in S as [S1 S]. apply stored_app in S as [S2 S]. apply stored_app in S as [S3 S].
  apply stored_app in S as [S4 S]. apply stored_app in S as [S5 S]. apply stored_app in S as [S6 S].
  apply stored_app in S as [S7 S8]. unfold geom_of_bytes.
  pose proof (copy_out_stored _ _ _ S1 : copy_out b BLITTER_OFF_DC 16 = _) as ->.
  pose proof (copy_out_stored _ _ _ S2 : copy_out b BLITTER_OFF_SC 16 = _) as ->. run_step.
  rewrite (rect_of_bytes_ok _ _ (stored_self _) Hd), (rect_of_bytes_ok _ _ (stored_self _) Hs). run_step.
  rewrite (i32_le_ok b BLITTER_OFF_DST_X _ S3 H1), (i32_le_ok b BLITTER_OFF_DST_Y _ S4 H2), (i32_le_ok b BLITTER_OFF_SRC_X _ S5 H3),
    (i32_le_ok b BLITTER_OFF_SRC_Y _ S6 H4), (i32_le_ok b BLITTER_OFF_W _ S7 H5), (i32_le_ok b BLITTER_OFF_H _ S8 H6).
  by destruct g.
Qed.

Lemma modest_is_geom g : modest_geom g -> is_geom g.
Proof.
  intros ((?&?&?&?) & (?&?&?&?) & ? & ? & ? & ? & ? & ?). unfold is_geom, is_rect, is_i32, modest in *. split_and!; lia.
Qed.

Lemma store_bytes_app bs : forall m a bs',
  store_bytes m a (bs ++ bs') = (m ← store_bytes m a bs; store_bytes m (a + mlen bs) bs').
Proof.
  induction bs as [|b bs IH]; intros m a bs'; [by rewrite Z.add_0_r|]. cbn [app store_bytes]. destruct (st8 m a b) as [m1| |]; [|done..].
  run_step. rewrite IH, mlen_cons. by replace (a + (mlen bs + 1)) with (a + 1 + mlen bs) by lia.
Qed.

Lemma bytes_i32 z : bytes (i32_bytes z).
Proof. unfold i32_bytes. repeat apply Forall_cons_2; try apply byte_of_range. apply Forall_nil_2. Qed.

(** ** Theorem *)

(** C33: clipping a blit keeps exactly the pixels whose source lies in the source
    rectangle and whose destination lies in the destination rectangle, each still going
    from the same place to the same place; it is refused only when no pixel is left, and
    in memory it rewrites the six fields of the placement and nothing else. *)
Theorem blit_clip_pixels m a g :
  bytes m -> stored m a (geom_fields g) -> a + 64 <= mlen m -> modest_geom g ->
  exists m' code g', blit_clip_ptr m a = Done (m', code) /\ stored m' a (geom_fields g') /\
    writes [(a + 32, 24)] m m' /\
    if code =? 0
    then forall sx sy dx dy, moves g' sx sy dx dy <-> moves g sx sy dx dy /\ in_rect (sc g) sx sy /\ in_rect (dc g) dx dy
    else m' = m /\ g' = g /\ forall sx sy dx dy, ~ (moves g sx sy dx dy /\ in_rect (sc g) sx sy /\ in_rect (dc g) dx dy).
Proof.
  intros Hm Hst Hf Hg. pose proof (blit_clip_ok g Hg) as Hok. cbv zeta in Hok. pose proof Hst as (Ha & _ & Hb).
  destruct (copy_out_ok m a 64) as (l & El & Hl & Hlb); [lia..|].
  assert (stored l 0 (geom_fields g)) as Sl.
  { split_and!; [lia|change (mlen (geom_fields g)) with 56; lia|]. intros i Hi. rewrite <- Hb by done.
    change (mlen (geom_fields g)) with 56 in Hi. rewrite Z.add_0_l. apply Hlb. lia. }
  unfold blit_clip_ptr. unfold BLITTER_SIZE. rewrite El. run_step. rewrite (geom_of_bytes_ok l g Sl (modest_is_geom g Hg)). run_step.
  destruct (blit_draw (blit_clip g)).
  - destruct Hok as (Hp & Hdc & Hsc & _). set (g' := geom (blit_clip g)) in *.
    set (fields := i32_bytes (dst_x g') ++ i32_bytes (dst_y g') ++ i32_bytes (src_x g') ++ i32_bytes (src_y g') ++ i32_bytes (w g') ++ i32_bytes (h g')).
    destruct (store_bytes_ok fields m (a + 32)) as (m' & E & W & St);
      [lia|change (mlen fields) with 24; lia|done|unfold fields; repeat apply Forall_app_2; apply bytes_i32|].
    exists m', 0, g'. split_and!; [| |done|exact Hp].
    + unfold fields in E. unfold BLITTER_OFF_DST_X, BLITTER_OFF_DST_Y, BLITTER_OFF_SRC_X, BLITTER_OFF_SRC_Y, BLITTER_OFF_W, BLITTER_OFF_H.
      replace (a + 36) with (a + 32 + 4) by lia. replace (a + 40) with (a + 32 + 4 + 4) by lia.
      replace (a + 44) with (a + 32 + 4 + 4 + 4) by lia. replace (a + 48) with (a + 32 + 4 + 4 + 4 + 4) by lia.
      replace (a + 52) with (a + 32 + 4 + 4 + 4 + 4 + 4) by lia.
      do 5 (rewrite store_bytes_app in E; change (mlen (i32_bytes _)) with 4 in E; apply bind_Done in E as (? & -> & E); rewrite done_bind).
      by rewrite E.
    + unfold geom_fields. rewrite Hdc, Hsc. fold fields. rewrite app_assoc.
      unfold geom_fields in Hst. rewrite app_assoc in Hst. apply stored_app in Hst as [S1 _].
      apply stored_join; [|exact St]. apply (writes_stored _ _ _ _ _ W); [|exact S1]. split; [|done]. left. change (a + 32 <= a + 32). lia.
  - destruct Hok as [_ Hn]. exists m, 1, g. by split_and!.
Qed.

Lemma blit_clip_pixels_witness : exists m' g',
  blit_clip_ptr (geom_fields (mkGeom (mkRect 0 0 10 10) (mkRect 0 0 8 8) 5 (-2) 1 1 20 20) ++ replicate 8 0) 0 = Done (m', 0) /\
  stored m' 0 (geom_fields g') /\ moves g' 1 3 5 0.
Proof.
  destruct (blit_clip_pixels (geom_fields (mkGeom (mkRect 0 0 10 10) (mkRect 0 0 8 8) 5 (-2) 1 1 20 20) ++ replicate 8 0) 0
    (mkGeom (mkRect 0 0 10 10) (mkRect 0 0 8 8) 5 (-2) 1 1 20 20)) as (m' & code & g' & E & St & _ & Hp);
    [by apply bytes_check|by apply stored_check|by vm_compute|repeat split; by vm_compute|].
  exists m', g'. assert (code = 0) as ->.
  { vm_compute in E. by injection E. }
  split; [exact E|]. split; [exact St|]. apply Hp. repeat split; by vm_compute.
Defined.
