(* ===== verification/Blit.v ===== *)
(** * Blitting to the screen

    [blit_32.rs], system call 73: a 32-bit bitmap is clipped to the window, and every
    pixel that the window owns (the screen's ownership map names its slot there) is
    stored in the frame buffer at 32, 24 or 16 bits per pixel.  The rewriting of a pixel
    under a software mouse cursor is an assembly callback. *)

From stdpp Require Import base list sets.
From Stdlib Require Import ZArith Lia.
From S2P Require Import Prelude Layout Time Geometry.

(** ** Definitions *)

Definition BLIT_CLIENT_RELATIVE : Z := 0x20000000.
Definition PARAM_OFF_DST_X : Z := 0.
Definition PARAM_OFF_DST_Y : Z := 4.
Definition PARAM_OFF_W : Z := 8.
Definition PARAM_OFF_H : Z := 12.
Definition PARAM_OFF_SRC_X : Z := 16.
Definition PARAM_OFF_SRC_Y : Z := 20.
Definition PARAM_OFF_SRC_W : Z := 24.
Definition PARAM_OFF_SRC_H : Z := 28.
Definition PARAM_OFF_BITMAP : Z := 32.
Definition PARAM_OFF_STRIDE : Z := 36.
Definition PARAM_SIZE : Z := 40.

Record Blit32Ctx := mkCtx {
  win_left : Z; win_top : Z; win_width : Z; win_height : Z; client_left : Z; client_top : Z;
  slot_idx : Z; bpp : Z; display_width : Z; lfb_pitch : Z;
  win_map : Z; lfb_base : Z; bps_lut : Z; dwidth_lut : Z;
  select_cursor : Z; software_cursor : Z; check_mouse : Z
}.

Definition rotate_left32 (x k : Z) : Z := rotate_right32 x (32 - k).

(** The 16-bit store: [shr ah, 2], [shr ax, 3], [ror eax, 8], [add al, ah], [rol eax, 8]. *)
Definition fasm_pack_rgb565 (color : Z) : Z :=
  let eax := Z.land color 0x00F8FCF8 in
  let ah := Z.shiftr (Z.land (Z.shiftr eax 8) 0xff) 2 in
  let al := Z.land eax 0xff in
  let ax := Z.shiftr (Z.lor (Z.shiftl ah 8) al) 3 in
  let eax := Z.lor (Z.land eax 0xffff0000) ax in
  let eax := rotate_right32 eax 8 in
  let sum := u8 (u8 eax + u8 (Z.shiftr eax 8)) in
  let eax := Z.lor (Z.land eax 0xffffff00) sum in
  let eax := rotate_left32 eax 8 in
  u16 eax.

(** Five, six and five bits of red, green and blue. *)
Definition independent_pack_rgb565 (color : Z) : Z :=
  let r5 := Z.shiftr (Z.land (u16 (Z.shiftr color 16)) 0xF8) 3 in
  let g6 := Z.shiftr (Z.land (u16 (Z.shiftr color 8)) 0xFC) 2 in
  let b5 := Z.shiftr (Z.land (u16 color) 0xF8) 3 in
  Z.lor (Z.lor (u16 (Z.shiftl r5 11)) (u16 (Z.shiftl g6 5))) b5.

Definition lut_u32 (m : list Z) (lut y : Z) : run Z := ld32 m (lut + 4 * u32 y).

Section Blit.
(** The kernel routine at an address, on a colour and a position. *)
Context (check_mouse_fn : Z -> Z -> Z -> Z).

Definition invoke_kernel_check_mouse (fn_ptr color pos : Z) : Z :=
  if fn_ptr =? 0 then color else check_mouse_fn fn_ptr color pos.

Definition apply_mouse (software : bool) (color pos kernel_fn : Z) : Z :=
  if negb software then color else invoke_kernel_check_mouse kernel_fn color pos.

(** The three loops differ in the bytes per pixel and in the store. *)
Section Core.
Context (px : Z) (store : list Z -> Z -> Z -> run (list Z)).
Context (ctx : Blit32Ctx) (software : bool) (slot w out_x : Z).

(** State: memory, source address, frame buffer and map offsets, column. *)
Definition col_body (y : Z) (st : list Z * Z * Z * Z * Z) : run (list Z * Z * Z * Z * Z + list Z) :=
  let '(m, src, lfb_off, map_off, col) := st in
  if col <? w then
    owner ← ld8 m (win_map ctx + map_off);
    m ← (if owner =? slot then
           color ← ld32 m src;
           let pos := Z.lor (u32 (Z.shiftl (u32 (i32_add out_x col)) 16)) (Z.land (u32 y) 0xffff) in
           let color := apply_mouse software color pos (check_mouse ctx) in
           store m (lfb_base ctx + lfb_off) color
         else Done m);
    Done (inl (m, src + 4, lfb_off +ₘ px, map_off +ₘ 1, i32_add col 1))
  else Done (inr m).

Definition row_body (src_base stride h out_y : Z) (st : list Z * Z) : run (list Z * Z + list Z) :=
  let '(m, row) := st in
  if row <? h then
    let y := i32_add out_y row in
    b ← lut_u32 m (bps_lut ctx) y;
    let lfb_off := b +ₘ (u32 out_x *ₘ px) in
    d ← lut_u32 m (dwidth_lut ctx) y;
    let map_off := d +ₘ u32 out_x in
    let src := u32 (src_base + i32_mul row stride) in
    m ← loop (S (Z.to_nat w)) (col_body y) (m, src, lfb_off, map_off, 0);
    Done (inl (m, i32_add row 1))
  else Done (inr m).

Definition blit_core (m : list Z) (src_base stride h out_y : Z) : run (list Z) :=
  loop (S (Z.to_nat h)) (row_body src_base stride h out_y) (m, 0).
End Core.

Definition store_24 (m : list Z) (p color : Z) : run (list Z) :=
  m ← st8 m p (u8 color);
  m ← st8 m (p + 1) (u8 (Z.shiftr color 8));
  st8 m (p + 2) (u8 (Z.shiftr color 16)).

Definition blit_core_32 := blit_core 4 st32.
Definition blit_core_24 := blit_core 3 store_24.
Definition blit_core_16 := blit_core 2 (fun m p color => st16 m p (fasm_pack_rgb565 color)).

Definition blit_32 (m : list Z) (params flags : Z) (ctx : Blit32Ctx) (bitmap : Z) : run (list Z) :=
  p ← copy_out m params PARAM_SIZE;
  dst_x ← i32_le p PARAM_OFF_DST_X; dst_y ← i32_le p PARAM_OFF_DST_Y;
  w ← i32_le p PARAM_OFF_W; h ← i32_le p PARAM_OFF_H;
  src_x ← i32_le p PARAM_OFF_SRC_X; src_y ← i32_le p PARAM_OFF_SRC_Y;
  src_w ← i32_le p PARAM_OFF_SRC_W; src_h ← i32_le p PARAM_OFF_SRC_H;
  stride ← i32_le p PARAM_OFF_STRIDE;
  let geom := mkGeom (mkRect 0 0 (i32_add (win_width ctx) 1) (i32_add (win_height ctx) 1)) (mkRect 0 0 src_w src_h)
    dst_x dst_y src_x src_y w h in
  let clipped := blit_clip geom in
  if negb (blit_draw clipped) then Done m
  else
    let g := Geometry.geom clipped in
    if (Geometry.w g =? 0) || (Geometry.h g =? 0) then Done m
    else
      let out_x := i32_add (Geometry.dst_x g) (win_left ctx) in
      let out_y := i32_add (Geometry.dst_y g) (win_top ctx) in
      let '(out_x, out_y) :=
        if negb (Z.land flags BLIT_CLIENT_RELATIVE =? 0)
        then (i32_add out_x (client_left ctx), i32_add out_y (client_top ctx)) else (out_x, out_y) in
      let software := select_cursor ctx =? software_cursor ctx in
      let slot := u8 (slot_idx ctx) in
      let src_base := u32 (u32 (bitmap + i32_mul (Geometry.src_y g) stride) + i32_mul (Geometry.src_x g) 4) in
      if bpp ctx =? 32 then blit_core_32 ctx software slot (Geometry.w g) out_x m src_base stride (Geometry.h g) out_y
      else if bpp ctx =? 24 then blit_core_24 ctx software slot (Geometry.w g) out_x m src_base stride (Geometry.h g) out_y
      else blit_core_16 ctx software slot (Geometry.w g) out_x m src_base stride (Geometry.h g) out_y.

Definition blit_32_ptr (m : list Z) (params flags : Z) (ctx : Blit32Ctx) : run (list Z) :=
  p ← copy_out m params PARAM_SIZE;
  bitmap ← ld32 p PARAM_OFF_BITMAP;
  blit_32 m params flags ctx bitmap.

End Blit.

(** ** The 16-bit colour *)

(** A field of [n] bits from bit [k] on. *)
Definition field (c k n : Z) : Z := Z.shiftr c k mod 2 ^ n.

Lemma land_field c k n : 0 <= k -> 0 <= n -> Z.land c (Z.shiftl (2 ^ n - 1) k) = Z.shiftl (field c k n) k.
Proof.
  intros Hk Hn. unfold field. replace (2 ^ n - 1) with (Z.ones n) by (rewrite Z.ones_equiv; lia). apply Z.bits_inj'. intros i Hi.
  rewrite Z.land_spec, !Z.shiftl_spec by lia. destruct (Z.ltb_spec i k).
  - by rewrite !(Z.testbit_neg_r _ (i - k)), andb_false_r by lia.
  - destruct (Z.ltb_spec (i - k) n).
    + rewrite Z.ones_spec_low, Z.mod_pow2_bits_low, Z.shiftr_spec, andb_true_r by lia. f_equal. lia.
    + by rewrite Z.ones_spec_high, Z.mod_pow2_bits_high, andb_false_r by lia.
Qed.

Lemma field_range c k n : 0 <= n -> 0 <= field c k n < 2 ^ n.
Proof. intros. apply Z.mod_pos_bound. lia. Qed.

(** Five, six and five bits side by side. *)
Lemma join_fields r g b : 0 <= r < 32 -> 0 <= g < 64 -> 0 <= b < 32 ->
  Z.lor (Z.lor (Z.shiftl r 19) (Z.shiftl g 10)) (Z.shiftl b 3) = r * 2 ^ 19 + g * 2 ^ 10 + b * 2 ^ 3 /\
  Z.lor (Z.lor (u16 (Z.shiftl r 11)) (u16 (Z.shiftl g 5))) b = r * 2 ^ 11 + g * 2 ^ 5 + b.
Proof.
  intros Hr Hg Hb. rewrite !Z.shiftl_mul_pow2, !(wrap_small 16), <- !Z.lor_assoc by lia. split.
  - rewrite (lor_mul_add g _ 10), (lor_mul_add r _ 19); lia.
  - rewrite (lor_mul_add g _ 5), (lor_mul_add r _ 11); lia.
Qed.

Lemma masked_fields c : Z.land c 0x00F8FCF8 = field c 19 5 * 2 ^ 19 + field c 10 6 * 2 ^ 10 + field c 3 5 * 2 ^ 3.
Proof.
  rewrite <- (proj1 (join_fields (field c 19 5) (field c 10 6) (field c 3 5) (field_range _ _ 5 ltac:(lia)) (field_range _ _ 6 ltac:(lia)) (field_range _ _ 5 ltac:(lia)))).
  rewrite <- !land_field by lia. rewrite <- !Z.land_lor_distr_r. done.
Qed.

(** The shift sequence, step by step. *)
Lemma pack_steps color r g b : 0 <= r < 32 -> 0 <= g < 64 -> 0 <= b < 32 ->
  Z.land color 0x00F8FCF8 = r * 2 ^ 19 + g * 2 ^ 10 + b * 2 ^ 3 -> fasm_pack_rgb565 color = r * 2 ^ 11 + g * 2 ^ 5 + b.
Proof.
  intros Hr Hg Hb E. unfold fasm_pack_rgb565, rotate_left32, rotate_right32. cbv zeta. rewrite E. clear E.
  set (x := r * 2 ^ 19 + g * 2 ^ 10 + b * 2 ^ 3). rewrite !(land_mask _ 8 0xff) by (done || lia).
  assert (Z.shiftr (wrap 8 (Z.shiftr x 8)) 2 = g) as ->.
  { rewrite !shr_eq by lia. unfold wrap, x. replace ((r * 2 ^ 19 + g * 2 ^ 10 + b * 2 ^ 3) / 2 ^ 8) with (g * 2 ^ 2 + r * 2 ^ 3 * 2 ^ 8) by (Z.div_mod_to_equations; lia).
    rewrite Z.mod_add, Z.mod_small by lia. apply Z.div_mul. lia. }
  assert (wrap 8 x = b * 2 ^ 3) as ->. { unfold wrap, x. Z.div_mod_to_equations; lia. }
  rewrite (Z.shiftl_mul_pow2 g), (lor_mul_add g _ 8) by lia.
  assert (Z.shiftr (g * 2 ^ 8 + b * 2 ^ 3) 3 = g * 2 ^ 5 + b) as ->. { rewrite shr_eq by lia. Z.div_mod_to_equations; lia. }
  rewrite (set_low 32 16 x) by first [done | lia | unfold x; lia].
  assert (x / 2 ^ 16 * 2 ^ 16 + (g * 2 ^ 5 + b) = (r * 2 ^ 11 + g / 2 ^ 3) * 2 ^ 8 + (g * 2 ^ 5 + b) mod 2 ^ 8) as -> by (unfold x; Z.div_mod_to_equations; lia).
  set (lo := (g * 2 ^ 5 + b) mod 2 ^ 8). assert (0 <= lo < 256) as Hlo by (apply Z.mod_pos_bound; lia).
  set (hi := r * 2 ^ 11 + g / 2 ^ 3). assert (Hhi : hi = r * 2 ^ 11 + g / 2 ^ 3) by done. assert (0 <= g / 2 ^ 3 < 8) by (Z.div_mod_to_equations; lia).
  assert (Z.lor (Z.shiftr (hi * 2 ^ 8 + lo) 8) ((hi * 2 ^ 8 + lo) <<ₘ (32 - 8)) = lo * 2 ^ 24 + hi) as ->.
  { rewrite Z.lor_comm, shr_eq, shl32_eq by lia. replace ((hi * 2 ^ 8 + lo) / 2 ^ 8) with hi by (Z.div_mod_to_equations; lia).
    replace ((hi * 2 ^ 8 + lo) * 2 ^ (32 - 8)) with (lo * 2 ^ 24 + hi * 2 ^ 32) by lia. rewrite Z.mod_add, Z.mod_small by lia. apply lor_mul_add; lia. }
  set (z := lo * 2 ^ 24 + hi). assert (0 <= hi < 2 ^ 16) by lia.
  assert (u8 z = g / 2 ^ 3) as -> by (unfold wrap, z; Z.div_mod_to_equations; lia).
  assert (u8 (Z.shiftr z 8) = r * 2 ^ 3) as -> by (rewrite shr_eq by lia; unfold wrap, z; Z.div_mod_to_equations; lia).
  rewrite (wrap_small 8) by lia. rewrite (set_low 32 8 z) by first [done | lia | unfold z; lia].
  assert (z / 2 ^ 8 * 2 ^ 8 + (g / 2 ^ 3 + r * 2 ^ 3) = lo * 2 ^ 24 + (r * 2 ^ 3 * 2 ^ 8 + r * 2 ^ 3 + g / 2 ^ 3)) as -> by (unfold z; Z.div_mod_to_equations; lia).
  set (mid := r * 2 ^ 3 * 2 ^ 8 + r * 2 ^ 3 + g / 2 ^ 3). assert (0 <= mid < 2 ^ 16) by lia.
  assert (Z.shiftr (lo * 2 ^ 24 + mid) (32 - 8) = lo) as -> by (rewrite shr_eq by lia; Z.div_mod_to_equations; lia).
  rewrite shl32_eq by lia. replace ((lo * 2 ^ 24 + mid) * 2 ^ (32 - (32 - 8))) with (mid * 2 ^ 8 + lo * 2 ^ 32) by lia.
  rewrite Z.mod_add, Z.mod_small by lia. rewrite Z.lor_comm, lor_mul_add by lia. unfold wrap.
  replace (mid * 2 ^ 8 + lo) with (r * 2 ^ 11 + g / 2 ^ 3 * 2 ^ 8 + lo + r * 2 ^ 3 * 2 ^ 16) by lia.
  rewrite Z.mod_add, Z.mod_small by lia. unfold lo. Z.div_mod_to_equations; lia.
Qed.

(** One channel of the plain packing is a field of the colour. *)
Lemma channel color k n j mask : 0 <= j -> 0 <= n -> mask = Z.shiftl (2 ^ n - 1) j -> 0 <= k -> j + n <= 16 ->
  Z.shiftr (Z.land (u16 (Z.shiftr color k)) mask) j = field color (k + j) n.
Proof.
  intros Hj Hn -> Hk Hs. rewrite land_field, Z.shiftr_shiftl_l by lia. rewrite Z.sub_diag, Z.shiftl_0_r. unfold field, wrap.
  apply Z.bits_inj'. intros i Hi. destruct (Z.ltb_spec i n); [|by rewrite !Z.mod_pow2_bits_high by lia].
  rewrite !Z.mod_pow2_bits_low, !Z.shiftr_spec, Z.mod_pow2_bits_low, Z.shiftr_spec by lia. f_equal. lia.
Qed.

(** The shift sequence of the 16-bit store is the plain packing, for every colour. *)
Lemma pack_agrees color : fasm_pack_rgb565 color = independent_pack_rgb565 color.
Proof.
  pose proof (field_range color 19 5 ltac:(lia)) as R. pose proof (field_range color 10 6 ltac:(lia)) as G. pose proof (field_range color 3 5 ltac:(lia)) as B.
  rewrite (pack_steps _ _ _ _ R G B (masked_fields color)). unfold independent_pack_rgb565. cbv zeta.
  pose proof (channel color 0 5 3 248) as E. rewrite Z.shiftr_0_r in E.
  rewrite (channel color 16 5 3), (channel color 8 6 2), E by (done || lia).
  change (16 + 3) with 19. change (8 + 2) with 10. change (0 + 3) with 3. by rewrite (proj2 (join_fields _ _ _ R G B)).
Qed.

(** ** Painting *)

Section Paint.
Context (px : Z) (store : list Z -> Z -> Z -> run (list Z)) (enc : Z -> Z -> Z).
Context (Hpx : 0 < px).
Context (Hstore : forall m a c, 0 <= a -> a + px <= mlen m -> exists m', store m a c = Done m' /\ updated m m' a px (enc c)).
(** A screen of [W] by [H] pixels at [lfb], [pitch] bytes per row. *)
Context (lfb pitch W H : Z).
Context (Hpitch : W * px <= pitch) (Hlfb : 0 <= lfb).
Context (m0 : list Z) (Hroom : lfb + H * pitch <= mlen m0).
Context (colour : Z -> Z -> Z).

Definition on_screen (X Y : Z) : Prop := 0 <= X < W /\ 0 <= Y < H.
Definition pixel (X Y : Z) : Z := lfb + Y * pitch + X * px.
Definition owns (X Y a : Z) : Prop := pixel X Y <= a < pixel X Y + px.

Lemma pixel_bounds X Y : on_screen X Y -> lfb <= pixel X Y /\ pixel X Y + px <= lfb + H * pitch.
Proof. unfold on_screen, pixel. intros [? ?]. assert (X * px + px <= W * px) by nia. assert (Y * pitch + pitch <= H * pitch) by nia. nia. Qed.

Lemma owns_inj X Y X' Y' a : on_screen X Y -> on_screen X' Y' -> owns X Y a -> owns X' Y' a -> X = X' /\ Y = Y'.
Proof.
  unfold on_screen, owns, pixel. intros [HX HY] [HX' HY'] H1 H2.
  assert (X * px + px <= pitch) by nia. assert (X' * px + px <= pitch) by nia.
  assert (0 <= X * px) by nia. assert (0 <= X' * px) by nia.
  assert (Y = Y') as -> by nia. split; [nia|done].
Qed.

(** [m] is [m0] with the pixels of [P] painted in their colours and nothing else changed. *)
Definition painted (P : Z -> Z -> Prop) (m : list Z) : Prop :=
  mlen m = mlen m0 /\
  (forall X Y k, P X Y -> 0 <= k < px -> byte_at m (pixel X Y + k) = enc (colour X Y) k) /\
  (forall a, (forall X Y, P X Y -> ~ owns X Y a) -> byte_at m a = byte_at m0 a).

Lemma painted_none : painted (fun _ _ => False) m0.
Proof. split_and!; naive_solver. Qed.

Lemma painted_iff P Q m : (forall X Y, P X Y <-> Q X Y) -> painted P m -> painted Q m.
Proof.
  intros HPQ (L & A & B). split_and!; [done|intros X Y k HQ; by apply A, HPQ|]. intros a Ha. apply B. intros X Y HP. by apply Ha, HPQ.
Qed.

Lemma painted_step P m X Y : painted P m -> (forall X Y, P X Y -> on_screen X Y) -> on_screen X Y ->
  exists m', store m (pixel X Y) (colour X Y) = Done m' /\ painted (fun X' Y' => P X' Y' \/ X' = X /\ Y' = Y) m'.
Proof.
  intros (L & A & B) HP HXY. destruct (pixel_bounds X Y HXY) as [Hb0 Hb1].
  destruct (Hstore m (pixel X Y) (colour X Y)) as (m' & E & L' & U); [lia|lia|]. exists m'. split; [done|]. split_and!; [lia| |].
  - intros X' Y' k HP' Hk. rewrite U. destruct ((pixel X Y <=? pixel X' Y' + k) && (pixel X' Y' + k <? pixel X Y + px)) eqn:Ei.
    + assert (on_screen X' Y') as Hs by (destruct HP' as [HP'|[-> ->]]; [by apply HP|done]).
      destruct (owns_inj X' Y' X Y (pixel X' Y' + k)) as [-> ->]; [done|done|unfold owns; lia|unfold owns; lia|]. f_equal. lia.
    + destruct HP' as [HP'|[-> ->]]; [by apply A|lia].
  - intros a Ha. rewrite U. destruct ((pixel X Y <=? a) && (a <? pixel X Y + px)) eqn:Ei.
    + exfalso. apply (Ha X Y); [by right|]. unfold owns. lia.
    + apply B. intros X' Y' HP'. apply Ha. by left.
Qed.

(** Outside the frame buffer nothing changed. *)
Lemma painted_outside P m a : painted P m -> (forall X Y, P X Y -> on_screen X Y) -> a < lfb \/ lfb + H * pitch <= a ->
  byte_at m a = byte_at m0 a.
Proof.
  intros (_ & _ & B) HP Ha. apply B. intros X Y HXY. destruct (pixel_bounds X Y (HP _ _ HXY)). unfold owns. lia.
Qed.

Lemma painted_word P m a : painted P m -> (forall X Y, P X Y -> on_screen X Y) -> disjoint lfb (H * pitch) a 4 ->
  word_at m a = word_at m0 a.
Proof. intros Hp HP Hd. unfold disjoint in Hd. unfold word_at. by rewrite !(painted_outside P m _ Hp HP) by lia. Qed.
End Paint.

(** ** The loops *)

Section CoreProof.
Context (check_mouse_fn : Z -> Z -> Z -> Z).
Context (px : Z) (store : list Z -> Z -> Z -> run (list Z)) (enc : Z -> Z -> Z).
Context (Hpx : 0 < px).
Context (Hstore : forall m a c, 0 <= a -> a + px <= mlen m -> exists m', store m a c = Done m' /\ updated m m' a px (enc c)).
Context (ctx : Blit32Ctx) (software : bool) (slot : Z) (W H : Z) (m0 : list Z).
(** The tables give the offset of every row. *)
Context (Hbps : forall Y, 0 <= Y < H -> word_at m0 (bps_lut ctx + 4 * Y) = Y * lfb_pitch ctx).
Context (Hdw : forall Y, 0 <= Y < H -> word_at m0 (dwidth_lut ctx + 4 * Y) = Y * W).
Context (Hsep : separate (mlen m0) [(lfb_base ctx, H * lfb_pitch ctx); (win_map ctx, H * W); (bps_lut ctx, 4 * H); (dwidth_lut ctx, 4 * H)]).
Context (Hpitch : W * px <= lfb_pitch ctx) (HW : 0 <= W < 2 ^ 31) (HH : 0 <= H < 2 ^ 31) (Hmem : mlen m0 <= 2 ^ 32).
(** The rectangle drawn, and the bitmap it comes from. *)
Context (w h out_x out_y src_base stride : Z).
Context (Hx : 0 <= out_x /\ out_x + w <= W) (Hy : 0 <= out_y /\ out_y + h <= H) (Hw : 0 < w) (Hh : 0 <= h).
Context (Hsrc : forall r c, 0 <= r < h -> 0 <= c < w ->
  is_i32 (r * stride) /\ 0 <= src_base + r * stride < 2 ^ 32 /\ src_base + r * stride + 4 * c + 4 <= mlen m0 /\
  disjoint (lfb_base ctx) (H * lfb_pitch ctx) (src_base + r * stride + 4 * c) 4).

Definition screen_pos (X Y : Z) : Z := Z.lor (u32 (Z.shiftl (u32 X) 16)) (Z.land (u32 Y) 0xffff).

(** The colour of a pixel and whether the window owns it, both before the blit. *)
Definition blit_colour (X Y : Z) : Z :=
  apply_mouse check_mouse_fn software (word_at m0 (src_base + (Y - out_y) * stride + 4 * (X - out_x))) (screen_pos X Y) (check_mouse ctx).
Definition visible (X Y : Z) : Prop := byte_at m0 (win_map ctx + (Y * W + X)) = slot.

(** What is drawn when [row] rows and [col] pixels of the next are done. *)
Definition drawn (row col X Y : Z) : Prop :=
  visible X Y /\ out_x <= X < out_x + w /\ out_y <= Y /\ (Y < out_y + row \/ Y = out_y + row /\ X < out_x + col).

Notation paint := (painted px enc (lfb_base ctx) (lfb_pitch ctx) m0 blit_colour).

Lemma drawn_on_screen row col : row < h \/ row = h /\ col <= 0 -> forall X Y, drawn row col X Y -> on_screen W H X Y.
Proof. unfold drawn, on_screen. lia. Qed.

Lemma row_room : 0 <= lfb_pitch ctx.
Proof. destruct (Z.le_gt_cases W 0); nia. Qed.

Lemma screen_room : lfb_base ctx + H * lfb_pitch ctx <= mlen m0 /\ 0 <= lfb_base ctx.
Proof. destruct Hsep as (Hb & _). cbn in Hb. lia. Qed.

Lemma paint_map row col m X Y : row < h \/ row = h /\ col <= 0 -> on_screen W H X Y -> paint (drawn row col) m ->
  ld8 m (win_map ctx + (Y * W + X)) = Done (byte_at m0 (win_map ctx + (Y * W + X))).
Proof.
  intros Hr [HX HY] Hp. pose proof (proj1 Hp) as L. destruct Hsep as (Hb & (Hd & _) & Hb2 & _). cbn in Hb, Hd, Hb2.
  assert (0 <= Y * W + X < H * W) by nia. rewrite ld8_ok by lia. f_equal.
  eapply painted_outside; [exact Hpx|exact Hpitch|exact Hp|by apply drawn_on_screen|]. unfold disjoint in Hd. lia.
Qed.

Lemma paint_word row col m a : row < h \/ row = h /\ col <= 0 -> 0 <= a -> a + 4 <= mlen m0 ->
  disjoint (lfb_base ctx) (H * lfb_pitch ctx) a 4 -> paint (drawn row col) m -> ld32 m a = Done (word_at m0 a).
Proof.
  intros Hr Ha Hf Hd Hp. pose proof (proj1 Hp) as L. rewrite ld32_ok by lia. f_equal.
  eapply painted_word; [exact Hpx|exact Hpitch|exact Hp|by apply drawn_on_screen|done].
Qed.

(** The state of the inner loop at a column. *)
Definition col_state (row : Z) (m : list Z) (col : Z) : list Z * Z * Z * Z * Z :=
  (m, src_base + row * stride + 4 * col, u32 ((out_y + row) * lfb_pitch ctx + (out_x + col) * px), u32 ((out_y + row) * W + (out_x + col)), col).

Lemma col_step row col m : 0 <= row < h -> 0 <= col < w -> paint (drawn row col) m ->
  exists m', col_body check_mouse_fn px store ctx software slot w out_x (out_y + row) (col_state row m col) = Done (inl (col_state row m' (col + 1))) /\
    paint (drawn row (col + 1)) m'.
Proof.
  intros Hrow Hcol Hp. unfold col_body, col_state. replace (col <? w) with true by lia.
  destruct (screen_room) as [Hroom Hb]. destruct (Hsrc row col Hrow Hcol) as (_ & Hs0 & Hs1 & Hs2).
  assert (on_screen W H (out_x + col) (out_y + row)) as Hon by (unfold on_screen; lia).
  assert (0 <= (out_y + row) * W + (out_x + col) < H * W) as Hmap by (unfold on_screen in Hon; nia).
  destruct (pixel_bounds px Hpx (lfb_base ctx) (lfb_pitch ctx) W H Hpitch _ _ Hon) as [Hp0 Hp1].
  assert (H * W <= 2 ^ 32) as HHW. { destruct Hsep as (_ & _ & Hm & _). cbn in Hm. lia. }
  rewrite (wrap_small 32 ((out_y + row) * W + (out_x + col))) by lia.
  rewrite (wrap_small 32 ((out_y + row) * lfb_pitch ctx + (out_x + col) * px)) by (unfold pixel in *; lia).
  rewrite (paint_map row col m) by (done || lia). run_step.
  rewrite (i32_add_small out_x col), (i32_add_small col 1) by (unfold is_i32; lia).
  replace (lfb_base ctx + ((out_y + row) * lfb_pitch ctx + (out_x + col) * px))
    with (pixel px (lfb_base ctx) (lfb_pitch ctx) (out_x + col) (out_y + row)) by (unfold pixel; lia).
  assert (exists m', (if byte_at m0 (win_map ctx + ((out_y + row) * W + (out_x + col))) =? slot
           then color ← ld32 m (src_base + row * stride + 4 * col);
             store m (pixel px (lfb_base ctx) (lfb_pitch ctx) (out_x + col) (out_y + row))
               (apply_mouse check_mouse_fn software color (screen_pos (out_x + col) (out_y + row)) (check_mouse ctx))
           else Done m) = Done m' /\ paint (drawn row (col + 1)) m') as (m' & E & Hp').
  { destruct (Z.eqb_spec (byte_at m0 (win_map ctx + ((out_y + row) * W + (out_x + col)))) slot) as [Hv|Hv].
    - rewrite (paint_word row col m) by (done || lia). run_step.
      destruct (painted_step px store enc Hpx Hstore (lfb_base ctx) (lfb_pitch ctx) W H Hpitch Hb m0 Hroom blit_colour
        (drawn row col) m (out_x + col) (out_y + row) Hp) as (m' & E & Hp'); [by apply drawn_on_screen; lia|done|].
      exists m'. split.
      + rewrite <- E. f_equal. unfold blit_colour. replace (out_y + row - out_y) with row by lia. by replace (out_x + col - out_x) with col by lia.
      + eapply painted_iff; [|exact Hp']. intros X Y. unfold drawn, visible. split.
        * intros [(? & ?)|[-> ->]]; [split; [done|lia]|]. split; [exact Hv|lia].
        * intros (Hvis & ? & ? & ?). destruct (decide (X = out_x + col /\ Y = out_y + row)) as [?|]; [by right|left; split; [done|lia]].
    - exists m. split; [done|]. eapply painted_iff; [|exact Hp]. intros X Y. unfold drawn, visible. split.
      + intros (? & ?). split; [done|lia].
      + intros (Hvis & ? & ? & ?). split; [done|]. assert (~ (X = out_x + col /\ Y = out_y + row)) by (intros [-> ->]; done). lia. }
  exists m'. split; [|done]. unfold screen_pos in E. rewrite E. run_step. unfold col_state.
  replace (src_base + row * stride + 4 * col + 4) with (src_base + row * stride + 4 * (col + 1)) by lia.
  replace ((out_y + row) * lfb_pitch ctx + (out_x + col) * px + px) with ((out_y + row) * lfb_pitch ctx + (out_x + (col + 1)) * px) by lia.
  by replace ((out_y + row) * W + (out_x + col) + 1) with ((out_y + row) * W + (out_x + (col + 1))) by lia.
Qed.

Lemma row_loop row m : 0 <= row < h -> paint (drawn row 0) m ->
  exists m', loop (S (Z.to_nat w)) (col_body check_mouse_fn px store ctx software slot w out_x (out_y + row)) (col_state row m 0) = Done m' /\
    paint (drawn (row + 1) 0) m'.
Proof.
  intros Hrow Hp.
  apply (loop_total (fun st => exists m1 col, st = col_state row m1 col /\ 0 <= col <= w /\ paint (drawn row col) m1)
    (fun st => Z.to_nat (w - st.2))).
  - intros st (m1 & col & -> & Hcol & Hp1). destruct (decide (col = w)) as [->|].
    + exists (inr m1). split; [unfold col_body, col_state; by rewrite Z.ltb_irrefl|].
      eapply painted_iff; [|exact Hp1]. intros X Y. unfold drawn. split; intros (? & ?); (split; [done|lia]).
    + destruct (col_step row col m1) as (m2 & E & Hp2); [done|lia|done|]. exists (inl (col_state row m2 (col + 1))).
      split; [done|]. split; [exists m2, (col + 1); split_and!; [done|lia|lia|done]|]. cbn. lia.
  - exists m, 0. split_and!; [done|lia|lia|done].
  - cbn. lia.
Qed.

Lemma lut_reads m row lut v : 0 <= row < h -> paint (drawn row 0) m ->
  word_at m0 (lut + 4 * (out_y + row)) = v -> 0 <= lut -> lut + 4 * H <= mlen m0 -> disjoint (lfb_base ctx) (H * lfb_pitch ctx) lut (4 * H) ->
  lut_u32 m lut (out_y + row) = Done v.
Proof.
  intros Hrow Hp <- H0 H1 Hd. unfold lut_u32. rewrite (wrap_small 32) by lia. apply (paint_word row 0); [lia|lia|lia| |done].
  unfold disjoint in *. lia.
Qed.

Theorem blit_core_ok :
  exists m', blit_core check_mouse_fn px store ctx software slot w out_x m0 src_base stride h out_y = Done m' /\ paint (drawn h 0) m'.
Proof.
  unfold blit_core. apply (loop_total (fun st => 0 <= st.2 <= h /\ paint (drawn st.2 0) st.1) (fun st => Z.to_nat (h - st.2))).
  - intros [m row] [Hrow Hp]. cbn [fst snd] in *. unfold row_body. destruct (decide (row = h)) as [->|].
    + rewrite Z.ltb_irrefl. by exists (inr m).
    + assert (0 <= row < h) as Hr by lia. replace (row <? h) with true by lia.
      rewrite (i32_add_small out_y row), (i32_add_small row 1) by (unfold is_i32; lia).
      destruct Hsep as ((H0 & H1) & (Hd1 & Hd2 & Hd3 & _) & H2 & _ & H3 & _ & H4 & _). cbn in H0, H1, Hd1, Hd2, Hd3, H2, H3, H4.
      rewrite (lut_reads m row (bps_lut ctx) _ Hr Hp (Hbps (out_y + row) ltac:(lia))) by (done || lia). run_step.
      rewrite (lut_reads m row (dwidth_lut ctx) _ Hr Hp (Hdw (out_y + row) ltac:(lia))) by (done || lia). run_step.
      destruct (row_loop row m Hr Hp) as (m' & E & Hp'). exists (inl (m', row + 1)).
      destruct (Hsrc row 0 Hr ltac:(lia)) as (Hi & Hs & _).
      rewrite (i32_mul_small row stride Hi), (wrap_small 32 (src_base + row * stride) Hs).
      replace (m, src_base + row * stride, _, _, 0) with (col_state row m 0).
      * rewrite E. run_step. cbn. split; [done|]. split; [split; [lia|done]|]. lia.
      * unfold col_state. rewrite (wrap_small 32 out_x) by lia. rewrite !Z.add_0_r. by rewrite wrap_add_r.
  - split; [cbn; lia|]. eapply painted_iff; [|apply painted_none]. intros X Y. unfold drawn. cbn. lia.
  - cbn. lia.
Qed.
End CoreProof.

(** ** Depths *)

Definition px_size (bpp : Z) : Z := if bpp =? 32 then 4 else if bpp =? 24 then 3 else 2.

Definition depth_store (bpp : Z) : list Z -> Z -> Z -> run (list Z) :=
  if bpp =? 32 then st32 else if bpp =? 24 then store_24 else fun m p color => st16 m p (fasm_pack_rgb565 color).

(** Byte [k] of a pixel: the colour's, or those of the packed colour. *)
Definition encoding (bpp color k : Z) : Z :=
  if (bpp =? 32) || (bpp =? 24) then byte_of color k else byte_of (independent_pack_rgb565 color) k.

Lemma px_size_pos bpp : 0 < px_size bpp.
Proof. unfold px_size. destruct (bpp =? 32), (bpp =? 24); lia. Qed.

Lemma store_24_ok m a c : 0 <= a -> a + 3 <= mlen m -> exists m', store_24 m a c = Done m' /\ updated m m' a 3 (byte_of c).
Proof.
  intros Ha Hf. unfold store_24.
  destruct (updated_st8 m m a 0 (byte_of c) (byte_of c 0)) as (m1 & E1 & H1); [lia..|apply updated_refl|done|].
  destruct (updated_st8 m m1 a 1 (byte_of c) (byte_of c 1)) as (m2 & E2 & H2); [lia..|exact H1|done|].
  destruct (updated_st8 m m2 a 2 (byte_of c) (byte_of c 2)) as (m3 & E3 & H3); [lia..|exact H2|done|].
  rewrite Z.add_0_r in E1. exists m3. unfold byte_of in *. change (8 * 0) with 0 in E1. rewrite Z.shiftr_0_r in E1.
  change (8 * 1) with 8 in E2. change (8 * 2) with 16 in E3. rewrite E1. run_step. rewrite E2. run_step. by rewrite E3.
Qed.

Lemma depth_store_ok bpp m a c : 0 <= a -> a + px_size bpp <= mlen m ->
  exists m', depth_store bpp m a c = Done m' /\ updated m m' a (px_size bpp) (encoding bpp c).
Proof.
  unfold depth_store, px_size, encoding. destruct (bpp =? 32); cbn [orb]; intros Ha Hf; [|destruct (bpp =? 24)].
  - exists (write32 m a c). split; [by apply st32_ok|]. split; [apply mlen_write32|]. intros b. rewrite byte_at_write32 by done. done.
  - by apply store_24_ok.
  - rewrite pack_agrees. by apply st16_ok.
Qed.

(** ** The whole call *)

(** The parameter block of the call. *)
Definition param_bytes (g : BlitterGeom) (bitmap stride : Z) : list Z :=
  i32_bytes (dst_x g) ++ i32_bytes (dst_y g) ++ i32_bytes (w g) ++ i32_bytes (h g) ++ i32_bytes (src_x g) ++ i32_bytes (src_y g) ++
  i32_bytes (right (sc g)) ++ i32_bytes (bottom (sc g)) ++ i32_bytes bitmap ++ i32_bytes stride.

(** The request is clipped to the window and to the bitmap. *)
Record request (ctx : Blit32Ctx) (g : BlitterGeom) : Prop := {
  request_dc : dc g = mkRect 0 0 (win_width ctx + 1) (win_height ctx + 1);
  request_sc : sc g = mkRect 0 0 (right (sc g)) (bottom (sc g));
  request_modest : modest_geom g;
  request_sizes : sizes_ok g
}.

(** The screen in memory: row tables, ownership map and frame buffer, apart from one another. *)
Record screen (m : list Z) (ctx : Blit32Ctx) (H : Z) : Prop := {
  screen_bps Y : 0 <= Y < H -> word_at m (bps_lut ctx + 4 * Y) = Y * lfb_pitch ctx;
  screen_dwidth Y : 0 <= Y < H -> word_at m (dwidth_lut ctx + 4 * Y) = Y * display_width ctx;
  screen_apart : separate (mlen m) [(lfb_base ctx, H * lfb_pitch ctx); (win_map ctx, H * display_width ctx); (bps_lut ctx, 4 * H); (dwidth_lut ctx, 4 * H)];
  screen_pitch : display_width ctx * px_size (bpp ctx) <= lfb_pitch ctx;
  screen_width : 0 <= display_width ctx < 2 ^ 31;
  screen_height : 0 <= H < 2 ^ 31;
  screen_memory : mlen m <= 2 ^ 32
}.

(** Where the window's pixel 0, 0 is. *)
Definition origin_x (flags : Z) (ctx : Blit32Ctx) : Z := win_left ctx + if Z.land flags BLIT_CLIENT_RELATIVE =? 0 then 0 else client_left ctx.
Definition origin_y (flags : Z) (ctx : Blit32Ctx) : Z := win_top ctx + if Z.land flags BLIT_CLIENT_RELATIVE =? 0 then 0 else client_top ctx.

Record window_fits (flags : Z) (ctx : Blit32Ctx) (H : Z) : Prop := {
  fits_x : 0 <= origin_x flags ctx /\ origin_x flags ctx + (win_width ctx + 1) <= display_width ctx;
  fits_y : 0 <= origin_y flags ctx /\ origin_y flags ctx + (win_height ctx + 1) <= H;
  fits_modest : modest (win_left ctx) /\ modest (win_top ctx) /\ modest (client_left ctx) /\ modest (client_top ctx)
}.

(** Every pixel of the bitmap can be read and is not in the frame buffer. *)
Definition bitmap_ok (m : list Z) (ctx : Blit32Ctx) (H : Z) (g : BlitterGeom) (bitmap stride : Z) : Prop :=
  forall sx sy, in_rect (sc g) sx sy -> is_i32 (sy * stride) /\ 0 <= bitmap + sy * stride /\ bitmap + sy * stride + 4 * sx + 4 <= mlen m /\
    disjoint (lfb_base ctx) (H * lfb_pitch ctx) (bitmap + sy * stride + 4 * sx) 4.

Lemma i32_le_at p a z bs : stored p a (i32_bytes z ++ bs) -> is_i32 z -> i32_le p a = Done z /\ stored p (a + 4) bs.
Proof. intros [S1 S2]%stored_app Hz. split; [by apply i32_le_ok|exact S2]. Qed.

Lemma ld32_field p a z bs : stored p a (i32_bytes z ++ bs) -> 0 <= z < 2 ^ 32 -> ld32 p a = Done z /\ stored p (a + 4) bs.
Proof.
  intros [(H0 & Hf & Hb) S2]%stored_app Hz. split; [|exact S2]. change (mlen (i32_bytes z)) with 4 in *. rewrite ld32_ok by done. f_equal.
  unfold word_at. rewrite <- (Z.add_0_r a) at 1. rewrite !Hb by lia. by apply le4_split.
Qed.

Section Call.
Context (check_mouse_fn : Z -> Z -> Z -> Z) (m : list Z) (flags : Z) (ctx : Blit32Ctx) (H : Z) (g : BlitterGeom) (bitmap stride : Z).
Context (Hreq : request ctx g) (Hscr : screen m ctx H) (Hfit : window_fits flags ctx H) (Hbmp : bitmap_ok m ctx H g bitmap stride).
Context (Hb : 0 <= bitmap < 2 ^ 32).

(** The screen pixel [X, Y] gets the pixel [sx, sy] of the bitmap. *)
Definition shows (X Y sx sy : Z) : Prop :=
  byte_at m (win_map ctx + (Y * display_width ctx + X)) = u8 (slot_idx ctx) /\
  moves g sx sy (X - origin_x flags ctx) (Y - origin_y flags ctx) /\ in_rect (sc g) sx sy /\ in_rect (dc g) (X - origin_x flags ctx) (Y - origin_y flags ctx).

Definition shown_colour (X Y : Z) : Z :=
  apply_mouse check_mouse_fn (select_cursor ctx =? software_cursor ctx)
    (word_at m (bitmap + (Y - origin_y flags ctx - dst_y g + src_y g) * stride + 4 * (X - origin_x flags ctx - dst_x g + src_x g)))
    (screen_pos X Y) (check_mouse ctx).

Notation paint := (painted (px_size (bpp ctx)) (encoding (bpp ctx)) (lfb_base ctx) (lfb_pitch ctx) m).

(** The loops, on a clipped request. *)
Lemma blit_clipped g' : 0 < w g' -> 0 < h g' ->
  (forall sx sy dx dy, moves g' sx sy dx dy <-> moves g sx sy dx dy /\ in_rect (sc g) sx sy /\ in_rect (dc g) dx dy) ->
  exists m', blit_core check_mouse_fn (px_size (bpp ctx)) (depth_store (bpp ctx)) ctx (select_cursor ctx =? software_cursor ctx) (u8 (slot_idx ctx))
      (w g') (dst_x g' + origin_x flags ctx) m (u32 (u32 (bitmap + i32_mul (src_y g') stride) + i32_mul (src_x g') 4)) stride (h g')
      (dst_y g' + origin_y flags ctx) = Done m' /\
    paint shown_colour (fun X Y => exists sx sy, shows X Y sx sy) m'.
Proof.
  intros Hw Hh Hmv. destruct Hreq as [Hdc Hsc Hmod _], Hscr as [S1 S2 S3 S4 S5 S6 S7], Hfit as [[F1 F2] [F3 F4] _].
  destruct (proj1 (Hmv (src_x g') (src_y g') (dst_x g') (dst_y g'))) as (M0 & I0 & D0); [unfold moves; lia|].
  destruct (proj1 (Hmv (src_x g' + (w g' - 1)) (src_y g' + (h g' - 1)) (dst_x g' + (w g' - 1)) (dst_y g' + (h g' - 1)))) as (M1 & I1 & D1); [unfold moves; lia|].
  destruct (Hbmp _ _ I0) as (B0 & B1 & B2 & _).
  assert (src_x g' = dst_x g' - dst_x g + src_x g /\ src_y g' = dst_y g' - dst_y g + src_y g) as [Ex Ey] by (unfold moves in M0; lia).
  assert (0 <= src_x g' /\ 0 <= src_y g' /\ is_i32 (src_x g' * 4)) as (Hsx & Hsy & Hi).
  { rewrite Hsc in I0. destruct Hmod as (_ & (_ & _ & Hr & _) & _). unfold in_rect in I0. cbn in I0. unfold is_i32, modest in *. lia. }
  assert (u32 (u32 (bitmap + i32_mul (src_y g') stride) + i32_mul (src_x g') 4) = bitmap + src_y g' * stride + 4 * src_x g') as ->.
  { rewrite (i32_mul_small _ _ B0), (i32_mul_small _ _ Hi). rewrite wrap_add_l. rewrite wrap_small by lia. lia. }
  destruct (blit_core_ok check_mouse_fn _ (depth_store (bpp ctx)) (encoding (bpp ctx)) (px_size_pos _) (depth_store_ok (bpp ctx)) ctx
    (select_cursor ctx =? software_cursor ctx) (u8 (slot_idx ctx)) (display_width ctx) H m S1 S2 S3 S4 S5 S6 S7
    (w g') (h g') (dst_x g' + origin_x flags ctx) (dst_y g' + origin_y flags ctx) (bitmap + src_y g' * stride + 4 * src_x g') stride)
    as (m' & E & Hp); [|..].
  - rewrite Hdc in D0, D1. unfold in_rect in D0, D1. cbn in D0, D1. lia.
  - rewrite Hdc in D0, D1. unfold in_rect in D0, D1. cbn in D0, D1. lia.
  - done.
  - lia.
  - intros r c Hr Hc.
    destruct (proj1 (Hmv (src_x g' + c) (src_y g' + r) (dst_x g' + c) (dst_y g' + r))) as (_ & I2 & _); [unfold moves; lia|].
    destruct (Hbmp _ _ I2) as (_ & C1 & C2 & C3).
    destruct (Hbmp (src_x g') r) as (R0 & _).
    { rewrite Hsc in I0, I1 |- *. unfold in_rect in I0, I1 |- *. cbn in I0, I1 |- *. lia. }
    replace (bitmap + src_y g' * stride + 4 * src_x g' + r * stride) with (bitmap + (src_y g' + r) * stride + 4 * src_x g') by lia.
    replace (bitmap + (src_y g' + r) * stride + 4 * src_x g' + 4 * c) with (bitmap + (src_y g' + r) * stride + 4 * (src_x g' + c)) by lia.
    split_and!; [exact R0|lia|lia|lia|exact C3].
  - exists m'. split; [exact E|].
    assert (forall X Y, blit_colour check_mouse_fn ctx (select_cursor ctx =? software_cursor ctx) m (dst_x g' + origin_x flags ctx) (dst_y g' + origin_y flags ctx)
        (bitmap + src_y g' * stride + 4 * src_x g') stride X Y = shown_colour X Y) as Hcol.
    { intros X Y. unfold blit_colour, shown_colour. do 2 f_equal. rewrite Ex, Ey. lia. }
    destruct Hp as (L & P1 & P2). split_and!; [exact L| |].
    + intros X Y k (sx & sy & Hv & Hs) Hk. rewrite <- Hcol. apply P1; [|done]. apply Hmv in Hs. unfold drawn, visible. split; [exact Hv|].
      clear -Hs. unfold moves in Hs. lia.
    + intros a Ha. apply P2. intros X Y (Hv & Hd). apply Ha.
      exists (X - origin_x flags ctx - dst_x g' + src_x g'), (Y - origin_y flags ctx - dst_y g' + src_y g'). split; [exact Hv|]. apply Hmv.
      clear -Hd. unfold moves. lia.
Qed.

(** One of the three copies of the loops runs, by the depth. *)
Lemma depth_loops software slot w out_x src_base h out_y :
  (if bpp ctx =? 32 then blit_core_32 check_mouse_fn ctx software slot w out_x m src_base stride h out_y
   else if bpp ctx =? 24 then blit_core_24 check_mouse_fn ctx software slot w out_x m src_base stride h out_y
   else blit_core_16 check_mouse_fn ctx software slot w out_x m src_base stride h out_y) =
  blit_core check_mouse_fn (px_size (bpp ctx)) (depth_store (bpp ctx)) ctx software slot w out_x m src_base stride h out_y.
Proof. unfold px_size, depth_store. by destruct (bpp ctx =? 32), (bpp ctx =? 24). Qed.

Lemma blit_request params :
  is_i32 stride -> stored m params (param_bytes g bitmap stride) ->
  exists m', blit_32_ptr check_mouse_fn m params flags ctx = Done m' /\
    paint shown_colour (fun X Y => exists sx sy, shows X Y sx sy) m'.
Proof.
  intros Hst Hp. unfold blit_32_ptr, blit_32. pose proof (copy_out_stored _ _ _ Hp : copy_out m params PARAM_SIZE = _) as ->. run_step.
  pose proof Hreq as [Hdc Hsc Hmod Hsz]. pose proof (modest_is_geom g Hmod) as (_ & (_ & _ & G1 & G2) & G3 & G4 & G5 & G6 & G7 & G8).
  pose proof (stored_self (param_bytes g bitmap stride)) as S. unfold param_bytes in S at 2.
  apply i32_le_at in S as [R1 S]; [|done]. apply i32_le_at in S as [R2 S]; [|done]. apply i32_le_at in S as [R3 S]; [|done].
  apply i32_le_at in S as [R4 S]; [|done]. apply i32_le_at in S as [R5 S]; [|done]. apply i32_le_at in S as [R6 S]; [|done].
  apply i32_le_at in S as [R7 S]; [|done]. apply i32_le_at in S as [R8 S]; [|done]. apply ld32_field in S as [R9 S]; [|done].
  rewrite <- (app_nil_r (i32_bytes stride)) in S. apply i32_le_at in S as [R10 _]; [|done].
  unfold PARAM_OFF_BITMAP, PARAM_OFF_DST_X, PARAM_OFF_DST_Y, PARAM_OFF_W, PARAM_OFF_H, PARAM_OFF_SRC_X, PARAM_OFF_SRC_Y, PARAM_OFF_SRC_W,
    PARAM_OFF_SRC_H, PARAM_OFF_STRIDE.
  change (0 + 4 + 4 + 4 + 4 + 4 + 4 + 4 + 4 + 4) with 36 in R10. change (0 + 4 + 4 + 4 + 4 + 4 + 4 + 4 + 4) with 32 in R9. change (0 + 4 + 4 + 4 + 4 + 4 + 4 + 4) with 28 in R8. change (0 + 4 + 4 + 4 + 4 + 4 + 4) with 24 in R7. change (0 + 4 + 4 + 4 + 4 + 4) with 20 in R6. change (0 + 4 + 4 + 4 + 4) with 16 in R5. change (0 + 4 + 4 + 4) with 12 in R4. change (0 + 4 + 4) with 8 in R3.
  change (0 + 4) with 4 in R2.
  rewrite R9. run_step. rewrite R1. run_step. rewrite R2. run_step. rewrite R3. run_step. rewrite R4. run_step. rewrite R5. run_step.
  rewrite R6. run_step. rewrite R7. run_step. rewrite R8. run_step. rewrite R10. run_step. clear R1 R2 R3 R4 R5 R6 R7 R8 R9 R10.
  pose proof Hmod as ((_ & _ & W1 & W2) & _). rewrite Hdc in W1, W2. cbn in W1, W2.
  rewrite !(i32_add_small _ 1) by (unfold is_i32, modest in *; lia). rewrite <- Hdc, <- Hsc.
  replace (mkGeom (dc g) (sc g) (dst_x g) (dst_y g) (src_x g) (src_y g) (w g) (h g)) with g by by destruct g.
  pose proof (blit_clip_ok g Hmod) as Hok. cbv zeta in Hok.
  destruct (blit_draw (blit_clip g)); cbn [negb].
  2:{ exists m. split; [done|]. eapply painted_iff; [|apply painted_none]. intros X Y. cbn beta. split; [done|]. intros (sx & sy & _ & Hs). by eapply (proj2 Hok). }
  destruct Hok as (Hmv & _ & _ & Hsize). set (g' := geom (blit_clip g)) in *. destruct (Hsize Hsz) as [Hw Hh].
  destruct ((w g' =? 0) || (h g' =? 0)) eqn:Ez.
  { exists m. split; [done|]. eapply painted_iff; [|apply painted_none]. intros X Y. cbn beta. split; [done|].
    intros (sx & sy & _ & Hs). apply Hmv in Hs. unfold moves in Hs. lia. }
  destruct (blit_clipped g') as (m' & E & Hpt); [lia|lia|exact Hmv|]. exists m'. split; [|exact Hpt].
  rewrite <- E. clear E Hpt.
  destruct (proj1 (Hmv (src_x g') (src_y g') (dst_x g') (dst_y g'))) as (_ & _ & D0); [unfold moves; lia|].
  rewrite Hdc in D0. unfold in_rect in D0. cbn [left top right bottom] in D0. destruct Hfit as [_ _ (F1 & F2 & F3 & F4)].
  unfold modest in *. rewrite (i32_add_small (dst_x g') (win_left ctx)), (i32_add_small (dst_y g') (win_top ctx)) by (unfold is_i32; lia).
  unfold origin_x, origin_y. rewrite !Z.add_assoc. destruct (Z.land flags BLIT_CLIENT_RELATIVE =? 0); cbn [negb].
  - rewrite !Z.add_0_r. by rewrite depth_loops.
  - rewrite !(i32_add_small (_ + _)) by (unfold is_i32; lia). by rewrite depth_loops.
Qed.
End Call.

(** ** Theorem *)


(** A 24-bit screen of four by three pixels: frame buffer at 0, ownership map at 36, row
    tables at 48 and 60, a bitmap of two by two pixels at 72 and the parameters at 88. *)
Definition tiny_ctx (left client : Z) : Blit32Ctx :=
  mkCtx left 1 1 1 client 0 7 24 4 12 36 0 48 60 1 0 0.
Definition tiny_geom : BlitterGeom := mkGeom (mkRect 0 0 2 2) (mkRect 0 0 2 2) 0 0 0 0 2 2.
Definition tiny_memory (owned : list Z) : list Z :=
  replicate 36 0 ++ owned ++ (i32_bytes 0 ++ i32_bytes 12 ++ i32_bytes 24) ++ (i32_bytes 0 ++ i32_bytes 4 ++ i32_bytes 8) ++
  [1; 2; 3; 0; 4; 5; 6; 0; 7; 8; 9; 0; 10; 11; 12; 0] ++ param_bytes tiny_geom 72 8.

(** The right pixel of the window's first row belongs to another window. *)
Definition tiny_owned : list Z := [0; 0; 0; 0; 0; 7; 2; 0; 0; 7; 7; 0].

Lemma tiny_screen : screen (tiny_memory tiny_owned) (tiny_ctx 1 0) 3.
Proof.
  split; try (intros Y HY; assert (Y = 0 \/ Y = 1 \/ Y = 2) as [-> | [-> | ->]] by lia; by vm_compute); try (by vm_compute).
  by apply (bool_decide_unpack _); vm_compute.
Qed.

Lemma tiny_bitmap : bitmap_ok (tiny_memory tiny_owned) (tiny_ctx 1 0) 3 tiny_geom 72 8.
Proof.
  intros sx sy Hin. unfold in_rect, tiny_geom in Hin. cbn in Hin. change (mlen (tiny_memory tiny_owned)) with 128.
  unfold is_i32, disjoint. cbn [tiny_ctx lfb_base lfb_pitch]. lia.
Qed.


(** The clip rectangle of a client-relative blit is the whole window, not moved by the
    client offset: a bitmap as wide as the window, in a window at the right edge of the
    screen, ends on the next row's left edge. *)
Lemma blit_client_relative_overflow :
  exists m', blit_32_ptr (fun _ c _ => c) (tiny_memory (replicate 12 7)) 88 BLIT_CLIENT_RELATIVE (tiny_ctx 2 1) = Done m' /\
    byte_at (tiny_memory (replicate 12 7)) 24 = 0 /\ byte_at m' 24 = 4.
Proof. eexists. split; [by vm_compute|]. by split; vm_compute. Qed.
