(* ===== verification/Window.v ===== *)
(** * Window geometry

    [window.rs]: [check_window_position] moves a window's box onto the screen, and
    [set_window_clientbox] derives the client area from the box, the style and the table of
    border widths.  A box is four signed words; sizes are compared unsigned. *)

From stdpp Require Import base list sets.
From Stdlib Require Import ZArith Lia.
From S2P Require Import Prelude Layout Geometry.

(** ** Definitions *)

Definition WSTYLE_CLIENTRELATIVE : Z := 0x20.
Definition WDATA_FL_WSTYLE_OFF : Z := 19.
Definition WDATA_CLIENTBOX_OFF : Z := 32.
Definition WINDOW_TOPLEFT_DEFAULT : list Z := [1; 21; 0; 0; 5; 20; 5; 0; 5; 0].

Record WindowBox := mkBox { box_left : Z; box_top : Z; box_width : Z; box_height : Z }.

Definition box_bytes (b : WindowBox) : list Z :=
  i32_bytes (box_left b) ++ i32_bytes (box_top b) ++ i32_bytes (box_width b) ++ i32_bytes (box_height b).

Definition box_of_bytes (b : list Z) : run WindowBox :=
  l ← i32_le b 0; t ← i32_le b 4; w ← i32_le b 8; h ← i32_le b 12; Done (mkBox l t w h).

Definition check_window_position (box_ : WindowBox) (display_width display_height : Z) : WindowBox :=
  let left := box_left box_ in let top := box_top box_ in
  let width := box_width box_ in let height := box_height box_ in
  let width := if u32 display_width <=? u32 width then i32_sub display_width 1 else width in
  let left :=
    if left <? 0 then 0
    else
      let right := i32_add left width in
      if display_width <=? right then i32_sub (i32_sub display_width width) 1 else left in
  let height := if u32 display_height <=? u32 height then i32_sub display_height 1 else height in
  let top :=
    if top <? 0 then 0
    else
      let bottom := i32_add top height in
      if display_height <=? bottom then i32_sub (i32_sub display_height height) 1 else top in
  mkBox left top width height.

Definition check_window_position_ptr (m : list Z) (box_ptr display_width display_height : Z) : run (list Z) :=
  b ← copy_out m box_ptr 16;
  box_ ← box_of_bytes b;
  store_bytes m box_ptr (box_bytes (check_window_position box_ display_width display_height)).

Record SetWindowClientboxResult := mkClientbox { clientbox : WindowBox; topleft : list Z }.

(** Indexing the table panics past its ten entries. *)
Definition set_window_clientbox (box_ : WindowBox) (fl_wstyle skinh : Z) (tl : list Z) : run SetWindowClientboxResult :=
  let tl := <[9%nat := skinh]> (<[7%nat := skinh]> tl) in
  if Z.land fl_wstyle WSTYLE_CLIENTRELATIVE =? 0
  then Done (mkClientbox (mkBox 0 0 (box_width box_) (box_height box_)) tl)
  else
    let style := Z.land fl_wstyle 0x0F in
    left ← ld8 tl (style * 2);
    top ← ld8 tl (style * 2 + 1);
    let width := i32_add (i32_sub (box_width box_) (i32_mul left 2)) 1 in
    let height := i32_add (i32_sub (i32_sub (box_height box_) top) left) 1 in
    Done (mkClientbox (mkBox left top width height) tl).

Definition set_window_clientbox_ptr (m : list Z) (wdata skinh window_topleft : Z) : run (list Z) :=
  m ← store_bytes m (window_topleft + 4 * 7) (i32_bytes skinh);
  m ← store_bytes m (window_topleft + 4 * 9) (i32_bytes skinh);
  b ← copy_out m wdata 16;
  box_ ← box_of_bytes b;
  fl_wstyle ← ld8 m (wdata + WDATA_FL_WSTYLE_OFF);
  client ←
    (if Z.land fl_wstyle WSTYLE_CLIENTRELATIVE =? 0 then Done (mkBox 0 0 (box_width box_) (box_height box_))
     else
       let style := Z.land fl_wstyle 0x0F in
       left ← i32_le m (window_topleft + 4 * (style * 2));
       top ← i32_le m (window_topleft + 4 * (style * 2 + 1));
       let width := i32_add (i32_sub (box_width box_) (i32_mul left 2)) 1 in
       let height := i32_add (i32_sub (i32_sub (box_height box_) top) left) 1 in
       Done (mkBox left top width height));
  store_bytes m (wdata + WDATA_CLIENTBOX_OFF) (box_bytes client).

(** ** A box in memory *)

Definition is_box (b : WindowBox) : Prop := is_i32 (box_left b) /\ is_i32 (box_top b) /\ is_i32 (box_width b) /\ is_i32 (box_height b).

Lemma box_of_bytes_ok p b : stored p 0 (box_bytes b) -> is_box b -> box_of_bytes p = Done b.
Proof.
  intros S (H1 & H2 & H3 & H4). pose proof (rect_of_bytes_ok p (mkRect (box_left b) (box_top b) (box_width b) (box_height b)) S) as E.
  unfold box_of_bytes, rect_of_bytes in *. specialize (E (conj H1 (conj H2 (conj H3 H4)))).
  apply bind_Done in E as (l & -> & E). apply bind_Done in E as (t & -> & E). apply bind_Done in E as (r & -> & E).
  apply bind_Done in E as (d & -> & E). injection E as -> -> -> ->. by destruct b.
Qed.

Lemma bytes_box b : bytes (box_bytes b).
Proof. unfold box_bytes. repeat apply Forall_app_2; apply bytes_i32. Qed.

Lemma read_box m a b : stored m a (box_bytes b) -> is_box b -> (p ← copy_out m a 16; box_of_bytes p) = Done b.
Proof.
  intros S Hb. pose proof (copy_out_stored _ _ _ S : copy_out m a 16 = _) as ->. run_step. apply box_of_bytes_ok; [apply stored_self|done].
Qed.

(** ** On the screen *)

Definition on_display (dw dh : Z) (b : WindowBox) : Prop :=
  0 <= box_left b /\ 0 <= box_width b /\ box_left b + box_width b < dw /\
  0 <= box_top b /\ 0 <= box_height b /\ box_top b + box_height b < dh.

(** One axis: the size, then the position. *)
Definition fit_size (d n : Z) : Z := if u32 d <=? u32 n then i32_sub d 1 else n.
Definition fit_pos (d n p : Z) : Z :=
  if p <? 0 then 0 else if d <=? i32_add p n then i32_sub (i32_sub d n) 1 else p.

Lemma fit_size_ok d n : 0 < d < 2 ^ 31 -> is_i32 n -> fit_size d n = if (0 <=? n) && (n <? d) then n else d - 1.
Proof.
  intros Hd Hn. unfold fit_size. rewrite i32_sub_small by (unfold is_i32; lia). rewrite (wrap_small 32 d) by lia. unfold is_i32 in Hn.
  destruct (Z.leb_spec 0 n).
  - rewrite (wrap_small 32 n) by lia. cbn [andb]. destruct (Z.leb_spec d n), (Z.ltb_spec n d); lia.
  - assert (u32 n = n + 2 ^ 32) as ->. { unfold wrap. symmetry. apply (Z.mod_unique n (2 ^ 32) (-1)); lia. }
    cbn [andb]. by replace (d <=? n + 2 ^ 32) with true by lia.
Qed.

Lemma fit_pos_ok d n p : 0 <= n < d -> d < 2 ^ 31 -> p + n < 2 ^ 31 -> - 2 ^ 31 <= p -> fit_pos d n p = Z.max 0 (Z.min p (d - 1 - n)).
Proof.
  intros Hn Hd Hp Hp'. unfold fit_pos. destruct (Z.ltb_spec p 0); [lia|]. rewrite i32_add_small by (unfold is_i32; lia).
  rewrite (i32_sub_small d n), i32_sub_small by (unfold is_i32; lia). destruct (Z.leb_spec d (p + n)); lia.
Qed.

Lemma check_window_position_axes b dw dh : check_window_position b dw dh =
  mkBox (fit_pos dw (fit_size dw (box_width b)) (box_left b)) (fit_pos dh (fit_size dh (box_height b)) (box_top b))
    (fit_size dw (box_width b)) (fit_size dh (box_height b)).
Proof. done. Qed.

(** ** Theorems *)


(** ** The table of border widths *)

Definition table_bytes (tl : list Z) : list Z := concat (map i32_bytes tl).

Lemma table_bytes_cons z tl : table_bytes (z :: tl) = i32_bytes z ++ table_bytes tl.
Proof. done. Qed.

Lemma mlen_table tl : mlen (table_bytes tl) = 4 * Z.of_nat (length tl).
Proof. induction tl as [|z tl IH]; [done|]. rewrite table_bytes_cons, mlen_app, IH. change (mlen (i32_bytes z)) with 4. cbn [length]. lia. Qed.

(** A table is stored when each of its words is. *)
Lemma table_stored tl : forall m p, stored m p (table_bytes tl) <->
  (0 <= p /\ p + 4 * Z.of_nat (length tl) <= mlen m) /\ forall i z, tl !! i = Some z -> stored m (p + 4 * Z.of_nat i) (i32_bytes z).
Proof.
  induction tl as [|z tl IH]; intros m p.
  - split; [intros (H0 & H1 & _); split; [done|by intros ? ?]|]. intros [[H0 H1] _]. split_and!; [done|exact H1|]. intros i Hi. change (mlen (table_bytes [])) with 0 in Hi. lia.
  - rewrite table_bytes_cons. split.
    + intros [S1 S2]%stored_app. pose proof S1 as (H0 & _ & _). apply IH in S2 as [[_ H2] S2]. change (mlen (i32_bytes z)) with 4 in *. split; [cbn [length]; lia|].
      intros [|i] z' Hi; cbn in Hi.
      * injection Hi as <-. by rewrite Z.add_0_r.
      * replace (p + 4 * Z.of_nat (S i)) with (p + 4 + 4 * Z.of_nat i) by lia. by apply S2.
    + intros [[H0 H1] H2]. cbn [length] in H1. apply stored_join.
      * specialize (H2 0%nat z eq_refl). by rewrite Z.add_0_r in H2.
      * apply IH. change (mlen (i32_bytes z)) with 4. split; [lia|]. intros i z' Hi.
        replace (p + 4 + 4 * Z.of_nat i) with (p + 4 * Z.of_nat (S i)) by lia. by apply H2.
Qed.

Lemma table_store m p tl k z : bytes m -> stored m p (table_bytes tl) -> (k < length tl)%nat ->
  exists m', store_bytes m (p + 4 * Z.of_nat k) (i32_bytes z) = Done m' /\ writes [(p + 4 * Z.of_nat k, 4)] m m' /\
    stored m' p (table_bytes (<[k := z]> tl)).
Proof.
  intros Hm S Hk. apply table_stored in S as [[H0 H1] S].
  destruct (store_bytes_ok (i32_bytes z) m (p + 4 * Z.of_nat k)) as (m' & E & W & St); [lia|change (mlen (i32_bytes z)) with 4; lia|done|apply bytes_i32|].
  exists m'. split; [exact E|]. split; [exact W|]. apply table_stored. rewrite length_insert. rewrite (writes_len _ _ _ W). split; [done|].
  intros i z' Hi. destruct (decide (i = k)) as [->|Hne].
  - rewrite list_lookup_insert_eq in Hi by done. by injection Hi as <-.
  - rewrite list_lookup_insert_ne in Hi by done. apply (writes_stored _ _ _ _ _ W); [|by apply S]. split; [|done].
    unfold disjoint. cbn [fst snd]. change (mlen (i32_bytes z')) with 4. change (mlen (i32_bytes z)) with 4. lia.
Qed.

Lemma table_read m p tl k z : stored m p (table_bytes tl) -> tl !! k = Some z -> is_i32 z -> i32_le m (p + 4 * Z.of_nat k) = Done z.
Proof. intros [_ S]%table_stored Hk Hz. apply i32_le_ok; [by apply S|done]. Qed.

(** On the styles of the table, and on any style without a client area of its own, the
    in-place update stores what the function on values gives: the client box in the window
    data and the two skin heights in the table, and nothing else changes. *)
Theorem set_window_clientbox_refines m wdata tlp b fl_wstyle skinh tl :
  bytes m -> separate (mlen m) [(wdata, 48); (tlp, 40)] -> stored m wdata (box_bytes b) -> is_box b ->
  byte_at m (wdata + 19) = fl_wstyle -> length tl = 10%nat -> Forall is_i32 tl -> stored m tlp (table_bytes tl) -> is_i32 skinh ->
  Z.land fl_wstyle 0x20 = 0 \/ Z.land fl_wstyle 0x0F <= 4 ->
  exists m' r, set_window_clientbox_ptr m wdata skinh tlp = Done m' /\ set_window_clientbox b fl_wstyle skinh tl = Done r /\
    stored m' (wdata + 32) (box_bytes (clientbox r)) /\ stored m' tlp (table_bytes (topleft r)) /\
    topleft r = <[9%nat := skinh]> (<[7%nat := skinh]> tl) /\ writes [(wdata + 32, 16); (tlp, 40)] m m'.
Proof.
  intros Hm Hsep Hs Hb Hst Hlen Htl Ht Hsk Hstyle. pose proof Hsep as ((Hw0 & Hw1) & (Hd & _) & (Ht0 & Ht1) & _). cbn [fst snd] in *. unfold disjoint in Hd.
  destruct (table_store m tlp tl 7 skinh) as (m1 & E1 & W1 & S1); [done|done|lia|].
  destruct (table_store m1 tlp (<[7%nat := skinh]> tl) 9 skinh) as (m2 & E2 & W2 & S2); [by apply (writes_bytes _ _ _ W1)|done|rewrite length_insert; lia|].
  change (4 * Z.of_nat 7) with (4 * 7) in *. change (4 * Z.of_nat 9) with (4 * 9) in *.
  assert (writes [(tlp, 40)] m m2) as W.
  { etrans; [apply (writes_within _ [(tlp, 40)] _ _) with (2 := W1)|apply (writes_within _ [(tlp, 40)] _ _) with (2 := W2)];
      repeat constructor; intros a Ha; exists (tlp, 40); (split; [by left|]); unfold inside in *; cbn in *; lia. }
  set (tl' := <[9%nat := skinh]> (<[7%nat := skinh]> tl)) in *.
  assert (length tl' = 10%nat) as Hlen' by by unfold tl'; rewrite !length_insert.
  assert (Forall is_i32 tl') as Htl' by by unfold tl'; apply Forall_insert; [apply Forall_insert|].
  assert (stored m2 wdata (box_bytes b)) as Sb.
  { apply (writes_stored _ _ _ _ _ W); [|done]. split; [|done]. change (mlen (box_bytes b)) with 16. unfold disjoint. cbn. lia. }
  assert (byte_at m2 (wdata + 19) = fl_wstyle) as Hf.
  { rewrite <- Hst. apply (writes_byte _ _ _ (wdata + 19, 1) _ W); [|unfold inside; cbn; lia]. split; [|done]. unfold disjoint. cbn. lia. }
  unfold set_window_clientbox_ptr. rewrite E1. run_step. rewrite E2. run_step.
  pose proof (copy_out_stored _ _ _ Sb : copy_out m2 wdata 16 = _) as ->. run_step. rewrite (box_of_bytes_ok _ b (stored_self _) Hb). run_step.
  unfold WDATA_FL_WSTYLE_OFF, WDATA_CLIENTBOX_OFF, WSTYLE_CLIENTRELATIVE. rewrite ld8_ok by (rewrite (writes_len _ _ _ W); lia). rewrite Hf. run_step.
  unfold set_window_clientbox. fold tl'. unfold WSTYLE_CLIENTRELATIVE.
  assert (forall client, exists m', store_bytes m2 (wdata + 32) (box_bytes client) = Done m' /\ stored m' (wdata + 32) (box_bytes client) /\
    stored m' tlp (table_bytes tl') /\ writes [(wdata + 32, 16); (tlp, 40)] m m') as Hstore.
  { intros client. destruct (store_bytes_ok (box_bytes client) m2 (wdata + 32)) as (m' & E & W' & Sc);
      [lia|rewrite (writes_len _ _ _ W); change (mlen (box_bytes client)) with 16; lia|by apply (writes_bytes _ _ _ W)|apply bytes_box|].
    exists m'. split_and!; [done|done| |].
    - apply (writes_stored _ _ _ _ _ W'); [|done]. split; [|done]. rewrite mlen_table, Hlen'. change (mlen (box_bytes client)) with 16. unfold disjoint. cbn. lia.
    - transitivity m2; [apply (writes_subset [(tlp, 40)]); [set_solver|exact W]|apply (writes_subset [(wdata + 32, 16)]); [set_solver|exact W']]. }
  destruct (Z.eqb_spec (Z.land fl_wstyle 0x20) 0) as [|Hrel].
  - run_step. destruct (Hstore (mkBox 0 0 (box_width b) (box_height b))) as (m' & E & ?). exists m'. eexists. split_and!; [exact E|done|apply H|apply H|done|apply H].
  - destruct Hstyle as [?|Hstyle]; [done|]. set (style := Z.land fl_wstyle 0x0F) in *. assert (0 <= style) as Hs0 by (apply Z.land_nonneg; right; lia).
    destruct (lookup_lt_is_Some_2 tl' (Z.to_nat (style * 2))) as [l Hl]; [lia|].
    destruct (lookup_lt_is_Some_2 tl' (Z.to_nat (style * 2 + 1))) as [t Htp]; [lia|].
    pose proof (table_read m2 tlp tl' _ l S2 Hl (Forall_lookup_1 _ _ _ _ Htl' Hl)) as Rl. rewrite Z2Nat.id in Rl by lia.
    pose proof (table_read m2 tlp tl' _ t S2 Htp (Forall_lookup_1 _ _ _ _ Htl' Htp)) as Rt. rewrite Z2Nat.id in Rt by lia.
    rewrite Rl. run_step. rewrite Rt. run_step. unfold ld8. replace (style * 2 <? 0) with false by lia. replace (style * 2 + 1 <? 0) with false by lia.
    rewrite Hl, Htp. run_step. set (client := mkBox l t _ _). destruct (Hstore client) as (m' & E & ?). exists m'. eexists. split_and!; [exact E|done|apply H|apply H|done|apply H].
Qed.

(** A window of 100 by 80 with the default skin, style 3 with a client area. *)
Definition small_window : list Z :=
  box_bytes (mkBox 10 20 100 80) ++ [0; 0; 0; 0x23] ++ replicate 28 0 ++ table_bytes WINDOW_TOPLEFT_DEFAULT.


Lemma set_window_clientbox_refines_witness : exists m' r,
  set_window_clientbox_ptr small_window 0 24 48 = Done m' /\ stored m' 32 (box_bytes (clientbox r)) /\ clientbox r = mkBox 5 24 91 52.
Proof.
  destruct (set_window_clientbox_refines small_window 0 48 (mkBox 10 20 100 80) 0x23 24 WINDOW_TOPLEFT_DEFAULT) as (m' & r & E & F & S & _);
    [by apply bytes_check|by apply (bool_decide_unpack _); vm_compute|by apply stored_check|by repeat split|done|done|by repeat constructor|by apply stored_check|by split|by right|].
  exists m', r. split; [exact E|]. split; [exact S|]. vm_compute in F. by injection F as <-.
Defined.

(** Close to the largest coordinate the right edge wraps around: the test passes and the window stays where it is. *)
Lemma check_window_position_wraps : check_window_position (mkBox (2 ^ 31 - 1) 0 100 80) 1024 768 = mkBox (2 ^ 31 - 1) 0 100 80.
Proof. done. Qed.
