(* ===== verification/Mouse.v ===== *)
(** * The mouse

    [mouse.rs]: [mouse_acceleration] turns a movement into a number of pixels, and
    [set_mouse_data] applies an event of a mouse (relative or absolute axes, wheels,
    buttons) to the kernel's mouse variables.  Positions are 16-bit words compared signed. *)

From stdpp Require Import base list sets.
From Stdlib Require Import ZArith Lia.
From S2P Require Import Prelude Layout.

(** ** Definitions *)

Definition MOUSE_BTN_ABS_X : Z := 0x80000000.
Definition MOUSE_BTN_ABS_Y : Z := 0x40000000.
Definition MOUSE_BTN_DOWN_MASK : Z := 0x3FFFFFFF.

Record MouseDataState := mkMouse {
  mouse_x : Z; mouse_y : Z; scroll_h : Z; scroll_v : Z; btn_down : Z; mouse_active : Z; osloop_nonperiodic_work : Z
}.

Record MouseDataParams := mkParams {
  display_width : Z; display_height : Z; mouse_delay : Z; mouse_speed_factor : Z
}.

(** The low word replaced, the low byte replaced. *)
Definition with_ax (eax ax : Z) : Z := Z.lor (Z.land eax 0xFFFF0000) ax.
Definition with_al (eax al : Z) : Z := Z.lor (Z.land eax 0xFFFFFF00) al.

(** [neg ax], again while the sign and the overflow flag differ. *)
Definition abs_body (eax : Z) : run (Z + Z) :=
  let ax := u16 eax in
  let neg_ax := u16 (- ax) in
  let eax := with_ax eax neg_ax in
  let sf := as_i16 neg_ax <? 0 in
  let ovf := ax =? 0x8000 in
  if negb (Bool.eqb sf ovf) then Done (inl eax) else Done (inr eax).

Definition mouse_acceleration (delta delay speed_factor : Z) : run Z :=
  eax ← loop 3 abs_body delta;
  let al := u8 (u8 eax + delay) in
  let eax := with_al eax al in
  let product := u16 (al * al) in
  let eax := with_ax eax product in
  let cl := Z.land (u8 speed_factor) 31 in
  let ax := u16 eax in
  let ax := u16 (ax - 1) in
  let ax := if 16 <=? cl then 0 else Z.shiftr ax cl in
  let ax := u16 (ax + 1) in
  let eax := with_ax eax ax in
  let eax := if as_i32 eax <? 0 then with_ax eax (u16 (- u16 eax)) else eax in
  Done eax.

(** One axis: [moving] scaled when absolute, otherwise accelerated and added. *)
Definition axis_value (absolute : bool) (moving rel dim pos : Z) (params : MouseDataParams) : run Z :=
  if absolute then Done (Z.shiftr (moving *ₘ dim) 15)
  else
    accel ← mouse_acceleration rel (mouse_delay params) (mouse_speed_factor params);
    let sum := u16 (u16 accel + pos) in
    Done (if as_i16 sum <? 0 then 0 else sum).

Definition axis_clamp (ax dim : Z) : Z :=
  let width := u16 dim in
  let ax := if as_i16 width <=? as_i16 (u16 ax) then u16 (width - 1) else ax in
  u16 ax.

(** An axis without an event keeps its position. *)
Definition axis_move (absolute : bool) (moving rel dim pos : Z) (params : MouseDataParams) : run Z :=
  if absolute || negb (moving =? 0)
  then ax ← axis_value absolute moving rel dim pos params; Done (axis_clamp ax dim)
  else Done pos.

Definition set_mouse_data (state : MouseDataState) (params : MouseDataParams) (btn_state x_moving y_moving v_scroll h_scroll : Z) : run MouseDataState :=
  let btn := Z.land btn_state MOUSE_BTN_DOWN_MASK in
  let abs_x := negb (Z.land btn_state MOUSE_BTN_ABS_X =? 0) in
  x ← axis_move abs_x x_moving x_moving (display_width params) (mouse_x state) params;
  let abs_y := negb (Z.land btn_state MOUSE_BTN_ABS_Y =? 0) in
  y ← axis_move abs_y y_moving (u32 (- y_moving)) (display_height params) (mouse_y state) params;
  let '(sv, btn) := if v_scroll =? 0 then (scroll_v state, btn) else (u16 (scroll_v state + u16 v_scroll), Z.lor btn (Z.shiftl 1 15)) in
  let '(sh, btn) := if h_scroll =? 0 then (scroll_h state, btn) else (u16 (scroll_h state + u16 h_scroll), Z.lor btn (Z.shiftl 1 23)) in
  Done (mkMouse x y sh sv btn 1 1).

(** The kernel variables, by their addresses. *)
Record SetMouseDataCtx := mkMouseCtx {
  p_mouse_x : Z; p_mouse_y : Z; p_scroll_h : Z; p_scroll_v : Z; p_btn_down : Z; p_mouse_active : Z;
  c_display_width : Z; c_display_height : Z; c_mouse_delay : Z; c_mouse_speed_factor : Z; p_osloop_nonperiodic_work : Z
}.

Definition set_mouse_data_ptr (m : list Z) (btn_state x_moving y_moving v_scroll h_scroll : Z) (c : SetMouseDataCtx) : run (list Z) :=
  mx ← ld16 m (p_mouse_x c); my ← ld16 m (p_mouse_y c); sh ← ld16 m (p_scroll_h c); sv ← ld16 m (p_scroll_v c);
  bd ← ld32 m (p_btn_down c); ma ← ld32 m (p_mouse_active c); os ← ld32 m (p_osloop_nonperiodic_work c);
  let params := mkParams (c_display_width c) (c_display_height c) (u8 (c_mouse_delay c)) (u16 (c_mouse_speed_factor c)) in
  state ← set_mouse_data (mkMouse mx my sh sv bd ma os) params btn_state x_moving y_moving v_scroll h_scroll;
  m ← st16 m (p_mouse_x c) (mouse_x state);
  m ← st16 m (p_mouse_y c) (mouse_y state);
  m ← st16 m (p_scroll_h c) (scroll_h state);
  m ← st16 m (p_scroll_v c) (scroll_v state);
  m ← st32 m (p_btn_down c) (btn_down state);
  m ← st32 m (p_mouse_active c) (mouse_active state);
  st32 m (p_osloop_nonperiodic_work c) (osloop_nonperiodic_work state).

(** ** Words *)

Lemma with_ax_eq eax ax : 0 <= eax < 2 ^ 32 -> 0 <= ax < 2 ^ 16 -> with_ax eax ax = eax / 2 ^ 16 * 2 ^ 16 + ax.
Proof. intros. by apply (set_low 32 16). Qed.

Lemma with_al_eq eax al : 0 <= eax < 2 ^ 32 -> 0 <= al < 2 ^ 8 -> with_al eax al = eax / 2 ^ 8 * 2 ^ 8 + al.
Proof. intros. by apply (set_low 32 8). Qed.

Lemma i16_of_u16 z : - 2 ^ 15 <= z < 2 ^ 15 -> as_i16 (u16 z) = z.
Proof. intros. by apply (as_signed_wrap 16). Qed.

(** Magnitude of a signed word, the smallest one being its own. *)
Definition magnitude (ax : Z) : Z := if ax <? 2 ^ 15 then ax else 2 ^ 16 - ax.

Lemma u16_neg ax : 0 < ax < 2 ^ 16 -> u16 (- ax) = 2 ^ 16 - ax.
Proof. intros. unfold wrap. symmetry. apply (Z.mod_unique (- ax) (2 ^ 16) (-1)); lia. Qed.

(** At most two turns. *)
Lemma abs_loop eax : 0 <= eax < 2 ^ 32 -> loop 3 abs_body eax = Done (with_ax eax (magnitude (u16 eax))).
Proof.
  intros He. pose proof (wrap_range 16 eax ltac:(lia)) as Hax.
  assert (forall ax, 0 <= ax < 2 ^ 16 -> u16 (with_ax eax ax) = ax) as Hlow.
  { intros ax H. rewrite with_ax_eq by done. unfold wrap. rewrite Z.add_comm, Z.mod_add by lia. by apply Z.mod_small. }
  assert (forall a b, 0 <= a < 2 ^ 16 -> 0 <= b < 2 ^ 16 -> with_ax (with_ax eax a) b = with_ax eax b) as Hset.
  { intros a b Ha Hb. rewrite (with_ax_eq (with_ax eax a)), (with_ax_eq eax a), (with_ax_eq eax b) by (rewrite ?with_ax_eq; Z.div_mod_to_equations; lia).
    Z.div_mod_to_equations; lia. }
  rewrite loop_S. unfold abs_body at 2. cbv zeta. unfold magnitude. set (ax := u16 eax) in *.
  destruct (decide (ax = 0)) as [E0|].
  { rewrite E0. cbn. done. }
  rewrite (u16_neg ax) by lia. unfold as_signed at 1. change (16 - 1) with 15.
  destruct (Z.eqb_spec ax 0x8000) as [->|]; [done|].
  destruct (Z.ltb_spec ax (2 ^ 15)).
  - replace (2 ^ 16 - ax <? 2 ^ 15) with false by lia. replace (2 ^ 16 - ax - 2 ^ 16 <? 0) with true by lia. cbn [Bool.eqb negb]. run_step.
    rewrite loop_S. unfold abs_body at 2. cbv zeta. rewrite Hlow by lia. rewrite (u16_neg (2 ^ 16 - ax)) by lia.
    replace (2 ^ 16 - (2 ^ 16 - ax)) with ax by lia. unfold as_signed. change (16 - 1) with 15. replace (ax <? 2 ^ 15) with true by lia.
    replace (ax <? 0) with false by lia. replace (2 ^ 16 - ax =? 0x8000) with false by lia. cbn [Bool.eqb negb]. run_step. by rewrite Hset by lia.
  - replace (2 ^ 16 - ax <? 2 ^ 15) with true by lia. by replace (2 ^ 16 - ax <? 0) with false by lia.
Qed.

(** ** Acceleration *)

(** Pixels for a movement of [n]: the low byte of [n] with the delay, squared, shifted. *)
Definition pixels (delay speed_factor n : Z) : Z :=
  let al := u8 (n + delay) in
  let cl := Z.land (u8 speed_factor) 31 in
  if 16 <=? cl then 1 else u16 (u16 (al * al - 1) / 2 ^ cl + 1).

(** The sign comes from the whole word. *)
Lemma mouse_acceleration_ok delta delay speed_factor : 0 <= delta < 2 ^ 32 -> 0 <= delay < 2 ^ 8 ->
  mouse_acceleration delta delay speed_factor =
    Done (with_ax delta (let n := pixels delay speed_factor (magnitude (u16 delta)) in if delta <? 2 ^ 31 then n else u16 (- n))).
Proof.
  intros Hd Hdel. unfold mouse_acceleration. rewrite (abs_loop delta Hd). run_step. cbv zeta.
  pose proof (wrap_range 16 delta ltac:(lia)) as Hax. set (n := magnitude (u16 delta)). assert (0 <= n < 2 ^ 16) as Hn by (unfold n, magnitude; destruct (u16 delta <? 2 ^ 15) eqn:E; lia).
  clearbody n. clear Hax.
  assert (forall a, 0 <= a < 2 ^ 16 -> 0 <= with_ax delta a < 2 ^ 32 /\ u16 (with_ax delta a) = a /\ u8 (with_ax delta a) = u8 a /\
    with_ax delta a / 2 ^ 16 = delta / 2 ^ 16 /\ with_ax delta a / 2 ^ 8 / 2 ^ 8 = delta / 2 ^ 16) as Hw.
  { intros a Ha. rewrite with_ax_eq by done. unfold wrap. split_and!; [Z.div_mod_to_equations; lia..|].
    rewrite Z.div_div by lia. change (2 ^ 8 * 2 ^ 8) with (2 ^ 16). Z.div_mod_to_equations; lia. }
  assert (forall x a, 0 <= x < 2 ^ 32 -> x / 2 ^ 16 = delta / 2 ^ 16 -> 0 <= a < 2 ^ 16 -> with_ax x a = with_ax delta a) as Hset.
  { intros x a Hx Ex Ha. by rewrite !with_ax_eq, Ex by done. }
  destruct (Hw n Hn) as (R1 & R2 & R3 & R4 & R5). rewrite R3, wrap_add_l. set (al := u8 (n + delay)).
  assert (0 <= al < 2 ^ 8) as Hal by (apply wrap_range; lia).
  rewrite (Hset (with_al _ _)) by (rewrite ?with_al_eq by done; unfold wrap in *; rewrite ?(wrap_small 16); Z.div_mod_to_equations; lia).
  set (pr := u16 (al * al)). assert (0 <= pr < 2 ^ 16) as Hpr by (apply wrap_range; lia). destruct (Hw pr Hpr) as (P1 & P2 & _ & P4 & _). rewrite P2.
  assert (u16 ((if 16 <=? Z.land (u8 speed_factor) 31 then 0 else Z.shiftr (u16 (pr - 1)) (Z.land (u8 speed_factor) 31)) + 1) = pixels delay speed_factor n) as ->.
  { unfold pixels. fold al. assert (0 <= Z.land (u8 speed_factor) 31) by (apply Z.land_nonneg; right; lia).
    destruct (16 <=? _); [done|]. rewrite shr_eq by done. unfold pr. by rewrite wrap_sub_l. }
  assert (0 <= pixels delay speed_factor n < 2 ^ 16) as Hpx by (unfold pixels; destruct (16 <=? _); [lia|apply wrap_range; lia]).
  set (v := pixels delay speed_factor n) in *. clearbody v. rewrite (Hset (with_ax delta pr) v P1 P4 Hpx). destruct (Hw v Hpx) as (V1 & V2 & _ & V4 & _).
  rewrite V2. unfold as_signed. change (32 - 1) with 31.
  destruct (Z.ltb_spec delta (2 ^ 31)).
  - replace (with_ax delta v <? 2 ^ 31) with true by (clear -V4 V1 H Hd; Z.div_mod_to_equations; lia). by replace (with_ax delta v <? 0) with false by lia.
  - replace (with_ax delta v <? 2 ^ 31) with false by (clear -V4 V1 H Hd; Z.div_mod_to_equations; lia). replace (with_ax delta v - 2 ^ 32 <? 0) with true by lia.
    by rewrite (Hset _ _ V1 V4 (wrap_range 16 _ ltac:(lia))).
Qed.

(** A movement the other way is as fast. *)
Lemma pixels_range delay speed_factor n : 0 <= pixels delay speed_factor n < 2 ^ 16.
Proof. unfold pixels. destruct (16 <=? _); [lia|apply wrap_range; lia]. Qed.

(** The low word of the result, for a movement of less than 2^15 counts either way. *)
Definition accelerated (delay speed_factor d : Z) : Z := Z.sgn d * pixels delay speed_factor (Z.abs d).

Lemma mouse_acceleration_signed d delay speed_factor : - 2 ^ 15 < d < 2 ^ 15 -> d <> 0 -> 0 <= delay < 2 ^ 8 ->
  exists r, mouse_acceleration (u32 d) delay speed_factor = Done r /\ u16 r = u16 (accelerated delay speed_factor d).
Proof.
  intros Hd Hne Hdel. rewrite mouse_acceleration_ok by (try apply wrap_range; lia). eexists. split; [done|]. cbv zeta.
  assert (forall a, 0 <= a < 2 ^ 16 -> u16 (with_ax (u32 d) a) = a) as Hlow.
  { intros a Ha. rewrite with_ax_eq by (done || (apply wrap_range; lia)). unfold wrap at 1. rewrite Z.add_comm, Z.mod_add by lia. by apply Z.mod_small. }
  unfold accelerated. assert (magnitude (u16 (u32 d)) = Z.abs d) as ->.
  { unfold magnitude. destruct (Z.lt_ge_cases d 0).
    - assert (u32 d = d + 2 ^ 32) as -> by (unfold wrap; symmetry; apply (Z.mod_unique d (2 ^ 32) (-1)); lia).
      assert (u16 (d + 2 ^ 32) = d + 2 ^ 16) as -> by (unfold wrap; symmetry; apply (Z.mod_unique _ (2 ^ 16) (2 ^ 16 - 1)); lia).
      destruct (Z.ltb_spec (d + 2 ^ 16) (2 ^ 15)); lia.
    - rewrite (wrap_small 32), (wrap_small 16) by lia. destruct (Z.ltb_spec d (2 ^ 15)); lia. }
  set (v := pixels delay speed_factor (Z.abs d)). pose proof (pixels_range delay speed_factor (Z.abs d) : 0 <= v < 2 ^ 16) as Hv. clearbody v.
  destruct (Z.lt_ge_cases d 0).
  - assert (u32 d = d + 2 ^ 32) as E by (unfold wrap; symmetry; apply (Z.mod_unique d (2 ^ 32) (-1)); lia).
    replace (u32 d <? 2 ^ 31) with false by lia. rewrite Hlow by (apply wrap_range; lia). f_equal. lia.
  - rewrite (wrap_small 32 d) in * by lia. replace (d <? 2 ^ 31) with true by lia. rewrite Hlow by done. rewrite wrap_small; lia.
Qed.

(** ** One axis *)

Lemma axis_clamp_ok ax dim : 0 < dim < 2 ^ 15 -> 0 <= ax < 2 ^ 15 -> axis_clamp ax dim = Z.min ax (dim - 1).
Proof.
  intros Hd Ha. unfold axis_clamp. rewrite (wrap_small 16 dim), (wrap_small 16 ax), (wrap_small 16 (dim - 1)) by lia. unfold as_signed. change (16 - 1) with 15.
  replace (dim <? 2 ^ 15) with true by lia. replace (ax <? 2 ^ 15) with true by lia. destruct (Z.leb_spec dim ax); rewrite ?(wrap_small 16); lia.
Qed.

(** Wherever an absolute coordinate of 15 bits, or any movement, leads, it is on the screen. *)
Lemma axis_on_screen absolute moving rel dim pos params : 0 < dim < 2 ^ 15 -> 0 <= rel < 2 ^ 32 -> 0 <= mouse_delay params < 2 ^ 8 ->
  (absolute = true -> 0 <= moving < 2 ^ 15) ->
  exists ax, axis_value absolute moving rel dim pos params = Done ax /\ 0 <= axis_clamp ax dim < dim /\
    (absolute = true -> axis_clamp ax dim = moving * dim / 2 ^ 15) /\
    (forall d, absolute = false -> rel = u32 d -> - 2 ^ 15 < d < 2 ^ 15 -> d <> 0 ->
       let to := pos + accelerated (mouse_delay params) (mouse_speed_factor params) d in
       - 2 ^ 15 <= to < 2 ^ 15 -> axis_clamp ax dim = Z.max 0 (Z.min to (dim - 1))).
Proof.
  intros Hdim Hrel Hdel Habs. unfold axis_value. destruct absolute.
  - specialize (Habs eq_refl). eexists. split; [done|]. assert (0 <= moving * dim / 2 ^ 15 < dim) as Hq.
    { split; [apply Z.div_pos; nia|apply Z.div_lt_upper_bound; nia]. }
    rewrite (wrap_small 32), shr_eq by nia. rewrite axis_clamp_ok by lia. split; [lia|]. split; [lia|done].
  - rewrite mouse_acceleration_ok by done. run_step. set (r := with_ax rel _). eexists. split; [done|]. cbv zeta.
    pose proof (wrap_range 16 (u16 r + pos) ltac:(lia)) as Hs.
    assert (forall s, 0 <= s < 2 ^ 16 -> axis_clamp (if as_i16 s <? 0 then 0 else s) dim = Z.max 0 (Z.min (as_i16 s) (dim - 1))) as Hc.
    { intros s Hs'. unfold as_signed. change (16 - 1) with 15. destruct (Z.ltb_spec s (2 ^ 15)).
      - replace (s <? 0) with false by lia. rewrite axis_clamp_ok; lia.
      - replace (s - 2 ^ 16 <? 0) with true by lia. rewrite axis_clamp_ok; lia. }
    rewrite Hc by done. split; [lia|]. split; [done|]. intros d _ -> Hd Hne Hto.
    destruct (mouse_acceleration_signed d (mouse_delay params) (mouse_speed_factor params) Hd Hne Hdel) as (r' & E & Er).
    rewrite mouse_acceleration_ok in E by done. injection E as E. fold r in E. rewrite E, Er, wrap_add_l. f_equal. f_equal.
    rewrite <- i16_of_u16 by done. do 2 f_equal. lia.
Qed.

(** ** The variables in memory *)

Definition mouse_vars (c : SetMouseDataCtx) : list region :=
  [(p_mouse_x c, 2); (p_mouse_y c, 2); (p_scroll_h c, 2); (p_scroll_v c, 2); (p_btn_down c, 4); (p_mouse_active c, 4); (p_osloop_nonperiodic_work c, 4)].

Definition holds (m : list Z) (c : SetMouseDataCtx) : MouseDataState :=
  mkMouse (word16_at m (p_mouse_x c)) (word16_at m (p_mouse_y c)) (word16_at m (p_scroll_h c)) (word16_at m (p_scroll_v c))
    (word_at m (p_btn_down c)) (word_at m (p_mouse_active c)) (word_at m (p_osloop_nonperiodic_work c)).

Definition is_mouse (s : MouseDataState) : Prop :=
  0 <= mouse_x s < 2 ^ 16 /\ 0 <= mouse_y s < 2 ^ 16 /\ 0 <= scroll_h s < 2 ^ 16 /\ 0 <= scroll_v s < 2 ^ 16 /\
  0 <= btn_down s < 2 ^ 32 /\ 0 <= mouse_active s < 2 ^ 32 /\ 0 <= osloop_nonperiodic_work s < 2 ^ 32.

Definition ctx_params (c : SetMouseDataCtx) : MouseDataParams :=
  mkParams (c_display_width c) (c_display_height c) (u8 (c_mouse_delay c)) (u16 (c_mouse_speed_factor c)).

(** The call on memory is the call on values. *)
Lemma mouse_ptr_refines m c btn x y v h s' : separate (mlen m) (mouse_vars c) ->
  set_mouse_data (holds m c) (ctx_params c) btn x y v h = Done s' -> is_mouse s' ->
  exists m', set_mouse_data_ptr m btn x y v h c = Done m' /\ holds m' c = s' /\ writes (mouse_vars c) m m'.
Proof.
  intros Hsep E (H1 & H2 & H3 & H4 & H5 & H6 & H7). unfold set_mouse_data_ptr.
  pose proof (fun r => separate_bounds _ _ r Hsep) as B. pose proof Hsep as Hs. unfold mouse_vars in Hs, B. cbn [separate] in Hs.
  destruct c as [c1 c2 c3 c4 c5 c6 c7 c8 c9 c10 c11]. unfold mouse_vars, holds, ctx_params in *.
  cbn [p_mouse_x p_mouse_y p_scroll_h p_scroll_v p_btn_down p_mouse_active p_osloop_nonperiodic_work c_display_width c_display_height c_mouse_delay c_mouse_speed_factor] in *.
  destruct Hs as ((A1 & A1') & D1 & (A2 & A2') & D2 & (A3 & A3') & D3 & (A4 & A4') & D4 & (A5 & A5') & D5 & (A6 & A6') & D6 & (A7 & A7') & _). cbn [fst snd] in *.
  rewrite !ld16_ok, !ld32_ok by lia. run_step. rewrite E. run_step. clear E B Hsep.
  destruct (st16_writes m c1 (mouse_x s')) as (m1 & -> & W1 & R1); [lia..|]. run_step. pose proof (writes_len _ _ _ W1) as L1.
  destruct (st16_writes m1 c2 (mouse_y s')) as (m2 & -> & W2 & R2); [lia..|]. run_step. pose proof (writes_len _ _ _ W2) as L2.
  destruct (st16_writes m2 c3 (scroll_h s')) as (m3 & -> & W3 & R3); [lia..|]. run_step. pose proof (writes_len _ _ _ W3) as L3.
  destruct (st16_writes m3 c4 (scroll_v s')) as (m4 & -> & W4 & R4); [lia..|]. run_step. pose proof (writes_len _ _ _ W4) as L4.
  destruct (st32_writes m4 c5 (btn_down s')) as (m5 & -> & W5 & R5); [lia..|]. run_step. pose proof (writes_len _ _ _ W5) as L5.
  destruct (st32_writes m5 c6 (mouse_active s')) as (m6 & -> & W6 & R6); [lia..|]. run_step. pose proof (writes_len _ _ _ W6) as L6.
  destruct (st32_writes m6 c11 (osloop_nonperiodic_work s')) as (m7 & -> & W7 & R7); [lia..|]. exists m7. split; [done|].
  pose proof (writes_cons _ _ _ _ _ W6 W7) as T6. pose proof (writes_cons _ _ _ _ _ W5 T6) as T5. pose proof (writes_cons _ _ _ _ _ W4 T5) as T4.
  pose proof (writes_cons _ _ _ _ _ W3 T4) as T3. pose proof (writes_cons _ _ _ _ _ W2 T3) as T2. split; [|exact (writes_cons _ _ _ _ _ W1 T2)].
  rewrite (writes_word16 _ _ _ c1 T2 D1), R1, (writes_word16 _ _ _ c2 T3 D2), R2, (writes_word16 _ _ _ c3 T4 D3), R3, (writes_word16 _ _ _ c4 T5 D4), R4,
    (writes_word _ _ _ c5 T6 D5), R5, (writes_word _ _ _ c6 W7 D6), R6, R7. by destruct s'.
Qed.

(** ** Theorem *)

Definition clamp (dim z : Z) : Z := Z.max 0 (Z.min z (dim - 1)).

(** An event on one axis: an absolute coordinate of 15 bits, or a movement whose sum with
    the position stays within a signed 16-bit word. *)
Inductive axis_event (params : MouseDataParams) (dim pos : Z) : bool -> Z -> Z -> Z -> Prop :=
  | event_absolute moving rel : 0 <= moving < 2 ^ 15 -> axis_event params dim pos true moving rel (moving * dim / 2 ^ 15)
  | event_none rel : rel = 0 -> axis_event params dim pos false 0 rel pos
  | event_relative moving d : moving <> 0 -> - 2 ^ 15 < d < 2 ^ 15 -> d <> 0 ->
      - 2 ^ 15 <= pos + accelerated (mouse_delay params) (mouse_speed_factor params) d < 2 ^ 15 ->
      axis_event params dim pos false moving (u32 d) (clamp dim (pos + accelerated (mouse_delay params) (mouse_speed_factor params) d)).

Lemma axis_event_ok params dim pos absolute moving rel to : axis_event params dim pos absolute moving rel to ->
  0 < dim < 2 ^ 15 -> 0 <= pos < dim -> 0 <= mouse_delay params < 2 ^ 8 ->
  axis_move absolute moving rel dim pos params = Done to /\ 0 <= to < dim.
Proof.
  intros He Hdim Hpos Hdel. unfold axis_move. destruct He as [moving rel Hm|rel ->|moving d Hm Hd Hne Hto].
  - destruct (axis_on_screen true moving 0 dim pos params) as (ax & E & Hr & Ha & _); [done|lia|done|done|]. specialize (Ha eq_refl). rewrite Ha in Hr.
    cbn [orb]. unfold axis_value in *. rewrite E. run_step. by rewrite Ha.
  - done.
  - destruct (axis_on_screen false moving (u32 d) dim pos params) as (ax & E & Hr & _ & Ha); [done|apply wrap_range; lia|done|done|].
    specialize (Ha d eq_refl eq_refl Hd Hne Hto). cbv zeta in Ha. rewrite Ha in Hr. replace (moving =? 0) with false by lia. cbn [orb negb].
    rewrite E. run_step. by rewrite Ha.
Qed.

Lemma set_mouse_data_ok s params btn x y v h tox toy :
  0 < display_width params < 2 ^ 15 -> 0 < display_height params < 2 ^ 15 -> 0 <= mouse_delay params < 2 ^ 8 ->
  0 <= mouse_x s < display_width params -> 0 <= mouse_y s < display_height params -> 0 <= scroll_h s < 2 ^ 16 -> 0 <= scroll_v s < 2 ^ 16 ->
  axis_event params (display_width params) (mouse_x s) (negb (Z.land btn MOUSE_BTN_ABS_X =? 0)) x x tox ->
  axis_event params (display_height params) (mouse_y s) (negb (Z.land btn MOUSE_BTN_ABS_Y =? 0)) y (u32 (- y)) toy ->
  set_mouse_data s params btn x y v h = Done (mkMouse tox toy (u16 (scroll_h s + h)) (u16 (scroll_v s + v))
      (Z.lor (Z.lor (Z.land btn MOUSE_BTN_DOWN_MASK) (if v =? 0 then 0 else 2 ^ 15)) (if h =? 0 then 0 else 2 ^ 23)) 1 1) /\
  0 <= tox < display_width params /\ 0 <= toy < display_height params.
Proof.
  intros Hw Hh Hdel Hx Hy Hsh Hsv Ex Ey. destruct (axis_event_ok _ _ _ _ _ _ _ Ex Hw Hx Hdel) as [Rx Bx].
  destruct (axis_event_ok _ _ _ _ _ _ _ Ey Hh Hy Hdel) as [Ry By]. split; [|done]. clear Ex Ey.
  unfold set_mouse_data. cbv zeta. rewrite Rx, done_bind, Ry, done_bind. clear Rx Ry.
  assert (forall s z, 0 <= s < 2 ^ 16 -> u16 (s + z) = if z =? 0 then s else u16 (s + u16 z)) as Hscroll.
  { clear. intros s z Hs. destruct (Z.eqb_spec z 0) as [->|]; [rewrite wrap_small; lia|by rewrite wrap_add_r]. }
  rewrite (Hscroll (scroll_h s) h), (Hscroll (scroll_v s) v) by done. change (Z.shiftl 1 15) with (2 ^ 15). change (Z.shiftl 1 23) with (2 ^ 23).
  destruct (v =? 0), (h =? 0); cbv iota; by rewrite ?Z.lor_0_r.
Qed.


(** A screen of 1024 by 768, the cursor at 1000, 5: the mouse moves 20 counts right, 30 up. *)
Definition mouse_memory : list Z := [0xE8; 0x03; 5; 0; 0; 0; 0; 0; 0; 0; 0; 0; 0; 0; 0; 0; 0; 0; 0; 0].
Definition mouse_ctx : SetMouseDataCtx := mkMouseCtx 0 2 4 6 8 12 1024 768 3 4 16.


(** An absolute coordinate past 15 bits can scale to a word with the sign bit set, which
    passes the signed comparison with the width. *)
Lemma mouse_absolute_escapes :
  (fun s => mouse_x s) <$> set_mouse_data (mkMouse 0 0 0 0 0 0 0) (mkParams 1024 768 3 4) MOUSE_BTN_ABS_X 0x100000 0 0 0 = Done 0x8000.
Proof. done. Qed.

(** The low byte alone is squared: a movement of 253 counts with a delay of three goes as far as one of none. *)
Lemma mouse_acceleration_wraps : mouse_acceleration 253 3 4 = Done 0x1000 /\ mouse_acceleration 252 3 4 = Done 4065.
Proof. done. Qed.
