(* ===== verification/Font.v ===== *)
(** * Smoothed characters

    [font.rs]: [anti_aliasing] mixes a pixel with the colour of the text, channel by
    channel, by rotating both words. *)

From stdpp Require Import base list.
From Stdlib Require Import ZArith Lia.
From S2P Require Import Prelude Time.

(** ** Definitions *)

Definition blend_byte (fg bg : Z) : Z := u8 (Z.shiftr (fg * 3 +ₘ bg) 2).

Definition blend_body (st : Z * Z * Z) : run (Z * Z * Z + Z) :=
  let '(eax, ebx, bp) := st in
  let out := blend_byte (u8 eax) (u8 ebx) in
  let eax := Z.lor (Z.land eax 0xFFFFFF00) out in
  let eax := rotate_right32 eax 8 in
  let ebx := rotate_right32 ebx 8 in
  let bp := u16 (bp - 1) in
  if bp =? 0 then Done (inr eax) else Done (inl (eax, ebx, bp)).

Definition anti_aliasing (fg bg : Z) : run Z :=
  eax ← loop 3 blend_body (fg, bg, 3);
  Done (rotate_right32 eax 8).

(** ** Words as four bytes *)

Lemma word4_range b0 b1 b2 b3 : is_byte b0 -> is_byte b1 -> is_byte b2 -> is_byte b3 -> 0 <= le4 b0 b1 b2 b3 < 2 ^ 32.
Proof. unfold is_byte, le4. lia. Qed.

Lemma rotate_le4 b0 b1 b2 b3 : is_byte b0 -> is_byte b1 -> is_byte b2 -> is_byte b3 ->
  rotate_right32 (le4 b0 b1 b2 b3) 8 = le4 b1 b2 b3 b0.
Proof.
  intros H0 H1 H2 H3. unfold rotate_right32. rewrite Z.lor_comm, shr_eq, shl32_eq by lia. change (32 - 8) with 24. unfold is_byte in *.
  assert (le4 b0 b1 b2 b3 / 2 ^ 8 = le4 b1 b2 b3 0) as -> by (unfold le4; Z.div_mod_to_equations; lia).
  assert (le4 b0 b1 b2 b3 * 2 ^ 24 mod 2 ^ 32 = b0 * 2 ^ 24) as ->.
  { replace (le4 b0 b1 b2 b3 * 2 ^ 24) with (b0 * 2 ^ 24 + (b1 + 256 * (b2 + 256 * b3)) * 2 ^ 32) by (unfold le4; lia).
    rewrite Z.mod_add by lia. apply Z.mod_small. lia. }
  rewrite lor_mul_add by (unfold le4; lia). unfold le4. lia.
Qed.

Lemma low_le4 b0 b1 b2 b3 : is_byte b0 -> u8 (le4 b0 b1 b2 b3) = b0.
Proof. unfold is_byte, le4, wrap. intros. change (2 ^ 8) with 256. rewrite Z.mul_comm, Z.mod_add by lia. by apply Z.mod_small. Qed.

Lemma set_low_le4 b0 b1 b2 b3 v : is_byte b0 -> is_byte b1 -> is_byte b2 -> is_byte b3 -> is_byte v ->
  Z.lor (Z.land (le4 b0 b1 b2 b3) 0xFFFFFF00) v = le4 v b1 b2 b3.
Proof.
  intros H0 H1 H2 H3 Hv. rewrite (set_low 32 8) by (done || lia || (apply word4_range; done) || exact Hv). unfold is_byte, le4 in *.
  Z.div_mod_to_equations; lia.
Qed.

Lemma blend_byte_ok fg bg : is_byte fg -> is_byte bg -> blend_byte fg bg = (3 * fg + bg) / 4 /\ is_byte (blend_byte fg bg).
Proof.
  unfold is_byte, blend_byte. intros Hf Hb. rewrite (wrap_small 32), shr_eq by lia. change (2 ^ 2) with 4.
  rewrite wrap_small by (Z.div_mod_to_equations; lia). replace (fg * 3) with (3 * fg) by lia. split; [done|]. Z.div_mod_to_equations; lia.
Qed.

(** One turn: the low channel mixed, both words rotated. *)
Lemma blend_step f0 f1 f2 f3 g0 g1 g2 g3 bp : is_byte f0 -> is_byte f1 -> is_byte f2 -> is_byte f3 ->
  is_byte g0 -> is_byte g1 -> is_byte g2 -> is_byte g3 ->
  blend_body (le4 f0 f1 f2 f3, le4 g0 g1 g2 g3, bp) =
    Done (if u16 (bp - 1) =? 0 then inr (le4 f1 f2 f3 (blend_byte f0 g0)) else inl (le4 f1 f2 f3 (blend_byte f0 g0), le4 g1 g2 g3 g0, u16 (bp - 1))).
Proof.
  intros. unfold blend_body. pose proof (proj2 (blend_byte_ok f0 g0 ltac:(done) ltac:(done))).
  rewrite !low_le4, set_low_le4, !rotate_le4 by done. by destruct (u16 (bp - 1) =? 0).
Qed.

(** ** Theorem *)

(** The three colour channels become three parts of the first colour and one of the
    second, rounded down, and the fourth byte is kept; the loop runs its three turns. *)
Theorem anti_aliasing_blends f0 f1 f2 f3 g0 g1 g2 g3 : is_byte f0 -> is_byte f1 -> is_byte f2 -> is_byte f3 ->
  is_byte g0 -> is_byte g1 -> is_byte g2 -> is_byte g3 ->
  anti_aliasing (le4 f0 f1 f2 f3) (le4 g0 g1 g2 g3) = Done (le4 ((3 * f0 + g0) / 4) ((3 * f1 + g1) / 4) ((3 * f2 + g2) / 4) f3).
Proof.
  intros. pose proof (blend_byte_ok f0 g0 ltac:(done) ltac:(done)) as [E0 R0].
  pose proof (blend_byte_ok f1 g1 ltac:(done) ltac:(done)) as [E1 R1]. pose proof (blend_byte_ok f2 g2 ltac:(done) ltac:(done)) as [E2 R2].
  unfold anti_aliasing. rewrite loop_S, blend_step by done. change (u16 (3 - 1)) with 2. run_step. cbn [Z.eqb].
  rewrite loop_S, blend_step by done. change (u16 (2 - 1)) with 1. run_step. cbn [Z.eqb Pos.eqb].
  rewrite loop_S, blend_step by done. change (u16 (1 - 1)) with 0. cbn [Z.eqb]. run_step. by rewrite rotate_le4, E0, E1, E2 by done.
Qed.

Lemma anti_aliasing_blends_witness : anti_aliasing 0x80FF0064 0x00FFFF00 = Done 0x80FF3F4B.
Proof. exact (anti_aliasing_blends 0x64 0 0xFF 0x80 0 0xFF 0xFF 0 ltac:(done) ltac:(done) ltac:(done) ltac:(done) ltac:(done) ltac:(done) ltac:(done) ltac:(done)). Defined.
