(* ===== verification/DrawChar.v ===== *)
(** * Drawing characters

    [draw_char.rs]: a glyph, one byte per row and one bit per column, is drawn into a
    buffer of 32-bit pixels.  At the plain size a pixel may be smoothed: its left and right
    neighbours are mixed with the colour, depending on the pixels around.  At a multiple of
    the size every pixel is a square, and slanted edges are filled with triangles. *)

From stdpp Require Import base list.
From Stdlib Require Import ZArith Lia.
From S2P Require Import Prelude Bitmap Layout Time Font.

(** ** Definitions *)

Record DrawCharCtx := mkDrawChar {
  dc_color : Z; dc_multiplier : Z; dc_buffer : Z; dc_glyph : Z; dc_rows : Z; dc_width_x : Z;
  dc_delta_to_screen : Z; dc_smoothing : Z; dc_getpixel : Z; dc_edx_in : Z
}.

Definition bsf32 (x : Z) : Z := trailing_zeros 32 x.

(** Bit [bit] of the bit string that starts [disp] bytes from [base]. *)
Definition bt_mem (m : list Z) (base disp bit : Z) : run bool :=
  let off := disp + Z.shiftr bit 3 in
  b ← ld8 m (u32 (base + off));
  Done (negb (Z.land (Z.shiftr b (Z.land bit 7)) 1 =? 0)).

Definition load_pix (m : list Z) (p : Z) : run Z := ld32 m p.
Definition store_pix (m : list Z) (p v : Z) : run (list Z) := st32 m p v.

(** [u32::rotate_left]. *)
Definition rol (x k : Z) : Z := Z.lor (x <<ₘ k) (Z.shiftr x (32 - k)).

Definition fasm_subpixel_left (neigh font : Z) : Z :=
  let eax := neigh in
  let ebx := font in
  let ecx := u8 ebx in
  let edx := ecx *ₘ 8 +ₘ ecx in
  let edx := ecx *ₘ 2 +ₘ edx in
  let ecx := u8 eax in
  let ecx := ecx *ₘ 4 +ₘ ecx in
  let edx := edx +ₘ ecx in
  let edx := Z.shiftr edx 4 in
  let eax := Z.lor (Z.land eax 0xFFFFFF00) (Z.land edx 0xFF) in
  let ecx := u8 (Z.shiftr eax 8) in
  let edx := ecx *ₘ 8 +ₘ ecx in
  let edx := ecx *ₘ 2 +ₘ edx in
  let ecx := u8 (Z.shiftr ebx 8) in
  let ecx := ecx *ₘ 4 +ₘ ecx in
  let edx := edx +ₘ ecx in
  let edx := Z.shiftr edx 4 in
  let eax := Z.lor (Z.land eax 0xFFFF00FF) (Z.land edx 0xFF <<ₘ 8) in
  let eax := rol eax 16 in
  let ebx := rol ebx 16 in
  let ecx := u8 eax in
  let edx := ecx in
  let ecx := ecx <<ₘ 3 in
  let ecx := ecx -ₘ edx in
  let edx := u8 ebx in
  let ecx := ecx +ₘ edx in
  let ecx := Z.shiftr ecx 3 in
  let eax := Z.lor (Z.land eax 0xFFFFFF00) (Z.land ecx 0xFF) in
  rol eax 16.

Definition fasm_subpixel_right (neigh font : Z) : Z :=
  let eax := neigh in
  let ebx := font in
  let ecx := u8 eax in
  let edx := ecx in
  let ecx := ecx <<ₘ 3 in
  let ecx := ecx -ₘ edx in
  let edx := u8 ebx in
  let ecx := ecx +ₘ edx in
  let ecx := Z.shiftr ecx 3 in
  let eax := Z.lor (Z.land eax 0xFFFFFF00) (Z.land ecx 0xFF) in
  let ecx := u8 (Z.shiftr eax 8) in
  let edx := ecx *ₘ 8 +ₘ ecx in
  let edx := ecx *ₘ 2 +ₘ edx in
  let ecx := u8 (Z.shiftr ebx 8) in
  let ecx := ecx *ₘ 4 +ₘ ecx in
  let edx := edx +ₘ ecx in
  let edx := Z.shiftr edx 4 in
  let eax := Z.lor (Z.land eax 0xFFFF00FF) (Z.land edx 0xFF <<ₘ 8) in
  let ebx := rol ebx 16 in
  let eax := rol eax 16 in
  let ecx := u8 ebx in
  let edx := ecx *ₘ 8 +ₘ ecx in
  let edx := ecx *ₘ 2 +ₘ edx in
  let ecx := u8 eax in
  let ecx := ecx *ₘ 4 +ₘ ecx in
  let edx := edx +ₘ ecx in
  let edx := Z.shiftr edx 4 in
  let eax := Z.lor (Z.land eax 0xFFFFFF00) (Z.land edx 0xFF) in
  rol eax 16.

Definition oracle_subpixel_left (neigh font : Z) : Z :=
  let nb := u8 neigh in let ng := u8 (Z.shiftr neigh 8) in let nr := u8 (Z.shiftr neigh 16) in
  let fb := u8 font in let fg := u8 (Z.shiftr font 8) in let fr := u8 (Z.shiftr font 16) in
  let b := Z.shiftr (fb * 11 +ₘ nb * 5) 4 in
  let g := Z.shiftr (ng * 11 +ₘ fg * 5) 4 in
  let r := Z.shiftr (nr * 7 +ₘ fr) 3 in
  Z.lor (Z.lor (Z.lor (Z.land neigh 0xFF000000) (r <<ₘ 16)) (g <<ₘ 8)) b.

Definition oracle_subpixel_right (neigh font : Z) : Z :=
  let nb := u8 neigh in let ng := u8 (Z.shiftr neigh 8) in let nr := u8 (Z.shiftr neigh 16) in
  let fb := u8 font in let fg := u8 (Z.shiftr font 8) in let fr := u8 (Z.shiftr font 16) in
  let b := Z.shiftr (nb * 7 +ₘ fb) 3 in
  let g := Z.shiftr (ng * 11 +ₘ fg * 5) 4 in
  let r := Z.shiftr (fr * 11 +ₘ nr * 5) 4 in
  Z.lor (Z.lor (Z.lor (Z.land neigh 0xFF000000) (r <<ₘ 16)) (g <<ₘ 8)) b.

Definition fill_body (edi color : Z) (st : list Z * Z) : run (list Z * Z + list Z) :=
  let '(m, eax) := st in
  m ← store_pix m (edi +ₘ u32 eax *ₘ 4) color;
  let eax := eax - 1 in
  if eax <? 0 then Done (inr m) else Done (inl (m, eax)).

(** [eax] is a signed word. *)
Definition fill_eax_down (m : list Z) (edi eax color : Z) : run (list Z) :=
  if eax <? 0 then Done m else loop (S (Z.to_nat eax)) (fill_body edi color) (m, eax).

Section DrawChar.
(** The pixel under the buffer, by the address of the routine and the index. *)
Context (getpixel_fn : Z -> Z -> Z).

Definition call_getpixel (fn_ptr index : Z) : Z := if fn_ptr =? 0 then 0 else getpixel_fn fn_ptr index.

Definition neighbor_color (m : list Z) (pix delta getpixel toward : Z) : run Z :=
  eax ← load_pix m (u32 (pix + toward));
  Done (if negb (delta =? 0) then call_getpixel getpixel (Z.shiftr (pix +ₘ delta +ₘ u32 toward) 2) else eax).

(** What every pixel of a character shares. *)
Section Pixel.
Context (color delta gp smooth : Z) (oracle : bool).

Definition blend_left (m : list Z) (edi : Z) : run (list Z) :=
  eax ← neighbor_color m edi delta gp (-4);
  eax ← (if smooth =? 1 then anti_aliasing eax color
         else Done (if oracle then oracle_subpixel_left eax color else fasm_subpixel_left eax color));
  store_pix m (u32 (edi - 4)) eax.

Definition blend_right (m : list Z) (edi : Z) : run (list Z) :=
  eax ← neighbor_color m edi delta gp 4;
  eax ← (if smooth =? 1 then anti_aliasing eax color
         else Done (if oracle then oracle_subpixel_right eax color else fasm_subpixel_right eax color));
  store_pix m (edi +ₘ 4) eax.

(** The second half of the left decision: the row above. *)
Definition smooth_left_up (m : list Z) (ebx eax edi : Z) : run (list Z) :=
  up ← bt_mem m ebx (-1) eax;
  if negb up then Done m
  else
    let eax := eax +ₘ 1 in
    up ← bt_mem m ebx (-1) eax;
    if negb up then blend_left m edi
    else
      down ← bt_mem m ebx 1 eax;
      if (down : bool) then Done m
      else
        let eax := eax -ₘ 2 in
        if as_i32 eax <? 0 then blend_left m edi
        else
          up ← bt_mem m ebx (-1) eax;
          if (up : bool) then Done m else blend_left m edi.

Definition smooth_left_1x (m : list Z) (ebx edx edi : Z) : run (list Z) :=
  let eax := bsf32 edx in
  let eax := eax -ₘ 1 in
  if as_i32 eax <? 0 then Done m
  else
    b ← bt_mem m ebx 0 eax;
    if (b : bool) then Done m
    else
      let eax := eax -ₘ 1 in
      b ← (if 0 <=? as_i32 eax then bt_mem m ebx 0 eax else Done false);
      if (b : bool) then Done m
      else
        let eax := eax +ₘ 1 in
        down ← bt_mem m ebx 1 eax;
        if (down : bool) then
          let eax := eax +ₘ 1 in
          down ← bt_mem m ebx 1 eax;
          if negb down then blend_left m edi
          else
            up ← bt_mem m ebx (-1) eax;
            if (up : bool) then Done m
            else
              let eax := eax -ₘ 2 in
              if as_i32 eax <? 0 then blend_left m edi
              else
                down ← bt_mem m ebx 1 eax;
                if negb down then blend_left m edi else smooth_left_up m ebx (eax +ₘ 1) edi
        else smooth_left_up m ebx eax edi.

Definition smooth_right_up (m : list Z) (ebx eax edi : Z) : run (list Z) :=
  up ← bt_mem m ebx (-1) eax;
  if negb up then Done m
  else
    let eax := eax -ₘ 1 in
    up ← bt_mem m ebx (-1) eax;
    if negb up then blend_right m edi
    else
      down ← bt_mem m ebx 1 eax;
      if (down : bool) then Done m
      else
        let eax := eax +ₘ 2 in
        up ← bt_mem m ebx (-1) eax;
        if (up : bool) then Done m else blend_right m edi.

Definition smooth_right_1x (m : list Z) (ebx edx edi : Z) : run (list Z) :=
  let eax := bsf32 edx in
  let eax := eax +ₘ 1 in
  b ← bt_mem m ebx 0 eax;
  if (b : bool) then Done m
  else
    let eax := eax +ₘ 1 in
    b ← bt_mem m ebx 0 eax;
    if (b : bool) then Done m
    else
      let eax := eax -ₘ 1 in
      down ← bt_mem m ebx 1 eax;
      if (down : bool) then
        let eax := eax -ₘ 1 in
        down ← bt_mem m ebx 1 eax;
        if negb down then blend_right m edi
        else
          up ← bt_mem m ebx (-1) eax;
          if (up : bool) then Done m
          else
            let eax := eax +ₘ 2 in
            down ← bt_mem m ebx 1 eax;
            if negb down then blend_right m edi else smooth_right_up m ebx (eax -ₘ 1) edi
      else smooth_right_up m ebx eax edi.
End Pixel.

(** What every square of a scaled character shares.  [esi] is the multiplier; [edi] is the
    start of the row, where the routines put it back. *)
Section Scaled.
Context (color width_x : Z).

(** One turn of a triangle: a run of pixels (or two, one below the other), then the next row. *)
Definition triangle_body (steep : bool) (dy dx : Z) (st : list Z * Z * Z) : run (list Z * Z * Z + list Z) :=
  let '(m, edi, ecx) := st in
  m ← fill_eax_down m edi (as_i32 ecx) color;
  let edi := u32 (edi + dy) in
  m ← (if steep then fill_eax_down m edi (as_i32 ecx) color else Done m);
  let edi := if steep then u32 (edi + dy) else edi in
  let edi := edi +ₘ dx in
  if as_i32 ecx <? 0 then Done (inr m)
  else
    let ecx := ecx -ₘ 1 in
    if as_i32 ecx <? 0 then Done (inr m) else Done (inl (m, edi, ecx)).

Definition scaled_down_right_low (m : list Z) (esi edi ecx_bit : Z) : run (list Z) :=
  let ecx := ecx_bit *ₘ esi <<ₘ 2 in
  let edi := edi +ₘ ecx in
  let esi := esi -ₘ 1 in
  let eax := width_x *ₘ esi in
  let edi := edi +ₘ eax in
  let edi := edi +ₘ 4 in
  let ecx := esi -ₘ 1 in
  loop (S (Z.to_nat ecx)) (triangle_body false (- width_x) 4) (m, edi, ecx).

Definition scaled_down_right_high (m : list Z) (esi edi ecx_bit : Z) : run (list Z) :=
  let ecx := ecx_bit *ₘ esi <<ₘ 2 in
  let edi := edi +ₘ ecx in
  let esi := esi -ₘ 1 in
  let eax := width_x *ₘ esi in
  let edi := edi +ₘ eax in
  let edi := edi +ₘ 4 in
  let ecx := esi -ₘ 1 in
  loop (S (Z.to_nat ecx)) (triangle_body true (- width_x) 4) (m, edi, ecx).

Definition scaled_up_right_low (m : list Z) (esi edi ecx_bit : Z) : run (list Z) :=
  let ecx := ecx_bit *ₘ esi <<ₘ 2 in
  let edi := edi +ₘ ecx in
  let edi := edi +ₘ 4 in
  let ecx := esi -ₘ 2 in
  loop (S (Z.to_nat ecx)) (triangle_body false width_x 4) (m, edi, ecx).

Definition scaled_up_right_high (m : list Z) (esi edi ecx_bit : Z) : run (list Z) :=
  let ecx := ecx_bit *ₘ esi <<ₘ 2 in
  let edi := edi +ₘ ecx in
  let edi := edi +ₘ 4 in
  let ecx := esi -ₘ 2 in
  loop (S (Z.to_nat ecx)) (triangle_body true width_x 4) (m, edi, ecx).

Definition scaled_down_left_low (m : list Z) (esi edi ecx_bit : Z) : run (list Z) :=
  let ecx := ecx_bit *ₘ esi <<ₘ 2 in
  let edi := edi +ₘ ecx in
  let esi := esi -ₘ 1 in
  let eax := width_x *ₘ esi in
  let edi := edi +ₘ eax in
  let ecx := esi -ₘ 1 in
  loop (S (Z.to_nat ecx)) (triangle_body false (- width_x) 0) (m, edi, ecx).

Definition scaled_down_left_high (m : list Z) (esi edi ecx_bit : Z) : run (list Z) :=
  let ecx := ecx_bit *ₘ esi <<ₘ 2 in
  let edi := edi +ₘ ecx in
  let esi := esi -ₘ 1 in
  let eax := width_x *ₘ esi in
  let edi := edi +ₘ eax in
  let ecx := esi -ₘ 1 in
  loop (S (Z.to_nat ecx)) (triangle_body true (- width_x) 0) (m, edi, ecx).

Definition scaled_up_left_low (m : list Z) (esi edi ecx_bit : Z) : run (list Z) :=
  let ecx := ecx_bit *ₘ esi <<ₘ 2 in
  let edi := edi +ₘ ecx in
  let ecx := esi -ₘ 2 in
  loop (S (Z.to_nat ecx)) (triangle_body false width_x 0) (m, edi, ecx).

Definition scaled_up_left_high (m : list Z) (esi edi ecx_bit : Z) : run (list Z) :=
  let ecx := ecx_bit *ₘ esi <<ₘ 2 in
  let edi := edi +ₘ ecx in
  let ecx := esi -ₘ 2 in
  loop (S (Z.to_nat ecx)) (triangle_body true width_x 0) (m, edi, ecx).

Definition scaled_check_left_up (m : list Z) (esi edi ebx edx : Z) : run (list Z) :=
  let eax := bsf32 edx in
  let eax := eax -ₘ 1 in
  b ← bt_mem m ebx (-1) eax;
  if negb b then Done m
  else
    let ecx_bit := eax in
    let low := scaled_up_right_low m esi edi ecx_bit in
    let high := scaled_up_right_high m esi edi ecx_bit in
    let eax := eax +ₘ 1 in
    b ← bt_mem m ebx (-1) eax;
    if negb b then
      b ← bt_mem m ebx 1 eax;
      b ← (if (b : bool) then bt_mem m ebx 2 eax else Done false);
      if (b : bool) then low
      else
        let eax := eax -ₘ 1 in
        b ← bt_mem m ebx 1 eax;
        if (b : bool) then low
        else
          let eax := eax -ₘ 1 in
          if as_i32 eax <? 0 then high
          else
            b ← bt_mem m ebx 2 eax;
            if (b : bool) then low else high
    else
      b ← bt_mem m ebx 1 eax;
      if (b : bool) then Done m
      else
        let eax := eax -ₘ 2 in
        if as_i32 eax <? 0 then low
        else
          b ← bt_mem m ebx (-1) eax;
          if (b : bool) then Done m else low.

Definition scaled_check_left (m : list Z) (esi edi ebx edx : Z) : run (list Z) :=
  let eax := bsf32 edx in
  let eax := eax -ₘ 1 in
  if as_i32 eax <? 0 then Done m
  else
    b ← bt_mem m ebx 0 eax;
    if (b : bool) then Done m
    else
      b ← bt_mem m ebx 1 eax;
      if negb b then scaled_check_left_up m esi edi ebx edx
      else
        let ecx_bit := eax in
        let low := m ← scaled_down_right_low m esi edi ecx_bit; scaled_check_left_up m esi edi ebx edx in
        let high := m ← scaled_down_right_high m esi edi ecx_bit; scaled_check_left_up m esi edi ebx edx in
        let eax := eax +ₘ 1 in
        b ← bt_mem m ebx 1 eax;
        if negb b then
          b ← bt_mem m ebx (-1) eax;
          if negb b then low
          else
            b ← bt_mem m ebx (-2) eax;
            if (b : bool) then low
            else
              let eax := eax -ₘ 1 in
              b ← bt_mem m ebx (-1) eax;
              if (b : bool) then low
              else
                let eax := eax -ₘ 1 in
                if as_i32 eax <? 0 then high
                else
                  b ← bt_mem m ebx (-2) eax;
                  if (b : bool) then low else high
        else
          b ← bt_mem m ebx (-1) eax;
          if (b : bool) then scaled_check_left_up m esi edi ebx edx
          else
            let eax := eax -ₘ 2 in
            if as_i32 eax <? 0 then low
            else
              b ← bt_mem m ebx 1 eax;
              if (b : bool) then scaled_check_left_up m esi edi ebx edx else low.

Definition scaled_check_right_up (m : list Z) (esi edi ebx edx : Z) : run (list Z) :=
  let eax := bsf32 edx in
  let eax := eax +ₘ 1 in
  b ← bt_mem m ebx (-1) eax;
  if negb b then Done m
  else
    let ecx_bit := eax in
    let low := scaled_up_left_low m esi edi ecx_bit in
    let high := scaled_up_left_high m esi edi ecx_bit in
    let eax := eax -ₘ 1 in
    b ← bt_mem m ebx (-1) eax;
    if negb b then
      b ← bt_mem m ebx 1 eax;
      b ← (if (b : bool) then bt_mem m ebx 2 eax else Done false);
      if (b : bool) then low
      else
        let eax := eax +ₘ 1 in
        b ← bt_mem m ebx 1 eax;
        if (b : bool) then low
        else
          let eax := eax +ₘ 1 in
          b ← bt_mem m ebx 2 eax;
          if (b : bool) then low else high
    else
      b ← bt_mem m ebx 1 eax;
      if (b : bool) then Done m
      else
        let eax := eax +ₘ 2 in
        b ← bt_mem m ebx (-1) eax;
        if (b : bool) then Done m else low.

Definition scaled_check_right (m : list Z) (esi edi ebx edx : Z) : run (list Z) :=
  let eax := bsf32 edx in
  let eax := eax +ₘ 1 in
  b ← bt_mem m ebx 0 eax;
  if (b : bool) then Done m
  else
    b ← bt_mem m ebx 1 eax;
    if negb b then scaled_check_right_up m esi edi ebx edx
    else
      let ecx_bit := eax in
      let low := scaled_down_left_low m esi edi ecx_bit in
      let high := scaled_down_left_high m esi edi ecx_bit in
      let eax := eax -ₘ 1 in
      b ← bt_mem m ebx 1 eax;
      if negb b then
        b ← bt_mem m ebx (-1) eax;
        b ← (if (b : bool) then bt_mem m ebx (-2) eax else Done false);
        if (b : bool) then low
        else
          let eax := eax +ₘ 1 in
          b ← bt_mem m ebx (-1) eax;
          if (b : bool) then low
          else
            let eax := eax +ₘ 1 in
            b ← bt_mem m ebx (-2) eax;
            if (b : bool) then low else high
      else
        b ← bt_mem m ebx (-1) eax;
        if (b : bool) then scaled_check_right_up m esi edi ebx edx
        else
          let eax := eax +ₘ 2 in
          b ← bt_mem m ebx 1 eax;
          if (b : bool) then scaled_check_right_up m esi edi ebx edx else low.

Definition square_body (esi : Z) (st : list Z * Z * Z) : run (list Z * Z * Z + list Z) :=
  let '(m, edi, ecx) := st in
  m ← fill_eax_down m edi (as_i32 esi) color;
  let edi := edi +ₘ width_x in
  let ecx := ecx -ₘ 1 in
  if ecx =? 0 then Done (inr m) else Done (inl (m, edi, ecx)).

(** Here [esi] is the multiplier less one, [ecx] the multiplier. *)
Definition scaled_square_and_smooth (m : list Z) (esi edi ecx ebx edx saved : Z) : run (list Z) :=
  m ← loop (S (Z.to_nat (ecx -ₘ 1))) (square_body esi) (m, edi, ecx);
  let esi := esi +ₘ 1 in
  let edi := saved in
  m ← scaled_check_left m esi edi ebx edx;
  scaled_check_right m esi edi ebx edx.
End Scaled.

(** One pixel of a row, while there are bits left. *)
Definition pixel_1x_body (ctx : DrawCharCtx) (ebx edi : Z) (st : list Z * Z) : run (list Z * Z + list Z) :=
  let '(m, edx) := st in
  let smooth := u8 (dc_smoothing ctx) in
  let esi := 1 in
  if edx =? 0 then Done (inr m)
  else
    let bit := bsf32 edx in
    let eax := bit *ₘ esi in
    let eax := eax <<ₘ 2 in
    let edi := edi +ₘ eax in
    m ← store_pix m edi (dc_color ctx);
    m ← (if negb (smooth =? 0) then
           m ← smooth_left_1x (dc_color ctx) (dc_delta_to_screen ctx) (dc_getpixel ctx) smooth false m ebx edx edi;
           smooth_right_1x (dc_color ctx) (dc_delta_to_screen ctx) (dc_getpixel ctx) smooth false m ebx edx edi
         else Done m);
    Done (inl (m, Z.land edx (2 ^ 32 - 1 - (1 <<ₘ bit)))).

Definition row_1x_body (ctx : DrawCharCtx) (st : list Z * Z * Z * Z * Z) : run (list Z * Z * Z * Z * Z + list Z) :=
  let '(m, ebx, edi, edx, rows) := st in
  b ← ld8 m ebx;
  let edx := Z.lor (Z.land edx 0xFFFFFF00) b in
  m ← loop 33 (pixel_1x_body ctx ebx edi) (m, edx);
  let ebx := ebx +ₘ 1 in
  let edi := edi +ₘ dc_width_x ctx in
  let rows := rows -ₘ 1 in
  if rows =? 0 then Done (inr m) else Done (inl (m, ebx, edi, 0, rows)).

Definition draw_char_1x (m : list Z) (ctx : DrawCharCtx) : run (list Z) :=
  loop (S (Z.to_nat (dc_rows ctx -ₘ 1))) (row_1x_body ctx) (m, dc_glyph ctx, dc_buffer ctx, dc_edx_in ctx, dc_rows ctx).

Definition pixel_body (ctx : DrawCharCtx) (oracle : bool) (ebx edi : Z) (st : list Z * Z) : run (list Z * Z + list Z) :=
  let '(m, edx) := st in
  let smooth := u8 (dc_smoothing ctx) in
  let esi := dc_multiplier ctx in
  if edx =? 0 then Done (inr m)
  else
    let bit := bsf32 edx in
    let eax := bit *ₘ esi in
    let eax := eax <<ₘ 2 in
    let saved := edi in
    let edi := edi +ₘ eax in
    let ecx := esi in
    let esi := esi -ₘ 1 in
    m ← (if negb (esi =? 0) then
           scaled_square_and_smooth (dc_color ctx) (dc_width_x ctx) m esi edi ecx ebx edx saved
         else
           m ← store_pix m edi (dc_color ctx);
           if negb (smooth =? 0) then
             m ← smooth_left_1x (dc_color ctx) (dc_delta_to_screen ctx) (dc_getpixel ctx) smooth oracle m ebx edx edi;
             smooth_right_1x (dc_color ctx) (dc_delta_to_screen ctx) (dc_getpixel ctx) smooth oracle m ebx edx edi
           else Done m);
    Done (inl (m, Z.land edx (2 ^ 32 - 1 - (1 <<ₘ bit)))).

Definition row_body (ctx : DrawCharCtx) (oracle : bool) (st : list Z * Z * Z * Z * Z) : run (list Z * Z * Z * Z * Z + list Z) :=
  let '(m, ebx, edi, edx, rows) := st in
  b ← ld8 m ebx;
  let edx := Z.lor (Z.land edx 0xFFFFFF00) b in
  m ← loop 33 (pixel_body ctx oracle ebx edi) (m, edx);
  let ebx := ebx +ₘ 1 in
  let edi := edi +ₘ (dc_width_x ctx *ₘ dc_multiplier ctx) in
  let rows := rows -ₘ 1 in
  if rows =? 0 then Done (inr m) else Done (inl (m, ebx, edi, 0, rows)).

Definition draw_char_fasm (m : list Z) (ctx : DrawCharCtx) (oracle : bool) : run (list Z) :=
  loop (S (Z.to_nat (dc_rows ctx -ₘ 1))) (row_body ctx oracle) (m, dc_glyph ctx, dc_buffer ctx, dc_edx_in ctx, dc_rows ctx).

Definition draw_char (m : list Z) (ctx : DrawCharCtx) : run (list Z) := draw_char_fasm m ctx false.
Definition draw_char_ptr (m : list Z) (ctx : DrawCharCtx) : run (list Z) := draw_char_1x m ctx.
Definition fasm_oracle_draw_char (m : list Z) (ctx : DrawCharCtx) : run (list Z) := draw_char_fasm m ctx true.
End DrawChar.

(** ** Mixed colours *)

Lemma land_u32 n c : 0 <= c < 2 ^ 32 -> Z.land n c = Z.land (u32 n) c.
Proof.
  intros Hc. unfold wrap. rewrite <- (Z.land_ones n 32) by lia. rewrite <- Z.land_assoc, (Z.land_comm (Z.ones 32) c), Z.land_ones by lia. by rewrite Z.mod_small.
Qed.

Lemma word_bytes n : u32 n = le4 (byte_of n 0) (byte_of n 1) (byte_of n 2) (byte_of n 3).
Proof.
  rewrite <- (le4_split (u32 n)) by (apply wrap_range; lia). by rewrite !byte_of_u32 by lia.
Qed.

Lemma byte1_le4 b0 b1 b2 b3 : is_byte b0 -> is_byte b1 -> u8 (Z.shiftr (le4 b0 b1 b2 b3) 8) = b1.
Proof.
  unfold is_byte, le4, wrap. intros. rewrite shr_eq by lia. change (2 ^ 8) with 256. rewrite (Z.mul_comm 256), Z.div_add, Z.div_small, Z.add_0_l by lia.
  rewrite Z.mul_comm, Z.mod_add by lia. by apply Z.mod_small.
Qed.

Lemma high_le4 b0 b1 b2 b3 : is_byte b0 -> is_byte b1 -> is_byte b2 -> is_byte b3 ->
  Z.land (le4 b0 b1 b2 b3) 0xFFFF0000 = le4 0 0 b2 b3 /\ Z.land (le4 b0 b1 b2 b3) 0xFF = b0 /\ Z.land (le4 b0 b1 b2 b3) 0xFF000000 = le4 0 0 0 b3.
Proof.
  intros H0 H1 H2 H3. pose proof (word4_range _ _ _ _ H0 H1 H2 H3). split_and!.
  - rewrite (land_align 32 16 _ ltac:(lia)) by done. unfold align_down, le4, is_byte in *. Z.div_mod_to_equations; lia.
  - rewrite (land_mask _ 8) by done. by apply low_le4.
  - rewrite (land_align 32 24 _ ltac:(lia)) by done. unfold align_down, le4, is_byte in *. Z.div_mod_to_equations; lia.
Qed.

Lemma set_mid_le4 b0 b1 b2 b3 v : is_byte b0 -> is_byte b1 -> is_byte b2 -> is_byte b3 -> is_byte v ->
  Z.lor (Z.land (le4 b0 b1 b2 b3) 0xFFFF00FF) (v <<ₘ 8) = le4 b0 v b2 b3.
Proof.
  intros H0 H1 H2 H3 Hv. change 0xFFFF00FF with (Z.lor 0xFFFF0000 0xFF). rewrite Z.land_lor_distr_r.
  destruct (high_le4 _ _ _ _ H0 H1 H2 H3) as (-> & -> & _). unfold is_byte in *. rewrite shl_fold by lia.
  rewrite <- Z.lor_assoc, (Z.lor_comm b0), (lor_mul_add v b0 8) by lia. replace (le4 0 0 b2 b3) with ((b2 + 256 * b3) * 2 ^ 16) by (unfold le4; lia).
  rewrite lor_mul_add by lia. unfold le4. lia.
Qed.

Lemma rol_le4 b0 b1 b2 b3 : is_byte b0 -> is_byte b1 -> is_byte b2 -> is_byte b3 -> rol (le4 b0 b1 b2 b3) 16 = le4 b2 b3 b0 b1.
Proof.
  intros H0 H1 H2 H3. unfold rol. rewrite shl32_eq, shr_eq by lia. change (32 - 16) with 16. unfold is_byte in *.
  assert (le4 b0 b1 b2 b3 / 2 ^ 16 = le4 b2 b3 0 0) as -> by (unfold le4; Z.div_mod_to_equations; lia).
  assert (le4 b0 b1 b2 b3 * 2 ^ 16 mod 2 ^ 32 = (b0 + 256 * b1) * 2 ^ 16) as ->.
  { replace (le4 b0 b1 b2 b3 * 2 ^ 16) with ((b0 + 256 * b1) * 2 ^ 16 + (b2 + 256 * b3) * 2 ^ 32) by (unfold le4; lia).
    rewrite Z.mod_add by lia. apply Z.mod_small. lia. }
  rewrite lor_mul_add by (unfold le4; lia). unfold le4. lia.
Qed.

Lemma rol_low f : u8 (rol f 16) = byte_of f 2.
Proof.
  unfold rol, byte_of, wrap. apply Z.bits_inj'. intros i Hi. destruct (Z.ltb_spec i 8); [|by rewrite !Z.mod_pow2_bits_high by lia].
  rewrite !Z.mod_pow2_bits_low, Z.lor_spec, Z.mod_pow2_bits_low, Z.shiftl_spec by lia. rewrite (Z.testbit_neg_r f (i - 16)) by lia. done.
Qed.

(** Eleven and five sixteenths; seven eighths and one. *)
Definition mix11 (a b : Z) : Z := (11 * a + 5 * b) / 16.
Definition mix7 (a b : Z) : Z := (7 * a + b) / 8.

Lemma mix11_ok a b : is_byte a -> is_byte b ->
  Z.land (Z.shiftr (a *ₘ 2 +ₘ (a *ₘ 8 +ₘ a) +ₘ (b *ₘ 4 +ₘ b)) 4) 0xFF = mix11 a b /\ Z.shiftr (a * 11 +ₘ b * 5) 4 = mix11 a b /\ is_byte (mix11 a b).
Proof.
  unfold is_byte, mix11. intros Ha Hb. unwrap_small.
  rewrite (land_mask _ 8), !shr_eq by (done || lia). change (2 ^ 4) with 16. replace (a * 11 + b * 5) with (11 * a + 5 * b) by lia.
  replace (a * 2 + (a * 8 + a) + (b * 4 + b)) with (11 * a + 5 * b) by lia. assert (0 <= (11 * a + 5 * b) / 16 < 256) by (Z.div_mod_to_equations; lia).
  split_and!; [by apply wrap_small|done|lia|lia].
Qed.

Lemma mix7_ok a b : is_byte a -> is_byte b ->
  Z.land (Z.shiftr ((a <<ₘ 3) -ₘ a +ₘ b) 3) 0xFF = mix7 a b /\ Z.shiftr (a * 7 +ₘ b) 3 = mix7 a b /\ is_byte (mix7 a b).
Proof.
  unfold is_byte, mix7. intros Ha Hb. rewrite Z.shiftl_mul_pow2 by lia. change (2 ^ 3) with 8. unwrap_small.
  rewrite (land_mask _ 8), !shr_eq by (done || lia). change (2 ^ 3) with 8. replace (a * 7 + b) with (7 * a + b) by lia.
  replace (a * 8 - a + b) with (7 * a + b) by lia. assert (0 <= (7 * a + b) / 8 < 256) by (Z.div_mod_to_equations; lia).
  split_and!; [by apply wrap_small|done|lia|lia].
Qed.

(** Four bytes put together as the oracles do. *)
Lemma assembled n b g r : is_byte b -> is_byte g -> is_byte r ->
  Z.lor (Z.lor (Z.lor (Z.land n 0xFF000000) (r <<ₘ 16)) (g <<ₘ 8)) b = le4 b g r (byte_of n 3).
Proof.
  intros Hb Hg Hr. rewrite land_u32, word_bytes by lia. destruct (high_le4 (byte_of n 0) (byte_of n 1) (byte_of n 2) (byte_of n 3)) as (_ & _ & ->);
    [apply byte_of_range..|]. pose proof (byte_of_range n 3). unfold is_byte in *. rewrite !shl_fold by lia.
  rewrite <- !Z.lor_assoc, (lor_mul_add g b 8), (lor_mul_add r _ 16) by lia.
  replace (le4 0 0 0 (byte_of n 3)) with (byte_of n 3 * 2 ^ 24) by (unfold le4; lia). rewrite lor_mul_add by lia. unfold le4. lia.
Qed.

Lemma subpixel_left_agrees n f : fasm_subpixel_left n f = oracle_subpixel_left n f.
Proof.
  pose proof (byte_of_range n 0) as N0. pose proof (byte_of_range n 1) as N1. pose proof (byte_of_range n 2) as N2. pose proof (byte_of_range n 3) as N3.
  pose proof (byte_of_range f 0) as F0. pose proof (byte_of_range f 1) as F1. pose proof (byte_of_range f 2) as F2.
  unfold fasm_subpixel_left, oracle_subpixel_left. cbv zeta.
  change (u8 (Z.shiftr n 8)) with (byte_of n 1). change (u8 (Z.shiftr f 8)) with (byte_of f 1).
  change (u8 (Z.shiftr n 16)) with (byte_of n 2). change (u8 (Z.shiftr f 16)) with (byte_of f 2).
  replace (u8 n) with (byte_of n 0) by (unfold byte_of; by rewrite Z.shiftr_0_r). replace (u8 f) with (byte_of f 0) by (unfold byte_of; by rewrite Z.shiftr_0_r).
  rewrite (rol_low f). destruct (mix11_ok _ _ F0 N0) as (-> & -> & B0). destruct (mix11_ok _ _ N1 F1) as (M1 & -> & B1). destruct (mix7_ok _ _ N2 F2) as (M2 & -> & B2).
  rewrite (land_u32 n 0xFFFFFF00), word_bytes, set_low_le4 by (done || lia). rewrite byte1_le4, M1, set_mid_le4, rol_le4 by done.
  rewrite low_le4, M2, set_low_le4, rol_le4 by done. by rewrite assembled.
Qed.

Lemma subpixel_right_agrees n f : fasm_subpixel_right n f = oracle_subpixel_right n f.
Proof.
  pose proof (byte_of_range n 0) as N0. pose proof (byte_of_range n 1) as N1. pose proof (byte_of_range n 2) as N2. pose proof (byte_of_range n 3) as N3.
  pose proof (byte_of_range f 0) as F0. pose proof (byte_of_range f 1) as F1. pose proof (byte_of_range f 2) as F2.
  unfold fasm_subpixel_right, oracle_subpixel_right. cbv zeta.
  change (u8 (Z.shiftr n 8)) with (byte_of n 1). change (u8 (Z.shiftr f 8)) with (byte_of f 1).
  change (u8 (Z.shiftr n 16)) with (byte_of n 2). change (u8 (Z.shiftr f 16)) with (byte_of f 2).
  replace (u8 n) with (byte_of n 0) by (unfold byte_of; by rewrite Z.shiftr_0_r). replace (u8 f) with (byte_of f 0) by (unfold byte_of; by rewrite Z.shiftr_0_r).
  rewrite (rol_low f). destruct (mix7_ok _ _ N0 F0) as (-> & -> & B0). destruct (mix11_ok _ _ N1 F1) as (M1 & -> & B1). destruct (mix11_ok _ _ F2 N2) as (M2 & -> & B2).
  rewrite (land_u32 n 0xFFFFFF00), word_bytes, set_low_le4 by (done || lia). rewrite byte1_le4, M1, set_mid_le4, rol_le4 by done.
  rewrite low_le4, M2, set_low_le4, rol_le4 by done. by rewrite assembled.
Qed.

(** ** The oracle *)

Lemma loop_ext {S R} (body body' : S -> run (S + R)) : (forall s, body s = body' s) -> forall fuel s, loop fuel body s = loop fuel body' s.
Proof.
  intros H fuel. induction fuel as [|n IH]; intros s; [done|]. rewrite !loop_S, H. destruct (body' s) as [[s'|r]| |]; [apply IH|done..].
Qed.

Lemma bind_ext {A B} (c c' : run A) (f : A -> run B) : c = c' -> c ≫= f = c' ≫= f.
Proof. by intros ->. Qed.

Section Oracle.
Context (getpixel_fn : Z -> Z -> Z).

Lemma blend_left_oracle color delta gp smooth m edi :
  blend_left getpixel_fn color delta gp smooth true m edi = blend_left getpixel_fn color delta gp smooth false m edi.
Proof. unfold blend_left. destruct (neighbor_color _ _ _ _ _) as [eax| |]; run_step; [|reflexivity..]. by rewrite subpixel_left_agrees. Qed.

Lemma blend_right_oracle color delta gp smooth m edi :
  blend_right getpixel_fn color delta gp smooth true m edi = blend_right getpixel_fn color delta gp smooth false m edi.
Proof. unfold blend_right. destruct (neighbor_color _ _ _ _ _) as [eax| |]; run_step; [|reflexivity..]. by rewrite subpixel_right_agrees. Qed.

Lemma smooth_left_oracle color delta gp smooth m ebx edx edi :
  smooth_left_1x getpixel_fn color delta gp smooth true m ebx edx edi = smooth_left_1x getpixel_fn color delta gp smooth false m ebx edx edi.
Proof. unfold smooth_left_1x, smooth_left_up. by rewrite blend_left_oracle. Qed.

Lemma smooth_right_oracle color delta gp smooth m ebx edx edi :
  smooth_right_1x getpixel_fn color delta gp smooth true m ebx edx edi = smooth_right_1x getpixel_fn color delta gp smooth false m ebx edx edi.
Proof. unfold smooth_right_1x, smooth_right_up. by rewrite blend_right_oracle. Qed.

Lemma smoothed_oracle color delta gp smooth m ebx edx edi :
  (m ← smooth_left_1x getpixel_fn color delta gp smooth true m ebx edx edi; smooth_right_1x getpixel_fn color delta gp smooth true m ebx edx edi) =
  (m ← smooth_left_1x getpixel_fn color delta gp smooth false m ebx edx edi; smooth_right_1x getpixel_fn color delta gp smooth false m ebx edx edi).
Proof. rewrite smooth_left_oracle. destruct (smooth_left_1x _ _ _ _ _ _ _ _ _ _) as [m'| |]; run_step; [|reflexivity..]. apply smooth_right_oracle. Qed.

Lemma pixel_body_oracle ctx ebx edi st : pixel_body getpixel_fn ctx true ebx edi st = pixel_body getpixel_fn ctx false ebx edi st.
Proof.
  destruct st as [m edx]. unfold pixel_body. destruct (edx =? 0); [done|]. apply bind_ext. cbv zeta. destruct (negb (dc_multiplier ctx -ₘ 1 =? 0)); [done|].
  destruct (store_pix _ _ _) as [m'| |]; run_step; [|reflexivity..]. destruct (negb _); [|done]. apply smoothed_oracle.
Qed.

Lemma row_body_oracle ctx st : row_body getpixel_fn ctx true st = row_body getpixel_fn ctx false st.
Proof.
  destruct st as [[[[m ebx] edi] edx] rows]. unfold row_body. destruct (ld8 m ebx) as [b| |]; run_step; [|reflexivity..].
  by rewrite (loop_ext _ _ (pixel_body_oracle ctx ebx edi)).
Qed.

(** The plain-size routine is the general one at multiplier 1. *)
Lemma pixel_1x ctx ebx edi st : dc_multiplier ctx = 1 -> pixel_1x_body getpixel_fn ctx ebx edi st = pixel_body getpixel_fn ctx false ebx edi st.
Proof.
  intros Hm. destruct st as [m edx]. unfold pixel_1x_body, pixel_body. rewrite Hm. destruct (edx =? 0); [done|].
  cbv zeta. assert (negb (1 -ₘ 1 =? 0) = false) as -> by done. destruct (store_pix m _ _) as [m'| |]; run_step; reflexivity.
Qed.

Lemma row_1x ctx st : dc_multiplier ctx = 1 -> row_1x_body getpixel_fn ctx st = row_body getpixel_fn ctx false st.
Proof.
  intros Hm. destruct st as [[[[m ebx] edi] edx] rows]. unfold row_1x_body, row_body. destruct (ld8 m ebx) as [b| |]; run_step; [|reflexivity..].
  rewrite (loop_ext _ _ (fun s => pixel_1x ctx ebx edi s Hm)), Hm. unwrap. by rewrite Z.mul_1_r.
Qed.
End Oracle.

(** C38: the routine the kernel calls for plain characters, the general one and the oracle
    with its own colour formulas compute the same memory, fault for fault, whatever the
    context; the kernel's routine has the multiplier fixed to one. *)
Theorem draw_char_agrees getpixel_fn m ctx :
  draw_char getpixel_fn m ctx = fasm_oracle_draw_char getpixel_fn m ctx /\
  (dc_multiplier ctx = 1 -> draw_char_ptr getpixel_fn m ctx = draw_char getpixel_fn m ctx).
Proof.
  split.
  - symmetry. apply loop_ext. apply row_body_oracle.
  - intros Hm. apply loop_ext. intros s. by apply row_1x.
Qed.

(** ** Postconditions

    [yields c Q]: the call returns, and its result satisfies [Q]. *)
Definition yields {A} (c : run A) (Q : A -> Prop) : Prop := exists a, c = Done a /\ Q a.

Lemma yields_done {A} (a : A) (Q : A -> Prop) : Q a -> yields (Done a) Q.
Proof. intros. by exists a. Qed.

Lemma yields_bind {A B} (c : run A) (f : A -> run B) (P : A -> Prop) (Q : B -> Prop) :
  yields c P -> (forall a, P a -> yields (f a) Q) -> yields (c ≫= f) Q.
Proof. intros (a & -> & Ha) H. exact (H a Ha). Qed.

Lemma yields_weaken {A} (c : run A) (P Q : A -> Prop) : yields c P -> (forall a, P a -> Q a) -> yields c Q.
Proof. intros (a & -> & Ha) H. exists a. auto. Qed.

(** ** Ink

    The buffer is a plane of 32-bit pixels in rows of [W]; [m0] is the memory before, and
    the pixels from [lo] to [hi] may change. *)
Section Ink.
Context (color B W lo hi : Z) (m0 : list Z).
Context (Hcolor : 0 <= color < 2 ^ 32).
Context (Hlo : 0 <= B + 4 * lo) (Hhi : B + 4 * hi <= mlen m0) (Hmem : mlen m0 <= 2 ^ 32).

(** The pixels of [S] have the text colour, and nothing outside the plane has changed. *)
Definition inked (S : Z -> Prop) (m : list Z) : Prop :=
  mlen m = mlen m0 /\ (forall p, S p -> word_at m (B + 4 * p) = color) /\
  (forall a, a < B + 4 * lo \/ B + 4 * hi <= a -> byte_at m a = byte_at m0 a).

Lemma inked_weaken (S S' : Z -> Prop) m : (forall p, S' p -> S p) -> inked S m -> inked S' m.
Proof. intros H (L & I & F). split_and!; [done|auto|done]. Qed.

Lemma smear_store S m p v : inked S m -> lo <= p < hi -> ~ S p -> yields (store_pix m (B + 4 * p) v) (inked S).
Proof.
  intros (L & I & F) Hp Hn. unfold store_pix. exists (write32 m (B + 4 * p) v). rewrite st32_ok by lia. split; [done|]. split_and!.
  - by rewrite mlen_write32.
  - intros q Hq. rewrite word_at_write32_other; [by apply I|lia|lia|]. assert (q <> p) by (intros ->; done). lia.
  - intros a Ha. rewrite byte_at_write32 by lia. replace ((B + 4 * p <=? a) && (a <? B + 4 * p + 4)) with false by lia. by apply F.
Qed.

Lemma ink_store S m p : inked S m -> lo <= p < hi -> yields (store_pix m (B + 4 * p) color) (inked (fun q => S q \/ q = p)).
Proof.
  intros (L & I & F) Hp. unfold store_pix. exists (write32 m (B + 4 * p) color). rewrite st32_ok by lia. split; [done|]. split_and!.
  - by rewrite mlen_write32.
  - intros q Hq. destruct (decide (q = p)) as [->|]; [by apply word_at_write32; lia|]. destruct Hq as [Hq|]; [|done].
    rewrite word_at_write32_other; [by apply I|lia|lia|lia].
  - intros a Ha. rewrite byte_at_write32 by lia. replace ((B + 4 * p <=? a) && (a <? B + 4 * p + 4)) with false by lia. by apply F.
Qed.

Lemma bt_mem_ok S m base disp bit : inked S m -> 0 <= bit -> 0 <= base + (disp + bit / 8) < mlen m0 ->
  bt_mem m base disp bit = Done (Z.testbit (byte_at m (base + (disp + bit / 8))) (bit mod 8)).
Proof.
  intros (L & _ & _) Hb Ha. unfold bt_mem. rewrite shr3, wrap_small, ld8_ok by lia. run_step.
  assert (0 <= bit mod 8) by (apply Z.mod_pos_bound; lia). by rewrite and7, and1_testbit, negb_involutive.
Qed.

(** A run of pixels. *)
Lemma run_ok S m q e : inked S m -> 0 <= e < 2 ^ 31 -> lo <= q -> q + e < hi ->
  yields (fill_eax_down m (B + 4 * q) e color) (inked (fun p => S p \/ q <= p <= q + e)).
Proof.
  intros Hi He Hq1 Hq2. unfold fill_eax_down. replace (e <? 0) with false by lia.
  apply (loop_total (fun st => 0 <= st.2 <= e /\ inked (fun p => S p \/ q + st.2 < p <= q + e) st.1) (fun st => Z.to_nat st.2)).
  - intros [m1 eax] [Hr H]. cbn [fst snd] in *. unfold fill_body. unwrap_small.
    replace (B + 4 * q + eax * 4) with (B + 4 * (q + eax)) by lia.
    destruct (ink_store _ m1 (q + eax) H) as (m2 & -> & H2); [lia|]. run_step.
    assert (inked (fun p => S p \/ q + (eax - 1) < p <= q + e) m2) as H3 by (eapply inked_weaken; [|exact H2]; intros p; cbn; destruct (decide (p = q + eax)); intuition lia).
    destruct (Z.ltb_spec (eax - 1) 0).
    + exists (inr m2). split; [done|]. eapply inked_weaken; [|exact H3]. intros p. cbn. intuition lia.
    + exists (inl (m2, eax - 1)). split; [done|]. cbn. split; [split; [lia|exact H3]|lia].
  - cbn. split; [lia|]. eapply inked_weaken; [|exact Hi]. intros p. intuition lia.
  - cbn. lia.
Qed.

Lemma fill_kept S m q e : inked S m -> 0 <= e < 2 ^ 31 -> lo <= q -> q + e < hi -> yields (fill_eax_down m (B + 4 * q) e color) (inked S).
Proof. intros Hi He H1 H2. eapply yields_weaken; [by apply run_ok|]. intros m'. apply inked_weaken. by left. Qed.

(** A triangle: [e + 1] runs, each one pixel shorter than the one before. *)
Lemma triangle_ok width_x steep DY DX S m q e : inked S m -> 0 <= e < 2 ^ 31 ->
  (forall j, 0 <= j <= e -> let q' := q + j * ((if (steep : bool) then 2 * DY else DY) + DX) in
     (lo <= q' /\ q' + (e - j) < hi) /\ lo <= q' + DY /\ q' + DY + (e - j) < hi) ->
  4 * DY = width_x ->
  yields (loop (Datatypes.S (Z.to_nat e)) (triangle_body color steep width_x (4 * DX)) (m, B + 4 * q, e)) (inked S).
Proof.
  intros Hi He Hr <-. set (step := (if steep then 2 * DY else DY) + DX) in *.
  apply (loop_total (fun st => exists j, 0 <= j <= e /\ st.2 = e - j /\ st.1.2 = B + 4 * (q + j * step) /\ inked S st.1.1) (fun st => Z.to_nat st.2)).
  - intros [[m1 edi] ecx] (j & Hj & E1 & E2 & H1). cbn [fst snd] in *. subst ecx edi. destruct (Hr j Hj) as [[A1 A2] [A3 A4]].
    unfold triangle_body. rewrite (as_signed_small 32) by lia.
    destruct (fill_kept S m1 (q + j * step) (e - j) H1) as (m2 & -> & H2); [lia..|]. run_step.
    replace (B + 4 * (q + j * step) + 4 * DY) with (B + 4 * (q + j * step + DY)) by lia. rewrite (wrap_small 32 (B + 4 * _)) by lia.
    assert (exists m3, (if steep then fill_eax_down m2 (B + 4 * (q + j * step + DY)) (e - j) color else Done m2) = Done m3 /\ inked S m3) as (m3 & -> & H3).
    { destruct steep; [|by exists m2]. by apply fill_kept; [|lia..]. }
    run_step. replace (e - j <? 0) with false by lia. destruct (decide (j = e)) as [->|].
    + exists (inr m3). split; [|done]. by replace (e - e) with 0 by lia.
    + rewrite (wrap_small 32 (e - j - 1)), (as_signed_small 32) by lia. replace (e - j - 1 <? 0) with false by lia. eexists. split; [reflexivity|].
      split; [|cbn; lia]. exists (j + 1). cbn [fst snd]. destruct (Hr (j + 1) ltac:(lia)) as [[C1 C2] _].
      assert (q + (j + 1) * step = q + j * step + (if steep then DY else 0) + DY + DX) as E by (unfold step; destruct steep; lia).
      split_and!; [lia|lia|lia| |done]. destruct steep.
      * rewrite wrap_add_l. replace (_ + 4 * DY + 4 * DX) with (B + 4 * (q + (j + 1) * step)) by lia. rewrite wrap_small; lia.
      * replace (_ + 4 * DX) with (B + 4 * (q + (j + 1) * step)) by lia. rewrite wrap_small; lia.
  - exists 0. cbn. split_and!; [lia..|done].
  - cbn. lia.
Qed.
End Ink.

(** ** The decisions

    Which way a decision goes does not matter for the ink: every path ends with the memory
    as it is or with one mixed neighbour, and only where the row has no pixel. *)
Ltac walk_tests m ebx Hbt := repeat
  match goal with
  | |- context [bt_mem m ebx ?d ?j] =>
      let b := fresh "b" in let E := fresh "E" in
      destruct (Hbt d j) as [b E]; [lia|lia|]; rewrite E; destruct b; cbv iota beta
  end.

Section Smoothing.
Context (getpixel_fn : Z -> Z -> Z) (color delta gp smooth : Z) (oracle : bool).
Context (m : list Z) (ebx edx edi c : Z) (Q : list Z -> Prop).
Context (Hc : bsf32 edx = c) (Hrange : 0 <= c < 8) (Hkeep : Q m).
Context (Hbt : forall d j, -2 <= d <= 2 -> 0 <= j < 16 -> exists b, bt_mem m ebx d j = Done b).

Lemma column_cases : c = 0 \/ c = 1 \/ c = 2 \/ c = 3 \/ c = 4 \/ c = 5 \/ c = 6 \/ c = 7.
Proof. lia. Qed.

Lemma smooth_left_paths :
  (0 < c -> bt_mem m ebx 0 (c - 1) = Done false -> yields (blend_left getpixel_fn color delta gp smooth oracle m edi) Q) ->
  yields (smooth_left_1x getpixel_fn color delta gp smooth oracle m ebx edx edi) Q.
Proof.
  intros Hblend. unfold smooth_left_1x, smooth_left_up. rewrite Hc.
  destruct column_cases as [->|[->|[->|[->|[->|[->|[->| ->]]]]]]]; lazy -[bt_mem blend_left yields];
    [by apply yields_done|..]; cbn [Z.sub Z.add Z.opp Z.pos_sub Pos.pred_double] in Hblend; specialize (Hblend ltac:(lia));
    walk_tests m ebx Hbt; first [by apply yields_done | by apply Hblend].
Qed.

Lemma smooth_right_paths :
  (bt_mem m ebx 0 (c + 1) = Done false -> yields (blend_right getpixel_fn color delta gp smooth oracle m edi) Q) ->
  yields (smooth_right_1x getpixel_fn color delta gp smooth oracle m ebx edx edi) Q.
Proof.
  intros Hblend. unfold smooth_right_1x, smooth_right_up. rewrite Hc.
  destruct column_cases as [->|[->|[->|[->|[->|[->|[->| ->]]]]]]]; lazy -[bt_mem blend_right yields];
    cbn [Z.add Pos.add Pos.succ] in Hblend;
    walk_tests m ebx Hbt; first [by apply yields_done | by apply Hblend].
Qed.
End Smoothing.

Section ScaledPaths.
Context (color width_x esi edi ebx edx c : Z) (Q : list Z -> Prop).
Context (Hc : bsf32 edx = c) (Hrange : 0 <= c < 8).
Context (Hbt : forall m d j, Q m -> -2 <= d <= 2 -> 0 <= j < 16 -> exists b, bt_mem m ebx d j = Done b).

Lemma scaled_left_up_paths m : 0 < c -> Q m ->
  yields (scaled_up_right_low color width_x m esi edi (c - 1)) Q -> yields (scaled_up_right_high color width_x m esi edi (c - 1)) Q ->
  yields (scaled_check_left_up color width_x m esi edi ebx edx) Q.
Proof.
  intros H0 HQ Hl Hh. unfold scaled_check_left_up. rewrite Hc. pose proof (fun d j => Hbt m d j HQ) as Hb.
  destruct (column_cases c Hrange) as [->|[->|[->|[->|[->|[->|[->| ->]]]]]]]; [lia|..];
    lazy -[bt_mem scaled_up_right_low scaled_up_right_high yields]; cbn [Z.sub Z.add Z.opp Z.pos_sub Pos.pred_double] in Hl, Hh;
    walk_tests m ebx Hb; first [by apply yields_done | exact Hl | exact Hh].
Qed.

Lemma scaled_right_up_paths m : Q m ->
  yields (scaled_up_left_low color width_x m esi edi (c + 1)) Q -> yields (scaled_up_left_high color width_x m esi edi (c + 1)) Q ->
  yields (scaled_check_right_up color width_x m esi edi ebx edx) Q.
Proof.
  intros HQ Hl Hh. unfold scaled_check_right_up. rewrite Hc. pose proof (fun d j => Hbt m d j HQ) as Hb.
  destruct (column_cases c Hrange) as [->|[->|[->|[->|[->|[->|[->| ->]]]]]]];
    lazy -[bt_mem scaled_up_left_low scaled_up_left_high yields]; cbn [Z.add Pos.add Pos.succ] in Hl, Hh;
    walk_tests m ebx Hb; first [by apply yields_done | exact Hl | exact Hh].
Qed.

Lemma scaled_left_paths m : Q m ->
  (0 < c -> forall m, Q m -> yields (scaled_down_right_low color width_x m esi edi (c - 1)) Q) ->
  (0 < c -> forall m, Q m -> yields (scaled_down_right_high color width_x m esi edi (c - 1)) Q) ->
  (0 < c -> forall m, Q m -> yields (scaled_check_left_up color width_x m esi edi ebx edx) Q) ->
  yields (scaled_check_left color width_x m esi edi ebx edx) Q.
Proof.
  intros HQ Hl Hh Hu. unfold scaled_check_left. rewrite Hc. pose proof (fun d j => Hbt m d j HQ) as Hb.
  destruct (column_cases c Hrange) as [->|[->|[->|[->|[->|[->|[->| ->]]]]]]];
    [lazy -[yields]; by apply yields_done|..]; specialize (Hl ltac:(lia)); specialize (Hh ltac:(lia)); specialize (Hu ltac:(lia));
    lazy -[bt_mem scaled_down_right_low scaled_down_right_high scaled_check_left_up yields];
    cbn [Z.sub Z.add Z.opp Z.pos_sub Pos.pred_double] in Hl, Hh;
    walk_tests m ebx Hb; first [by apply yields_done | by apply Hu | by eapply yields_bind; [by apply Hl|exact Hu] | by eapply yields_bind; [by apply Hh|exact Hu]].
Qed.

Lemma scaled_right_paths m : Q m ->
  (forall m, Q m -> yields (scaled_down_left_low color width_x m esi edi (c + 1)) Q) ->
  (forall m, Q m -> yields (scaled_down_left_high color width_x m esi edi (c + 1)) Q) ->
  (forall m, Q m -> yields (scaled_check_right_up color width_x m esi edi ebx edx) Q) ->
  yields (scaled_check_right color width_x m esi edi ebx edx) Q.
Proof.
  intros HQ Hl Hh Hu. unfold scaled_check_right. rewrite Hc. pose proof (fun d j => Hbt m d j HQ) as Hb.
  destruct (column_cases c Hrange) as [->|[->|[->|[->|[->|[->|[->| ->]]]]]]];
    lazy -[bt_mem scaled_down_left_low scaled_down_left_high scaled_check_right_up yields];
    cbn [Z.add Pos.add Pos.succ] in Hl, Hh;
    walk_tests m ebx Hb; first [by apply yields_done | by apply Hu | by apply Hl | by apply Hh].
Qed.
End ScaledPaths.

(** ** Glyphs *)

Section Glyph.
Context (getpixel_fn : Z -> Z -> Z) (ctx : DrawCharCtx) (oracle : bool) (m0 : list Z) (W : Z).
Notation k := (dc_multiplier ctx).
Notation B := (dc_buffer ctx).
Notation g := (dc_glyph ctx).
Notation n := (dc_rows ctx).
(** Nine columns of squares fit in a row; a slope reaches at most [k - 1] rows past the glyph. *)
Notation lo := (- (k - 1) * W).
Notation hi := ((n * k + (k - 1)) * W).
Context (Hk : 1 <= k) (HW : 9 * k <= W) (Hwidth : dc_width_x ctx = 4 * W) (Hn : 1 <= n < 2 ^ 32).
Context (Hcolor : 0 <= dc_color ctx < 2 ^ 32).
Context (Hlo : 0 <= B + 4 * lo) (Hhi : B + 4 * hi <= mlen m0) (Hmem : mlen m0 <= 2 ^ 32).
(** The bytes around the glyph can be read, and drawing does not change the glyph. *)
Context (Hg : 2 <= g /\ g + n + 3 <= mlen m0) (Hapart : disjoint (B + 4 * lo) (4 * hi - 4 * lo) g n) (Hbytes : bytes m0).
Context (Hedx : 0 <= dc_edx_in ctx < 256).

Notation ink := (inked (dc_color ctx) B lo hi m0).

Definition row_bits (r : Z) : Z := byte_at m0 (g + r).
(** The pixel in line [i] and column [j] of the square of row [r] and column [c]. *)
Definition square_pixel (r c i j : Z) : Z := (r * k + i) * W + (c * k + j).
Definition in_glyph (r c : Z) : Prop := 0 <= r < n /\ 0 <= c < 8 /\ Z.testbit (row_bits r) c = true.

(** What is drawn when the rows before [r], and of row [r] the columns that are not in [edx], are. *)
Definition drawn (r edx p : Z) : Prop :=
  exists r' c i j, in_glyph r' c /\ (r' < r \/ r' = r /\ Z.testbit edx c = false) /\ 0 <= i < k /\ 0 <= j < k /\ p = square_pixel r' c i j.

Lemma in_plane y x : - (k - 1) <= y < n * k + (k - 1) -> 0 <= x < W -> lo <= y * W + x < hi.
Proof. intros Hy Hx. assert (- (k - 1) * W <= y * W) by nia. assert (y * W + W <= (n * k + (k - 1)) * W) by nia. lia. Qed.

Lemma multiplier_small : k < 2 ^ 31.
Proof. assert (1 <= n * k) by nia. assert (1 * W <= (n * k + (k - 1) + (k - 1)) * W) by (apply Z.mul_le_mono_nonneg_r; lia). lia. Qed.

Lemma plane_address p : lo <= p < hi -> u32 (B + 4 * p) = B + 4 * p.
Proof. intros. apply wrap_small. lia. Qed.

Lemma row_byte r : 0 <= r < n -> 0 <= row_bits r < 256.
Proof. intros. apply (byte_at_range m0 (g + r) Hbytes). Qed.

Lemma glyph_kept S m r : ink S m -> 0 <= r < n -> ld8 m (g + r) = Done (row_bits r).
Proof.
  intros (L & _ & F) Hr. rewrite ld8_ok by lia. f_equal. apply F. unfold disjoint in Hapart. lia.
Qed.

Lemma tests_ok S m r d j : ink S m -> 0 <= r < n -> -2 <= d <= 2 -> 0 <= j < 16 -> exists b, bt_mem m (g + r) d j = Done b.
Proof.
  intros Hi Hr Hd Hj. eexists. eapply bt_mem_ok; [exact Hmem|exact Hi|lia|]. assert (0 <= j / 8 < 2) by (split; [apply Z.div_pos; lia|apply Z.div_lt_upper_bound; lia]). lia.
Qed.

(** The test of the own row. *)
Lemma own_test S m r j : ink S m -> 0 <= r < n -> 0 <= j < 8 -> bt_mem m (g + r) 0 j = Done (Z.testbit (row_bits r) j).
Proof.
  intros Hi Hr Hj. rewrite (bt_mem_ok _ _ _ _ _ Hmem _ _ _ _ _ Hi) by (rewrite ?Z.div_small; lia). rewrite Z.div_small, Z.mod_small by lia.
  rewrite !Z.add_0_r. pose proof (glyph_kept S m r Hi Hr) as E. rewrite ld8_ok in E by (destruct Hi; lia). by injection E as ->.
Qed.

Lemma square_position r c r' c' i j : 0 <= c' < 9 -> 0 <= c < 8 -> 0 <= i < k -> 0 <= j < k -> k = 1 ->
  r * W + c' = square_pixel r' c i j -> r' = r /\ c = c'.
Proof.
  unfold square_pixel. intros Hc' Hc Hi Hj Ek E. rewrite Ek in *. assert (i = 0 /\ j = 0) as [-> ->] by lia. rewrite !Z.mul_1_r, !Z.add_0_r in E.
  assert (r = r') as -> by nia. lia.
Qed.

(** A mixed neighbour is not a pixel of the glyph. *)
Lemma blend_keeps S m r c' v : ink S m -> (forall p, S p -> exists r' c i j, in_glyph r' c /\ 0 <= i < k /\ 0 <= j < k /\ p = square_pixel r' c i j) ->
  k = 1 -> 0 <= r < n -> 0 <= c' < 9 -> ~ in_glyph r c' -> yields (store_pix m (B + 4 * (r * W + c')) v) (ink S).
Proof.
  intros Hi HS Ek Hr Hc' Hno. eapply smear_store; [exact Hlo|exact Hhi|exact Hi| |].
  - apply in_plane; nia.
  - intros Hp. destruct (HS _ Hp) as (r' & c & i & j & Hin & Hi' & Hj & E).
    destruct (square_position r c r' c' i j) as [-> ->]; [lia|apply Hin|lia|lia|lia|done|done].
Qed.

Lemma anti_aliasing_total fg bg : exists v, anti_aliasing fg bg = Done v.
Proof. eexists. unfold anti_aliasing. rewrite loop_S. unfold blend_body at 2. cbv zeta. change (u16 (3 - 1)) with 2. cbn [Z.eqb]. run_step.
  rewrite loop_S. unfold blend_body at 2. cbv zeta. change (u16 (2 - 1)) with 1. cbn [Z.eqb Pos.eqb]. run_step.
  rewrite loop_S. unfold blend_body at 2. cbv zeta. change (u16 (1 - 1)) with 0. cbn [Z.eqb]. run_step. reflexivity. Qed.

Section Row.
Context (S : Z -> Prop) (r c : Z).
Context (HS : forall p, S p -> exists r' c i j, in_glyph r' c /\ 0 <= i < k /\ 0 <= j < k /\ p = square_pixel r' c i j).
Context (Hr : 0 <= r < n) (Hc : 0 <= c < 8).

Lemma neighbor_read m c' delta gp toward : ink S m -> k = 1 -> 0 <= c' < 9 -> 4 * c' = 4 * c + toward ->
  exists v, neighbor_color getpixel_fn m (B + 4 * (r * W + c)) delta gp toward = Done v.
Proof.
  intros Hi Ek Hc' Et. unfold neighbor_color, load_pix. replace (B + 4 * (r * W + c) + toward) with (B + 4 * (r * W + c')) by lia.
  pose proof (in_plane r c' ltac:(nia) ltac:(lia)) as Hp. rewrite plane_address by done. destruct Hi as (L & _).
  rewrite ld32_ok by lia. run_step. by eexists.
Qed.

Lemma blend_left_keeps m smooth : ink S m -> k = 1 -> 0 < c -> ~ in_glyph r (c - 1) ->
  yields (blend_left getpixel_fn (dc_color ctx) (dc_delta_to_screen ctx) (dc_getpixel ctx) smooth oracle m (B + 4 * (r * W + c))) (ink S).
Proof.
  intros Hi Ek H0 Hno. unfold blend_left. destruct (neighbor_read m (c - 1) (dc_delta_to_screen ctx) (dc_getpixel ctx) (-4)) as [v ->]; [done|done|lia|lia|]. run_step.
  assert (exists v', (if smooth =? 1 then anti_aliasing v (dc_color ctx) else Done (if oracle then oracle_subpixel_left v (dc_color ctx) else fasm_subpixel_left v (dc_color ctx))) = Done v') as [v' ->]
    by (destruct (smooth =? 1); [apply anti_aliasing_total|by eexists]). run_step.
  replace (B + 4 * (r * W + c) - 4) with (B + 4 * (r * W + (c - 1))) by lia. rewrite plane_address by (apply in_plane; nia). apply blend_keeps; [done..|lia|done].
Qed.

Lemma blend_right_keeps m smooth : ink S m -> k = 1 -> ~ in_glyph r (c + 1) ->
  yields (blend_right getpixel_fn (dc_color ctx) (dc_delta_to_screen ctx) (dc_getpixel ctx) smooth oracle m (B + 4 * (r * W + c))) (ink S).
Proof.
  intros Hi Ek Hno. unfold blend_right. destruct (neighbor_read m (c + 1) (dc_delta_to_screen ctx) (dc_getpixel ctx) 4) as [v ->]; [done|done|lia|lia|]. run_step.
  assert (exists v', (if smooth =? 1 then anti_aliasing v (dc_color ctx) else Done (if oracle then oracle_subpixel_right v (dc_color ctx) else fasm_subpixel_right v (dc_color ctx))) = Done v') as [v' ->]
    by (destruct (smooth =? 1); [apply anti_aliasing_total|by eexists]). run_step.
  replace (B + 4 * (r * W + c) + 4) with (B + 4 * (r * W + (c + 1))) by lia. rewrite plane_address by (apply in_plane; nia). apply blend_keeps; [done..|lia|done].
Qed.

(** Smoothing at the plain size. *)
Lemma smoothing_keeps m edx smooth : ink S m -> k = 1 -> bsf32 edx = c ->
  yields (m ← smooth_left_1x getpixel_fn (dc_color ctx) (dc_delta_to_screen ctx) (dc_getpixel ctx) smooth oracle m (g + r) edx (B + 4 * (r * W + c));
    smooth_right_1x getpixel_fn (dc_color ctx) (dc_delta_to_screen ctx) (dc_getpixel ctx) smooth oracle m (g + r) edx (B + 4 * (r * W + c))) (ink S).
Proof.
  intros Hi Ek Eb. eapply yields_bind with (P := ink S).
  - apply (smooth_left_paths getpixel_fn _ _ _ _ _ m (g + r) edx _ c); [done|done|done|intros d j; by apply (tests_ok S)|].
    intros H0 Ht. apply blend_left_keeps; [done..|]. intros (_ & Hc' & Hb). rewrite (own_test S) in Ht by (done || lia). congruence.
  - intros m' Hi'. apply (smooth_right_paths getpixel_fn _ _ _ _ _ m' (g + r) edx _ c); [done|done|done|intros d j; by apply (tests_ok S)|].
    intros Ht. apply blend_right_keeps; [done..|]. intros (_ & Hc' & Hb). rewrite (own_test S) in Ht by (done || lia). congruence.
Qed.

(** A triangle in column [b], from the bottom of the row or from its top. *)
Lemma triangle_keeps m steep (up right : bool) b : ink S m -> 2 <= k -> 0 <= b < 9 ->
  yields (loop (Datatypes.S (Z.to_nat (k - 2))) (triangle_body (dc_color ctx) steep (if up then 4 * W else - (4 * W)) (if right then 4 else 0))
    (m, B + 4 * ((r * k + if up then 0 else k - 1) * W + (b * k + if right then 1 else 0)), k - 2)) (ink S).
Proof.
  intros Hi H2 Hb. replace (if right then 4 else 0) with (4 * (if right then 1 else 0)) by by destruct right.
  pose proof multiplier_small as Hk31.
  apply (triangle_ok (dc_color ctx) B lo hi m0 Hcolor Hlo Hhi Hmem _ steep (if up then W else - W)); [done|lia| |by destruct up; lia].
  intros j Hj. cbv zeta. set (x := b * k + if right then 1 else 0).
  set (x' := if right then x + j else x). set (y := r * k + if up then (if steep then 2 * j else j) else (k - 1 - if steep then 2 * j else j)).
  assert (0 <= x' /\ x' + (k - 2 - j) < W) as [Hx Hx'] by (unfold x', x; clear -Hb Hj HW H2; assert (0 <= b * k <= 8 * k) by nia; destruct right; lia).
  assert (0 <= r * k /\ r * k + k <= n * k) as [Hy0 Hy1] by (clear -Hr Hk; nia).
  assert (- (k - 1) <= y - 1 /\ y + 1 < n * k + (k - 1) \/ (steep = false /\ 0 <= y /\ y < n * k)) as Hy by (unfold y; clear -Hy0 Hy1 Hj H2; destruct up, steep; lia).
  set (y' := if up then y + 1 else y - 1).
  assert (- (k - 1) <= y < n * k + (k - 1) /\ - (k - 1) <= y' < n * k + (k - 1)) as [Hry Hry'] by (unfold y'; clear -Hy H2 Hj; destruct up; lia).
  assert (forall z, - (k - 1) <= z < n * k + (k - 1) -> lo <= z * W + x' /\ z * W + x' + (k - 2 - j) < hi) as Hrun.
  { intros z Hz. pose proof (in_plane z x' Hz ltac:(lia)). pose proof (in_plane z (x' + (k - 2 - j)) Hz ltac:(lia)). lia. }
  replace ((r * k + (if up then 0 else k - 1)) * W + x + j * ((if steep then 2 * (if up then W else - W) else if up then W else - W) + (if right then 1 else 0)))
    with (y * W + x') by (unfold y, x'; destruct up, steep, right; lia).
  replace (y * W + x' + (if up then W else - W)) with (y' * W + x') by (unfold y'; destruct up; lia).
  split; [exact (Hrun y Hry)|exact (Hrun y' Hry')].
Qed.

Lemma triangle_start y x p : - (k - 1) <= y < n * k + (k - 1) -> 0 <= x < W -> p = B + 4 * (y * W + x) -> u32 p = B + 4 * (y * W + x).
Proof. intros Hy Hx ->. by apply plane_address, in_plane. Qed.

Lemma triangle_size : 2 <= k -> u32 (k - 2) = k - 2.
Proof. intros H2. pose proof multiplier_small. apply wrap_small. lia. Qed.

Lemma triangle_rows (up : bool) : - (k - 1) <= r * k + (if up then 0 else k - 1) < n * k + (k - 1).
Proof. assert (0 <= r * k /\ r * k + k <= n * k) by nia. destruct up; lia. Qed.

Lemma triangle_columns (right : bool) b : 0 <= b < 9 -> 2 <= k -> 0 <= b * k + (if right then 1 else 0) < W.
Proof. intros Hb H2. assert (0 <= b * k <= 8 * k) by nia. destruct right; lia. Qed.

(** The register arithmetic that leads to a square, and to the first run of a triangle. *)
Lemma pixel_words b : 0 <= b < 9 ->
  (b *ₘ k <<ₘ 2) = 4 * (b * k) /\ B + 4 * (r * k * W) +ₘ 4 * (b * k) = B + 4 * ((r * k + 0) * W + (b * k + 0)).
Proof.
  intros Hb. assert (0 <= b * k <= 8 * k) by nia. assert (0 <= r * k /\ r * k + k <= n * k) by nia.
  assert (1 * W <= hi) by (assert (1 <= n * k) by nia; apply Z.mul_le_mono_nonneg_r; lia). rewrite Z.shiftl_mul_pow2 by lia.
  assert (0 <= (k - 1) * W) by (apply Z.mul_nonneg_nonneg; lia). split; [unwrap_small; lia|]. apply triangle_start; lia.
Qed.

Lemma triangle_words b : 2 <= k -> 0 <= b < 9 ->
  k -ₘ 1 = k - 1 /\ 4 * W *ₘ (k - 1) = 4 * W * (k - 1) /\
  B + 4 * ((r * k + 0) * W + (b * k + 0)) +ₘ 4 * W * (k - 1) = B + 4 * ((r * k + (k - 1)) * W + (b * k + 0)) /\
  B + 4 * ((r * k + 0) * W + (b * k + 0)) +ₘ 4 = B + 4 * ((r * k + 0) * W + (b * k + 1)) /\
  B + 4 * ((r * k + (k - 1)) * W + (b * k + 0)) +ₘ 4 = B + 4 * ((r * k + (k - 1)) * W + (b * k + 1)) /\
  k - 1 -ₘ 1 = k - 2 /\ k -ₘ 2 = k - 2.
Proof.
  intros H2 Hb. pose proof (triangle_rows true) as Ru. pose proof (triangle_rows false) as Rd. cbv iota in Ru, Rd.
  pose proof (triangle_columns true b Hb H2) as Cr. pose proof (triangle_columns false b Hb H2) as Cl. cbv iota in Cr, Cl.
  pose proof (triangle_size H2) as Es. assert (1 * W <= (k - 1) * W) by (apply Z.mul_le_mono_nonneg_r; lia).
  assert (1 * W <= hi) by (assert (1 <= n * k) by nia; apply Z.mul_le_mono_nonneg_r; lia).
  split_and!; try (apply triangle_start; [done|done|lia]); unwrap_small; lia.
Qed.

Lemma down_right_low_keeps m b : ink S m -> 2 <= k -> 0 <= b < 9 ->
  yields (scaled_down_right_low (dc_color ctx) (dc_width_x ctx) m k (B + 4 * (r * k * W)) b) (ink S).
Proof.
  intros Hi H2 Hb. unfold scaled_down_right_low. cbv zeta. destruct (pixel_words b Hb) as (E1 & E2). destruct (triangle_words b H2 Hb) as (E3 & E4 & E5 & E6 & E7 & E8 & E9).
  rewrite Hwidth, E1, E2, E3, E4, E5, E7, E8. exact (triangle_keeps m false false true b Hi H2 Hb).
Qed.

Lemma down_right_high_keeps m b : ink S m -> 2 <= k -> 0 <= b < 9 ->
  yields (scaled_down_right_high (dc_color ctx) (dc_width_x ctx) m k (B + 4 * (r * k * W)) b) (ink S).
Proof.
  intros Hi H2 Hb. unfold scaled_down_right_high. cbv zeta. destruct (pixel_words b Hb) as (E1 & E2). destruct (triangle_words b H2 Hb) as (E3 & E4 & E5 & E6 & E7 & E8 & E9).
  rewrite Hwidth, E1, E2, E3, E4, E5, E7, E8. exact (triangle_keeps m true false true b Hi H2 Hb).
Qed.

Lemma down_left_low_keeps m b : ink S m -> 2 <= k -> 0 <= b < 9 ->
  yields (scaled_down_left_low (dc_color ctx) (dc_width_x ctx) m k (B + 4 * (r * k * W)) b) (ink S).
Proof.
  intros Hi H2 Hb. unfold scaled_down_left_low. cbv zeta. destruct (pixel_words b Hb) as (E1 & E2). destruct (triangle_words b H2 Hb) as (E3 & E4 & E5 & E6 & E7 & E8 & E9).
  rewrite Hwidth, E1, E2, E3, E4, E5, E8. exact (triangle_keeps m false false false b Hi H2 Hb).
Qed.

Lemma down_left_high_keeps m b : ink S m -> 2 <= k -> 0 <= b < 9 ->
  yields (scaled_down_left_high (dc_color ctx) (dc_width_x ctx) m k (B + 4 * (r * k * W)) b) (ink S).
Proof.
  intros Hi H2 Hb. unfold scaled_down_left_high. cbv zeta. destruct (pixel_words b Hb) as (E1 & E2). destruct (triangle_words b H2 Hb) as (E3 & E4 & E5 & E6 & E7 & E8 & E9).
  rewrite Hwidth, E1, E2, E3, E4, E5, E8. exact (triangle_keeps m true false false b Hi H2 Hb).
Qed.

Lemma up_right_low_keeps m b : ink S m -> 2 <= k -> 0 <= b < 9 ->
  yields (scaled_up_right_low (dc_color ctx) (dc_width_x ctx) m k (B + 4 * (r * k * W)) b) (ink S).
Proof.
  intros Hi H2 Hb. unfold scaled_up_right_low. cbv zeta. destruct (pixel_words b Hb) as (E1 & E2). destruct (triangle_words b H2 Hb) as (E3 & E4 & E5 & E6 & E7 & E8 & E9).
  rewrite Hwidth, E1, E2, E6, E9. exact (triangle_keeps m false true true b Hi H2 Hb).
Qed.

Lemma up_right_high_keeps m b : ink S m -> 2 <= k -> 0 <= b < 9 ->
  yields (scaled_up_right_high (dc_color ctx) (dc_width_x ctx) m k (B + 4 * (r * k * W)) b) (ink S).
Proof.
  intros Hi H2 Hb. unfold scaled_up_right_high. cbv zeta. destruct (pixel_words b Hb) as (E1 & E2). destruct (triangle_words b H2 Hb) as (E3 & E4 & E5 & E6 & E7 & E8 & E9).
  rewrite Hwidth, E1, E2, E6, E9. exact (triangle_keeps m true true true b Hi H2 Hb).
Qed.

Lemma up_left_low_keeps m b : ink S m -> 2 <= k -> 0 <= b < 9 ->
  yields (scaled_up_left_low (dc_color ctx) (dc_width_x ctx) m k (B + 4 * (r * k * W)) b) (ink S).
Proof.
  intros Hi H2 Hb. unfold scaled_up_left_low. cbv zeta. destruct (pixel_words b Hb) as (E1 & E2). destruct (triangle_words b H2 Hb) as (E3 & E4 & E5 & E6 & E7 & E8 & E9).
  rewrite Hwidth, E1, E2, E9. exact (triangle_keeps m false true false b Hi H2 Hb).
Qed.

Lemma up_left_high_keeps m b : ink S m -> 2 <= k -> 0 <= b < 9 ->
  yields (scaled_up_left_high (dc_color ctx) (dc_width_x ctx) m k (B + 4 * (r * k * W)) b) (ink S).
Proof.
  intros Hi H2 Hb. unfold scaled_up_left_high. cbv zeta. destruct (pixel_words b Hb) as (E1 & E2). destruct (triangle_words b H2 Hb) as (E3 & E4 & E5 & E6 & E7 & E8 & E9).
  rewrite Hwidth, E1, E2, E9. exact (triangle_keeps m true true false b Hi H2 Hb).
Qed.

Lemma square_ok m : ink S m ->
  yields (loop (Datatypes.S (Z.to_nat (k -ₘ 1))) (square_body (dc_color ctx) (dc_width_x ctx) (k - 1)) (m, B + 4 * ((r * k + 0) * W + (c * k + 0)), k))
    (ink (fun p => S p \/ exists i j, 0 <= i < k /\ 0 <= j < k /\ p = square_pixel r c i j)).
Proof.
  intros Hi. pose proof multiplier_small as Hk31. assert (0 <= r * k /\ r * k + k <= n * k) as [Hy0 Hy1] by nia. assert (0 <= c * k <= 7 * k) by nia.
  assert (1 * W <= hi) by (assert (1 <= n * k) by nia; apply Z.mul_le_mono_nonneg_r; lia).
  apply (loop_total (fun st => exists i, 0 <= i < k /\ st.2 = k - i /\ st.1.2 = B + 4 * ((r * k + i) * W + (c * k + 0)) /\
      ink (fun p => S p \/ exists i' j, 0 <= i' < i /\ 0 <= j < k /\ p = square_pixel r c i' j) st.1.1) (fun st => Z.to_nat (st.2 - 1))).
  - intros [[m1 edi] ecx] (i & Hi' & E1 & E2 & H1). cbn [fst snd] in *. subst ecx edi. unfold square_body. rewrite (as_signed_small 32) by lia.
    pose proof (in_plane (r * k + i) (c * k + 0) ltac:(lia) ltac:(lia)). pose proof (in_plane (r * k + i) (c * k + (k - 1)) ltac:(lia) ltac:(lia)).
    destruct (run_ok (dc_color ctx) B lo hi m0 Hcolor Hlo Hhi Hmem _ m1 ((r * k + i) * W + (c * k + 0)) (k - 1) H1) as (m2 & -> & Hf); [lia..|]. run_step.
    assert (ink (fun p => S p \/ exists i' j, 0 <= i' < i + 1 /\ 0 <= j < k /\ p = square_pixel r c i' j) m2) as Hm.
    { eapply inked_weaken; [|exact Hf]. intros p [Hp|(i' & j & Hi1 & Hj & ->)]; [by left; left|]. destruct (decide (i' = i)) as [->|].
      - right. unfold square_pixel. lia.
      - left. right. exists i', j. split_and!; lia. }
    rewrite (wrap_small 32 (k - i - 1)) by lia. destruct (Z.eqb_spec (k - i - 1) 0).
    + exists (inr m2). split; [done|]. eapply inked_weaken; [|exact Hm]. intros p [Hp|(i' & j & Hi1 & Hj & ->)]; [by left|]. right. exists i', j. split_and!; lia.
    + eexists. split; [reflexivity|]. split; [|cbn; lia]. exists (i + 1). cbn [fst snd]. split_and!; [lia|lia|lia| |exact Hm].
      rewrite Hwidth. apply triangle_start; lia.
  - exists 0. cbn [fst snd]. split_and!; [lia|lia|lia|done|]. eapply inked_weaken; [|exact Hi]. intros p [Hp|(? & ? & ? & _)]; [done|lia].
  - cbn [fst snd]. rewrite wrap_small; lia.
Qed.

Lemma slopes_keep m edx : ink S m -> 2 <= k -> bsf32 edx = c ->
  yields (m ← scaled_check_left (dc_color ctx) (dc_width_x ctx) m k (B + 4 * (r * k * W)) (g + r) edx;
    scaled_check_right (dc_color ctx) (dc_width_x ctx) m k (B + 4 * (r * k * W)) (g + r) edx) (ink S).
Proof.
  intros Hi H2 Eb. assert (forall m d j, ink S m -> -2 <= d <= 2 -> 0 <= j < 16 -> exists b, bt_mem m (g + r) d j = Done b) as Ht by (intros; by apply (tests_ok S)).
  eapply yields_bind with (P := ink S).
  - apply (scaled_left_paths _ _ _ _ _ _ c); [done|done|done|done|..].
    + intros ? m' ?. by apply down_right_low_keeps; [..|lia].
    + intros ? m' ?. by apply down_right_high_keeps; [..|lia].
    + intros ? m' ?. apply (scaled_left_up_paths _ _ _ _ _ _ c); [done|done|done|done|done|by apply up_right_low_keeps; [..|lia]|by apply up_right_high_keeps; [..|lia]].
  - intros m' Hi'. apply (scaled_right_paths _ _ _ _ _ _ c); [done|done|done|done|..].
    + intros m1 ?. by apply down_left_low_keeps; [..|lia].
    + intros m1 ?. by apply down_left_high_keeps; [..|lia].
    + intros m1 ?. apply (scaled_right_up_paths _ _ _ _ _ _ c); [done|done|done|done|by apply up_left_low_keeps; [..|lia]|by apply up_left_high_keeps; [..|lia]].
Qed.
End Row.

(** *** Pixels and rows *)

Lemma drawn_squares r edx p : drawn r edx p -> exists r' c i j, in_glyph r' c /\ 0 <= i < k /\ 0 <= j < k /\ p = square_pixel r' c i j.
Proof. intros (r' & c & i & j & Hin & _ & Hi & Hj & ->). by exists r', c, i, j. Qed.

Lemma drawn_bit r edx c p : 0 <= c < 32 -> drawn r (Z.land edx (2 ^ 32 - 1 - Z.shiftl 1 c)) p ->
  drawn r edx p \/ exists i j, 0 <= i < k /\ 0 <= j < k /\ p = square_pixel r c i j.
Proof.
  intros Hc (r' & c' & i & j & Hin & Hor & Hi & Hj & ->). destruct Hor as [Hlt|[-> Hb]].
  - left. exists r', c', i, j. split_and!; auto with lia.
  - rewrite (btr_word 32) in Hb by (destruct Hin; lia). destruct (Z.eqb_spec c' c) as [->|]; [right; by exists i, j|].
    rewrite andb_true_r in Hb. left. exists r, c', i, j. split_and!; auto with lia.
Qed.

Lemma pixel_step r m edx : 0 <= r < n -> 0 < edx < 256 -> ink (drawn r edx) m ->
  let c := bsf32 edx in let edx' := Z.land edx (2 ^ 32 - 1 - Z.shiftl 1 c) in
  exists m', pixel_body getpixel_fn ctx oracle (g + r) (B + 4 * (r * k * W)) (m, edx) = Done (inl (m', edx')) /\ ink (drawn r edx') m'.
Proof.
  intros Hr He Hi. destruct (trailing_zeros_spec 32 edx) as (Hc0 & Hc1 & Hc2); [lia|]. fold (bsf32 edx) in *. cbv zeta.
  assert (bsf32 edx < 8) as Hc8. { destruct (decide (bsf32 edx < 8)); [done|]. rewrite (testbit_range_false 8) in Hc1; [done|lia|lia]. }
  remember (bsf32 edx) as c eqn:Ec. symmetry in Ec. pose proof multiplier_small as Hk31.
  unfold pixel_body. replace (edx =? 0) with false by lia. cbv zeta. rewrite Ec.
  destruct (pixel_words r Hr c) as (E1 & E2); [lia|]. rewrite E1, E2.
  assert (1 <<ₘ c = Z.shiftl 1 c) as ->. { rewrite Z.shiftl_1_l. apply wrap_small. pose proof (Z.pow_lt_mono_r 2 c 8). pose proof (Z.pow_pos_nonneg 2 c). lia. }
  rewrite (wrap_small 32 (k - 1)) by lia. destruct (Z.eqb_spec (k - 1) 0) as [Ek|Ek]; cbn [negb].
  - destruct (ink_store _ B lo hi m0 Hcolor Hlo Hhi (drawn r edx) m ((r * k + 0) * W + (c * k + 0)) Hi) as (m1 & -> & H1).
    { apply in_plane; nia. }
    run_step. assert (ink (drawn r (Z.land edx (2 ^ 32 - 1 - Z.shiftl 1 c))) m1) as H2.
    { eapply inked_weaken; [|exact H1]. intros p Hp. destruct (drawn_bit r edx c p ltac:(lia) Hp) as [|(i & j & Hi' & Hj & ->)]; [by left|right].
      unfold square_pixel. replace i with 0 by lia. by replace j with 0 by lia. }
    destruct (u8 (dc_smoothing ctx) =? 0); cbn [negb]; [by run_step; eexists|].
    replace ((r * k + 0) * W + (c * k + 0)) with (r * W + c) by (replace k with 1 by lia; lia).
    destruct (smoothing_keeps _ r c (drawn_squares r _) Hr ltac:(lia) m1 edx (u8 (dc_smoothing ctx)) H2 ltac:(lia) Ec) as (m2 & E3 & H3).
    exists m2. split; [|done]. by rewrite E3.
  - unfold scaled_square_and_smooth. destruct (square_ok (drawn r edx) r c Hr ltac:(lia) m Hi) as (m1 & -> & H1). run_step.
    rewrite (wrap_small 32 (k - 1 + 1)), Z.sub_add by lia.
    assert (ink (drawn r (Z.land edx (2 ^ 32 - 1 - Z.shiftl 1 c))) m1) as H2 by (eapply inked_weaken; [|exact H1]; intros p; apply drawn_bit; lia).
    destruct (slopes_keep _ r c Hr ltac:(lia) m1 edx H2 ltac:(lia) Ec) as (m2 & E3 & H3). exists m2. split; [|done]. by rewrite E3.
Qed.

Lemma bits_left r m edx : 0 <= r < n -> 0 <= edx < 256 -> ink (drawn r edx) m ->
  yields (loop 33 (pixel_body getpixel_fn ctx oracle (g + r) (B + 4 * (r * k * W))) (m, edx)) (ink (drawn r 0)).
Proof.
  intros Hr He Hi.
  apply (loop_total (fun st => 0 <= st.2 < 256 /\ ink (drawn r st.2) st.1) (fun st => if st.2 =? 0 then 0%nat else Z.to_nat (32 - bsf32 st.2))).
  - intros [m1 edx1] [Hr1 H1]. cbn [fst snd] in *. destruct (Z.eqb_spec edx1 0) as [->|H0].
    { exists (inr m1). by split. }
    destruct (pixel_step r m1 edx1 Hr ltac:(lia) H1) as (m2 & -> & H2). set (c := bsf32 edx1) in *. set (edx2 := Z.land _ _) in *.
    eexists. split; [reflexivity|]. destruct (trailing_zeros_spec 32 edx1) as (C0 & C1 & C2); [lia|]. fold (bsf32 edx1) in C0, C1, C2. fold c in C0, C1, C2.
    assert (c < 32) as C3 by (apply trailing_zeros_lt; lia).
    assert (0 <= edx2) as E0 by (apply Z.land_nonneg; lia).
    assert (edx2 <= edx1) as E1. { apply Z.ldiff_le; [lia|]. apply Z.bits_inj'. intros j Hj. unfold edx2. rewrite Z.ldiff_spec, Z.land_spec, Z.bits_0. destruct (Z.testbit edx1 j); [apply andb_false_r|done]. }
    cbn [fst snd]. split; [split; [lia|done]|]. destruct (Z.eqb_spec edx2 0); [lia|].
    destruct (trailing_zeros_spec 32 edx2) as (D0 & D1 & D2); [lia|]. assert (trailing_zeros 32 edx2 < 32) as D3 by (apply trailing_zeros_lt; lia).
    fold (bsf32 edx2) in *. unfold edx2 in D1 at 1. rewrite (btr_word 32) in D1 by lia. apply andb_prop in D1 as [D1 D4].
    assert (~ bsf32 edx2 < c) by (intros Hlt; rewrite (C2 (bsf32 edx2)) in D1; [done|lia]). apply negb_true_iff, Z.eqb_neq in D4. lia.
  - by split.
  - cbn [snd]. destruct (Z.eqb_spec edx 0); [lia|]. destruct (trailing_zeros_spec 32 edx) as (D0 & _); [lia|]. fold (bsf32 edx) in D0. lia.
Qed.

(** The next row starts with none of its bits drawn. *)
Lemma next_row r p : drawn (r + 1) (row_bits (r + 1)) p -> drawn r 0 p.
Proof.
  intros (r' & c & i & j & (Hr & Hc & Hb) & Hor & Hi & Hj & ->). exists r', c, i, j. refine (conj (conj Hr (conj Hc Hb)) (conj _ (conj Hi (conj Hj eq_refl)))).
  destruct Hor as [Hlt|[-> Hb']]; [|congruence]. destruct (decide (r' = r)) as [->|]; [right; by rewrite Z.testbit_0_l|left; lia].
Qed.

Lemma first_row_word edx b : Z.land edx 0xFFFFFF00 = 0 -> Z.lor (Z.land edx 0xFFFFFF00) b = b.
Proof. intros ->. apply Z.lor_0_l. Qed.

(** C37: every pixel of the character gets the text colour, smoothed or not, at any size; nothing
    outside the rows of the character and the [k - 1] rows around them changes. *)
Theorem draw_char_inks : exists m', draw_char_fasm getpixel_fn m0 ctx oracle = Done m' /\
  (forall r c i j, in_glyph r c -> 0 <= i < k -> 0 <= j < k -> word_at m' (B + 4 * square_pixel r c i j) = dc_color ctx) /\
  (forall a, a < B + 4 * lo \/ B + 4 * hi <= a -> byte_at m' a = byte_at m0 a).
Proof.
  cut (yields (draw_char_fasm getpixel_fn m0 ctx oracle) (ink (drawn (n - 1) 0))).
  { intros (m' & E & (_ & I & F)). exists m'. split_and!; [done| |done]. intros r c i j Hin Hi Hj. apply I. exists r, c, i, j. pose proof Hin as (Hr & _).
    refine (conj Hin (conj _ (conj Hi (conj Hj eq_refl)))). destruct (decide (r = n - 1)) as [->|]; [right; by rewrite Z.testbit_0_l|left; lia]. }
  unfold draw_char_fasm. set (I := fun st : list Z * Z * Z * Z * Z => let '(m, ebx, edi, edx, rows) := st in
    exists r, 0 <= r < n /\ ebx = g + r /\ edi = B + 4 * (r * k * W) /\ Z.land edx 0xFFFFFF00 = 0 /\ rows = n - r /\ ink (drawn r (row_bits r)) m).
  apply (loop_total I (fun st => Z.to_nat (st.2 - 1))).
  - intros [[[[m ebx] edi] edx] rows] (r & Hr & -> & -> & Hx & -> & Hi). unfold row_body. rewrite (glyph_kept _ m r Hi Hr). run_step. rewrite (first_row_word edx) by done.
    destruct (bits_left r m (row_bits r) Hr (row_byte r Hr) Hi) as (m1 & -> & H1). run_step. rewrite (wrap_small 32 (n - r - 1)) by lia.
    destruct (Z.eqb_spec (n - r - 1) 0) as [Ez|Ez]. { exists (inr m1). split; [done|]. by replace (n - 1) with r by lia. }
    eexists. split; [reflexivity|]. cbn [snd]. split; [|lia]. exists (r + 1). split_and!; [lia|lia|rewrite wrap_small; lia| |done|lia|].
    + rewrite Hwidth. assert (0 <= (r + 1) * k /\ (r + 1) * k + k <= n * k) as [? ?] by nia. assert (0 <= (k - 1) * W) by nia.
      assert (((r + 1) * k + k) * W <= n * k * W) by nia. assert (0 <= r * k * W) by nia. assert (0 <= k * W) by nia. assert (1 * W <= k * W) by nia.
      rewrite (wrap_small 32 (4 * W * k)) by nia. rewrite wrap_small by nia. nia.
    + eapply inked_weaken; [|exact H1]. apply next_row.
  - exists 0. split_and!; [lia..| |lia|].
    + apply Z.bits_inj'. intros j Hj. rewrite Z.land_spec, Z.bits_0. destruct (decide (j < 8)).
      * assert (Z.testbit 0xFFFFFF00 j = false) as ->; [|by rewrite andb_false_r]. assert (j = 0 \/ j = 1 \/ j = 2 \/ j = 3 \/ j = 4 \/ j = 5 \/ j = 6 \/ j = 7) as H by lia. by intuition subst.
      * by rewrite (testbit_range_false 8) by lia.
    + split_and!; [done| |done]. intros p (r' & c & i & j & (Hr & Hc & Hb) & Hor & _). destruct Hor as [|[-> Hb']]; [lia|congruence].
  - cbn [snd]. rewrite wrap_small; lia.
Qed.
End Glyph.

(** Two rows of a glyph at twice the size, without smoothing: one slope. *)
Definition tiny_glyph_memory : list Z := replicate 434 0 ++ [3; 4; 0; 0; 0].
Definition tiny_glyph : DrawCharCtx := mkDrawChar 7 2 72 434 2 72 0 0 0 0.

Lemma draw_char_inks_witness : exists m', draw_char_fasm (fun _ _ => 0) tiny_glyph_memory tiny_glyph false = Done m' /\
  word_at m' (72 + 4 * 0) = 7 /\ word_at m' (72 + 4 * 21) = 7 /\ byte_at m' 435 = 4.
Proof.
  destruct (draw_char_inks (fun _ _ => 0) tiny_glyph false tiny_glyph_memory 18) as (m' & E & P & U);
    [done|done|done|done|done|done|done|done|by split|by left|by apply (bool_decide_unpack _); vm_compute|done|].
  exists m'. split; [exact E|]. clear E. split; [|split].
  - apply (P 0 0 0 0); [repeat split; by vm_compute|done|done].
  - apply (P 0 1 1 1); [repeat split; by vm_compute|done|done].
  - apply (U 435). by right.
Defined.

Lemma draw_char_agrees_witness : let ctx := mkDrawChar 7 1 72 434 2 72 0 1 0 0 in
  draw_char (fun _ _ => 0) tiny_glyph_memory ctx = fasm_oracle_draw_char (fun _ _ => 0) tiny_glyph_memory ctx /\
  draw_char_ptr (fun _ _ => 0) tiny_glyph_memory ctx = draw_char (fun _ _ => 0) tiny_glyph_memory ctx.
Proof.
  intros ctx. destruct (draw_char_agrees (fun _ _ => 0) tiny_glyph_memory ctx) as [H1 H2]. exact (conj H1 (H2 eq_refl)).
Defined.
