(* ===== verification/ImageNames.v ===== *)
(** * Names of the disk image tool

    [kolibri_img/src/main.rs], its text: a [String] is its UTF-8 bytes.  Of the standard
    library it uses the trimming of white space, the splitting at separators and the
    decoding of UTF-8, which are written out here. *)

From Stdlib Require Import String.
From stdpp Require Import base list.
From Stdlib Require Import ZArith Lia.
From S2P Require Import Prelude.

(** ** Definitions *)

(** A [Result]: the error is its message, without the values it is formatted with. *)
Inductive result (A : Type) : Type :=
| Ok (a : A)
| Err (msg : string).
Arguments Ok {A} a.
Arguments Err {A} msg%_string.

(** The [?] operator. *)
Definition rtry {A B} (c : run (result A)) (f : A -> run (result B)) : run (result B) :=
  r ← c; match r with Ok a => f a | Err e => Done (Err e) end.

Declare Scope image_scope.
Notation "x ←? y ; z" := (rtry y (fun x => z)) (at level 20, y at level 100, z at level 200, only parsing) : image_scope.
Notation "' x ←? y ; z" := (rtry y (fun x => z)) (at level 20, x pattern, y at level 100, z at level 200, only parsing) : image_scope.
#[global] Open Scope image_scope.

(** *** White space *)

(** [char::is_whitespace], by the bytes of the character. *)
Definition white1 (b : Z) : bool := (9 <=? b) && (b <=? 13) || (b =? 32).
Definition white2 (b0 b1 : Z) : bool := (b0 =? 0xC2) && ((b1 =? 0x85) || (b1 =? 0xA0)).
Definition white3 (b0 b1 b2 : Z) : bool :=
  (b0 =? 0xE1) && (b1 =? 0x9A) && (b2 =? 0x80) ||
  (b0 =? 0xE2) && (b1 =? 0x80) && ((0x80 <=? b2) && (b2 <=? 0x8A) || (b2 =? 0xA8) || (b2 =? 0xA9) || (b2 =? 0xAF)) ||
  (b0 =? 0xE2) && (b1 =? 0x81) && (b2 =? 0x9F) ||
  (b0 =? 0xE3) && (b1 =? 0x80) && (b2 =? 0x80).

Fixpoint strip (w2 : Z -> Z -> bool) (w3 : Z -> Z -> Z -> bool) (s : list Z) : list Z :=
  match s with
  | [] => []
  | b0 :: s0 =>
      if white1 b0 then strip w2 w3 s0
      else
        match s0 with
        | [] => s
        | b1 :: s1 =>
            if w2 b0 b1 then strip w2 w3 s1
            else
              match s1 with
              | [] => s
              | b2 :: s2 => if w3 b0 b1 b2 then strip w2 w3 s2 else s
              end
        end
  end.

Definition trim_start (s : list Z) : list Z := strip white2 white3 s.
Definition trim_end (s : list Z) : list Z :=
  rev (strip (fun a b => white2 b a) (fun a b c => white3 c b a) (rev s)).
Definition trim (s : list Z) : list Z := trim_end (trim_start s).

(** *** UTF-8 *)

Definition tail_byte (b : Z) : bool := (0x80 <=? b) && (b <=? 0xBF).

(** The bytes that may follow a lead byte, and how many follow; [None]: not a lead byte. *)
Definition utf8_lead (b : Z) : option (nat * Z * Z) :=
  if b <? 0x80 then Some (0%nat, 0, 0)
  else if (0xC2 <=? b) && (b <=? 0xDF) then Some (1%nat, 0x80, 0xBF)
  else if b =? 0xE0 then Some (2%nat, 0xA0, 0xBF)
  else if b =? 0xED then Some (2%nat, 0x80, 0x9F)
  else if (0xE1 <=? b) && (b <=? 0xEF) then Some (2%nat, 0x80, 0xBF)
  else if b =? 0xF0 then Some (3%nat, 0x90, 0xBF)
  else if (0xF1 <=? b) && (b <=? 0xF3) then Some (3%nat, 0x80, 0xBF)
  else if b =? 0xF4 then Some (3%nat, 0x80, 0x8F)
  else None.

(** How many of the next [n] bytes continue the character; the first of them is in
    [[lo, hi]]. *)
Fixpoint utf8_tail (n : nat) (lo hi : Z) (s : list Z) : nat :=
  match n, s with
  | S n', b :: s' => if (lo <=? b) && (b <=? hi) then S (utf8_tail n' 0x80 0xBF s') else 0%nat
  | _, _ => 0%nat
  end.

(** The length of the first character or, with [false], of the bytes that are replaced
    together. *)
Definition utf8_chunk (s : list Z) : nat * bool :=
  match s with
  | [] => (0%nat, true)
  | b :: s' =>
      match utf8_lead b with
      | None => (1%nat, false)
      | Some (n, lo, hi) => let k := utf8_tail n lo hi s' in (S k, Nat.eqb k n)
      end
  end.

Fixpoint utf8_walk (fuel : nat) (s : list Z) : list (list Z * bool) :=
  match fuel, s with
  | S f, _ :: _ => let '(n, ok) := utf8_chunk s in (take n s, ok) :: utf8_walk f (drop n s)
  | _, _ => []
  end.

Definition from_utf8_lossy (s : list Z) : list Z :=
  mjoin (map (fun c : list Z * bool => if snd c then fst c else [0xEF; 0xBF; 0xBD]) (utf8_walk (length s) s)).

Definition from_utf8 (s : list Z) : result (list Z) :=
  if forallb snd (utf8_walk (length s) s) then Ok s else Err "invalid utf-8 sequence".

(** *** Names and paths *)

Definition to_ascii_uppercase (b : Z) : Z := if (97 <=? b) && (b <=? 122) then b - 32 else b.

Definition is_slash (b : Z) : bool := (b =? 47) || (b =? 92).

Fixpoint trim_slashes (s : list Z) : list Z :=
  match s with
  | b :: s' => if is_slash b then trim_slashes s' else s
  | [] => []
  end.

(** [rsplit_once('.')]. *)
Fixpoint rsplit_dot (s : list Z) : option (list Z * list Z) :=
  match s with
  | [] => None
  | b :: s' =>
      match rsplit_dot s' with
      | Some (x, y) => Some (b :: x, y)
      | None => if b =? 46 then Some ([], s') else None
      end
  end.

Fixpoint copy_upper (out : list Z) (i : nat) (s : list Z) : list Z :=
  match s with
  | [] => out
  | b :: s' => copy_upper (<[i := to_ascii_uppercase b]> out) (S i) s'
  end.

Definition contains (b : Z) (s : list Z) : bool := existsb (Z.eqb b) s.

Definition to_fat_83 (name : list Z) : result (list Z) :=
  let name := trim_slashes (trim name) in
  let '(base, ext) := match rsplit_dot name with Some (b, e) => (b, e) | None => (name, []) end in
  if (mlen base =? 0) || (8 <? mlen base) || (3 <? mlen ext) then Err "invalid 8.3 name"
  else if contains 46 base || contains 32 base && (8 <? mlen base) then Err "invalid 8.3 name"
  else
    let out := replicate 11 32 in
    let out := copy_upper out 0 (take 8 base) in
    let out := copy_upper out 8 (take 3 ext) in
    from_utf8 out.

(** [split] at both slashes. *)
Fixpoint split_slash (s : list Z) : list (list Z) :=
  match s with
  | [] => [[]]
  | b :: s' =>
      if is_slash b then [] :: split_slash s'
      else match split_slash s' with c :: cs => (b :: c) :: cs | [] => [[b]] end
  end.

Definition path_components (path : list Z) : list (list Z) :=
  List.filter (fun c => negb (mlen c =? 0) && negb (bool_decide (c = [46]))) (split_slash path).

Definition starts_with (p s : list Z) : bool := bool_decide (take (length p) s = p).
Definition ends_with (p s : list Z) : bool := (mlen p <=? mlen s) && bool_decide (drop (length s - length p) s = p).
Fixpoint contains_str (p s : list Z) : bool := starts_with p s || match s with [] => false | _ :: s' => contains_str p s' end.

(** Whether the file name of a path is that of a reference image: [kolibrios-*.img] without
    [tmp]. *)
Definition refuse_reference_image (name : list Z) : bool :=
  starts_with [107; 111; 108; 105; 98; 114; 105; 111; 115; 45] name && ends_with [46; 105; 109; 103] name && negb (contains_str [116; 109; 112] name).

(** ** Names *)

Lemma Forall_strip P w2 w3 s : Forall P s -> Forall P (strip w2 w3 s).
Proof.
  assert (forall n s, (length s <= n)%nat -> Forall P s -> Forall P (strip w2 w3 s)) as H; [|by apply (H (length s))].
  intros n. induction n as [|n IH]; intros t Hl Ht; destruct t as [|b0 s0]; cbn [length] in Hl; [done|lia|done|]. inversion Ht as [|? ? Hb0 Hs0]; subst. cbn [strip].
  destruct (white1 b0); [apply IH; [lia|done]|]. destruct s0 as [|b1 s1]; [done|]. cbn [length] in Hl. inversion Hs0 as [|? ? Hb1 Hs1]; subst.
  destruct (w2 b0 b1); [apply IH; [lia|done]|]. destruct s1 as [|b2 s2]; [done|]. cbn [length] in Hl. inversion Hs1; subst.
  destruct (w3 b0 b1 b2); [apply IH; [lia|done]|done].
Qed.

Lemma Forall_trim P s : Forall P s -> Forall P (trim s).
Proof. intros H. unfold trim, trim_end. apply Forall_rev, Forall_strip, Forall_rev. by apply Forall_strip. Qed.

Lemma Forall_slashes P s : Forall P s -> Forall P (trim_slashes s).
Proof. induction 1 as [|b s Hb Hs IH]; [done|]. cbn. destruct (is_slash b); [done|]. by constructor. Qed.

Lemma Forall_rsplit P s x y : Forall P s -> rsplit_dot s = Some (x, y) -> Forall P x /\ Forall P y.
Proof.
  intros H. revert x y. induction H as [|b s Hb Hs IH]; intros x y; cbn; [done|]. destruct (rsplit_dot s) as [[x' y']|].
  - intros [= <- <-]. destruct (IH x' y' eq_refl). split; [by constructor|done].
  - destruct (b =? 46); [|done]. by intros [= <- <-].
Qed.

Lemma to_ascii_uppercase_byte b : is_byte b -> is_byte (to_ascii_uppercase b).
Proof. unfold is_byte, to_ascii_uppercase. destruct (_ && _) eqn:E; lia. Qed.

Lemma copy_upper_bytes s : forall out i, bytes out -> bytes s -> bytes (copy_upper out i s) /\ length (copy_upper out i s) = length out.
Proof.
  induction s as [|b s IH]; intros out i Ho Hs; [done|]. cbn. inversion_clear Hs. destruct (IH (<[i:=to_ascii_uppercase b]> out) (S i)) as [IH1 IH2].
  - apply bytes_insert; [done|by apply to_ascii_uppercase_byte].
  - done.
  - split; [done|]. by rewrite IH2, length_insert.
Qed.

(** A name on the disk is eleven bytes. *)
Lemma to_fat_83_shape name f : bytes name -> to_fat_83 name = Ok f -> bytes f /\ mlen f = 11.
Proof.
  intros Hb. unfold to_fat_83. set (s := trim_slashes (trim name)). assert (bytes s) as Hs by by apply Forall_slashes, Forall_trim.
  assert (forall base ext, match rsplit_dot s with Some (b, e) => (b, e) | None => (s, []) end = (base, ext) -> bytes base /\ bytes ext) as Hsp.
  { intros base ext. destruct (rsplit_dot s) as [[x y]|] eqn:E; intros [= <- <-]; [by eapply Forall_rsplit|done]. }
  destruct (match rsplit_dot s with Some (b, e) => (b, e) | None => (s, []) end) as [base ext] eqn:E. destruct (Hsp base ext eq_refl) as [H1 H2].
  destruct (_ || _); [done|]. destruct (_ || _); [done|].
  destruct (copy_upper_bytes (take 8 base) (replicate 11 32) 0) as [B1 L1]; [by apply Forall_replicate|by apply Forall_take|].
  destruct (copy_upper_bytes (take 3 ext) (copy_upper (replicate 11 32) 0 (take 8 base)) 8) as [B2 L2]; [done|by apply Forall_take|].
  rewrite L1 in L2. unfold from_utf8. generalize dependent (copy_upper (copy_upper (replicate 11 32) 0 (take 8 base)) 8 (take 3 ext)). intros out B2 L2.
  destruct (forallb _ _); [|done]. intros [= <-]. split; [done|]. unfold mlen. by rewrite L2.
Qed.
