(* ===== verification/Image.v ===== *)
(** * Disk images

    [kolibri_img/src/main.rs]: the tool that puts files into FAT12 and FAT16 images.  An
    image is the list of its bytes with the decoded boot sector; a slice index out of range
    and a division by zero are [Fault]; an index has 64 bits and does not overflow.  A
    command takes the bytes of the image file and gives the bytes it saves; the host's file
    system around it is not modelled. *)

From Stdlib Require Import String.
From stdpp Require Import base list.
From Stdlib Require Import ZArith Lia.
From S2P Require Import Prelude Layout ImageNames.

(** ** Definitions *)

(** *** Slices *)

(** [&m[a..b]]. *)
Definition slice (m : list Z) (a b : Z) : run (list Z) :=
  if (0 <=? a) && (a <=? b) && (b <=? mlen m) then Done (take (Z.to_nat (b - a)) (drop (Z.to_nat a) m)) else Fault.

(** [m[a..a + bs.len()].copy_from_slice(bs)]. *)
Definition splice (m : list Z) (a : Z) (bs : list Z) : run (list Z) :=
  if (0 <=? a) && (a + mlen bs <=? mlen m)
  then Done (take (Z.to_nat a) m ++ bs ++ drop (Z.to_nat a + length bs) m) else Fault.

Definition is_power_of_two (b : Z) : bool := negb (b =? 0) && (Z.land b (b - 1) =? 0).

Definition saturating_sub (a b : Z) : Z := Z.max 0 (a - b).

(** *** The boot sector *)

Inductive FatKind := Fat12 | Fat16.

#[global] Instance FatKind_eq_dec : EqDecision FatKind.
Proof. solve_decision. Defined.

Record Bpb := mkBpb {
  bp_oem : list Z; bp_bytes_per_sector : Z; bp_sectors_per_cluster : Z; bp_reserved_sectors : Z;
  bp_fat_count : Z; bp_root_entries : Z; bp_total_sectors : Z; bp_media : Z; bp_sectors_per_fat : Z;
  bp_sectors_per_track : Z; bp_heads : Z; bp_fs_type : list Z; bp_fat_kind : FatKind
}.

Definition Bpb_parse (data : list Z) : result Bpb :=
  if mlen data <? 512 then Err "image shorter than one sector"
  else if negb (byte_at data 510 =? 0x55) || negb (byte_at data 511 =? 0xAA) then Err "missing 0x55AA boot signature"
  else
    let u16_at a := le2 (byte_at data a) (byte_at data (a + 1)) in
    let bytes_per_sector := u16_at 11 in
    if (bytes_per_sector =? 0) || negb (is_power_of_two bytes_per_sector) then Err "invalid bytes_per_sector"
    else
      let sectors_per_cluster := byte_at data 13 in
      let reserved_sectors := u16_at 14 in
      let fat_count := byte_at data 16 in
      let root_entries := u16_at 17 in
      let total_sectors_16 := u16_at 19 in
      let media := byte_at data 21 in
      let sectors_per_fat := u16_at 22 in
      let sectors_per_track := u16_at 24 in
      let heads := u16_at 26 in
      let total_sectors_32 := le4 (byte_at data 32) (byte_at data 33) (byte_at data 34) (byte_at data 35) in
      let total_sectors := if negb (total_sectors_16 =? 0) then total_sectors_16 else total_sectors_32 in
      let oem := trim_end (from_utf8_lossy (take 8 (drop 3 data))) in
      let fs_type := trim_end (from_utf8_lossy (take 8 (drop 54 data))) in
      let root_dir_sectors := (root_entries *ₘ 32 +ₘ (bytes_per_sector -ₘ 1)) / bytes_per_sector in
      let data_sectors :=
        saturating_sub (saturating_sub (saturating_sub total_sectors reserved_sectors) (fat_count *ₘ sectors_per_fat)) root_dir_sectors in
      let clusters := if sectors_per_cluster =? 0 then 0 else data_sectors / sectors_per_cluster in
      let fat_kind := if clusters <? 4085 then Fat12 else Fat16 in
      Ok (mkBpb oem bytes_per_sector sectors_per_cluster reserved_sectors fat_count root_entries total_sectors media
            sectors_per_fat sectors_per_track heads fs_type fat_kind).

Definition fat_offset (b : Bpb) : Z := bp_reserved_sectors b * bp_bytes_per_sector b.
Definition root_offset (b : Bpb) : Z := fat_offset b + bp_fat_count b * bp_sectors_per_fat b * bp_bytes_per_sector b.
Definition root_size (b : Bpb) : Z := bp_root_entries b * 32.
Definition data_offset (b : Bpb) : Z := root_offset b + root_size b.
Definition cluster_size (b : Bpb) : Z := bp_sectors_per_cluster b * bp_bytes_per_sector b.

(** *** Directory entries *)

Record DirEntry := mkDirEntry { de_raw_name : list Z; de_attr : Z; de_start_cluster : Z; de_size : Z }.

Definition DirEntry_parse (buf : list Z) : option DirEntry :=
  if (mlen buf <? 32) || (byte_at buf 0 =? 0x00) then None
  else if byte_at buf 0 =? 0xE5 then Some (mkDirEntry (replicate 11 0xE5) (byte_at buf 11) 0 0)
  else
    let raw_name := take 11 buf in
    let attr := byte_at buf 11 in
    let start_cluster := le2 (byte_at buf 26) (byte_at buf 27) in
    let size := le4 (byte_at buf 28) (byte_at buf 29) (byte_at buf 30) (byte_at buf 31) in
    Some (mkDirEntry raw_name attr start_cluster size).

Definition is_deleted (e : DirEntry) : bool := byte_at (de_raw_name e) 0 =? 0xE5.
Definition is_lfn (e : DirEntry) : bool := de_attr e =? 0x0F.
Definition is_volume_label (e : DirEntry) : bool := negb (Z.land (de_attr e) 0x08 =? 0) && (Z.land (de_attr e) 0x10 =? 0).
Definition is_dir (e : DirEntry) : bool := negb (Z.land (de_attr e) 0x10 =? 0).
Definition fat_name (e : DirEntry) : list Z := from_utf8_lossy (de_raw_name e).
Definition display_name (e : DirEntry) : list Z :=
  let name := trim_end (from_utf8_lossy (take 8 (de_raw_name e))) in
  let ext := trim_end (from_utf8_lossy (take 3 (drop 8 (de_raw_name e)))) in
  if mlen ext =? 0 then name else name ++ [46] ++ ext.

(** *** Images *)

Record Image := mkImage { data : list Z; bpb : Bpb }.
Definition with_data (img : Image) (d : list Z) : Image := mkImage d (bpb img).

Definition open (d : list Z) : run (result Image) :=
  Done match Bpb_parse d with Ok b => Ok (mkImage d b) | Err e => Err e end.

(** The test of the two searches for a file. *)
Definition names_file (e : DirEntry) (want : list Z) : bool :=
  negb (is_deleted e) && negb (is_lfn e) && negb (is_volume_label e) && bool_decide (de_raw_name e = want).

Inductive scan := Found (abs : Z) (e : DirEntry) | EndMark | Past.

(** One 32-byte entry at [base + off]; the loop is in both searches. *)
Definition dirent_body (img : Image) (base size : Z) (want : list Z) (off : Z) : run (Z + scan) :=
  if off + 32 <=? size then
    let abs := base + off in
    chunk ← slice (data img) abs (abs + 32);
    if byte_at chunk 0 =? 0x00 then Done (inr EndMark)
    else
      match DirEntry_parse chunk with
      | Some e => if names_file e want then Done (inr (Found abs e)) else Done (inl (off + 32))
      | None => Done (inl (off + 32))
      end
  else Done (inr Past).

Definition find_root_file_offset (img : Image) (want : list Z) : run (option (Z * DirEntry)) :=
  let base := root_offset (bpb img) in
  let size := root_size (bpb img) in
  s ← loop (S (Z.to_nat (size / 32))) (dirent_body img base size want) 0;
  Done match s with Found abs e => Some (abs, e) | _ => None end.

Definition find_root_file (img : Image) (want : list Z) : run (option DirEntry) :=
  r ← find_root_file_offset img want; Done match r with Some (_, e) => Some e | None => None end.

Fixpoint chunks_exact (fuel : nat) (region : list Z) : list (list Z) :=
  match fuel with
  | S f => if mlen region <? 32 then [] else take 32 region :: chunks_exact f (drop 32 region)
  | O => []
  end.

Fixpoint parse_chunks (chunks : list (list Z)) : list DirEntry :=
  match chunks with
  | [] => []
  | c :: cs =>
      match DirEntry_parse c with
      | None => []
      | Some e => if is_deleted e then parse_chunks cs else e :: parse_chunks cs
      end
  end.

Definition parse_dir_region_bytes (region : list Z) : list DirEntry :=
  parse_chunks (chunks_exact (length region) region).

Definition parse_dir_region (img : Image) (offset size : Z) : run (result (list DirEntry)) :=
  if mlen (data img) <? offset + size then Done (Err "directory region out of bounds")
  else region ← slice (data img) offset (offset + size); Done (Ok (parse_dir_region_bytes region)).

Definition list_root (img : Image) : run (result (list DirEntry)) :=
  parse_dir_region img (root_offset (bpb img)) (root_size (bpb img)).

(** *** The allocation table *)

Definition is_eoc (img : Image) (cluster : Z) : bool :=
  match bp_fat_kind (bpb img) with Fat12 => 0x0FF8 <=? cluster | Fat16 => 0xFFF8 <=? cluster end.
Definition eoc_value (img : Image) : Z :=
  match bp_fat_kind (bpb img) with Fat12 => 0x0FFF | Fat16 => 0xFFFF end.

Definition fat_get (img : Image) (cluster : Z) : run (result Z) :=
  fat ← slice (data img) (fat_offset (bpb img)) (mlen (data img));
  let fat_size := bp_sectors_per_fat (bpb img) * bp_bytes_per_sector (bpb img) in
  match bp_fat_kind (bpb img) with
  | Fat12 =>
      let i := cluster in
      let offset := i + i / 2 in
      if fat_size <=? offset + 1 then Done (Err "FAT12 index out of range")
      else
        val ← ld16 fat offset;
        Done (Ok (if Z.land i 1 =? 0 then Z.land val 0x0FFF else Z.shiftr val 4))
  | Fat16 =>
      let offset := cluster * 2 in
      if fat_size <=? offset + 1 then Done (Err "FAT16 index out of range")
      else val ← ld16 fat offset; Done (Ok val)
  end.

Definition fat_next (img : Image) (cluster : Z) : run (result Z) := fat_get img cluster.

Definition fat_set (img : Image) (cluster value : Z) : run (result Image) :=
  match bp_fat_kind (bpb img) with
  | Fat12 =>
      let i := cluster in
      let offset := fat_offset (bpb img) + i + i / 2 in
      if mlen (data img) <=? offset + 1 then Done (Err "FAT12 write out of range")
      else
        cur ← ld16 (data img) offset;
        let cur :=
          if Z.land i 1 =? 0 then Z.lor (Z.land cur 0xF000) (Z.land (u16 value) 0x0FFF)
          else Z.lor (Z.land cur 0x000F) (u16 (Z.shiftl (Z.land (u16 value) 0x0FFF) 4)) in
        d ← st8 (data img) offset (u8 (Z.land cur 0xFF));
        d ← st8 d (offset + 1) (u8 (Z.shiftr cur 8));
        Done (Ok (with_data img d))
  | Fat16 =>
      let offset := fat_offset (bpb img) + cluster * 2 in
      if mlen (data img) <=? offset + 1 then Done (Err "FAT16 write out of range")
      else
        let v := u16 value in
        d ← st8 (data img) offset (byte_of v 0);
        d ← st8 d (offset + 1) (byte_of v 1);
        Done (Ok (with_data img d))
  end.

Definition cluster_offset (img : Image) (cluster : Z) : result Z :=
  if cluster <? 2 then Err "invalid cluster < 2"
  else Ok (data_offset (bpb img) + (cluster - 2) * cluster_size (bpb img)).

Definition max_cluster (img : Image) : run Z :=
  let data_bytes := saturating_sub (mlen (data img)) (data_offset (bpb img)) in
  if cluster_size (bpb img) =? 0 then Fault
  else
    let clusters := data_bytes / cluster_size (bpb img) in
    Done (Z.max (Z.min (u32 clusters + 1) (2 ^ 32 - 1)) 2).

(** The loops over chains give up after this many clusters. *)
Definition GUARD : Z := 1000000.
Definition chain_fuel : nat := Z.to_nat (GUARD + 2).

Definition read_body (img : Image) (max_bytes : option Z) (st : Z * list Z * Z) : run (Z * list Z * Z + result (list Z)) :=
  let '(cluster, out, guard) := st in
  if (2 <=? cluster) && negb (is_eoc img cluster) then
    match cluster_offset img cluster with
    | Err e => Done (inr (Err e))
    | Ok off =>
        let stop := off + cluster_size (bpb img) in
        if mlen (data img) <? stop then Done (inr (Err "cluster points past end of image"))
        else
          bs ← slice (data img) off stop;
          let out := out ++ bs in
          if match max_bytes with Some max => max <=? mlen out | None => false end then Done (inr (Ok out))
          else
            next ← fat_next img cluster;
            match next with
            | Err e => Done (inr (Err e))
            | Ok cluster =>
                let guard := guard + 1 in
                if GUARD <? guard then Done (inr (Err "FAT chain too long / loop detected"))
                else Done (inl (cluster, out, guard))
            end
    end
  else Done (inr (Ok out)).

Definition read_clusters (img : Image) (start : Z) (max_bytes : option Z) : run (result (list Z)) :=
  if start <? 2 then Done (Ok []) else loop chain_fuel (read_body img max_bytes) (start, [], 0).

Definition read_file (img : Image) (entry : DirEntry) : run (result (list Z)) :=
  d ←? read_clusters img (de_start_cluster entry) (Some (de_size entry));
  Done (Ok (take (Z.to_nat (de_size entry)) d)).

Definition free_body (st : Image * Z * Z) : run (Image * Z * Z + result Image) :=
  let '(img, cluster, guard) := st in
  if (2 <=? cluster) && negb (is_eoc img cluster) then
    next ← fat_get img cluster;
    match next with
    | Err e => Done (inr (Err e))
    | Ok next =>
        r ← fat_set img cluster 0;
        match r with
        | Err e => Done (inr (Err e))
        | Ok img =>
            let cluster := next in
            let guard := guard + 1 in
            if GUARD <? guard then Done (inr (Err "FAT free: chain too long / loop"))
            else Done (inl (img, cluster, guard))
        end
    end
  else Done (inr (Ok img)).

Definition free_chain (img : Image) (start : Z) : run (result Image) :=
  if start <? 2 then Done (Ok img) else loop chain_fuel free_body (img, start, 0).

Definition alloc_body (img : Image) (max c : Z) : run (Z + result (Image * Z)) :=
  if c <=? max then
    v ← fat_get img c;
    match v with
    | Err e => Done (inr (Err e))
    | Ok v =>
        if v =? 0 then r ← (img ←? fat_set img c (eoc_value img); Done (Ok (img, c))); Done (inr r)
        else Done (inl (c + 1))
    end
  else Done (inr (Err "no free clusters on image")).

Definition alloc_cluster (img : Image) : run (result (Image * Z)) :=
  max ← max_cluster img; loop (Z.to_nat max) (alloc_body img max) 2.

Definition write_body (st : Image * Z * list Z) : run (Image * Z * list Z + result Image) :=
  let '(img, prev, remaining) := st in
  let cs := cluster_size (bpb img) in
  match cluster_offset img prev with
  | Err e => Done (inr (Err e))
  | Ok off =>
      let stop := off + cs in
      if mlen (data img) <? stop then Done (inr (Err "allocated cluster past end of image"))
      else
        d ← splice (data img) off (replicate (Z.to_nat cs) 0);
        let n := Z.to_nat (Z.min (mlen remaining) cs) in
        d ← splice d off (take n remaining);
        let img := with_data img d in
        let remaining := drop n remaining in
        if mlen remaining =? 0 then r ← fat_set img prev (eoc_value img); Done (inr r)
        else
          r ← (' (img, next) ←? alloc_cluster img; img ←? fat_set img prev next; Done (Ok (img, next)));
          match r with Err e => Done (inr (Err e)) | Ok (img, next) => Done (inl (img, next, remaining)) end
  end.

Definition allocate_and_write (img : Image) (bs : list Z) : run (result (Image * Z)) :=
  ' (img, first) ←? alloc_cluster img;
  img ←? loop (S (length bs)) write_body (img, first, bs);
  Done (Ok (img, u16 first)).

(** *** Writing the directory *)

Definition mark_dirent_deleted (img : Image) (offset : Z) : run (result Image) :=
  if mlen (data img) <=? offset then Done (Err "dirent offset out of range")
  else d ← st8 (data img) offset 0xE5; Done (Ok (with_data img d)).

Definition update_dirent (img : Image) (offset start size : Z) : run (result Image) :=
  if mlen (data img) <? offset + 32 then Done (Err "dirent offset out of range")
  else
    d ← store_bytes (data img) (offset + 26) [byte_of start 0; byte_of start 1];
    d ← store_bytes d (offset + 20) [0; 0];
    d ← store_bytes d (offset + 28) [byte_of size 0; byte_of size 1; byte_of size 2; byte_of size 3];
    Done (Ok (with_data img d)).

Definition free_dirent_body (img : Image) (base size off : Z) : run (Z + result Z) :=
  if off + 32 <=? size then
    let o := base + off in
    first ← ld8 (data img) o;
    if (first =? 0x00) || (first =? 0xE5) then Done (inr (Ok o)) else Done (inl (off + 32))
  else Done (inr (Err "root directory is full")).

Definition find_free_root_dirent (img : Image) : run (result Z) :=
  let base := root_offset (bpb img) in
  let size := root_size (bpb img) in
  loop (S (Z.to_nat (size / 32))) (free_dirent_body img base size) 0.

Definition write_new_root_dirent (img : Image) (offset : Z) (name : list Z) (start size : Z) : run (result Image) :=
  if mlen (data img) <? offset + 32 then Done (Err "dirent offset out of range")
  else if negb (mlen name =? 11) then Done (Err "internal: FAT 8.3 name must be 11 bytes")
  else
    d ← splice (data img) offset name;
    d ← st8 d (offset + 11) 0x20;
    d ← store_bytes d (offset + 12) (replicate 14 0);
    update_dirent (with_data img d) offset start size.

Definition mirror_body (b : Bpb) (st : list Z * Z) : run (list Z * Z + result (list Z)) :=
  let '(d, copy) := st in
  let fat_size := bp_sectors_per_fat b * bp_bytes_per_sector b in
  let first := fat_offset b in
  if copy <? bp_fat_count b then
    let dst := first + copy * fat_size in
    if mlen d <? dst + fat_size then Done (inr (Err "FAT mirror out of range"))
    else
      bs ← slice d first (first + fat_size);
      d ← splice d dst bs;
      Done (inl (d, copy + 1))
  else Done (inr (Ok d)).

Definition mirror_fats (img : Image) : run (result Image) :=
  d ←? loop (Z.to_nat (bp_fat_count (bpb img)) + 1) (mirror_body (bpb img)) (data img, 1);
  Done (Ok (with_data img d)).

(** *** Paths *)

Definition find_cluster_body (img : Image) (want : list Z) (st : Z * Z) : run (Z * Z + result (option (Z * DirEntry))) :=
  let '(cluster, guard) := st in
  if (2 <=? cluster) && negb (is_eoc img cluster) then
    match cluster_offset img cluster with
    | Err e => Done (inr (Err e))
    | Ok base =>
        let cs := cluster_size (bpb img) in
        s ← loop (S (Z.to_nat (cs / 32))) (dirent_body img base cs want) 0;
        match s with
        | Found abs e => Done (inr (Ok (Some (abs, e))))
        | EndMark => Done (inr (Ok None))
        | Past =>
            next ← fat_next img cluster;
            match next with
            | Err e => Done (inr (Err e))
            | Ok cluster =>
                let guard := guard + 1 in
                if GUARD <? guard then Done (inr (Err "FAT chain too long / loop detected"))
                else Done (inl (cluster, guard))
            end
        end
    end
  else Done (inr (Ok None)).

Definition find_in_cluster_dir (img : Image) (start : Z) (want : list Z) : run (result (option (Z * DirEntry))) :=
  loop chain_fuel (find_cluster_body img want) (start, 0).

Definition named_dir (fat : list Z) (e : DirEntry) : bool :=
  negb (is_deleted e) && negb (is_lfn e) && is_dir e && bool_decide (fat_name e = fat).

(** The walk to the directory of a file: [None] when a directory is missing, else the start
    of the last one. *)
Fixpoint walk_parents (img : Image) (parent_start : option Z) (walk : list DirEntry) (dirs : list (list Z)) : run (result (option (option Z))) :=
  match dirs with
  | [] => Done (Ok (Some parent_start))
  | component :: dirs =>
      match to_fat_83 component with
      | Err e => Done (Err e)
      | Ok fat =>
          match find (named_dir fat) walk with
          | None => Done (Ok None)
          | Some dir =>
              bs ←? read_clusters img (de_start_cluster dir) None;
              walk_parents img (Some (de_start_cluster dir)) (parse_dir_region_bytes bs) dirs
          end
      end
  end.

Definition find_file_path (img : Image) (path : list Z) : run (result (option (Z * DirEntry))) :=
  let components := path_components path in
  match components with
  | [] => Done (Err "empty path")
  | [name] =>
      match to_fat_83 name with
      | Err e => Done (Err e)
      | Ok fat => r ← find_root_file_offset img fat; Done (Ok r)
      end
  | _ =>
      walk ←? list_root img;
      r ←? walk_parents img None walk (take (length components - 1) components);
      match r with
      | None => Done (Ok None)
      | Some parent_start =>
          match to_fat_83 (List.last components []) with
          | Err e => Done (Err e)
          | Ok file_fat =>
              match parent_start with
              | None => Done (Err "internal: missing parent cluster")
              | Some start => find_in_cluster_dir img start file_fat
              end
          end
      end
  end.

Fixpoint list_walk (img : Image) (entries : list DirEntry) (dirs : list (list Z)) : run (result (list DirEntry)) :=
  match dirs with
  | [] => Done (Ok entries)
  | component :: dirs =>
      match to_fat_83 component with
      | Err e => Done (Err e)
      | Ok fat =>
          match find (named_dir fat) entries with
          | None => Done (Err "directory not found")
          | Some dir =>
              bs ←? read_clusters img (de_start_cluster dir) None;
              list_walk img (parse_dir_region_bytes bs) dirs
          end
      end
  end.

Definition list_path (img : Image) (path : list Z) : run (result (list DirEntry)) :=
  entries ←? list_root img; list_walk img entries (path_components path).

(** *** The commands *)

(** [cmd_ls]: the lines, as name, attribute, cluster and size. *)
Definition cmd_ls (d : list Z) (dir_path : list Z) : run (result (list (list Z * Z * Z * Z))) :=
  img ←? open d;
  entries ←? (if (mlen dir_path =? 0) || bool_decide (dir_path = [47]) || bool_decide (dir_path = [92])
              then list_root img else list_path img dir_path);
  Done (Ok (map (fun e => (display_name e, de_attr e, de_start_cluster e, de_size e))
              (List.filter (fun e => negb (is_volume_label e || is_lfn e)) entries))).

(** [cmd_extract]: the bytes of the file written. *)
Definition cmd_extract (d : list Z) (name : list Z) : run (result (list Z)) :=
  img ←? open d;
  match to_fat_83 name with
  | Err e => Done (Err e)
  | Ok fat_name =>
      r ← find_root_file img fat_name;
      match r with
      | None => Done (Err "file not found in root")
      | Some entry => if is_dir entry then Done (Err "refusing to extract a directory") else read_file img entry
      end
  end.

(** [cmd_delete]; [file] is the file name of the image. *)
Definition cmd_delete (ignore_missing : bool) (file d name : list Z) : run (result (list Z)) :=
  if refuse_reference_image file then Done (Err "refusing to mutate apparent reference image") else
  img ←? open d;
  r ←? find_file_path img name;
  match r with
  | None => if ignore_missing then Done (Ok d) else Done (Err "file not found")
  | Some (offset, entry) =>
      if is_dir entry then Done (Err "refusing to delete a directory (not implemented)")
      else
        let start := de_start_cluster entry in
        img ←? free_chain img start;
        img ←? mark_dirent_deleted img offset;
        img ←? mirror_fats img;
        Done (Ok (data img))
  end.

(** The part [cmd_replace] and [cmd_put] have in common. *)
Definition replace_entry (img : Image) (offset : Z) (entry : DirEntry) (new_bytes : list Z) : run (result (list Z)) :=
  let old_start := de_start_cluster entry in
  img ←? free_chain img old_start;
  ' (img, new_start) ←? (if mlen new_bytes =? 0 then Done (Ok (img, 0)) else allocate_and_write img new_bytes);
  img ←? update_dirent img offset new_start (u32 (mlen new_bytes));
  img ←? mirror_fats img;
  Done (Ok (data img)).

Definition cmd_replace (file d name new_bytes : list Z) : run (result (list Z)) :=
  if refuse_reference_image file then Done (Err "refusing to mutate apparent reference image") else
  img ←? open d;
  match to_fat_83 name with
  | Err e => Done (Err e)
  | Ok fat_name =>
      r ← find_root_file_offset img fat_name;
      match r with
      | None => Done (Err "file not found in root")
      | Some (offset, entry) =>
          if is_dir entry then Done (Err "refusing to replace a directory") else replace_entry img offset entry new_bytes
      end
  end.

Definition cmd_put (file d name new_bytes : list Z) : run (result (list Z)) :=
  if refuse_reference_image file then Done (Err "refusing to mutate apparent reference image") else
  img ←? open d;
  match to_fat_83 name with
  | Err e => Done (Err e)
  | Ok fat_name =>
      r ← find_root_file_offset img fat_name;
      match r with
      | Some (offset, entry) =>
          if is_dir entry then Done (Err "refusing to put over a directory") else replace_entry img offset entry new_bytes
      | None =>
          offset ←? find_free_root_dirent img;
          ' (img, new_start) ←? (if mlen new_bytes =? 0 then Done (Ok (img, 0)) else allocate_and_write img new_bytes);
          img ←? write_new_root_dirent img offset fat_name new_start (u32 (mlen new_bytes));
          img ←? mirror_fats img;
          Done (Ok (data img))
      end
  end.

(** ** Outcomes

    [settles c Q F]: the call returns without a fault; a value that it returns satisfies
    [Q], and if it returns an error then [F]. *)
Definition settles {A} (c : run (result A)) (Q : A -> Prop) (F : Prop) : Prop :=
  exists r, c = Done r /\ match r with Ok a => Q a | Err _ => F end.

Lemma settles_ok {A} (a : A) (Q : A -> Prop) F : Q a -> settles (Done (Ok a)) Q F.
Proof. intros. by exists (Ok a). Qed.

Lemma settles_err {A} e (Q : A -> Prop) (F : Prop) : F -> settles (Done (Err e)) Q F.
Proof. by exists (Err e). Qed.

Lemma settles_try {A B} (c : run (result A)) (f : A -> run (result B)) (P : A -> Prop) (Q : B -> Prop) F :
  settles c P F -> (forall a, P a -> settles (f a) Q F) -> settles (rtry c f) Q F.
Proof. intros (r & -> & Hr) H. unfold rtry. run_step. destruct r as [a|e]; [exact (H a Hr)|by apply settles_err]. Qed.

Lemma settles_weaken {A} (c : run (result A)) (P Q : A -> Prop) (F G : Prop) : settles c P F -> (forall a, P a -> Q a) -> (F -> G) -> settles c Q G.
Proof. intros (r & -> & Hr) H HF. exists r. split; [done|]. destruct r; auto. Qed.

(** A loop whose turns keep the invariant and lower the measure. *)
Lemma settles_loop {S A} (I : S -> Prop) (m : S -> nat) (Q : A -> Prop) (F : Prop) (body : S -> run (S + result A)) fuel s :
  (forall s, I s -> exists r, body s = Done r /\
     match r with inl s' => I s' /\ (m s' < m s)%nat | inr (Ok a) => Q a | inr (Err _) => F end) ->
  I s -> (m s < fuel)%nat -> settles (loop fuel body s) Q F.
Proof.
  intros Hb HI Hm. eapply (loop_total I m (fun r => match r with Ok a => Q a | Err _ => F end)); [|exact HI|exact Hm].
  intros s' HI'. destruct (Hb s' HI') as (r & E & H). exists r. split; [done|]. by destruct r as [|[|]].
Qed.

(** ** Slices *)

Lemma slice_stored m a bs : stored m a bs -> slice m a (a + mlen bs) = Done bs.
Proof.
  intros Hs. pose proof (stored_drop m a bs Hs) as E. destruct Hs as (H0 & Hl & _). pose proof (mlen_nonneg bs).
  unfold slice. replace ((0 <=? a) && (a <=? a + mlen bs) && (a + mlen bs <=? mlen m)) with true by lia.
  replace (a + mlen bs - a) with (mlen bs) by lia. rewrite E. unfold mlen. rewrite Nat2Z.id. by rewrite take_app_length.
Qed.

(** The [k] bytes at [a]. *)
Definition window (m : list Z) (a k : Z) : list Z := take (Z.to_nat k) (drop (Z.to_nat a) m).

Lemma window_ok m a k : 0 <= a -> 0 <= k -> a + k <= mlen m -> stored m a (window m a k) /\ mlen (window m a k) = k.
Proof.
  intros Ha Hk Hm. unfold window.
  assert (mlen (take (Z.to_nat k) (drop (Z.to_nat a) m)) = k) as E by (unfold mlen in *; rewrite length_take, length_drop; lia).
  split; [|done]. split_and!; [done|lia|]. intros i Hi. rewrite E in Hi. unfold byte_at.
  replace (i <? 0) with false by lia. replace (a + i <? 0) with false by lia. rewrite lookup_take_lt, lookup_drop by lia. do 2 f_equal. lia.
Qed.

Lemma slice_window m a k : 0 <= a -> 0 <= k -> a + k <= mlen m -> slice m a (a + k) = Done (window m a k).
Proof. intros Ha Hk Hm. destruct (window_ok m a k Ha Hk Hm) as [H E]. rewrite <- E at 1. by apply slice_stored. Qed.

Lemma stored_unique m a bs bs' : stored m a bs -> stored m a bs' -> mlen bs = mlen bs' -> bs = bs'.
Proof. intros (_ & _ & H) (_ & _ & H') L. apply mem_ext; [done|]. intros i Hi. rewrite <- H, <- H' by lia. done. Qed.

Lemma window_unique m a k bs : stored m a bs -> mlen bs = k -> window m a k = bs.
Proof.
  intros Hs <-. pose proof (mlen_nonneg bs). destruct (window_ok m a (mlen bs)) as [H' E]; [apply Hs|done|apply Hs|].
  by eapply stored_unique.
Qed.

Lemma window_byte m a k i : 0 <= a -> a + k <= mlen m -> 0 <= i < k -> byte_at (window m a k) i = byte_at m (a + i).
Proof. intros Ha Hm Hi. destruct (window_ok m a k) as [(_ & _ & H) E]; [lia..|]. rewrite H; [done|lia]. Qed.

(** A window apart from what is written stays. *)
Lemma window_frame rs m m' a k : writes rs m m' -> 0 <= a -> 0 <= k -> a + k <= mlen m -> apart (a, k) rs -> window m' a k = window m a k.
Proof.
  intros W Ha Hk Hm Hap. destruct (window_ok m a k Ha Hk Hm) as [H E]. apply window_unique; [|done].
  eapply writes_stored; [exact W|by rewrite E|done].
Qed.

Lemma splice_ok m a bs : 0 <= a -> a + mlen bs <= mlen m -> bytes m -> bytes bs ->
  exists m', splice m a bs = Done m' /\ writes [(a, mlen bs)] m m' /\ stored m' a bs.
Proof.
  intros Ha Hf Hm Hb. unfold splice. replace ((0 <=? a) && (a + mlen bs <=? mlen m)) with true by lia. eexists. split; [done|].
  set (m' := take _ _ ++ _). pose proof (mlen_nonneg bs).
  assert (mlen (take (Z.to_nat a) m) = a) as L1 by (unfold mlen in *; rewrite length_take; lia).
  assert (mlen m' = mlen m) as L. { unfold m'. rewrite !mlen_app, L1. unfold mlen in *. rewrite length_drop. lia. }
  assert (forall x, 0 <= x -> byte_at m' x = if (a <=? x) && (x <? a + mlen bs) then byte_at bs (x - a) else byte_at m x) as Hx.
  { intros x H0. unfold m'. rewrite byte_at_app, L1 by lia. destruct (Z.ltb_spec x a).
    - replace (a <=? x) with false by lia. cbn [andb]. unfold byte_at. replace (x <? 0) with false by lia. by rewrite lookup_take_lt by lia.
    - rewrite byte_at_app by lia. replace (a <=? x) with true by lia. cbn [andb]. destruct (Z.ltb_spec (x - a) (mlen bs)).
      + by replace (x <? a + mlen bs) with true by lia.
      + replace (x <? a + mlen bs) with false by lia. unfold byte_at. replace (x - a - mlen bs <? 0) with false by lia. replace (x <? 0) with false by lia.
        rewrite lookup_drop. unfold mlen. do 2 f_equal. unfold mlen in *. lia. }
  split; [constructor|].
  - exact L.
  - intros _. unfold m'. by repeat first [apply Forall_app_2 | apply Forall_take | apply Forall_drop].
  - intros x Hn. specialize (Hn _ ltac:(by left)). unfold inside in Hn. cbn in Hn. destruct (Z.ltb_spec x 0).
    + unfold byte_at. by replace (x <? 0) with true by lia.
    + rewrite Hx by done. by replace ((a <=? x) && (x <? a + mlen bs)) with false by lia.
  - split_and!; [done|lia|]. intros i Hi. rewrite Hx by lia. replace ((a <=? a + i) && (a + i <? a + mlen bs)) with true by lia. f_equal. lia.
Qed.

Lemma bytes_replicate n b : is_byte b -> bytes (replicate n b).
Proof. intros. by apply Forall_replicate. Qed.

Lemma mlen_replicate n (b : Z) : mlen (replicate n b) = Z.of_nat n.
Proof. unfold mlen. by rewrite length_replicate. Qed.

