(* ===== verification/ImageFat.v ===== *)
(** * The allocation table of a disk image

    The table's entries and the chains of clusters of [Image.v]: reading what was set,
    allocation, writing a file and reading it back, freeing. *)

From Stdlib Require Import String.
From stdpp Require Import base list.
From Stdlib Require Import ZArith Lia.
From S2P Require Import Prelude Layout ImageNames Image.

(** ** Volumes that make sense

    What the tool takes for granted of the boot sector: the table comes after it, there is
    one, clusters are not empty, and the data fits.  [sn_kind] bounds the length of the
    image: no cluster has the number of an end mark. *)
Definition fat_size (b : Bpb) : Z := bp_sectors_per_fat b * bp_bytes_per_sector b.
Definition eoc_min (b : Bpb) : Z := match bp_fat_kind b with Fat12 => 0x0FF8 | Fat16 => 0xFFF8 end.
Definition entry_values (b : Bpb) : Z := match bp_fat_kind b with Fat12 => 4096 | Fat16 => 65536 end.
Definition last_cluster (b : Bpb) (n : Z) : Z := (n - data_offset b) / cluster_size b + 1.

Record sane (b : Bpb) (n : Z) : Prop := {
  sn_boot : 512 <= fat_offset b;
  sn_fats : 1 <= bp_fat_count b;
  sn_size : 0 <= fat_size b;
  sn_root : 0 <= bp_root_entries b;
  sn_cluster : 0 < cluster_size b;
  sn_data : data_offset b <= n;
  sn_kind : last_cluster b n < eoc_min b
}.

Lemma sane_regions b n : sane b n -> 512 <= fat_offset b /\ fat_offset b + fat_size b <= root_offset b /\
  root_offset b + bp_root_entries b * 32 = data_offset b /\ root_offset b <= data_offset b <= n.
Proof. intros []. unfold data_offset, root_offset, root_size, fat_size in *. split_and!; nia. Qed.

(** ** The table's entries *)

(** Where the two bytes of an entry are, and what it says. *)
Definition fat_pos (b : Bpb) (c : Z) : Z :=
  fat_offset b + match bp_fat_kind b with Fat12 => c + c / 2 | Fat16 => c * 2 end.
Definition in_fat (b : Bpb) (c : Z) : bool := fat_pos b c + 1 <? fat_offset b + fat_size b.
Definition fat_at (b : Bpb) (m : list Z) (c : Z) : Z :=
  let w := word16_at m (fat_pos b c) in
  match bp_fat_kind b with Fat12 => if Z.even c then w mod 4096 else w / 16 | Fat16 => w end.

Lemma and1_even c : (Z.land c 1 =? 0) = Z.even c.
Proof.
  change 1 with (Z.ones 1). rewrite Z.land_ones by lia. change (2 ^ 1) with 2. rewrite Zmod_even. by destruct (Z.even c).
Qed.

Lemma word16_drop m a o : 0 <= a -> 0 <= o -> word16_at (drop (Z.to_nat a) m) o = word16_at m (a + o).
Proof.
  intros Ha Ho. assert (forall i, 0 <= i -> byte_at (drop (Z.to_nat a) m) i = byte_at m (a + i)) as H.
  { intros i Hi. unfold byte_at. replace (i <? 0) with false by lia. replace (a + i <? 0) with false by lia. rewrite lookup_drop. do 2 f_equal. lia. }
  unfold word16_at. rewrite !H by lia. by rewrite Z.add_assoc.
Qed.

Lemma fat_at_range b m c : bytes m -> 0 <= fat_at b m c < entry_values b.
Proof.
  intros Hm. pose proof (word16_range m (fat_pos b c) Hm). unfold fat_at, entry_values. destruct (bp_fat_kind b); [|lia].
  destruct (Z.even c); Z.div_mod_to_equations; lia.
Qed.

Ltac eqb_lia := repeat match goal with
  |- context [?x =? ?y] => first [replace (x =? y) with true by lia | replace (x =? y) with false by lia] end.

Lemma half c : 0 <= c -> exists k, 0 <= k /\ (Z.even c = true /\ c = 2 * k \/ Z.even c = false /\ c = 2 * k + 1).
Proof.
  intros Hc. exists (c / 2). split; [apply Z.div_pos; lia|].
  pose proof (Zmod_even c). destruct (Z.even c); [left|right]; split; try done; Z.div_mod_to_equations; lia.
Qed.

Lemma div_double k : 2 * k / 2 = k.
Proof. Z.div_mod_to_equations. lia. Qed.

Lemma div_double1 k : (2 * k + 1) / 2 = k.
Proof. Z.div_mod_to_equations. lia. Qed.

(** The nibble of a shared byte that belongs to the other entry stays. *)
Lemma after_even b0 b1 b2 v : is_byte b0 -> is_byte b1 ->
  (((b0 + 256 * b1) / 4096 * 4096 + v mod 4096) / 256 + 256 * b2) / 16 = (b1 + 256 * b2) / 16.
Proof. unfold is_byte. intros. Z.div_mod_to_equations. lia. Qed.

Lemma before_odd b0 b1 b2 v : is_byte b0 -> is_byte b1 ->
  (b0 + 256 * ((16 * (v mod 4096) + (b1 + 256 * b2) mod 16) mod 256)) mod 4096 = (b0 + 256 * b1) mod 4096.
Proof. unfold is_byte. intros. Z.div_mod_to_equations. lia. Qed.

Section Table.
Context (b : Bpb) (n : Z) (Hsane : sane b n).

Lemma fat_get_ok m c : mlen m = n -> bytes m -> 0 <= c ->
  exists e, fat_get (mkImage m b) c = Done (if in_fat b c then Ok (fat_at b m c) else Err e).
Proof.
  intros Hn Hm Hc. destruct (sane_regions b n Hsane) as (R1 & R2 & R3 & R4). pose proof (sn_size _ _ Hsane).
  unfold fat_get, in_fat, fat_at, fat_pos. cbn [data bpb]. fold (fat_size b).
  unfold slice. replace ((0 <=? fat_offset b) && (fat_offset b <=? mlen m) && (mlen m <=? mlen m)) with true by lia.
  rewrite take_ge by (rewrite length_drop; unfold mlen in *; lia). run_step.
  assert (mlen (drop (Z.to_nat (fat_offset b)) m) = n - fat_offset b) as L by (unfold mlen in *; rewrite length_drop; lia).
  destruct (bp_fat_kind b).
  - exists "FAT12 index out of range"%string. assert (0 <= c / 2) by (apply Z.div_pos; lia). destruct (Z.leb_spec (fat_size b) (c + c / 2 + 1)).
    + by replace (fat_offset b + (c + c / 2) + 1 <? fat_offset b + fat_size b) with false by lia.
    + replace (fat_offset b + (c + c / 2) + 1 <? fat_offset b + fat_size b) with true by lia.
      rewrite ld16_ok, word16_drop by lia. run_step. rewrite and1_even, (land_mask _ 12) by (done || lia). rewrite shr_eq by lia.
      by change (2 ^ 4) with 16.
  - exists "FAT16 index out of range"%string. destruct (Z.leb_spec (fat_size b) (c * 2 + 1)).
    + by replace (fat_offset b + c * 2 + 1 <? fat_offset b + fat_size b) with false by lia.
    + replace (fat_offset b + c * 2 + 1 <? fat_offset b + fat_size b) with true by lia.
      by rewrite ld16_ok, word16_drop by lia.
Qed.

(** The bytes of an entry as they are written. *)
Definition fat_word (m : list Z) (c v : Z) : Z :=
  let w := word16_at m (fat_pos b c) in
  match bp_fat_kind b with
  | Fat12 => if Z.even c then w / 4096 * 4096 + v mod 4096 else 16 * (v mod 4096) + w mod 16
  | Fat16 => v mod 65536
  end.

Lemma fat_word_range m c v : bytes m -> 0 <= fat_word m c v < 65536.
Proof.
  intros Hm. pose proof (word16_range m (fat_pos b c) Hm). unfold fat_word. destruct (bp_fat_kind b); [|Z.div_mod_to_equations; lia].
  destruct (Z.even c); Z.div_mod_to_equations; lia.
Qed.

Lemma fat_other m m' c c' v : bytes m -> 0 <= c -> 0 <= c' -> c' <> c ->
  (forall a, byte_at m' a = if a =? fat_pos b c then fat_word m c v mod 256 else if a =? fat_pos b c + 1 then fat_word m c v / 256 else byte_at m a) ->
  fat_at b m' c' = fat_at b m c'.
Proof.
  intros Hm Hc Hc' Hne Hb. unfold fat_at, word16_at. unfold fat_word, word16_at, le2 in *. unfold fat_pos in *.
  destruct (bp_fat_kind b); [|rewrite !Hb; by eqb_lia].
  destruct (half c Hc) as (k & Hk & [[Ec ->]|[Ec ->]]); destruct (half c' Hc') as (k' & Hk' & [[Ec' ->]|[Ec' ->]]); rewrite Ec in *; rewrite Ec'; rewrite ?div_double in *; rewrite ?div_double1 in *;
    rewrite !Hb; clear Hb; destruct (decide (k' = k)) as [->|]; try lia; eqb_lia; try done.
  - replace (fat_offset b + (2 * k + 1 + k)) with (fat_offset b + (2 * k + k) + 1) by lia. by apply after_even; apply byte_at_range.
  - replace (fat_offset b + (2 * k + 1 + k)) with (fat_offset b + (2 * k + k) + 1) by lia. by apply before_odd; apply byte_at_range.
Qed.

Lemma fat_own m m' c v : bytes m -> 0 <= c ->
  (forall a, byte_at m' a = if a =? fat_pos b c then fat_word m c v mod 256 else if a =? fat_pos b c + 1 then fat_word m c v / 256 else byte_at m a) ->
  fat_at b m' c = v mod entry_values b.
Proof.
  intros Hm Hc Hb. unfold fat_at. replace (word16_at m' (fat_pos b c)) with (fat_word m c v).
  - unfold fat_word, entry_values. pose proof (word16_range m (fat_pos b c) Hm). destruct (bp_fat_kind b); [|done].
    destruct (Z.even c); Z.div_mod_to_equations; lia.
  - unfold word16_at, le2. rewrite !Hb. eqb_lia. Z.div_mod_to_equations. lia.
Qed.

Lemma two_stores m p w : bytes m -> 0 <= p -> p + 2 <= mlen m -> 0 <= w < 65536 ->
  exists m', (d ← st8 m p (w mod 256); d ← st8 d (p + 1) (w / 256); Done (Ok (mkImage d b))) = Done (Ok (mkImage m' b)) /\
    writes [(p, 2)] m m' /\ forall a, byte_at m' a = if a =? p then w mod 256 else if a =? p + 1 then w / 256 else byte_at m a.
Proof.
  intros Hm Hp Hf Hw. rewrite st8_ok by lia. run_step. rewrite st8_ok by (rewrite mlen_insert; lia). run_step.
  eexists. split; [reflexivity|]. set (m' := <[_ := _]> _).
  assert (forall a, byte_at m' a = if a =? p then w mod 256 else if a =? p + 1 then w / 256 else byte_at m a) as Ha.
  { intros a. unfold m'. rewrite !byte_at_insert by (rewrite ?mlen_insert; lia). destruct (Z.eqb_spec a (p + 1)); destruct (Z.eqb_spec a p); (done || lia). }
  split; [|exact Ha]. constructor.
  - unfold m'. by rewrite !mlen_insert.
  - intros _. unfold m'. repeat apply bytes_insert; [done|unfold is_byte; Z.div_mod_to_equations; lia..].
  - intros a Hn. specialize (Hn _ ltac:(by left)). unfold inside in Hn. cbn in Hn. rewrite Ha. by eqb_lia.
Qed.

(** An entry that is set reads as its value, cut to the entry's width; no other entry
    changes, although two entries of a FAT12 share a byte. *)
Lemma fat_set_ok m c v : mlen m = n -> bytes m -> 0 <= c -> in_fat b c = true ->
  exists m', fat_set (mkImage m b) c v = Done (Ok (mkImage m' b)) /\ writes [(fat_offset b, fat_size b)] m m' /\
    forall c', 0 <= c' -> fat_at b m' c' = if c' =? c then v mod entry_values b else fat_at b m c'.
Proof.
  intros Hn Hm Hc Hin. destruct (sane_regions b n Hsane) as (R1 & R2 & R3 & R4). unfold in_fat in Hin. apply Z.ltb_lt in Hin.
  assert (fat_offset b <= fat_pos b c) as Hp by (unfold fat_pos; destruct (bp_fat_kind b); [assert (0 <= c / 2) by (apply Z.div_pos; lia)|]; lia).
  destruct (two_stores m (fat_pos b c) (fat_word m c v)) as (m' & E & W & Ha); [done|lia|lia|by apply fat_word_range|].
  exists m'. split; [|split].
  - rewrite <- E. pose proof (fat_word_range m c v Hm) as Hw. pose proof (word16_range m (fat_pos b c) Hm) as Hr. unfold fat_set, with_data. cbn [data bpb].
    unfold fat_word, fat_pos in *. destruct (bp_fat_kind b).
    + rewrite !Z.add_assoc in *. replace (mlen m <=? fat_offset b + c + c / 2 + 1) with false by lia. rewrite ld16_ok by lia. run_step.
      set (w := word16_at m (fat_offset b + c + c / 2)) in *.
      replace (if Z.land c 1 =? 0 then _ else _) with (if Z.even c then w / 4096 * 4096 + v mod 4096 else 16 * (v mod 4096) + w mod 16).
      2: { rewrite and1_even, (land_mask (u16 v) 12) by (done || lia). unfold wrap. replace ((v mod 2 ^ 16) mod 2 ^ 12) with (v mod 4096) by (Z.div_mod_to_equations; lia).
           destruct (Z.even c).
           - rewrite (land_align 16 12) by (done || lia). unfold align_down. rewrite lor_mul_add by (Z.div_mod_to_equations; lia). by change (2 ^ 12) with 4096.
           - rewrite (land_mask w 4), Z.shiftl_mul_pow2 by (done || lia). unfold wrap. rewrite (Z.mod_small (_ * 2 ^ 4)), Z.lor_comm by (Z.div_mod_to_equations; lia).
             rewrite lor_mul_add by (Z.div_mod_to_equations; lia). change (2 ^ 4) with 16. lia. }
      set (w' := if Z.even c then w / 4096 * 4096 + v mod 4096 else 16 * (v mod 4096) + w mod 16) in *. rewrite (land_mask w' 8), shr_eq by (done || lia). unfold wrap. rewrite Z.mod_mod by lia.
      change (2 ^ 8) with 256. by rewrite (Z.mod_small (w' / 256)) by (Z.div_mod_to_equations; lia).
    + replace (mlen m <=? fat_offset b + c * 2 + 1) with false by lia. unfold byte_of, wrap. rewrite !shr_eq by lia. change (2 ^ 16) with 65536. change (2 ^ 8) with 256.
      change (2 ^ (8 * 0)) with 1. change (2 ^ (8 * 1)) with 256. rewrite Z.div_1_r. by rewrite (Z.mod_small (_ / 256)) by (Z.div_mod_to_equations; lia).
  - apply (writes_within [(fat_pos b c, 2)]); [|done]. apply Forall_singleton. intros a Hi. exists (fat_offset b, fat_size b). split; [by left|].
    unfold inside in *. cbn in *. lia.
  - intros c' Hc'. destruct (Z.eqb_spec c' c) as [->|]; [by apply (fat_own m)|by apply (fat_other m m' c c' v)].
Qed.

(** *** Clusters *)

Definition cluster_pos (c : Z) : Z := data_offset b + (c - 2) * cluster_size b.
Definition cluster_region (c : Z) : region := (cluster_pos c, cluster_size b).
Definition cluster_at (m : list Z) (c : Z) : list Z := window m (cluster_pos c) (cluster_size b).
Notation table := (fat_offset b, fat_size b).

(** A cluster of the volume, with an entry in the table. *)
Definition good (c : Z) : Prop := 2 <= c <= last_cluster b n /\ in_fat b c = true.

Lemma last_fits c : 2 <= c -> (c <= last_cluster b n <-> cluster_pos c + cluster_size b <= n).
Proof.
  intros Hc. pose proof (sn_cluster _ _ Hsane). unfold last_cluster, cluster_pos. split; intros H0.
  - pose proof (Z.mul_div_le (n - data_offset b) (cluster_size b) ltac:(lia)). nia.
  - assert (c - 1 <= (n - data_offset b) / cluster_size b) by (apply Z.div_le_lower_bound; nia). lia.
Qed.

Lemma cluster_fits c : good c -> data_offset b <= cluster_pos c /\ cluster_pos c + cluster_size b <= n.
Proof. intros [[H2 Hl] _]. split; [unfold cluster_pos; pose proof (sn_cluster _ _ Hsane); nia|by apply last_fits]. Qed.

Lemma cluster_apart c c' : c <> c' -> disjoint (cluster_pos c) (cluster_size b) (cluster_pos c') (cluster_size b).
Proof. intros Hne. unfold disjoint, cluster_pos. pose proof (sn_cluster _ _ Hsane). assert (c < c' \/ c' < c) as [|] by lia; nia. Qed.

Lemma cluster_room c : good c -> 0 <= cluster_pos c /\ 0 <= cluster_size b /\ cluster_pos c + cluster_size b <= n.
Proof.
  intros Hc. destruct (cluster_fits c Hc) as [H1 H2]. destruct (sane_regions b n Hsane) as (R1 & R2 & R3 & R4).
  pose proof (sn_cluster _ _ Hsane). pose proof (sn_size _ _ Hsane). lia.
Qed.

Lemma cluster_stored m c : mlen m = n -> good c -> stored m (cluster_pos c) (cluster_at m c) /\ mlen (cluster_at m c) = cluster_size b.
Proof. intros Hn Hc. destruct (cluster_room c Hc) as (H1 & H2 & H3). apply window_ok; lia. Qed.

Lemma cluster_frame rs m m' c : writes rs m m' -> mlen m = n -> good c -> apart (cluster_region c) rs -> cluster_at m' c = cluster_at m c.
Proof. intros W Hn Hc. destruct (cluster_room c Hc) as (H1 & H2 & H3). apply window_frame; (done || lia). Qed.

Lemma cluster_table c : good c -> disjoint (cluster_pos c) (cluster_size b) (fat_offset b) (fat_size b).
Proof. intros Hc. destruct (cluster_fits c Hc). destruct (sane_regions b n Hsane) as (R1 & R2 & R3 & R4). unfold disjoint. lia. Qed.

Lemma table_frame rs m m' c : writes rs m m' -> 0 <= c -> in_fat b c = true -> apart table rs -> fat_at b m' c = fat_at b m c.
Proof.
  intros W Hc Hin Ha. unfold fat_at, word16_at. unfold in_fat in Hin. apply Z.ltb_lt in Hin.
  assert (fat_offset b <= fat_pos b c) by (unfold fat_pos; destruct (bp_fat_kind b); [assert (0 <= c / 2) by (apply Z.div_pos; lia)|]; lia).
  by rewrite !(writes_byte _ _ _ table _ W Ha) by (unfold inside; cbn; lia).
Qed.

Lemma clusters_apart_table c cl : good c -> c ∉ cl -> apart (cluster_region c) (table :: map cluster_region cl).
Proof.
  intros Hc Hno. unfold cluster_region. cbn [apart]. split; [by apply cluster_table|].
  induction cl as [|c' cl IH]; [done|]. cbn [map apart]. apply not_elem_of_cons in Hno as [H1 H2]. split; [by apply cluster_apart|by apply IH].
Qed.

Lemma table_apart cl : Forall good cl -> apart table (map cluster_region cl).
Proof.
  induction 1 as [|c cl Hc _ IH]; [done|]. cbn [map apart]. split; [|done]. apply disjoint_sym. by apply cluster_table.
Qed.

Lemma is_eoc_eq m c : is_eoc (mkImage m b) c = (eoc_min b <=? c).
Proof. unfold is_eoc, eoc_min. cbn [bpb]. by destruct (bp_fat_kind b). Qed.

Lemma eoc_value_eq m : eoc_min b <= eoc_value (mkImage m b) /\ eoc_value (mkImage m b) mod entry_values b = eoc_value (mkImage m b).
Proof. unfold eoc_value, eoc_min, entry_values. cbn [bpb]. by destruct (bp_fat_kind b). Qed.

Lemma eoc_entry : 2 < eoc_min b /\ eoc_min b <= entry_values b /\ eoc_min b <= 65536.
Proof. unfold eoc_min, entry_values. by destruct (bp_fat_kind b). Qed.

Lemma good_chain_test m c : good c -> (2 <=? c) && negb (is_eoc (mkImage m b) c) = true.
Proof. intros [[H2 Hl] _]. pose proof (sn_kind _ _ Hsane). rewrite is_eoc_eq. lia. Qed.

Lemma good_offset m c : good c -> cluster_offset (mkImage m b) c = Ok (cluster_pos c).
Proof. intros [[H2 _] _]. unfold cluster_offset. by replace (c <? 2) with false by lia. Qed.

(** *** Allocation *)

(** At least [k] clusters are free. *)
Definition room (m : list Z) (k : nat) : Prop :=
  exists F, NoDup F /\ Forall (fun c => good c /\ fat_at b m c = 0) F /\ (k <= length F)%nat.

Lemma in_fat_below c c' : c <= c' -> in_fat b c' = true -> in_fat b c = true.
Proof.
  unfold in_fat, fat_pos. intros Hc. rewrite !Z.ltb_lt. destruct (bp_fat_kind b); [|lia]. pose proof (Z.div_le_mono c c' 2). lia.
Qed.

(** The lowest free cluster is one of the volume when there is room. *)
Lemma room_lowest m c k : (forall c', 2 <= c' < c -> fat_at b m c' <> 0) -> 2 <= c -> room m (S k) -> good c.
Proof.
  intros Hlow Hc (F & _ & HF & Hk). destruct F as [|f F]; [cbn in Hk; lia|]. inversion_clear HF as [|? ? [[Hf Hi] H0] _].
  assert (c <= f) by (destruct (decide (f < c)); [by destruct (Hlow f ltac:(lia))|lia]). split; [lia|by apply (in_fat_below c f)].
Qed.

Lemma room_rest m m' c k : (forall c', good c' -> c' <> c -> fat_at b m c' = 0 -> fat_at b m' c' = 0) -> room m (S k) -> room m' k.
Proof.
  intros Hf (F & Hnd & HF & Hk). exists (filter (fun x => x <> c) F). split_and!.
  - by apply NoDup_filter.
  - apply Forall_forall. intros x [Hx Hin]%list_elem_of_filter. rewrite Forall_forall in HF. destruct (HF x Hin) as [Hg H0]. split; [done|by apply Hf].
  - assert (length F <= length (c :: filter (fun x => x <> c) F))%nat as Hl; [|cbn [length] in Hl; lia].
    apply NoDup_incl_length; [by apply NoDup_ListNoDup|]. intros x Hx%list_elem_of_In. apply list_elem_of_In.
    destruct (decide (x = c)) as [->|Hne]; [by left|right]. by apply list_elem_of_filter.
Qed.

Lemma room_same m m' k : (forall c, good c -> fat_at b m c = 0 -> fat_at b m' c = 0) -> room m k -> room m' k.
Proof.
  intros Hf (F & Hnd & HF & Hk). exists F. split_and!; [done| |done]. eapply Forall_impl; [exact HF|]. intros x [Hg H0]. split; [done|by apply Hf].
Qed.

Lemma alloc_ok m : mlen m = n -> bytes m ->
  settles (alloc_cluster (mkImage m b)) (fun r => let '(img, c) := r in exists m', img = mkImage m' b /\
    2 <= c < eoc_min b /\ in_fat b c = true /\ fat_at b m c = 0 /\ writes [table] m m' /\
    (forall c', 0 <= c' -> fat_at b m' c' = if c' =? c then eoc_value img else fat_at b m c') /\
    forall k, room m (S k) -> good c /\ room m' k) (~ room m 1).
Proof.
  intros Hn Hm. pose proof (sn_cluster _ _ Hsane). pose proof (sn_data _ _ Hsane) as Hd. pose proof (sn_kind _ _ Hsane) as Hk. destruct eoc_entry as (K1 & K2 & K3).
  unfold alloc_cluster, max_cluster. cbn [data bpb]. replace (cluster_size b =? 0) with false by lia. run_step.
  replace (saturating_sub (mlen m) (data_offset b)) with (n - data_offset b) by (unfold saturating_sub; lia).
  unfold last_cluster in Hk. assert (0 <= (n - data_offset b) / cluster_size b) by (apply Z.div_pos; lia). rewrite wrap_small by lia.
  set (max := Z.max _ 2). assert (max < eoc_min b) as Hmax by (unfold max; lia). assert (2 <= max) as Hmax2 by (unfold max; lia).
  assert (last_cluster b n <= max) as Hlast by (unfold last_cluster, max; lia).
  apply (settles_loop (fun c => 2 <= c <= max + 1 /\ forall c', 2 <= c' < c -> fat_at b m c' <> 0) (fun c => Z.to_nat (max + 1 - c))); [|split; [lia|intros; lia]|lia].
  intros c [Hc Hlow]. unfold alloc_body. destruct (Z.leb_spec c max) as [Hcm|Hcm].
  2: { eexists. split; [reflexivity|]. intros Hr. apply (room_lowest m c 0 Hlow) in Hr; [destruct Hr; lia|lia]. }
  destruct (fat_get_ok m c Hn Hm) as (e & ->); [lia|]. run_step. destruct (in_fat b c) eqn:Hin.
  2: { eexists. split; [reflexivity|]. intros Hr. apply (room_lowest m c 0 Hlow) in Hr; [destruct Hr; congruence|lia]. }
  destruct (Z.eqb_spec (fat_at b m c) 0) as [E0|E0].
  2: { eexists. split; [reflexivity|]. cbv beta iota. split; [split; [lia|]|lia]. intros c' Hc'. destruct (decide (c' = c)) as [->|]; [done|apply Hlow; lia]. }
  destruct (fat_set_ok m c (eoc_value (mkImage m b)) Hn Hm) as (m' & E & W & Hv); [lia|done|].
  rewrite E. unfold rtry. run_step. eexists. split; [reflexivity|]. exists m'. split_and!; try done; [lia..| |].
  - intros c' Hc'. rewrite Hv by done. destruct (c' =? c); [exact (proj2 (eoc_value_eq m))|done].
  - intros k Hr. split; [apply (room_lowest m c k); [done|lia|done]|]. eapply room_rest; [|exact Hr]. intros c' [Hg _] Hne Hz. rewrite Hv by lia. by rewrite (proj2 (Z.eqb_neq c' c)).
Qed.

(** *** Chains

    [linked m l e]: the entry of each cluster of [l] is the next one, the entry of the last
    is [e]. *)
Fixpoint linked (m : list Z) (l : list Z) (e : Z) : Prop :=
  match l with
  | [] => True
  | c :: t => fat_at b m c = hd e t /\ linked m t e
  end.

Lemma linked_snoc m l p e : linked m (l ++ [p]) e <-> linked m l p /\ fat_at b m p = e.
Proof.
  induction l as [|c t IH]; cbn [app linked]; [by cbn; intuition|]. rewrite IH. destruct t as [|c' t]; cbn; intuition.
Qed.

Lemma linked_frame m m' l e : (forall c, c ∈ l -> fat_at b m' c = fat_at b m c) -> linked m l e -> linked m' l e.
Proof.
  induction l as [|c t IH]; [done|]. intros Hf [H1 H2]. split; [rewrite Hf; [done|by left]|]. apply IH; [|done]. intros c' Hc'. apply Hf. by right.
Qed.

Lemma linked_next m l e c : linked m l e -> 2 <= e -> Forall (Z.le 2) l -> c ∈ l -> 2 <= fat_at b m c.
Proof.
  induction l as [|x t IH]; intros Hl He Hf Hc; [by apply elem_of_nil in Hc|]. destruct Hl as [H1 H2]. inversion_clear Hf as [|? ? _ Hft].
  apply elem_of_cons in Hc as [->|Hc]; [|by apply IH]. rewrite H1. destruct t as [|y t]; [done|]. by inversion_clear Hft.
Qed.

Lemma short_list (l : list Z) : NoDup l -> Forall (fun c => 0 <= c < 65536) l -> Z.of_nat (length l) <= 65536.
Proof.
  intros Hnd Hr. assert (length l <= length (Z.of_nat <$> seq 0 (Z.to_nat 65536)))%nat as Hle; [|rewrite length_fmap, length_seq in Hle; lia].
  apply NoDup_incl_length; [by apply NoDup_ListNoDup|]. intros c Hc%list_elem_of_In. rewrite Forall_forall in Hr. specialize (Hr c Hc).
  apply list_elem_of_In, list_elem_of_fmap. exists (Z.to_nat c). split; [lia|]. apply elem_of_seq. lia.
Qed.

Lemma chain_length l : NoDup l -> Forall good l -> Z.of_nat (length l) <= 65536.
Proof.
  intros Hnd Hg. destruct eoc_entry as (_ & _ & K). pose proof (sn_kind _ _ Hsane). apply short_list; [done|].
  eapply Forall_impl; [exact Hg|]. intros c [Hc _]. lia.
Qed.

Lemma linked_app m l l' e : linked m (l ++ l') e <-> linked m l (hd e l') /\ linked m l' e.
Proof.
  induction l as [|c t IH]; cbn [app linked]; [tauto|]. rewrite IH. destruct t as [|c' t]; cbn; tauto.
Qed.

Lemma clusters_length m l : mlen m = n -> Forall good l -> mlen (mjoin (cluster_at m <$> l)) = Z.of_nat (length l) * cluster_size b.
Proof.
  intros Hn. induction 1 as [|c l Hc _ IH]; [done|]. cbn [fmap list_fmap]. rewrite mjoin_cons, mlen_app, IH, (proj2 (cluster_stored m c Hn Hc)).
  cbn [length]. lia.
Qed.

(** Reading follows a chain up to the cluster with the last byte asked for. *)
Lemma read_chain_ok m c l e size : mlen m = n -> bytes m -> Forall good (c :: l) -> NoDup (c :: l) -> linked m (c :: l) e ->
  Z.of_nat (length l) * cluster_size b < size <= Z.of_nat (length (c :: l)) * cluster_size b ->
  read_clusters (mkImage m b) c (Some size) = Done (Ok (mjoin (cluster_at m <$> c :: l))).
Proof.
  intros Hn Hm Hg Hnd Hl Hsz. pose proof (chain_length _ Hnd Hg) as Hlen. pose proof (sn_cluster _ _ Hsane) as Hcs.
  assert (2 <= c) by (inversion_clear Hg as [|? ? [Hc _] _]; lia).
  unfold read_clusters. replace (c <? 2) with false by lia.
  destruct (loop_total (fun st => exists l1 c2 l2, c :: l = l1 ++ c2 :: l2 /\ st = (c2, mjoin (cluster_at m <$> l1), Z.of_nat (length l1)))
    (fun st => Z.to_nat (65536 - st.2)) (eq (Ok (mjoin (cluster_at m <$> c :: l)))) (read_body (mkImage m b) (Some size))) with (fuel := chain_fuel) (s := (c, @nil Z, 0)) as (r & -> & <-); [| | |done].
  - intros st (l1 & c2 & l2 & El & ->). rewrite El in Hg, Hl, Hlen. apply Forall_app in Hg as [Hg1 Hg2]. inversion_clear Hg2 as [|? ? Hc2 Hg3].
    unfold read_body. rewrite good_chain_test, good_offset by done. destruct (cluster_fits c2 Hc2) as [F1 F2]. cbn [data bpb].
    replace (mlen m <? cluster_pos c2 + cluster_size b) with false by lia. destruct (cluster_stored m c2 Hn Hc2) as [Hst Lst].
    destruct (cluster_room c2 Hc2) as (F3 & F4 & _). rewrite slice_window by lia. fold (cluster_at m c2). run_step.
    assert (mjoin (cluster_at m <$> l1) ++ cluster_at m c2 = mjoin (cluster_at m <$> (l1 ++ [c2]))) as -> by (rewrite fmap_app, join_app; cbn; by rewrite app_nil_r).
    assert (mlen (mjoin (cluster_at m <$> (l1 ++ [c2]))) = Z.of_nat (length (l1 ++ [c2])) * cluster_size b) as Lj
      by (apply clusters_length; [done|]; apply Forall_app; split; [done|by apply Forall_singleton]).
    rewrite Lj. rewrite length_app in *. cbn [length] in *. destruct l2 as [|c3 l2].
    + replace (size <=? _) with true. 2: { apply (f_equal length) in El. rewrite length_app in El. cbn [length] in El. replace (length l) with (length l1) in Hsz by lia. symmetry. apply Z.leb_le. rewrite Nat2Z.inj_succ in Hsz. rewrite Nat2Z.inj_add. lia. }
      eexists. split; [reflexivity|]. by rewrite El.
    + replace (size <=? _) with false. 2: { apply (f_equal length) in El. rewrite length_app in El. cbn [length] in El. symmetry. apply Z.leb_gt. assert (Z.of_nat (length l1 + 1) <= Z.of_nat (length l)) by lia. nia. }
      unfold fat_next. destruct (fat_get_ok m c2 Hn Hm) as (er & ->); [destruct Hc2; lia|]. run_step. rewrite (proj2 Hc2).
      apply linked_app in Hl as [_ Hl]. destruct Hl as [-> _]. cbn [hd]. apply (f_equal length) in El as El'. rewrite length_app in El'. cbn [length] in El'.
      replace (GUARD <? Z.of_nat (length l1) + 1) with false by (unfold GUARD; lia). eexists. split; [reflexivity|]. cbv beta iota. split.
      * exists (l1 ++ [c2]), c3, l2. rewrite <- app_assoc. split; [done|]. rewrite length_app. cbn [length]. do 2 f_equal. lia.
      * cbn [snd]. lia.
  - by exists [], c, l.
  - cbn [snd]. unfold chain_fuel, GUARD. lia.
Qed.

(** Freeing a chain clears its entries and no other. *)
Lemma free_chain_ok m c l e : mlen m = n -> bytes m -> Forall good (c :: l) -> NoDup (c :: l) -> linked m (c :: l) e -> eoc_min b <= e ->
  exists m', free_chain (mkImage m b) c = Done (Ok (mkImage m' b)) /\ writes [table] m m' /\
    forall c', 0 <= c' -> fat_at b m' c' = if bool_decide (c' ∈ c :: l) then 0 else fat_at b m c'.
Proof.
  intros Hn Hm Hg Hnd Hl He. pose proof (chain_length _ Hnd Hg) as Hlen. unfold free_chain.
  assert (2 <= c) by (inversion_clear Hg as [|? ? [Hc _] _]; lia). replace (c <? 2) with false by lia.
  set (P := fun img => exists m', img = mkImage m' b /\ writes [table] m m' /\
    forall c', 0 <= c' -> fat_at b m' c' = if bool_decide (c' ∈ c :: l) then 0 else fat_at b m c').
  destruct (loop_total (fun st => exists l1 l2 m1, c :: l = l1 ++ l2 /\ st = (mkImage m1 b, hd e l2, Z.of_nat (length l1)) /\ writes [table] m m1 /\
      forall c', 0 <= c' -> fat_at b m1 c' = if bool_decide (c' ∈ l1) then 0 else fat_at b m c')
    (fun st => Z.to_nat (65536 - st.2)) (fun r => exists img, r = Ok img /\ P img) free_body)
    with (fuel := chain_fuel) (s := (mkImage m b, c, 0)) as (r & -> & img & -> & m' & -> & W & Hv); [| | |by exists m'].
  - intros st (l1 & l2 & m1 & El & -> & W & Hv). unfold free_body. destruct l2 as [|c2 l2]; cbn [hd].
    { replace ((2 <=? e) && negb (is_eoc (mkImage m1 b) e)) with false by (rewrite is_eoc_eq; destruct eoc_entry; lia).
      eexists. split; [reflexivity|]. eexists. split; [done|]. exists m1. split_and!; [done..|]. rewrite El, app_nil_r. exact Hv. }
    rewrite El in Hg, Hl, Hlen, Hnd. apply Forall_app in Hg as [Hg1 Hg2]. inversion_clear Hg2 as [|? ? Hc2 Hg3]. apply linked_app in Hl as [_ [Hl2 _]].
    apply NoDup_app in Hnd as (_ & Hnd & _). assert (c2 ∉ l1) as Hno by (intros Hc; apply (Hnd c2 Hc); by left).
    assert (mlen m1 = n) as Hn1 by by rewrite (writes_len _ _ _ W). assert (bytes m1) as Hm1 by by apply (writes_bytes _ _ _ W).
    assert (0 <= c2) as H0 by (destruct Hc2; lia).
    rewrite good_chain_test by done. destruct (fat_get_ok m1 c2 Hn1 Hm1 H0) as (er & ->). run_step. rewrite (proj2 Hc2).
    destruct (fat_set_ok m1 c2 0 Hn1 Hm1 H0 (proj2 Hc2)) as (m2 & -> & W2 & Hv2). run_step.
    rewrite Hv by done. rewrite bool_decide_eq_false_2, Hl2 by done. rewrite length_app in Hlen. cbn [length] in Hlen.
    replace (GUARD <? Z.of_nat (length l1) + 1) with false by (unfold GUARD; lia). eexists. split; [reflexivity|]. cbv beta iota. split; [|cbn [snd]; lia].
    exists (l1 ++ [c2]), l2, m2. rewrite <- app_assoc. split; [done|]. split; [rewrite length_app; cbn [length]; do 2 f_equal; lia|].
    split; [by transitivity m1|]. intros c' Hc'. rewrite Hv2, Hv by done. rewrite (bool_decide_ext (c' ∈ l1 ++ [c2]) (c' ∈ l1 \/ c' = c2)).
    2: { rewrite elem_of_app, list_elem_of_singleton. done. }
    destruct (Z.eqb_spec c' c2) as [->|Hne].
    + rewrite bool_decide_eq_true_2 by by right. by rewrite Z.mod_0_l by (destruct eoc_entry; lia).
    + by rewrite (bool_decide_ext (c' ∈ l1 \/ c' = c2) (c' ∈ l1)) by (split; [by intros [|]|by left]).
  - exists [], (c :: l), m. split_and!; [done..|reflexivity|]. intros c' _. by rewrite bool_decide_eq_false_2 by apply not_elem_of_nil.
  - cbn [snd]. unfold chain_fuel, GUARD. lia.
Qed.

(** *** Writing a file *)

(** The clusters [l] were free in [m0] and now hold [bs], followed by zeros. *)
Record holds (m0 m : list Z) (l : list Z) (bs : list Z) : Prop := {
  ho_nodup : NoDup l;
  ho_good : Forall good l;
  ho_free : Forall (fun c => fat_at b m0 c = 0) l;
  ho_bytes : exists z, mjoin (cluster_at m <$> l) = bs ++ z;
  ho_table c : 0 <= c -> in_fat b c = true -> c ∉ l -> fat_at b m c = fat_at b m0 c;
  ho_writes : writes (table :: map cluster_region l) m0 m
}.

(** While the file is written: [l] is full, [prev] is reserved, [w] is written. *)
Record writing (m0 m : list Z) (l : list Z) (prev : Z) (w : list Z) : Prop := {
  wr_nodup : NoDup (l ++ [prev]);
  wr_good : Forall good l;
  wr_prev : 2 <= prev < eoc_min b /\ in_fat b prev = true;
  wr_free : Forall (fun c => fat_at b m0 c = 0) (l ++ [prev]);
  wr_bytes : mjoin (cluster_at m <$> l) = w;
  wr_linked : linked m l prev;
  wr_end : eoc_min b <= fat_at b m prev;
  wr_table c : 0 <= c -> in_fat b c = true -> c ∉ l ++ [prev] -> fat_at b m c = fat_at b m0 c;
  wr_writes : writes (table :: map cluster_region l) m0 m
}.

Lemma clusters_frame rs m m' l : writes rs m m' -> mlen m = n -> Forall good l -> (forall c, c ∈ l -> apart (cluster_region c) rs) ->
  cluster_at m' <$> l = cluster_at m <$> l.
Proof.
  intros W Hn Hg Ha. apply list_fmap_ext. intros i c Hc. eapply cluster_frame; [done|done| |].
  - rewrite Forall_lookup in Hg. by eapply Hg.
  - apply Ha. by eapply list_elem_of_lookup_2.
Qed.

Lemma fill_cluster m c chunk : mlen m = n -> bytes m -> bytes chunk -> good c -> mlen chunk <= cluster_size b ->
  exists m1 m2, splice m (cluster_pos c) (replicate (Z.to_nat (cluster_size b)) 0) = Done m1 /\ splice m1 (cluster_pos c) chunk = Done m2 /\
    writes [cluster_region c] m m2 /\ cluster_at m2 c = chunk ++ replicate (Z.to_nat (cluster_size b - mlen chunk)) 0.
Proof.
  intros Hn Hm Hb Hc Hle. destruct (cluster_fits c Hc) as [F1 F2]. destruct (sane_regions b n Hsane) as (R1 & R2 & R3 & R4).
  pose proof (sn_size _ _ Hsane). pose proof (mlen_nonneg chunk).
  assert (0 <= cluster_pos c) as Hc0 by lia. set (z := replicate _ 0).
  assert (mlen z = cluster_size b) as Lz by (unfold z; rewrite mlen_replicate; lia).
  destruct (splice_ok m (cluster_pos c) z) as (m1 & E1 & W1 & S1); [done|lia|done|by apply bytes_replicate|].
  assert (mlen m1 = n) as Hn1 by by rewrite (writes_len _ _ _ W1). assert (bytes m1) as Hm1 by by apply (writes_bytes _ _ _ W1).
  destruct (splice_ok m1 (cluster_pos c) chunk) as (m2 & E2 & W2 & S2); [done|lia|done|done|].
  exists m1, m2. split_and!; [done|done| |].
  - transitivity m1; [rewrite Lz in W1; exact W1|]. eapply writes_within; [|exact W2]. apply Forall_singleton. intros a Ha. exists (cluster_region c). split; [by left|].
    unfold cluster_region, inside in *. cbn in *. lia.
  - apply window_unique; [|rewrite mlen_app, mlen_replicate; lia]. apply stored_join; [done|].
    assert (z = replicate (length chunk) 0 ++ replicate (Z.to_nat (cluster_size b - mlen chunk)) 0) as Ez.
    { unfold z. rewrite <- replicate_add. f_equal. unfold mlen. unfold mlen in Hle. lia. }
    rewrite Ez in S1. apply stored_app in S1 as [_ S1]. rewrite mlen_replicate in S1. fold (mlen chunk) in S1.
    eapply writes_stored; [exact W2| |exact S1]. split; [|done]. cbn. unfold disjoint. lia.
Qed.

Lemma table_apart_region c : good c -> apart (cluster_region c) [table].
Proof. intros Hc. split; [by apply cluster_table|done]. Qed.

Lemma region_apart_table c : good c -> apart table [cluster_region c].
Proof. intros Hc. split; [by apply disjoint_sym, cluster_table|done]. Qed.

Lemma write_chunk m0 m l prev w chunk : writing m0 m l prev w -> mlen m0 = n -> bytes m0 -> bytes chunk -> good prev -> mlen chunk <= cluster_size b ->
  exists m1 m2, splice m (cluster_pos prev) (replicate (Z.to_nat (cluster_size b)) 0) = Done m1 /\ splice m1 (cluster_pos prev) chunk = Done m2 /\
    mlen m2 = n /\ bytes m2 /\ writes (table :: map cluster_region (l ++ [prev])) m0 m2 /\
    (forall c, 0 <= c -> in_fat b c = true -> fat_at b m2 c = fat_at b m c) /\
    mjoin (cluster_at m2 <$> l ++ [prev]) = w ++ chunk ++ replicate (Z.to_nat (cluster_size b - mlen chunk)) 0.
Proof.
  intros [Hnd Hg _ _ Hw _ _ _ W] Hn0 Hm0 Hb Hp Hle. assert (mlen m = n) as Hn by by rewrite (writes_len _ _ _ W). assert (bytes m) as Hm by by apply (writes_bytes _ _ _ W).
  destruct (fill_cluster m prev chunk Hn Hm Hb Hp Hle) as (m1 & m2 & E1 & E2 & W2 & Ec). exists m1, m2. split_and!; [done|done|by rewrite (writes_len _ _ _ W2)|by apply (writes_bytes _ _ _ W2)| | |].
  - transitivity m.
    + eapply writes_subset; [|exact W]. rewrite map_app. intros r Hr. apply elem_of_cons in Hr as [->|Hr]; [by left|right]. apply elem_of_app. by left.
    + eapply writes_subset; [|exact W2]. rewrite map_app. intros r Hr. right. apply elem_of_app. by right.
  - intros c Hc Hin. eapply table_frame; [exact W2|done|done|]. by apply region_apart_table.
  - rewrite fmap_app, join_app. cbn [fmap list_fmap]. rewrite mjoin_cons, app_nil_r, Ec. f_equal. rewrite <- Hw. f_equal. eapply clusters_frame; [exact W2|done|done|].
    intros c Hc. split; [|done]. apply cluster_apart. intros ->. apply NoDup_app in Hnd as (_ & Hnd & _). by apply (Hnd prev Hc), list_elem_of_singleton.
Qed.

(** What [allocate_and_write] has done when it returns cluster [c]. *)
Definition written (m0 : list Z) (bs : list Z) (c : Z) (m' : list Z) (l : list Z) (e : Z) : Prop :=
  holds m0 m' (c :: l) bs /\ linked m' (c :: l) e /\ eoc_min b <= e /\
  Z.of_nat (length l) * cluster_size b < mlen bs <= Z.of_nat (length (c :: l)) * cluster_size b.

Lemma take_min (l : list Z) k : 0 <= k -> take (Z.to_nat (Z.min (mlen l) k)) l = take (Z.to_nat k) l.
Proof.
  intros Hk. unfold mlen. destruct (Z.min_spec (Z.of_nat (length l)) k) as [[H ->]|[H ->]]; [|done]. rewrite Nat2Z.id. by rewrite !take_ge by lia.
Qed.

(** The last cluster and the next one after it is filled. *)
Definition filled (m0 m m2 : list Z) (l : list Z) (prev : Z) (w : list Z) : Prop :=
  mlen m2 = n /\ bytes m2 /\ writes (table :: map cluster_region (l ++ [prev])) m0 m2 /\
  (forall c, 0 <= c -> in_fat b c = true -> fat_at b m2 c = fat_at b m c) /\ mjoin (cluster_at m2 <$> l ++ [prev]) = w.

Lemma writing_prev m0 m l prev w : writing m0 m l prev w -> prev ∉ l.
Proof. intros [Hnd _ _ _ _ _ _ _ _] Hc. apply NoDup_app in Hnd as (_ & Hnd & _). by apply (Hnd prev Hc), list_elem_of_singleton. Qed.

(** Entries written after the fill leave the clusters alone. *)
Lemma filled_table m0 m m2 m3 l prev w : filled m0 m m2 l prev w -> Forall good (l ++ [prev]) -> writes [table] m2 m3 ->
  mjoin (cluster_at m3 <$> l ++ [prev]) = w /\ writes (table :: map cluster_region (l ++ [prev])) m0 m3.
Proof.
  intros (Hn2 & Hm2 & W2 & _ & Hb2) Hg W3. split.
  - erewrite clusters_frame; [exact Hb2|exact W3|done|done|]. intros c Hc. apply table_apart_region. by apply (proj1 (Forall_forall _ _) Hg).
  - transitivity m2; [done|]. eapply writes_subset; [|exact W3]. intros r Hr. apply list_elem_of_singleton in Hr as ->. by left.
Qed.

Lemma writing_end m0 m m2 m3 l prev w bs z e : writing m0 m l prev w -> filled m0 m m2 l prev (bs ++ z) -> good prev -> writes [table] m2 m3 ->
  (forall c, 0 <= c -> fat_at b m3 c = if c =? prev then e else fat_at b m2 c) ->
  holds m0 m3 (l ++ [prev]) bs /\ linked m3 (l ++ [prev]) e.
Proof.
  intros Hwr Hf Hgp W3 Hv3. pose proof (writing_prev _ _ _ _ _ Hwr) as Hprev. pose proof Hwr as [Hnd Hg _ Hfree _ Hlink _ Htab _].
  assert (Forall good (l ++ [prev])) as Hg' by (apply Forall_app; split; [done|by apply Forall_singleton]).
  destruct (filled_table _ _ _ _ _ _ _ Hf Hg' W3) as [Hb3 W03]. destruct Hf as (_ & _ & _ & Ht2 & _). split.
  - constructor; [done|done|done|by exists z| |done]. intros c Hc Hi Hno. rewrite Hv3 by done. destruct (Z.eqb_spec c prev) as [->|]; [|by rewrite Ht2, Htab].
    destruct Hno. apply elem_of_app. right. by left.
  - apply linked_snoc. split; [|by rewrite Hv3, Z.eqb_refl by (destruct Hgp; lia)]. eapply linked_frame; [|exact Hlink]. intros c Hc.
    destruct (proj1 (Forall_forall _ _) Hg c Hc) as [Hc1 Hc2]. rewrite Hv3 by lia. rewrite (proj2 (Z.eqb_neq c prev)) by (intros ->; by apply Hprev). apply Ht2; [lia|done].
Qed.

Lemma writing_next m0 m m2 m4 l prev w w' next e : writing m0 m l prev w -> filled m0 m m2 l prev w' -> good prev -> writes [table] m2 m4 ->
  2 <= next < eoc_min b -> in_fat b next = true -> fat_at b m2 next = 0 -> eoc_min b <= e ->
  (forall c, 0 <= c -> fat_at b m4 c = if c =? prev then next else if c =? next then e else fat_at b m2 c) ->
  writing m0 m4 (l ++ [prev]) next w'.
Proof.
  intros Hwr Hf Hgp W24 Hx1 Hx2 Hx3 He Hv4. pose proof (writing_prev _ _ _ _ _ Hwr) as Hprev. pose proof Hwr as [Hnd Hg [Hp1 Hp2] Hfree _ Hlink Hend Htab _].
  assert (Forall good (l ++ [prev])) as Hg' by (apply Forall_app; split; [done|by apply Forall_singleton]).
  destruct (filled_table _ _ _ _ _ _ _ Hf Hg' W24) as [Hb4 W04]. destruct Hf as (_ & _ & _ & Ht2 & _).
  assert (next ∉ l ++ [prev]) as Hno.
  { intros Hin'. apply elem_of_app in Hin' as [Hin'|Hin'].
    - assert (2 <= fat_at b m next) as H2 by (eapply linked_next; [exact Hlink|lia| |exact Hin']; eapply Forall_impl; [exact Hg|]; intros x [Hx _]; lia).
      rewrite Ht2 in Hx3 by (lia || done). lia.
    - apply list_elem_of_singleton in Hin' as ->. rewrite Ht2 in Hx3 by (lia || done). destruct eoc_entry. lia. }
  assert (next <> prev) as Hnp by (intros ->; apply Hno, elem_of_app; right; by left).
  constructor; [| done | done | | exact Hb4 | | | | exact W04].
  - apply NoDup_app. split; [done|]. split; [|by apply NoDup_singleton]. intros x Hx Hx'. apply list_elem_of_singleton in Hx' as ->. done.
  - apply Forall_app. split; [done|]. apply Forall_singleton. rewrite <- Htab, <- Ht2 by (lia || done). done.
  - apply linked_snoc. split; [|by rewrite Hv4, Z.eqb_refl by lia]. eapply linked_frame; [|exact Hlink]. intros c Hc.
    destruct (proj1 (Forall_forall _ _) Hg c Hc) as [Hc1 Hc2]. rewrite Hv4 by lia.
    rewrite (proj2 (Z.eqb_neq c prev)) by (intros ->; by apply Hprev). rewrite (proj2 (Z.eqb_neq c next)); [by apply Ht2; [lia|]|]. intros ->. apply Hno, elem_of_app. by left.
  - rewrite Hv4 by lia. by rewrite (proj2 (Z.eqb_neq next prev)), Z.eqb_refl.
  - intros c Hc Hi Hnc. assert (c ∉ l ++ [prev] /\ c <> next) as [Hc1 Hc2] by (split; intros Hx; apply Hnc, elem_of_app; [by left|right; rewrite Hx; by left]).
    rewrite Hv4 by done. rewrite (proj2 (Z.eqb_neq c next)) by done. rewrite (proj2 (Z.eqb_neq c prev)); [by rewrite Ht2, Htab|]. intros ->. apply Hc1, elem_of_app. right. by left.
Qed.

Lemma room_less m k j : room m k -> (j <= k)%nat -> room m j.
Proof. intros (F & H1 & H2 & H3) Hj. exists F. split_and!; [done|done|lia]. Qed.

(** There is room for the rest: the reserved cluster is one of the volume, and enough others
    are free. *)
Definition enough (m : list Z) (prev : Z) (rem : list Z) : Prop :=
  good prev /\ exists k, mlen rem <= Z.of_nat (S k) * cluster_size b /\ room m k.

Lemma write_turn m0 bs first m l prev w rem : mlen m0 = n -> bytes m0 -> bytes bs -> bs = w ++ rem -> rem <> [] ->
  writing m0 m l prev w -> mlen w = Z.of_nat (length l) * cluster_size b -> hd prev l = first ->
  exists r, write_body (mkImage m b, prev, rem) = Done r /\
    match r with
    | inl (img', prev', rem') => (exists m' l' w', img' = mkImage m' b /\ bs = w' ++ rem' /\ rem' <> [] /\ writing m0 m' l' prev' w' /\
        mlen w' = Z.of_nat (length l') * cluster_size b /\ hd prev' l' = first /\ (enough m prev rem -> enough m' prev' rem')) /\ (length rem' < length rem)%nat
    | inr (Ok img') => exists m' l' e, img' = mkImage m' b /\ written m0 bs first m' l' e
    | inr (Err _) => ~ enough m prev rem
    end.
Proof.
  intros Hn0 Hm0 Hbs Ebs Hrem Hwr Lw Hfirst. pose proof (wr_prev _ _ _ _ _ Hwr) as [Hp1 Hp2]. pose proof (wr_writes _ _ _ _ _ Hwr) as W.
  pose proof (sn_cluster _ _ Hsane) as Hcs. assert (mlen m = n) as Hn by by rewrite (writes_len _ _ _ W).
  unfold write_body. unfold cluster_offset. cbn [data bpb]. replace (prev <? 2) with false by lia. fold (cluster_pos prev).
  destruct (Z.ltb_spec (mlen m) (cluster_pos prev + cluster_size b)) as [Hout|Hin].
  { eexists. split; [reflexivity|]. intros [Hg _]. destruct (cluster_fits prev Hg). lia. }
  assert (good prev) as Hgp by (split; [split; [lia|apply last_fits; lia]|done]).
  rewrite take_min by lia. set (chunk := take (Z.to_nat (cluster_size b)) rem).
  assert (bytes rem) as Hbr by (rewrite Ebs in Hbs; by apply Forall_app in Hbs as [_ ?]).
  assert (mlen chunk = Z.min (mlen rem) (cluster_size b)) as Lc by (unfold chunk, mlen; rewrite length_take; lia).
  destruct (write_chunk m0 m l prev w chunk Hwr Hn0 Hm0) as (m1 & m2 & E1 & E2 & Hn2 & Hm2 & W2 & Ht2 & Hb2); [by apply Forall_take|done|lia|].
  rewrite E1. run_step. rewrite E2. run_step. unfold with_data. cbn [bpb].
  assert (0 < mlen rem) as Hr0 by (destruct rem; [done|rewrite mlen_cons; pose proof (mlen_nonneg rem); lia]).
  assert (mlen (drop (Z.to_nat (Z.min (mlen rem) (cluster_size b))) rem) = mlen rem - Z.min (mlen rem) (cluster_size b)) as Ld
    by (unfold mlen in *; rewrite length_drop; lia).
  assert (hd prev (l ++ [prev]) = first) as Hfirst' by by destruct l.
  destruct (Z.eqb_spec (mlen (drop (Z.to_nat (Z.min (mlen rem) (cluster_size b))) rem)) 0) as [Ez|Ez].
  - assert (chunk = rem) as Er by (unfold chunk; apply take_ge; unfold mlen in *; lia). rewrite Er, app_assoc, <- Ebs in Hb2.
    destruct (fat_set_ok m2 prev (eoc_value (mkImage m2 b)) Hn2 Hm2) as (m3 & -> & W3 & Hv3); [lia|done|]. run_step. eexists. split; [reflexivity|]. cbv beta iota.
    destruct (eoc_value_eq m2) as [Ee1 Ee2]. rewrite Ee2 in Hv3.
    destruct (writing_end m0 m m2 m3 l prev w bs _ _ Hwr ltac:(by split_and!) Hgp W3 Hv3) as [Hho Hli].
    destruct (l ++ [prev]) as [|c t] eqn:El; [by destruct l|]. cbn [hd] in Hfirst'. subst c. exists m3, t, (eoc_value (mkImage m2 b)). split; [done|].
    split_and!; [done|done|done|..]; assert (length (first :: t) = S (length l)) as Et by (rewrite <- El, length_app; cbn; lia); cbn [length] in *; rewrite Ebs, mlen_app;
      replace (length t) with (length l) by lia; nia.
  - assert (cluster_size b < mlen rem) as Hmore by lia. assert (mlen chunk = cluster_size b) as Lc' by lia. rewrite Z.min_r in * by lia. rewrite Lc', Z.sub_diag in Hb2. change (replicate (Z.to_nat 0) 0) with (@nil Z) in Hb2. rewrite app_nil_r in Hb2.
    destruct (alloc_ok m2 Hn2 Hm2) as (r & -> & Hr). unfold rtry at 1. run_step. destruct r as [[img next]|e].
    2: { eexists. split; [reflexivity|]. intros (_ & k & Hk & Hroom). apply Hr. apply (room_same m m2) in Hroom; [|by intros c [[Hc _] Hi] H0; rewrite Ht2 by (lia || done)].
         destruct k as [|k]; [cbn in Hk; lia|]. apply (room_less m2 (S k)); [done|lia]. }
    destruct Hr as (m3 & -> & Hx1 & Hx2 & Hx3 & W3 & Hv3 & Hroom3). assert (mlen m3 = n) as Hn3 by by rewrite (writes_len _ _ _ W3). assert (bytes m3) as Hm3 by by apply (writes_bytes _ _ _ W3).
    destruct (fat_set_ok m3 prev next Hn3 Hm3) as (m4 & -> & W4 & Hv4); [lia|done|]. unfold rtry. run_step. eexists. split; [reflexivity|]. cbv beta iota.
    split; [|unfold mlen in *; lia]. exists m4, (l ++ [prev]), (w ++ chunk).
    split_and!; [done|rewrite Ebs, <- app_assoc; f_equal; symmetry; apply take_drop|intros E; apply Ez; by rewrite E| |rewrite mlen_app, length_app, Lw, Lc'; cbn [length]; lia|by destruct l|].
    2: { intros (_ & k & Hk & Hroom). apply (room_same m m2) in Hroom; [|by intros c [[Hc _] Hi] H0; rewrite Ht2 by (lia || done)]. destruct k as [|k]; [cbn in Hk; lia|].
         destruct (Hroom3 k Hroom) as [Hgn Hrk]. split; [done|]. exists k. split; [lia|]. apply (room_same m3); [|done]. intros c [[Hc _] _] H0. rewrite Hv4 by lia.
         destruct (Z.eqb_spec c prev) as [->|]; [|done]. rewrite Hv3, Ht2 in H0 by (lia || done). pose proof (wr_end _ _ _ _ _ Hwr). destruct (eoc_value_eq m3). destruct eoc_entry.
         destruct (prev =? next); lia. }
    eapply (writing_next m0 m m2 m4 l prev w (w ++ chunk) next (eoc_value (mkImage m2 b)) Hwr); [by split_and!|done|by transitivity m3|done|done|done|apply eoc_value_eq|].
    intros c Hc. rewrite Hv4, Hv3 by done. by rewrite (Z.mod_small next) by (destruct eoc_entry; lia).
Qed.

(** Whatever is written can be read back: the chain that [allocate_and_write] returns was
    free, holds the bytes, and ends in an end mark; no other entry or cluster changes. *)
Lemma allocate_and_write_ok m bs : mlen m = n -> bytes m -> bytes bs -> bs <> [] ->
  settles (allocate_and_write (mkImage m b) bs) (fun r => let '(img, c) := r in exists m' l e, img = mkImage m' b /\ written m bs c m' l e)
    (forall k, room m k -> Z.of_nat k * cluster_size b < mlen bs).
Proof.
  intros Hn Hm Hbs Hne. unfold allocate_and_write. pose proof (sn_cluster _ _ Hsane) as Hcs.
  assert (0 < mlen bs) as Hbs0 by (destruct bs; [done|rewrite mlen_cons; pose proof (mlen_nonneg bs); lia]).
  eapply settles_try; [eapply settles_weaken; [by apply alloc_ok|done|]|].
  { intros Hr [|k] Hk; [lia|]. destruct Hr. apply (room_less m (S k)); [done|lia]. }
  intros [img first] (m1 & -> & Hf1 & Hf2 & Hf3 & W1 & Hv1 & Hroom1). destruct (eoc_value_eq m) as [Ee _]. pose proof (sn_kind _ _ Hsane). destruct eoc_entry as (K1 & K2 & K3).
  eapply settles_try.
  - apply (settles_loop (fun st => let '(img, prev, rem) := st in exists m' l w, img = mkImage m' b /\ bs = w ++ rem /\ rem <> [] /\ writing m m' l prev w /\
        mlen w = Z.of_nat (length l) * cluster_size b /\ hd prev l = first /\
        forall k, room m k -> mlen bs <= Z.of_nat k * cluster_size b -> enough m' prev rem)
      (fun st => length st.2) (fun img => exists m' l e, img = mkImage m' b /\ written m bs first m' l e)).
    + intros [[img prev] rem] (m' & l & w & -> & Ebs & Hrem & Hwr & Lw & Hfirst & Hen). destruct (write_turn m bs first m' l prev w rem) as (r & E & Hr); [done..|].
      exists r. split; [done|]. destruct r as [[[img' prev'] rem']|[|]]; [|done|].
      * destruct Hr as [(m2 & l2 & w2 & H1 & H2 & H3 & H4 & H5 & H6 & H7) Hlt]. split; [|done]. exists m2, l2, w2. split_and!; try done. intros k Hk Hl. by apply H7, (Hen k).
      * intros k Hk. destruct (decide (Z.of_nat k * cluster_size b < mlen bs)); [done|]. destruct Hr. apply (Hen k Hk). lia.
    + exists m1, [], []. split_and!; [done..| |done|done|].
      2: { intros [|k] Hk Hl; [lia|]. destruct (Hroom1 k Hk) as [Hg Hr]. split; [done|]. exists k. split; [lia|done]. }
      constructor; cbn [app].
      * by apply NoDup_singleton.
      * done.
      * done.
      * by apply Forall_singleton.
      * done.
      * done.
      * rewrite Hv1, Z.eqb_refl by lia. by destruct (eoc_value_eq m1).
      * intros c Hc Hi Hno. rewrite Hv1 by done. by rewrite (proj2 (Z.eqb_neq c first)) by (intros ->; apply Hno; by left).
      * exact W1.
    + cbn [snd]. lia.
  - intros img (m' & l & e & -> & Hwr). apply settles_ok. exists m', l, e. split; [done|]. rewrite wrap_small; [done|].
    destruct Hwr as (Hh & _). pose proof (ho_good _ _ _ _ Hh) as Hg. inversion_clear Hg as [|? ? [Hg1 _] _]. lia.
Qed.

(** *** Freeing stops *)

Lemma fat_get_err img c e : fat_get img c = Done (Err e) -> e <> "FAT free: chain too long / loop"%string.
Proof.
  unfold fat_get. intros (fat & _ & E)%bind_Done. destruct (bp_fat_kind (bpb img)); destruct (_ <=? _).
  - by injection E as <-.
  - by apply bind_Done in E as (v & _ & E).
  - by injection E as <-.
  - by apply bind_Done in E as (v & _ & E).
Qed.

(** C40: freeing the chain that starts at any cluster stops, whatever the table holds, loops
    included: a turn clears an entry, and a second visit finds it clear.  The limit on the
    length of a chain is never reached. *)
Theorem free_chain_stops m start : mlen m = n -> bytes m -> 0 <= start ->
  exists r, free_chain (mkImage m b) start = Done r /\ r <> Err "FAT free: chain too long / loop".
Proof.
  intros Hn Hm H0. unfold free_chain. destruct (start <? 2); [by eexists|]. destruct eoc_entry as (_ & _ & K).
  apply (loop_total (fun st => exists m1, st.1.1 = mkImage m1 b /\ mlen m1 = n /\ bytes m1 /\ 0 <= st.1.2 /\
      ((exists V, NoDup V /\ Forall (fun c => 0 <= c < 65536) V /\ (forall c, c ∈ V -> fat_at b m1 c = 0) /\ st.2 = Z.of_nat (length V)) \/ st.1.2 = 0 /\ 0 <= st.2 <= 65537))
    (fun st => Z.to_nat (65538 - st.2))).
  - intros [[img c] guard] (m1 & E & Hn1 & Hm1 & Hc & HV). cbn [fst snd] in *. subst img. unfold free_body. rewrite is_eoc_eq.
    destruct ((2 <=? c) && negb (eoc_min b <=? c)) eqn:Et; [|by eexists]. destruct HV as [(V & Hnd & HVr & HV0 & ->)|[-> _]]; [|done].
    pose proof (short_list V Hnd HVr) as Hlen. destruct (fat_get_ok m1 c Hn1 Hm1 Hc) as (e & Eg). rewrite Eg. run_step. destruct (in_fat b c) eqn:Hin.
    2: { eexists. split; [reflexivity|]. intros [= ->]. by apply fat_get_err in Eg. }
    destruct (fat_set_ok m1 c 0 Hn1 Hm1 Hc Hin) as (m2 & -> & W & Hv). run_step. replace (GUARD <? Z.of_nat (length V) + 1) with false by (unfold GUARD; lia).
    eexists. split; [reflexivity|]. cbn [fst snd]. split; [|lia]. exists m2. pose proof (fat_at_range b m1 c Hm1). split_and!; [done|by rewrite (writes_len _ _ _ W)|by apply (writes_bytes _ _ _ W)|lia|].
    destruct (decide (c ∈ V)) as [HcV|HcV]; [right; rewrite HV0 by done; lia|left]. exists (c :: V). split_and!.
    + by constructor.
    + constructor; [lia|done].
    + intros x Hx. assert (0 <= x) as Hx0 by (apply elem_of_cons in Hx as [->|Hx]; [done|]; rewrite Forall_forall in HVr; specialize (HVr x Hx); lia). rewrite Hv by done.
      destruct (Z.eqb_spec x c); [apply Z.mod_0_l; destruct eoc_entry; lia|]. apply elem_of_cons in Hx as [->|Hx]; [done|by apply HV0].
    + cbn [length]. lia.
  - exists m. split_and!; try done. left. exists []. split_and!; try done; [by constructor|]. intros x Hx. by apply elem_of_nil in Hx.
  - cbn [snd]. unfold chain_fuel, GUARD. lia.
Qed.
End Table.

(** ** A small volume

    Eight clusters of 32 bytes, two tables of 32 bytes, four directory slots. *)
Definition small_boot : list Z :=
  [0xEB; 0x3C; 0x90] ++ [75; 79; 76; 73; 66; 82; 73; 32] ++ [32; 0] ++ [1] ++ [16; 0] ++ [2] ++ [4; 0] ++ [32; 0] ++ [0xF8] ++ [1; 0] ++
  replicate 486 0 ++ [0x55; 0xAA].
Definition small_volume (fat root : list Z) : list Z :=
  small_boot ++ (fat ++ replicate (32 - length fat) 0) ++ replicate 32 0 ++ (root ++ replicate (128 - length root) 0) ++ replicate 256 0.
Definition small_bpb : Bpb := mkBpb [75; 79; 76; 73; 66; 82; 73] 32 1 16 2 4 32 0xF8 1 0 0 (replicate 8 0) Fat12.
Definition empty_table : list Z := [0xF8; 0xFF; 0xFF].
(** Clusters 2 and 3 follow each other for ever. *)
Definition loop_table : list Z := empty_table ++ [0x03; 0x20; 0x00].

Lemma small_sane : sane small_bpb 960.
Proof. by constructor. Qed.

Lemma free_chain_stops_witness : let img := mkImage (small_volume loop_table []) small_bpb in
  fat_at small_bpb (small_volume loop_table []) 2 = 3 /\ fat_at small_bpb (small_volume loop_table []) 3 = 2 /\
  exists r, free_chain img 2 = Done r /\ r <> Err "FAT free: chain too long / loop".
Proof.
  split; [by vm_compute|]. split; [by vm_compute|].
  apply (free_chain_stops small_bpb 960 small_sane); [by vm_compute|by apply bytes_check; vm_compute|done].
Defined.
