(* ===== verification/ImageFiles.v ===== *)
(** * The files of a disk image

    The root directory of [Image.v] as a map from names to contents, and the commands as
    operations on the map.  [ImageFat.v] has the chains. *)

From Stdlib Require Import String.
From stdpp Require Import base list gmap.
From Stdlib Require Import ZArith Lia.
From S2P Require Import Prelude Layout ImageNames Image ImageFat.

(** ** Directory slots *)

Definition ended (s : list Z) : bool := byte_at s 0 =? 0x00.
Definition free_slot (s : list Z) : bool := ended s || (byte_at s 0 =? 0xE5).
Definition entry_of (s : list Z) : DirEntry :=
  mkDirEntry (take 11 s) (byte_at s 11) (le2 (byte_at s 26) (byte_at s 27)) (le4 (byte_at s 28) (byte_at s 29) (byte_at s 30) (byte_at s 31)).
(** An entry that a search by name can find. *)
Definition visible (s : list Z) : bool := negb (free_slot s) && negb (is_lfn (entry_of s)) && negb (is_volume_label (entry_of s)).
Definition stops (want : list Z) (s : list Z) : bool := ended s || visible s && bool_decide (take 11 s = want).

Lemma byte_at_take l k i : 0 <= i < Z.of_nat k -> byte_at (take k l) i = byte_at l i.
Proof. intros Hi. unfold byte_at. replace (i <? 0) with false by lia. by rewrite lookup_take_lt by lia. Qed.

Lemma deleted_byte l : (byte_at l 0 =? 0xE5) = is_deleted (entry_of l).
Proof. unfold is_deleted, entry_of. cbn [de_raw_name]. by rewrite byte_at_take by lia. Qed.

(** The decoded entry is found exactly when the slot is. *)
Lemma slot_probe s want : mlen s = 32 -> ended s = false ->
  match DirEntry_parse s with Some e => names_file e want | None => false end = stops want s /\
  (stops want s = true -> DirEntry_parse s = Some (entry_of s)).
Proof.
  intros Hl He. unfold DirEntry_parse, stops, visible, free_slot. rewrite He, Hl. cbn [orb negb andb]. change (32 <? 32) with false. cbn [orb].
  unfold ended in He. rewrite He. destruct (byte_at s 0 =? 0xE5) eqn:E5; [done|]. cbn [negb andb].
  split; [|done]. fold (entry_of s). unfold names_file. by rewrite <- deleted_byte, E5.
Qed.

Section Files.
Context (b : Bpb) (n : Z) (Hsane : sane b n).

Definition slots : nat := Z.to_nat (bp_root_entries b).
Definition slot_pos (i : nat) : Z := root_offset b + 32 * Z.of_nat i.
Definition slot (m : list Z) (i : nat) : list Z := window m (slot_pos i) 32.
Definition dir_find (m : list Z) (want : list Z) : option nat :=
  match first_from (fun i => stops want (slot m i)) 0 slots with
  | Some i => if ended (slot m i) then None else Some i
  | None => None
  end.

Lemma slot_room i : (i < slots)%nat -> 512 <= slot_pos i /\ slot_pos i + 32 <= data_offset b /\ root_offset b <= slot_pos i /\ data_offset b <= n /\
  fat_offset b + fat_size b <= slot_pos i.
Proof.
  intros Hi. destruct (sane_regions b n Hsane) as (R1 & R2 & R3 & R4). pose proof (sn_root _ _ Hsane). pose proof (sn_size _ _ Hsane). unfold slots, slot_pos in *. lia.
Qed.

Lemma slot_byte m i k : mlen m = n -> (i < slots)%nat -> 0 <= k < 32 -> byte_at (slot m i) k = byte_at m (slot_pos i + k).
Proof. intros Hn Hi Hk. pose proof (slot_room i Hi). apply window_byte; lia. Qed.

Lemma slot_len m i : mlen m = n -> (i < slots)%nat -> mlen (slot m i) = 32.
Proof. intros Hn Hi. pose proof (slot_room i Hi). apply window_ok; lia. Qed.

Lemma slot_frame rs m m' i : writes rs m m' -> mlen m = n -> (i < slots)%nat -> apart (slot_pos i, 32) rs -> slot m' i = slot m i.
Proof. intros W Hn Hi Ha. pose proof (slot_room i Hi). apply (window_frame rs); (done || lia). Qed.

Lemma past_slots : (32 * Z.of_nat slots + 32 <=? bp_root_entries b * 32) = false.
Proof. apply Z.leb_gt. pose proof (sn_root _ _ Hsane). unfold slots. rewrite Z2Nat.id; lia. Qed.

(** The search for a name. *)
Lemma scan_root m want : mlen m = n ->
  loop (S (Z.to_nat (root_size b / 32))) (dirent_body (mkImage m b) (root_offset b) (root_size b) want) 0 =
  Done match first_from (fun i => stops want (slot m i)) 0 slots with
       | Some i => if ended (slot m i) then EndMark else Found (slot_pos i) (entry_of (slot m i))
       | None => Past
       end.
Proof.
  intros Hn. pose proof (sn_root _ _ Hsane) as Hr. assert (root_size b / 32 = bp_root_entries b) as -> by (unfold root_size; by rewrite Z.div_mul).
  apply (scan_loop (dirent_body (mkImage m b) (root_offset b) (root_size b) want) (fun i => 32 * Z.of_nat i) slots 0 _ _
    (fun i => if ended (slot m i) then EndMark else Found (slot_pos i) (entry_of (slot m i))) Past).
  - intros i Hi. unfold dirent_body, root_size. cbn [data bpb]. pose proof (slot_room i ltac:(lia)) as Hroom.
    replace (32 * Z.of_nat i + 32 <=? bp_root_entries b * 32) with true by (unfold slots in *; lia). fold (slot_pos i).
    rewrite slice_window by lia. fold (slot m i). run_step. unfold stops. fold (ended (slot m i)). destruct (ended (slot m i)) eqn:He; [done|]. cbn [orb].
    destruct (slot_probe (slot m i) want) as [H1 H2]; [by apply slot_len; [|lia]|done|]. unfold stops in H1, H2. rewrite He in H1, H2. cbn [orb] in H1, H2.
    destruct (visible (slot m i) && _) eqn:Hv.
    + rewrite (H2 eq_refl) in *. by rewrite H1.
    + replace (32 * Z.of_nat i + 32) with (32 * Z.of_nat (S i)) by lia. destruct (DirEntry_parse (slot m i)); [by rewrite H1|done].
  - unfold dirent_body, root_size. by rewrite past_slots.
  - lia.
  - unfold slots. lia.
Qed.

Lemma find_root_ok m want : mlen m = n -> find_root_file_offset (mkImage m b) want =
  Done ((fun i => (slot_pos i, entry_of (slot m i))) <$> dir_find m want).
Proof.
  intros Hn. unfold find_root_file_offset, dir_find. cbn [bpb]. rewrite scan_root by done. run_step.
  destruct (first_from _ _ _) as [i|]; [|done]. by destruct (ended (slot m i)).
Qed.

(** The first free slot. *)
Lemma find_free_ok m : mlen m = n -> find_free_root_dirent (mkImage m b) =
  Done match first_from (fun i => free_slot (slot m i)) 0 slots with Some i => Ok (slot_pos i) | None => Err "root directory is full" end.
Proof.
  intros Hn. pose proof (sn_root _ _ Hsane) as Hr. unfold find_free_root_dirent. cbn [bpb].
  assert (root_size b / 32 = bp_root_entries b) as -> by (unfold root_size; by rewrite Z.div_mul).
  apply (scan_loop (free_dirent_body (mkImage m b) (root_offset b) (root_size b)) (fun i => 32 * Z.of_nat i) slots 0 _ _
    (fun i => Ok (slot_pos i)) (Err "root directory is full")).
  - intros i Hi. unfold free_dirent_body, root_size. cbn [data]. pose proof (slot_room i ltac:(lia)) as Hroom.
    replace (32 * Z.of_nat i + 32 <=? bp_root_entries b * 32) with true by (unfold slots in *; lia). fold (slot_pos i).
    rewrite ld8_ok by lia. run_step. unfold free_slot, ended. rewrite slot_byte by (lia || done). rewrite Z.add_0_r.
    destruct (_ || _); [done|]. do 2 f_equal. lia.
  - unfold free_dirent_body, root_size. by rewrite past_slots.
  - lia.
  - unfold slots. lia.
Qed.

(** In a directory whose end marks come last and whose names differ, a search finds the
    slot with the name. *)
Definition shows (m : list Z) (i : nat) (f : list Z) : Prop := (i < slots)%nat /\ visible (slot m i) = true /\ take 11 (slot m i) = f.

Record tidy (m : list Z) : Prop := {
  td_tail i j : (i <= j < slots)%nat -> ended (slot m i) = true -> ended (slot m j) = true;
  td_names i j f : shows m i f -> shows m j f -> i = j
}.

Lemma visible_ended s : visible s = true -> ended s = false.
Proof. unfold visible, free_slot. by destruct (ended s). Qed.

Lemma dir_find_iff m f i : tidy m -> (dir_find m f = Some i <-> shows m i f).
Proof.
  intros [Htail Hnames]. unfold dir_find. pose proof (first_from_spec (fun i => stops f (slot m i)) 0 slots) as Hf. destruct (first_from _ 0 slots) as [j|].
  - destruct Hf as (Hj & Hs & Hbefore). destruct (ended (slot m j)) eqn:He; split; [done| | |].
    + intros (Hi & Hv & Hn). exfalso. destruct (decide (i < j)%nat) as [Hlt|Hge].
      * specialize (Hbefore i ltac:(lia)). unfold stops in Hbefore. rewrite Hv, bool_decide_eq_true_2 in Hbefore by done. by rewrite orb_true_r in Hbefore.
      * apply visible_ended in Hv. rewrite (Htail j i) in Hv by (done || lia). done.
    + intros [= <-]. unfold stops in Hs. rewrite He in Hs. cbn [orb] in Hs. apply andb_prop in Hs as [Hv Hn]. split_and!; [lia|done|by apply bool_decide_eq_true in Hn].
    + intros Hi. f_equal. apply (Hnames j i f); [|done]. unfold stops in Hs. rewrite He in Hs. cbn [orb] in Hs. apply andb_prop in Hs as [Hv Hn].
      split_and!; [lia|done|by apply bool_decide_eq_true in Hn].
  - split; [done|]. intros (Hi & Hv & Hn). specialize (Hf i ltac:(lia)). unfold stops in Hf. rewrite Hv, bool_decide_eq_true_2 in Hf by done. by rewrite orb_true_r in Hf.
Qed.

Lemma dir_find_none m f : tidy m -> dir_find m f = None -> forall i, ~ shows m i f.
Proof. intros Ht H i Hi. apply dir_find_iff in Hi; [|done]. congruence. Qed.

(** ** Writing the directory *)

(** The boot sector decides the geometry. *)
Lemma parse_frame m m' : mlen m' = mlen m -> (forall a, 0 <= a < 512 -> byte_at m' a = byte_at m a) -> Bpb_parse m' = Bpb_parse m.
Proof.
  intros Hl Hb. unfold Bpb_parse. rewrite Hl. destruct (Z.ltb_spec (mlen m) 512) as [|Hlen]; [done|].
  assert (forall a k, 0 <= a -> 0 <= k -> a + k <= 512 -> window m' a k = window m a k) as Hw.
  { intros a k Ha Hk Hak. destruct (window_ok m a k) as [(H0 & Hf & H1) E]; [lia..|]. apply window_unique; [|done]. split_and!; [done|lia|].
    intros i Hi. rewrite Hb by lia. by apply H1. }
  pose proof (Hw 3 8 ltac:(done) ltac:(done) ltac:(done)) as W1. pose proof (Hw 54 8 ltac:(done) ltac:(done) ltac:(done)) as W2. unfold window in W1, W2.
  change (Z.to_nat 3) with 3%nat in W1. change (Z.to_nat 8) with 8%nat in W1, W2. change (Z.to_nat 54) with 54%nat in W2. rewrite W1, W2.
  cbn [Z.add Pos.add Pos.succ Pos.add_carry]. by rewrite !Hb by lia.
Qed.

Lemma le2_bytes v : 0 <= v < 65536 -> le2 (byte_of v 0) (byte_of v 1) = v.
Proof.
  intros Hv. unfold le2, byte_of, wrap. rewrite !shr_eq by lia. change (2 ^ (8 * 0)) with 1. change (2 ^ (8 * 1)) with 256. change (2 ^ 8) with 256. Z.div_mod_to_equations. lia.
Qed.

Lemma take_window m a k j : 0 <= j <= k -> take (Z.to_nat j) (window m a k) = window m a j.
Proof. intros Hj. unfold window. rewrite take_take. f_equal. lia. Qed.

(** The first cluster and the length of an entry; its name and attribute stay. *)
Lemma update_dirent_ok m i start size : mlen m = n -> bytes m -> (i < slots)%nat -> 0 <= start < 65536 -> 0 <= size < 2 ^ 32 ->
  exists m', update_dirent (mkImage m b) (slot_pos i) start size = Done (Ok (mkImage m' b)) /\ writes [(slot_pos i + 20, 12)] m m' /\
    entry_of (slot m' i) = mkDirEntry (take 11 (slot m i)) (byte_at (slot m i) 11) start size.
Proof.
  intros Hn Hm Hi Hs Hz. pose proof (slot_room i Hi) as Hroom. unfold update_dirent. cbn [data]. replace (mlen m <? slot_pos i + 32) with false by lia.
  assert (forall l, bytes l -> forall m1 o, mlen m1 = n -> bytes m1 -> 0 <= o -> o + mlen l <= 32 ->
    exists m2, store_bytes m1 (slot_pos i + o) l = Done m2 /\ writes [(slot_pos i + o, mlen l)] m1 m2 /\ stored m2 (slot_pos i + o) l) as Hst.
  { intros l Hl m1 o Hn1 Hm1 Ho Hf. apply store_bytes_ok; (lia || done). }
  destruct (Hst [byte_of start 0; byte_of start 1] ltac:(by repeat constructor; apply byte_of_range) m 26) as (m1 & E1 & W1 & S1); [done|done|done|done|].
  rewrite E1. run_step.
  destruct (Hst [0; 0] ltac:(by repeat constructor) m1 20) as (m2 & E2 & W2 & S2); [by rewrite (writes_len _ _ _ W1)|by apply (writes_bytes _ _ _ W1)|done|done|].
  rewrite E2. run_step. assert (mlen m2 = n) as Hn2 by by rewrite (writes_len _ _ _ W2), (writes_len _ _ _ W1). assert (bytes m2) as Hm2 by by apply (writes_bytes _ _ _ W2), (writes_bytes _ _ _ W1).
  destruct (Hst [byte_of size 0; byte_of size 1; byte_of size 2; byte_of size 3] ltac:(repeat constructor; apply byte_of_range) m2 28) as (m3 & E3 & W3 & S3); [done|done|done|done|].
  rewrite E3. run_step. exists m3. split; [done|].
  assert (writes [(slot_pos i + 20, 12)] m m3) as W.
  { transitivity m1; [|transitivity m2]; [eapply writes_within; [|exact W1]|eapply writes_within; [|exact W2]|eapply writes_within; [|exact W3]];
      apply Forall_singleton; intros a Ha; exists (slot_pos i + 20, 12); (split; [by left|]); unfold inside, mlen in *; cbn in *; lia. }
  split; [done|]. assert (mlen m3 = n) as Hn3 by by rewrite (writes_len _ _ _ W).
  unfold entry_of. rewrite !(slot_byte m3) by (done || lia). f_equal.
  - change 11%nat with (Z.to_nat 11). unfold slot. rewrite !take_window by lia. apply (window_frame _ _ _ _ _ W); [lia|lia|lia|]. split; [|done]. cbn. unfold disjoint. lia.
  - rewrite slot_byte by (done || lia). apply (writes_byte _ _ _ (slot_pos i, 12) _ W); [|unfold inside; cbn; lia]. split; [|done]. cbn. unfold disjoint. lia.
  - eapply writes_stored in S1; [|exact W2|split; [unfold disjoint, mlen; cbn; lia|done]]. eapply writes_stored in S1; [|exact W3|split; [unfold disjoint, mlen; cbn; lia|done]].
    destruct S1 as (_ & _ & H1). pose proof (H1 0 ltac:(done)) as B0. pose proof (H1 1 ltac:(done)) as B1. rewrite Z.add_0_r in B0. rewrite <- Z.add_assoc in B1.
    rewrite <- (le2_bytes start Hs). by f_equal.
  - destruct S3 as (_ & _ & H1). pose proof (H1 0 ltac:(done)) as B0. pose proof (H1 1 ltac:(done)) as B1. pose proof (H1 2 ltac:(done)) as B2. pose proof (H1 3 ltac:(done)) as B3.
    rewrite Z.add_0_r in B0. rewrite <- Z.add_assoc in B1, B2, B3. rewrite <- (le4_split size Hz). by f_equal.
Qed.

Lemma mark_deleted_ok m i : mlen m = n -> bytes m -> (i < slots)%nat ->
  exists m', mark_dirent_deleted (mkImage m b) (slot_pos i) = Done (Ok (mkImage m' b)) /\ writes [(slot_pos i, 1)] m m' /\ byte_at (slot m' i) 0 = 0xE5.
Proof.
  intros Hn Hm Hi. pose proof (slot_room i Hi) as Hroom. unfold mark_dirent_deleted. cbn [data]. replace (mlen m <=? slot_pos i) with false by lia.
  rewrite st8_ok by lia. run_step. eexists. split; [reflexivity|]. split.
  - constructor; [by rewrite mlen_insert|intros _; by apply bytes_insert|]. intros a Ha. specialize (Ha _ ltac:(by left)). unfold inside in Ha. cbn in Ha.
    rewrite byte_at_insert by lia. by replace (a =? slot_pos i) with false by lia.
  - rewrite slot_byte by (rewrite ?mlen_insert; done). rewrite Z.add_0_r, byte_at_insert by lia. by rewrite Z.eqb_refl.
Qed.

(** A new entry. *)
Lemma write_new_ok m i f start size : mlen m = n -> bytes m -> (i < slots)%nat -> bytes f -> mlen f = 11 -> 0 <= start < 65536 -> 0 <= size < 2 ^ 32 ->
  exists m', write_new_root_dirent (mkImage m b) (slot_pos i) f start size = Done (Ok (mkImage m' b)) /\ writes [(slot_pos i, 32)] m m' /\
    entry_of (slot m' i) = mkDirEntry f 0x20 start size.
Proof.
  intros Hn Hm Hi Hf Lf Hs Hz. pose proof (slot_room i Hi) as Hroom. unfold write_new_root_dirent. cbn [data]. replace (mlen m <? slot_pos i + 32) with false by lia.
  rewrite Lf. change (negb (11 =? 11)) with false. cbv iota.
  destruct (splice_ok m (slot_pos i) f) as (m1 & -> & W1 & S1); [lia|lia|done|done|]. run_step. rewrite Lf in W1.
  assert (mlen m1 = n) as Hn1 by by rewrite (writes_len _ _ _ W1). assert (bytes m1) as Hm1 by by apply (writes_bytes _ _ _ W1).
  rewrite st8_ok by lia. run_step. set (m2 := <[_ := _]> m1). assert (mlen m2 = n) as Hn2 by (unfold m2; by rewrite mlen_insert).
  assert (bytes m2) as Hm2 by (unfold m2; by apply bytes_insert). assert (forall a, byte_at m2 a = if a =? slot_pos i + 11 then 0x20 else byte_at m1 a) as B2 by (intros; apply byte_at_insert; lia).
  destruct (store_bytes_ok (replicate 14 0) m2 (slot_pos i + 12)) as (m3 & -> & W3 & _); [lia|change (mlen (replicate 14 0)) with 14; lia|done|by apply bytes_replicate|].
  change (mlen (replicate 14 0)) with 14 in W3. run_step. unfold with_data. cbn [bpb].
  assert (mlen m3 = n) as Hn3 by by rewrite (writes_len _ _ _ W3). assert (bytes m3) as Hm3 by by apply (writes_bytes _ _ _ W3).
  destruct (update_dirent_ok m3 i start size) as (m4 & -> & W4 & E4); [done..|]. exists m4. split; [done|]. split.
  - assert (forall a k m m', slot_pos i <= a -> a + k <= slot_pos i + 32 -> writes [(a, k)] m m' -> writes [(slot_pos i, 32)] m m') as Hw.
    { intros a k x x' Ha Hk W. eapply writes_within; [|exact W]. apply Forall_singleton. intros y Hy. exists (slot_pos i, 32). split; [by left|]. unfold inside in *. cbn in *. lia. }
    transitivity m1; [apply (Hw (slot_pos i) 11); [lia|lia|done]|]. transitivity m2; [apply (Hw (slot_pos i + 11) 1); [lia|lia|]|].
    + constructor; [by rewrite Hn1|done|]. intros a Ha. specialize (Ha _ ltac:(by left)). unfold inside in Ha. cbn in Ha. rewrite B2. by replace (a =? slot_pos i + 11) with false by lia.
    + transitivity m3; [apply (Hw (slot_pos i + 12) 14)|apply (Hw (slot_pos i + 20) 12)]; (lia || done).
  - rewrite E4. f_equal.
    + change 11%nat with (Z.to_nat 11). unfold slot. rewrite take_window by lia. rewrite (window_frame _ _ _ _ _ W3) by ((cbn; unfold disjoint; lia) || lia).
      apply window_unique; [|done]. destruct S1 as (H0 & Hl & Hb). split_and!; [done|lia|]. intros k Hk. rewrite B2. replace (slot_pos i + k =? slot_pos i + 11) with false by lia. by apply Hb.
    + rewrite slot_byte by (done || lia). rewrite (writes_byte _ _ _ (slot_pos i, 12) _ W3) by ((cbn; unfold disjoint; lia) || (unfold inside; cbn; lia)). by rewrite B2, Z.eqb_refl.
Qed.

(** The copies of the table. *)
Notation table := (fat_offset b, fat_size b).
Notation copies := (fat_offset b + fat_size b, (bp_fat_count b - 1) * fat_size b).

Lemma copies_room : fat_offset b + fat_size b + (bp_fat_count b - 1) * fat_size b = root_offset b /\ 0 <= (bp_fat_count b - 1) * fat_size b.
Proof. pose proof (sn_fats _ _ Hsane). pose proof (sn_size _ _ Hsane). unfold root_offset, fat_size in *. split; nia. Qed.

Lemma mirror_turn m d k : mlen m = n -> bytes m -> 1 <= k < bp_fat_count b -> writes [copies] m d ->
  (forall j, 1 <= j < k -> stored d (fat_offset b + j * fat_size b) (window m (fat_offset b) (fat_size b))) ->
  exists d', mirror_body b (d, k) = Done (inl (d', k + 1)) /\ writes [copies] m d' /\
    forall j, 1 <= j < k + 1 -> stored d' (fat_offset b + j * fat_size b) (window m (fat_offset b) (fat_size b)).
Proof.
  intros Hn Hm Hk W Hst. destruct copies_room as [R1 R2]. destruct (sane_regions b n Hsane) as (R3 & R4 & R5 & R6). pose proof (sn_size _ _ Hsane) as Hfs.
  assert (mlen d = n) as Hd by by rewrite (writes_len _ _ _ W). assert (bytes d) as Hbd by by apply (writes_bytes _ _ _ W).
  assert (fat_offset b + (k + 1) * fat_size b <= root_offset b) as Hk2 by nia. assert (fat_size b <= k * fat_size b) as Hk1 by nia.
  unfold mirror_body. fold (fat_size b). replace (k <? bp_fat_count b) with true by lia. replace (mlen d <? fat_offset b + k * fat_size b + fat_size b) with false by lia.
  rewrite slice_window by lia. run_step. rewrite (window_frame _ _ _ _ _ W) by ((cbn; unfold disjoint; lia) || lia).
  destruct (window_ok m (fat_offset b) (fat_size b)) as [Hw Lw]; [lia..|].
  destruct (splice_ok d (fat_offset b + k * fat_size b) (window m (fat_offset b) (fat_size b))) as (d' & -> & W' & S'); [lia|lia|done|exact (stored_bytes _ _ _ Hm Hw)|].
  run_step. exists d'. split; [done|]. rewrite Lw in W'. split.
  - transitivity d; [done|]. eapply writes_within; [|exact W']. apply Forall_singleton. intros a Ha. exists copies. split; [by left|]. unfold inside in *. cbn in *. lia.
  - intros j Hj. destruct (decide (j = k)) as [->|]; [done|]. eapply writes_stored; [exact W'| |apply Hst; lia]. split; [|done]. rewrite Lw. cbn. unfold disjoint. left. nia.
Qed.

Lemma mirror_fats_ok m : mlen m = n -> bytes m ->
  exists m', mirror_fats (mkImage m b) = Done (Ok (mkImage m' b)) /\ writes [copies] m m' /\
    forall j, 1 <= j < bp_fat_count b -> stored m' (fat_offset b + j * fat_size b) (window m (fat_offset b) (fat_size b)).
Proof.
  intros Hn Hm. pose proof (sn_fats _ _ Hsane) as Hf. unfold mirror_fats. cbn [data bpb].
  set (Q := fun d => writes [copies] m d /\ forall j, 1 <= j < bp_fat_count b -> stored d (fat_offset b + j * fat_size b) (window m (fat_offset b) (fat_size b))).
  destruct (loop_total (fun st => 1 <= st.2 <= bp_fat_count b /\ writes [copies] m st.1 /\
      forall j, 1 <= j < st.2 -> stored st.1 (fat_offset b + j * fat_size b) (window m (fat_offset b) (fat_size b)))
    (fun st => Z.to_nat (bp_fat_count b - st.2)) (fun r => exists d, r = Ok d /\ Q d) (mirror_body b))
    with (fuel := (Z.to_nat (bp_fat_count b) + 1)%nat) (s := (m, 1)) as (r & E & d & -> & HQ); [| | |rewrite E; by exists d].
  - intros [d k] (Hk & W & Hst). cbn [fst snd] in *. destruct (decide (k = bp_fat_count b)) as [->|].
    + unfold mirror_body. rewrite Z.ltb_irrefl. eexists. split; [reflexivity|]. by exists d.
    + destruct (mirror_turn m d k) as (d' & -> & W' & Hst'); [done|done|lia|done|done|]. eexists. split; [reflexivity|]. cbn [fst snd]. split; [|lia]. split_and!; [lia|lia|done|done].
  - cbn [fst snd]. split_and!; [lia|lia|reflexivity|intros j Hj; lia].
  - cbn [snd]. lia.
Qed.

(** ** Volumes

    The files of the root directory are a map; [chains] gives the clusters of the file in
    a slot. *)
Definition content (m : list Z) (l : list Z) (size : Z) : list Z := take (Z.to_nat size) (mjoin (cluster_at b m <$> l)).

Definition file_chain (m : list Z) (start size : Z) (l : list Z) : Prop :=
  match l with
  | [] => start < 2 /\ size = 0
  | c :: t => start = c /\ NoDup l /\ Forall (good b n) l /\ (exists e, linked b m l e /\ eoc_min b <= e) /\
      Z.of_nat (length t) * cluster_size b < size <= Z.of_nat (length l) * cluster_size b
  end.

Definition slot_entry (m : list Z) (i : nat) : DirEntry := entry_of (slot m i).
Definition regular (m : list Z) (i : nat) : Prop := (i < slots)%nat /\ visible (slot m i) = true /\ is_dir (slot_entry m i) = false.

Record volume (m : list Z) (chains : nat -> list Z) (files : gmap (list Z) (list Z)) : Prop := {
  vo_len : mlen m = n;
  vo_bytes : bytes m;
  vo_parse : Bpb_parse m = Ok b;
  vo_tidy : tidy m;
  vo_chain i : regular m i -> file_chain m (de_start_cluster (slot_entry m i)) (de_size (slot_entry m i)) (chains i);
  vo_apart i j c : regular m i -> regular m j -> i <> j -> c ∈ chains i -> c ∉ chains j;
  vo_files f bs : files !! f = Some bs <-> exists i, shows m i f /\ is_dir (slot_entry m i) = false /\ bs = content m (chains i) (de_size (slot_entry m i))
}.

Lemma chain_good m start size l : file_chain m start size l -> Forall (good b n) l.
Proof. destruct l as [|c t]; [done|]. by intros (_ & _ & H & _). Qed.

Lemma chain_used m start size l c : file_chain m start size l -> c ∈ l -> 2 <= fat_at b m c.
Proof.
  destruct l as [|c0 t]; [intros _ Hc; by apply elem_of_nil in Hc|]. intros (_ & _ & Hg & (e & Hl & He) & _) Hc. destruct (eoc_entry b) as (K & _).
  eapply linked_next; [exact Hl|lia| |exact Hc]. eapply Forall_impl; [exact Hg|]. intros x [Hx _]. lia.
Qed.

Lemma chain_frame m m' start size l : (forall c, c ∈ l -> fat_at b m' c = fat_at b m c) -> file_chain m start size l -> file_chain m' start size l.
Proof.
  intros Hf. destruct l as [|c t]; [done|]. intros (H1 & H2 & H3 & (e & Hl & He) & H5). split_and!; try done; try lia. exists e. split; [|done]. by eapply linked_frame.
Qed.

Lemma content_frame m m' l size : (forall c, c ∈ l -> cluster_at b m' c = cluster_at b m c) -> content m' l size = content m l size.
Proof. intros Hf. unfold content. do 2 f_equal. apply list_fmap_ext. intros i c Hc. apply Hf. by eapply list_elem_of_lookup_2. Qed.

(** Reading the file of a chain. *)
Lemma read_file_ok m e l : mlen m = n -> bytes m -> file_chain m (de_start_cluster e) (de_size e) l ->
  read_file (mkImage m b) e = Done (Ok (content m l (de_size e))).
Proof.
  intros Hn Hm. unfold read_file. destruct l as [|c t].
  - intros [H1 H2]. unfold read_clusters. replace (de_start_cluster e <? 2) with true by lia. unfold rtry. run_step. by rewrite H2.
  - intros (-> & H2 & H3 & (x & Hl & _) & H5). rewrite (read_chain_ok b n Hsane m _ t x) by done. done.
Qed.

Lemma regular_shows m i : regular m i -> shows m i (take 11 (slot m i)).
Proof. intros (? & ? & ?). by split_and!. Qed.

Definition set_chain (chains : nat -> list Z) (k : nat) (l : list Z) : nat -> list Z := fun i => if decide (i = k) then l else chains i.

Lemma set_chain_same chains k l : set_chain chains k l k = l.
Proof. unfold set_chain. by rewrite decide_True. Qed.

Lemma set_chain_other chains k l i : i <> k -> set_chain chains k l i = chains i.
Proof. intros. unfold set_chain. by rewrite decide_False. Qed.

(** What the rest of the volume must not notice when slot [k] changes. *)
Record others_kept (m m' : list Z) (chains : nat -> list Z) (k : nat) : Prop := {
  ok_len : mlen m' = n;
  ok_bytes : bytes m';
  ok_parse : Bpb_parse m' = Bpb_parse m;
  ok_slots i : (i < slots)%nat -> i <> k -> slot m' i = slot m i;
  ok_table i c : i <> k -> regular m i -> c ∈ chains i -> fat_at b m' c = fat_at b m c;
  ok_clusters i c : i <> k -> regular m i -> c ∈ chains i -> cluster_at b m' c = cluster_at b m c
}.

(** What is in slot [k] now: nothing, or the file [f]. *)
Definition slot_holds (m m' : list Z) (chains : nat -> list Z) (k : nat) (f : list Z) (new : option (list Z)) (l : list Z) : Prop :=
  match new with
  | Some bs => shows m' k f /\ is_dir (slot_entry m' k) = false /\ file_chain m' (de_start_cluster (slot_entry m' k)) (de_size (slot_entry m' k)) l /\
      bs = content m' l (de_size (slot_entry m' k)) /\ (forall i c, i <> k -> regular m i -> c ∈ chains i -> c ∉ l)
  | None => visible (slot m' k) = false
  end.

Lemma kept_regular m m' chains k i : others_kept m m' chains k -> i <> k -> (regular m' i <-> regular m i).
Proof.
  intros Hk Hne. unfold regular, slot_entry. destruct (decide (i < slots)%nat) as [Hi|]; [|by split; intros [? _]].
  by rewrite (ok_slots _ _ _ _ Hk).
Qed.

Lemma kept_shows m m' chains k i f : others_kept m m' chains k -> i <> k -> (shows m' i f <-> shows m i f).
Proof.
  intros Hk Hne. unfold shows. destruct (decide (i < slots)%nat) as [Hi|]; [|by split; intros [? _]]. by rewrite (ok_slots _ _ _ _ Hk).
Qed.

Lemma kept_content m m' chains k i : others_kept m m' chains k -> i <> k -> regular m i ->
  slot_entry m' i = slot_entry m i /\ content m' (chains i) (de_size (slot_entry m i)) = content m (chains i) (de_size (slot_entry m i)).
Proof.
  intros Hk Hne Hr. split; [unfold slot_entry; by rewrite (ok_slots _ _ _ _ Hk) by (apply Hr || done)|].
  apply content_frame. intros c Hc. by eapply (ok_clusters _ _ _ _ Hk).
Qed.

Section Update.
Context (m m' : list Z) (chains : nat -> list Z) (files : gmap (list Z) (list Z)) (k : nat) (f : list Z) (new : option (list Z)) (l : list Z).
Context (Hvol : volume m chains files) (Hkept : others_kept m m' chains k) (Hholds : slot_holds m m' chains k f new l) (Hk : (k < slots)%nat).
(** No other slot has the name, and the slot was not that of another file. *)
Context (Hname : forall i, shows m i f -> i = k) (Hold : forall g, shows m k g -> g = f).
Context (Hlive : ended (slot m' k) = false) (Hbefore : forall i, (i < k)%nat -> ended (slot m i) = false).

Lemma update_tidy : tidy m'.
Proof.
  destruct (vo_tidy _ _ _ Hvol) as [Ht Hn]. constructor.
  - intros i j Hij He. destruct (decide (i = k)) as [->|Hi]; [congruence|]. rewrite (ok_slots _ _ _ _ Hkept) in He by (done || lia).
    destruct (decide (j = k)) as [->|Hj]; [rewrite Hbefore in He by lia; done|]. rewrite (ok_slots _ _ _ _ Hkept) by (done || lia). by apply (Ht i j).
  - assert (forall g, shows m' k g -> g = f) as Hk'.
    { intros g (H1 & H2 & H3). unfold slot_holds in Hholds. destruct new; [|congruence]. destruct Hholds as ((_ & _ & H4) & _). congruence. }
    intros i j g Hi Hj. destruct (decide (i = k)) as [->|Hik]; destruct (decide (j = k)) as [->|Hjk]; [done|..].
    + rewrite (kept_shows m m' chains k) in Hj by done. pose proof (Hk' _ Hi) as ->. symmetry. by apply Hname.
    + rewrite (kept_shows m m' chains k) in Hi by done. pose proof (Hk' _ Hj) as ->. by apply Hname.
    + rewrite (kept_shows m m' chains k) in Hi, Hj by done. by apply (Hn i j g).
Qed.

Lemma update_files g bs : partial_alter (fun _ => new) f files !! g = Some bs <->
  exists i, shows m' i g /\ is_dir (slot_entry m' i) = false /\ bs = content m' (set_chain chains k l i) (de_size (slot_entry m' i)).
Proof.
  assert (forall g, shows m' k g -> g = f) as Hk'.
  { intros g' (H1 & H2 & H3). unfold slot_holds in Hholds. destruct new; [|congruence]. destruct Hholds as ((_ & _ & H4) & _). congruence. }
  destruct (decide (f = g)) as [<-|Hne].
  - rewrite lookup_partial_alter_eq. split.
    + intros ->. destruct Hholds as (H1 & H2 & H3 & -> & _). exists k. by rewrite set_chain_same.
    + intros (i & Hs & Hd & ->). destruct (decide (i = k)) as [->|Hik]; [|apply (kept_shows m m' chains k) in Hs; [destruct Hik; by apply Hname|done|done]].
      unfold slot_holds in Hholds. destruct new as [bs'|]; [|destruct Hs as (_ & Hs & _); congruence]. destruct Hholds as (_ & _ & _ & -> & _). by rewrite set_chain_same.
  - rewrite lookup_partial_alter_ne by done. rewrite (vo_files _ _ _ Hvol). split.
    + intros (i & Hs & Hd & ->). assert (i <> k) as Hik by (intros ->; by apply Hold in Hs). exists i.
      destruct (kept_content m m' chains k i Hkept Hik) as [E1 E2]; [destruct Hs as (? & ? & ?); by split_and!|].
      rewrite (kept_shows m m' chains k), E1, set_chain_other by done. done.
    + intros (i & Hs & Hd & ->). assert (i <> k) as Hik by (intros ->; by apply Hk' in Hs). exists i.
      assert (regular m' i) as Hr by (destruct Hs as (? & ? & ?); by split_and!). rewrite (kept_regular m m' chains k) in Hr by done.
      destruct (kept_content m m' chains k i Hkept Hik Hr) as [E1 E2]. rewrite (kept_shows m m' chains k) in Hs by done. rewrite E1 in *. by rewrite set_chain_other by done.
Qed.

(** One slot changes, the map changes in one name. *)
Lemma volume_update : volume m' (set_chain chains k l) (partial_alter (fun _ => new) f files).
Proof.
  assert (forall i, regular m' i -> i <> k -> regular m i) as Hr by (intros i Hi Hne; by apply (kept_regular m m' chains k) in Hi).
  assert (regular m' k -> exists bs, new = Some bs) as Hrk.
  { intros (_ & Hv & _). unfold slot_holds in Hholds. destruct new as [bs|]; [by exists bs|congruence]. }
  constructor.
  - exact (ok_len _ _ _ _ Hkept).
  - exact (ok_bytes _ _ _ _ Hkept).
  - rewrite (ok_parse _ _ _ _ Hkept). exact (vo_parse _ _ _ Hvol).
  - exact update_tidy.
  - intros i Hi. destruct (decide (i = k)) as [->|Hik].
    + destruct (Hrk Hi) as [bs ->]. rewrite set_chain_same. apply Hholds.
    + rewrite set_chain_other by done. destruct (kept_content m m' chains k i Hkept Hik (Hr i Hi Hik)) as [-> _].
      apply (chain_frame m); [|by apply (vo_chain _ _ _ Hvol), Hr]. intros c Hc. eapply (ok_table _ _ _ _ Hkept); [done|by apply Hr|done].
  - assert (forall i c, regular m' i -> i <> k -> regular m' k -> c ∈ chains i -> c ∉ l) as Hfresh.
    { intros i c Hi Hne Hrk' Hc. destruct (Hrk Hrk') as [bs ->]. destruct Hholds as (_ & _ & _ & _ & H). eapply H; [exact Hne|by apply Hr|done]. }
    intros i j c Hi Hj Hne Hc. destruct (decide (i = k)) as [->|Hik]; [|destruct (decide (j = k)) as [->|Hjk]].
    + rewrite set_chain_same in Hc. rewrite set_chain_other by done. intros Hc'. by apply (Hfresh j c) in Hc'.
    + rewrite set_chain_other in Hc by done. rewrite set_chain_same. by apply (Hfresh i c).
    + rewrite set_chain_other in * by done. eapply (vo_apart _ _ _ Hvol i j); [by apply Hr|by apply Hr|done|done].
  - exact update_files.
Qed.
End Update.

(** ** Freeing, storing, and what they leave alone *)

Lemma low_apart r l : Forall (good b n) l -> r.1 + r.2 <= data_offset b -> apart r (map (cluster_region b) l).
Proof.
  intros Hg Hr. induction Hg as [|c l Hc _ IH]; [done|]. destruct (cluster_fits b n Hsane c Hc). split; [|exact IH]. unfold cluster_region. cbn. unfold disjoint. lia.
Qed.

Lemma free_file_ok m start size l : mlen m = n -> bytes m -> file_chain m start size l ->
  exists m', free_chain (mkImage m b) start = Done (Ok (mkImage m' b)) /\ writes [table] m m' /\
    forall c, 0 <= c -> fat_at b m' c = if bool_decide (c ∈ l) then 0 else fat_at b m c.
Proof.
  intros Hn Hm. destruct l as [|c t].
  - intros [H1 _]. exists m. unfold free_chain. replace (start <? 2) with true by lia. split_and!; [done|reflexivity|]. intros c _. by rewrite bool_decide_eq_false_2 by apply not_elem_of_nil.
  - intros (-> & H2 & H3 & (e & Hl & He) & _). by apply (free_chain_ok b n Hsane m c t e).
Qed.

Definition store_file (img : Image) (bs : list Z) : run (result (Image * Z)) :=
  if mlen bs =? 0 then Done (Ok (img, 0)) else allocate_and_write img bs.

(** There are free clusters for the bytes. *)
Definition fits (m : list Z) (bs : list Z) : Prop := exists k, room b n m k /\ mlen bs <= Z.of_nat k * cluster_size b.

Lemma store_file_ok m bs : mlen m = n -> bytes m -> bytes bs ->
  settles (store_file (mkImage m b) bs) (fun r => let '(img, start) := r in exists m' l, img = mkImage m' b /\ 0 <= start < 65536 /\
    file_chain m' start (mlen bs) l /\ content m' l (mlen bs) = bs /\ (forall c, c ∈ l -> fat_at b m c = 0) /\
    (forall c, 0 <= c -> in_fat b c = true -> c ∉ l -> fat_at b m' c = fat_at b m c) /\ writes (table :: map (cluster_region b) l) m m') (~ fits m bs).
Proof.
  intros Hn Hm Hb. unfold store_file. destruct (Z.eqb_spec (mlen bs) 0) as [Ez|Ez].
  - apply settles_ok. exists m, []. assert (bs = []) as -> by (destruct bs; [done|]; rewrite mlen_cons in Ez; pose proof (mlen_nonneg bs); lia).
    split_and!; first [done|intros c Hc; by apply elem_of_nil in Hc|reflexivity].
  - eapply settles_weaken; [apply (allocate_and_write_ok b n Hsane m bs Hn Hm Hb); by intros ->| |intros Hr (k & Hk & Hl); specialize (Hr k Hk); lia]. intros [img c] (m' & l & e & -> & Hh & Hl & He & Hlen). pose proof Hh as [H1 H2 H3 [z Hz] H5 H6].
    destruct (eoc_entry b) as (_ & _ & K3). pose proof (sn_kind _ _ Hsane).
    assert (good b n c) as [[Hc1 Hc2] _] by by inversion_clear H2. exists m', (c :: l). split_and!; try done; try lia.
    + split_and!; [done|done|done|by exists e|lia|lia].
    + unfold content. rewrite Hz. unfold mlen. rewrite Nat2Z.id. by rewrite take_app_length.
    + intros x Hx. by apply (proj1 (Forall_forall _ _) H3).
Qed.

(** Everything a command writes lies in these regions. *)
Notation touched k l := (table :: copies :: (slot_pos k, 32) :: map (cluster_region b) l).

Lemma touched_kept m m' k l : writes (touched k l) m m' -> mlen m = n -> bytes m -> Forall (good b n) l -> (k < slots)%nat ->
  mlen m' = n /\ bytes m' /\ Bpb_parse m' = Bpb_parse m /\ (forall i, (i < slots)%nat -> i <> k -> slot m' i = slot m i) /\
  (forall c, good b n c -> c ∉ l -> cluster_at b m' c = cluster_at b m c).
Proof.
  intros W Hn Hm Hg Hk. destruct copies_room as [R1 R2]. destruct (sane_regions b n Hsane) as (R3 & R4 & R5 & R6). pose proof (sn_size _ _ Hsane) as Hfs.
  pose proof (slot_room k Hk) as Hroom. split_and!.
  - by rewrite (writes_len _ _ _ W).
  - by apply (writes_bytes _ _ _ W).
  - apply parse_frame; [apply (writes_len _ _ _ W)|]. intros a Ha. apply (writes_byte _ _ _ (0, 512) _ W); [|unfold inside; cbn; lia].
    cbn [apart]. split_and!; [unfold disjoint; cbn; lia..|]. apply low_apart; [done|cbn; lia].
  - intros i Hi Hne. pose proof (slot_room i Hi) as Hroomi. apply (slot_frame _ _ _ _ W Hn Hi). cbn [apart]. split_and!; [unfold disjoint; cbn; lia..| |].
    + unfold disjoint, slot_pos in *. cbn. lia.
    + apply low_apart; [done|cbn; lia].
  - intros c Hc Hno. apply (cluster_frame b n Hsane _ _ _ _ W Hn Hc). destruct (cluster_fits b n Hsane c Hc) as [F1 F2].
    pose proof (clusters_apart_table b n Hsane c l Hc Hno) as [A1 A2]. split; [exact A1|]. cbn [apart]. split_and!; [unfold disjoint, cluster_region; cbn; lia..|exact A2].
Qed.

Lemma table_low m m' c r : writes [r] m m' -> 0 <= c -> in_fat b c = true -> disjoint (fat_offset b) (fat_size b) r.1 r.2 -> fat_at b m' c = fat_at b m c.
Proof. intros W Hc Hi Hd. apply (table_frame b [r] m m' c W Hc Hi). by split. Qed.

Lemma visible_by_entry s s' : de_raw_name (entry_of s') = de_raw_name (entry_of s) -> de_attr (entry_of s') = de_attr (entry_of s) -> visible s' = visible s.
Proof.
  intros Hn Ha. assert (byte_at s' 0 = byte_at s 0) as H0. { cbn in Hn. rewrite <- (byte_at_take s' 11 0), Hn, byte_at_take by lia. done. }
  unfold visible, free_slot, ended, is_lfn, is_volume_label. by rewrite H0, Ha.
Qed.

(** A file stored after the one in slot [k] is freed does not share clusters with another. *)
Lemma fresh_clusters m m1 chains files k (l : list Z) : volume m chains files ->
  (forall i c, i <> k -> regular m i -> c ∈ chains i -> fat_at b m1 c = fat_at b m c) ->
  (forall c, c ∈ l -> fat_at b m1 c = 0) -> forall i c, i <> k -> regular m i -> c ∈ chains i -> c ∉ l.
Proof.
  intros Hv Hkeep Hfree i c Hne Hr Hc Hl. pose proof (chain_used _ _ _ _ c (vo_chain _ _ _ Hv i Hr) Hc) as H2. rewrite <- (Hkeep i c) in H2 by done. rewrite Hfree in H2 by done. lia.
Qed.

(** After the file is stored, its slot written and the table copied: the steps that every
    command that stores a file ends with. *)
Lemma stored_volume m m1 m2 m3 m4 chains files k f bs l start attr :
  volume m chains files -> (k < slots)%nat -> (forall i, shows m i f -> i = k) -> (forall g, shows m k g -> g = f) -> (forall i, (i < k)%nat -> ended (slot m i) = false) ->
  writes [table] m m1 -> (forall i c, i <> k -> regular m i -> c ∈ chains i -> fat_at b m1 c = fat_at b m c) ->
  file_chain m2 start (mlen bs) l -> content m2 l (mlen bs) = bs -> (forall c, c ∈ l -> fat_at b m1 c = 0) ->
  (forall c, 0 <= c -> in_fat b c = true -> c ∉ l -> fat_at b m2 c = fat_at b m1 c) -> writes (table :: map (cluster_region b) l) m1 m2 ->
  writes [(slot_pos k, 32)] m2 m3 -> slot_entry m3 k = mkDirEntry f attr start (mlen bs) -> visible (slot m3 k) = true -> Z.land attr 0x10 = 0 ->
  writes [copies] m3 m4 -> volume m4 (set_chain chains k l) (<[f := bs]> files).
Proof.
  intros Hv Hk Hname Hold Hbefore W1 Hkeep Hch Hco Hfree Htab W2 W3 He Hvis Hattr W4.
  destruct copies_room as [R1 R2]. destruct (sane_regions b n Hsane) as (R3 & R4 & R5 & R6). pose proof (sn_size _ _ Hsane) as Hfs. pose proof (slot_room k Hk) as Hroom.
  assert (Forall (good b n) l) as Hg by by eapply chain_good. pose proof (fresh_clusters m m1 chains files k l Hv Hkeep Hfree) as Hfresh.
  assert (writes (touched k l) m m4) as W.
  { assert (forall r x y, r ∈ touched k l -> writes [r] x y -> writes (touched k l) x y) as Hone
      by (intros r x y Hr Wr; eapply writes_subset; [|exact Wr]; by intros ? ->%list_elem_of_singleton).
    transitivity m1; [apply (Hone table); [by left|done]|]. transitivity m2; [|transitivity m3; [apply (Hone (slot_pos k, 32)); [right; right; by left|done]|apply (Hone copies); [right; by left|done]]].
    eapply writes_subset; [|exact W2]. intros r Hr. apply elem_of_cons in Hr as [->|Hr]; [by left|by do 3 right]. }
  destruct (touched_kept m m4 k l W (vo_len _ _ _ Hv) (vo_bytes _ _ _ Hv) Hg Hk) as (K1 & K2 & K3 & K4 & K5).
  assert (mlen m2 = n) as Hn2 by by rewrite (writes_len _ _ _ W2), (writes_len _ _ _ W1), (vo_len _ _ _ Hv).
  assert (mlen m3 = n) as Hn3 by by rewrite (writes_len _ _ _ W3).
  assert (forall c, 0 <= c -> in_fat b c = true -> fat_at b m4 c = fat_at b m2 c) as Hf4.
  { intros c Hc Hi. rewrite (table_low m3 m4 c copies), (table_low m2 m3 c (slot_pos k, 32)) by (done || (unfold disjoint; cbn; lia)). done. }
  assert (slot m4 k = slot m3 k) as Es by (apply (slot_frame _ _ _ _ W4 Hn3 Hk); split; [unfold disjoint; cbn; lia|done]).
  assert (others_kept m m4 chains k) as Hkept.
  { constructor; [done|done|done|done| |].
    - intros i c Hne Hr Hc. pose proof (chain_good _ _ _ _ (vo_chain _ _ _ Hv i Hr)) as Hgi. pose proof (proj1 (Forall_forall _ _) Hgi c Hc) as [Hc1 Hc2].
      rewrite Hf4, Htab by (lia || done || by eapply Hfresh). by eapply Hkeep.
    - intros i c Hne Hr Hc. pose proof (chain_good _ _ _ _ (vo_chain _ _ _ Hv i Hr)) as Hgi. apply K5; [by apply (proj1 (Forall_forall _ _) Hgi)|by eapply Hfresh]. }
  apply (volume_update m m4 chains files k f (Some bs) l); try done.
  - assert (slot_entry m4 k = mkDirEntry f attr start (mlen bs)) as E4 by (unfold slot_entry; rewrite Es; exact He).
    assert (forall c, c ∈ l -> fat_at b m4 c = fat_at b m2 c /\ cluster_at b m4 c = cluster_at b m2 c) as Hl4.
    { intros c Hc. pose proof (proj1 (Forall_forall _ _) Hg c Hc) as Hgc. destruct (cluster_fits b n Hsane c Hgc) as [F1 F2]. destruct Hgc as [Hc1 Hc2] eqn:Eg. clear Eg. split; [apply Hf4; [lia|done]|].
      rewrite (cluster_frame b n Hsane _ _ _ _ W4), (cluster_frame b n Hsane _ _ _ _ W3); try done; (split; [unfold cluster_region, disjoint; cbn; lia|done]). }
    unfold slot_holds. rewrite E4. cbn [de_start_cluster de_size]. split_and!.
    + split; [done|]. rewrite Es. split; [done|]. unfold slot_entry in He. by injection He.
    + unfold is_dir. cbn [de_attr]. by rewrite Hattr.
    + apply (chain_frame m2); [|done]. intros c Hc. by apply Hl4.
    + rewrite <- Hco at 1. symmetry. apply content_frame. intros c Hc. by apply Hl4.
    + exact Hfresh.
  - rewrite Es. by apply visible_ended.
Qed.

(** ** Commands *)

Lemma open_ok m chains files : volume m chains files -> open m = Done (Ok (mkImage m b)).
Proof. intros Hv. unfold open. by rewrite (vo_parse _ _ _ Hv). Qed.

Lemma replace_entry_ok m chains files k f bs : volume m chains files -> shows m k f -> is_dir (slot_entry m k) = false -> bytes bs -> mlen bs < 2 ^ 32 ->
  settles (replace_entry (mkImage m b) (slot_pos k) (slot_entry m k) bs) (fun d => exists chains', volume d chains' (<[f := bs]> files)) (~ fits m bs).
Proof.
  intros Hv Hs Hd Hb Hlen. pose proof Hs as (Hk & Hvis & Hf). pose proof (mlen_nonneg bs). unfold replace_entry. fold (store_file (mkImage m b) bs).
  assert (regular m k) as Hrk by by split_and!.
  destruct (free_file_ok m _ _ _ (vo_len _ _ _ Hv) (vo_bytes _ _ _ Hv) (vo_chain _ _ _ Hv k Hrk)) as (m1 & -> & W1 & Hf1). unfold rtry at 1. run_step.
  assert (mlen m1 = n) as Hn1 by by rewrite (writes_len _ _ _ W1), (vo_len _ _ _ Hv). assert (bytes m1) as Hb1 by apply (writes_bytes _ _ _ W1), (vo_bytes _ _ _ Hv).
  eapply settles_try; [eapply settles_weaken; [apply (store_file_ok m1 bs Hn1 Hb1 Hb)|intros r Hr; exact Hr|]|].
  { intros Hno (j & Hj & Hl). apply Hno. exists j. split; [|done]. apply (room_same b n m); [|done]. intros c [[Hc _] _] Hz. rewrite Hf1 by lia. by destruct (bool_decide _). } intros [img start] (m2 & l & -> & Hst & Hch & Hco & Hfree & Htab & W2).
  assert (mlen m2 = n) as Hn2 by by rewrite (writes_len _ _ _ W2). assert (bytes m2) as Hb2 by by apply (writes_bytes _ _ _ W2). rewrite wrap_small by lia.
  destruct (update_dirent_ok m2 k start (mlen bs) Hn2 Hb2 Hk Hst ltac:(lia)) as (m3 & -> & W3 & E3). unfold rtry at 1. run_step.
  assert (mlen m3 = n) as Hn3 by by rewrite (writes_len _ _ _ W3). assert (bytes m3) as Hb3 by by apply (writes_bytes _ _ _ W3).
  destruct (mirror_fats_ok m3 Hn3 Hb3) as (m4 & -> & W4 & _). unfold rtry. run_step. apply settles_ok. exists (set_chain chains k l). cbn [data].
  assert (forall i c, i <> k -> regular m i -> c ∈ chains i -> fat_at b m1 c = fat_at b m c) as Hkeep.
  { intros i c Hne Hr Hc. pose proof (proj1 (Forall_forall _ _) (chain_good _ _ _ _ (vo_chain _ _ _ Hv i Hr)) c Hc) as [Hc1 _]. rewrite Hf1 by lia.
    rewrite bool_decide_eq_false_2; [done|]. by apply (vo_apart _ _ _ Hv i k). }
  assert (slot m2 k = slot m k) as Es.
  { pose proof (slot_room k Hk) as Hroom. destruct (sane_regions b n Hsane) as (R3 & R4 & R5 & R6). pose proof (vo_len _ _ _ Hv) as Hn.
    rewrite (slot_frame _ _ _ k W2 Hn1 Hk); [apply (slot_frame _ _ _ k W1 Hn Hk); split; [unfold disjoint; cbn; lia|done]|].
    split; [unfold disjoint; cbn; lia|]. apply low_apart; [by eapply chain_good|cbn; lia]. }
  rewrite Es in E3. pose proof (vo_tidy _ _ _ Hv) as [Htail Hnames].
  apply (stored_volume m m1 m2 m3 m4 chains files k f bs l start (byte_at (slot m k) 11)); try done.
  - intros i Hi. by apply (Hnames i k f).
  - intros g Hg. destruct Hg as (_ & _ & Hg). congruence.
  - intros i Hi. destruct (ended (slot m i)) eqn:He; [|done]. rewrite <- (visible_ended _ Hvis). symmetry. by apply (Htail i k); [lia|].
  - eapply writes_within; [|exact W3]. apply Forall_singleton. intros a Ha. exists (slot_pos k, 32). split; [by left|]. unfold inside in *. cbn in *. lia.
  - unfold slot_entry. rewrite E3. by rewrite Hf.
  - rewrite <- Hvis. apply visible_by_entry; by rewrite E3.
  - unfold is_dir, slot_entry in Hd. cbn [entry_of de_attr] in Hd. destruct (Z.eqb_spec (Z.land (byte_at (slot m k) 11) 16) 0); done.
Qed.

Lemma create_ok m chains files k f bs : volume m chains files -> dir_find m f = None -> first_from (fun i => free_slot (slot m i)) 0 slots = Some k ->
  bytes f -> mlen f = 11 -> byte_at f 0 <> 0 -> byte_at f 0 <> 0xE5 -> bytes bs -> mlen bs < 2 ^ 32 ->
  settles (' (img, new_start) ←? store_file (mkImage m b) bs; img ←? write_new_root_dirent img (slot_pos k) f new_start (u32 (mlen bs));
    img ←? mirror_fats img; Done (Ok (data img))) (fun d => exists chains', volume d chains' (<[f := bs]> files)) (~ fits m bs).
Proof.
  intros Hv Hnone Hfirst Hbf Lf H0 H5 Hb Hlen. pose proof (mlen_nonneg bs). pose proof (first_from_spec (fun i => free_slot (slot m i)) 0 slots) as Hs. rewrite Hfirst in Hs.
  destruct Hs as (Hk & Hkf & Hbefore). assert (k < slots)%nat as Hks by lia. pose proof (vo_len _ _ _ Hv) as Hn.
  eapply settles_try; [apply (store_file_ok m bs Hn (vo_bytes _ _ _ Hv) Hb)|]. intros [img start] (m2 & l & -> & Hst & Hch & Hco & Hfree & Htab & W2).
  assert (mlen m2 = n) as Hn2 by by rewrite (writes_len _ _ _ W2). assert (bytes m2) as Hb2 by apply (writes_bytes _ _ _ W2), (vo_bytes _ _ _ Hv). rewrite wrap_small by lia.
  destruct (write_new_ok m2 k f start (mlen bs) Hn2 Hb2 Hks Hbf Lf Hst ltac:(lia)) as (m3 & -> & W3 & E3). unfold rtry at 1. run_step.
  assert (mlen m3 = n) as Hn3 by by rewrite (writes_len _ _ _ W3). assert (bytes m3) as Hb3 by by apply (writes_bytes _ _ _ W3).
  destruct (mirror_fats_ok m3 Hn3 Hb3) as (m4 & -> & W4 & _). unfold rtry. run_step. apply settles_ok. exists (set_chain chains k l). cbn [data].
  assert (visible (slot m k) = false) as Hvk by (unfold visible; by rewrite Hkf).
  apply (stored_volume m m m2 m3 m4 chains files k f bs l start 0x20); try done.
  - intros i Hi. by destruct (dir_find_none m f (vo_tidy _ _ _ Hv) Hnone i).
  - intros g (_ & Hg & _). congruence.
  - intros i Hi. specialize (Hbefore i ltac:(lia)). unfold free_slot in Hbefore. by destruct (ended (slot m i)).
  - assert (take 11 (slot m3 k) = f /\ byte_at (slot m3 k) 11 = 0x20) as [En Ea] by by injection E3.
    assert (byte_at (slot m3 k) 0 = byte_at f 0) as E0 by (rewrite <- En; symmetry; apply byte_at_take; lia).
    unfold visible, free_slot, ended, is_lfn, is_volume_label. rewrite E3. cbn [de_attr]. rewrite E0.
    by replace (byte_at f 0 =? 0) with false by lia; replace (byte_at f 0 =? 229) with false by lia.
Qed.

Lemma delete_ok m chains files k f : volume m chains files -> shows m k f -> is_dir (slot_entry m k) = false ->
  settles (img ←? free_chain (mkImage m b) (de_start_cluster (slot_entry m k)); img ←? mark_dirent_deleted img (slot_pos k); img ←? mirror_fats img; Done (Ok (data img)))
    (fun d => exists chains', volume d chains' (delete f files)) False.
Proof.
  intros Hv Hs Hd. pose proof Hs as (Hk & Hvis & Hf). assert (regular m k) as Hrk by by split_and!. pose proof (vo_len _ _ _ Hv) as Hn.
  destruct (free_file_ok m _ _ _ Hn (vo_bytes _ _ _ Hv) (vo_chain _ _ _ Hv k Hrk)) as (m1 & -> & W1 & Hf1). unfold rtry at 1. run_step.
  assert (mlen m1 = n) as Hn1 by by rewrite (writes_len _ _ _ W1). assert (bytes m1) as Hb1 by apply (writes_bytes _ _ _ W1), (vo_bytes _ _ _ Hv).
  destruct (mark_deleted_ok m1 k Hn1 Hb1 Hk) as (m3 & -> & W3 & E3). unfold rtry at 1. run_step.
  assert (mlen m3 = n) as Hn3 by by rewrite (writes_len _ _ _ W3). assert (bytes m3) as Hb3 by by apply (writes_bytes _ _ _ W3).
  destruct (mirror_fats_ok m3 Hn3 Hb3) as (m4 & -> & W4 & _). unfold rtry. run_step. apply settles_ok. exists (set_chain chains k []). cbn [data].
  destruct copies_room as [R1 R2]. destruct (sane_regions b n Hsane) as (R3 & R4 & R5 & R6). pose proof (sn_size _ _ Hsane) as Hfs. pose proof (slot_room k Hk) as Hroom.
  pose proof (vo_tidy _ _ _ Hv) as [Htail Hnames].
  assert (writes (touched k []) m m4) as W.
  { transitivity m1; [eapply writes_subset; [|exact W1]; intros r ->%list_elem_of_singleton; by left|]. transitivity m3.
    - eapply writes_within; [|exact W3]. apply Forall_singleton. intros a Ha. exists (slot_pos k, 32). split; [right; right; by left|]. unfold inside in *. cbn in *. lia.
    - eapply writes_subset; [|exact W4]. intros r ->%list_elem_of_singleton. right. by left. }
  destruct (touched_kept m m4 k [] W Hn (vo_bytes _ _ _ Hv) ltac:(done) Hk) as (K1 & K2 & K3 & K4 & K5).
  assert (byte_at (slot m4 k) 0 = 0xE5) as E4.
  { rewrite <- E3. rewrite (slot_frame _ _ _ k W4 Hn3 Hk); [done|]. split; [unfold disjoint; cbn; lia|done]. }
  apply (volume_update m m4 chains files k f None []); try done.
  - constructor; [done..| |].
    + intros i c Hne Hr Hc. pose proof (proj1 (Forall_forall _ _) (chain_good _ _ _ _ (vo_chain _ _ _ Hv i Hr)) c Hc) as [Hc1 Hc2].
      rewrite (table_low m3 m4 c copies), (table_low m1 m3 c (slot_pos k, 1)) by (done || lia || (unfold disjoint; cbn; lia)). rewrite Hf1 by lia.
      rewrite bool_decide_eq_false_2; [done|]. by apply (vo_apart _ _ _ Hv i k).
    + intros i c Hne Hr Hc. apply K5; [|apply not_elem_of_nil]. by apply (proj1 (Forall_forall _ _) (chain_good _ _ _ _ (vo_chain _ _ _ Hv i Hr))).
  - unfold slot_holds, visible, free_slot. rewrite E4. by rewrite orb_true_r.
  - intros i Hi. by apply (Hnames i k f).
  - intros g Hg. destruct Hg as (_ & _ & Hg). congruence.
  - unfold ended. by rewrite E4.
  - intros i Hi. destruct (ended (slot m i)) eqn:He; [|done]. rewrite <- (visible_ended _ Hvis). symmetry. by apply (Htail i k); [lia|].
Qed.

(** The image [d] stores [files] in its root directory. *)
Definition represents (d : list Z) (files : gmap (list Z) (list Z)) : Prop := exists chains, volume d chains files.

(** What a search in the root directory means for the map. *)
Lemma find_means m chains files f : volume m chains files ->
  match dir_find m f with
  | Some k => shows m k f /\ files !! f = if is_dir (slot_entry m k) then None else Some (content m (chains k) (de_size (slot_entry m k)))
  | None => files !! f = None
  end.
Proof.
  intros Hv. pose proof (vo_tidy _ _ _ Hv) as Ht. assert (forall bs, files !! f = Some bs -> exists i, dir_find m f = Some i /\ is_dir (slot_entry m i) = false /\ bs = content m (chains i) (de_size (slot_entry m i))) as Hto.
  { intros bs (i & Hs & Hd & E)%(vo_files _ _ _ Hv). exists i. split; [by apply dir_find_iff|done]. }
  destruct (dir_find m f) as [k|] eqn:Ef.
  - pose proof Ef as Hs. apply dir_find_iff in Hs; [|done]. split; [done|]. destruct (is_dir (slot_entry m k)) eqn:Hd.
    + destruct (files !! f) as [bs|]; [|done]. destruct (Hto bs eq_refl) as (i & [= <-] & Hd' & _). congruence.
    + apply (vo_files _ _ _ Hv). by exists k.
  - destruct (files !! f) as [bs|]; [|done]. by destruct (Hto bs eq_refl) as (i & ? & _).
Qed.

Lemma extract_refines d files name : represents d files ->
  exists msg, cmd_extract d name = Done match to_fat_83 name with
    | Ok f => match files !! f with Some bs => Ok bs | None => Err msg end
    | Err e => Err e
    end.
Proof.
  intros [chains Hv]. unfold cmd_extract. rewrite (open_ok _ _ _ Hv). unfold rtry at 1. run_step. destruct (to_fat_83 name) as [f|e]; [|by exists ""%string].
  unfold find_root_file. rewrite find_root_ok by apply (vo_len _ _ _ Hv). run_step. pose proof (find_means d chains files f Hv) as Hf. destruct (dir_find d f) as [k|]; cbn [fmap option_fmap option_map].
  - fold (slot_entry d k). destruct Hf as [Hs ->]. destruct (is_dir (slot_entry d k)) eqn:Hd; [by eexists|]. exists ""%string.
    apply read_file_ok; [apply (vo_len _ _ _ Hv)|apply (vo_bytes _ _ _ Hv)|]. apply (vo_chain _ _ _ Hv). destruct Hs as (? & ? & _). by split_and!.
  - rewrite Hf. by eexists.
Qed.

(** A new entry for [f] finds a place, and no directory has the name. *)
Definition new_entry (d : list Z) (f : list Z) : Prop :=
  (exists i, (i < slots)%nat /\ free_slot (slot d i) = true) /\ forall k, ~ shows d k f.

Lemma put_refines file d files name bs : refuse_reference_image file = false -> represents d files -> bytes name -> bytes bs -> mlen bs < 2 ^ 32 ->
  (forall f, to_fat_83 name = Ok f -> byte_at f 0 <> 0 /\ byte_at f 0 <> 0xE5) ->
  settles (cmd_put file d name bs) (fun d' => exists f, to_fat_83 name = Ok f /\ represents d' (<[f := bs]> files))
    (forall f, to_fat_83 name = Ok f -> ~ (fits d bs /\ (is_Some (files !! f) \/ new_entry d f))).
Proof.
  intros Hfile [chains Hv] Hbn Hb Hlen Hname. unfold cmd_put. rewrite Hfile, (open_ok _ _ _ Hv). unfold rtry at 1. run_step. destruct (to_fat_83 name) as [f|e] eqn:Ef; [|by apply settles_err].
  destruct (Hname f eq_refl) as [H0 H5]. destruct (to_fat_83_shape name f Hbn Ef) as [Hbf Lf].
  pose proof (vo_len _ _ _ Hv) as Hn. rewrite find_root_ok by done. run_step. pose proof (find_means d chains files f Hv) as Hf. destruct (dir_find d f) as [k|] eqn:Efind; cbn [fmap option_fmap option_map].
  - fold (slot_entry d k). destruct Hf as [Hs Hff]. destruct (is_dir (slot_entry d k)) eqn:Hd.
    { apply settles_err. intros g [= <-] [_ [[x Hx]|[_ Hnew]]]; [congruence|by destruct (Hnew k)]. }
    eapply settles_weaken; [by apply (replace_entry_ok d chains files k f bs)|intros d' H'; by exists f|]. intros Hno g _ [Hfit _]. done.
  - rewrite find_free_ok by done. unfold rtry at 1. run_step. pose proof (first_from_spec (fun i => free_slot (slot d i)) 0 slots) as Hfirst. destruct (first_from _ 0 slots) as [k|] eqn:Efree.
    + eapply settles_weaken; [by apply (create_ok d chains files k f bs)|intros d' H'; by exists f|]. intros Hno g _ [Hfit _]. done.
    + apply settles_err. intros g [= <-] [_ [[x Hx]|[(i & Hi & Hfree) _]]]; [congruence|]. rewrite Hfirst in Hfree by lia. done.
Qed.

Lemma replace_refines file d files name bs : refuse_reference_image file = false -> represents d files -> bytes bs -> mlen bs < 2 ^ 32 ->
  settles (cmd_replace file d name bs) (fun d' => exists f, to_fat_83 name = Ok f /\ is_Some (files !! f) /\ represents d' (<[f := bs]> files))
    (forall f, to_fat_83 name = Ok f -> ~ (fits d bs /\ is_Some (files !! f))).
Proof.
  intros Hfile [chains Hv] Hb Hlen. unfold cmd_replace. rewrite Hfile, (open_ok _ _ _ Hv). unfold rtry at 1. run_step. destruct (to_fat_83 name) as [f|e] eqn:Ef; [|by apply settles_err].
  rewrite find_root_ok by apply (vo_len _ _ _ Hv). run_step. pose proof (find_means d chains files f Hv) as Hf. destruct (dir_find d f) as [k|] eqn:Efind; cbn [fmap option_fmap option_map].
  2: { apply settles_err. intros g [= <-] [_ [x Hx]]. congruence. }
  fold (slot_entry d k). destruct Hf as [Hs Hff]. destruct (is_dir (slot_entry d k)) eqn:Hd.
  { apply settles_err. intros g [= <-] [_ [x Hx]]. congruence. }
  eapply settles_weaken; [by apply (replace_entry_ok d chains files k f bs)|intros d' H'; exists f; rewrite Hff; by split_and!|]. intros Hno g _ [Hfit _]. done.
Qed.

Lemma delete_refines file d files name c ignore : refuse_reference_image file = false -> represents d files -> path_components name = [c] ->
  settles (cmd_delete ignore file d name) (fun d' => exists f, to_fat_83 c = Ok f /\ (ignore = false -> is_Some (files !! f)) /\ represents d' (delete f files))
    (forall f, to_fat_83 c = Ok f -> files !! f = None).
Proof.
  intros Hfile [chains Hv] Hp. unfold cmd_delete. rewrite Hfile, (open_ok _ _ _ Hv). unfold rtry at 1. run_step. unfold find_file_path. rewrite Hp. destruct (to_fat_83 c) as [f|e] eqn:Ef; [|by apply settles_err].
  rewrite find_root_ok by apply (vo_len _ _ _ Hv). unfold rtry at 1. run_step. pose proof (find_means d chains files f Hv) as Hf. destruct (dir_find d f) as [k|] eqn:Efind; cbn [fmap option_fmap option_map].
  - fold (slot_entry d k). destruct Hf as [Hs Hff]. destruct (is_dir (slot_entry d k)) eqn:Hd; [apply settles_err; intros g [= <-]; done|].
    eapply settles_weaken; [by apply (delete_ok d chains files k f)|intros d' H'; exists f; rewrite Hff; by split_and!|done].
  - destruct ignore; [|apply settles_err; by intros g [= <-]]. apply settles_ok. exists f. split_and!; [done|done|]. rewrite delete_id by done. by exists chains.
Qed.

(** C39: on a sane volume the commands are operations on a map from names to contents:
    [extract] looks a name up, [put] and [replace] insert, [delete] deletes, and what every
    other name stores stays.  None faults, and none reports an error when the name is
    allowed, the file exists or has place for an entry, and free clusters suffice.  A name
    may not start with the byte that marks a deleted entry.  An image with the file name of
    a reference image is never written. *)
Theorem commands_refine_map file d files : represents d files ->
  if refuse_reference_image file
  then forall ignore name bs, exists msg, cmd_put file d name bs = Done (Err msg) /\ cmd_replace file d name bs = Done (Err msg) /\ cmd_delete ignore file d name = Done (Err msg)
  else
  (forall name, exists msg, cmd_extract d name = Done match to_fat_83 name with
     | Ok f => match files !! f with Some bs => Ok bs | None => Err msg end
     | Err e => Err e
     end) /\
  (forall name bs, bytes name -> bytes bs -> mlen bs < 2 ^ 32 -> (forall f, to_fat_83 name = Ok f -> byte_at f 0 <> 0 /\ byte_at f 0 <> 0xE5) ->
     settles (cmd_put file d name bs) (fun d' => exists f, to_fat_83 name = Ok f /\ represents d' (<[f := bs]> files))
       (forall f, to_fat_83 name = Ok f -> ~ (fits d bs /\ (is_Some (files !! f) \/ new_entry d f)))) /\
  (forall name bs, bytes bs -> mlen bs < 2 ^ 32 ->
     settles (cmd_replace file d name bs) (fun d' => exists f, to_fat_83 name = Ok f /\ is_Some (files !! f) /\ represents d' (<[f := bs]> files))
       (forall f, to_fat_83 name = Ok f -> ~ (fits d bs /\ is_Some (files !! f)))) /\
  (forall ignore path c, path_components path = [c] ->
     settles (cmd_delete ignore file d path) (fun d' => exists f, to_fat_83 c = Ok f /\ (ignore = false -> is_Some (files !! f)) /\ represents d' (delete f files))
       (forall f, to_fat_83 c = Ok f -> files !! f = None)).
Proof.
  intros Hr. destruct (refuse_reference_image file) eqn:Hf.
  - intros ignore name bs. eexists. unfold cmd_put, cmd_replace, cmd_delete. by rewrite Hf.
  - split_and!; intros.
    + by apply extract_refines.
    + by apply put_refines.
    + by apply replace_refines.
    + by apply delete_refines.
Qed.
End Files.

(** ** The small volume *)

(** [hi.txt], and its name on the disk. *)
Definition hi_txt : list Z := [104; 105; 46; 116; 120; 116].
Definition hi_83 : list Z := [72; 73; 32; 32; 32; 32; 32; 32; 84; 88; 84].

(** [a.img]. *)
Definition test_img : list Z := [97; 46; 105; 109; 103].

Lemma small_represents : represents small_bpb 960 (small_volume empty_table []) ∅.
Proof.
  assert (forall i, (i < slots small_bpb)%nat -> ended (slot small_bpb (small_volume empty_table []) i) = true) as He.
  { intros i Hi. change (slots small_bpb) with 4%nat in Hi. do 4 (destruct i as [|i]; [by vm_compute|]). lia. }
  assert (forall i, (i < slots small_bpb)%nat -> visible (slot small_bpb (small_volume empty_table []) i) = false) as Hv.
  { intros i Hi. unfold visible, free_slot. by rewrite He. }
  exists (fun _ => []). constructor.
  - by vm_compute.
  - by apply bytes_check; vm_compute.
  - by vm_compute.
  - constructor; [intros i j Hij _; by apply He; lia|]. intros i j f (Hi & Hvi & _). by rewrite Hv in Hvi.
  - intros i (Hi & Hvi & _). by rewrite Hv in Hvi.
  - intros i j c (Hi & Hvi & _). by rewrite Hv in Hvi.
  - intros f bs. rewrite lookup_empty. split; [done|]. intros (i & (Hi & Hvi & _) & _). by rewrite Hv in Hvi.
Qed.

(** A file that is put can be extracted. *)
Lemma commands_refine_map_witness : exists d', cmd_put test_img (small_volume empty_table []) hi_txt [1; 2; 3] = Done (Ok d') /\
  represents small_bpb 960 d' {[ hi_83 := [1; 2; 3] ]} /\ cmd_extract d' hi_txt = Done (Ok [1; 2; 3]).
Proof.
  destruct (commands_refine_map small_bpb 960 small_sane test_img (small_volume empty_table []) ∅ small_represents) as (_ & Hput & _).
  destruct (Hput hi_txt [1; 2; 3]) as (r & E & Hr); [by apply bytes_check; vm_compute|by apply bytes_check; vm_compute|done|intros f [= <-]; done|].
  destruct r as [d'|e]; [|by vm_compute in E]. destruct Hr as (f & [= <-] & Hr). exists d'. split; [exact E|]. split; [exact Hr|].
  destruct (commands_refine_map small_bpb 960 small_sane test_img d' _ Hr) as (Hext & _). destruct (Hext hi_txt) as (msg & Ex). exact Ex.
Defined.

(** ** What goes wrong

    A name whose first character has the UTF-8 lead byte [0xE5] (U+5000 to U+5FFF) passes
    [to_fat_83], and its entry is written as a deleted one: [put] reports success, and the
    file is not there. *)
Lemma put_can_hide :
  match cmd_put test_img (small_volume empty_table []) [229; 164; 167] [1; 2; 3] with
  | Done (Ok d') => cmd_extract d' [229; 164; 167] = Done (Err "file not found in root") /\ cmd_ls d' [] = Done (Ok [])
  | _ => False
  end.
Proof. vm_compute. split; reflexivity. Qed.

(** An entry behind the end mark is not part of the directory; after [put] took the slot of
    the mark without setting the mark anew, it is. *)
Definition stale_entry : list Z := [79; 76; 68; 32; 32; 32; 32; 32; 32; 32; 32; 32] ++ replicate 20 0.

Lemma put_revives_stale : let d := small_volume empty_table (replicate 32 0 ++ stale_entry) in
  cmd_ls d [] = Done (Ok []) /\
  match cmd_put test_img d hi_txt [1; 2; 3] with
  | Done (Ok d') => cmd_ls d' [] = Done (Ok [([72; 73; 46; 84; 88; 84], 0x20, 2, 3); ([79; 76; 68], 0x20, 0, 0)])
  | _ => False
  end.
Proof. vm_compute. split; reflexivity. Qed.
