(* ===== verification/Exports.v ===== *)
(** * Exports with work of their own

    [ffi.rs]: most exports forward their arguments to a leaf routine.  Here are the ones
    that do more: guards in front of a slice, results stored through pointers, and pairs
    packed into [EDX:EAX] or one register for the trampoline to take apart. *)

From stdpp Require Import base list.
From Stdlib Require Import ZArith Lia.
From S2P Require Import Prelude Layout Unicode Utf8Stream Time Checksum Crc Net Xfs.

(** ** Definitions *)

(** A null pointer is 0; [slice::from_raw_parts] needs the whole window. *)
Definition rust_crc_32 (m : list Z) (partial poly buffer length : Z) : run Z :=
  if (length =? 0) || (buffer =? 0) then Done partial
  else data ← copy_out m buffer length; Done (crc32_update partial poly data).

(** The pointer and the length are read and advanced in place. *)
Definition rust_unicode_utf8_decode (m : list Z) (ptr_inout len_inout : Z) : run (list Z * Z) :=
  ptr ← ld32 m ptr_inout;
  len ← ld32 m len_inout;
  if (len =? 0) || (ptr =? 0) then Done (m, 0)
  else
    data ← copy_out m ptr len;
    r ← utf8_decode data;
    match r with
    | None => Done (m, 0)
    | Some step =>
        m ← st32 m ptr_inout (u32 (ptr + consumed step));
        m ← st32 m len_inout (len -ₘ u32 (consumed step));
        Done (m, codepoint step)
    end.

Definition rust_checksum_1 (m : list Z) (seed data length : Z) : run Z :=
  if length =? 0 then Done seed else checksum_1 m seed data length.

Definition rust_ntfs_get_time_pack (kos_secs : Z) : Z :=
  let '(lo, hi) := ntfs_get_time_pack kos_secs in Z.lor (u64 (Z.shiftl hi 32)) lo.

Definition rust_ntfs_calculate_time (block : list Z) : run Z :=
  '(lo, hi) ← ntfs_calculate_time_ptr block; Done (Z.lor (u64 (Z.shiftl hi 32)) lo).

Definition rust_ipv4_route (m : list Z)
    (dest device_ptr source ipv4_address ipv4_subnet ipv4_gateway net_device_list source_out device_idx_out : Z) : run (list Z * Z) :=
  r ← ipv4_route m dest device_ptr source ipv4_address ipv4_subnet ipv4_gateway net_device_list;
  m ← st32 m source_out (source_ip r);
  m ← st32 m device_idx_out (device_idx4 r);
  Done (m, dest_ip r).

(** The loop of [rust_utf16_to_8_string]; the result is the memory, the three stored
    registers and the packed word. *)
Definition string_export_body (st : list Z * Z * Z * Z * Z) : run (list Z * Z * Z * Z * Z + list Z * Z * Z * Z * Z) :=
  let '(m, esi, edi, ecx, eax) := st in
  ax ← ld16 m esi;
  let esi := esi + 2 in
  let eax := Z.lor (Z.land eax 0xFFFF0000) ax in
  '(m, r) ← utf16_to_8 m ax edi ecx;
  if negb (r_sf r =? 0) then
    Done (inr (m, u32 esi, if negb (edi_delta r =? 0) then u32 (edi + edi_delta r) else u32 edi, r_ecx r, pack_sf_zf_eax 1 0 eax))
  else
    let ecx := r_ecx r in
    let edi := if negb (edi_delta r =? 0) then edi + edi_delta r else edi in
    if eax =? 0 then Done (inr (m, u32 esi, u32 edi, ecx, pack_sf_zf_eax 0 1 0))
    else Done (inl (m, esi, edi, ecx, eax)).

Definition rust_utf16_to_8_string (m : list Z) (src dest ecx_in : Z) : run (list Z * Z * Z * Z * Z) :=
  loop (S (length m)) string_export_body (m, src, dest, ecx_in, 0).

Definition rust_xfs_get_addr_by_hash (m : list Z) (hash base len : Z) : run Z :=
  r ← xfs_get_addr_by_hash_ptr m hash base len; Done (pack_eax_zf (Xfs.eax r) (Xfs.zf r)).

Definition rust_xfs_get_before_by_hashval (m : list Z) (entries count hash : Z) : run Z :=
  r ← xfs_get_before_by_hashval_ptr m entries count hash; Done (pack_eax_zf (Xfs.eax r) (Xfs.zf r)).

(** ** The exported loop is the crate's *)

Definition exported (r : list Z * StringResult) : list Z * Z * Z * Z * Z :=
  let '(m, r) := r in (m, s_esi r, s_edi r, s_ecx r, pack_sf_zf_eax (s_sf r) (s_zf r) (s_eax r)).

(** The two copies of the streaming loop compute the same, fault for fault; so what
    [Utf8Stream.v] shows of one holds of the exported one. *)
Lemma rust_utf16_to_8_string_agrees m src dest ecx_in :
  rust_utf16_to_8_string m src dest ecx_in = utf16_to_8_string_ptr m src dest ecx_in.
Proof.
  unfold rust_utf16_to_8_string, utf16_to_8_string_ptr, utf16_to_8_string.
  rewrite (loop_map exported utf16_string_body string_export_body).
  - destruct (loop _ _ _) as [[m' r]| |]; done.
  - intros [[[[m1 esi] edi] ecx] eax]. unfold string_export_body, utf16_string_body, utf16_to_8_one, set_ax.
    destruct (ld16 m1 esi) as [ax| |]; [|done..]. run_step. destruct (utf16_to_8 m1 ax edi ecx) as [[m2 r]| |]; [|done..]. run_step.
    destruct (negb (r_sf r =? 0)); [done|]. by destruct (_ =? 0).
Qed.

(** ** Packed pairs *)

Lemma packed_pair lo hi : 0 <= lo < 2 ^ 32 -> 0 <= hi < 2 ^ 32 ->
  let p := Z.lor (u64 (Z.shiftl hi 32)) lo in u32 p = lo /\ u32 (Z.shiftr p 32) = hi.
Proof.
  intros Hl Hh. cbv zeta. rewrite Z.lor_comm, join64 by lia. rewrite shr_eq by lia. unfold wrap.
  split; Z.div_mod_to_equations; lia.
Qed.

(** What the trampolines take apart again. *)
Lemma rust_ntfs_get_time_pack_splits secs :
  (u32 (rust_ntfs_get_time_pack secs), u32 (Z.shiftr (rust_ntfs_get_time_pack secs) 32)) = ntfs_get_time_pack secs.
Proof.
  unfold rust_ntfs_get_time_pack, ntfs_get_time_pack, filetime_from_secs_2001.
  f_equal; apply packed_pair; apply wrap_range; lia.
Qed.

(** ** Decoding a text call by call *)

Fixpoint decode_calls (k : nat) (m : list Z) (ptr_inout len_inout : Z) : run (list Z * list Z) :=
  match k with
  | O => Done (m, [])
  | S k => '(m, c) ← rust_unicode_utf8_decode m ptr_inout len_inout; '(m, cs) ← decode_calls k m ptr_inout len_inout; Done (m, c :: cs)
  end.

Section Decode.
Context (pi li : Z).

(** The slots hold where the bytes [bs] lie and how many they are, apart from them. *)
Record cursor (m : list Z) (p : Z) (bs : list Z) : Prop := {
  cu_bytes : bytes m;
  cu_len : mlen m < 2 ^ 32;
  cu_apart : separate (mlen m) [(pi, 4); (li, 4); (p, mlen bs)];
  cu_ptr : word_at m pi = p;
  cu_left : word_at m li = mlen bs;
  cu_text : stored m p bs;
  cu_some : 0 < p
}.

Lemma decode_step m p c bs : 0 <= c < 65536 -> cursor m p (utf8_bytes c ++ bs) ->
  exists m', rust_unicode_utf8_decode m pi li = Done (m', c) /\ cursor m' (p + utf8_len c) bs /\ writes [(pi, 4); (li, 4)] m m'.
Proof.
  intros Hc [Hm Hl Hap Hp Hlen Hst H0]. pose proof (stored_bytes _ _ _ Hm Hst) as Hbb. pose proof (stored_app _ _ _ _ Hst) as [_ Hst2].
  pose proof (copy_out_stored _ _ _ Hst) as Hcp. rewrite mlen_app in *. fold (utf8_len c) in *.
  pose proof (utf8_len_pos c) as Hu. pose proof (mlen_nonneg bs) as Hb.
  cbn [separate apart fst snd] in Hap. unfold disjoint in Hap.
  destruct (st32_writes m pi (p + utf8_len c)) as (m1 & E1 & W1 & V1); [lia..|].
  destruct (st32_writes m1 li (mlen bs)) as (m2 & E2 & W2 & V2); [rewrite ?(writes_len _ _ _ W1); lia..|].
  exists m2. split_and!.
  - unfold rust_unicode_utf8_decode. rewrite !ld32_ok by lia. run_step. rewrite Hp, Hlen.
    replace ((_ =? 0) || _) with false by lia. rewrite Hcp. run_step. rewrite utf8_decode_eq, utf8_ref_bytes by done. run_step.
    cbn [consumed codepoint]. rewrite (wrap_small 32 (p + _)), E1 by lia. run_step. rewrite (wrap_small 32 (utf8_len c)) by lia.
    rewrite wrap_small by lia. replace (utf8_len c + mlen bs - utf8_len c) with (mlen bs) by lia. by rewrite E2.
  - assert (mlen m2 = mlen m) as L by (by rewrite (writes_len _ _ _ W2), (writes_len _ _ _ W1)).
    split; rewrite ?L; try done; try lia.
    + by apply (writes_bytes _ _ _ W2), (writes_bytes _ _ _ W1).
    + cbn [separate apart fst snd]. unfold disjoint. lia.
    + rewrite <- V1. apply (writes_word _ _ _ _ W2). cbn [apart fst snd]. unfold disjoint. lia.
    + apply (writes_stored [(li, 4)] m1); [done|cbn [apart fst snd]; unfold disjoint; lia|].
      apply (writes_stored [(pi, 4)] m); [done|cbn [apart fst snd]; unfold disjoint; lia|done].
  - by apply (writes_cons _ _ _ m1).
Qed.

(** As many calls as there are characters read the text, leave nothing, and change only
    the two slots; the next call returns 0. *)
Lemma decode_text cs : units cs -> forall m p, cursor m p (mjoin (utf8_bytes <$> cs)) ->
  exists m', decode_calls (length cs) m pi li = Done (m', cs) /\ writes [(pi, 4); (li, 4)] m m' /\
    word_at m' pi = p + mlen (mjoin (utf8_bytes <$> cs)) /\ rust_unicode_utf8_decode m' pi li = Done (m', 0).
Proof.
  induction 1 as [|c cs Hc _ IH]; intros m p Hcu; cbn [fmap list_fmap mjoin list_join] in Hcu |- *.
  - destruct Hcu as [Hm Hl Hap Hp Hlen _ _]. cbn [separate apart fst snd] in Hap. exists m. split_and!; [done|reflexivity| |].
    + change (mlen []) with 0. lia.
    + unfold rust_unicode_utf8_decode. rewrite !ld32_ok by lia. run_step. by rewrite Hlen.
  - destruct (decode_step m p c _ Hc Hcu) as (m1 & E1 & Hcu1 & W1). destruct (IH m1 _ Hcu1) as (m2 & E2 & W2 & P2 & Z2).
    exists m2. split_and!; [|by transitivity m1| |done].
    + cbn [length decode_calls]. rewrite E1. run_step. by rewrite E2.
    + rewrite mlen_app. change (mlen (utf8_bytes c)) with (utf8_len c). rewrite P2. symmetry. apply Z.add_assoc.
Qed.
End Decode.

(** ** Concrete calls *)

(** The two slots at 0 and 4, the text "a" and a two-byte letter at 8. *)
Example decode_two :
  decode_calls 2 [8; 0; 0; 0; 3; 0; 0; 0; 0x61; 0xD0; 0x96] 0 4 = Done ([11; 0; 0; 0; 0; 0; 0; 0; 0x61; 0xD0; 0x96], [0x61; 0x416]).
Proof. vm_compute. reflexivity. Qed.

Example decode_null : rust_unicode_utf8_decode [0; 0; 0; 0; 3; 0; 0; 0] 0 4 = Done ([0; 0; 0; 0; 3; 0; 0; 0], 0).
Proof. vm_compute. reflexivity. Qed.

Lemma decode_text_applies : exists m',
  decode_calls 2 [8; 0; 0; 0; 3; 0; 0; 0; 0x61; 0xD0; 0x96] 0 4 = Done (m', [0x61; 0x416]) /\ word_at m' 0 = 11.
Proof.
  destruct (decode_text 0 4 [0x61; 0x416] ltac:(repeat constructor; lia) [8; 0; 0; 0; 3; 0; 0; 0; 0x61; 0xD0; 0x96] 8) as (m' & E & _ & P & _).
  - split; [|done| |done|done|by apply stored_check|done].
    + repeat constructor; unfold is_byte; lia.
    + cbn [separate apart fst snd]. unfold disjoint, mlen. cbn. lia.
  - by exists m'.
Qed.

Example crc_null : rust_crc_32 [] 5 0xEDB88320 0 4 = Done 5.
Proof. reflexivity. Qed.
